(* ===== verification/_CoqProject ===== *)
-Q . S2P
Prelude.v
GoLib.v
GoURL.v
Errors.v
Account.v
Engine.v
Store.v
SessionRouter.v
Selector.v
AccountService.v
OAuthFlow.v
OAuthCoordinator.v
OAuthRefresh.v
GoHTTP.v
GoJSON.v
GoJSONProofs.v
GoStrings.v
GoAny.v
GoBufio.v
GoAnyProofs.v
Usage.v
GoTime.v
GoOS.v
Config.v
ConfigWriter.v
ConfigProofs.v
GoEncoding.v
OAuthProvider.v
OAuthProviderProofs.v
AuthJSON.v
AuthJSONProofs.v
CodexRequest.v
CodexProofs.v
Collector.v
SSE.v
SSEProofs.v
ChatRequest.v
ChatProofs.v
ChatResponse.v
ChatStream.v
ChatStreamProofs.v
ChatStreamTypes.v
GoMime.v
SystemOne.v
GoRegexp.v
Redaction.v
RedactionProofs.v
GatewayRoutes.v
Bridges.v
Gateway.v
Forwarder.v
AccountModels.v
AccountModelsProofs.v
Proxy.v
ProxyProofs.v
ProxyRecords.v
WebSocket.v
WebSocketProofs.v
Records.v
RecordsProofs.v
Recorder.v
Cleanup.v
Dashboard.v
DashboardProofs.v
UsageRefresher.v
Playground.v
PlaygroundProofs.v
Setup.v
SetupProofs.v
Settings.v
SettingsProofs.v
Witnesses.v
FlowWitnesses.v
GatewayWitnesses.v
ConfigWitnesses.v
ChatWitnesses.v
RecordsWitnesses.v
PlaygroundWitnesses.v
SettingsWitnesses.v
ProviderWitnesses.v
