(* ===== verification/Prelude.v ===== *)
(** * one-llm-router: a verification development (root file)

    one-llm-router is a Go service that puts one OpenAI-compatible endpoint in
    front of a pool of upstream accounts: API-key accounts and ChatGPT
    accounts bound with OAuth.  This library is a shallow embedding of its core
    logic: pure Go functions are functions, stateful ones take and return their
    state, errors are values ([Errors.error], compared with [errors.Is] and
    [errors.As] as in Go), concurrent ones are step relations or contain
    explicit interleaving points.

    ** The program and the files that model it

    - [internal/domain] (accounts, credential shapes, capabilities, base URLs):
      [Account], with the error values of all packages in [Errors].
    - [internal/store/accounts.go] (the account table): [Store], written against
      the interface [Engine.XormEngine] of the database engine, which is not
      part of the repository.  [Engine] states what the store relies on
      ([XormLaws]), gives an in-memory engine that satisfies it ([memEngine],
      for sqlite and for drivers with sub-second timestamps), and the
      rely-guarantee rules for operations other sessions interleave with.
    - [internal/core/session_router.go] (consistent hashing): [SessionRouter].
    - [internal/core/account_selector.go]: [Selector], a client of the class
      [AccountRepository], of which [Store]'s repository is an instance.
    - [internal/core/account_service.go]: [AccountService].
    - [internal/oauth/flow.go], [status.go], [coordinator.go] (browser and
      device flows): [OAuthFlow] has the data, the snapshots and the pure
      helpers; [OAuthCoordinator] is the coordinator as a pool of threads over
      shared state, one atomic action at a time.
    - [internal/oauth/coordinator.go] ([RefreshIfStale]): [OAuthRefresh], over
      [Store].
    - [internal/oauth/exchange.go], [claims.go] and the provider of [flow.go]
      (what the coordinator and the refresh ask of the identity provider):
      [OAuthProvider], theorems in [OAuthProviderProofs].
    - [internal/oauth/import_auth_json.go],
      [internal/api/exportapi/export_auth_json.go]: [AuthJSON], over [Store]
      and [OAuthProvider]; theorems in [AuthJSONProofs].
    - [internal/api/proxy_routes.go]: [GatewayRoutes];
      [internal/provider/bridge.go], [internal/provider/openai/bridge.go],
      [contracts.go] and the header filters of [forwarder.go]: [Bridges];
      [internal/provider/systemone/bridge.go]: [SystemOne]; theorems on these
      in [Gateway].  [forwarder.go] and [client.go] (sending, adapting the
      answer): [Forwarder].  [internal/api/proxy.go], [proxy_models.go],
      [session.go]: [Proxy], over [Selector], [Bridges] and [Forwarder];
      theorems in [ProxyProofs] and, on logged bodies and models,
      [ProxyRecords].
    - [internal/api/websocket_proxy.go], [internal/provider/openai/codex_ws.go]:
      [WebSocket], the branch [Proxy.ServeHTTP] leaves to it: the relay as a
      step relation and the handler around it; theorems in [WebSocketProofs].
    - [internal/store/account_models.go], [internal/core/model_refresh.go]:
      [AccountModels], theorems in [AccountModelsProofs].
    - [internal/core/redaction.go]: [Redaction], over [GoRegexp]; theorems in
      [RedactionProofs].
    - Request records: [internal/store/records.go] with
      [internal/core/request_service.go] and the query validation of
      [internal/api/adminapi/request_logs.go] is [Records] (theorems in
      [RecordsProofs]), against the class [RecordQuery] of what the database
      evaluates; [request_recorder.go] is [Recorder], a pool of threads;
      [cleanup.go] is [Cleanup]; [dashboard_service.go] and
      [gateway_usage_service.go] are [Dashboard] (theorems in
      [DashboardProofs]).
    - [internal/oauth/usage_refresher.go]: [UsageRefresher], over [Store] and
      [OAuthRefresh].
    - [internal/core/playground_service.go],
      [internal/provider/openai/playground.go]: [Playground], theorems in
      [PlaygroundProofs].
    - [internal/api/adminapi/settings.go], [updater.go], the slot of
      [internal/proxydial/proxydial.go], [internal/api/httpio/decode.go]:
      [Settings], over [Config], [ConfigWriter] and [Setup]; theorems in
      [SettingsProofs].
    - [internal/config/loader.go] and [config.go]: [Config] (decoding, merging,
      environment overlay, validation); [writer.go]: [ConfigWriter], over a
      model of one directory with crashes ([GoOS]); theorems in [ConfigProofs].
    - [internal/setup] (the gate and the commit of the first-run setup):
      [Setup], theorems in [SetupProofs].
    - [internal/provider/openai/codex_request.go] (validation and
      normalisation of Responses bodies): [CodexRequest], theorems in
      [CodexProofs]; the request half of [chat_adapter.go]: [ChatRequest],
      theorems in [ChatProofs].
    - Answers: [usage.go] is [Usage]; [sse_collector.go] and the collecting
      functions of [forwarder.go] are [Collector]; [internal/api/sse.go] is
      [SSE], theorems in [SSEProofs]; the response half of [chat_adapter.go]
      is [ChatResponse] (tool calls, collected answers) and [ChatStream] (the
      streaming writer), theorems in [ChatStreamProofs] (streaming against
      collecting) and [ChatStreamTypes] (the shape of every stream).
    - The Go language and standard library as far as the above uses them:
      [GoLib] (bytes, UTF-8, integers, time, floats), [GoURL] (net/url),
      [GoHTTP] (headers), [GoJSON] and [GoJSONProofs] (encoding/json as a
      parser and a printer of JSON trees, with their round trip), [GoTime]
      (durations and RFC 3339), [GoOS] (files, renames, fsync and power loss),
      [GoStrings] (trimming, stable sorting), [GoAny] and [GoAnyProofs]
      (values of type [any], their decoding and encoding), [GoBufio]
      (bufio.Scanner over lines), [GoMime] (media types), [GoRegexp] (regular
      expressions), [GoEncoding] (base64, form encoding).

    Requests enter at [Proxy.ServeHTTP] ([WebSocket.websocket.ServeHTTP] with
    the WebSocket branch), which classifies them
    ([GatewayRoutes]), picks an account ([Selector], which asks [Store] and
    [SessionRouter] and lets [OAuthRefresh] renew the token through its
    [PreForward] hook), finds the bridge and builds the upstream request
    ([Bridges]), whose body is translated for ChatGPT accounts
    ([CodexRequest], [ChatRequest]).  The answer is translated back
    ([ChatResponse], [ChatStream]) and relayed event by event ([SSE]), which
    reads the usage ([Usage]) and the logged body ([Collector]) for the
    request record, whose bodies are redacted ([Redaction]).  [Recorder] hands
    the records to the table of [Records], which [Dashboard] aggregates and
    [Cleanup] trims.  Accounts enter the table through [AccountService] and
    [OAuthCoordinator]; [AccountModels] keeps what they serve and
    [UsageRefresher] their quota windows; [Playground] tries one.  The process
    starts behind the gate of [Setup], which publishes a configuration with
    [ConfigWriter] that [Config] loads, and [Settings] changes it.

    ** What the theorems show

    - The account table (C1, C5): under any interleaving of repository
      calls every row keeps a valid credential shape and its [auth_method]; the
      admin reads do not depend on any secret.
      [Store.credential_refresh_lock]: a credential refresh is an optimistic
      lock with one winner.  Export, creation by name, editing
      and the two credential shapes are theorems of [Store],
      [AccountService] and [Account].
    - Models (C3): a refresh of the upstream models is all or nothing and
      keeps manual rows; [ProxyRecords] shows which accounts a model may use.
    - Selection (C11, C13): the hash ring is minimally disruptive
      ([SessionRouter.Route_correct]: and correct); round robin is fair.
    - The service (C15): the account life cycle.
    - OAuth flows (C17, C19): for every interleaving of rails, cancellations,
      timers, polls and shutdown, one winner per flow, at most one account,
      well-formed secret-free snapshots.
      [OAuthCoordinator.flow_outcome_final]: a terminal outcome never changes.
    - Token refresh (C21, C22): every branch of one refresh; the retry loop
      ends, and a loser of the race neither overwrites nor disables.
    - The identity provider (C10): a call sends little, to the right place and
      through the right client, and returns complete tokens or a typed error.
    - auth.json (C32, C37): an import adds one valid account or nothing, and
      reads back what an export writes.
    - Usage refresh (C14): a pass touches only active OAuth accounts and sends
      each its own credential.
    - The data plane (C23-C26): the routing table, the filter and the bridge
      registry agree; a client cannot influence the router's credentials,
      private headers or OAuth path; one answer and one record per request;
      nothing is sent but on an eligible account with its own credential.
    - WebSockets (C2, C18): what is dialled, for whom, and what is recorded, on
      every branch; the relay passes messages on in order, ends when one side
      does, and closes both connections.
    - Request records (C4, C6, C7, C8, C20, C30): no record is lost or
      attempted twice, and a pending [Close] can return; bodies are kept only
      redacted, and what redaction hides; the dashboard is the report over the
      records of its window; paging returns every matching record once.
    - The playground (C12): every run ends in one answer and one record.
    - Relayed streams (C9, C31): the record of a stream is that of its events,
      the client receives its lines unchanged, and no more than the cap of an
      event is held.
    - Configuration (C27-C29): publishing a file is atomic and durable under a
      crash at any point; what is written is what is loaded; the precedence of
      environment, file and defaults.  [ConfigProofs.config_errors]: no error
      shows a path.
    - Settings (C16, C35): an accepted patch does not depend on the order in
      which a map is visited and is within bounds; an update publishes exactly
      the patched configuration, which the file then loads to, and a refused
      one changes nothing.
    - First-run setup (C33, C34): the gate opens when the setup is done and
      stays open; a commit touches the database before it publishes the file.
      [SetupProofs.Commit_Load]: the next boot finds it.
    - Body translation (C36, C38): every accepted body is in the backend's
      form (translating is idempotent: [CodexProofs]), and the chat adapter
      keeps the conversation.
    - Answers (C39, C40): a streamed answer is rebuilt by its client to what
      the collecting conversion answers; every stream, whole or cut off, is a
      sequence of well-formed chunks of one completion.

    [Witnesses], [FlowWitnesses], [GatewayWitnesses], [ConfigWitnesses],
    [ChatWitnesses], [RecordsWitnesses], [PlaygroundWitnesses],
    [SettingsWitnesses] and [ProviderWitnesses] apply each property with
    hypotheses to a concrete input, and contain executable examples that
    exhibit races of the code (a deletion undone by a concurrent [Enable]; a
    terminal snapshot delivered twice; an internal error for a code consumed
    during a cancellation), answers on which the conversions of one response
    differ, and a WebSocket message cut short but passed on as complete.

    ** Bounds and fuel

    Integers are [Z], with the wrap-around of Go's [int64] and [uint64] written
    out where it can occur ([wrap64], [wrapu64]).  Loops that are not
    structural run on fuel: [OAuthRefresh.refresh_loop] with 2, and C22 shows
    that more changes nothing; [Cleanup.cleanup_loop], which ends with any
    fuel above the number of records ([cleanup_ends]); the walk over pages of
    C8, with the same bound; binary search, media types and shortest float
    digits, with the length or number of digits.  [readWinnerRail]'s two
    attempts are two states of the thread.

    ** What is not modelled

    Logging, HTML rendering, database connections and migrations, process
    wiring, the loopback listener, the
    HTTP handlers that only decode for and render the services above,
    generated code and the web frontend.  [OAuthCoordinator] and
    [OAuthRefresh] take what the provider and [ExtractClaims] answer as
    answers of the environment, one per action, for any provider;
    [OAuthProvider] is the one of the program.  Of the
    dashboards, the health summary is left out; of the settings page, the
    masked proxy URL and the connectivity test.  The clock, random ids, hash
    functions and the network are arguments of the definitions that use them,
    and so is the order in which Go visits a
    map where it can be observed.  The file system of [GoOS] is one
    directory, without permissions; in [GoJSON] a document is a tree, decoded
    as encoding/json decodes it; in [GoAny] an exponent of more than four
    digits in a number is not clamped.  In [GoBufio] a reader reports its end
    in a read of its own; in [ChatStream] a write the client refuses writes
    nothing; a stream reads the clock and draws a request id once. *)

From stdpp Require Export base tactics numbers strings list gmap fin_maps.
From stdpp Require Export relations sorting pretty.

(** ** Fallible computations

    A Go function that returns [(T, error)] is a function to [result T]; the
    error type is fixed later ([Errors.error]), so the monad is generic. *)

Inductive result (E A : Type) : Type :=
  | Ok (a : A)
  | Err (e : E).
Arguments Ok {E A} a.
Arguments Err {E A} e.

#[export] Instance result_ret E : MRet (result E) := fun A => @Ok E A.
#[export] Instance result_bind E : MBind (result E) :=
  fun A B f m => match m with Ok a => f a | Err e => Err e end.

Definition is_ok {E A} (r : result E A) : bool :=
  match r with Ok _ => true | Err _ => false end.

Definition err_of {E A} (r : result E A) : option E :=
  match r with Ok _ => None | Err e => Some e end.

(** ** Hint database and tactics of the development *)

Create HintDb router discriminated.

(** Split every [match] on booleans, options and results in the goal or the
    hypotheses, closing what is contradictory. *)
Ltac crunch_step :=
  first
    [ progress simplify_eq/=
    | match goal with
      | H : context [match ?x with _ => _ end] |- _ =>
          lazymatch x with
          | context [match _ with _ => _ end] => fail
          | _ => destruct x eqn:?
          end
      | |- context [match ?x with _ => _ end] =>
          lazymatch x with
          | context [match _ with _ => _ end] => fail
          | _ => destruct x eqn:?
          end
      end ].
Ltac crunch := repeat crunch_step.

(** Turn boolean (in)equations in the context into propositions. *)
Ltac breflect :=
  repeat match goal with
  | H : orb _ _ = false |- _ => apply orb_false_iff in H as [? ?]
  | H : String.eqb _ _ = true |- _ => apply String.eqb_eq in H
  | H : andb _ _ = true |- _ => apply andb_true_iff in H as [? ?]
  | H : String.eqb _ _ = false |- _ => apply String.eqb_neq in H
  | H : negb _ = false |- _ => apply negb_false_iff in H
  | H : negb _ = true |- _ => apply negb_true_iff in H
  | H : Z.eqb _ _ = true |- _ => apply Z.eqb_eq in H
  | H : Z.eqb _ _ = false |- _ => apply Z.eqb_neq in H
  | H : Z.leb _ _ = true |- _ => apply Z.leb_le in H
  | H : Z.leb _ _ = false |- _ => apply Z.leb_gt in H
  | H : Z.ltb _ _ = true |- _ => apply Z.ltb_lt in H
  | H : Z.ltb _ _ = false |- _ => apply Z.ltb_ge in H
  | H : bool_decide _ = true |- _ => apply bool_decide_eq_true in H
  | H : bool_decide _ = false |- _ => apply bool_decide_eq_false in H
  end.

(** ** Go slices: [None] is the nil slice, [Some l] a non-nil one. *)

Definition slice A := option (list A).
Definition slice_list {A} (s : slice A) : list A := default [] s.

(** ** Generic lemmas *)

Lemma is_ok_true {E A} (r : result E A) : is_ok r = true <-> exists a, r = Ok a.
Proof. destruct r; naive_solver. Qed.

Lemma existsb_eqb_In (x : string) (l : list string) :
  existsb (String.eqb x) l = true <-> x ∈ l.
Proof.
  rewrite existsb_exists; setoid_rewrite String.eqb_eq.
  rewrite list_elem_of_In. naive_solver.
Qed.

#[export] Hint Resolve is_ok_true : router.

(** Elements of a list with distinct keys are determined by their key. *)
Lemma NoDup_fmap_inj {A B} (f : A -> B) (l : list A) x y :
  NoDup (f <$> l) -> x ∈ l -> y ∈ l -> f x = f y -> x = y.
Proof.
  intros Hn [i Hi]%list_elem_of_lookup [j Hj]%list_elem_of_lookup Hf.
  assert (i = j) as ->; [|congruence].
  eapply (NoDup_lookup (f <$> l)); [done| |]; rewrite list_lookup_fmap; [by rewrite Hi|].
  rewrite Hj. simpl. by rewrite Hf.
Qed.

(** An invariant of a step relation holds along its reflexive-transitive
    closure. *)
Lemma rtc_invariant {S} (R : S -> S -> Prop) (I : S -> Prop) :
  (forall s s', R s s' -> I s -> I s') ->
  forall s s', rtc R s s' -> I s -> I s'.
Proof. intros Hstep s s' Hs; induction Hs; eauto. Qed.

(** ** Record update

    [r <| f := v |>] updates one field.  A record type registers its
    eta-expansion as an [Eta] instance; the setter of a projection is computed
    from it by abstracting the projection. *)

Class Eta (R : Type) := eta : R -> R.
Class Setter {R T : Type} (proj : R -> T) := set : T -> R -> R.
#[export] Hint Mode Setter - - ! : typeclass_instances.
Arguments set {R T} proj {_} v r /.

Ltac solve_setter R proj :=
  let e := constr:(_ : Eta R) in
  let e := eval hnf in e in
  lazymatch eval pattern proj in e with
  | ?s _ => let t := eval cbv beta in (fun v r => s (fun _ => v) r) in exact t
  end.
#[export] Hint Extern 1 (@Setter ?R _ ?proj) => solve_setter R proj : typeclass_instances.

#[warnings="-postfix-notation-not-level-1"]
Notation "r <| f := v |>" := (set f v r)
  (at level 12, f at level 8, v at level 200, left associativity,
   format "r  <| f  :=  v |>").
