(* ===== verification/GoLib.v ===== *)
(** * GoLib: the parts of the Go language and standard library the router uses

    Byte strings ([strings], [unicode/utf8]), fixed-width integers, [time]
    and float64.  A Go [string] or [[]byte] is a Stdlib [string] (a list of
    bytes); a [nil] byte slice is distinguished from an empty one with
    [option].  Nothing here models code of the repository itself. *)

From S2P Require Import Prelude.
From Stdlib Require Import SpecFloat.
From Stdlib Require Export Ascii String.

Declare Scope go_scope.
Delimit Scope go_scope with go.
Open Scope string_scope.
Open Scope list_scope.
Open Scope Z_scope.

(** ** Bytes *)

Definition byteZ (a : ascii) : Z := Z.of_N (N_of_ascii a).
Definition Zbyte (z : Z) : ascii := ascii_of_N (Z.to_N z).
Definition lenZ (s : string) : Z := Z.of_nat (String.length s).
Definition bytes_len (b : option string) : Z := lenZ (default "" b).

(** ** [strings]: prefixes, suffixes, substrings, splitting *)

Definition HasPrefix (s p : string) : bool := String.prefix p s.

Fixpoint drop_str (n : nat) (s : string) : string :=
  match n, s with
  | O, _ => s
  | S n', String _ s' => drop_str n' s'
  | S _, EmptyString => EmptyString
  end.

Fixpoint take_str (n : nat) (s : string) : string :=
  match n, s with
  | S n', String a s' => String a (take_str n' s')
  | _, _ => EmptyString
  end.

Definition HasSuffix (s p : string) : bool :=
  (String.length p <=? String.length s)%nat
  && String.eqb (drop_str (String.length s - String.length p)%nat s) p.

Definition TrimPrefix (s p : string) : string :=
  if HasPrefix s p then drop_str (String.length p) s else s.

Definition TrimSuffix (s p : string) : string :=
  if HasSuffix s p then take_str (String.length s - String.length p)%nat s else s.

(** [strings.Contains]. *)
Fixpoint Contains (s sub : string) : bool :=
  HasPrefix s sub ||
  match s with EmptyString => false | String _ s' => Contains s' sub end.

(** [strings.Index] with a one-byte separator: position of the first one. *)
Fixpoint IndexByte (s : string) (c : ascii) : option nat :=
  match s with
  | EmptyString => None
  | String a s' => if Ascii.eqb a c then Some O else S <$> IndexByte s' c
  end.

(** [strings.Split] on a one-byte separator. *)
Fixpoint Split (s : string) (c : ascii) : list string :=
  match s with
  | EmptyString => [EmptyString]
  | String a s' =>
      if Ascii.eqb a c then EmptyString :: Split s' c
      else match Split s' c with
           | w :: ws => String a w :: ws
           | [] => [String a EmptyString]
           end
  end.

(** [strings.Join]. *)
Fixpoint Join (l : list string) (sep : string) : string :=
  match l with
  | [] => ""
  | [x] => x
  | x :: xs => x +:+ sep +:+ Join xs sep
  end.

(** [strings.Trim(s, "c")] with a one-byte cutset. *)
Fixpoint TrimLeftByte (s : string) (c : ascii) : string :=
  match s with
  | String a s' => if Ascii.eqb a c then TrimLeftByte s' c else s
  | EmptyString => EmptyString
  end.
Fixpoint TrimRightByte (s : string) (c : ascii) : string :=
  match s with
  | EmptyString => EmptyString
  | String a s' =>
      let r := TrimRightByte s' c in
      if Ascii.eqb a c && String.eqb r "" then "" else String a r
  end.
Definition TrimByte (s : string) (c : ascii) : string :=
  TrimRightByte (TrimLeftByte s c) c.

(** ** [unicode/utf8]: decoding

    [runes s] splits [s] the way a [for range] loop does: each element is the
    rune (0xFFFD for an invalid byte, of width one) with the bytes it came
    from. *)

Definition RuneError : Z := 0xFFFD.
Definition cont (a : ascii) : bool := (0x80 <=? byteZ a) && (byteZ a <=? 0xBF).
Definition cbits (a : ascii) : Z := Z.land (byteZ a) 0x3F.
Definition rune_bad (a : ascii) : Z * string := (RuneError, String a "").

Definition rune2 (a b : ascii) : option Z :=
  if (0xC2 <=? byteZ a) && (byteZ a <=? 0xDF) && cont b
  then Some (Z.lor (Z.shiftl (Z.land (byteZ a) 0x1F) 6) (cbits b)) else None.

(** Overlong encodings, surrogates and values above U+10FFFF are rejected by
    the range of the second byte. *)
Definition rune3 (a b c : ascii) : option Z :=
  if (0xE0 <=? byteZ a) && (byteZ a <=? 0xEF) && cont b && cont c
     && negb ((byteZ a =? 0xE0) && (byteZ b <? 0xA0))
     && negb ((byteZ a =? 0xED) && (0x9F <? byteZ b))
  then Some (Z.lor (Z.shiftl (Z.land (byteZ a) 0x0F) 12)
              (Z.lor (Z.shiftl (cbits b) 6) (cbits c))) else None.

Definition rune4 (a b c d : ascii) : option Z :=
  if (0xF0 <=? byteZ a) && (byteZ a <=? 0xF4) && cont b && cont c && cont d
     && negb ((byteZ a =? 0xF0) && (byteZ b <? 0x90))
     && negb ((byteZ a =? 0xF4) && (0x8F <? byteZ b))
  then Some (Z.lor (Z.shiftl (Z.land (byteZ a) 0x07) 18)
              (Z.lor (Z.shiftl (cbits b) 12)
                (Z.lor (Z.shiftl (cbits c) 6) (cbits d)))) else None.

Fixpoint runes (s : string) : list (Z * string) :=
  match s with
  | EmptyString => []
  | String a s1 =>
      if byteZ a <? 0x80 then (byteZ a, String a "") :: runes s1
      else match s1 with
      | EmptyString => [rune_bad a]
      | String b s2 =>
          match rune2 a b with
          | Some r => (r, String a (String b "")) :: runes s2
          | None =>
              match s2 with
              | EmptyString => rune_bad a :: runes s1
              | String c s3 =>
                  match rune3 a b c with
                  | Some r => (r, String a (String b (String c ""))) :: runes s3
                  | None =>
                      match s3 with
                      | EmptyString => rune_bad a :: runes s1
                      | String d s4 =>
                          match rune4 a b c d with
                          | Some r => (r, String a (String b (String c (String d "")))) :: runes s4
                          | None => rune_bad a :: runes s1
                          end
                      end
                  end
              end
          end
      end
  end.

Definition RuneCountInString (s : string) : Z := Z.of_nat (List.length (runes s)).

(** [unicode.IsSpace] and [unicode.IsControl]. *)
Definition IsSpace (r : Z) : bool :=
  ((9 <=? r) && (r <=? 13)) || (r =? 32) || (r =? 0x85) || (r =? 0xA0)
  || (r =? 0x1680) || ((0x2000 <=? r) && (r <=? 0x200A))
  || (r =? 0x2028) || (r =? 0x2029) || (r =? 0x202F) || (r =? 0x205F) || (r =? 0x3000).
Definition IsControl (r : Z) : bool :=
  ((0 <=? r) && (r <? 0x20)) || ((0x7F <=? r) && (r <? 0xA0)).

Definition concat_bytes (l : list (Z * string)) : string :=
  foldr (fun p acc => snd p +:+ acc) "" l.

Fixpoint drop_while {A} (f : A -> bool) (l : list A) : list A :=
  match l with
  | [] => []
  | x :: xs => if f x then drop_while f xs else l
  end.

(** [strings.TrimSpace] on the rune decomposition. *)
Definition TrimSpace (s : string) : string :=
  let space p := IsSpace (fst p) in
  concat_bytes (rev (drop_while space (rev (drop_while space (runes s))))).

(** ASCII case folding.  [strings.ToLower] also maps two non-ASCII runes to
    ASCII letters (U+212A KELVIN SIGN to k, U+0130 to i); [ToLower] does both,
    and leaves the other non-ASCII runes alone: the router only searches the
    result for ASCII text, which no other rune can produce. *)
Definition lower_byte (a : ascii) : ascii :=
  if (65 <=? byteZ a) && (byteZ a <=? 90) then Zbyte (byteZ a + 32) else a.

Fixpoint ToLowerASCII (s : string) : string :=
  match s with
  | EmptyString => EmptyString
  | String a s' => String (lower_byte a) (ToLowerASCII s')
  end.

Definition ToLower (s : string) : string :=
  concat_bytes
    ((fun p => (fst p,
        if fst p =? 0x212A then "k" else if fst p =? 0x130 then "i"
        else ToLowerASCII (snd p))) <$> runes s).

(** ** Integers

    [int] and [int64] are 64-bit two's complement. *)

Definition MaxInt64 : Z := 2 ^ 63 - 1.
Definition MinInt64 : Z := - 2 ^ 63.
Definition wrap64 (z : Z) : Z := (z + 2 ^ 63) mod 2 ^ 64 - 2 ^ 63.
Definition int64_ok (z : Z) : Prop := MinInt64 <= z <= MaxInt64.
Definition wrapu64 (z : Z) : Z := z mod 2 ^ 64.

Lemma wrap64_id z : int64_ok z -> wrap64 z = z.
Proof.
  unfold wrap64, int64_ok, MinInt64, MaxInt64; intros.
  rewrite Z.mod_small; lia.
Qed.

Lemma wrap64_range z : int64_ok (wrap64 z).
Proof.
  unfold wrap64, int64_ok, MinInt64, MaxInt64.
  pose proof (Z.mod_pos_bound (z + 2 ^ 63) (2 ^ 64)). lia.
Qed.

(** ** Time

    A [time.Time] is its distance from the Unix epoch in nanoseconds; the
    zero value is 0001-01-01T00:00:00Z.  All values are taken in UTC, so
    [Time.UTC] is the identity.  A [time.Duration] is an int64 of
    nanoseconds. *)

Definition time := Z.
Definition duration := Z.
Definition zero_time : time := -62135596800 * 10 ^ 9.
Definition IsZero (t : time) : bool := t =? zero_time.
Definition UTC (t : time) : time := t.
Definition After (t u : time) : bool := u <? t.
Definition Before (t u : time) : bool := t <? u.
Definition Add (t : time) (d : duration) : time := t + d.
Definition Sub (t u : time) : duration := Z.max MinInt64 (Z.min MaxInt64 (t - u)).
Definition Unix (sec : Z) : time := sec * 10 ^ 9.
Definition Second : duration := 10 ^ 9.
Definition Minute : duration := 60 * 10 ^ 9.
Definition Hour : duration := 3600 * 10 ^ 9.

(** ** float64, as Stdlib's binary64 [spec_float] *)

Definition float64 := spec_float.
Definition f64_of_Z (z : Z) : float64 := binary_normalize 53 1024 z 0 false.
Definition f64_lt (x y : float64) : bool := SFltb x y.
Definition f64_le (x y : float64) : bool := SFleb x y.
Definition f64_eq (x y : float64) : bool := SFeqb x y.
Definition f64_zero : float64 := S754_zero false.

#[export] Instance float64_eq_dec : EqDecision float64.
Proof. unfold EqDecision, Decision, float64. decide equality; first [apply Bool.bool_dec | apply Pos.eq_dec | apply Z.eq_dec]. Defined.

(** ** Lemmas on the byte-string functions *)

Lemma prefix_app p s : HasPrefix (p +:+ s) p = true.
Proof.
  unfold HasPrefix. induction p as [|a p IH]; [by destruct s|].
  simpl. destruct (ascii_dec a a); [apply IH | done].
Qed.

Lemma HasPrefix_spec s p : HasPrefix s p = true <-> exists r, s = p +:+ r.
Proof.
  unfold HasPrefix; split.
  - revert s; induction p as [|a p IH]; intros s; [by exists s|].
    destruct s as [|b s]; simpl; [done|].
    destruct (ascii_dec a b); [subst|done].
    intros [r ->]%IH. by exists r.
  - intros [r ->]. apply prefix_app.
Qed.

Lemma drop_str_app p r : drop_str (String.length p) (p +:+ r) = r.
Proof. induction p; simpl; auto. Qed.

Lemma TrimPrefix_app p r : TrimPrefix (p +:+ r) p = r.
Proof. unfold TrimPrefix. rewrite prefix_app. apply drop_str_app. Qed.

Lemma length_str_app a b :
  String.length (a +:+ b) = (String.length a + String.length b)%nat.
Proof. induction a; simpl; auto. Qed.

Lemma str_app_assoc (a b c : string) : a +:+ (b +:+ c) = (a +:+ b) +:+ c.
Proof. induction a as [|x a IH]; [done|]. apply (f_equal (String x) IH). Qed.

Lemma str_app_nil_r (a : string) : a +:+ "" = a.
Proof. induction a as [|x a IH]; [done|]. apply (f_equal (String x) IH). Qed.

Lemma Split_not_nil s c : Split s c <> [].
Proof. destruct s; simpl; [done|]. destruct (Ascii.eqb _ _); [done|]. by destruct (Split s c). Qed.

Lemma Join_cons x xs sep :
  xs <> [] -> Join (x :: xs) sep = x +:+ sep +:+ Join xs sep.
Proof. by destruct xs. Qed.

(** Splitting and joining on the same separator is the identity. *)
Lemma Join_Split s c : Join (Split s c) (String c "") = s.
Proof.
  induction s as [|a s IH]; [done|]. cbn [Split].
  pose proof (Split_not_nil s c) as Hne.
  destruct (Ascii.eqb_spec a c) as [->|].
  - rewrite Join_cons by done. rewrite IH. done.
  - destruct (Split s c) as [|w ws]; [done|].
    destruct ws; apply (f_equal (String a) IH).
Qed.

Lemma concat_bytes_cons r b l : concat_bytes ((r, b) :: l) = b +:+ concat_bytes l.
Proof. done. Qed.

Lemma runes_concat_aux n s :
  (String.length s <= n)%nat -> concat_bytes (runes s) = s.
Proof.
  revert s; induction n as [|n IH]; intros s Hn.
  { destruct s; [done|simpl in Hn; lia]. }
  destruct s as [|a s1]; [done|]. cbn [String.length] in Hn.
  assert (concat_bytes (rune_bad a :: runes s1) = String a s1) as Hbad.
  { unfold rune_bad. rewrite concat_bytes_cons, IH by lia. done. }
  cbn [runes].
  destruct (byteZ a <? 0x80); [rewrite concat_bytes_cons, IH by lia; done|].
  destruct s1 as [|b s2]; [exact Hbad|]. cbn [String.length] in Hn.
  destruct (rune2 a b); [rewrite concat_bytes_cons, IH by lia; done|].
  destruct s2 as [|c s3]; [exact Hbad|]. cbn [String.length] in Hn.
  destruct (rune3 a b c); [rewrite concat_bytes_cons, IH by lia; done|].
  destruct s3 as [|d s4]; [exact Hbad|]. cbn [String.length] in Hn.
  destruct (rune4 a b c d); [|exact Hbad].
  rewrite concat_bytes_cons, IH by lia; done.
Qed.

(** Decoding loses no byte. *)
Lemma runes_concat s : concat_bytes (runes s) = s.
Proof. by apply (runes_concat_aux (String.length s)). Qed.

Example TrimSpace_ex : TrimSpace "  a b	" = "a b".
Proof. reflexivity. Qed.
Example Split_ex : Split "a.b..c" "."%char = ["a"; "b"; ""; "c"].
Proof. reflexivity. Qed.
Example ToLower_ex : ToLower "Api_KEY" = "api_key".
Proof. reflexivity. Qed.
