(* ===== verification/GoURL.v ===== *)
(** * GoURL: [net/url.Parse] as the router uses it

    The parser of the Go standard library, restricted to the parts of the
    result the router reads: scheme, host, raw query, fragment and whether a
    user is present.  Errors are not distinguished (the router only
    concatenates their text into a message). *)

From S2P Require Import Prelude GoLib.

Record URL := mkURL {
  Scheme : string; Opaque : string; HasUser : bool; Host : string;
  RawPath : string; RawQuery : string; Fragment : string }.

(** [strings.Cut] and [strings.LastIndex] with one-byte separators. *)
Definition Cut (s : string) (c : ascii) : string * string * bool :=
  match IndexByte s c with
  | Some i => (take_str i s, drop_str (S i) s, true)
  | None => (s, "", false)
  end.

Fixpoint LastIndexByte (s : string) (c : ascii) : option nat :=
  match s with
  | EmptyString => None
  | String a s' =>
      match LastIndexByte s' c with
      | Some i => Some (S i)
      | None => if Ascii.eqb a c then Some O else None
      end
  end.

Fixpoint CountByte (s : string) (c : ascii) : nat :=
  match s with
  | EmptyString => O
  | String a s' => if Ascii.eqb a c then S (CountByte s' c) else CountByte s' c
  end.

Fixpoint string_forallb (f : ascii -> bool) (s : string) : bool :=
  match s with EmptyString => true | String a s' => f a && string_forallb f s' end.

Definition isAlpha (a : ascii) : bool :=
  ((97 <=? byteZ a) && (byteZ a <=? 122)) || ((65 <=? byteZ a) && (byteZ a <=? 90)).
Definition isDigit (a : ascii) : bool := (48 <=? byteZ a) && (byteZ a <=? 57).
Definition in_set (set : string) (a : ascii) : bool :=
  negb (string_forallb (fun b => negb (Ascii.eqb a b)) set).
Definition isHex (a : ascii) : bool :=
  isDigit a || in_set "abcdefABCDEF" a.
Definition unhex (a : ascii) : Z :=
  if isDigit a then byteZ a - 48
  else if (97 <=? byteZ a) then byteZ a - 87 else byteZ a - 55.

Definition stringContainsCTLByte (s : string) : bool :=
  negb (string_forallb (fun a => negb ((byteZ a <? 32) || (byteZ a =? 0x7F))) s).

(** [getScheme]: the scheme and the rest; [None] is the "missing protocol
    scheme" error. *)
Fixpoint scheme_scan (raw : string) (acc : string) (s : string) : option (string * string) :=
  match s with
  | EmptyString => Some ("", raw)
  | String c s' =>
      if isAlpha c then scheme_scan raw (acc +:+ String c "") s'
      else if isDigit c || in_set "+-." c then
        if String.eqb acc "" then Some ("", raw) else scheme_scan raw (acc +:+ String c "") s'
      else if Ascii.eqb c ":" then
        if String.eqb acc "" then None else Some (acc, s')
      else Some ("", raw)
  end.
Definition getScheme (raw : string) : option (string * string) := scheme_scan raw "" raw.

(** [unescape] in the modes the parser calls it with. *)
Inductive encoding := encodePath | encodeUserPassword | encodeHost | encodeZone | encodeFragment.

Definition host_like (m : encoding) : bool :=
  match m with encodeHost | encodeZone => true | _ => false end.

(** [shouldEscape(c, encodeHost)] and [shouldEscape(c, encodeZone)]. *)
Definition shouldEscapeHost (c : ascii) : bool :=
  negb (isAlpha c || isDigit c || in_set "!$&'()*+,;=:[]<>-_.~" c || (byteZ c =? 34)).

Definition escape_ok (m : encoding) (h l : ascii) : bool :=
  let is25 := Ascii.eqb h "2" && Ascii.eqb l "5" in
  let v := Zbyte (16 * unhex h + unhex l) in
  match m with
  | encodeHost => negb ((unhex h <? 8) && negb is25)
  | encodeZone => is25 || (byteZ v =? 32) || negb (shouldEscapeHost v)
  | _ => true
  end.

Fixpoint unescape (m : encoding) (s : string) : option string :=
  match s with
  | EmptyString => Some ""
  | String c s1 =>
      if Ascii.eqb c "%" then
        match s1 with
        | String h (String l s3) =>
            if isHex h && isHex l && escape_ok m h l
            then String (Zbyte (16 * unhex h + unhex l)) <$> unescape m s3
            else None
        | _ => None
        end
      else if host_like m && (byteZ c <? 0x80) && shouldEscapeHost c then None
      else String c <$> unescape m s1
  end.

Definition validOptionalPort (port : string) : bool :=
  match port with
  | EmptyString => true
  | String c p => Ascii.eqb c ":" && string_forallb isDigit p
  end.

Definition validUserinfo (s : string) : bool :=
  string_forallb (fun c => isAlpha c || isDigit c || in_set "-._:~!$&'()*+,;=%@" c) s.

(** [parseHost] (Go 1.25.0, the version go.mod names). *)
Definition parseHost (host : string) : option string :=
  if HasPrefix host "[" then
    match LastIndexByte host "]" with
    | None => None
    | Some i =>
        if negb (validOptionalPort (drop_str (S i) host)) then None
        else
          let inside := take_str i host in
          let zone :=
            (fix find (k : nat) (s : string) : option nat :=
               if HasPrefix s "%25" then Some k
               else match s with EmptyString => None | String _ s' => find (S k) s' end)
              O inside in
          match zone with
          | Some z =>
              match unescape encodeHost (take_str z host),
                    unescape encodeZone (drop_str z inside),
                    unescape encodeHost (drop_str i host) with
              | Some a, Some b, Some c => Some (a +:+ b +:+ c)
              | _, _, _ => None
              end
          | None => unescape encodeHost host
          end
    end
  else
    match LastIndexByte host ":" with
    | Some i => if validOptionalPort (drop_str i host) then unescape encodeHost host else None
    | None => unescape encodeHost host
    end.

(** [parseAuthority]: whether a user is present, and the host. *)
Definition parseAuthority (authority : string) : option (bool * string) :=
  match LastIndexByte authority "@" with
  | None => h ← parseHost authority; Some (false, h)
  | Some i =>
      h ← parseHost (drop_str (S i) authority);
      let userinfo := take_str i authority in
      if negb (validUserinfo userinfo) then None
      else
        let '(name, pass, colon) := Cut userinfo ":" in
        _ ← unescape encodeUserPassword name;
        _ ← (if colon : bool then unescape encodeUserPassword pass else Some "");
        Some (true, h)
  end.

(** The part of [Parse] after the fragment is cut off. *)
Definition parse_url (raw : string) : option URL :=
  if stringContainsCTLByte raw then None
  else if String.eqb raw "*" then Some (mkURL "" "" false "" "*" "" "")
  else
    '(scheme0, rest0) ← getScheme raw;
    let scheme := ToLowerASCII scheme0 in
    let '(rest, query) :=
      if HasSuffix rest0 "?" && (CountByte rest0 "?" =? 1)%nat
      then (take_str (String.length rest0 - 1)%nat rest0, "")
      else let '(r, q, _) := Cut rest0 "?" in (r, q) in
    let rooted := HasPrefix rest "/" in
    if negb rooted && negb (String.eqb scheme "") then
      Some (mkURL scheme rest false "" "" query "")
    else if negb rooted && Contains (Cut rest "/").1.1 ":" then None
    else
      '(user, host, path) ←
        (if (negb (String.eqb scheme "") || negb (HasPrefix rest "///")) && HasPrefix rest "//"
         then
           let auth0 := drop_str 2 rest in
           let '(authority, path) :=
             match IndexByte auth0 "/" with
             | Some i => (take_str i auth0, drop_str i auth0)
             | None => (auth0, "")
             end in
           '(user, host) ← parseAuthority authority;
           Some (user, host, path)
         else Some (false, "", rest));
      _ ← unescape encodePath path;
      Some (mkURL scheme "" user host path query "").

Definition Parse (raw : string) : option URL :=
  let '(u, frag, _) := Cut raw "#" in
  url ← parse_url u;
  if String.eqb frag "" then Some url
  else
    f ← unescape encodeFragment frag;
    Some (mkURL (Scheme url) (Opaque url) (HasUser url) (Host url)
                (RawPath url) (RawQuery url) f).

Definition IsAbs (u : URL) : bool := negb (String.eqb (Scheme u) "").

Example Parse_ex1 :
  (fun u => (Scheme u, Host u, RawPath u, RawQuery u)) <$> Parse "HTTPS://api.openai.com:443/v1?a=b"
  = Some ("https", "api.openai.com:443", "/v1", "a=b").
Proof. reflexivity. Qed.
Example Parse_ex2 : Parse "http://h:80x/" = None.
Proof. reflexivity. Qed.
Example Parse_ex3 : Host <$> Parse "http://u:p@[::1]:8080/x" = Some "[::1]:8080".
Proof. reflexivity. Qed.

(** ** Facts about [Parse] *)

Lemma unescape_nonempty m s r : unescape m s = Some r -> s <> "" -> r <> "".
Proof.
  destruct s as [|c s1]; [done|]. intros H _. simpl in H.
  crunch; intros ->; unfold fmap, option_fmap, option_map in *; crunch.
Qed.

Lemma Parse_fragment raw u :
  Parse raw = Some u -> Fragment u = "" ->
  exists v, parse_url (Cut raw "#").1.1 = Some v /\ (Cut raw "#").1.2 = "" /\ u = v.
Proof.
  unfold Parse. destruct (Cut raw "#") as [[a frag] b]. simpl.
  destruct (parse_url a) as [v|]; simpl; [|done].
  destruct (String.eqb_spec frag ""); [naive_solver|].
  destruct (unescape encodeFragment frag) eqn:E; simpl; [|done].
  intros [= <-]. simpl. intros ->. by apply unescape_nonempty in E.
Qed.
