(* ===== verification/Errors.v ===== *)
(** * Errors: the error values of the router

    Go errors are compared by identity ([errors.Is] against a package-level
    sentinel) or by dynamic type ([errors.As]), through the chain built by
    [%w] and [Unwrap].  The closed sum below has one constructor per error
    type of the repository; formatted messages keep their format string and
    arguments instead of the rendered text. *)

From S2P Require Import Prelude GoLib.

(** Package-level [errors.New] values. *)
Inductive sentinel :=
  | ErrNoCapacity | ErrAccountNotFound | ErrRequestRecordNotFound
  | ErrAccountDeleted | ErrInvalidTransition | ErrAuthMethodMismatch
  | ErrInvalidAccountShape | ErrUnknownAuthMethod | ErrAccountModelDuplicate
  | ErrPreForward | ErrModelRefreshStoreFailed | ErrConditionalUpdateConflict
  | ErrFlowInProgress | ErrFlowNotFound | ErrStateMismatch
  | ErrAlreadyConsumed | ErrFlowExpired | ErrMalformedIDToken
  | errConcurrentRefreshConflict
  | ErrNoConfig | ErrUnsupportedVersion | ErrInvalidDBConfig
  | errChatAdapterValidation | errChatAdapterStreamFailed | ErrSSEEventTooLarge | ErrTooLong
  | ErrUpstreamConnectFailed | ErrUpstreamTimeout | ErrInvalidUpstreamRequest | ErrUpstreamResponseInvalid
  | ErrRequestBodyTooLarge | ErrProxyRequired | ErrInvalidProxyURL | ErrUnsupportedMedia
  | DeadlineExceeded | Canceled | ErrNotExist.

#[export] Instance sentinel_eq_dec : EqDecision sentinel.
Proof. solve_decision. Defined.

(** [core.AccountUnavailableReason]. *)
Inductive AccountUnavailableReason :=
  | AccountUnavailableMissing | AccountUnavailableDeleted
  | AccountUnavailableDisabled | AccountUnavailableIneligible
  | AccountUnavailableCredentialUnavailable.

(** A [fmt.Sprintf] result kept as its format and string arguments, and the
    arguments of a formatted message. *)
Definition fmtd : Type := string * list string.
Inductive farg := FInt (z : Z) | FStr (s : string) | FList (l : list fmtd).

Inductive error :=
  | Sentinel (s : sentinel)
  | Errorf (fmt : string) (args : list farg)
  | Wrapf (fmt : string) (args : list farg) (cause : error)
  | Wrapf2 (fmt : string) (cause1 cause2 : error)
  | ValidationError (Field Message : string)
  | AccountSelectionError (AccountID : Z) (Reason : AccountUnavailableReason)
  | PreForwardError (Message : string) (Cause : option error)
  | StoreError (Op : string) (cause : error)
  | TokenExchangeError (code message : string) (httpStatus : Z) (cause : option error)
  | malformedIDTokenError (detail : string) (cause : option error)
  | PathError (Op Path : string) (cause : error)
  | LinkError (Op Old New : string) (cause : error)
  | External (n : Z).

(** [errors.New] inside a function. *)
Definition New (msg : string) : error := Errorf msg [].

(** ** [Unwrap], [errors.Is], [errors.As] *)

(** [AccountSelectionError.Unwrap]: only a missing or deleted account wraps a
    domain sentinel. *)
Definition AccountSelectionError_Unwrap (r : AccountUnavailableReason) : option sentinel :=
  match r with
  | AccountUnavailableMissing => Some ErrAccountNotFound
  | AccountUnavailableDeleted => Some ErrAccountDeleted
  | _ => None
  end.

(** [PreForwardError.Is]: it matches exactly the [ErrPreForward] sentinel. *)
Definition PreForwardError_Is (target : sentinel) : bool :=
  bool_decide (target = ErrPreForward).

Fixpoint errors_Is (e : error) (target : sentinel) : bool :=
  match e with
  | Sentinel s => bool_decide (s = target)
  | Wrapf _ _ c => errors_Is c target
  | AccountSelectionError _ r =>
      match AccountSelectionError_Unwrap r with
      | Some s => bool_decide (s = target)
      | None => false
      end
  | PreForwardError _ c =>
      PreForwardError_Is target
      || match c with Some c => errors_Is c target | None => false end
  | Wrapf2 _ c1 c2 => errors_Is c1 target || errors_Is c2 target
  | StoreError _ c | PathError _ _ c | LinkError _ _ _ c => errors_Is c target
  | TokenExchangeError _ _ _ (Some c) => errors_Is c target
  | malformedIDTokenError _ c =>
      bool_decide (target = ErrMalformedIDToken)
      || match c with Some c => errors_Is c target | None => false end
  | TokenExchangeError _ _ _ None
  | Errorf _ _ | ValidationError _ _ | External _ => false
  end.

(** [errors.As] for the typed errors the code looks for. *)
Fixpoint as_TokenExchangeError (e : error) : option (string * string * Z) :=
  match e with
  | TokenExchangeError c m h _ => Some (c, m, h)
  | Wrapf _ _ c | PathError _ _ c | LinkError _ _ _ c | StoreError _ c | PreForwardError _ (Some c)
  | malformedIDTokenError _ (Some c) => as_TokenExchangeError c
  | Wrapf2 _ c1 c2 =>
      match as_TokenExchangeError c1 with
      | Some r => Some r
      | None => as_TokenExchangeError c2
      end
  | _ => None
  end.

Fixpoint as_StoreError (e : error) : option (string * error) :=
  match e with
  | StoreError op c => Some (op, c)
  | Wrapf _ _ c | PathError _ _ c | LinkError _ _ _ c | PreForwardError _ (Some c)
  | TokenExchangeError _ _ _ (Some c) | malformedIDTokenError _ (Some c) => as_StoreError c
  | Wrapf2 _ c1 c2 =>
      match as_StoreError c1 with
      | Some r => Some r
      | None => as_StoreError c2
      end
  | _ => None
  end.

Fixpoint as_ValidationError (e : error) : option (string * string) :=
  match e with
  | ValidationError f m => Some (f, m)
  | Wrapf _ _ c | PathError _ _ c | LinkError _ _ _ c | StoreError _ c | PreForwardError _ (Some c)
  | TokenExchangeError _ _ _ (Some c) | malformedIDTokenError _ (Some c) => as_ValidationError c
  | Wrapf2 _ c1 c2 =>
      match as_ValidationError c1 with
      | Some r => Some r
      | None => as_ValidationError c2
      end
  | _ => None
  end.

Definition IsValidationError (e : error) : bool :=
  match as_ValidationError e with Some _ => true | None => false end.

(** Lookup by sentinel is preserved by wrapping. *)
Lemma errors_Is_Wrapf f a e t : errors_Is (Wrapf f a e) t = errors_Is e t.
Proof. reflexivity. Qed.
Lemma errors_Is_Sentinel s : errors_Is (Sentinel s) s = true.
Proof. simpl. by rewrite bool_decide_eq_true. Qed.
#[export] Hint Resolve errors_Is_Sentinel : router.
