(* ===== verification/Account.v ===== *)
(** * Account: the domain model (internal/domain)

    The upstream account row, its credential-shape invariant
    ([UpstreamAccount.Validate]), capability matching, the account-name,
    API-key and base-URL rules, and the account-model row. *)

From S2P Require Import Prelude GoLib GoURL Errors.

(** ** Constants (account.go, base_url.go, account_name.go, apikey.go) *)

Definition AccountStatusActive := "active".
Definition AccountStatusDisabled := "disabled".
Definition AccountStatusDeleted := "deleted".

Definition ProviderOpenAI := "openai".
Definition ProviderAnthropic := "anthropic".

Definition ProviderDefaultURLs (p : string) : option string :=
  if String.eqb p ProviderOpenAI then Some "https://api.openai.com/v1"
  else if String.eqb p ProviderAnthropic then Some "https://api.anthropic.com/v1"
  else None.

Definition ChatGPTBackendBaseURL := "https://chatgpt.com/backend-api".

(** [AuthMethod] is a named string: unknown values are representable. *)
Definition AuthMethodAPIKey := "api_key".
Definition AuthMethodOAuthBrowser := "oauth_browser".
Definition AuthMethodOAuthDevice := "oauth_device".
Definition AuthMethodOAuthImport := "oauth_import".

Definition BaseURLMaxLen : Z := 256.
Definition AccountNameMaxLen : Z := 64.
Definition UpstreamAPIKeyMinLen : Z := 1.
Definition UpstreamAPIKeyMaxLen : Z := 256.

(** ** base_url.go *)

(** The text of a [url.Parse] error is not modelled; the message keeps the
    prefix the code puts in front of it. *)
Definition ValidateBaseURL (raw : string) : option error :=
  let fail m := Some (ValidationError "base_url" m) in
  if BaseURLMaxLen <? lenZ raw then fail "base_url must be ≤256 characters"
  else match Parse raw with
  | None => fail "invalid URL: "
  | Some parsed =>
      if negb (IsAbs parsed) then fail "must be an absolute URL"
      else
        let scheme := ToLowerASCII (Scheme parsed) in
        if negb (String.eqb scheme "http") && negb (String.eqb scheme "https")
        then fail "scheme must be http or https"
        else if String.eqb (Host parsed) "" then fail "host is required"
        else if negb (String.eqb (RawQuery parsed) "") || negb (String.eqb (Fragment parsed) "")
        then fail "base_url must not contain query string or fragment"
        else None
  end.

(** ** account_name.go, apikey.go *)

Definition ValidAccountName (value : string) : bool :=
  let trimmed := TrimSpace value in
  if String.eqb trimmed "" then false
  else if AccountNameMaxLen <? RuneCountInString trimmed then false
  else negb (existsb (fun p => IsControl (fst p)) (runes trimmed)).

Definition ValidUpstreamAPIKey (value : string) : bool :=
  let n := lenZ (TrimSpace value) in
  (UpstreamAPIKeyMinLen <=? n) && (n <=? UpstreamAPIKeyMaxLen).

(** ** The account row (account.go) *)

Record UpstreamAccount := mkUpstreamAccount {
  ID : Z;
  Name : string;
  Provider : string;
  APIKey : string;
  BaseURL : option string;
  Status : string;
  CreatedAt : time;
  UpdatedAt : time;
  AuthMethod : string;
  AccessToken : option string;
  RefreshToken : option string;
  IDToken : option string;
  LastRefresh : option time;
  AccessExpiresAt : option time;
  Email : option string;
  PlanType : option string;
  ChatGPTAccountID : option string;
  UseProxy : bool;
  Capabilities : slice string;
  PrimaryUsedPercent : option float64;
  SecondaryUsedPercent : option float64;
  UsageUpdatedAt : option time;
  PrimaryResetAt : option time;
  SecondaryResetAt : option time;
  PrimaryWindowSeconds : option Z;
  SecondaryWindowSeconds : option Z }.

#[export] Instance eta_UpstreamAccount : Eta UpstreamAccount := fun a =>
  mkUpstreamAccount (ID a) (Name a) (Provider a) (APIKey a) (BaseURL a) (Status a)
    (CreatedAt a) (UpdatedAt a) (AuthMethod a) (AccessToken a) (RefreshToken a)
    (IDToken a) (LastRefresh a) (AccessExpiresAt a) (Email a) (PlanType a)
    (ChatGPTAccountID a) (UseProxy a) (Capabilities a) (PrimaryUsedPercent a)
    (SecondaryUsedPercent a) (UsageUpdatedAt a) (PrimaryResetAt a)
    (SecondaryResetAt a) (PrimaryWindowSeconds a) (SecondaryWindowSeconds a).

#[export] Instance UpstreamAccount_eq_dec : EqDecision UpstreamAccount.
Proof. solve_decision. Defined.

(** The zero value of the struct. *)
Definition zero_account : UpstreamAccount :=
  mkUpstreamAccount 0 "" "" "" None "" zero_time zero_time "" None None None None None
    None None None false None None None None None None None None.

Definition EffectiveBaseURL (a : UpstreamAccount) : string :=
  match BaseURL a with
  | Some u => if negb (String.eqb u "") then u
              else default (default "" (ProviderDefaultURLs ProviderOpenAI))
                     (ProviderDefaultURLs (Provider a))
  | None => default (default "" (ProviderDefaultURLs ProviderOpenAI))
              (ProviderDefaultURLs (Provider a))
  end.

Definition IsOAuth (a : UpstreamAccount) : bool :=
  String.eqb (AuthMethod a) AuthMethodOAuthBrowser
  || String.eqb (AuthMethod a) AuthMethodOAuthDevice
  || String.eqb (AuthMethod a) AuthMethodOAuthImport.

Definition CapabilitySystemOne := "op.systemone".
Definition capabilityGovernedPrefixes : list string :=
  [CapabilitySystemOne; "op.openai.chat_completions"; "op.openai.responses"].

Definition slices_Contains (s : slice string) (x : string) : bool :=
  existsb (String.eqb x) (slice_list s).

Definition SystemOneOnly (a : UpstreamAccount) : bool :=
  negb (IsOAuth a) && slices_Contains (Capabilities a) CapabilitySystemOne
  && negb (slices_Contains (Capabilities a) "op.openai.chat_completions")
  && negb (slices_Contains (Capabilities a) "op.openai.responses").

Definition capability_known (c : string) : bool :=
  existsb (String.eqb c) capabilityGovernedPrefixes.

(** The first unknown entry is reported. *)
Fixpoint ValidateCapabilities (caps : list string) : option error :=
  match caps with
  | [] => None
  | c :: rest =>
      if capability_known c then ValidateCapabilities rest
      else Some (Errorf "unknown capability: %q" [FStr c])
  end.

Definition HasCapabilityFor (a : UpstreamAccount) (opID : string) : bool :=
  if IsOAuth a then true
  else
    let governed := existsb (fun p => HasPrefix opID (p +:+ ".")) capabilityGovernedPrefixes in
    if negb governed then true
    else existsb (fun cap => HasPrefix opID (cap +:+ ".")) (slice_list (Capabilities a)).

(** ** [Validate] *)

(** The list of offending fields is an ordered list of conditional appends. *)
Definition offend (b : bool) (what : string) : list fmtd := if b then [(what, [])] else [].
Definition isSome {A} (o : option A) : bool := match o with Some _ => true | None => false end.

Definition validateAPIKeyShape_offenders (a : UpstreamAccount) : list fmtd :=
  offend (String.eqb (APIKey a) "") "api_key=empty"
  ++ offend (isSome (AccessToken a)) "access_token=non-nil"
  ++ offend (isSome (RefreshToken a)) "refresh_token=non-nil"
  ++ offend (isSome (IDToken a)) "id_token=non-nil"
  ++ offend (isSome (LastRefresh a)) "last_refresh=non-nil"
  ++ offend (isSome (AccessExpiresAt a)) "access_expires_at=non-nil"
  ++ offend (isSome (Email a)) "email=non-nil"
  ++ offend (isSome (PlanType a)) "plan_type=non-nil"
  ++ offend (isSome (ChatGPTAccountID a)) "chatgpt_account_id=non-nil"
  ++ flat_map (fun cap => if capability_known cap then [] else [("capabilities=%q (unknown)", [cap])])
       (slice_list (Capabilities a))
  ++ offend (isSome (PrimaryUsedPercent a)) "primary_used_percent=non-nil"
  ++ offend (isSome (SecondaryUsedPercent a)) "secondary_used_percent=non-nil"
  ++ offend (isSome (UsageUpdatedAt a)) "usage_updated_at=non-nil"
  ++ offend (isSome (PrimaryResetAt a)) "primary_reset_at=non-nil"
  ++ offend (isSome (SecondaryResetAt a)) "secondary_reset_at=non-nil"
  ++ offend (isSome (PrimaryWindowSeconds a)) "primary_window_seconds=non-nil"
  ++ offend (isSome (SecondaryWindowSeconds a)) "secondary_window_seconds=non-nil".

(** The System One base-URL requirement returns before any offender is
    collected. *)
Definition validateAPIKeyShape_systemone (a : UpstreamAccount) : option error :=
  if slices_Contains (Capabilities a) CapabilitySystemOne then
    match BaseURL a with
    | None => Some (ValidationError "base_url" "base_url is required for System One")
    | Some u =>
        if String.eqb (TrimSpace u) ""
        then Some (ValidationError "base_url" "base_url is required for System One")
        else ValidateBaseURL u
    end
  else None.

Definition validateAPIKeyShape (a : UpstreamAccount) : option error :=
  match validateAPIKeyShape_systemone a with
  | Some e => Some e
  | None =>
      match validateAPIKeyShape_offenders a with
      | [] => None
      | offenders =>
          Some (Wrapf "%w: auth_method=api_key requires api_key set + all OAuth fields nil; offenders=%v"
                      [FList offenders] (Sentinel ErrInvalidAccountShape))
      end
  end.

Definition validateOAuthShape_offenders (a : UpstreamAccount) : list fmtd :=
  offend (slices_Contains (Capabilities a) CapabilitySystemOne) "systemone requires api_key"
  ++ offend (negb (String.eqb (APIKey a) "")) "api_key=non-empty"
  ++ offend (bytes_len (AccessToken a) =? 0) "access_token=empty"
  ++ offend (bytes_len (RefreshToken a) =? 0) "refresh_token=empty"
  ++ offend (bytes_len (IDToken a) =? 0) "id_token=empty"
  ++ offend (negb (isSome (LastRefresh a))) "last_refresh=nil"
  ++ offend (negb (isSome (AccessExpiresAt a))) "access_expires_at=nil".

Definition validateOAuthShape (a : UpstreamAccount) : option error :=
  match validateOAuthShape_offenders a with
  | [] => None
  | offenders =>
      Some (Wrapf "%w: auth_method=%s requires api_key nil + {access_token,refresh_token,id_token,last_refresh,access_expires_at} set; offenders=%v"
                  [FStr (AuthMethod a); FList offenders] (Sentinel ErrInvalidAccountShape))
  end.

(** The receiver is a pointer: [None] is the nil receiver. *)
Definition Validate (a : option UpstreamAccount) : option error :=
  match a with
  | None => Some (Wrapf "%w: nil receiver" [] (Sentinel ErrInvalidAccountShape))
  | Some a =>
      if String.eqb (AuthMethod a) AuthMethodAPIKey then validateAPIKeyShape a
      else if IsOAuth a then validateOAuthShape a
      else Some (Wrapf "%w: %q (valid: api_key|oauth_browser|oauth_device|oauth_import)"
                       [FStr (AuthMethod a)] (Sentinel ErrUnknownAuthMethod))
  end.

(** ** account_model.go *)

Record AccountModel := mkAccountModel {
  m_ID : Z; m_AccountID : Z; m_ModelID : string; m_Source : string;
  m_Metadata : option string; m_CreatedAt : time; m_UpdatedAt : time }.

#[export] Instance eta_AccountModel : Eta AccountModel := fun m =>
  mkAccountModel (m_ID m) (m_AccountID m) (m_ModelID m) (m_Source m) (m_Metadata m)
    (m_CreatedAt m) (m_UpdatedAt m).
#[export] Instance AccountModel_eq_dec : EqDecision AccountModel.
Proof. solve_decision. Defined.

Record AccountModelDraft := mkAccountModelDraft { d_ID : string; d_Metadata : option string }.

Definition AccountModelSourceManual := "manual".
Definition AccountModelSourceUpstream := "upstream".

(** ** Lemmas *)

Lemma offend_nil b w : offend b w = [] <-> b = false.
Proof. destruct b; naive_solver. Qed.

Lemma isSome_false {A} (o : option A) : isSome o = false <-> o = None.
Proof. destruct o; naive_solver. Qed.

Lemma isSome_true {A} (o : option A) : isSome o = true <-> is_Some o.
Proof. destruct o; simpl; unfold is_Some; naive_solver. Qed.

Lemma slices_Contains_true s x : slices_Contains s x = true <-> x ∈ slice_list s.
Proof. apply existsb_eqb_In. Qed.

Lemma flat_map_nil {A B} (f : A -> list B) l :
  flat_map f l = [] <-> Forall (fun x => f x = []) l.
Proof.
  induction l as [|x l IH]; simpl; [naive_solver|].
  rewrite Forall_cons, app_nil, IH. done.
Qed.

Lemma capability_known_iff c : capability_known c = true <-> c ∈ capabilityGovernedPrefixes.
Proof. apply existsb_eqb_In. Qed.

(** [ValidateCapabilities] accepts exactly the sublists of the known set. *)
Lemma ValidateCapabilities_ok caps :
  ValidateCapabilities caps = None <-> Forall (fun c => c ∈ capabilityGovernedPrefixes) caps.
Proof.
  induction caps as [|c l IH]; simpl; [naive_solver|].
  rewrite Forall_cons, <- IH, <- capability_known_iff.
  destruct (capability_known c); naive_solver.
Qed.

(** Reading the fields of an accepted row off the accepting run. *)
Definition api_key_shape (a : UpstreamAccount) : Prop :=
  APIKey a <> ""
  /\ AccessToken a = None /\ RefreshToken a = None /\ IDToken a = None
  /\ LastRefresh a = None /\ AccessExpiresAt a = None
  /\ Email a = None /\ PlanType a = None /\ ChatGPTAccountID a = None
  /\ Forall (fun c => c ∈ capabilityGovernedPrefixes) (slice_list (Capabilities a))
  /\ PrimaryUsedPercent a = None /\ SecondaryUsedPercent a = None
  /\ UsageUpdatedAt a = None /\ PrimaryResetAt a = None /\ SecondaryResetAt a = None
  /\ PrimaryWindowSeconds a = None /\ SecondaryWindowSeconds a = None.

Definition oauth_shape (a : UpstreamAccount) : Prop :=
  ~ CapabilitySystemOne ∈ slice_list (Capabilities a)
  /\ APIKey a = ""
  /\ bytes_len (AccessToken a) <> 0 /\ bytes_len (RefreshToken a) <> 0
  /\ bytes_len (IDToken a) <> 0
  /\ is_Some (LastRefresh a) /\ is_Some (AccessExpiresAt a).

Lemma api_key_offenders_nil a :
  validateAPIKeyShape_offenders a = [] <-> api_key_shape a.
Proof.
  unfold validateAPIKeyShape_offenders, api_key_shape.
  rewrite !app_nil, !offend_nil, !isSome_false, flat_map_nil.
  rewrite String.eqb_neq.
  assert (forall l, Forall (fun cap => (if capability_known cap then []
      else [("capabilities=%q (unknown)", [cap])]) = []) l
      <-> Forall (fun c => c ∈ capabilityGovernedPrefixes) l) as Hcap.
  { intros l. apply Forall_iff. intros c. rewrite <- capability_known_iff.
    destruct (capability_known c); naive_solver. }
  rewrite Hcap. done.
Qed.

Lemma oauth_offenders_nil a :
  validateOAuthShape_offenders a = [] <-> oauth_shape a.
Proof.
  unfold validateOAuthShape_offenders, oauth_shape.
  rewrite !app_nil, !offend_nil, !negb_false_iff, !isSome_true, !Z.eqb_neq.
  rewrite <- slices_Contains_true, not_true_iff_false, String.eqb_eq. done.
Qed.

Lemma validateAPIKeyShape_ok a :
  validateAPIKeyShape a = None <->
  validateAPIKeyShape_systemone a = None /\ api_key_shape a.
Proof.
  unfold validateAPIKeyShape. rewrite <- api_key_offenders_nil.
  destruct (validateAPIKeyShape_systemone a); [naive_solver|].
  destruct (validateAPIKeyShape_offenders a); naive_solver.
Qed.

Lemma validateOAuthShape_ok a : validateOAuthShape a = None <-> oauth_shape a.
Proof.
  unfold validateOAuthShape. rewrite <- oauth_offenders_nil.
  destruct (validateOAuthShape_offenders a); naive_solver.
Qed.

(** A row accepted by [Validate] is an API-key row or an OAuth row. *)
Lemma Validate_ok a :
  Validate (Some a) = None <->
  (AuthMethod a = AuthMethodAPIKey /\ validateAPIKeyShape_systemone a = None /\ api_key_shape a)
  \/ (IsOAuth a = true /\ oauth_shape a).
Proof.
  unfold Validate.
  destruct (String.eqb_spec (AuthMethod a) AuthMethodAPIKey) as [E|E].
  - rewrite validateAPIKeyShape_ok.
    assert (IsOAuth a = false) as -> by (unfold IsOAuth; by rewrite E). naive_solver.
  - destruct (IsOAuth a); [rewrite validateOAuthShape_ok|]; naive_solver.
Qed.

(** ** Properties *)

Lemma IsOAuth_methods a :
  IsOAuth a = true <->
  AuthMethod a ∈ [AuthMethodOAuthBrowser; AuthMethodOAuthDevice; AuthMethodOAuthImport].
Proof.
  unfold IsOAuth. rewrite !orb_true_iff, !String.eqb_eq.
  rewrite !elem_of_cons, elem_of_nil. tauto.
Qed.

Lemma ValidateBaseURL_error u e :
  ValidateBaseURL u = Some e -> exists m, e = ValidationError "base_url" m.
Proof. unfold ValidateBaseURL. repeat case_match; intros; simplify_eq; eauto. Qed.

Lemma systemone_error a e :
  validateAPIKeyShape_systemone a = Some e ->
  CapabilitySystemOne ∈ slice_list (Capabilities a) /\ exists m, e = ValidationError "base_url" m.
Proof.
  unfold validateAPIKeyShape_systemone. rewrite <- slices_Contains_true.
  destruct (slices_Contains _ _); [|done]. intros Hv. split; [done|].
  destruct (BaseURL a) as [u|]; [|naive_solver].
  destruct (String.eqb _ _); [naive_solver | by apply ValidateBaseURL_error in Hv].
Qed.

(** The sentinel an error carries, read by [errors.Is] in the callers. *)
Definition verdict (a : UpstreamAccount) (e : error) : Prop :=
  (errors_Is e ErrUnknownAuthMethod = true /\ AuthMethod a <> AuthMethodAPIKey /\ IsOAuth a = false)
  \/ (errors_Is e ErrInvalidAccountShape = true /\ AuthMethod a = AuthMethodAPIKey
      /\ ~ api_key_shape a)
  \/ (errors_Is e ErrInvalidAccountShape = true /\ IsOAuth a = true /\ ~ oauth_shape a)
  \/ ((exists m, e = ValidationError "base_url" m) /\ AuthMethod a = AuthMethodAPIKey
      /\ CapabilitySystemOne ∈ slice_list (Capabilities a)).

(** [Validate] decides the credential shape.  It accepts exactly the
    API-key rows (a key, no OAuth or usage column, known capabilities, a
    usable base URL when System One is enabled) and the OAuth rows (no key,
    all five token and expiry columns, no System One), and every rejection
    carries the sentinel of its cause. *)
Theorem Validate_decides a :
  (Validate (Some a) = None <->
    (AuthMethod a = AuthMethodAPIKey /\ validateAPIKeyShape_systemone a = None /\ api_key_shape a)
    \/ (IsOAuth a = true /\ oauth_shape a))
  /\ (forall e, Validate (Some a) = Some e -> verdict a e)
  /\ (exists e, Validate None = Some e /\ errors_Is e ErrInvalidAccountShape = true).
Proof.
  split; [apply Validate_ok|]. split; [|by eexists]. intros e. unfold Validate, verdict.
  destruct (String.eqb_spec (AuthMethod a) AuthMethodAPIKey) as [E|E].
  - unfold validateAPIKeyShape. rewrite <- api_key_offenders_nil.
    destruct (validateAPIKeyShape_systemone a) eqn:Hs.
    + apply systemone_error in Hs. naive_solver.
    + destruct (validateAPIKeyShape_offenders a); [done|]. intros [= <-]. right; left. done.
  - destruct (IsOAuth a) eqn:Ho; [|intros [= <-]; by left].
    unfold validateOAuthShape. rewrite <- oauth_offenders_nil.
    destruct (validateOAuthShape_offenders a); [done|]. intros [= <-]. do 2 right; left. done.
Qed.

(** The governed prefixes do not overlap: a capability matches an operation
    of exactly its own family. *)
Lemma governed_disjoint c g rest :
  c ∈ capabilityGovernedPrefixes -> g ∈ capabilityGovernedPrefixes ->
  HasPrefix (g +:+ "." +:+ rest) (c +:+ ".") = true -> c = g.
Proof.
  unfold capabilityGovernedPrefixes. rewrite !elem_of_cons, !elem_of_nil.
  intros [->|[->|[->|[]]]] [->|[->|[->|[]]]]; done.
Qed.

(** Capability matching is exact on valid API-key accounts: an operation
    of a governed family is allowed iff the family itself is listed, an
    operation outside every governed family is always allowed, and OAuth
    accounts are never restricted. *)
Theorem capability_exact a op :
  Validate (Some a) = None ->
  (forall g rest, g ∈ capabilityGovernedPrefixes -> op = g +:+ "." +:+ rest -> IsOAuth a = false ->
     (HasCapabilityFor a op = true <-> g ∈ slice_list (Capabilities a)))
  /\ ((forall g, g ∈ capabilityGovernedPrefixes -> HasPrefix op (g +:+ ".") = false) ->
      HasCapabilityFor a op = true)
  /\ (IsOAuth a = true -> HasCapabilityFor a op = true).
Proof.
  intros Hv. unfold HasCapabilityFor. split; [|split; [|by intros ->]].
  - intros g rest Hg -> Ho. rewrite Ho.
    assert (forall x, HasPrefix (x +:+ "." +:+ rest) (x +:+ ".") = true) as Hpre.
    { intros x. rewrite str_app_assoc. apply prefix_app. }
    assert (existsb (fun p => HasPrefix (g +:+ "." +:+ rest) (p +:+ ".")) capabilityGovernedPrefixes = true) as ->.
    { apply existsb_exists. exists g. split; [by apply list_elem_of_In | apply Hpre]. }
    simpl negb. cbv iota. rewrite existsb_exists. split.
    + intros (c & Hc & Hp). apply list_elem_of_In in Hc.
      apply Validate_ok in Hv as [(_ & _ & Hs)|[Ho' _]]; [|congruence].
      destruct Hs as (_ & _ & _ & _ & _ & _ & _ & _ & _ & Hcaps & _).
      rewrite Forall_forall in Hcaps.
      by rewrite <- (governed_disjoint c g rest (Hcaps _ Hc) Hg Hp).
    + intros Hin. exists g. split; [by apply list_elem_of_In | apply Hpre].
  - intros Hno. destruct (IsOAuth a); [done|].
    destruct (existsb _ capabilityGovernedPrefixes) eqn:E; [|done].
    apply existsb_exists in E as (g & Hg & Hp). apply list_elem_of_In in Hg. by rewrite Hno in Hp.
Qed.
