(* ===== verification/Engine.v ===== *)
(** * Engine: the database as the store layer sees it

    The store talks to its database through xorm, which is not part of this
    repository.  [XormEngine] lists the statements the store issues over the
    [upstream_accounts] table, [XormLaws] states what the store relies on, and
    [memEngine] is one implementation that satisfies the laws, so the theorems
    proved against the interface apply to something.

    Other sessions may commit between two statements of one store operation:
    [others i] is what they do before the [i]-th point at which the operation
    can be interleaved.  Every theorem quantifies over it. *)

From S2P Require Import Prelude GoLib Errors Account.

(** ** The state-and-error monad of store operations *)

Definition M (DB A : Type) : Type := DB -> result error A * DB.

#[export] Instance M_ret DB : MRet (M DB) := fun A a db => (Ok a, db).
#[export] Instance M_bind DB : MBind (M DB) := fun A B f m db =>
  match m db with
  | (Ok a, db') => f a db'
  | (Err e, db') => (Err e, db')
  end.

Definition fail {DB A} (e : error) : M DB A := fun db => (Err e, db).
Definition lift {DB A} (f : DB -> result error A) : M DB A := fun db => (f db, db).
(** [if err != nil { return wrap(err) }] around a statement. *)
Definition wrap_err {DB A} (w : error -> error) (m : M DB A) : M DB A := fun db =>
  match m db with
  | (Ok a, db') => (Ok a, db')
  | (Err e, db') => (Err (w e), db')
  end.

(** ** The interface *)

Class XormEngine (DB : Type) := {
  (** [engine.DriverName()]. *)
  eng_driver : string;
  (** The precision at which the database keeps a timestamp. *)
  eng_trunc : time -> time;
  (** The table, as a map from the primary key. *)
  eng_rows : DB -> gmap Z UpstreamAccount;
  (** [Where(p).Get(row)]. *)
  eng_get : (UpstreamAccount -> bool) -> DB -> result error (option UpstreamAccount);
  (** [Where(p).OrderBy("id ASC").Find(&rows)]. *)
  eng_find : (UpstreamAccount -> bool) -> DB -> result error (list UpstreamAccount);
  (** [Insert(row)]: the stored row, with its assigned primary key. *)
  eng_insert : UpstreamAccount -> M DB UpstreamAccount;
  (** [Where(p).Cols(...).Update(row)], the columns as a function: the number
      of rows affected. *)
  eng_update : (UpstreamAccount -> bool) -> (UpstreamAccount -> UpstreamAccount) -> M DB Z;
  (** How the database reads a time given as a statement argument. *)
  eng_arg : time -> time;
  (** [sess.Begin()], and [sess.Commit()] with the keys the transaction
      inserted: a failed commit may or may not have taken effect. *)
  eng_begin : M DB unit;
  eng_commit : list Z -> M DB unit;
}.

(** What other sessions do at an interleaving point. *)
Class Others (DB : Type) := others : nat -> DB -> DB.
Definition interleave {DB} `{Others DB} (i : nat) : M DB unit := fun db => (Ok tt, others i db).

(** A row as the database keeps it. *)
Definition stored `{XormEngine DB} (a : UpstreamAccount) : UpstreamAccount :=
  a <| LastRefresh := eng_trunc <$> LastRefresh a |>
    <| AccessExpiresAt := eng_trunc <$> AccessExpiresAt a |>
    <| UsageUpdatedAt := eng_trunc <$> UsageUpdatedAt a |>
    <| PrimaryResetAt := eng_trunc <$> PrimaryResetAt a |>
    <| SecondaryResetAt := eng_trunc <$> SecondaryResetAt a |>.

(** [xorm] fills the key and the created/updated columns itself. *)
Definition same_but_stamps (r a : UpstreamAccount) : Prop :=
  r = a <| ID := ID r |> <| CreatedAt := CreatedAt r |> <| UpdatedAt := UpdatedAt r |>.

Definition seconds (t : time) : time := t / 10 ^ 9 * 10 ^ 9.

Class XormLaws (DB : Type) `{XormEngine DB} : Prop := {
  rows_id : forall db k a, eng_rows db !! k = Some a -> ID a = k;
  get_some : forall p db a, eng_get p db = Ok (Some a) ->
    eng_rows db !! ID a = Some a /\ p a = true;
  get_none : forall p db, eng_get p db = Ok None ->
    forall k a, eng_rows db !! k = Some a -> p a = false;
  (** The engine's own errors are not the router's sentinels. *)
  get_err : forall p db e, eng_get p db = Err e -> forall t, errors_Is e t = false;
  find_ok : forall p db l, eng_find p db = Ok l ->
    (forall a, a ∈ l <-> eng_rows db !! ID a = Some a /\ p a = true)
    /\ NoDup (ID <$> l) /\ StronglySorted Z.le (ID <$> l);
  insert_ok : forall a db r db', eng_insert a db = (Ok r, db') ->
    0 < ID r /\ eng_rows db !! ID r = None
    /\ eng_rows db' = <[ID r := r]> (eng_rows db) /\ same_but_stamps r (stored a);
  insert_err : forall a db e db', eng_insert a db = (Err e, db') ->
    eng_rows db' = eng_rows db;
  update_ok : forall p f db n db',
    (forall a, ID (f a) = ID a) -> eng_update p f db = (Ok n, db') ->
    (forall k, exists t, eng_rows db' !! k =
       (fun a => if p a then stored (f a) <| UpdatedAt := t |> else a) <$> eng_rows db !! k)
    /\ 0 <= n
    /\ (n = 0 -> forall k, eng_rows db' !! k = eng_rows db !! k)
    /\ (0 < n -> exists k a, eng_rows db !! k = Some a /\ p a = true);
  update_err : forall p f db e db', eng_update p f db = (Err e, db') ->
    eng_rows db' = eng_rows db;
  begin_rows : forall db r db', eng_begin db = (r, db') -> eng_rows db' = eng_rows db;
  commit_ok : forall ks db u db', eng_commit ks db = (Ok u, db') -> eng_rows db' = eng_rows db;
  commit_err : forall ks db e db', eng_commit ks db = (Err e, db') ->
    eng_rows db' = eng_rows db \/ eng_rows db' = foldr delete (eng_rows db) ks;
  trunc_idem : forall t, eng_trunc (eng_trunc t) = eng_trunc t;
  (** The sqlite driver keeps whole seconds and compares an argument as it is
      given; the others convert the argument to the column's precision. *)
  trunc_sqlite : eng_driver = "sqlite" -> forall t, eng_trunc t = seconds t /\ eng_arg t = t;
  arg_trunc : eng_driver <> "sqlite" -> forall t, eng_arg t = eng_trunc t;
}.

(** ** Consequences of the laws *)

Section Facts.
Context {DB : Type} `{XormLaws DB}.

(** After an update that affected nothing or failed, every row is as before;
    otherwise each row is either untouched or the updated image of a matching
    row. *)
Lemma update_row p f db r db' k a' :
  (forall a, ID (f a) = ID a) -> eng_update p f db = (r, db') ->
  eng_rows db' !! k = Some a' ->
  exists a, eng_rows db !! k = Some a /\
    (a' = a \/ (p a = true /\ exists t, a' = stored (f a) <| UpdatedAt := t |>)).
Proof.
  intros Hid Hu Hk. destruct r as [n|e].
  - destruct (update_ok _ _ _ _ _ Hid Hu) as [Ht _]. destruct (Ht k) as [t Htk].
    rewrite Htk in Hk.
    destruct (eng_rows db !! k) as [a|]; simpl in Hk; [|done].
    exists a; split; [done|]. injection Hk as <-.
    destruct (p a) eqn:E; [right; split; [done | by exists t] | by left].
  - rewrite (update_err _ _ _ _ _ Hu) in Hk. eauto.
Qed.

Lemma update_dom p f db r db' k :
  (forall a, ID (f a) = ID a) -> eng_update p f db = (r, db') ->
  eng_rows db' !! k = None <-> eng_rows db !! k = None.
Proof.
  intros Hid Hu. destruct r as [n|e].
  - destruct (update_ok _ _ _ _ _ Hid Hu) as [Ht _]. destruct (Ht k) as [t Htk].
    rewrite Htk. by destruct (eng_rows db !! k).
  - by rewrite (update_err _ _ _ _ _ Hu).
Qed.

End Facts.

(** ** Rely-guarantee triples

    What any session may do to the accounts table: keep every row valid, and
    keep every row's [auth_method].  A triple says that an operation does no
    more than that, whatever happens between its statements. *)

Definition table_ok `{XormEngine DB} (db : DB) : Prop :=
  forall k a, eng_rows db !! k = Some a -> Validate (Some a) = None.

Definition methods_kept `{XormEngine DB} (db db' : DB) : Prop :=
  forall k a, eng_rows db !! k = Some a ->
    exists a', eng_rows db' !! k = Some a' /\ AuthMethod a' = AuthMethod a.

Definition allowed `{XormEngine DB} (db db' : DB) : Prop :=
  (table_ok db -> table_ok db') /\ methods_kept db db'.

Definition others_allowed `{XormEngine DB, !Others DB} : Prop :=
  forall i db, allowed db (others i db).

Definition triple `{XormEngine DB} {A} (P : DB -> Prop) (m : M DB A)
    (Q : A -> DB -> Prop) : Prop :=
  forall db r db', P db -> m db = (r, db') ->
    allowed db db' /\ (forall a, r = Ok a -> Q a db').

Section Triples.
Context {DB : Type} `{XormLaws DB} `{!Others DB}.

#[export] Instance allowed_preorder : PreOrder (@allowed DB _).
Proof.
  split.
  - intros db. split; [done|]. intros k a. eauto.
  - intros d1 d2 d3 [T1 M1] [T2 M2]. split; [auto|].
    intros k a (a2 & H2 & E2)%M1. destruct (M2 _ _ H2) as (a3 & H3 & E3).
    exists a3. split; [done | congruence].
Qed.

Lemma allowed_eq db db' : eng_rows db' = eng_rows db -> allowed db db'.
Proof. intros E. split; unfold table_ok, methods_kept; rewrite E; eauto. Qed.

Lemma triple_ret {A} P (a : A) : triple P (mret a) (fun x db => x = a /\ P db).
Proof. intros db r db' HP [= <- <-]. split; [reflexivity|]. naive_solver. Qed.

Lemma triple_fail {A} P e Q : triple (A := A) P (fail e) Q.
Proof. intros db r db' HP [= <- <-]. split; [reflexivity | done]. Qed.

Lemma triple_conseq {A} (P P' : DB -> Prop) (m : M DB A) (Q Q' : A -> DB -> Prop) :
  (forall db, P' db -> P db) -> (forall a db, Q a db -> Q' a db) ->
  triple P m Q -> triple P' m Q'.
Proof. intros HP HQ Ht db r db' Hp Hm. destruct (Ht _ _ _ (HP _ Hp) Hm); eauto. Qed.

Lemma triple_post {A} P (m : M DB A) (Q Q' : A -> DB -> Prop) :
  triple P m Q -> (forall a db, Q a db -> Q' a db) -> triple P m Q'.
Proof. intros Ht HQ. by eapply triple_conseq. Qed.

(** A fact that does not mention the database comes out of a precondition. *)
Lemma triple_pure {A} (P : Prop) (m : M DB A) Q :
  (P -> triple (fun _ => True) m Q) -> triple (fun _ => P) m Q.
Proof. intros Ht db r db' HP Hm. by apply (Ht HP). Qed.

Lemma triple_bind {A B} P (m : M DB A) Q (f : A -> M DB B) R :
  triple P m Q -> (forall a, triple (Q a) (f a) R) -> triple P (m ≫= f) R.
Proof.
  intros Hm Hf db r db' HP Hr. unfold mbind, M_bind in Hr.
  destruct (m db) as [[a|e] d] eqn:E; destruct (Hm _ _ _ HP E) as [G1 Q1].
  - destruct (Hf a _ _ _ (Q1 _ eq_refl) Hr) as [G2 Q2].
    split; [by transitivity d | done].
  - injection Hr as <- <-. done.
Qed.

Lemma triple_wrap {A} P w (m : M DB A) Q : triple P m Q -> triple P (wrap_err w m) Q.
Proof.
  intros Hm db r db' HP Hr. unfold wrap_err in Hr.
  destruct (m db) as [[a|e] d] eqn:E; destruct (Hm _ _ _ HP E) as [G1 Q1];
    injection Hr as <- <-; naive_solver.
Qed.

(** A read changes nothing. *)
Lemma triple_lift {A} (P : DB -> Prop) (f : DB -> result error A) :
  triple P (lift f) (fun a db => P db /\ f db = Ok a).
Proof. intros db r db' HP [= <- <-]. split; [reflexivity|]. naive_solver. Qed.

Definition stable (P : DB -> Prop) : Prop := forall db db', allowed db db' -> P db -> P db'.

Lemma triple_interleave P i :
  others_allowed -> stable P -> triple P (interleave i) (fun _ => P).
Proof. intros Ho HP db r db' Hp [= <- <-]. specialize (Ho i db). eauto. Qed.

(** Rounding the timestamps to the database's precision keeps a row valid. *)
Lemma stored_valid a : Validate (Some (stored a)) = Validate (Some a).
Proof.
  destruct a as [? ? ? ? ? ? ? ? ? ? ? ? lr ae ? ? ? ? ? ? ? uu pr sr ? ?].
  by destruct lr, ae, uu, pr, sr.
Qed.

Lemma updated_valid a t : Validate (Some (a <| UpdatedAt := t |>)) = Validate (Some a).
Proof. reflexivity. Qed.

Lemma stamps_valid a i c u :
  Validate (Some (a <| ID := i |> <| CreatedAt := c |> <| UpdatedAt := u |>)) = Validate (Some a).
Proof. reflexivity. Qed.

Lemma triple_update0 P p f :
  (forall a, ID (f a) = ID a) -> (forall a, AuthMethod (f a) = AuthMethod a) ->
  (forall db a, P db -> eng_rows db !! ID a = Some a -> p a = true ->
     Validate (Some a) = None -> Validate (Some (f a)) = None) ->
  triple P (eng_update p f) (fun _ _ => True).
Proof.
  intros Hid Hm Hv db r db' HP Hu. split; [split|done].
  - intros Ht k a' Hk. destruct (update_row _ _ _ _ _ _ _ Hid Hu Hk) as (a & Hk' & [->|[Hp [t ->]]]).
    + by apply (Ht k).
    + rewrite updated_valid, stored_valid. apply (Hv db); [done| |done|by apply (Ht k)].
      by rewrite (rows_id _ _ _ Hk').
  - intros k a Hk. destruct (eng_rows db' !! k) as [a'|] eqn:Hk'.
    + exists a'. split; [done|].
      destruct (update_row _ _ _ _ _ _ _ Hid Hu Hk') as (a2 & Hk2 & [->|[Hp [t ->]]]);
        simplify_eq; [done | apply Hm].
    + apply (update_dom _ _ _ _ _ _ Hid Hu) in Hk'. congruence.
Qed.

Lemma triple_update P p f :
  (forall a, ID (f a) = ID a) -> (forall a, AuthMethod (f a) = AuthMethod a) ->
  (forall db a, P db -> eng_rows db !! ID a = Some a -> p a = true ->
     Validate (Some a) = None -> Validate (Some (f a)) = None) ->
  stable P -> triple P (eng_update p f) (fun _ => P).
Proof.
  intros Hid Hm Hv Hs db r db' HP Hu.
  destruct (triple_update0 P p f Hid Hm Hv _ _ _ HP Hu) as [Ha _].
  split; [done|]. intros n _. by apply (Hs db).
Qed.

Lemma triple_insert P a :
  Validate (Some a) = None -> triple P (eng_insert a) (fun r db => eng_rows db !! ID r = Some r).
Proof.
  intros Hv db r db' _ Hi. destruct r as [r|e].
  - destruct (insert_ok _ _ _ _ Hi) as (Hpos & Hnone & Hrows & Hsame). split.
    + split.
      * intros Ht k b. rewrite Hrows. intros [[<- <-]|[_ Hb]]%lookup_insert_Some; [|by apply (Ht k)].
        rewrite Hsame, stamps_valid, stored_valid. exact Hv.
      * intros k b Hb. exists b. split; [|done]. rewrite Hrows, lookup_insert_ne; [done|congruence].
    + intros x [= <-]. by rewrite Hrows, lookup_insert_eq.
  - split; [|done]. apply allowed_eq. eapply insert_err; eauto.
Qed.

End Triples.

(** [destruct_bind H] opens the first statement of a store operation that
    returned. *)
Ltac destruct_bind :=
  repeat match goal with
  | H : (_ ≫= _) _ = _ |- _ => unfold mbind, M_bind in H
  | H : mret _ _ = _ |- _ => unfold mret, M_ret in H; simplify_eq
  | H : context [match ?m ?db with (_, _) => _ end] |- _ =>
      let r := fresh "r" in let d := fresh "db" in let E := fresh "E" in
      destruct (m db) as [r d] eqn:E; destruct r; simplify_eq/=
  | H : fail _ _ = _ |- _ => unfold fail in H; simplify_eq
  end.

(** ** An implementation of the interface *)

Abbreviation memdb := (gmap Z UpstreamAccount).

Section Mem.

(** The driver the in-memory engine imitates; ["sqlite"] keeps seconds. *)
Variable driver : string.

Definition mem_rows (db : memdb) : gmap Z UpstreamAccount :=
  map_imap (fun k a => Some (a <| ID := k |>)) db.

Definition id_le (a b : UpstreamAccount) : Prop := ID a <= ID b.
#[local] Instance id_le_dec a b : Decision (id_le a b) := Z_le_dec (ID a) (ID b).

Definition mem_list (db : memdb) : list UpstreamAccount :=
  merge_sort id_le (map_to_list (mem_rows db)).*2.

Definition mem_fresh (db : memdb) : Z := 1 + foldr Z.max 0 (map_to_list db).*1.

Definition mem_trunc (t : time) : time :=
  if String.eqb driver "sqlite" then seconds t else t.

Definition mem_stored (a : UpstreamAccount) : UpstreamAccount :=
  a <| LastRefresh := mem_trunc <$> LastRefresh a |>
    <| AccessExpiresAt := mem_trunc <$> AccessExpiresAt a |>
    <| UsageUpdatedAt := mem_trunc <$> UsageUpdatedAt a |>
    <| PrimaryResetAt := mem_trunc <$> PrimaryResetAt a |>
    <| SecondaryResetAt := mem_trunc <$> SecondaryResetAt a |>.

Definition memEngine : XormEngine memdb := {|
  eng_driver := driver;
  eng_trunc := mem_trunc;
  eng_rows := mem_rows;
  eng_get := fun p db => Ok (head (List.filter p (mem_list db)));
  eng_find := fun p db => Ok (List.filter p (mem_list db));
  eng_insert := fun a db =>
    let r := mem_stored a <| ID := mem_fresh db |> in (Ok r, <[ID r := r]> db);
  eng_update := fun p f db =>
    let hit := List.filter p (mem_list db) in
    (Ok (Z.of_nat (List.length hit)),
     (fun a => if p a then mem_stored (f a) <| UpdatedAt := UpdatedAt a |> else a) <$> mem_rows db);
  eng_arg := fun t => t;
  eng_begin := fun db => (Ok tt, db);
  eng_commit := fun _ db => (Ok tt, db);
|}.
#[local] Existing Instance memEngine.

Lemma mem_rows_lookup db k :
  mem_rows db !! k = (fun a => a <| ID := k |>) <$> db !! k.
Proof. unfold mem_rows. rewrite map_lookup_imap. destruct (db !! k); reflexivity. Qed.

Lemma mem_rows_id db k a : mem_rows db !! k = Some a -> ID a = k.
Proof. rewrite mem_rows_lookup. destruct (db !! k); simpl; [by intros [= <-] | done]. Qed.

Lemma mem_list_elem db a : a ∈ mem_list db <-> mem_rows db !! ID a = Some a.
Proof.
  unfold mem_list. rewrite merge_sort_Permutation, list_elem_of_fmap. split.
  - intros [[k b] [-> Hb]]. apply elem_of_map_to_list in Hb. simpl.
    by rewrite (mem_rows_id _ _ _ Hb).
  - intros Ha. exists (ID a, a). by rewrite elem_of_map_to_list.
Qed.

Lemma mem_list_NoDup db : NoDup (ID <$> mem_list db).
Proof.
  unfold mem_list. rewrite merge_sort_Permutation.
  rewrite <- list_fmap_compose.
  erewrite list_fmap_ext with (g := fst).
  - apply NoDup_fst_map_to_list.
  - intros i [k a] Hi. apply list_elem_of_lookup_2, elem_of_map_to_list in Hi.
    simpl. by apply mem_rows_id in Hi.
Qed.

Lemma mem_list_sorted db : StronglySorted id_le (mem_list db).
Proof.
  apply Sorted_StronglySorted; [intros a b c; unfold id_le; lia|].
  apply Sorted_merge_sort. intros a b. unfold id_le. lia.
Qed.

Lemma filter_sorted {A} (R : A -> A -> Prop) p l :
  StronglySorted R l -> StronglySorted R (List.filter p l).
Proof.
  induction 1 as [|x l Hs IH Hf]; simpl; [constructor|].
  destruct (p x); [constructor; [done|]|done].
  apply Forall_forall. intros y Hy. apply list_elem_of_In, filter_In in Hy as [Hy _].
  rewrite Forall_forall in Hf. by apply Hf, list_elem_of_In.
Qed.

Lemma filter_NoDup_fmap {A} (f : A -> Z) p l :
  NoDup (f <$> l) -> NoDup (f <$> List.filter p l).
Proof.
  induction l as [|x l IH]; simpl; [done|]. intros [Hx Hl]%NoDup_cons.
  destruct (p x); simpl; [apply NoDup_cons; split; [|by apply IH] | by apply IH].
  intros Hin. apply Hx. apply list_elem_of_fmap in Hin as [y [-> Hy]].
  apply list_elem_of_In, filter_In in Hy as [Hy _].
  apply list_elem_of_fmap. exists y. split; [done|]. by apply list_elem_of_In.
Qed.

Lemma sorted_fmap_id l : StronglySorted id_le l -> StronglySorted Z.le (ID <$> l).
Proof.
  induction 1 as [|x l Hs IH Hf]; simpl; constructor; [done|].
  by apply Forall_fmap.
Qed.

Lemma elem_filter {A} (p : A -> bool) l a : a ∈ List.filter p l <-> a ∈ l /\ p a = true.
Proof. rewrite !list_elem_of_In. apply filter_In. Qed.

Lemma head_elem {A} (l : list A) a : head l = Some a -> a ∈ l.
Proof. destruct l; simpl; [done|]. intros; simplify_eq. left. Qed.

Lemma mem_fresh_spec db k a : db !! k = Some a -> k < mem_fresh db.
Proof.
  intros Ha. unfold mem_fresh.
  assert (k ∈ (map_to_list db).*1) as Hin.
  { apply list_elem_of_fmap. exists (k, a). by rewrite elem_of_map_to_list. }
  revert Hin. generalize ((map_to_list db).*1) as l.
  induction l as [|x l IH]; simpl; [intros Hin; by apply not_elem_of_nil in Hin|].
  intros [->|Hin%IH]%elem_of_cons; lia.
Qed.

Lemma mem_fresh_pos db : 0 < mem_fresh db.
Proof.
  unfold mem_fresh. assert (forall l, 0 <= foldr Z.max 0 l); [|by specialize (H (map_to_list db).*1); lia].
  induction l; simpl; lia.
Qed.

Lemma mem_stored_eq a : stored a = mem_stored a.
Proof. reflexivity. Qed.

Lemma set_ID_same a k : ID a = k -> a <| ID := k |> = a.
Proof. intros <-. by destruct a. Qed.

#[local] Lemma mem_insert_ok a db r db' :
  eng_insert a db = (Ok r, db') ->
  0 < ID r /\ eng_rows db !! ID r = None
  /\ eng_rows db' = <[ID r := r]> (eng_rows db) /\ same_but_stamps r (stored a).
Proof.
  intros Hi. cbn in Hi. injection Hi as <- <-. repeat split.
  - apply mem_fresh_pos.
  - cbn. rewrite mem_rows_lookup. cbn. destruct (db !! mem_fresh db) eqn:E; [|done].
    apply mem_fresh_spec in E. lia.
  - cbn. unfold mem_rows at 1. rewrite (map_imap_insert_Some _ _ _ _ _ eq_refl). done.
Qed.

#[local] Lemma mem_update_ok p f db n db' :
  (forall a, ID (f a) = ID a) -> eng_update p f db = (Ok n, db') ->
  (forall k, exists t, eng_rows db' !! k =
     (fun a => if p a then stored (f a) <| UpdatedAt := t |> else a) <$> eng_rows db !! k)
  /\ 0 <= n
  /\ (n = 0 -> forall k, eng_rows db' !! k = eng_rows db !! k)
  /\ (0 < n -> exists k a, eng_rows db !! k = Some a /\ p a = true).
Proof.
  intros Hid Hu. cbn in Hu. injection Hu as <- <-. repeat split.
  - intros k. cbn [eng_rows memEngine]. rewrite mem_rows_lookup, lookup_fmap.
    destruct (mem_rows db !! k) as [b|] eqn:E; [|by exists 0].
    exists (UpdatedAt b). apply (f_equal Some), set_ID_same. apply mem_rows_id in E.
    destruct (p b); [cbn; by rewrite Hid|done].
  - lia.
  - intros Hn k. cbn [eng_rows memEngine]. rewrite mem_rows_lookup, lookup_fmap.
    destruct (mem_rows db !! k) as [b|] eqn:E; [|done].
    assert (p b = false) as Hp.
    { apply not_true_is_false. intros Hp. pose proof (mem_rows_id _ _ _ E) as Hb.
      assert (b ∈ List.filter p (mem_list db)) as Hin
        by (apply elem_filter; rewrite mem_list_elem; by subst).
      destruct (List.filter p (mem_list db)); [by apply not_elem_of_nil in Hin | done]. }
    cbn. rewrite Hp. apply (f_equal Some), set_ID_same. by apply mem_rows_id in E.
  - intros Hn. destruct (List.filter p (mem_list db)) as [|a l] eqn:E; [simpl in Hn; lia|].
    assert (a ∈ List.filter p (mem_list db)) as Hin by (rewrite E; left).
    apply elem_filter in Hin as [Hin Hp]. apply mem_list_elem in Hin. eauto.
Qed.

#[local] Lemma mem_find_ok p db l :
  eng_find p db = Ok l ->
  (forall a, a ∈ l <-> eng_rows db !! ID a = Some a /\ p a = true)
  /\ NoDup (ID <$> l) /\ StronglySorted Z.le (ID <$> l).
Proof.
  intros [= <-]. split; [|split].
  - intros a. by rewrite elem_filter, mem_list_elem.
  - apply filter_NoDup_fmap, mem_list_NoDup.
  - apply sorted_fmap_id, filter_sorted, mem_list_sorted.
Qed.

Lemma mem_get_some p db a :
  eng_get p db = Ok (Some a) -> eng_rows db !! ID a = Some a /\ p a = true.
Proof.
  intros [= Hh]. apply head_elem, elem_filter in Hh as [Hh Hp]. by apply mem_list_elem in Hh.
Qed.

Lemma mem_get_none p db :
  eng_get p db = Ok None -> forall k a, eng_rows db !! k = Some a -> p a = false.
Proof.
  intros [= Hh] k a Ha. apply not_true_is_false. intros Hp.
  assert (a ∈ List.filter p (mem_list db)) as Hin.
  { apply elem_filter. rewrite mem_list_elem. split; [|done].
    by rewrite (mem_rows_id _ _ _ Ha). }
  destruct (List.filter p (mem_list db)); [by apply not_elem_of_nil in Hin | done].
Qed.

Lemma seconds_idem t : seconds (seconds t) = seconds t.
Proof. unfold seconds. by rewrite Z.div_mul. Qed.

#[export] Instance memLaws : XormLaws memdb.
Proof.
  split; try done; cbn [eng_rows memEngine].
  - apply mem_rows_id.
  - apply mem_get_some.
  - apply mem_get_none.
  - apply mem_find_ok.
  - apply mem_insert_ok.
  - apply mem_update_ok.
  - intros db r db' [= _ <-]. done.
  - intros ks db u db' [= _ <-]. done.
  - cbn. unfold mem_trunc. intros t. destruct (String.eqb driver "sqlite"); [apply seconds_idem|done].
  - cbn. unfold mem_trunc. intros ->. done.
  - cbn. unfold mem_trunc. intros Hne t. by destruct (String.eqb_spec driver "sqlite").
Qed.

End Mem.
