(* ===== verification/Store.v ===== *)
(** * Store: the account repository (internal/store/accounts.go)

    One definition per repository method, as a program over [XormEngine] with
    an interleaving point before every statement that follows another one.
    A [Get] or [Find] restricted by [Cols] returns the zero value in every
    column it did not select. *)

From S2P Require Import Prelude GoLib Errors Account Engine.

(** ** Data *)

Record AccountListItem := mkAccountListItem {
  li_ID : Z; li_Name : string; li_Provider : string; li_AuthMethod : string;
  li_Status : string; li_BaseURL : option string; li_CreatedAt : time; li_UpdatedAt : time;
  li_Email : option string; li_PlanType : option string; li_ChatGPTAccountID : option string;
  li_LastRefresh : option time; li_AccessExpiresAt : option time;
  li_Capabilities : slice string; li_UseProxy : bool;
  li_PrimaryUsedPercent : option float64; li_SecondaryUsedPercent : option float64;
  li_UsageUpdatedAt : option time; li_PrimaryResetAt : option time;
  li_SecondaryResetAt : option time; li_PrimaryWindowSeconds : option Z;
  li_SecondaryWindowSeconds : option Z }.

Record ExportPayload := mkExportPayload {
  ex_AccountID : Z; ex_AccessToken : option string; ex_RefreshToken : option string;
  ex_IDToken : option string; ex_LastRefresh : option time;
  ex_ChatGPTAccountID : option string }.

Record CredentialPatch := mkCredentialPatch {
  cp_AuthMethod : string; cp_APIKey : string;
  cp_AccessToken : option string; cp_RefreshToken : option string; cp_IDToken : option string;
  cp_LastRefresh : option time; cp_ExpectedLastRefresh : option time;
  cp_AccessExpiresAt : option time; cp_Email : option string; cp_PlanType : option string;
  cp_ChatGPTAccountID : option string }.

Record UsageSnapshot := mkUsageSnapshot {
  us_PrimaryUsedPercent : option float64; us_SecondaryUsedPercent : option float64;
  us_PrimaryResetAt : option time; us_SecondaryResetAt : option time;
  us_PrimaryWindowSeconds : option Z; us_SecondaryWindowSeconds : option Z }.

(** [core.AccountDetailsPatch]: [None] keeps the current value. *)
Record AccountDetailsPatch := mkAccountDetailsPatch {
  dp_Name : option string; dp_APIKey : option string; dp_BaseURL : option string;
  dp_Capabilities : slice string }.

Definition is_api_key (m : string) : bool := String.eqb m AuthMethodAPIKey.
Definition is_oauth (m : string) : bool :=
  String.eqb m AuthMethodOAuthBrowser || String.eqb m AuthMethodOAuthDevice
  || String.eqb m AuthMethodOAuthImport.

Definition normaliseUTC (t : option time) : option time := UTC <$> t.

(** The defensive reading of a row whose [auth_method] came back empty. *)
Definition storedMethod (a : UpstreamAccount) : string :=
  if String.eqb (AuthMethod a) "" then AuthMethodAPIKey else AuthMethod a.

Definition normaliseAPIKeyShape (a : UpstreamAccount) : UpstreamAccount :=
  if String.eqb (AuthMethod a) "" then a <| AuthMethod := AuthMethodAPIKey |> else a.

(** Column selections. *)
Definition cols_auth_status (a : UpstreamAccount) : UpstreamAccount :=
  zero_account <| ID := ID a |> <| AuthMethod := AuthMethod a |> <| Status := Status a |>.

Definition cols_export (a : UpstreamAccount) : UpstreamAccount :=
  cols_auth_status a
    <| AccessToken := AccessToken a |> <| RefreshToken := RefreshToken a |>
    <| IDToken := IDToken a |> <| LastRefresh := LastRefresh a |>
    <| AccessExpiresAt := AccessExpiresAt a |> <| ChatGPTAccountID := ChatGPTAccountID a |>.

(** Neither [api_key] nor a token nor [use_proxy]. *)
Definition cols_projection (a : UpstreamAccount) : UpstreamAccount :=
  a <| APIKey := "" |> <| AccessToken := None |> <| RefreshToken := None |>
    <| IDToken := None |> <| UseProxy := false |>.

Definition cols_admin (a : UpstreamAccount) : UpstreamAccount :=
  cols_projection a <| UseProxy := UseProxy a |>.

(** ** The patch-internal shape check of [UpdateCredentials] *)

Definition patch_shape (p : CredentialPatch) : option error :=
  if is_api_key (cp_AuthMethod p) then
    if String.eqb (cp_APIKey p) "" then
      Some (Errorf "UpdateCredentials api_key mode: APIKey=empty" [])
    else if (0 <? bytes_len (cp_AccessToken p)) || (0 <? bytes_len (cp_RefreshToken p))
         || (0 <? bytes_len (cp_IDToken p)) || isSome (cp_LastRefresh p)
         || isSome (cp_AccessExpiresAt p) then
      Some (Errorf "UpdateCredentials api_key mode: OAuth fields must be zero" [])
    else None
  else if is_oauth (cp_AuthMethod p) then
    if negb (String.eqb (cp_APIKey p) "") then
      Some (Errorf "UpdateCredentials oauth mode: APIKey must be empty" [])
    else if (bytes_len (cp_AccessToken p) =? 0) || (bytes_len (cp_RefreshToken p) =? 0)
         || (bytes_len (cp_IDToken p) =? 0) || negb (isSome (cp_LastRefresh p))
         || negb (isSome (cp_AccessExpiresAt p)) then
      Some (Errorf "UpdateCredentials oauth mode: tokens + last_refresh + access_expires_at are required together" [])
    else None
  else Some (Errorf "UpdateCredentials: unknown AuthMethod %q" [FStr (cp_AuthMethod p)]).

(** The columns each credential mode writes. *)
Definition write_api_key (p : CredentialPatch) (a : UpstreamAccount) : UpstreamAccount :=
  a <| APIKey := cp_APIKey p |>.

Definition write_oauth (p : CredentialPatch) (a : UpstreamAccount) : UpstreamAccount :=
  a <| AccessToken := cp_AccessToken p |> <| RefreshToken := cp_RefreshToken p |>
    <| IDToken := cp_IDToken p |> <| LastRefresh := normaliseUTC (cp_LastRefresh p) |>
    <| AccessExpiresAt := normaliseUTC (cp_AccessExpiresAt p) |>
    <| Email := cp_Email p |> <| PlanType := cp_PlanType p |>
    <| ChatGPTAccountID := cp_ChatGPTAccountID p |>.

Definition write_usage (now : time) (s : UsageSnapshot) (a : UpstreamAccount) : UpstreamAccount :=
  a <| PrimaryUsedPercent := us_PrimaryUsedPercent s |>
    <| SecondaryUsedPercent := us_SecondaryUsedPercent s |>
    <| UsageUpdatedAt := Some (UTC now) |>
    <| PrimaryResetAt := us_PrimaryResetAt s |>
    <| SecondaryResetAt := us_SecondaryResetAt s |>
    <| PrimaryWindowSeconds := us_PrimaryWindowSeconds s |>
    <| SecondaryWindowSeconds := us_SecondaryWindowSeconds s |>.

(** [UpdateDetails]: the value of each column after the patch.  An empty
    [base_url] clears the column. *)
Definition patched_base_url (p : AccountDetailsPatch) (cur : option string) : option string :=
  match dp_BaseURL p with
  | None => cur
  | Some u => if String.eqb u "" then None else Some u
  end.

Definition apply_details (p : AccountDetailsPatch) (a : UpstreamAccount) : UpstreamAccount :=
  a <| Name := default (Name a) (dp_Name p) |>
    <| APIKey := default (APIKey a) (dp_APIKey p) |>
    <| BaseURL := patched_base_url p (BaseURL a) |>
    <| Capabilities := match dp_Capabilities p with None => Capabilities a | Some _ => dp_Capabilities p end |>.

Definition patch_empty (p : AccountDetailsPatch) : bool :=
  negb (isSome (dp_Name p)) && negb (isSome (dp_APIKey p)) && negb (isSome (dp_BaseURL p))
  && negb (isSome (dp_Capabilities p)).

(** The [Cols(...)] of the update: only the patched columns are written, with
    the values of [applied]. *)
Definition write_details (p : AccountDetailsPatch) (applied a : UpstreamAccount) : UpstreamAccount :=
  a <| Name := if isSome (dp_Name p) then Name applied else Name a |>
    <| APIKey := if isSome (dp_APIKey p) then APIKey applied else APIKey a |>
    <| BaseURL := if isSome (dp_BaseURL p) then BaseURL applied else BaseURL a |>
    <| Capabilities := if isSome (dp_Capabilities p) then Capabilities applied else Capabilities a |>.

(** The snapshot condition: the columns the cross-field validation read. *)
Definition details_where (id : Z) (p : AccountDetailsPatch) (acct a : UpstreamAccount) : bool :=
  (ID a =? id) &&
  (if isSome (dp_Capabilities p) || isSome (dp_BaseURL p) then
     String.eqb (AuthMethod a) (AuthMethod acct) && String.eqb (Status a) (Status acct)
     && bool_decide (BaseURL a = BaseURL acct) && bool_decide (Capabilities a = Capabilities acct)
   else true).

(** The "nothing to change" reading of a zero row count. *)
Definition details_unchanged (p : AccountDetailsPatch) (acct applied current : UpstreamAccount) : bool :=
  String.eqb (AuthMethod current) (AuthMethod acct)
  && String.eqb (Status current) (Status acct)
  && (negb (isSome (dp_Name p)) || String.eqb (Name current) (Name applied))
  && (negb (isSome (dp_APIKey p)) || String.eqb (APIKey current) (APIKey applied))
  && (negb (isSome (dp_BaseURL p)) || bool_decide (BaseURL current = BaseURL applied))
  && (negb (isSome (dp_Capabilities p))
      || bool_decide (slice_list (Capabilities current) = slice_list (Capabilities applied))).

Definition list_item (r : UpstreamAccount) : AccountListItem :=
  let method := storedMethod r in
  let oauth {A} (v : option A) := if negb (is_api_key method) then v else None in
  mkAccountListItem (ID r) (Name r) (Provider r) method (Status r) (BaseURL r)
    (CreatedAt r) (UpdatedAt r)
    (oauth (Email r)) (oauth (PlanType r)) (oauth (ChatGPTAccountID r))
    (oauth (LastRefresh r)) (oauth (AccessExpiresAt r))
    (Capabilities r) (UseProxy r)
    (oauth (PrimaryUsedPercent r)) (oauth (SecondaryUsedPercent r))
    (oauth (UsageUpdatedAt r)) (oauth (PrimaryResetAt r)) (oauth (SecondaryResetAt r))
    (oauth (PrimaryWindowSeconds r)) (oauth (SecondaryWindowSeconds r)).

Definition export_missing (a : UpstreamAccount) : list fmtd :=
  offend (bytes_len (AccessToken a) =? 0) "access_token"
  ++ offend (bytes_len (RefreshToken a) =? 0) "refresh_token"
  ++ offend (bytes_len (IDToken a) =? 0) "id_token"
  ++ offend (negb (isSome (LastRefresh a))) "last_refresh"
  ++ offend (negb (isSome (AccessExpiresAt a))) "access_expires_at".

Definition live (id : Z) (a : UpstreamAccount) : bool :=
  (ID a =? id) && negb (String.eqb (Status a) AccountStatusDeleted).

(** ** The methods of [AccountRepo] *)

Module AccountRepo.
Section Ops.
Context {DB : Type} `{XormEngine DB} `{!Others DB}.

Definition by_id (id : Z) (a : UpstreamAccount) : bool := ID a =? id.

Definition InsertUpstreamAccount (account : UpstreamAccount) : M DB Z :=
  match Validate (Some account) with
  | Some e => fail (Wrapf "insert account: validate: %w" [] e)
  | None =>
      let account := account <| LastRefresh := normaliseUTC (LastRefresh account) |>
                             <| AccessExpiresAt := normaliseUTC (AccessExpiresAt account) |> in
      (* [Omit("api_key")]: the column is NULL, which reads back as "" *)
      let row := if IsOAuth account then account <| APIKey := "" |> else account in
      r ← wrap_err (Wrapf "insert account: %w" []) (eng_insert row);
      mret (ID r)
  end.

Definition conditionalLastRefreshArg (t : time) : time :=
  if String.eqb eng_driver "sqlite" then seconds (UTC t) else UTC t.

(** [last_refresh = ?]. *)
Definition last_refresh_is (t : time) (a : UpstreamAccount) : bool :=
  bool_decide (LastRefresh a = Some (eng_arg (conditionalLastRefreshArg t))).

Definition credentialUpdateMissReason {A} (id : Z) (conditional : bool) : M DB A :=
  row ← wrap_err (Wrapf "check credential update miss reason for %d: %w" [FInt id])
          (lift (eng_get (by_id id)));
  match cols_auth_status <$> row with
  | None => fail (Sentinel ErrAccountNotFound)
  | Some row =>
      if String.eqb (Status row) AccountStatusDeleted then fail (Sentinel ErrAccountNotFound)
      else if conditional then fail (Sentinel ErrConditionalUpdateConflict)
      else fail (Sentinel ErrAccountNotFound)
  end.

Definition UpdateCredentials (id : Z) (p : CredentialPatch) : M DB unit :=
  match patch_shape p with
  | Some e => fail e
  | None =>
      found ← wrap_err (Wrapf "read existing auth_method for %d: %w" [FInt id])
                (lift (eng_get (by_id id)));
      match cols_auth_status <$> found with
      | None => fail (Sentinel ErrAccountNotFound)
      | Some existing =>
          if String.eqb (Status existing) AccountStatusDeleted then fail (Sentinel ErrAccountNotFound)
          else if negb (String.eqb (storedMethod existing) (cp_AuthMethod p)) then
            fail (Wrapf "UpdateCredentials: patch auth_method=%q does not match stored auth_method=%q (invariant: auth_method is immutable within a row): %w"
                    [FStr (cp_AuthMethod p); FStr (storedMethod existing)]
                    (Sentinel ErrAuthMethodMismatch))
          else if is_api_key (cp_AuthMethod p) then
            interleave 0;;
            affected ← wrap_err (Wrapf "update api_key for %d: %w" [FInt id])
                         (eng_update (live id) (write_api_key p));
            if affected =? 0 then (interleave 1;; credentialUpdateMissReason id false) else mret tt
          else
            let cond a := match cp_ExpectedLastRefresh p with
                          | Some t => live id a && last_refresh_is (UTC t) a
                          | None => live id a
                          end in
            interleave 0;;
            affected ← wrap_err (Wrapf "update oauth credentials for %d: %w" [FInt id])
                         (eng_update cond (write_oauth p));
            if affected =? 0
            then (interleave 1;; credentialUpdateMissReason id (isSome (cp_ExpectedLastRefresh p)))
            else mret tt
      end
  end.

Definition ListForAdminAPI : M DB (list AccountListItem) :=
  rows ← wrap_err (Wrapf "list for admin api: %w" [])
           (lift (eng_find (fun a => negb (String.eqb (Status a) AccountStatusDeleted))));
  mret ((fun r => list_item (cols_admin r)) <$> rows).

Definition GetForExport (id : Z) : M DB ExportPayload :=
  found ← wrap_err (Wrapf "get for export %d: %w" [FInt id]) (lift (eng_get (by_id id)));
  match cols_export <$> found with
  | None => fail (Sentinel ErrAccountNotFound)
  | Some acct =>
      if String.eqb (Status acct) AccountStatusDeleted then fail (Sentinel ErrAccountNotFound)
      else if negb (IsOAuth acct) then
        fail (Wrapf "get for export %d (auth_method=%q): %w: only oauth_* rows are exportable"
                [FInt id; FStr (AuthMethod acct)] (Sentinel ErrInvalidAccountShape))
      else match export_missing acct with
      | [] => mret (mkExportPayload (ID acct) (AccessToken acct) (RefreshToken acct) (IDToken acct)
                      (LastRefresh acct) (ChatGPTAccountID acct))
      | missing =>
          fail (Wrapf "get for export %d: %w: oauth row has missing credentials %v (corrupted row)"
                  [FInt id; FList missing] (Sentinel ErrInvalidAccountShape))
      end
  end.

(** The api_key-only gate shared by the two creating methods. *)
Definition api_key_gate (fmt vfmt : string) (account : UpstreamAccount) : M DB unit :=
  if negb (is_api_key (AuthMethod account)) then
    fail (Wrapf fmt [FStr (AuthMethod account)] (Sentinel ErrInvalidAccountShape))
  else match Validate (Some account) with
  | Some e => fail (Wrapf vfmt [] e)
  | None => mret tt
  end.

(** The result is the row the caller's pointer ends up describing. *)
Definition Create (account : UpstreamAccount) : M DB UpstreamAccount :=
  let account := normaliseAPIKeyShape account in
  api_key_gate "insert account: %w: Create accepts api_key rows only (got %q) — use InsertUpstreamAccount for OAuth shapes"
    "insert account: validate: %w" account;;
  r ← wrap_err (Wrapf "insert account: %w" []) (eng_insert account);
  mret (account <| ID := ID r |> <| CreatedAt := CreatedAt r |> <| UpdatedAt := UpdatedAt r |>).

Definition CreateIdempotentByName (account : UpstreamAccount) : M DB UpstreamAccount :=
  let account := normaliseAPIKeyShape account in
  api_key_gate "account idempotent insert: %w: only api_key rows accepted (got %q) — use InsertUpstreamAccount for OAuth shapes"
    "account idempotent insert: validate: %w" account;;
  wrap_err (Wrapf "account tx begin: %w" []) eng_begin;;
  interleave 0;;
  found ← wrap_err (Wrapf "account lookup by name: %w" [])
            (lift (eng_get (fun a => String.eqb (Name a) (Name account))));
  match found with
  | Some existing =>
      wrap_err (Wrapf "account tx commit (idempotent hit): %w" []) (eng_commit []);;
      mret (account <| ID := ID existing |> <| CreatedAt := CreatedAt existing |>)
  | None =>
      interleave 1;;
      r ← wrap_err (Wrapf "account tx insert: %w" []) (eng_insert account);
      wrap_err (Wrapf "account tx commit: %w" []) (eng_commit [ID r]);;
      mret (account <| ID := ID r |> <| CreatedAt := CreatedAt r |> <| UpdatedAt := UpdatedAt r |>)
  end.

Definition GetByID (id : Z) : M DB UpstreamAccount :=
  found ← wrap_err (Wrapf "get account %d: %w" [FInt id]) (lift (eng_get (by_id id)));
  match found with
  | None => fail (Sentinel ErrAccountNotFound)
  | Some account => mret account
  end.

Definition GetProjectionByID (id : Z) : M DB UpstreamAccount :=
  found ← wrap_err (Wrapf "get account projection %d: %w" [FInt id]) (lift (eng_get (by_id id)));
  match cols_projection <$> found with
  | None => fail (Sentinel ErrAccountNotFound)
  | Some account => mret account
  end.

(** An empty filter selects every row. *)
Definition List (statusFilter : list string) : M DB (list UpstreamAccount) :=
  wrap_err (Wrapf "list accounts: %w" [])
    (lift (eng_find (fun a => match statusFilter with
                              | [] => true
                              | _ => existsb (String.eqb (Status a)) statusFilter
                              end))).

Definition ListActive : M DB (list UpstreamAccount) :=
  wrap_err (Wrapf "list active accounts: %w" [])
    (lift (eng_find (fun a => String.eqb (Status a) AccountStatusActive))).

Definition UpdateStatus (id : Z) (status : string) : M DB unit :=
  affected ← wrap_err (Wrapf "update account %d status: %w" [FInt id])
               (eng_update (by_id id) (fun a => a <| Status := status |>));
  if affected =? 0 then fail (Sentinel ErrAccountNotFound) else mret tt.

Definition UpdateUseProxy (id : Z) (useProxy : bool) : M DB unit :=
  affected ← wrap_err (Wrapf "update account %d use_proxy: %w" [FInt id])
               (eng_update (by_id id) (fun a => a <| UseProxy := useProxy |>));
  if affected =? 0 then fail (Sentinel ErrAccountNotFound) else mret tt.

Definition UpdateUsage (now : time) (id : Z) (snapshot : UsageSnapshot) : M DB unit :=
  wrap_err (Wrapf "update account %d usage: %w" [FInt id])
    (eng_update (by_id id) (write_usage now snapshot));;
  mret tt.

Definition UpdateDetails (id : Z) (patch : AccountDetailsPatch) : M DB UpstreamAccount :=
  acct ← GetByID id;
  if String.eqb (Status acct) AccountStatusDeleted then fail (Sentinel ErrAccountDeleted)
  else if negb (is_api_key (AuthMethod acct)) then
    fail (Wrapf "update details %d: %w: only api_key rows are editable (got %q)"
            [FInt id; FStr (AuthMethod acct)] (Sentinel ErrInvalidAccountShape))
  else
    let applied := apply_details patch acct in
    if patch_empty patch then mret acct
    else match Validate (Some applied) with
    | Some e => fail (Wrapf "update details %d: validate: %w" [FInt id] e)
    | None =>
        interleave 0;;
        affected ← wrap_err (Wrapf "update details %d: %w" [FInt id])
                     (eng_update (details_where id patch acct) (write_details patch applied));
        interleave 1;;
        if affected =? 0 then
          current ← GetByID id;
          if details_unchanged patch acct applied current then
            match Validate (Some current) with
            | Some e => fail (Wrapf "validate unchanged account %d: %w" [FInt id] e)
            | None => mret current
            end
          else fail (ValidationError "capabilities" "account changed concurrently; reload and retry")
        else GetByID id
    end.

Definition UpdateStatusIfCurrent (id : Z) (status : string) (expectedLastRefresh : time) : M DB unit :=
  affected ← wrap_err (Wrapf "update account %d status conditionally: %w" [FInt id])
               (eng_update (fun a => (ID a =? id) && String.eqb (Status a) AccountStatusActive
                                     && last_refresh_is expectedLastRefresh a)
                           (fun a => a <| Status := status |>));
  if affected =? 0 then
    interleave 0;;
    exists_ ← wrap_err (Wrapf "check conditional status update conflict for %d: %w" [FInt id])
                (lift (eng_get (by_id id)));
    match exists_ with
    | Some _ => fail (Sentinel ErrConditionalUpdateConflict)
    | None => fail (Sentinel ErrAccountNotFound)
    end
  else mret tt.

(** ** The repository as a transition system: any sequence of calls, each
    running to completion, other sessions acting in between. *)

Inductive call :=
  | CInsertUpstreamAccount (a : UpstreamAccount)
  | CUpdateCredentials (id : Z) (p : CredentialPatch)
  | CListForAdminAPI | CGetForExport (id : Z)
  | CCreate (a : UpstreamAccount) | CCreateIdempotentByName (a : UpstreamAccount)
  | CGetByID (id : Z) | CGetProjectionByID (id : Z)
  | CList (statuses : list string) | CListActive
  | CUpdateStatus (id : Z) (s : string) | CUpdateUseProxy (id : Z) (b : bool)
  | CUpdateUsage (now : time) (id : Z) (s : UsageSnapshot)
  | CUpdateDetails (id : Z) (p : AccountDetailsPatch)
  | CUpdateStatusIfCurrent (id : Z) (s : string) (t : time).

Definition ignore {A} (m : M DB A) : M DB unit := m;; mret tt.

Definition run (c : call) : M DB unit :=
  match c with
  | CInsertUpstreamAccount a => ignore (InsertUpstreamAccount a)
  | CUpdateCredentials id p => ignore (UpdateCredentials id p)
  | CListForAdminAPI => ignore ListForAdminAPI
  | CGetForExport id => ignore (GetForExport id)
  | CCreate a => ignore (Create a)
  | CCreateIdempotentByName a => ignore (CreateIdempotentByName a)
  | CGetByID id => ignore (GetByID id)
  | CGetProjectionByID id => ignore (GetProjectionByID id)
  | CList l => ignore (List l)
  | CListActive => ignore ListActive
  | CUpdateStatus id s => ignore (UpdateStatus id s)
  | CUpdateUseProxy id b => ignore (UpdateUseProxy id b)
  | CUpdateUsage now id s => ignore (UpdateUsage now id s)
  | CUpdateDetails id p => ignore (UpdateDetails id p)
  | CUpdateStatusIfCurrent id s t => ignore (UpdateStatusIfCurrent id s t)
  end.

(** What a caller must ensure: usage is written for OAuth rows only. *)
Definition call_pre (c : call) (db : DB) : Prop :=
  match c with
  | CUpdateUsage _ id _ => forall a, eng_rows db !! id = Some a -> IsOAuth a = true
  | _ => True
  end.

Inductive step : DB -> DB -> Prop :=
  | step_call c db r db' : call_pre c db -> run c db = (r, db') -> step db db'
  | step_others i db : step db (others i db).

End Ops.
End AccountRepo.

(** ** What each column write does to the row invariant *)

Lemma valid_method_known a : Validate (Some a) = None -> AuthMethod a <> "".
Proof. unfold Validate. intros Hv E. rewrite E in Hv. by unfold IsOAuth in Hv; rewrite E in Hv. Qed.

Lemma storedMethod_valid a : Validate (Some a) = None -> storedMethod a = AuthMethod a.
Proof.
  intros Hv%valid_method_known. unfold storedMethod.
  by destruct (String.eqb_spec (AuthMethod a) "").
Qed.

Lemma is_oauth_IsOAuth a : IsOAuth a = is_oauth (AuthMethod a).
Proof. reflexivity. Qed.

Lemma oauth_not_api m : is_oauth m = true -> m <> AuthMethodAPIKey.
Proof. by intros Ho ->. Qed.

Lemma patch_shape_api p :
  patch_shape p = None -> is_api_key (cp_AuthMethod p) = true -> cp_APIKey p <> "".
Proof.
  unfold patch_shape. intros Hp Hm. rewrite Hm in Hp.
  by destruct (String.eqb_spec (cp_APIKey p) "").
Qed.

Lemma patch_shape_oauth p :
  patch_shape p = None -> is_api_key (cp_AuthMethod p) = false ->
  is_oauth (cp_AuthMethod p) = true
  /\ bytes_len (cp_AccessToken p) <> 0 /\ bytes_len (cp_RefreshToken p) <> 0
  /\ bytes_len (cp_IDToken p) <> 0 /\ is_Some (cp_LastRefresh p) /\ is_Some (cp_AccessExpiresAt p).
Proof.
  unfold patch_shape. intros Hp Hm. rewrite Hm in Hp.
  destruct (is_oauth (cp_AuthMethod p)); [|done].
  destruct (negb (String.eqb (cp_APIKey p) "")); [done|].
  destruct (_ || negb (isSome (cp_AccessExpiresAt p))) eqn:E in Hp; [done|].
  breflect. rewrite !isSome_true in *. done.
Qed.

Lemma write_api_key_valid p a :
  patch_shape p = None -> is_api_key (cp_AuthMethod p) = true ->
  storedMethod a = cp_AuthMethod p ->
  Validate (Some a) = None -> Validate (Some (write_api_key p a)) = None.
Proof.
  intros Hp Hm Hs Hv. pose proof (patch_shape_api _ Hp Hm).
  rewrite (storedMethod_valid _ Hv) in Hs. unfold is_api_key in Hm. breflect.
  apply Validate_ok in Hv as [(Ha & Hsys & Hshape)|[Ho _]].
  - apply Validate_ok. left. repeat split; try done; apply Hshape.
  - apply oauth_not_api in Ho. congruence.
Qed.

Lemma write_oauth_valid p a :
  patch_shape p = None -> is_api_key (cp_AuthMethod p) = false ->
  storedMethod a = cp_AuthMethod p ->
  Validate (Some a) = None -> Validate (Some (write_oauth p a)) = None.
Proof.
  intros Hp Hm Hs Hv. destruct (patch_shape_oauth _ Hp Hm) as (Ho & H1 & H2 & H3 & [? H4] & [? H5]).
  rewrite (storedMethod_valid _ Hv) in Hs.
  apply Validate_ok in Hv as [(Ha & _)|[_ Hshape]].
  - rewrite <- Hs in Ho. by apply oauth_not_api in Ho.
  - apply Validate_ok. right. split; [by rewrite is_oauth_IsOAuth; simpl; rewrite Hs|].
    destruct Hshape as (Hc & Hk & _).
    repeat split; simpl; rewrite ?H4, ?H5; unfold normaliseUTC; simpl; eauto.
Qed.

(** A [time] is its instant, so normalising the zone leaves the row alone. *)
Lemma utc_same a :
  a <| LastRefresh := normaliseUTC (LastRefresh a) |>
    <| AccessExpiresAt := normaliseUTC (AccessExpiresAt a) |> = a.
Proof. destruct a as [? ? ? ? ? ? ? ? ? ? ? ? lr ae ? ? ? ? ? ? ? ? ? ? ? ?]. by destruct lr, ae. Qed.

Lemma oauth_key_same a :
  IsOAuth a = true -> Validate (Some a) = None -> a <| APIKey := "" |> = a.
Proof.
  intros Ho Hv. apply Validate_ok in Hv as [(Ha & _)|(_ & _ & Hk & _)]; [by apply oauth_not_api in Ho|].
  destruct a; simpl in *; by subst.
Qed.

(** Nothing checks that the row is an OAuth row: the hypothesis is the
    caller's obligation. *)
Lemma write_usage_valid now s a :
  IsOAuth a = true -> Validate (Some a) = None -> Validate (Some (write_usage now s a)) = None.
Proof.
  intros Ho Hv. apply Validate_ok in Hv as [(Ha & _)|[_ Hshape]].
  - by apply oauth_not_api in Ho.
  - apply Validate_ok. right. done.
Qed.

Lemma write_status_valid s a : Validate (Some (a <| Status := s |>)) = Validate (Some a).
Proof. reflexivity. Qed.

Lemma write_proxy_valid b a : Validate (Some (a <| UseProxy := b |>)) = Validate (Some a).
Proof. reflexivity. Qed.

(** The patched columns of [applied] on a row that still agrees with the
    snapshot wherever the cross-field rule looks. *)
Lemma write_details_valid id p acct a :
  is_api_key (AuthMethod acct) = true ->
  Validate (Some (apply_details p acct)) = None ->
  AuthMethod a = AuthMethod acct -> details_where id p acct a = true ->
  Validate (Some a) = None -> Validate (Some (write_details p (apply_details p acct) a)) = None.
Proof.
  intros Hm Happ Hsame Hw Hv. unfold is_api_key in Hm. breflect.
  apply Validate_ok in Hv as [(Ha & Hsys & Hshape)|[Ho _]]; [|apply oauth_not_api in Ho; congruence].
  apply Validate_ok in Happ as [(Ha' & Hsys' & Hshape')|[Ho _]];
    [|apply oauth_not_api in Ho; simpl in Ho; congruence].
  apply Validate_ok. left. split; [done|].
  unfold details_where in Hw. apply andb_true_iff in Hw as [_ Hw].
  destruct p as [n k u c]. unfold api_key_shape, validateAPIKeyShape_systemone in *; simpl in *.
  destruct c as [c|], u as [u|], k as [k|]; simpl in *; breflect;
    repeat match goal with E : BaseURL a = _ |- _ => rewrite E in *; clear E
                         | E : Capabilities a = _ |- _ => rewrite E in *; clear E end;
    naive_solver.
Qed.

(** ** Every method keeps the table invariant, whatever runs between its
    statements *)

Section Guarantee.
Context {DB : Type} `{XormLaws DB} `{!Others DB}.
Hypothesis Hothers : others_allowed (DB := DB).

Definition method_is (id : Z) (m : string) (db : DB) : Prop :=
  exists a, eng_rows db !! id = Some a /\ AuthMethod a = m.

Lemma method_is_stable id m : stable (method_is id m).
Proof.
  intros db db' [_ Hk] (a & Ha & Hm). destruct (Hk _ _ Ha) as (a' & Ha' & Hm').
  exists a'. split; [done | congruence].
Qed.

Lemma true_stable : stable (fun _ : DB => True).
Proof. done. Qed.

Lemma triple_get {P} w p :
  triple P (wrap_err w (lift (eng_get p)))
    (fun o db => P db /\ forall a, o = Some a -> eng_rows db !! ID a = Some a /\ p a = true).
Proof.
  apply triple_wrap. eapply triple_post; [apply triple_lift|].
  intros o db [HP Hg]. split; [done|]. intros a ->. by apply get_some in Hg.
Qed.

Lemma triple_GetByID {P} id :
  triple P (AccountRepo.GetByID id) (fun a db => P db /\ ID a = id /\ eng_rows db !! id = Some a).
Proof.
  eapply triple_bind; [apply triple_get|]. intros [a|]; [|apply triple_fail].
  eapply triple_post; [apply triple_ret|].
  intros b db [-> [HP Ha]]. destruct (Ha _ eq_refl) as [Hr Hid]. unfold AccountRepo.by_id in Hid.
  breflect. subst. done.
Qed.

Lemma triple_insert_then {P A} a w (k : UpstreamAccount -> M DB A) Q :
  Validate (Some a) = None ->
  (forall r, triple (fun db => eng_rows db !! ID r = Some r) (k r) Q) ->
  triple P (wrap_err w (eng_insert a) ≫= k) Q.
Proof. intros Hv Hk. eapply triple_bind; [by apply triple_wrap, triple_insert | done]. Qed.

Lemma triple_miss {P A} id c Q :
  triple P (AccountRepo.credentialUpdateMissReason (A := A) id c) Q.
Proof.
  eapply triple_bind; [apply triple_get|]. intros [a|]; cbn -[String.eqb]; [|apply triple_fail].
  repeat case_match; apply triple_fail.
Qed.

Lemma triple_any {P A} (m : M DB A) Q : triple P m Q -> triple P m (fun _ _ => True).
Proof. intros Ht. by eapply triple_post. Qed.

Lemma triple_quiet_update {P A} w p f (k : Z -> M DB A) Q :
  (forall a, ID (f a) = ID a) -> (forall a, AuthMethod (f a) = AuthMethod a) ->
  (forall db a, P db -> eng_rows db !! ID a = Some a -> p a = true ->
     Validate (Some a) = None -> Validate (Some (f a)) = None) ->
  (forall n, triple (fun _ => True) (k n) Q) ->
  triple P (wrap_err w (eng_update p f) ≫= k) Q.
Proof.
  intros H1 H2 H3 Hk. eapply triple_bind; [|exact Hk].
  by apply triple_wrap, triple_update0.
Qed.

Lemma triple_done {P} : triple P (mret tt : M DB unit) (fun _ _ => True).
Proof. eapply triple_any, triple_ret. Qed.

Lemma triple_pass i {A} (m : M DB A) {P} Q :
  triple (fun _ => True) m Q -> triple P (interleave i;; m) Q.
Proof.
  intros Hm. eapply triple_conseq with (P := fun _ => True) (Q := Q); [done|done|].
  eapply triple_bind; [by apply triple_interleave | done].
Qed.

Lemma guarantee_InsertUpstreamAccount a :
  triple (fun _ => True) (AccountRepo.InsertUpstreamAccount a) (fun _ _ => True).
Proof.
  unfold AccountRepo.InsertUpstreamAccount.
  destruct (Validate (Some a)) eqn:Hv; [apply triple_fail|].
  apply triple_insert_then; [|intros r; eapply triple_any, triple_ret].
  rewrite utc_same. destruct (IsOAuth a) eqn:Ho; [|done].
  rewrite oauth_key_same; done.
Qed.

Lemma guarantee_UpdateCredentials id p :
  triple (fun _ => True) (AccountRepo.UpdateCredentials id p) (fun _ _ => True).
Proof.
  unfold AccountRepo.UpdateCredentials.
  destruct (patch_shape p) eqn:Hp; [apply triple_fail|].
  eapply triple_bind; [apply triple_get|]. intros [a|]; cbn -[String.eqb]; [|apply triple_fail].
  destruct (String.eqb _ AccountStatusDeleted); [apply triple_fail|].
  destruct (negb _) eqn:Hm; [apply triple_fail|]. breflect.
  change (storedMethod a = cp_AuthMethod p) in Hm.
  eapply triple_conseq with (P := method_is id (AuthMethod a)); [|done|].
  { intros db [_ Ha]. destruct (Ha _ eq_refl) as [Hr Hid]. unfold AccountRepo.by_id in Hid.
    breflect. subst. by exists a. }
  assert (forall db b, method_is id (AuthMethod a) db -> eng_rows db !! ID b = Some b ->
            ID b = id -> storedMethod b = cp_AuthMethod p) as Hsame.
  { intros db b (c & Hc & Hmc) Hb <-. rewrite Hb in Hc. injection Hc as ->.
    unfold storedMethod in *. by rewrite Hmc. }
  destruct (is_api_key _) eqn:Hk; (eapply triple_bind; [apply triple_interleave; [done|apply method_is_stable]|]);
    intros []; apply triple_quiet_update; try done.
  - intros db b HP Hb Hw. unfold live in Hw. breflect.
    apply write_api_key_valid; eauto.
  - intros n. case_match; [apply triple_pass, triple_miss | apply triple_done].
  - intros db b HP Hb Hw. assert (ID b = id).
    { unfold live in Hw. destruct (cp_ExpectedLastRefresh p); breflect; done. }
    apply write_oauth_valid; eauto.
  - intros n. case_match; [apply triple_pass, triple_miss | apply triple_done].
Qed.

Lemma triple_gate P f v a :
  triple P (AccountRepo.api_key_gate f v a) (fun _ _ => Validate (Some a) = None).
Proof.
  unfold AccountRepo.api_key_gate. case_match; [apply triple_fail|].
  destruct (Validate (Some a)) eqn:Hv; [apply triple_fail|].
  by eapply triple_post; [apply triple_ret|].
Qed.

Lemma guarantee_Create a : triple (fun _ => True) (AccountRepo.Create a) (fun _ _ => True).
Proof.
  unfold AccountRepo.Create. eapply triple_bind; [apply triple_gate|].
  intros []. apply triple_pure. intros Hv. apply triple_insert_then; [done|].
  intros row. eapply triple_any, triple_ret.
Qed.

(** The rows a transaction inserted may be gone after a failed commit; they
    were not there when it began. *)
Lemma guarantee_CreateIdempotentByName a :
  triple (fun _ => True) (AccountRepo.CreateIdempotentByName a) (fun _ _ => True).
Proof.
  unfold AccountRepo.CreateIdempotentByName. eapply triple_bind; [apply triple_gate|].
  intros []. apply triple_pure. intros Hv.
  eapply triple_bind with (Q := fun _ _ => True).
  { apply triple_wrap. intros db r db' _ Hb. split; [|done].
    apply allowed_eq. eapply begin_rows; eauto. }
  intros []. apply triple_pass.
  eapply triple_bind; [apply triple_get|]. intros [e|].
  - apply triple_bind with (Q := fun _ _ => True); [|intros; eapply triple_any, triple_ret].
    apply triple_wrap. intros db [[]|err] db' _ Hc; (split; [|done]); apply allowed_eq.
    + eapply commit_ok; eauto.
    + by destruct (commit_err _ _ _ _ Hc).
  - apply triple_pass. intros db r db' _ Hr. split; [|done].
    unfold mbind, M_bind, wrap_err in Hr.
    destruct (eng_insert _ db) as [[row|err] d1] eqn:Hi;
      destruct (triple_insert (fun _ => True) _ Hv _ _ _ I Hi) as [G _];
      [|injection Hr as <- <-; exact G].
    destruct (insert_ok _ _ _ _ Hi) as (_ & Hnone & Hrows & _).
    destruct (eng_commit _ d1) as [[[]|err] d2] eqn:Hc.
    + injection Hr as <- <-. transitivity d1; [done|]. apply allowed_eq. eapply commit_ok; eauto.
    + injection Hr as <- <-. destruct (commit_err _ _ _ _ Hc) as [E|E].
      * transitivity d1; [done | by apply allowed_eq].
      * apply allowed_eq. rewrite E. simpl. rewrite Hrows. by apply delete_insert_id.
Qed.

Lemma guarantee_UpdateDetails id p :
  triple (fun _ => True) (AccountRepo.UpdateDetails id p) (fun _ _ => True).
Proof.
  unfold AccountRepo.UpdateDetails. eapply triple_bind; [apply triple_GetByID|].
  intros acct. destruct (String.eqb _ _); [apply triple_fail|].
  destruct (negb _) eqn:Hm; [apply triple_fail|]. breflect.
  destruct (patch_empty p); [eapply triple_any, triple_ret|].
  destruct (Validate _) eqn:Hv; [apply triple_fail|].
  eapply triple_conseq with (P := method_is id (AuthMethod acct)); [|done|].
  { intros db (_ & _ & Hr). by exists acct. }
  eapply triple_bind; [apply triple_interleave; [done|apply method_is_stable]|].
  intros []. apply triple_quiet_update; [done|done| |].
  - intros db a (b & Hb & Hmb) Ha Hw Hva.
    eapply write_details_valid; eauto.
    assert (ID a = id) as <- by (unfold details_where in Hw; breflect; done). congruence.
  - intros n. apply triple_pass. case_match; [|eapply triple_any, triple_GetByID].
    eapply triple_bind; [apply triple_GetByID|]. intros cur.
    case_match; [|apply triple_fail]. case_match; [apply triple_fail|]. eapply triple_any, triple_ret.
Qed.

Lemma guarantee_UpdateStatus id s :
  triple (fun _ => True) (AccountRepo.UpdateStatus id s) (fun _ _ => True).
Proof.
  apply triple_quiet_update; [done|done| |].
  - intros db a _ _ _ Hv. by rewrite write_status_valid.
  - intros n. case_match; [apply triple_fail|apply triple_done].
Qed.

Lemma guarantee_UpdateUseProxy id b :
  triple (fun _ => True) (AccountRepo.UpdateUseProxy id b) (fun _ _ => True).
Proof.
  apply triple_quiet_update; [done|done| |].
  - intros db a _ _ _ Hv. by rewrite write_proxy_valid.
  - intros n. case_match; [apply triple_fail|apply triple_done].
Qed.

Lemma guarantee_GetForExport id :
  triple (fun _ => True) (AccountRepo.GetForExport id) (fun _ _ => True).
Proof.
  eapply triple_bind; [apply triple_get|]. intros [a|]; cbn [fmap option_fmap option_map];
    [|apply triple_fail].
  repeat case_match; first [apply triple_fail | eapply triple_any, triple_ret].
Qed.

Lemma guarantee_UpdateStatusIfCurrent id s t :
  triple (fun _ => True) (AccountRepo.UpdateStatusIfCurrent id s t) (fun _ _ => True).
Proof.
  apply triple_quiet_update; [done|done|done|]. intros n.
  case_match; [|apply triple_done]. apply triple_pass.
  eapply triple_bind; [apply triple_get|]. intros [a|]; apply triple_fail.
Qed.

Lemma guarantee_UpdateUsage now id s :
  triple (fun db => forall a, eng_rows db !! id = Some a -> IsOAuth a = true)
    (AccountRepo.UpdateUsage now id s) (fun _ _ => True).
Proof.
  apply triple_quiet_update; [done|done| |intros; apply triple_done].
  intros db a Ho Ha Hid Hv. unfold AccountRepo.by_id in Hid. breflect. subst.
  apply write_usage_valid; auto.
Qed.

Lemma guarantee_read {A} (m : M DB A) :
  (forall db, exists r, m db = (r, db)) -> triple (fun _ => True) m (fun _ _ => True).
Proof.
  intros Hm db r db' _ Hr. destruct (Hm db) as [r' E]. rewrite E in Hr.
  injection Hr as <- <-. split; [reflexivity | done].
Qed.

Ltac read_only :=
  apply guarantee_read; intros db; unfold mbind, M_bind, wrap_err, lift;
  repeat case_match; simplify_eq; eauto.

Lemma guarantee_run c : triple (AccountRepo.call_pre c) (AccountRepo.run c) (fun _ _ => True).
Proof.
  assert (forall A P (m : M DB A) Q, triple P m Q ->
    triple P (AccountRepo.ignore m) (fun _ _ => True)) as Hign.
  { intros A P m Q Hm. eapply triple_bind; [exact Hm|]. intros a. eapply triple_any, triple_ret. }
  destruct c; cbn [AccountRepo.run AccountRepo.call_pre]; eapply (Hign _ _ _ (fun _ _ => True)).
  - apply guarantee_InsertUpstreamAccount.
  - apply guarantee_UpdateCredentials.
  - unfold AccountRepo.ListForAdminAPI. read_only.
  - apply guarantee_GetForExport.
  - apply guarantee_Create.
  - apply guarantee_CreateIdempotentByName.
  - eapply triple_any, triple_GetByID.
  - eapply triple_bind; [apply triple_get|]. intros [a|]; cbn; [eapply triple_any, triple_ret | apply triple_fail].
  - unfold AccountRepo.List. read_only.
  - unfold AccountRepo.ListActive. read_only.
  - apply guarantee_UpdateStatus.
  - apply guarantee_UpdateUseProxy.
  - apply guarantee_UpdateUsage.
  - apply guarantee_UpdateDetails.
  - apply guarantee_UpdateStatusIfCurrent.
Qed.

Lemma step_allowed db db' : AccountRepo.step db db' -> allowed db db'.
Proof.
  intros [c d r d' Hp Hr | i d]; [|apply Hothers].
  by destruct (guarantee_run c _ _ _ Hp Hr).
Qed.


End Guarantee.

(** ** Single rows *)

Section Behaviour.
Context {DB : Type} `{XormLaws DB} `{!Others DB}.
Import AccountRepo.

Lemma get_by_id id db o : eng_get (by_id id) db = Ok o -> o = eng_rows db !! id.
Proof.
  intros Hg. destruct o as [a|].
  - apply get_some in Hg as [Ha Hid]. unfold by_id in Hid. breflect. by subst.
  - destruct (eng_rows db !! id) as [a|] eqn:Ha; [|done].
    pose proof (get_none _ _ Hg _ _ Ha) as Hid. unfold by_id in Hid. breflect.
    by apply rows_id in Ha.
Qed.

(** The argument of [last_refresh = ?] matches a stored timestamp on every
    driver, sqlite's second precision included. *)
Lemma arg_conditional t : eng_arg (conditionalLastRefreshArg t) = eng_trunc t.
Proof.
  unfold conditionalLastRefreshArg, UTC. destruct (String.eqb_spec eng_driver "sqlite") as [E|E].
  - by destruct (trunc_sqlite E t) as [-> _]; destruct (trunc_sqlite E (seconds t)) as [_ ->].
  - by apply arg_trunc.
Qed.

Lemma live_true id a : live id a = true <-> ID a = id /\ Status a <> AccountStatusDeleted.
Proof. unfold live. rewrite andb_true_iff, negb_true_iff, Z.eqb_eq, String.eqb_neq. done. Qed.

(** An update of at most the row [id] that reported at least one row. *)
Lemma update_one id p f db n db' :
  (forall a, ID (f a) = ID a) -> (forall a, p a = true -> ID a = id) ->
  eng_update p f db = (Ok n, db') -> n <> 0 ->
  exists a u, eng_rows db !! id = Some a /\ p a = true
    /\ eng_rows db' !! id = Some (stored (f a) <| UpdatedAt := u |>)
    /\ forall k, k <> id -> eng_rows db' !! k = eng_rows db !! k.
Proof.
  intros Hid Hp Hu Hn. destruct (update_ok _ _ _ _ _ Hid Hu) as (Ht & H0n & _ & Hex).
  destruct Hex as (k & a & Hk & Hpa); [lia|].
  pose proof (rows_id _ _ _ Hk) as Hka. rewrite (Hp _ Hpa) in Hka. subst k.
  destruct (Ht id) as [u Hu']. rewrite Hk in Hu'. simpl in Hu'. rewrite Hpa in Hu'.
  exists a, u. repeat split; try done. intros k Hne. destruct (Ht k) as [v Hv].
  rewrite Hv. destruct (eng_rows db !! k) as [b|] eqn:Hb; [|done]. simpl.
  destruct (p b) eqn:Hpb; [|done]. apply Hp in Hpb. apply rows_id in Hb. congruence.
Qed.

(** [errors.Is] is not needed: the sentinel is returned as it is. *)
Definition is_conflict (r : result error unit) : Prop :=
  r = Err (Sentinel ErrConditionalUpdateConflict).

Definition refresh_cond (id : Z) (t : time) (a : UpstreamAccount) : bool :=
  live id a && last_refresh_is (UTC t) a.

Lemma refresh_cond_true id t a :
  refresh_cond id t a = true <->
  ID a = id /\ Status a <> AccountStatusDeleted /\ LastRefresh a = Some (eng_trunc t).
Proof.
  unfold refresh_cond, last_refresh_is.
  rewrite andb_true_iff, live_true, bool_decide_eq_true, arg_conditional. unfold UTC. naive_solver.
Qed.

(** A conditional refresh either fails for another reason, or gets as far as
    its conditional update. *)
Lemma refresh_run id p t db r db' :
  cp_ExpectedLastRefresh p = Some t -> is_oauth (cp_AuthMethod p) = true ->
  UpdateCredentials id p db = (r, db') ->
  (r <> Ok tt /\ ~ is_conflict r) \/
  exists n d, eng_update (refresh_cond id t) (write_oauth p) (others 0 db) = (Ok n, d)
    /\ (if n =? 0 then credentialUpdateMissReason id true (others 1 d) else (Ok tt, d)) = (r, db').
Proof.
  intros He Ho Hr. unfold UpdateCredentials in Hr.
  assert (is_api_key (cp_AuthMethod p) = false) as Hk
    by (apply String.eqb_neq, oauth_not_api; done).
  unfold is_conflict. rewrite Hk, He in Hr.
  unfold mbind, M_bind, wrap_err, lift, interleave, fail in Hr.
  destruct (patch_shape p) eqn:Hp.
  { left. unfold patch_shape in Hp. rewrite Hk, Ho in Hp. repeat case_match; by simplify_eq. }
  destruct (eng_get _ db) as [[a0|]|e]; simpl in Hr; [|left; by simplify_eq..].
  destruct (String.eqb _ _); [left; by simplify_eq|].
  destruct (negb _); [left; by simplify_eq|].
  destruct (eng_update _ _ _) as [[n|e] d] eqn:Hu; [|left; by simplify_eq].
  right. exists n, d. split; [first [done | exact Hu]|]. by destruct (n =? 0).
Qed.

Lemma miss_outcome id c db r db' :
  credentialUpdateMissReason (A := unit) id c db = (r, db') ->
  db' = db /\ r <> Ok tt
  /\ (is_conflict r -> exists a, eng_rows db !! id = Some a /\ Status a <> AccountStatusDeleted).
Proof.
  unfold credentialUpdateMissReason, mbind, M_bind, wrap_err, lift, fail, is_conflict.
  destruct (eng_get _ db) as [found|e] eqn:Hg; [|naive_solver].
  apply get_by_id in Hg. destruct found as [b|]; cbn -[String.eqb]; [|naive_solver].
  destruct (String.eqb_spec (Status b) AccountStatusDeleted); [naive_solver|].
  destruct c; intros; simplify_eq; naive_solver.
Qed.

Lemma refresh_won id p t db db' :
  cp_ExpectedLastRefresh p = Some t -> is_oauth (cp_AuthMethod p) = true ->
  UpdateCredentials id p db = (Ok tt, db') ->
  exists a u, eng_rows (others 0 db) !! id = Some a /\ Status a <> AccountStatusDeleted
    /\ LastRefresh a = Some (eng_trunc t)
    /\ eng_rows db' !! id = Some (stored (write_oauth p a) <| UpdatedAt := u |>)
    /\ forall k, k <> id -> eng_rows db' !! k = eng_rows (others 0 db) !! k.
Proof.
  intros He Ho Hr. destruct (refresh_run _ _ _ _ _ _ He Ho Hr) as [[? _]|(n & d & Hu & Hn)]; [done|].
  destruct (n =? 0) eqn:H0n; [by apply miss_outcome in Hn as (_ & ? & _)|]. simplify_eq. breflect.
  edestruct (update_one id (refresh_cond id t) (write_oauth p)) as (a & u & Ha & Hpa & Hw & Hrest);
    [done| |exact Hu|done|].
  { by intros a (Hid & _)%refresh_cond_true. }
  exists a, u. by apply refresh_cond_true in Hpa as (_ & ? & ?).
Qed.

(** The optimistic lock of a credential refresh.  When [UpdateCredentials]
    with [ExpectedLastRefresh = t] succeeds, the row still carried the
    refresher's snapshot at the moment of the write, was not deleted, receives
    exactly the patch's credential columns, and no other row changes; when it
    reports a conflict it wrote nothing and the row exists and is not deleted. *)
Theorem credential_refresh_lock id p t db r db' :
  cp_ExpectedLastRefresh p = Some t -> is_oauth (cp_AuthMethod p) = true ->
  UpdateCredentials id p db = (r, db') ->
  (r = Ok tt -> exists a u,
     eng_rows (others 0 db) !! id = Some a /\ Status a <> AccountStatusDeleted
     /\ LastRefresh a = Some (eng_trunc t)
     /\ eng_rows db' !! id = Some (stored (write_oauth p a) <| UpdatedAt := u |>)
     /\ forall k, k <> id -> eng_rows db' !! k = eng_rows (others 0 db) !! k)
  /\ (is_conflict r -> exists db2 a,
       (forall k, eng_rows db2 !! k = eng_rows (others 0 db) !! k) /\ db' = others 1 db2
       /\ eng_rows db' !! id = Some a /\ Status a <> AccountStatusDeleted).
Proof.
  intros He Ho Hr. split; [intros ->; by eapply refresh_won|]. intros Hc.
  destruct (refresh_run _ _ _ _ _ _ He Ho Hr) as [[_ ?]|(n & d & Hu & Hn)]; [done|].
  destruct (n =? 0) eqn:H0n; [|by simplify_eq]. breflect. subst n.
  apply miss_outcome in Hn as (-> & _ & Ha). destruct (Ha Hc) as (a & Ha' & Hs).
  exists d, a. repeat split; try done.
  destruct (update_ok (refresh_cond id t) (write_oauth p) _ _ _ (fun a => eq_refl) Hu) as (_ & _ & Hsame & _).
  by apply Hsame.
Qed.

(** What other sessions do when there are none. *)
Definition quiet : Prop := forall i db, eng_rows (others i db) = eng_rows (DB := DB) db.

(** Two refreshers that hold the same snapshot of an account: if both
    report success, the winner stored the very [last_refresh] tick it started
    from (on sqlite: it refreshed twice within one second); otherwise at most
    one of them writes. *)
Theorem refresh_race_one_winner id p1 p2 t t1 db db1 :
  quiet -> cp_ExpectedLastRefresh p1 = Some t -> cp_ExpectedLastRefresh p2 = Some t ->
  is_oauth (cp_AuthMethod p1) = true -> is_oauth (cp_AuthMethod p2) = true ->
  cp_LastRefresh p1 = Some t1 -> eng_trunc t1 <> eng_trunc t ->
  UpdateCredentials id p1 db = (Ok tt, db1) -> fst (UpdateCredentials id p2 db1) <> Ok tt.
Proof.
  intros Hq E1 E2 O1 O2 Hl Hne H1 H2.
  destruct (UpdateCredentials id p2 db1) as [r2 d2] eqn:R2. simpl in H2. subst r2.
  destruct (refresh_won _ _ _ _ _ E1 O1 H1) as (a & u & _ & _ & _ & Hw & _).
  destruct (refresh_won _ _ _ _ _ E2 O2 R2) as (b & _ & Hb & _ & Hlb & _).
  rewrite Hq, Hw in Hb. injection Hb as <-. simpl in Hlb.
  unfold normaliseUTC, UTC in Hlb. rewrite Hl in Hlb. simpl in Hlb. congruence.
Qed.

Lemma cols_export_Status a : Status (cols_export a) = Status a.
Proof. reflexivity. Qed.
Lemma cols_export_IsOAuth a : IsOAuth (cols_export a) = IsOAuth a.
Proof. reflexivity. Qed.
Lemma cols_export_missing a : export_missing (cols_export a) = export_missing a.
Proof. reflexivity. Qed.

Definition payload_of (a : UpstreamAccount) : ExportPayload :=
  mkExportPayload (ID a) (AccessToken a) (RefreshToken a) (IDToken a) (LastRefresh a)
    (ChatGPTAccountID a).

Lemma valid_oauth_complete a :
  Validate (Some a) = None -> IsOAuth a = true -> export_missing a = [].
Proof.
  intros Hv Ho. apply Validate_ok in Hv as [(Ha & _)|(_ & _ & _ & H1 & H2 & H3 & H4 & H5)];
    [by apply oauth_not_api in Ho|].
  unfold export_missing. rewrite !app_nil, !offend_nil, !negb_false_iff, !isSome_true, !Z.eqb_neq.
  done.
Qed.

(** The method as one equation. *)
Lemma GetForExport_eq id db o :
  eng_get (by_id id) db = Ok o ->
  GetForExport id db =
    (match o with
     | None => Err (Sentinel ErrAccountNotFound)
     | Some a =>
         if String.eqb (Status a) AccountStatusDeleted then Err (Sentinel ErrAccountNotFound)
         else if negb (IsOAuth a) then
           Err (Wrapf "get for export %d (auth_method=%q): %w: only oauth_* rows are exportable"
             [FInt id; FStr (AuthMethod a)] (Sentinel ErrInvalidAccountShape))
         else match export_missing a with
         | [] => Ok (payload_of a)
         | missing =>
             Err (Wrapf "get for export %d: %w: oauth row has missing credentials %v (corrupted row)"
               [FInt id; FList missing] (Sentinel ErrInvalidAccountShape))
         end
     end, db).
Proof.
  intros Hg. unfold GetForExport, mbind, M_bind, wrap_err, lift, fail. rewrite Hg.
  destruct o as [a|]; [|done]. cbn [fmap option_fmap option_map].
  rewrite cols_export_Status, cols_export_IsOAuth, cols_export_missing.
  destruct (String.eqb _ _); [done|]. destruct (negb _); [done|]. by destruct (export_missing a).
Qed.

(** Exporting tokens.  On a table that satisfies the row invariant, and
    when the lookup itself does not fail, [GetForExport] returns the stored
    tokens of exactly the live OAuth rows: a missing or deleted row is
    not-found, an API-key row is refused as an invalid shape, and the
    corrupted-row branch is unreachable. *)
Theorem export_exactly_live_oauth id db r db' o :
  table_ok db -> eng_get (by_id id) db = Ok o -> GetForExport id db = (r, db') ->
  db' = db /\
  match eng_rows db !! id with
  | None => r = Err (Sentinel ErrAccountNotFound)
  | Some a =>
      if String.eqb (Status a) AccountStatusDeleted then r = Err (Sentinel ErrAccountNotFound)
      else if IsOAuth a then
        r = Ok (payload_of a) /\ ex_AccountID (payload_of a) = id
        /\ bytes_len (AccessToken a) <> 0 /\ bytes_len (RefreshToken a) <> 0
      else exists e, r = Err e /\ errors_Is e ErrInvalidAccountShape = true
  end.
Proof.
  intros Ht Hg Hr. rewrite (GetForExport_eq _ _ _ Hg) in Hr. injection Hr as <- <-.
  split; [done|]. pose proof (get_by_id _ _ _ Hg) as Hrow. rewrite <- Hrow.
  destruct o as [a|]; [|done]. symmetry in Hrow.
  destruct (String.eqb (Status a) AccountStatusDeleted); [done|].
  destruct (IsOAuth a) eqn:Ho; simpl negb; cbv iota; [|by eexists].
  pose proof (Ht _ _ Hrow) as Hv. rewrite (valid_oauth_complete _ Hv Ho).
  split; [done|]. split; [by apply rows_id in Hrow|].
  apply Validate_ok in Hv as [(Ha & _)|(_ & _ & _ & H1 & H2 & _)]; [by apply oauth_not_api in Ho | done].
Qed.


(** ** Reads that must not depend on a secret *)

Definition same_but_secrets (a b : UpstreamAccount) : Prop :=
  exists k at_ rt it,
    b = a <| APIKey := k |> <| AccessToken := at_ |> <| RefreshToken := rt |> <| IDToken := it |>.

Definition agree_but_secrets (db1 db2 : DB) : Prop :=
  forall k, option_relation same_but_secrets (fun _ => False) (fun _ => False)
    (eng_rows db1 !! k) (eng_rows db2 !! k).

Lemma secrets_list_item a b :
  same_but_secrets a b -> list_item (cols_admin a) = list_item (cols_admin b).
Proof. intros (k & t & r & i & ->). reflexivity. Qed.

Lemma secrets_projection a b : same_but_secrets a b -> cols_projection a = cols_projection b.
Proof. intros (k & t & r & i & ->). reflexivity. Qed.

Lemma secrets_Status a b : same_but_secrets a b -> Status a = Status b.
Proof. intros (k & t & r & i & ->). reflexivity. Qed.

(** Two sorted duplicate-free lists of keys with the same elements are equal. *)
Lemma sorted_keys_eq (l1 l2 : list Z) :
  StronglySorted Z.le l1 -> StronglySorted Z.le l2 -> NoDup l1 -> NoDup l2 ->
  (forall x, x ∈ l1 <-> x ∈ l2) -> l1 = l2.
Proof.
  intros S1 S2 N1 N2 Hin. apply (StronglySorted_unique Z.le); [done|done|].
  by apply NoDup_Permutation.
Qed.

(** Lists of rows with equal keys, both read from related tables. *)
Lemma related_lists {B} (g : UpstreamAccount -> B) db1 db2 (l1 l2 : list UpstreamAccount) :
  (forall a b, eng_rows db1 !! ID a = Some a -> eng_rows db2 !! ID a = Some b -> g a = g b) ->
  Forall (fun a => eng_rows db1 !! ID a = Some a) l1 ->
  Forall (fun b => eng_rows db2 !! ID b = Some b) l2 ->
  ID <$> l1 = ID <$> l2 -> g <$> l1 = g <$> l2.
Proof.
  intros Hg H1. revert l2. induction H1 as [|a l1 Ha _ IH]; intros [|b l2] H2 Hid; try done.
  simpl in *. injection Hid as Hab Hid. apply Forall_cons in H2 as [Hb H2].
  f_equal; [|by apply IH]. apply Hg; [done | by rewrite Hab].
Qed.

Lemma agree_find p db1 db2 l1 l2 :
  agree_but_secrets db1 db2 -> (forall a b, same_but_secrets a b -> p a = p b) ->
  eng_find p db1 = Ok l1 -> eng_find p db2 = Ok l2 -> ID <$> l1 = ID <$> l2.
Proof.
  intros Hag Hp F1 F2. destruct (find_ok _ _ _ F1) as (E1 & N1 & S1).
  destruct (find_ok _ _ _ F2) as (E2 & N2 & S2). apply sorted_keys_eq; try done.
  intros x. rewrite !list_elem_of_fmap. specialize (Hag x).
  split; intros (a & -> & Ha).
  - apply E1 in Ha as [Ha Hpa]. rewrite Ha in Hag.
    destruct (eng_rows db2 !! ID a) as [b|] eqn:Hb; simpl in Hag; [|done].
    exists b. pose proof (rows_id _ _ _ Hb) as Hid. split; [done|].
    apply E2. rewrite Hid. split; [done|]. by rewrite <- (Hp _ _ Hag).
  - apply E2 in Ha as [Ha Hpa]. rewrite Ha in Hag.
    destruct (eng_rows db1 !! ID a) as [b|] eqn:Hb; simpl in Hag; [|done].
    exists b. pose proof (rows_id _ _ _ Hb) as Hid. split; [done|].
    apply E1. rewrite Hid. split; [done|]. by rewrite (Hp _ _ Hag).
Qed.

(** C5: The admin read paths are token-free in the strong sense: two tables
    that differ only in [api_key] and token bytes give the same
    [ListForAdminAPI] and the same [GetProjectionByID], so no response built
    from them can carry information about a secret. *)
Theorem admin_reads_token_free db1 db2 id :
  agree_but_secrets db1 db2 ->
  (forall r1 r2, fst (ListForAdminAPI db1) = Ok r1 -> fst (ListForAdminAPI db2) = Ok r2 -> r1 = r2)
  /\ (forall r1 r2, fst (GetProjectionByID id db1) = Ok r1 -> fst (GetProjectionByID id db2) = Ok r2 ->
        r1 = r2).
Proof.
  intros Hag. split; intros r1 r2;
    unfold ListForAdminAPI, GetProjectionByID, mbind, M_bind, wrap_err, lift, mret, M_ret, fail.
  - destruct (eng_find _ db1) as [l1|] eqn:F1; [|done].
    destruct (eng_find _ db2) as [l2|] eqn:F2; [|done]. simpl. intros [= <-] [= <-].
    apply (related_lists _ db1 db2).
    + intros a b Ha Hb. specialize (Hag (ID a)). rewrite Ha, Hb in Hag. by apply secrets_list_item.
    + apply Forall_forall. intros a Hin. destruct (find_ok _ _ _ F1) as [Hl _]. by apply Hl in Hin as [? _].
    + apply Forall_forall. intros a Hin. destruct (find_ok _ _ _ F2) as [Hl _]. by apply Hl in Hin as [? _].
    + eapply agree_find; [done| |done|done]. intros a b Hab. cbv beta. by rewrite (secrets_Status _ _ Hab).
  - destruct (eng_get _ db1) as [o1|] eqn:G1; [|done].
    destruct (eng_get _ db2) as [o2|] eqn:G2; [|done].
    apply get_by_id in G1, G2. specialize (Hag id). rewrite <- G1, <- G2 in Hag.
    destruct o1 as [a|], o2 as [b|]; simpl in Hag; try done.
    cbn [fmap option_fmap option_map fst]. rewrite (secrets_projection _ _ Hag). intros. congruence.
Qed.

(** ** Idempotent creation *)

Definition name_unique (n : string) (db : DB) : Prop :=
  forall k1 k2 a1 a2, eng_rows db !! k1 = Some a1 -> eng_rows db !! k2 = Some a2 ->
    Name a1 = n -> Name a2 = n -> k1 = k2.

Lemma normaliseAPIKeyShape_Name a : Name (normaliseAPIKeyShape a) = Name a.
Proof. unfold normaliseAPIKeyShape. by destruct (String.eqb _ _). Qed.

Lemma gate_ok f v a (db : DB) u db' : api_key_gate f v a db = (Ok u, db') -> db' = db.
Proof.
  unfold api_key_gate, fail, mret, M_ret. repeat case_match; intros; by simplify_eq.
Qed.

(** Without concurrent sessions, a successful [CreateIdempotentByName]
    leaves exactly one row of the requested name if there was at most one: an
    existing row is returned and the table is untouched, otherwise one row is
    inserted; in both cases the returned id is the row's. *)
Theorem create_idempotent a db r db' :
  quiet -> CreateIdempotentByName a db = (Ok r, db') ->
  (exists row, eng_rows db' !! ID r = Some row /\ Name row = Name a)
  /\ ((exists k row, eng_rows db !! k = Some row /\ Name row = Name a) ->
        eng_rows db' = eng_rows db)
  /\ (name_unique (Name a) db -> name_unique (Name a) db').
Proof.
  intros Hq Hr. unfold name_unique. unfold CreateIdempotentByName in Hr.
  unfold mbind, M_bind in Hr. destruct (api_key_gate _ _ _ db) as [[u|e] d0] eqn:Hg; [|done].
  apply gate_ok in Hg as ->. unfold wrap_err, lift, interleave, mret, M_ret in Hr.
  destruct (eng_begin db) as [[u1|e] d1] eqn:Hb; [|done]. apply begin_rows in Hb.
  destruct (eng_get _ _) as [found|e] eqn:Hget; [|done].
  rewrite <- Hb, <- (Hq 0%nat d1). clear Hb. set (d := others 0 d1) in *. clearbody d.
  destruct found as [ex|].
  - apply get_some in Hget as [Hrow Hname]. breflect. rewrite normaliseAPIKeyShape_Name in Hname.
    destruct (eng_commit [] d) as [[[]|e] d2] eqn:Hc; [|done]. apply commit_ok in Hc.
    injection Hr as <- <-. simpl. rewrite Hc. split; [eauto|]. split; [done|].
    done.
  - pose proof (get_none _ _ Hget) as Hnone.
    destruct (eng_insert _ _) as [[row|e] d2] eqn:Hi; [|done].
    destruct (insert_ok _ _ _ _ Hi) as (_ & Hfresh & Hrows & Hsame).
    rewrite (Hq 1%nat d) in Hrows.
    destruct (eng_commit _ d2) as [[[]|e] d3] eqn:Hc; [|done]. apply commit_ok in Hc.
    injection Hr as <- <-. simpl. rewrite Hc, Hrows.
    assert (Name row = Name a) as Hn.
    { rewrite Hsame. simpl. apply normaliseAPIKeyShape_Name. }
    assert (forall k b, eng_rows d !! k = Some b -> Name b <> Name a) as Hno.
    { intros k b Hkb Hname. specialize (Hnone _ _ Hkb). apply String.eqb_neq in Hnone.
      rewrite normaliseAPIKeyShape_Name in Hnone. congruence. }
    split; [exists row; by rewrite lookup_insert_eq|]. split.
    + intros (k & b & Hkb & Hname). by apply Hno in Hkb.
    + intros _ k1 k2 a1 a2.
      intros [[<- _]|[_ H1]]%lookup_insert_Some [[<- _]|[_ H2]]%lookup_insert_Some N1 N2;
        [done | by apply Hno in H2 | by apply Hno in H1 | by apply Hno in H1].
Qed.


(** ** Editing an API-key account *)

(** No statement fails. *)
Definition no_db_errors : Prop :=
  (forall p (db : DB), exists o, eng_get p db = Ok o)
  /\ (forall p f (db : DB), exists n db', eng_update p f db = (Ok n, db')).

Lemma GetByID_ok id db :
  no_db_errors ->
  GetByID id db = (match eng_rows db !! id with
                   | Some a => Ok a
                   | None => Err (Sentinel ErrAccountNotFound)
                   end, db).
Proof.
  intros [Hget _]. destruct (Hget (by_id id) db) as [o Ho].
  unfold GetByID, mbind, M_bind, wrap_err, lift, fail, mret, M_ret. rewrite Ho.
  rewrite <- (get_by_id _ _ _ Ho). by destruct o.
Qed.

Lemma write_details_same p a : write_details p (apply_details p a) a = apply_details p a.
Proof. destruct p as [[n|] [k|] [u|] [c|]]; reflexivity. Qed.

Lemma details_where_self id p a : ID a = id -> details_where id p a a = true.
Proof.
  intros Hid. unfold details_where. rewrite (proj2 (Z.eqb_eq _ _) Hid), !String.eqb_refl.
  rewrite !bool_decide_eq_true_2 by done. by destruct (_ || _).
Qed.

(** A write that changed nothing is recognised as such. *)
Lemma details_unchanged_stored p a t :
  a = stored (apply_details p a) <| UpdatedAt := t |> ->
  details_unchanged p a (apply_details p a) a = true.
Proof.
  intros E. unfold details_unchanged.
  assert (Name a = Name (apply_details p a)) as <- by (rewrite E at 1; reflexivity).
  assert (APIKey a = APIKey (apply_details p a)) as <- by (rewrite E at 1; reflexivity).
  assert (BaseURL a = BaseURL (apply_details p a)) as <- by (rewrite E at 1; reflexivity).
  assert (Capabilities a = Capabilities (apply_details p a)) as <- by (rewrite E at 1; reflexivity).
  rewrite !String.eqb_refl, !bool_decide_eq_true_2 by done. by rewrite !orb_true_r.
Qed.

(** [UpdateDetails] on every branch, when no other session interferes and
    no statement fails: a missing row is not-found, a deleted one is
    [ErrAccountDeleted], an OAuth row is refused, an empty patch returns the
    row without a write, an edit whose result would break the row invariant
    is refused without a write, and any other edit is stored, column for
    column, and returned - even when the database reports no changed row. *)
Theorem update_details_behaviour id p db r db' :
  quiet -> no_db_errors -> UpdateDetails id p db = (r, db') ->
  match eng_rows db !! id with
  | None => r = Err (Sentinel ErrAccountNotFound) /\ db' = db
  | Some a =>
      if String.eqb (Status a) AccountStatusDeleted then r = Err (Sentinel ErrAccountDeleted) /\ db' = db
      else if negb (is_api_key (AuthMethod a)) then
        exists e, r = Err e /\ errors_Is e ErrInvalidAccountShape = true /\ db' = db
      else if patch_empty p then r = Ok a /\ db' = db
      else match Validate (Some (apply_details p a)) with
      | Some e => r = Err (Wrapf "update details %d: validate: %w" [FInt id] e) /\ db' = db
      | None => table_ok db -> exists t,
          r = Ok (stored (apply_details p a) <| UpdatedAt := t |>)
          /\ eng_rows db' !! id = Some (stored (apply_details p a) <| UpdatedAt := t |>)
          /\ forall k, k <> id -> eng_rows db' !! k = eng_rows db !! k
      end
  end.
Proof.
  intros Hq Hne Hr. unfold UpdateDetails in Hr. unfold mbind at 1, M_bind at 1 in Hr.
  rewrite (GetByID_ok _ _ Hne) in Hr.
  destruct (eng_rows db !! id) as [a|] eqn:Ha; [|by simplify_eq].
  destruct (String.eqb _ _); [unfold fail in Hr; by simplify_eq|].
  destruct (negb _); [unfold fail in Hr; simplify_eq; eexists; split; [done|]; split; reflexivity|].
  destruct (patch_empty p); [unfold mret, M_ret in Hr; by simplify_eq|].
  destruct (Validate (Some (apply_details p a))) as [e|] eqn:Hv;
    [unfold fail in Hr; by simplify_eq|]. intros Ht.
  unfold mbind, M_bind, wrap_err, interleave in Hr.
  destruct (proj2 Hne (details_where id p a) (write_details p (apply_details p a)) (others 0 db))
    as (n & d & Hu). rewrite Hu in Hr.
  destruct (update_ok _ (write_details p (apply_details p a)) _ _ _ (fun _ => eq_refl) Hu) as (Hrows & _ & H0n & _).
  assert (forall k, k <> id -> eng_rows d !! k = eng_rows db !! k) as Hrest.
  { intros k Hk. destruct (Hrows k) as [t Hkt]. rewrite Hkt, Hq.
    destruct (eng_rows db !! k) as [b|] eqn:Hb; [|done]. simpl.
    assert (details_where id p a b = false) as ->; [|done].
    apply rows_id in Hb. unfold details_where. by rewrite (proj2 (Z.eqb_neq _ _)) by congruence. }
  destruct (Hrows id) as [t Hid]. rewrite Hq, Ha in Hid.
  cbn [fmap option_fmap option_map] in Hid.
  rewrite details_where_self, write_details_same in Hid by (by eapply rows_id).
  exists t. destruct (n =? 0) eqn:Hn; rewrite (GetByID_ok id (others 1 d) Hne), Hq, Hid in Hr.
  - breflect. specialize (H0n Hn id). rewrite Hq, Ha, Hid in H0n. apply (inj Some) in H0n as E.
    rewrite E, details_unchanged_stored with (t := t) in Hr by done.
    rewrite (Ht _ _ Ha) in Hr. unfold mret, M_ret in Hr. simplify_eq.
    rewrite Hq, Hid. by rewrite E.
  - simplify_eq. by rewrite Hq, Hid.
Qed.

End Behaviour.
