(* ===== verification/SessionRouter.v ===== *)
(** * SessionRouter: sticky sessions by consistent hashing
      (internal/core/session_router.go)

    [Route] builds a ring of 150 virtual nodes per active account and gives a
    session key to the owner of the first node at or after the key's hash. *)

From S2P Require Import Prelude GoLib Errors Account.

(** ** Library code the router calls *)

(** [hash/crc32], IEEE polynomial (reflected), one byte at a time. *)
Definition crc_bit (c : Z) : Z :=
  if Z.testbit c 0 then Z.lxor (Z.shiftr c 1) 0xEDB88320 else Z.shiftr c 1.

Definition crc_byte (c : Z) (b : ascii) : Z := Nat.iter 8 crc_bit (Z.lxor c (byteZ b)).

Fixpoint crc_update (c : Z) (s : string) : Z :=
  match s with
  | EmptyString => c
  | String b s' => crc_update (crc_byte c b) s'
  end.

Definition ChecksumIEEE (s : string) : Z := Z.lxor (crc_update 0xFFFFFFFF s) 0xFFFFFFFF.

Example ChecksumIEEE_check : ChecksumIEEE "123456789" = 0xCBF43926.
Proof. vm_compute. reflexivity. Qed.

(** [sort.Search(n, f)]: binary search for the first index with [f]. *)
Fixpoint search_loop (fuel : nat) (f : nat -> bool) (i j : nat) : nat :=
  match fuel with
  | O => i
  | S fuel' =>
      if (i <? j)%nat then
        let h := Nat.div2 (i + j) in
        if negb (f h) then search_loop fuel' f (S h) j else search_loop fuel' f i h
      else i
  end.
Definition sort_Search (n : nat) (f : nat -> bool) : nat := search_loop (S n) f 0 n.

Definition monotone (n : nat) (f : nat -> bool) : Prop :=
  forall a b, (a <= b < n)%nat -> f a = true -> f b = true.

Lemma search_loop_spec fuel f n i j :
  (i <= j <= n)%nat -> (j - i < fuel)%nat -> monotone n f ->
  (forall k, (k < i)%nat -> f k = false) -> (forall k, (j <= k < n)%nat -> f k = true) ->
  let r := search_loop fuel f i j in
  (r <= n)%nat /\ (forall k, (k < r)%nat -> f k = false) /\ (forall k, (r <= k < n)%nat -> f k = true).
Proof.
  revert i j. induction fuel as [|fuel IH]; intros i j Hij Hf Hm Hlo Hhi; [lia|]. simpl.
  destruct (Nat.ltb_spec i j) as [Hlt|Hge].
  - pose proof (Nat.div2_div (i + j)) as Hd.
    assert (i <= Nat.div2 (i + j) < j)%nat as Hh.
    { rewrite Hd. split; [apply Nat.div_le_lower_bound; lia | apply Nat.Div0.div_lt_upper_bound; lia]. }
    destruct (f (Nat.div2 (i + j))) eqn:E; simpl; apply IH; try done; try lia.
    + intros k Hk. destruct (Nat.lt_ge_cases k j); [|apply Hhi; lia].
      apply (Hm (Nat.div2 (i + j))); [lia | done].
    + intros k Hk. destruct (f k) eqn:Ek; [|done].
      rewrite (Hm k (Nat.div2 (i + j))) in E; [done | lia | done].
  - assert (i = j) as -> by lia. split; [lia|]. split; [done|]. done.
Qed.

(** The loop ends within its fuel and finds the first index. *)
Lemma sort_Search_spec n f :
  monotone n f ->
  let r := sort_Search n f in
  (r <= n)%nat /\ (forall k, (k < r)%nat -> f k = false) /\ (forall k, (r <= k < n)%nat -> f k = true).
Proof. intros Hm. apply search_loop_spec; [lia | lia | done | lia | lia]. Qed.

(** ** The ring *)

Record hashEntry := mkHashEntry { hash : Z; accountID : Z }.

#[export] Instance hashEntry_eq_dec : EqDecision hashEntry.
Proof. solve_decision. Defined.

Definition defaultVirtualNodes : nat := 150.

(** [sort.Slice(ring, less-by-hash)]: any reordering of its input that is
    sorted by hash; the order of equal hashes is not specified. *)
Class SortSlice := sort_Slice : list hashEntry -> list hashEntry.
Class SortSliceLaws `{SortSlice} : Prop := {
  sort_perm : forall l, sort_Slice l ≡ₚ l;
  sort_sorted : forall l, StronglySorted (fun a b => hash a <= hash b) (sort_Slice l);
}.

(** [fmt.Sprintf("%d#%d", id, i)]. *)
Definition node_key (id : Z) (i : nat) : string := pretty id +:+ "#" +:+ pretty (Z.of_nat i).

Definition account_nodes (virtualNodes : nat) (acct : UpstreamAccount) : list hashEntry :=
  (fun i => mkHashEntry (ChecksumIEEE (node_key (ID acct) i)) (ID acct)) <$> seq 0 virtualNodes.

Definition ring_of (virtualNodes : nat) (accts : list UpstreamAccount) : list hashEntry :=
  mjoin (account_nodes virtualNodes <$> accts).

Definition accountMap_of (accts : list UpstreamAccount) : gmap Z UpstreamAccount :=
  foldl (fun m a => <[ID a := a]> m) ∅ accts.

Section Router.
Context `{SortSlice}.
Variable virtualNodes : nat.

(** A missing map key yields the zero account, as indexing a Go map does. *)
Definition Route (sessionKey : string) (activeAccounts : list UpstreamAccount)
    : result error UpstreamAccount :=
  match activeAccounts with
  | [] => Err (Sentinel ErrNoCapacity)
  | [a] => Ok a
  | _ =>
      let accountMap := accountMap_of activeAccounts in
      let ring := sort_Slice (ring_of virtualNodes activeAccounts) in
      let keyHash := ChecksumIEEE sessionKey in
      let idx := sort_Search (List.length ring)
                   (fun i => match ring !! i with Some e => keyHash <=? hash e | None => false end) in
      let idx := if (List.length ring <=? idx)%nat then 0%nat else idx in
      Ok (match ring !! idx with
          | Some e => default zero_account (accountMap !! accountID e)
          | None => zero_account
          end)
  end.
End Router.

(** ** The owner of a key, without the search *)

Definition owner (kh : Z) (ring : list hashEntry) (e : hashEntry) : Prop :=
  e ∈ ring /\
  ((kh <= hash e /\ forall e', e' ∈ ring -> kh <= hash e' -> hash e <= hash e')
   \/ (forall e', e' ∈ ring -> hash e' < kh) /\ (forall e', e' ∈ ring -> hash e <= hash e')).

(** No two accounts share a point of the ring. *)
Definition no_ties (ring : list hashEntry) : Prop :=
  forall e1 e2, e1 ∈ ring -> e2 ∈ ring -> hash e1 = hash e2 -> accountID e1 = accountID e2.

Lemma owner_unique kh ring e1 e2 :
  no_ties ring -> owner kh ring e1 -> owner kh ring e2 -> accountID e1 = accountID e2.
Proof.
  intros Hn [H1 [[G1 M1]|[L1 M1]]] [H2 [[G2 M2]|[L2 M2]]]; apply Hn; try done.
  - apply Z.le_antisymm; auto.
  - specialize (L2 _ H1). lia.
  - specialize (L1 _ H2). lia.
  - apply Z.le_antisymm; auto.
Qed.

(** Removing points that do not own the key keeps its owner. *)
Lemma owner_subset kh ring ring' e :
  ring' ⊆ ring -> owner kh ring e -> e ∈ ring' -> owner kh ring' e.
Proof.
  intros Hs [_ Ho] He. split; [done|].
  destruct Ho as [[G M]|[L M]]; [left | right]; repeat split; auto.
Qed.

Lemma sorted_lookup_le ring i j a b :
  StronglySorted (fun a b => hash a <= hash b) ring ->
  (i <= j)%nat -> ring !! i = Some a -> ring !! j = Some b -> hash a <= hash b.
Proof.
  intros Hs. revert i j. induction Hs as [|x l Hs IH Hx]; intros i j Hij Ha Hb; [done|].
  destruct i as [|i], j as [|j]; simpl in *; simplify_eq; try lia.
  - rewrite Forall_forall in Hx. apply Hx. by eapply list_elem_of_lookup_2.
  - eapply (IH i j); eauto; lia.
Qed.

Section RouterFacts.
Context `{SortSliceLaws}.
Variable virtualNodes : nat.

(** The binary search over the sorted ring returns an owner. *)
Lemma search_owner kh ring0 :
  ring0 <> [] ->
  let ring := sort_Slice ring0 in
  let idx := sort_Search (List.length ring)
               (fun i => match ring !! i with Some e => kh <=? hash e | None => false end) in
  let idx := if (List.length ring <=? idx)%nat then 0%nat else idx in
  exists e, ring !! idx = Some e /\ owner kh ring0 e.
Proof.
  intros Hne ring. set (f := fun i => match ring !! i with Some e => kh <=? hash e | None => false end).
  pose proof (sort_perm ring0) as Hp. fold ring in Hp.
  pose proof (sort_sorted ring0) as Hs. fold ring in Hs.
  assert (forall e, e ∈ ring0 <-> e ∈ ring) as Hin by (intros e; by rewrite Hp).
  assert (0 < List.length ring)%nat as Hlen.
  { rewrite Hp. destruct ring0; [done|simpl; lia]. }
  destruct (sort_Search_spec (List.length ring) f) as (Hle & Hlo & Hhi).
  { intros a b Hab Ha. unfold f in *.
    destruct (lookup_lt_is_Some_2 ring b) as [eb Eb]; [lia|]. rewrite Eb.
    destruct (ring !! a) as [ea|] eqn:Ea; [|done]. breflect. apply Z.leb_le.
    pose proof (sorted_lookup_le _ _ _ _ _ Hs (proj1 Hab) Ea Eb). lia. }
  set (idx := sort_Search (List.length ring) f) in *. cbv zeta.
  assert (forall i e, ring !! i = Some e -> (i < List.length ring)%nat) as Hlt
    by (intros i e; apply lookup_lt_Some).
  destruct (Nat.leb_spec (List.length ring) idx) as [Hout|Hok].
  - destruct (lookup_lt_is_Some_2 ring 0) as [e E]; [done|]. exists e. split; [done|].
    split; [apply Hin; by eapply list_elem_of_lookup_2|]. right. split; intros e' He'.
    + apply Hin, list_elem_of_lookup in He' as [i Ei]. pose proof (Hlo i) as Hfi. unfold f in Hfi.
      rewrite Ei in Hfi. specialize (Hlt _ _ Ei). rewrite Z.leb_gt in Hfi. apply Hfi. lia.
    + apply Hin, list_elem_of_lookup in He' as [i Ei].
      eapply (sorted_lookup_le ring 0 i); eauto; lia.
  - destruct (lookup_lt_is_Some_2 ring idx) as [e E]; [done|]. exists e. split; [done|].
    split; [apply Hin; by eapply list_elem_of_lookup_2|]. left.
    pose proof (Hhi idx) as Hfi. unfold f in Hfi. rewrite E in Hfi. rewrite Z.leb_le in Hfi.
    split; [apply Hfi; lia|]. intros e' He' Hk.
    apply Hin, list_elem_of_lookup in He' as [i Ei].
    destruct (Nat.lt_ge_cases i idx) as [Hi|Hi]; [|by eapply (sorted_lookup_le ring idx i)].
    specialize (Hlo _ Hi). unfold f in Hlo. rewrite Ei in Hlo. apply Z.leb_gt in Hlo. lia.
Qed.

Lemma elem_ring e accts :
  e ∈ ring_of virtualNodes accts <->
  exists a, a ∈ accts /\ e ∈ account_nodes virtualNodes a.
Proof.
  unfold ring_of. rewrite list_elem_of_join. split.
  - intros (l & He & Hl). apply list_elem_of_fmap in Hl as (a & -> & Ha). by exists a.
  - intros (a & Ha & He). exists (account_nodes virtualNodes a). split; [done|].
    apply list_elem_of_fmap. by exists a.
Qed.

Lemma elem_nodes e a : e ∈ account_nodes virtualNodes a -> accountID e = ID a.
Proof. unfold account_nodes. rewrite list_elem_of_fmap. by intros (i & -> & _). Qed.

Lemma ring_nonempty a accts :
  (0 < virtualNodes)%nat -> ring_of virtualNodes (a :: accts) <> [].
Proof. intros Hv. unfold ring_of, account_nodes. destruct virtualNodes; [lia | done]. Qed.

Lemma accountMap_lookup accts k a :
  accountMap_of accts !! k = Some a -> a ∈ accts /\ ID a = k.
Proof.
  unfold accountMap_of. induction accts as [|x l IH] using rev_ind; [done|].
  rewrite foldl_app. simpl. intros [[<- <-]|[_ Hl]]%lookup_insert_Some.
  - split; [|done]. set_solver.
  - apply IH in Hl as [Hl ?]. split; [set_solver | done].
Qed.

Lemma accountMap_total accts a :
  a ∈ accts -> is_Some (accountMap_of accts !! ID a).
Proof.
  unfold accountMap_of. induction accts as [|x l IH] using rev_ind; [by intros ?%not_elem_of_nil|].
  rewrite foldl_app. simpl. intros [Ha|Ha]%elem_of_app.
  - destruct (decide (ID x = ID a)) as [->|Hne]; [by rewrite lookup_insert_eq|].
    rewrite lookup_insert_ne by done. by apply IH.
  - apply list_elem_of_singleton in Ha as ->. by rewrite lookup_insert_eq.
Qed.

(** With distinct ids, the routed account is the owner of the key. *)
Lemma Route_owner key accts r :
  (0 < virtualNodes)%nat -> Route virtualNodes key accts = Ok r ->
  r ∈ accts /\
  exists e, owner (ChecksumIEEE key) (ring_of virtualNodes accts) e /\ accountID e = ID r.
Proof.
  intros Hv Hr. destruct accts as [|a [|b accts]]; [done| |].
  - injection Hr as <-. split; [set_solver|].
    destruct (search_owner (ChecksumIEEE key) (ring_of virtualNodes [a])) as (e & _ & Ho);
      [by apply ring_nonempty|].
    exists e. split; [done|]. destruct Ho as [Hin _]. apply elem_ring in Hin as (x & Hx & Hn).
    apply list_elem_of_singleton in Hx as ->. by apply elem_nodes in Hn.
  - unfold Route in Hr. set (l := a :: b :: accts) in *.
    destruct (search_owner (ChecksumIEEE key) (ring_of virtualNodes l)) as (e & E & Ho);
      [by apply ring_nonempty|].
    cbv zeta in E. rewrite E in Hr. injection Hr as Hr.
    destruct (proj1 (elem_ring e l) (proj1 Ho)) as (x & Hx & Hn). apply elem_nodes in Hn.
    destruct (accountMap_total l x Hx) as [y Hy]. rewrite Hn, Hy in Hr. simpl in Hr. subst y.
    apply accountMap_lookup in Hy as [Hy Hid]. split; [done|]. exists e. split; [done|]. congruence.
Qed.

Lemma Route_total key accts : accts <> [] -> exists r, Route virtualNodes key accts = Ok r.
Proof. destruct accts as [|a [|b accts]]; [done|eauto|eauto]. Qed.

(** Routing always lands on an active account: an empty list is
    [ErrNoCapacity], and any other list returns one of its own members (never
    the zero account of a missing map key), the owner of the first ring point
    at or after the key's hash, wrapping around. *)
Theorem Route_correct key accts :
  (0 < virtualNodes)%nat ->
  match Route virtualNodes key accts with
  | Err e => e = Sentinel ErrNoCapacity /\ accts = []
  | Ok r => r ∈ accts /\
      exists p, owner (ChecksumIEEE key) (ring_of virtualNodes accts) p /\ accountID p = ID r
  end.
Proof.
  intros Hv. destruct (Route virtualNodes key accts) as [r|e] eqn:Hr; [by apply Route_owner|].
  destruct accts as [|a [|b accts]]; [by injection Hr as <- | done | done].
Qed.

(** C11: Consistent hashing: if no two accounts share a ring point, taking
    accounts out of service (or listing them in another order) re-routes only
    the sessions they owned. *)
Theorem Route_minimal_disruption key accts accts' r r' :
  (0 < virtualNodes)%nat -> no_ties (ring_of virtualNodes accts) ->
  accts' ⊆ accts -> NoDup (ID <$> accts) ->
  Route virtualNodes key accts = Ok r -> r ∈ accts' ->
  Route virtualNodes key accts' = Ok r' -> r' = r.
Proof.
  intros Hv Hn Hsub Hnd Hr Hin Hr'.
  destruct (Route_owner _ _ _ Hv Hr) as (Hra & e & Ho & He).
  destruct (Route_owner _ _ _ Hv Hr') as (Hra' & e' & Ho' & He').
  assert (ring_of virtualNodes accts' ⊆ ring_of virtualNodes accts) as Hring.
  { intros x. rewrite !elem_ring. naive_solver. }
  assert (e ∈ ring_of virtualNodes accts') as Hee.
  { destruct (proj1 (elem_ring e accts) (proj1 Ho)) as (x & Hx & Hnode).
    apply elem_ring. exists x. split; [|done].
    assert (ID x = ID r) as Hid by (apply elem_nodes in Hnode; congruence).
    assert (x = r) as -> by (by eapply (NoDup_fmap_inj ID accts)). done. }
  assert (ID r' = ID r) as Hid.
  { rewrite <- He, <- He'. eapply owner_unique; [|exact Ho'|by eapply owner_subset].
    intros e1 e2 H1 H2. apply Hn; auto. }
  eapply (NoDup_fmap_inj ID accts); auto.
Qed.

End RouterFacts.
