(* ===== verification/Selector.v ===== *)
(** * Selector: choosing an upstream account (internal/core/account_selector.go)

    The selector is written against the [AccountRepository] interface
    (internal/core/interfaces.go): [AccountRepository] is that interface,
    [AccountRepositoryLaws] what its implementation promises, and
    [store_laws] shows that the repository of [Store] keeps the promise.  The
    selector adds the round-robin counter to the repository's state. *)

From S2P Require Import Prelude GoLib Errors Account Engine Store.

(** ** The repository interface *)

Class AccountRepository (S : Type) := {
  repo_rows : S -> gmap Z UpstreamAccount;
  repo_Create : UpstreamAccount -> M S UpstreamAccount;
  repo_GetByID : Z -> M S UpstreamAccount;
  repo_List : list string -> M S (list UpstreamAccount);
  repo_ListActive : M S (list UpstreamAccount);
  repo_UpdateStatus : Z -> string -> M S unit;
  repo_UpdateDetails : Z -> AccountDetailsPatch -> M S UpstreamAccount;
}.

Class AccountRepositoryLaws (S : Type) `{AccountRepository S} : Prop := {
  repo_id : forall s k a, repo_rows s !! k = Some a -> ID a = k;
  repo_active_ok : forall s l s', repo_ListActive s = (Ok l, s') ->
    s' = s /\ (forall a, a ∈ l <-> repo_rows s !! ID a = Some a /\ Status a = AccountStatusActive)
    /\ NoDup (ID <$> l);
  repo_active_err : forall s e s', repo_ListActive s = (Err e, s') -> s' = s;
  repo_get_ok : forall id s a s', repo_GetByID id s = (Ok a, s') ->
    s' = s /\ repo_rows s !! id = Some a;
  repo_get_err : forall id s e s', repo_GetByID id s = (Err e, s') ->
    s' = s /\ (errors_Is e ErrAccountNotFound = true -> repo_rows s !! id = None);
  repo_status_ok : forall id st s s', repo_UpdateStatus id st s = (Ok tt, s') ->
    (exists a a', repo_rows s !! id = Some a /\ repo_rows s' !! id = Some a' /\ Status a' = st)
    /\ (forall k, k <> id -> repo_rows s' !! k = repo_rows s !! k);
  repo_status_err : forall id st s e s', repo_UpdateStatus id st s = (Err e, s') ->
    forall k, repo_rows s' !! k = repo_rows s !! k;
  repo_create_ok : forall a s r s', repo_Create a s = (Ok r, s') ->
    repo_rows s !! ID r = None
    /\ (exists row, repo_rows s' !! ID r = Some row /\ Validate (Some row) = None
          /\ Name row = Name a /\ APIKey row = APIKey a /\ BaseURL row = BaseURL a
          /\ Status row = Status a /\ Capabilities row = Capabilities a)
    /\ (forall k, k <> ID r -> repo_rows s' !! k = repo_rows s !! k);
}.

(** ** The selector *)

Definition SessionRouter : Type := string -> list UpstreamAccount -> result error UpstreamAccount.

(** The [PreForward] hook may refresh the account it is given and the
    database behind it. *)
Definition PreForwardHook (S : Type) : Type :=
  UpstreamAccount -> S -> result error (option string * bool) * UpstreamAccount * S.

Record AccountSelector (S : Type) := mkAccountSelector {
  sessionRouter : option SessionRouter;
  PreForward : option (PreForwardHook S) }.
Arguments mkAccountSelector {S}.
Arguments sessionRouter {S}.
Arguments PreForward {S}.

Record PreparedAccount := mkPreparedAccount {
  pa_Account : UpstreamAccount; pa_Token : option string; pa_UsedFallback : bool }.

Definition cloneBytes (src : option string) : option string :=
  match src with
  | Some s => if lenZ s =? 0 then None else Some s
  | None => None
  end.

Definition eligible_of (eligible : option (UpstreamAccount -> bool)) (a : UpstreamAccount) : bool :=
  match eligible with Some f => f a | None => true end.

Section Selector.
Context {S : Type} `{AccountRepository S}.
Variable s : AccountSelector S.

(** The selector's state: the repository's and the atomic uint64 counter. *)
Definition sel_state : Type := S * Z.

Definition on_repo {A} (m : M S A) : M sel_state A := fun st =>
  let '(r, s') := m (fst st) in (r, (s', snd st)).

(** [counter.Add(1) - 1], both modulo 2^64. *)
Definition next_index : M sel_state Z := fun st =>
  let c := wrapu64 (snd st + 1) in (Ok (wrapu64 (c - 1)), (fst st, c)).

Definition pick (sessionKey : string) (eligible : option (UpstreamAccount -> bool))
    : M sel_state UpstreamAccount :=
  active ← wrap_err (Wrapf "list active accounts: %w" []) (on_repo repo_ListActive);
  let active := match eligible with
                | Some f => List.filter f active
                | None => active
                end in
  match active with
  | [] => fail (Sentinel ErrNoCapacity)
  | a0 :: _ =>
      match (if String.eqb sessionKey "" then None else sessionRouter s) with
      | Some route => lift (fun _ => route sessionKey active)
      | None =>
          idx ← next_index;
          mret (nth (Z.to_nat (idx mod Z.of_nat (List.length active))) active a0)
      end
  end.

(** The account is a pointer: a refresh inside [PreForward] is visible in the
    account the selector returns. *)
Definition prepareToken (acct : UpstreamAccount)
    : M S (UpstreamAccount * option string * bool) := fun st =>
  match PreForward s with
  | None =>
      if String.eqb (APIKey acct) ""
      then (Err (AccountSelectionError (ID acct) AccountUnavailableCredentialUnavailable), st)
      else (Ok (acct, Some (APIKey acct), false), st)
  | Some hook =>
      match hook acct st with
      | (Err e, _, st') => (Err (PreForwardError "credential refresh error" (Some e)), st')
      | (Ok (token, fallback), acct', st') =>
          if bytes_len token =? 0
          then (Err (PreForwardError "pre-forward returned empty access token" None), st')
          else (Ok (acct', cloneBytes token, fallback), st')
      end
  end.

Definition SelectAccount (sessionKey : string) : M sel_state UpstreamAccount :=
  pick sessionKey (Some (fun a => negb (SystemOneOnly a))).

Definition SelectEligible (sessionKey : string) (eligible : option (UpstreamAccount -> bool))
    : M sel_state (UpstreamAccount * option string * bool) :=
  acct ← pick sessionKey eligible;
  on_repo (prepareToken acct).

Definition Select (sessionKey : string) : M sel_state (UpstreamAccount * option string * bool) :=
  SelectEligible sessionKey None.

Fixpoint prepare_all (eligible : option (UpstreamAccount -> bool)) (active : list UpstreamAccount)
    : M S (list PreparedAccount) :=
  match active with
  | [] => mret []
  | acct :: rest =>
      if negb (eligible_of eligible acct) then prepare_all eligible rest
      else
        p ← prepareToken acct;
        let '(acct', token, fallback) := p in
        ps ← prepare_all eligible rest;
        mret (mkPreparedAccount acct' token fallback :: ps)
  end.

Definition ListEligiblePrepared (eligible : option (UpstreamAccount -> bool))
    : M S (list PreparedAccount) :=
  active ← wrap_err (Wrapf "list active accounts: %w" []) repo_ListActive;
  prepared ← prepare_all eligible active;
  match prepared with
  | [] => fail (Sentinel ErrNoCapacity)
  | _ => mret prepared
  end.

Definition ListEligibleAccounts (eligible : option (UpstreamAccount -> bool))
    : M S (list UpstreamAccount) :=
  active ← wrap_err (Wrapf "list active accounts: %w" []) repo_ListActive;
  match List.filter (eligible_of eligible) active with
  | [] => fail (Sentinel ErrNoCapacity)
  | out => mret out
  end.

Definition unavailable {A} (id : Z) (r : AccountUnavailableReason) : M S A :=
  fail (AccountSelectionError id r).

Definition SelectByIDEligible (id : Z) (eligible : option (UpstreamAccount -> bool))
    : M S (UpstreamAccount * option string * bool) :=
  if id <=? 0 then unavailable id AccountUnavailableMissing
  else
    acct ← wrap_err (fun e => if errors_Is e ErrAccountNotFound
                              then AccountSelectionError id AccountUnavailableMissing
                              else Wrapf "get account %d: %w" [FInt id] e) (repo_GetByID id);
    if String.eqb (Status acct) AccountStatusActive then
      if negb (eligible_of eligible acct) then unavailable id AccountUnavailableIneligible
      else prepareToken acct
    else if String.eqb (Status acct) AccountStatusDisabled then unavailable id AccountUnavailableDisabled
    else if String.eqb (Status acct) AccountStatusDeleted then unavailable id AccountUnavailableDeleted
    else unavailable id AccountUnavailableIneligible.

Definition SelectByID (id : Z) : M S (UpstreamAccount * option string * bool) :=
  SelectByIDEligible id None.

End Selector.

(** ** [Store]'s repository implements the interface *)

Section StoreRepository.
Context {DB : Type} `{XormLaws DB} `{!Others DB}.

#[export] Instance store_repository : AccountRepository DB := {|
  repo_rows := eng_rows;
  repo_Create := AccountRepo.Create;
  repo_GetByID := AccountRepo.GetByID;
  repo_List := AccountRepo.List;
  repo_ListActive := AccountRepo.ListActive;
  repo_UpdateStatus := AccountRepo.UpdateStatus;
  repo_UpdateDetails := AccountRepo.UpdateDetails;
|}.

Lemma store_active s :
  match AccountRepo.ListActive s with
  | (Ok l, s') => s' = s
      /\ (forall a, a ∈ l <-> eng_rows s !! ID a = Some a /\ Status a = AccountStatusActive)
      /\ NoDup (ID <$> l)
  | (Err _, s') => s' = s
  end.
Proof.
  unfold AccountRepo.ListActive, wrap_err, lift.
  destruct (eng_find _ s) as [l|e] eqn:F; [|done].
  destruct (find_ok _ _ _ F) as (Hl & Hn & _). split; [done|]. split; [|done].
  intros a. rewrite Hl, String.eqb_eq. done.
Qed.

Lemma store_get id s :
  match AccountRepo.GetByID id s with
  | (Ok a, s') => s' = s /\ eng_rows s !! id = Some a
  | (Err e, s') => s' = s /\ (errors_Is e ErrAccountNotFound = true -> eng_rows s !! id = None)
  end.
Proof.
  unfold AccountRepo.GetByID, mbind, M_bind, wrap_err, lift, fail, mret, M_ret.
  destruct (eng_get _ s) as [[a|]|e] eqn:G; [apply get_by_id in G..|].
  - by rewrite G.
  - by rewrite <- G.
  - split; [done|]. simpl. by rewrite (get_err _ _ _ G).
Qed.

Lemma store_status id st s :
  match AccountRepo.UpdateStatus id st s with
  | (Ok tt, s') =>
      (exists a a', eng_rows s !! id = Some a /\ eng_rows s' !! id = Some a' /\ Status a' = st)
      /\ (forall k, k <> id -> eng_rows s' !! k = eng_rows s !! k)
  | (Err e, s') => forall k, eng_rows s' !! k = eng_rows s !! k
  end.
Proof.
  unfold AccountRepo.UpdateStatus, mbind, M_bind, wrap_err, fail, mret, M_ret.
  destruct (eng_update _ _ s) as [[n|e] d] eqn:U.
  - destruct (n =? 0) eqn:E; breflect.
    + edestruct update_ok as (_ & _ & Hsame & _); [|exact U|by apply Hsame]. done.
    + edestruct (update_one id) as (a & u & Ha & _ & Hw & Hrest); [| |exact U|done|]; [done| |].
      { intros a Hp. by apply Z.eqb_eq in Hp. }
      split; [|done]. exists a. eexists. by rewrite Hw.
  - by rewrite (update_err _ _ _ _ _ U).
Qed.

Lemma store_create a s r s' :
  AccountRepo.Create a s = (Ok r, s') ->
  eng_rows s !! ID r = None
  /\ (exists row, eng_rows s' !! ID r = Some row /\ Validate (Some row) = None
        /\ Name row = Name a /\ APIKey row = APIKey a /\ BaseURL row = BaseURL a
        /\ Status row = Status a /\ Capabilities row = Capabilities a)
  /\ (forall k, k <> ID r -> eng_rows s' !! k = eng_rows s !! k).
Proof.
  unfold AccountRepo.Create. intros Hr. unfold mbind, M_bind in Hr.
  destruct (AccountRepo.api_key_gate _ _ _ s) as [[u|e] d0] eqn:Hg; [|done].
  assert (Validate (Some (normaliseAPIKeyShape a)) = None) as Hv.
  { unfold AccountRepo.api_key_gate, fail in Hg. destruct (negb _); [done|].
    by destruct (Validate _). }
  apply gate_ok in Hg as ->. unfold wrap_err, mret, M_ret in Hr.
  destruct (eng_insert _ s) as [[row|e] d] eqn:Hi; [|done]. injection Hr as <- <-.
  destruct (insert_ok _ _ _ _ Hi) as (_ & Hnone & Hrows & Hsame). simpl ID. rewrite Hrows.
  split; [done|]. split.
  - exists row. rewrite lookup_insert_eq. split; [done|]. split.
    + by rewrite Hsame, stamps_valid, stored_valid.
    + rewrite Hsame. unfold normaliseAPIKeyShape. by destruct (String.eqb _ _).
  - intros k Hk. by rewrite lookup_insert_ne.
Qed.

#[export] Instance store_laws : AccountRepositoryLaws DB.
Proof.
  split; cbn [repo_rows repo_Create repo_GetByID repo_ListActive repo_UpdateStatus store_repository].
  - apply rows_id.
  - intros s l s' E. pose proof (store_active s) as Hs. by rewrite E in Hs.
  - intros s e s' E. pose proof (store_active s) as Hs. by rewrite E in Hs.
  - intros id s a s' E. pose proof (store_get id s) as Hs. by rewrite E in Hs.
  - intros id s e s' E. pose proof (store_get id s) as Hs. by rewrite E in Hs.
  - intros id st s s' E. pose proof (store_status id st s) as Hs. by rewrite E in Hs.
  - intros id st s e s' E. pose proof (store_status id st s) as Hs. by rewrite E in Hs.
  - apply store_create.
Qed.

End StoreRepository.

(** ** What selection guarantees *)

Section Correctness.
Context {S : Type} `{AccountRepositoryLaws S}.
Variable s : AccountSelector S.

(** The candidates of a pick: the eligible active accounts. *)
Definition candidates (eligible : option (UpstreamAccount -> bool)) (active : list UpstreamAccount) :=
  List.filter (eligible_of eligible) active.

Lemma candidates_eq eligible active :
  match eligible with Some f => List.filter f active | None => active end
  = candidates eligible active.
Proof.
  destruct eligible as [f|]; [done|]. unfold candidates. simpl.
  induction active as [|a l IH]; simpl; [done|]. by rewrite <- IH.
Qed.

Lemma elem_candidates eligible active a :
  a ∈ candidates eligible active <-> a ∈ active /\ eligible_of eligible a = true.
Proof. unfold candidates. apply elem_filter. Qed.

(** One pick, given what [ListActive] returned. *)
Lemma pick_eq key eligible (st : sel_state (S := S)) active :
  repo_ListActive (fst st) = (Ok active, fst st) ->
  pick s key eligible st =
    match candidates eligible active with
    | [] => (Err (Sentinel ErrNoCapacity), st)
    | a0 :: _ =>
        match (if String.eqb key "" then None else sessionRouter s) with
        | Some route => (route key (candidates eligible active), st)
        | None =>
            let c := wrapu64 (snd st + 1) in
            (Ok (nth (Z.to_nat (wrapu64 (c - 1) mod Z.of_nat (List.length (candidates eligible active))))
                   (candidates eligible active) a0), (fst st, c))
        end
    end.
Proof.
  intros Ha. unfold pick, mbind, M_bind, wrap_err, on_repo. destruct st as [st c]. simpl in *.
  rewrite Ha, candidates_eq. destruct (candidates eligible active); [done|].
  destruct (if String.eqb key "" then None else sessionRouter s); done.
Qed.

Definition available (eligible : option (UpstreamAccount -> bool)) (st : S) (a : UpstreamAccount) : Prop :=
  repo_rows st !! ID a = Some a /\ Status a = AccountStatusActive /\ eligible_of eligible a = true.

Lemma nth_mod_elem (a0 : UpstreamAccount) l c :
  nth (Z.to_nat (c mod Z.of_nat (List.length (a0 :: l)))) (a0 :: l) a0 ∈ a0 :: l.
Proof.
  apply list_elem_of_In, nth_In.
  pose proof (Z.mod_pos_bound c (Z.of_nat (List.length (a0 :: l)))).
  simpl List.length in *. lia.
Qed.

(** Whatever the session key and the eligibility filter, an account that
    [pick] returns is stored, active and eligible; selection reads but never
    writes the account table; and when the lookup of active accounts succeeds,
    [ErrNoCapacity] is returned exactly when no active account is eligible
    (given a session router that picks from the non-empty list it is shown). *)
Theorem pick_sound key eligible st r st' active :
  (forall route k l, sessionRouter s = Some route -> l <> [] -> exists b, route k l = Ok b /\ b ∈ l) ->
  repo_ListActive (fst st) = (Ok active, fst st) ->
  pick s key eligible st = (r, st') ->
  fst st' = fst st /\
  match r with
  | Ok a => available eligible (fst st) a
  | Err e => e = Sentinel ErrNoCapacity /\ forall a, ~ available eligible (fst st) a
  end.
Proof.
  intros Hroute Hl Hp. destruct (repo_active_ok _ _ _ Hl) as (_ & Hin & _).
  assert (forall b, b ∈ candidates eligible active <-> available eligible (fst st) b) as Hav.
  { intros b. rewrite elem_candidates, Hin. unfold available. tauto. }
  rewrite (pick_eq _ _ _ _ Hl) in Hp.
  destruct (candidates eligible active) as [|a0 l] eqn:E.
  { injection Hp as <- <-. split; [done|]. split; [done|]. intros a Ha.
    by apply Hav, not_elem_of_nil in Ha. }
  destruct (if String.eqb key "" then None else sessionRouter s) as [route|] eqn:Er.
  - assert (sessionRouter s = Some route) as Hs by (by destruct (String.eqb key "")).
    destruct (Hroute route key (a0 :: l) Hs) as (b & Hb & Hbl); [done|].
    rewrite Hb in Hp. injection Hp as <- <-. split; [done|]. by apply Hav.
  - apply pair_eq in Hp as [<- <-]. split; [done|]. apply Hav, nth_mod_elem.
Qed.

(** ** Round robin *)

(** [n] picks in a row. *)
Fixpoint picks (n : nat) (eligible : option (UpstreamAccount -> bool)) : M (sel_state (S := S)) (list UpstreamAccount) :=
  match n with
  | O => mret []
  | Datatypes.S n' => a ← pick s "" eligible; l ← picks n' eligible; mret (a :: l)
  end.

Lemma next_ticket c : 0 <= c < 2 ^ 64 -> wrapu64 (wrapu64 (c + 1) - 1) = c.
Proof.
  intros Hc. unfold wrapu64. rewrite Zminus_mod_idemp_l.
  replace (c + 1 - 1) with c by lia. by apply Z.mod_small.
Qed.

Definition ticket_account (l : list UpstreamAccount) (a0 : UpstreamAccount) (c : Z) (i : nat) : UpstreamAccount :=
  nth (Z.to_nat ((c + Z.of_nat i) mod Z.of_nat (List.length l))) l a0.

Lemma picks_eq n eligible (st : sel_state (S := S)) active a0 l :
  repo_ListActive (fst st) = (Ok active, fst st) ->
  candidates eligible active = a0 :: l ->
  0 <= snd st -> snd st + Z.of_nat n <= 2 ^ 64 ->
  fst (picks n eligible st) = Ok (ticket_account (a0 :: l) a0 (snd st) <$> seq 0 n).
Proof.
  intros Hl Hc. revert st Hl. induction n as [|n IH]; intros [st c] Hl H1 H2; [done|].
  cbn [picks]. unfold mbind, M_bind. rewrite (pick_eq _ _ _ _ Hl), Hc.
  simpl (if String.eqb "" "" then _ else _). cbv iota zeta. cbn [fst snd] in *.
  rewrite next_ticket by lia.
  destruct (decide (c + 1 = 2 ^ 64)) as [Hw|Hw].
  - assert (n = 0%nat) as -> by lia. cbn [picks]. unfold mret, M_ret. cbn.
    unfold ticket_account. by rewrite Z.add_0_r.
  - specialize (IH (st, wrapu64 (c + 1)) Hl).
    assert (wrapu64 (c + 1) = c + 1) as Hc1 by (unfold wrapu64; rewrite Z.mod_small; lia).
    rewrite Hc1 in *. cbn [fst snd] in IH. specialize (IH ltac:(lia) ltac:(lia)).
    destruct (picks n eligible (st, c + 1)) as [[rest|e] st2]; [|done].
    cbn [fst] in IH. injection IH as ->. cbn [fst]. unfold mret, M_ret. cbn [fst].
    f_equal. cbn [seq fmap list_fmap]. f_equal; [unfold ticket_account; by rewrite Z.add_0_r|].
    rewrite <- fmap_S_seq, <- list_fmap_compose. apply list_fmap_ext. intros i x _.
    unfold ticket_account, compose. replace (c + Z.of_nat (Datatypes.S x)) with (c + 1 + Z.of_nat x) by lia. done.
Qed.

(** The accounts of as many consecutive tickets as there are candidates. *)
Lemma tickets_rotate l a0 c :
  0 <= c -> l <> [] -> ticket_account l a0 c <$> seq 0 (List.length l) = rotate (Z.to_nat c) l.
Proof.
  intros Hc Hne. apply list_eq. intros i. rewrite list_lookup_fmap.
  destruct (Nat.lt_ge_cases i (List.length l)) as [Hi|Hi].
  - rewrite lookup_seq_lt by done. simpl. rewrite lookup_rotate_r by done.
    unfold ticket_account, rotate_nat_add. rewrite Z2Nat.id by done.
    destruct (lookup_lt_is_Some_2 l (Z.to_nat ((c + Z.of_nat i) mod Z.of_nat (List.length l)))) as [x Hx].
    { pose proof (Z.mod_pos_bound (c + Z.of_nat i) (Z.of_nat (List.length l))). lia. }
    rewrite Hx. apply nth_lookup_Some with (d := a0) in Hx. by rewrite Hx.
  - rewrite lookup_seq_ge by done. simpl. symmetry. apply lookup_ge_None. by rewrite length_rotate.
Qed.

(** C13: Round-robin fairness: without a session key, as many consecutive
    picks as there are eligible accounts serve each of them exactly once -
    the served list is a rotation of the candidate list - unless the 64-bit
    counter wraps in between. *)
Theorem round_robin_fair eligible st active :
  repo_ListActive (fst st) = (Ok active, fst st) ->
  let l := candidates eligible active in
  l <> [] -> 0 <= snd st -> snd st + Z.of_nat (List.length l) <= 2 ^ 64 ->
  exists served, fst (picks (List.length l) eligible st) = Ok served
    /\ served = rotate (Z.to_nat (snd st)) l /\ served ≡ₚ l.
Proof.
  intros Hl l Hne H1 H2. destruct l as [|a0 l'] eqn:E; [done|]. subst l.
  rewrite (picks_eq _ _ _ _ _ _ Hl E) by done. rewrite <- E in *.
  eexists. split; [done|]. rewrite E in *. rewrite tickets_rotate by done. split; [done|].
  unfold rotate. rewrite Permutation_app_comm. by rewrite take_drop.
Qed.

(** ** Selection by id *)

(** Why an account cannot be selected by id, as a function of its row. *)
Definition availability (eligible : option (UpstreamAccount -> bool)) (id : Z)
    (row : option UpstreamAccount) : option AccountUnavailableReason :=
  if id <=? 0 then Some AccountUnavailableMissing
  else match row with
  | None => Some AccountUnavailableMissing
  | Some a =>
      if String.eqb (Status a) AccountStatusDisabled then Some AccountUnavailableDisabled
      else if String.eqb (Status a) AccountStatusDeleted then Some AccountUnavailableDeleted
      else if negb (String.eqb (Status a) AccountStatusActive) then Some AccountUnavailableIneligible
      else if eligible_of eligible a then None else Some AccountUnavailableIneligible
  end.

Lemma prepareToken_token acct st a' token fallback st' :
  prepareToken s acct st = (Ok (a', token, fallback), st') -> 0 < bytes_len token.
Proof.
  unfold prepareToken. destruct (PreForward s) as [hook|].
  - destruct (hook acct st) as [[[[tok fb]|e] a2] s2]; [|done].
    destruct (bytes_len tok =? 0) eqn:Hb; [done|]. intros [= <- <- <- <-]. breflect.
    unfold bytes_len, cloneBytes in *. destruct tok as [t|]; [|done]. simpl in *.
    rewrite (proj2 (Z.eqb_neq _ _) Hb). simpl. unfold lenZ in *. lia.
  - destruct (String.eqb_spec (APIKey acct) ""); [done|]. intros [= <- <- <- <-].
    unfold bytes_len, lenZ. simpl. destruct (APIKey acct); simpl; [done|lia].
Qed.

Lemma prepareToken_err acct st e st' :
  prepareToken s acct st = (Err e, st') ->
  errors_Is e ErrPreForward = true
  \/ e = AccountSelectionError (ID acct) AccountUnavailableCredentialUnavailable.
Proof.
  unfold prepareToken. destruct (PreForward s) as [hook|].
  - destruct (hook acct st) as [[[[tok fb]|err] a2] s2].
    + destruct (bytes_len tok =? 0); [|done]. intros [= <- <-]. by left.
    + intros [= <- <-]. by left.
  - destruct (String.eqb _ _); [|done]. intros [= <- <-]. by right.
Qed.

(** Selecting by id on every branch: when the row lookup does not fail
    for another reason, the caller gets the typed reason why the account is
    unavailable exactly when it is, and otherwise the account with a non-empty
    credential, or an error that says the credential could not be prepared. *)
Theorem select_by_id_decides id eligible st r st' :
  SelectByIDEligible s id eligible st = (r, st') ->
  (0 < id -> fst (repo_GetByID id st) = Err (Sentinel ErrAccountNotFound)
     \/ exists a, fst (repo_GetByID id st) = Ok a) ->
  match availability eligible id (repo_rows st !! id) with
  | Some reason => r = Err (AccountSelectionError id reason) /\ st' = st
  | None =>
      match r with
      | Ok (_, token, _) => 0 < bytes_len token
      | Err e => errors_Is e ErrPreForward = true
                 \/ e = AccountSelectionError id AccountUnavailableCredentialUnavailable
      end
  end.
Proof.
  unfold SelectByIDEligible, availability, unavailable, fail. intros Hr Hget.
  destruct (id <=? 0) eqn:Hid; [by simplify_eq|]. breflect. specialize (Hget ltac:(lia)).
  unfold mbind, M_bind, wrap_err in Hr.
  destruct (repo_GetByID id st) as [[a|e] s1] eqn:G; cbn [fst] in Hget.
  - destruct (repo_get_ok _ _ _ _ G) as [-> Ha]. rewrite Ha.
    pose proof (repo_id _ _ _ Ha) as Hida.
    destruct (String.eqb_spec (Status a) AccountStatusActive) as [E|E].
    + rewrite E. simpl. destruct (eligible_of eligible a); simpl in Hr; [|by simplify_eq].
      destruct r as [[[a' tok] fb]|e]; [by apply prepareToken_token in Hr|].
      apply prepareToken_err in Hr. by rewrite Hida in Hr.
    + destruct (String.eqb _ _); [by simplify_eq|]. destruct (String.eqb _ _); by simplify_eq.
  - destruct Hget as [[= ->]|[a [=]]]. destruct (repo_get_err _ _ _ _ G) as [-> Hnone].
    rewrite Hnone by done. rewrite errors_Is_Sentinel in Hr. by simplify_eq.
Qed.

(** Every account a prepared list holds is active, eligible and has a
    credential. *)
Lemma prepare_all_ok eligible active st ps st' :
  prepare_all s eligible active st = (Ok ps, st') ->
  Forall (fun p => 0 < bytes_len (pa_Token p)) ps
  /\ List.length ps = List.length (candidates eligible active).
Proof.
  revert st ps. induction active as [|a l IH]; intros st ps; [intros [= <- <-]; by split|].
  cbn [prepare_all]. unfold candidates. cbn [List.filter].
  destruct (eligible_of eligible a); cbn [negb]; [|apply IH].
  unfold mbind, M_bind.
  destruct (prepareToken s a st) as [[[[a' tok] fb]|e] s1] eqn:Hp; intros E; [|done].
  destruct (prepare_all s eligible l s1) as [[qs|e] s2] eqn:Hq; [|done].
  injection E as <- <-. destruct (IH _ _ Hq) as [Hf Hn]. split.
  - constructor; [by apply prepareToken_token in Hp | done].
  - simpl. by rewrite Hn.
Qed.

End Correctness.
