(* ===== verification/AccountService.v ===== *)
(** * AccountService: the account lifecycle (internal/core/account_service.go)

    The service validates its input and drives the repository through the
    [AccountRepository] interface.  Between the read of an account and the
    status update that follows it, other sessions may run ([interleave]).
    Logging and the asynchronous model refresh that [Create] triggers are not
    part of the result and are left out. *)

From S2P Require Import Prelude GoLib Errors Account Engine Store Selector.

Definition name_error : error :=
  ValidationError "name" "account name must be 1-64 characters (after trimming) and free of control characters".

Module AccountService.
Section Ops.
Context {S : Type} `{AccountRepository S} `{!Others S}.

(** The text of an unknown-capability error goes into the message; [%q] is
    not rendered. *)
Definition capabilities_error (caps : list string) : option error :=
  match ValidateCapabilities caps with
  | Some _ => Some (ValidationError "capabilities" "unknown capability")
  | None => None
  end.

(** The checks of [Create], in order; [None] when all pass. *)
Definition create_check (name provider apiKey : string) (baseURL : option string)
    (capabilities : slice string) : option error :=
  if negb (ValidAccountName (TrimSpace name)) then Some name_error
  else if String.eqb apiKey "" then Some (ValidationError "api_key" "api_key is required")
  else
    let provider := if String.eqb provider "" then ProviderOpenAI else provider in
    if negb (String.eqb provider ProviderOpenAI) then
      Some (ValidationError "provider"
              ("unsupported provider: " +:+ provider +:+ " (MVP supports openai only)"))
    else
      let base_error := match baseURL with
                        | Some u => if String.eqb u "" then None else ValidateBaseURL u
                        | None => None
                        end in
      match base_error with
      | Some e => Some e
      | None => capabilities_error (slice_list capabilities)
      end.

Definition new_account (name provider apiKey : string) (baseURL : option string)
    (capabilities : slice string) : UpstreamAccount :=
  zero_account <| Name := TrimSpace name |>
    <| Provider := if String.eqb provider "" then ProviderOpenAI else provider |>
    <| APIKey := apiKey |> <| BaseURL := baseURL |> <| Status := AccountStatusActive |>
    <| Capabilities := capabilities |>.

Definition Create (name provider apiKey : string) (baseURL : option string)
    (capabilities : slice string) : M S UpstreamAccount :=
  match create_check name provider apiKey baseURL capabilities with
  | Some e => fail e
  | None =>
      wrap_err (Wrapf "create account: %w" [])
        (repo_Create (new_account name provider apiKey baseURL capabilities))
  end.

Definition Enable (id : Z) : M S unit :=
  acct ← repo_GetByID id;
  if String.eqb (Status acct) AccountStatusDeleted then fail (Sentinel ErrAccountDeleted)
  else if String.eqb (Status acct) AccountStatusActive then mret tt
  else if negb (String.eqb (Status acct) AccountStatusDisabled) then
    fail (Wrapf "%w: cannot enable from %q" [FStr (Status acct)] (Sentinel ErrInvalidTransition))
  else
    interleave 0;;
    wrap_err (Wrapf "enable account %d: %w" [FInt id]) (repo_UpdateStatus id AccountStatusActive).

Definition Disable (id : Z) : M S unit :=
  acct ← repo_GetByID id;
  if String.eqb (Status acct) AccountStatusDeleted then fail (Sentinel ErrAccountDeleted)
  else if String.eqb (Status acct) AccountStatusDisabled then mret tt
  else
    interleave 0;;
    wrap_err (Wrapf "disable account %d: %w" [FInt id]) (repo_UpdateStatus id AccountStatusDisabled).

Definition Delete (id : Z) : M S unit :=
  acct ← repo_GetByID id;
  if String.eqb (Status acct) AccountStatusDeleted then mret tt
  else
    interleave 0;;
    wrap_err (Wrapf "delete account %d: %w" [FInt id]) (repo_UpdateStatus id AccountStatusDeleted).

Definition GetByID (id : Z) : M S UpstreamAccount := repo_GetByID id.
Definition List (statusFilter : list string) : M S (list UpstreamAccount) := repo_List statusFilter.

(** The patch as the repository receives it: trimmed name and key, a blank
    key meaning "keep". *)
Definition normalise_patch (p : AccountDetailsPatch) : result error AccountDetailsPatch :=
  name ← match dp_Name p with
         | None => Ok None
         | Some n => if ValidAccountName (TrimSpace n) then Ok (Some (TrimSpace n)) else Err name_error
         end;
  key ← match dp_APIKey p with
        | None => Ok None
        | Some k =>
            let trimmed := TrimSpace k in
            if String.eqb trimmed "" then Ok None
            else if negb (ValidUpstreamAPIKey trimmed) then
              Err (ValidationError "api_key" "api_key must be 1..256 characters")
            else Ok (Some trimmed)
        end;
  _ ← match dp_BaseURL p with
      | None => Ok tt
      | Some u => if String.eqb u "" then Ok tt
                  else match ValidateBaseURL u with Some e => Err e | None => Ok tt end
      end;
  _ ← match dp_Capabilities p with
      | None => Ok tt
      | Some caps => match capabilities_error caps with Some e => Err e | None => Ok tt end
      end;
  Ok (mkAccountDetailsPatch name key (dp_BaseURL p) (dp_Capabilities p)).

Definition UpdateDetails (id : Z) (patch : AccountDetailsPatch) : M S UpstreamAccount :=
  match normalise_patch patch with
  | Err e => fail e
  | Ok patch =>
      wrap_err (Wrapf "update account details: %w" []) (repo_UpdateDetails id patch)
  end.

(** ** The lifecycle calls as one operation *)

Inductive lifecycle_op := OpEnable | OpDisable | OpDelete.

Definition run_lifecycle (op : lifecycle_op) (id : Z) : M S unit :=
  match op with OpEnable => Enable id | OpDisable => Disable id | OpDelete => Delete id end.

End Ops.
End AccountService.
Import AccountService.

(** ** Specification: the account state machine *)

(** The status an operation leaves behind, or the sentinel it fails with. *)
Definition lifecycle (op : lifecycle_op) (st : string) : result sentinel string :=
  match op with
  | OpEnable =>
      if String.eqb st AccountStatusActive || String.eqb st AccountStatusDisabled
      then Ok AccountStatusActive
      else if String.eqb st AccountStatusDeleted then Err ErrAccountDeleted
      else Err ErrInvalidTransition
  | OpDisable =>
      if String.eqb st AccountStatusDeleted then Err ErrAccountDeleted else Ok AccountStatusDisabled
  | OpDelete => Ok AccountStatusDeleted
  end.

Section Lifecycle.
Context {S : Type} `{AccountRepositoryLaws S} `{!Others S}.

(** Nobody else changes a status meanwhile, and no statement fails. *)
Definition undisturbed : Prop :=
  (forall i s, repo_rows (others i s) = repo_rows (S := S) s)
  /\ (forall id (s : S) a, repo_rows s !! id = Some a -> fst (repo_GetByID id s) = Ok a)
  /\ (forall id (s : S) a st, repo_rows s !! id = Some a -> fst (repo_UpdateStatus id st s) = Ok tt).

Definition status_of (s : S) (id : Z) : option string := Status <$> repo_rows s !! id.

(** One read followed by one status update. *)
Lemma update_after (id : Z) w st s r s' a :
  undisturbed -> repo_rows s !! id = Some a ->
  (interleave 0;; wrap_err w (repo_UpdateStatus id st)) s = (r, s') ->
  r = Ok tt /\ status_of s' id = Some st
  /\ forall k, k <> id -> repo_rows s' !! k = repo_rows s !! k.
Proof.
  intros (Hq & _ & Hu) Ha. unfold mbind, M_bind, interleave, wrap_err.
  specialize (Hu id (others 0 s) a st). rewrite Hq in Hu. specialize (Hu Ha).
  destruct (repo_UpdateStatus id st (others 0 s)) as [[[]|e] s1] eqn:E; [|done].
  intros [= <- <-]. destruct (repo_status_ok _ _ _ _ E) as ((x & y & _ & Hy & Hst) & Hrest).
  unfold status_of. rewrite Hy. simpl. rewrite Hst. split; [done|]. split; [done|].
  intros k Hk. by rewrite Hrest, Hq.
Qed.

Lemma run_lifecycle_spec op id s r s' a :
  undisturbed -> repo_rows s !! id = Some a -> run_lifecycle op id s = (r, s') ->
  match lifecycle op (Status a) with
  | Ok st => r = Ok tt /\ status_of s' id = Some st
  | Err e => (exists err, r = Err err /\ errors_Is err e = true) /\ s' = s
  end /\ forall k, k <> id -> repo_rows s' !! k = repo_rows s !! k.
Proof.
  intros Hu Ha Hr.
  assert (status_of s id = Some (Status a)) as Hst by (unfold status_of; by rewrite Ha).
  destruct op; cbn [run_lifecycle lifecycle] in *; unfold Enable, Disable, Delete in Hr;
    unfold mbind at 1, M_bind at 1 in Hr;
    (destruct (repo_GetByID id s) as [[b|e] s1] eqn:G;
      [|pose proof (proj1 (proj2 Hu) _ _ _ Ha) as Hg; by rewrite G in Hg]);
    destruct (repo_get_ok _ _ _ _ G) as [-> Hb]; rewrite Ha in Hb; injection Hb as <-.
  - destruct (String.eqb_spec (Status a) AccountStatusDeleted) as [E|_].
    { rewrite E. unfold fail in Hr. simplify_eq. split; [|done]. split; [by eexists|done]. }
    destruct (String.eqb_spec (Status a) AccountStatusActive) as [E|_].
    { unfold mret, M_ret in Hr. simplify_eq. cbn [orb]. rewrite Hst, E. done. }
    destruct (String.eqb (Status a) AccountStatusDisabled); cbn [negb orb] in *.
    + destruct (update_after _ _ _ _ _ _ _ Hu Ha Hr) as (? & ? & ?). done.
    + unfold fail in Hr. simplify_eq. split; [|done]. split; [by eexists|done].
  - destruct (String.eqb_spec (Status a) AccountStatusDeleted) as [E|_].
    { unfold fail in Hr. simplify_eq. split; [|done]. split; [by eexists|done]. }
    destruct (String.eqb_spec (Status a) AccountStatusDisabled) as [E|_].
    { unfold mret, M_ret in Hr. simplify_eq. rewrite Hst, E. done. }
    destruct (update_after _ _ _ _ _ _ _ Hu Ha Hr) as (? & ? & ?). done.
  - destruct (String.eqb_spec (Status a) AccountStatusDeleted) as [E|_].
    { unfold mret, M_ret in Hr. simplify_eq. rewrite Hst, E. done. }
    destruct (update_after _ _ _ _ _ _ _ Hu Ha Hr) as (? & ? & ?). done.
Qed.

(** C15: The account lifecycle is the state machine [lifecycle]: when no
    other session interferes, [Enable], [Disable] and [Delete] on an existing
    account have exactly its outcome - the new status, or an error carrying
    the sentinel and no write - touch no other account, and a sequence of them
    never brings a deleted account back. *)
Theorem lifecycle_refines op id s r s' a :
  undisturbed -> repo_rows s !! id = Some a -> run_lifecycle op id s = (r, s') ->
  (match lifecycle op (Status a) with
   | Ok st => r = Ok tt /\ status_of s' id = Some st
   | Err e => (exists err, r = Err err /\ errors_Is err e = true) /\ s' = s
   end)
  /\ (forall k, k <> id -> repo_rows s' !! k = repo_rows s !! k)
  /\ (forall ops, Status a = AccountStatusDeleted ->
        status_of (foldl (fun s '(op, k) => snd (run_lifecycle op k s)) s ops) id
        = Some AccountStatusDeleted).
Proof.
  intros Hu Ha Hr. destruct (run_lifecycle_spec _ _ _ _ _ _ Hu Ha Hr) as [H1 H2].
  split; [done|]. split; [done|]. clear r s' op Hr H1 H2. intros ops Hdel.
  assert (status_of s id = Some AccountStatusDeleted) as Hs
    by (unfold status_of; rewrite Ha; simpl; by rewrite Hdel).
  clear a Ha Hdel. revert s Hs. induction ops as [|[op k] ops IH]; intros s Hs; [done|].
  simpl. apply IH. destruct (run_lifecycle op k s) as [r s'] eqn:Hr. simpl.
  destruct (repo_rows s !! k) as [b|] eqn:Hb.
  - destruct (run_lifecycle_spec _ _ _ _ _ _ Hu Hb Hr) as [Hsp Hrest].
    destruct (decide (k = id)) as [->|Hk]; [|unfold status_of in *; by rewrite Hrest by done].
    unfold status_of in Hs. rewrite Hb in Hs. simpl in Hs. injection Hs as Hbd. rewrite Hbd in Hsp.
    destruct op; cbn in Hsp; [destruct Hsp as [_ ->]; unfold status_of; rewrite Hb; simpl; by rewrite Hbd| |by destruct Hsp].
    destruct Hsp as [_ ->]. unfold status_of. rewrite Hb. simpl. by rewrite Hbd.
  - assert (s' = s) as ->; [|done].
    destruct op; cbn [run_lifecycle] in Hr; unfold Enable, Disable, Delete in Hr;
      unfold mbind at 1, M_bind at 1 in Hr;
      (destruct (repo_GetByID k s) as [[b|e] s1] eqn:G;
        [destruct (repo_get_ok _ _ _ _ G); congruence
        |destruct (repo_get_err _ _ _ _ G) as [-> _]; by injection Hr]).
Qed.

Lemma capabilities_error_none caps :
  capabilities_error caps = None <-> Forall (fun c => c ∈ capabilityGovernedPrefixes) caps.
Proof.
  unfold capabilities_error. rewrite <- ValidateCapabilities_ok. by destruct (ValidateCapabilities caps).
Qed.

(** Creating an account through the service: a rejected input is a
    [ValidationError] and writes nothing; on success the trimmed name is
    valid, the provider is supported, and exactly one new row exists, which
    satisfies the credential-shape invariant, is active, and carries the name,
    key, base URL and capabilities that were asked for. *)
Theorem create_account name provider key url caps s r s' :
  Create name provider key url caps s = (r, s') ->
  match create_check name provider key url caps with
  | Some e => r = Err e /\ s' = s /\ IsValidationError e = true
  | None =>
      ValidAccountName (TrimSpace name) = true /\ key <> ""
      /\ (provider = "" \/ provider = ProviderOpenAI)
      /\ forall acct, r = Ok acct ->
           repo_rows s !! ID acct = None
           /\ (exists row, repo_rows s' !! ID acct = Some row
                 /\ Validate (Some row) = None /\ Name row = TrimSpace name /\ APIKey row = key
                 /\ BaseURL row = url /\ Status row = AccountStatusActive /\ Capabilities row = caps)
           /\ (forall k, k <> ID acct -> repo_rows s' !! k = repo_rows s !! k)
  end.
Proof.
  unfold Create. destruct (create_check name provider key url caps) as [e|] eqn:Hc.
  - unfold fail. intros [= <- <-]. split; [done|]. split; [done|]. unfold create_check, capabilities_error in Hc.
    repeat case_match; simplify_eq; try done.
    all: match goal with Hv : ValidateBaseURL _ = Some _ |- _ =>
           apply ValidateBaseURL_error in Hv as [m ->]; done end.
  - unfold create_check in Hc.
    destruct (ValidAccountName (TrimSpace name)); [|done]. simpl in Hc.
    destruct (String.eqb_spec key "") as [|Hk]; [done|].
    intros Hr. split; [done|]. split; [done|]. split.
    + destruct (String.eqb_spec provider ""); [by left|]. right.
      by destruct (String.eqb_spec provider ProviderOpenAI).
    + intros acct ->. unfold wrap_err in Hr.
      destruct (repo_Create _ s) as [[x|e] s1] eqn:E; [|done]. injection Hr as -> ->.
      exact (repo_create_ok _ _ _ _ E).
Qed.

End Lifecycle.
