(* ===== verification/OAuthFlow.v ===== *)
(** * OAuthFlow: the record of one OAuth flow and its snapshots
      (internal/oauth/flow.go, status.go, parts of coordinator.go)

    The data of a flow, the projection handed to pollers, its validation, and
    the pure helpers of the coordinator: failure details, poll intervals, the
    account built from a token bundle. *)

From S2P Require Import Prelude GoLib Errors Account.

(** ** Constants *)

Definition FlowBrowser := "browser".
Definition FlowDevice := "device".
Definition RailUnknown := "".
Definition RailLoopback := "loopback".
Definition RailManualPaste := "manual_paste".
Definition FlowStatusIdle := "idle".
Definition FlowStatusPending := "pending".
Definition FlowStatusSuccess := "success".
Definition FlowStatusError := "error".

Definition browserFlowTTL : duration := 5 * Minute.
Definition defaultDevicePollInterval : duration := 5 * Second.
Definition maxDevicePollInterval : duration := 60 * Second.

(** ** Data *)

Record FlowTerminalError := mkFlowTerminalError { te_Code : string; te_Message : string }.

#[export] Instance FlowTerminalError_eq_dec : EqDecision FlowTerminalError.
Proof. solve_decision. Defined.

Record Claims := mkClaims {
  cl_Email : string; cl_PlanType : string; cl_ChatGPTAccountID : string; cl_ExpiresAt : option time }.

Record Tokens := mkTokens {
  t_AccessToken : option string; t_RefreshToken : option string; t_IDToken : option string;
  t_ExpiresIn : duration; t_LastRefresh : time }.

Record DeviceCode := mkDeviceCode {
  dc_DeviceAuthID : string; dc_UserCode : string; dc_VerificationURL : string;
  dc_Interval : duration; dc_ExpiresIn : duration }.

(** The fields of [Flow] that the flow's behaviour depends on: the atomic
    [Consumed], the fields guarded by [mu], and the immutable ones. *)
Record Flow := mkFlow {
  f_ID : string; f_Method : string; f_State : string; f_CodeVerifier : string;
  f_DeviceAuthID : string; f_UserCode : string; f_VerificationURL : string;
  f_ExpiresAt : time; f_CreatedAt : time; f_ListenerBound : bool;
  Consumed : bool; ConsumedBy : string; f_Status : string;
  terminalAccount : option UpstreamAccount; terminalError : option FlowTerminalError;
  terminalReported : bool }.

#[export] Instance eta_Flow : Eta Flow := fun f =>
  mkFlow (f_ID f) (f_Method f) (f_State f) (f_CodeVerifier f) (f_DeviceAuthID f) (f_UserCode f)
    (f_VerificationURL f) (f_ExpiresAt f) (f_CreatedAt f) (f_ListenerBound f) (Consumed f)
    (ConsumedBy f) (f_Status f) (terminalAccount f) (terminalError f) (terminalReported f).

Record FlowSnapshot := mkFlowSnapshot {
  s_Status : string; s_Method : string; s_FlowID : string; s_ListenerBound : bool;
  s_ExpiresAt : time; s_CreatedAt : time; s_UserCode : string; s_VerificationURL : string;
  s_Rail : string; s_Account : option UpstreamAccount; s_Error : option FlowTerminalError }.

(** ** Snapshots *)

Definition idleFlowSnapshot : FlowSnapshot :=
  mkFlowSnapshot FlowStatusIdle "" "" false zero_time zero_time "" "" "" None None.

(** The copy keeps no secret; the other pointers are duplicated, which a pure
    value does not show. *)
Definition cloneAccountForFlowSnapshot (src : option UpstreamAccount) : option UpstreamAccount :=
  (fun a => a <| APIKey := "" |> <| AccessToken := None |> <| RefreshToken := None |>
              <| IDToken := None |>) <$> src.

Definition snapshotLocked (f : Flow) : FlowSnapshot :=
  mkFlowSnapshot (f_Status f) (f_Method f) (f_ID f) (f_ListenerBound f) (f_ExpiresAt f)
    (f_CreatedAt f) (f_UserCode f) (f_VerificationURL f) (ConsumedBy f)
    (cloneAccountForFlowSnapshot (terminalAccount f)) (terminalError f).

Definition errorsForSnapshot (msg : string) : option error :=
  Some (Errorf "oauth.GetFlow: %s" [FStr msg]).

Definition FlowSnapshot_Validate (s : FlowSnapshot) : option error :=
  let status x := String.eqb (s_Status s) x in
  let method x := String.eqb (s_Method s) x in
  if status FlowStatusIdle then None
  else if status FlowStatusPending then
    if String.eqb (s_FlowID s) "" then errorsForSnapshot "pending flow_id is empty"
    else if IsZero (s_CreatedAt s) then errorsForSnapshot "pending created_at is zero"
    else if IsZero (s_ExpiresAt s) then errorsForSnapshot "pending expires_at is zero"
    else if method FlowBrowser then None
    else if method FlowDevice then
      if String.eqb (s_UserCode s) "" then errorsForSnapshot "pending device user_code is empty"
      else if String.eqb (s_VerificationURL s) "" then
        errorsForSnapshot "pending device verification_url is empty"
      else None
    else errorsForSnapshot "pending method is unsupported"
  else if status FlowStatusSuccess then
    if String.eqb (s_FlowID s) "" then errorsForSnapshot "success flow_id is empty"
    else if negb (isSome (s_Account s)) then errorsForSnapshot "success account is nil"
    else if method FlowBrowser then
      if String.eqb (s_Rail s) RailUnknown then errorsForSnapshot "browser success rail is empty" else None
    else if method FlowDevice then None
    else errorsForSnapshot "success method is unsupported"
  else if status FlowStatusError then
    if String.eqb (s_FlowID s) "" then errorsForSnapshot "error flow_id is empty"
    else match s_Error s with
    | None => errorsForSnapshot "error payload is nil"
    | Some e =>
        if String.eqb (te_Code e) "" then errorsForSnapshot "error code is empty"
        else if String.eqb (te_Message e) "" then errorsForSnapshot "error message is empty"
        else if method FlowBrowser || method FlowDevice then None
        else errorsForSnapshot "error method is unsupported"
    end
  else errorsForSnapshot "unknown status".

Definition is_terminal (st : string) : bool :=
  String.eqb st FlowStatusSuccess || String.eqb st FlowStatusError.

(** A result of [GetFlow] or of one of its parts. *)
Definition snap_result : Type := result error FlowSnapshot.

Definition validated (s : FlowSnapshot) : snap_result :=
  match FlowSnapshot_Validate s with None => Ok s | Some e => Err e end.

(** [snapshotTerminalFlowForPoll], under the flow's lock: a terminal snapshot
    is handed out once. *)
Definition snapshotTerminalFlowForPoll (f : Flow) : snap_result * Flow :=
  if negb (is_terminal (f_Status f)) then (validated (snapshotLocked f), f)
  else if terminalReported f then (Ok idleFlowSnapshot, f)
  else match FlowSnapshot_Validate (snapshotLocked f) with
  | Some e => (Err e, f)
  | None => (Ok (snapshotLocked f), f <| terminalReported := true |>)
  end.

(** ** Terminal errors *)

Definition browserExpiredFlowError := mkFlowTerminalError "flow_expired" "Authentication expired".
Definition deviceExpiredFlowError := mkFlowTerminalError "expired_token" "Device code expired".
Definition accessDeniedFlowError := mkFlowTerminalError "access_denied" "User denied consent".
Definition cancelledFlowError := mkFlowTerminalError "cancelled" "Authentication cancelled".

Definition expiredFlowError (f : Flow) : FlowTerminalError :=
  if String.eqb (f_Method f) FlowDevice then deviceExpiredFlowError else browserExpiredFlowError.

Section Details.
(** [error.Error()], which is not modelled. *)
Variable error_text : error -> string.

Definition oauthFailureDetails (err : error) : string * string :=
  match as_TokenExchangeError err with
  | Some (code, message, _) => (code, message)
  | None =>
      match as_StoreError err with
      | Some (op, c) => ("oauth_store_failed", error_text (StoreError op c))
      | None => ("oauth_internal_error", error_text err)
      end
  end.
End Details.

(** ** Polling a device code *)

Definition isTransientDevicePollTransport (e : string * string * Z) : bool :=
  let '(code, _, status) := e in
  if String.eqb code "http_403" then status =? 403
  else if String.eqb code "http_404" then status =? 404
  else false.

Definition nextDevicePollInterval (current : duration) (err : error) : duration * bool :=
  match as_TokenExchangeError err with
  | None => (current, false)
  | Some e =>
      let code := fst (fst e) in
      if String.eqb code "authorization_pending" then (current, true)
      else if String.eqb code "slow_down" then
        let next := wrap64 (current * 2) in
        let next := if next <=? 0 then current else next in
        let next := if next <? defaultDevicePollInterval then defaultDevicePollInterval else next in
        let next := if maxDevicePollInterval <? next then maxDevicePollInterval else next in
        (next, true)
      else if isTransientDevicePollTransport e then (current, true)
      else (current, false)
  end.

(** ** From a token bundle to an account *)

Definition stringPointer (value : string) : option string :=
  if String.eqb value "" then None else Some value.

Definition cloneBytes (src : option string) : option string :=
  match src with
  | Some s => if lenZ s =? 0 then None else Some s
  | None => None
  end.

Definition deriveOAuthAccountName (c : Claims) : option string :=
  if negb (String.eqb (cl_Email c) "") then Some (cl_Email c)
  else if negb (String.eqb (cl_ChatGPTAccountID c) "") then Some (cl_ChatGPTAccountID c)
  else None.

Definition invalid_response (message : string) : error :=
  TokenExchangeError "invalid_response" message 0 None.

(** The account [persistConsumedFlow] inserts, or the error before the
    insert. *)
Definition consumed_account (f : Flow) (tokens : Tokens) (claims : Claims) : result error UpstreamAccount :=
  if IsZero (t_LastRefresh tokens) then Err (invalid_response "missing last_refresh")
  else
    match deriveOAuthAccountName claims with
    | None => Err (invalid_response "missing email and chatgpt_account_id")
    | Some name =>
        let lastRefresh := UTC (t_LastRefresh tokens) in
        Ok (zero_account <| Name := name |> <| Provider := ProviderOpenAI |>
              <| BaseURL := Some (default "" (ProviderDefaultURLs ProviderOpenAI)) |>
              <| Status := AccountStatusActive |>
              <| AuthMethod := if String.eqb (f_Method f) FlowDevice then AuthMethodOAuthDevice
                               else AuthMethodOAuthBrowser |>
              <| AccessToken := cloneBytes (t_AccessToken tokens) |>
              <| RefreshToken := cloneBytes (t_RefreshToken tokens) |>
              <| IDToken := cloneBytes (t_IDToken tokens) |>
              <| LastRefresh := Some lastRefresh |>
              <| AccessExpiresAt := Some (Add lastRefresh (t_ExpiresIn tokens)) |>
              <| Email := stringPointer (cl_Email claims) |>
              <| PlanType := stringPointer (cl_PlanType claims) |>
              <| ChatGPTAccountID := stringPointer (cl_ChatGPTAccountID claims) |>)
    end.

(** ** Lemmas *)

Lemma cloned_no_secret a b :
  cloneAccountForFlowSnapshot (Some a) = Some b ->
  APIKey b = "" /\ AccessToken b = None /\ RefreshToken b = None /\ IDToken b = None.
Proof. intros [= <-]. done. Qed.

(** Polling never stops being polite: the next interval stays within the
    bounds once it is there, and doubling cannot overflow. *)
Lemma nextDevicePollInterval_bounds current err next :
  defaultDevicePollInterval <= current <= maxDevicePollInterval ->
  nextDevicePollInterval current err = (next, true) ->
  current <= next <= maxDevicePollInterval.
Proof.
  unfold nextDevicePollInterval, defaultDevicePollInterval, maxDevicePollInterval, Second.
  intros Hc. rewrite wrap64_id by (unfold int64_ok, MinInt64, MaxInt64; lia).
  repeat case_match; intros; simplify_eq; breflect; lia.
Qed.

Lemma is_terminal_cases st :
  is_terminal st = true <-> st = FlowStatusSuccess \/ st = FlowStatusError.
Proof. unfold is_terminal. by rewrite orb_true_iff, !String.eqb_eq. Qed.
