(* ===== verification/OAuthCoordinator.v ===== *)
(** * OAuthCoordinator: the flow coordinator as a thread pool
      (internal/oauth/coordinator.go)

    Every entry point of the coordinator (starting a flow, consuming a code on
    a rail, cancelling, the expiry timer, a device poll, a status poll,
    shutdown) is a thread.  A thread is a program counter; [run] executes one
    atomic action: one operation on an atomic variable, one critical section
    of [flow.mu] or of [releasedMu], or one call to the provider or the store.
    A step of the system picks any thread and any answers of the environment,
    so a theorem about reachable states holds for every interleaving.  The
    critical section of [ConsumeCode] that contains the compare-and-swap is
    one action: the readers it could race with take the same lock.  Timers are
    over-approximated: the environment may fire them at any moment.  Logging,
    HTTP serving and the asynchronous model refresh are left out. *)

From S2P Require Import Prelude GoLib Errors Account OAuthFlow.

(** ** Shared state

    [flows] is the heap of flow records, by their (unique) id; [persisted] and
    [reports] are histories: the flows for which an account was inserted, and
    the flows whose terminal snapshot was handed out and marked. *)

Record shared := mkShared {
  flowPtr : option string; closed : bool;
  releasedFlows : gset string; latestReleasedFlowID : string;
  flows : gmap string Flow;
  persisted : list string; reports : list string }.

#[export] Instance eta_shared : Eta shared := fun s =>
  mkShared (flowPtr s) (closed s) (releasedFlows s) (latestReleasedFlowID s) (flows s)
    (persisted s) (reports s).

Definition init_shared : shared := mkShared None false ∅ "" ∅ [] [].

Definition upd (id : string) (g : Flow -> Flow) (s : shared) : shared :=
  s <| flows := alter g id (flows s) |>.

(** ** Threads *)

(** What [lookupFlow] is called for. *)
Inductive lookup_op :=
  | OpConsume (code state rail : string)
  | OpCancelRail (rail : string).

Definition op_rail (op : lookup_op) : string :=
  match op with OpConsume _ _ r => r | OpCancelRail r => r end.

Inductive outcome :=
  | ODone
  | OErr (e : error)
  | OAccount (a : UpstreamAccount)
  | OSnap (r : snap_result).

Inductive pc :=
  (* StartBrowser / StartDevice, TryStartFlow *)
  | PStart (f : Flow) | PTryStart (f : Flow) | PTryLoad (f : Flow) | PCleanup
  (* ConsumeCode, cancelFromRail *)
  | PConsume (id : string) (op : lookup_op)
  | PLookup (id : string) (op : lookup_op)
  | PLookupPtr (id : string) (op : lookup_op)
  | PLookupReleased (id : string) (op : lookup_op)
  | PEnter (id : string) (op : lookup_op)
  | PClassify (id : string)
  | PReject (id : string) (attempt : nat)
  | PRejectStatus (id : string)
  | PExpiry (id : string) (op : lookup_op)
  | PLock (id : string) (op : lookup_op)
  | PExchange (id code : string)
  | PPersist (id : string) (acct : UpstreamAccount)
  | PSucceed (id : string) (acct : UpstreamAccount)
  | PFail (id : string) (e : error)
  (* ReleaseFlow, then the continuation *)
  | PRelease (id : string) (k : pc)
  | PReleaseClosed (id : string) (k : pc)
  | PReleaseStore (id : string) (k : pc)
  | PReleaseCAS (id : string) (k : pc)
  (* cancel *)
  | PCancel (id : string) (wait : bool) | PCancelCAS (id : string) (wait : bool)
  | PCancelWrite (id : string) | PAwait (id : string)
  (* the expiry reaper *)
  | PReap (id : string) | PReapCAS (id : string) | PReapWrite (id : string)
  (* one device poll *)
  | PPoll (id : string) | PPollCall (id : string)
  | PDevCAS (id : string) (t : Tokens) | PDevSuccess (id : string) (t : Tokens)
  | PDevFail (id : string) (e : error) | PDevFailCAS (id : string) (e : error)
  | PDevFailWrite (id : string) (e : error)
  (* GetFlow *)
  | PGetFlow | PGetLatest | PSnapCurrent (id : string) | PSnapPending (id : string)
  | PSnapTerminal (id : string)
  (* Shutdown, and the asynchronous end of the loopback listener *)
  | PShutdown | PShutdownLoad | PShutdownClear
  | PListenerDown (id : string)
  | PDone (o : outcome).

(** The answers of the environment to one action: the clock, the identity
    provider, the claims of the id token ([ExtractClaims]), the account store,
    and the end of the request context. *)
Record env := mkEnv {
  e_now : time;
  e_exchange : string -> string -> result error Tokens;
  e_poll : string -> string -> result error Tokens;
  e_claims : option string -> result error Claims;
  e_insert : UpstreamAccount -> result error Z;
  e_text : error -> string;
  e_ctx_done : bool }.

Definition flowInProgress (current : string) : error :=
  Wrapf "oauth flow already in progress: flow_id=%s" [FStr current] (Sentinel ErrFlowInProgress).

Definition set_error (te : FlowTerminalError) (f : Flow) : Flow :=
  f <| f_Status := FlowStatusError |> <| terminalError := Some te |>.

Definition set_success (a : UpstreamAccount) (f : Flow) : Flow :=
  f <| f_Status := FlowStatusSuccess |> <| terminalAccount := cloneAccountForFlowSnapshot (Some a) |>.

Definition fail_details (e : env) (err : error) : FlowTerminalError :=
  let d := oauthFailureDetails (e_text e) err in mkFlowTerminalError (fst d) (snd d).

(** [finishDeviceFailure]: the terminal error by exchange code. *)
Definition device_failure (e : env) (err : error) : FlowTerminalError :=
  match as_TokenExchangeError err with
  | Some (code, _, _) =>
      if String.eqb code "access_denied" then accessDeniedFlowError
      else if String.eqb code "expired_token" then deviceExpiredFlowError
      else fail_details e err
  | None => fail_details e err
  end.

(** Tokens to account, before the insert. *)
Definition account_of (e : env) (f : Flow) (t : Tokens) : result error UpstreamAccount :=
  match e_claims e (t_IDToken t) with
  | Err err => Err (invalid_response (e_text e err))
  | Ok claims => consumed_account f t claims
  end.

Definition winner_not_published : error :=
  Errorf "oauth.ConsumeCode: consumed flow winner rail not published" [].

(** ** One action of a thread, entry point by entry point *)

(** [ConsumeCode] from the flow it found: the load of [Consumed], the expiry
    and state checks, the critical section of the compare-and-swap, the
    exchange with the provider, and the publication of the success (which
    [finishDeviceSuccess] shares). *)
Definition ConsumeCode (e : env) (id : string) (f : Flow) (p : pc) (s : shared) : pc * shared :=
  match p with
  | PEnter _ (OpConsume code state rail) =>
      if Consumed f then
        if negb (String.eqb (f_State f) state) then (PDone (OErr (Sentinel ErrStateMismatch)), s)
        else (PClassify id, s)
      else (PExpiry id (OpConsume code state rail), s)
  | PExpiry _ (OpConsume code state rail) =>
      if After (e_now e) (f_ExpiresAt f) then (PDone (OErr (Sentinel ErrFlowExpired)), s)
      else if negb (String.eqb (f_State f) state) then (PDone (OErr (Sentinel ErrStateMismatch)), s)
      else (PLock id (OpConsume code state rail), s)
  | PLock _ (OpConsume code _ rail) =>
      if Consumed f then (PReject id 0, s)
      else if negb (String.eqb (ConsumedBy f) RailUnknown) then
        (PFail id (Errorf "oauth.ConsumeCode: consumed winner rail already published: %q" [FStr (ConsumedBy f)]),
         upd id (fun f => f <| Consumed := true |>) s)
      else (PExchange id code, upd id (fun f => f <| Consumed := true |> <| ConsumedBy := rail |>) s)
  | PExchange _ code =>
      match e_exchange e code (f_CodeVerifier f) with
      | Err err => (PFail id err, s)
      | Ok t => match account_of e f t with
                | Err err => (PFail id err, s)
                | Ok a => (PPersist id a, s)
                end
      end
  | PSucceed _ a => (PRelease id (PDone (OAccount a)), upd id (set_success a) s)
  | _ => (p, s)
  end.

(** [cancelFromRail], past its check of the provider's error. *)
Definition cancelFromRail (e : env) (id : string) (f : Flow) (p : pc) (s : shared) : pc * shared :=
  match p with
  | PEnter _ (OpCancelRail rail) =>
      if Consumed f then (PClassify id, s) else (PExpiry id (OpCancelRail rail), s)
  | PExpiry _ (OpCancelRail rail) =>
      if After (e_now e) (f_ExpiresAt f) then (PDone (OErr (Sentinel ErrFlowExpired)), s)
      else (PLock id (OpCancelRail rail), s)
  | PLock _ (OpCancelRail rail) =>
      if Consumed f then (PReject id 0, s)
      else if negb (String.eqb (ConsumedBy f) RailUnknown) then
        (PFail id (Errorf "oauth.cancelFromRail: consumed winner rail already published: %q" [FStr (ConsumedBy f)]),
         upd id (fun f => f <| Consumed := true |>) s)
      else
        (PRelease id (PDone ODone),
         upd id (fun f => set_error accessDeniedFlowError
                            (f <| Consumed := true |> <| ConsumedBy := rail |>)) s)
  | _ => (p, s)
  end.

Definition classifyConsumedFlow (e : env) (id : string) (f : Flow) (s : shared) : pc * shared :=
  if negb (String.eqb (ConsumedBy f) RailUnknown) || String.eqb (f_Status f) FlowStatusSuccess
     || negb (After (e_now e) (f_ExpiresAt f))
  then (PReject id 0, s)
  else (PDone (OErr (Sentinel ErrFlowExpired)), s).

(** The two attempts of the loop; both callers of [rejectConsumedRail] answer
    its [nil] with [ErrAlreadyConsumed]. *)
Definition readWinnerRail (id : string) (f : Flow) (attempt : nat) (s : shared) : pc * shared :=
  if negb (String.eqb (ConsumedBy f) RailUnknown) then (PDone (OErr (Sentinel ErrAlreadyConsumed)), s)
  else match attempt with
  | O => (PReject id 1, s)
  | _ => (PRejectStatus id, s)
  end.

Definition rejectConsumedRail (id : string) (f : Flow) (p : pc) (s : shared) : pc * shared :=
  match p with
  | PReject _ attempt => readWinnerRail id f attempt s
  | PRejectStatus _ =>
      if String.eqb (f_Status f) FlowStatusError then (PDone (OErr (Sentinel ErrAlreadyConsumed)), s)
      else (PDone (OErr winner_not_published), s)
  | _ => (p, s)
  end.

(** [persistConsumedFlow] from the insert on. *)
Definition persistConsumedFlow (e : env) (id : string) (a : UpstreamAccount) (s : shared) : pc * shared :=
  match e_insert e a with
  | Err err => (PFail id (StoreError "insert account" err), s)
  | Ok k => (PSucceed id (a <| ID := k |>), s <| persisted := id :: persisted s |>)
  end.

Definition failFlow (e : env) (id : string) (err : error) (s : shared) : pc * shared :=
  (PRelease id (PDone (OErr err)), upd id (set_error (fail_details e err)) s).

(** [cancel] on the flow it found, with [waitForTerminalStatus]. *)
Definition cancel (e : env) (id : string) (f : Flow) (p : pc) (s : shared) : pc * shared :=
  match p with
  | PCancelCAS _ wait =>
      if Consumed f then (if wait then PAwait id else PDone ODone, s)
      else (PCancelWrite id, upd id (fun f => f <| Consumed := true |>) s)
  | PCancelWrite _ => (PRelease id (PDone ODone), upd id (set_error cancelledFlowError) s)
  | PAwait _ =>
      if is_terminal (f_Status f) then (PDone ODone, s)
      else if e_ctx_done e then
        (PDone (OErr (Errorf "oauth.CancelWithContext: flow %q completion did not reach terminal status before context ended" [FStr id])), s)
      else (PAwait id, s)
  | _ => (p, s)
  end.

(** The body of the timer [startExpiryReaper] sets, past its check of
    [closed]. *)
Definition expiry_reaper (id : string) (f : Flow) (p : pc) (s : shared) : pc * shared :=
  match p with
  | PReapCAS _ =>
      if Consumed f then (PDone ODone, s)
      else (PReapWrite id, upd id (fun f => f <| Consumed := true |>) s)
  | PReapWrite _ => (PRelease id (PDone ODone), upd id (set_error (expiredFlowError f)) s)
  | _ => (p, s)
  end.

(** The body of the timer [scheduleDevicePoll] sets. *)
Definition scheduleDevicePoll (e : env) (id : string) (f : Flow) (p : pc) (s : shared) : pc * shared :=
  match p with
  | PPoll _ =>
      if closed s || Consumed f || negb (Before (e_now e) (f_ExpiresAt f)) then (PDone ODone, s)
      else (PPollCall id, s)
  | PPollCall _ =>
      match e_poll e (f_DeviceAuthID f) (f_UserCode f) with
      | Err err => if snd (nextDevicePollInterval defaultDevicePollInterval err)
                   then (PDone ODone, s) else (PDevFail id err, s)
      | Ok t => (PDevCAS id t, s)
      end
  | PDevCAS _ t =>
      if Consumed f then (PDone ODone, s)
      else (PDevSuccess id t, upd id (fun f => f <| Consumed := true |>) s)
  | _ => (p, s)
  end.

Definition finishDeviceSuccess (e : env) (id : string) (f : Flow) (t : Tokens) (s : shared) : pc * shared :=
  if closed s then (PRelease id (PDone ODone), s)
  else match account_of e f t with
       | Err err => (PFail id err, s)
       | Ok a => (PPersist id a, s)
       end.

(** [finishDeviceFailure] past its check of [closed]. *)
Definition finishDeviceFailure (e : env) (id : string) (f : Flow) (p : pc) (s : shared) : pc * shared :=
  match p with
  | PDevFailCAS _ err =>
      if Consumed f then (PDone (OErr err), s)
      else (PDevFailWrite id err, upd id (fun f => f <| Consumed := true |>) s)
  | PDevFailWrite _ err => (PRelease id (PDone (OErr err)), upd id (set_error (device_failure e err)) s)
  | _ => (p, s)
  end.

(** [snapshotCurrentFlow]: two critical sections, the status first. *)
Definition snapshotCurrentFlow (id : string) (f : Flow) (p : pc) (s : shared) : pc * shared :=
  match p with
  | PSnapCurrent _ => if is_terminal (f_Status f) then (PSnapTerminal id, s) else (PSnapPending id, s)
  | PSnapPending _ => (PDone (OSnap (validated (snapshotLocked f))), s)
  | _ => (p, s)
  end.

(** [snapshotTerminalFlowForPoll] on the shared flow, with its history. *)
Definition poll_terminal (id : string) (f : Flow) (s : shared) : pc * shared :=
  let '(r, f') := snapshotTerminalFlowForPoll f in
  (PDone (OSnap r),
   (upd id (fun _ => f') s)
     <| reports := if negb (Bool.eqb (terminalReported f) (terminalReported f')) then id :: reports s
                   else reports s |>).

Definition run_flow (e : env) (id : string) (f : Flow) (p : pc) (s : shared) : pc * shared :=
  match p with
  | PEnter _ op | PExpiry _ op | PLock _ op =>
      match op with
      | OpConsume _ _ _ => ConsumeCode e id f p s
      | OpCancelRail _ => cancelFromRail e id f p s
      end
  | PExchange _ _ | PSucceed _ _ => ConsumeCode e id f p s
  | PClassify _ => classifyConsumedFlow e id f s
  | PReject _ _ | PRejectStatus _ => rejectConsumedRail id f p s
  | PPersist _ a => persistConsumedFlow e id a s
  | PFail _ err => failFlow e id err s
  | PCancelCAS _ _ | PCancelWrite _ | PAwait _ => cancel e id f p s
  | PReapCAS _ | PReapWrite _ => expiry_reaper id f p s
  | PPoll _ | PPollCall _ | PDevCAS _ _ => scheduleDevicePoll e id f p s
  | PDevSuccess _ t => finishDeviceSuccess e id f t s
  | PDevFailCAS _ _ | PDevFailWrite _ _ => finishDeviceFailure e id f p s
  | PSnapCurrent _ | PSnapPending _ => snapshotCurrentFlow id f p s
  | PSnapTerminal _ => poll_terminal id f s
  | PListenerDown _ => (PDone ODone, upd id (fun f => f <| f_ListenerBound := false |>) s)
  | _ => (p, s)
  end.

(** The flow an action dereferences, if any. *)
Definition target (p : pc) : option string :=
  match p with
  | PEnter id _ | PClassify id | PReject id _ | PRejectStatus id | PExpiry id _ | PLock id _
  | PExchange id _ | PPersist id _ | PSucceed id _ | PFail id _ | PCancelCAS id _ | PCancelWrite id
  | PAwait id | PReapCAS id | PReapWrite id | PPoll id | PPollCall id | PDevCAS id _
  | PDevSuccess id _ | PDevFailCAS id _ | PDevFailWrite id _ | PSnapCurrent id | PSnapPending id
  | PSnapTerminal id | PListenerDown id => Some id
  | _ => None
  end.

(** [cleanupReleasedFlowsOnStart]: released flows whose listener is down are
    forgotten. *)
Definition keep_released (s : shared) (id : string) : bool :=
  match flows s !! id with Some f => f_ListenerBound f | None => false end.

Definition cleanup (s : shared) : shared :=
  let kept := filter (fun id => keep_released s id = true) (releasedFlows s) in
  s <| releasedFlows := kept |>
    <| latestReleasedFlowID :=
         if bool_decide (latestReleasedFlowID s ∈ releasedFlows s) && negb (bool_decide (latestReleasedFlowID s ∈ kept))
         then "" else latestReleasedFlowID s |>.

(** The start of [StartBrowser] and [StartDevice], under [startMu]. *)
Definition start_flow (f : Flow) (s : shared) : pc * shared :=
  if closed s then (PDone (OErr (Errorf "coordinator is closed" [])), s)
  else match flowPtr s with
  | Some cur => (PDone (OErr (flowInProgress cur)), s)
  | None => (PTryStart f, s)
  end.

Definition TryStartFlow (p : pc) (s : shared) : pc * shared :=
  match p with
  | PTryStart f =>
      match flowPtr s with
      | None => (PCleanup, s <| flowPtr := Some (f_ID f) |> <| flows := <[f_ID f := f]> (flows s) |>)
      | Some _ => (PTryLoad f, s)
      end
  | PTryLoad f =>
      match flowPtr s with
      | None => (PTryStart f, s)
      | Some cur => (PDone (OErr (flowInProgress cur)), s)
      end
  | PCleanup => (PDone ODone, cleanup s)
  | _ => (p, s)
  end.

Definition lookupFlow (p : pc) (s : shared) : pc * shared :=
  match p with
  | PLookup id op =>
      if closed s then (PDone (OErr (Sentinel ErrFlowNotFound)), s) else (PLookupPtr id op, s)
  | PLookupPtr id op =>
      if bool_decide (flowPtr s = Some id) then (PEnter id op, s) else (PLookupReleased id op, s)
  | PLookupReleased id op =>
      if negb (String.eqb id "") && bool_decide (id ∈ releasedFlows s) then (PEnter id op, s)
      else (PDone (OErr (Sentinel ErrFlowNotFound)), s)
  | _ => (p, s)
  end.

Definition ReleaseFlow (p : pc) (s : shared) : pc * shared :=
  match p with
  | PRelease id k => if bool_decide (flowPtr s = Some id) then (PReleaseClosed id k, s) else (k, s)
  | PReleaseClosed id k => if closed s then (PReleaseCAS id k, s) else (PReleaseStore id k, s)
  | PReleaseStore id k =>
      (PReleaseCAS id k,
       s <| releasedFlows := {[id]} ∪ releasedFlows s |> <| latestReleasedFlowID := id |>)
  | PReleaseCAS id k =>
      (k, if bool_decide (flowPtr s = Some id) then s <| flowPtr := None |> else s)
  | _ => (p, s)
  end.

Definition GetFlow (p : pc) (s : shared) : pc * shared :=
  match p with
  | PGetFlow =>
      match flowPtr s with Some id => (PSnapCurrent id, s) | None => (PGetLatest, s) end
  | PGetLatest =>
      if bool_decide (latestReleasedFlowID s ∈ releasedFlows s) && negb (String.eqb (latestReleasedFlowID s) "")
      then (PSnapTerminal (latestReleasedFlowID s), s)
      else (PDone (OSnap (Ok idleFlowSnapshot)), s)
  | _ => (p, s)
  end.

Definition Shutdown (p : pc) (s : shared) : pc * shared :=
  match p with
  | PShutdown => (PShutdownLoad, s <| closed := true |>)
  | PShutdownLoad =>
      match flowPtr s with Some id => (PRelease id PShutdownClear, s) | None => (PShutdownClear, s) end
  | PShutdownClear =>
      (PDone ODone, s <| releasedFlows := ∅ |> <| latestReleasedFlowID := "" |>)
  | _ => (p, s)
  end.

(** Actions on the coordinator's own variables. *)
Definition run_coord (p : pc) (s : shared) : pc * shared :=
  match p with
  | PStart f => start_flow f s
  | PTryStart _ | PTryLoad _ | PCleanup => TryStartFlow p s
  | PConsume id op =>
      if closed s then (PDone (OErr (Sentinel ErrFlowNotFound)), s) else (PLookup id op, s)
  | PLookup _ _ | PLookupPtr _ _ | PLookupReleased _ _ => lookupFlow p s
  | PRelease _ _ | PReleaseClosed _ _ | PReleaseStore _ _ | PReleaseCAS _ _ => ReleaseFlow p s
  | PCancel id wait =>
      if bool_decide (flowPtr s = Some id) then (PCancelCAS id wait, s)
      else (PDone (OErr (Sentinel ErrFlowNotFound)), s)
  | PReap id => if closed s then (PDone ODone, s) else (PReapCAS id, s)
  | PDevFail id err =>
      if closed s then (PRelease id (PDone (OErr err)), s) else (PDevFailCAS id err, s)
  | PGetFlow | PGetLatest => GetFlow p s
  | PShutdown | PShutdownLoad | PShutdownClear => Shutdown p s
  | _ => (p, s)
  end.

Definition run (e : env) (p : pc) (s : shared) : pc * shared :=
  match target p with
  | Some id =>
      match flows s !! id with
      | Some f => run_flow e id f p s
      | None => (p, s)
      end
  | None => run_coord p s
  end.

(** ** Starting flows *)

Definition browser_flow (id state verifier : string) (now : time) (bound : bool) : Flow :=
  mkFlow id FlowBrowser state verifier "" "" "" (Add now browserFlowTTL) now bound
    false RailUnknown FlowStatusPending None None false.

(** [StartDevice]: the checks on the device code, in order. *)
Definition device_flow (id : string) (dc : DeviceCode) (now : time) : result error Flow :=
  let fail m := Err (Errorf m []) in
  if String.eqb (dc_DeviceAuthID dc) "" then fail "oauth.StartDevice: deviceAuthID is empty"
  else if String.eqb (dc_UserCode dc) "" then fail "oauth.StartDevice: userCode is empty"
  else if dc_Interval dc <? 0 then fail "oauth.StartDevice: interval must be non-negative"
  else if dc_ExpiresIn dc <=? 0 then fail "oauth.StartDevice: expiresIn must be positive"
  else if String.eqb (dc_VerificationURL dc) "" then fail "oauth.StartDevice: verificationURL is empty"
  else Ok (mkFlow id FlowDevice "" "" (dc_DeviceAuthID dc) (dc_UserCode dc) (dc_VerificationURL dc)
             (Add now (dc_ExpiresIn dc)) now false false RailUnknown FlowStatusPending None None false).

(** What a thread may start as, and with which arguments. *)
Definition fresh_flow (f : Flow) : Prop :=
  (exists id state verifier now bound, id <> "" /\ IsZero now = false /\ IsZero (Add now browserFlowTTL) = false
     /\ f = browser_flow id state verifier now bound)
  \/ (exists id dc now, id <> "" /\ IsZero now = false /\ IsZero (Add now (dc_ExpiresIn dc)) = false
        /\ device_flow id dc now = Ok f).

Definition entry (s : shared) (p : pc) : Prop :=
  match p with
  | PStart f => fresh_flow f
  | PConsume _ op => op_rail op <> RailUnknown
  | PLookup _ (OpCancelRail rail) => rail <> RailUnknown
  | PCancel _ _ | PReap _ | PGetFlow | PShutdown | PListenerDown _ => True
  | PPoll id => exists f, flows s !! id = Some f /\ f_Method f = FlowDevice
  | _ => False
  end.

(** ** The system *)

Record system := mkSystem { threads : list pc; mem : shared }.

(** Environments whose errors have a text, and whose exchange errors have a
    code and a message (the provider fills in defaults). *)
Definition good_err (err : error) : Prop :=
  match as_TokenExchangeError err with
  | Some (c, m, _) => c <> "" /\ m <> ""
  | None => True
  end.

Definition env_ok (e : env) : Prop :=
  (forall err, e_text e err <> "")
  /\ (forall c v err, e_exchange e c v = Err err -> good_err err)
  /\ (forall d u err, e_poll e d u = Err err -> good_err err)
  /\ (forall a err, e_insert e a = Err err -> good_err err).

Inductive step : system -> system -> Prop :=
  | step_run i p e ts s p' s' :
      ts !! i = Some p -> env_ok e -> run e p s = (p', s') ->
      (forall f, p = PTryStart f -> flows s !! f_ID f = None) ->
      step (mkSystem ts s) (mkSystem (<[i := p']> ts) s')
  | step_spawn p ts s : entry s p -> step (mkSystem ts s) (mkSystem (ts ++ [p]) s).

Definition reachable (y : system) : Prop := rtc step (mkSystem [] init_shared) y.

(** ** Schedules

    An executable schedule, for concrete runs: spawn a thread, or let thread
    [i] do one action in an environment. *)

Inductive action :=
  | ASpawn (p : pc)
  | ARun (i : nat) (e : env).

Definition exec1 (y : system) (a : action) : system :=
  match a with
  | ASpawn p => mkSystem (threads y ++ [p]) (mem y)
  | ARun i e =>
      match threads y !! i with
      | Some p => mkSystem (<[i := (run e p (mem y)).1]> (threads y)) (run e p (mem y)).2
      | None => y
      end
  end.

Definition legal (y : system) (a : action) : Prop :=
  match a with
  | ASpawn p => entry (mem y) p
  | ARun i e =>
      env_ok e /\ forall f, threads y !! i = Some (PTryStart f) -> flows (mem y) !! f_ID f = None
  end.

Fixpoint legal_all (y : system) (l : list action) : Prop :=
  match l with
  | [] => True
  | a :: l => legal y a /\ legal_all (exec1 y a) l
  end.

Lemma exec1_step y a : legal y a -> rtc step y (exec1 y a).
Proof.
  destruct y as [ts s], a as [p|i e]; cbn [exec1 legal threads mem].
  - intros Hen. apply rtc_once. by constructor.
  - intros [He Hnew]. destruct (ts !! i) as [p|] eqn:Hi; [|apply rtc_refl].
    apply rtc_once. econstructor; eauto using surjective_pairing.
    intros f ->. by apply Hnew.
Qed.

Lemma exec_steps l y : legal_all y l -> rtc step y (fold_left exec1 l y).
Proof.
  revert y. induction l as [|a l IH]; intros y; [intros; apply rtc_refl|]. intros [Ha Hl].
  cbn [fold_left]. etransitivity; [by apply exec1_step | by apply IH].
Qed.

(** ** Counting threads and history entries *)

Definition count {A} (P : A -> bool) (l : list A) : nat := List.length (List.filter P l).
Definition b2n (b : bool) : nat := if b then 1 else 0.

Lemma count_insert {A} (P : A -> bool) l i x y :
  l !! i = Some x -> (count P (<[i := y]> l) + b2n (P x) = count P l + b2n (P y))%nat.
Proof.
  unfold count. revert i. induction l as [|z l IH]; intros [|i] Hi; simpl in *; try done.
  - simplify_eq. destruct (P x), (P y); simpl; lia.
  - specialize (IH _ Hi). destruct (P z); simpl; lia.
Qed.

Lemma count_app {A} (P : A -> bool) l x : count P (l ++ [x]) = (count P l + b2n (P x))%nat.
Proof.
  unfold count. rewrite List.filter_app, List.length_app. simpl. by destruct (P x).
Qed.

Lemma count_cons {A} (P : A -> bool) l x : count P (x :: l) = (b2n (P x) + count P l)%nat.
Proof. unfold count. simpl. by destruct (P x). Qed.

(** ** The invariant

    A thread holds a flow between its winning compare-and-swap on [Consumed]
    and its write of the terminal status; it carries the flow's account
    between the insert and that write. *)

Definition holds (id : string) (p : pc) : bool :=
  match p with
  | PExchange j _ | PPersist j _ | PSucceed j _ | PFail j _ | PCancelWrite j | PReapWrite j
  | PDevSuccess j _ | PDevFailWrite j _ => String.eqb j id
  | _ => false
  end.

Definition carries (id : string) (p : pc) : bool :=
  match p with PSucceed j _ => String.eqb j id | _ => false end.

Definition rail_published (f : Flow) : Prop := f_Method f = FlowBrowser -> ConsumedBy f <> RailUnknown.

(** The life of a flow, given how many threads hold it ([o]) and carry its
    account ([q]), and how often it was persisted ([np]) and reported ([nr]). *)
Inductive flow_state (o q np nr : nat) (f : Flow) : Prop :=
  | fs_idle :
      Consumed f = false -> f_Status f = FlowStatusPending -> ConsumedBy f = RailUnknown ->
      terminalReported f = false -> o = 0%nat -> q = 0%nat -> np = 0%nat -> nr = 0%nat ->
      flow_state o q np nr f
  | fs_owned :
      Consumed f = true -> f_Status f = FlowStatusPending -> terminalReported f = false ->
      (o <= 1)%nat -> (q <= o)%nat -> np = q -> nr = 0%nat -> flow_state o q np nr f
  | fs_success :
      Consumed f = true -> f_Status f = FlowStatusSuccess -> is_Some (terminalAccount f) ->
      rail_published f -> o = 0%nat -> q = 0%nat -> np = 1%nat -> nr = b2n (terminalReported f) ->
      flow_state o q np nr f
  | fs_error te :
      Consumed f = true -> f_Status f = FlowStatusError -> terminalError f = Some te ->
      te_Code te <> "" -> te_Message te <> "" ->
      o = 0%nat -> q = 0%nat -> np = 0%nat -> nr = b2n (terminalReported f) ->
      flow_state o q np nr f.

(** What a program counter may assume about the state. *)
Definition plain (k : pc) : Prop :=
  match k with PDone _ | PShutdownClear => True | _ => False end.

Definition pc_ok (s : shared) (p : pc) : Prop :=
  match p with
  | PStart f | PTryStart f | PTryLoad f => fresh_flow f
  | PConsume _ op | PLookup _ op | PLookupPtr _ op | PLookupReleased _ op | PEnter _ op
  | PExpiry _ op | PLock _ op => op_rail op <> RailUnknown
  | PExchange id _ | PPersist id _ | PSucceed id _ =>
      exists f, flows s !! id = Some f /\ rail_published f
  | PPoll id | PPollCall id | PDevCAS id _ | PDevSuccess id _ =>
      exists f, flows s !! id = Some f /\ f_Method f = FlowDevice
  | PDevFail _ err | PDevFailCAS _ err | PDevFailWrite _ err | PFail _ err => good_err err
  | PRelease _ k | PReleaseClosed _ k | PReleaseStore _ k | PReleaseCAS _ k => plain k
  | _ => True
  end.

(** The immutable part of a flow. *)
Definition flow_static (f : Flow) : Prop :=
  f_ID f <> "" /\ IsZero (f_CreatedAt f) = false /\ IsZero (f_ExpiresAt f) = false
  /\ (f_Method f = FlowBrowser
      \/ f_Method f = FlowDevice /\ f_UserCode f <> "" /\ f_VerificationURL f <> "").

Definition same_static (f f' : Flow) : Prop :=
  f_ID f' = f_ID f /\ f_Method f' = f_Method f /\ f_CreatedAt f' = f_CreatedAt f
  /\ f_ExpiresAt f' = f_ExpiresAt f /\ f_UserCode f' = f_UserCode f
  /\ f_VerificationURL f' = f_VerificationURL f
  /\ (ConsumedBy f <> RailUnknown -> ConsumedBy f' <> RailUnknown).

Definition flow_inv (ts : list pc) (s : shared) (id : string) : Prop :=
  let o := count (holds id) ts in let q := count (carries id) ts in
  let np := count (String.eqb id) (persisted s) in let nr := count (String.eqb id) (reports s) in
  match flows s !! id with
  | Some f => flow_state o q np nr f /\ flow_static f /\ f_ID f = id
  | None => o = 0%nat /\ q = 0%nat /\ np = 0%nat /\ nr = 0%nat
  end.

Definition sys_inv (y : system) : Prop :=
  (forall id, flow_inv (threads y) (mem y) id) /\ Forall (pc_ok (mem y)) (threads y).

(** The actions, unfolded to their branches. *)
Ltac flow_cbn H :=
  cbv beta iota delta [run_flow ConsumeCode cancelFromRail classifyConsumedFlow readWinnerRail rejectConsumedRail
       persistConsumedFlow failFlow cancel expiry_reaper scheduleDevicePoll finishDeviceSuccess
       finishDeviceFailure snapshotCurrentFlow poll_terminal] in H.
Ltac coord_cbn H :=
  cbv beta iota delta [run_coord start_flow TryStartFlow lookupFlow ReleaseFlow GetFlow Shutdown] in H.

(** ** One action on a flow *)

Lemma account_of_err e f t err :
  env_ok e -> account_of e f t = Err err -> good_err err.
Proof.
  intros (Ht & _). unfold account_of, consumed_account, invalid_response, good_err.
  repeat case_match; intros; simplify_eq/=; eauto; done.
Qed.

Lemma fail_details_ok e err :
  env_ok e -> good_err err -> te_Code (fail_details e err) <> "" /\ te_Message (fail_details e err) <> "".
Proof.
  intros (Ht & _) Hg. unfold fail_details, oauthFailureDetails, good_err in *.
  destruct (as_TokenExchangeError err) as [[[c m] h]|]; [done|].
  destruct (as_StoreError err) as [[op c]|]; (split; [done | apply Ht]).
Qed.

Lemma device_failure_ok e err :
  env_ok e -> good_err err -> te_Code (device_failure e err) <> "" /\ te_Message (device_failure e err) <> "".
Proof.
  intros He Hg. pose proof (fail_details_ok e err He Hg). unfold device_failure.
  repeat case_match; done.
Qed.

Lemma expired_ok f : te_Code (expiredFlowError f) <> "" /\ te_Message (expiredFlowError f) <> "".
Proof. unfold expiredFlowError. by case_match. Qed.

(** Nothing else in the heap changes, and the flow keeps its identity. *)
Lemma run_flow_heap e id f p s p' s' :
  target p = Some id -> flows s !! id = Some f -> pc_ok s p -> run_flow e id f p s = (p', s') ->
  (exists f', flows s' !! id = Some f' /\ same_static f f')
  /\ (forall j, j <> id -> flows s' !! j = flows s !! j
        /\ count (String.eqb j) (persisted s') = count (String.eqb j) (persisted s)
        /\ count (String.eqb j) (reports s') = count (String.eqb j) (reports s))
  /\ flowPtr s' = flowPtr s /\ closed s' = closed s.
Proof.
  intros Ht Hf Hok Hr.
  assert (forall j l, j <> id -> count (String.eqb j) (id :: l) = count (String.eqb j) l) as Hc.
  { intros j l Hj. rewrite count_cons. by destruct (String.eqb_spec j id). }
  destruct p; try discriminate Ht; injection Ht as ->; flow_cbn Hr;
    unfold snapshotTerminalFlowForPoll in Hr; repeat (case_match; simplify_eq/=); simplify_eq/=;
    (split; [first
      [ exists f; split; [exact Hf | by repeat split]
      | eexists; split; [cbn; rewrite lookup_alter_eq, Hf; reflexivity | repeat split; done ] ] |]);
    (split; [|done]); intros j Hj; cbn; rewrite ?lookup_alter_ne by congruence;
    repeat split; first [done | by apply Hc].
Qed.

(** *** Transitions of [flow_state] *)

Ltac status_clash :=
  match goal with
  | H1 : f_Status ?f = ?x, H2 : f_Status ?f = ?y |- _ => rewrite H1 in H2; discriminate H2
  end.

Section Transitions.
Variables (o q np nr : nat) (f f' : Flow).
Hypothesis Hqo : (q <= o)%nat.

Lemma fs_acquire :
  flow_state o q np nr f -> Consumed f = false ->
  Consumed f' = true -> f_Status f' = f_Status f -> terminalReported f' = terminalReported f ->
  flow_state (o + 1) q np nr f'.
Proof. intros Hs Hc H1 H2 H3. destruct Hs; try congruence. apply fs_owned; try congruence; lia. Qed.

Lemma fs_acquire_error te :
  flow_state o q np nr f -> Consumed f = false ->
  Consumed f' = true -> f_Status f' = FlowStatusError -> terminalError f' = Some te ->
  te_Code te <> "" -> te_Message te <> "" -> terminalReported f' = terminalReported f ->
  flow_state o q np nr f'.
Proof.
  intros Hs Hc H1 H2 H3 H4 H5 H6. destruct Hs; try congruence.
  apply (fs_error _ _ _ _ _ te); try done.
  replace (terminalReported f') with false by congruence. done.
Qed.

(** A holder that carries nothing turns the flow into an error. *)
Lemma fs_write_error te :
  flow_state (o + 1) q np nr f ->
  Consumed f' = Consumed f -> f_Status f' = FlowStatusError -> terminalError f' = Some te ->
  te_Code te <> "" -> te_Message te <> "" -> terminalReported f' = terminalReported f ->
  flow_state o q np nr f'.
Proof.
  intros Hs H1 H2 H3 H4 H5 H6. destruct Hs; try lia.
  apply (fs_error _ _ _ _ _ te); try done; try congruence; try lia.
  replace (terminalReported f') with false by congruence. simpl. lia.
Qed.

Lemma fs_write_success :
  flow_state (o + 1) (q + 1) np nr f ->
  Consumed f' = Consumed f -> f_Status f' = FlowStatusSuccess -> is_Some (terminalAccount f') ->
  rail_published f' -> terminalReported f' = terminalReported f ->
  flow_state o q np nr f'.
Proof.
  intros Hs H1 H2 H3 H4 H5. destruct Hs; try lia.
  apply fs_success; try done; try congruence; try lia.
  replace (terminalReported f') with false by congruence. simpl. lia.
Qed.

Lemma fs_persist : flow_state (o + 1) q np nr f -> flow_state (o + 1) (q + 1) (S np) nr f.
Proof. intros Hs. destruct Hs; try lia. apply fs_owned; try done; lia. Qed.

Lemma fs_drop : flow_state (o + 1) q np nr f -> flow_state o q np nr f.
Proof. intros Hs. destruct Hs; try lia. apply fs_owned; try done; lia. Qed.

Lemma fs_same :
  flow_state o q np nr f ->
  Consumed f' = Consumed f -> f_Status f' = f_Status f -> ConsumedBy f' = ConsumedBy f ->
  f_Method f' = f_Method f -> terminalReported f' = terminalReported f ->
  terminalAccount f' = terminalAccount f -> terminalError f' = terminalError f ->
  flow_state o q np nr f'.
Proof.
  intros Hs E1 E2 E3 E4 E5 E6 E7. destruct Hs as [| |? ? ? Hr|te];
    [apply fs_idle | apply fs_owned | apply fs_success | apply (fs_error _ _ _ _ _ te)];
    unfold rail_published in *; rewrite ?E1, ?E2, ?E3, ?E4, ?E5, ?E6, ?E7; done.
Qed.

Lemma fs_report :
  flow_state o q np nr f -> is_terminal (f_Status f) = true -> terminalReported f = false ->
  flow_state o q np (S nr) (f <| terminalReported := true |>).
Proof.
  intros Hs Ht Hr. destruct Hs as [| |? ? ? Hp|te];
    try (match goal with H : f_Status f = _ |- _ => rewrite H in Ht; discriminate Ht end);
    [apply fs_success | apply (fs_error _ _ _ _ _ te)]; try done;
    (match goal with H : nr = _ |- _ => rewrite H, Hr end; done).
Qed.
End Transitions.

(** The threads' part: what the action does to the claims on its own flow. *)
Lemma run_flow_state e id f p s p' s' o q :
  target p = Some id -> flows s !! id = Some f -> env_ok e -> pc_ok s p -> (q <= o)%nat ->
  flow_state (o + b2n (holds id p)) (q + b2n (carries id p))
    (count (String.eqb id) (persisted s)) (count (String.eqb id) (reports s)) f ->
  run_flow e id f p s = (p', s') ->
  forall f', flows s' !! id = Some f' ->
  flow_state (o + b2n (holds id p')) (q + b2n (carries id p'))
    (count (String.eqb id) (persisted s')) (count (String.eqb id) (reports s')) f'.
Proof.
  intros Ht Hf He Hok Hqo Hs Hr f' Hf'.
  destruct p; try discriminate Ht; injection Ht as ->; flow_cbn Hr;
    unfold snapshotTerminalFlowForPoll in Hr; repeat (case_match; simplify_eq/=); simplify_eq/=;
    rewrite ?lookup_alter_eq, ?Hf in *; simplify_eq/=;
    rewrite ?String.eqb_refl, ?Nat.add_0_r in *; cbn [b2n] in *; rewrite ?Nat.add_0_r in *; try done.
  all: try solve [eapply fs_acquire; eauto | eapply fs_drop; eauto | eapply fs_same; eauto].
  - by eapply (fs_acquire_error _ _ _ _ f _ accessDeniedFlowError).
  - rewrite count_cons, String.eqb_refl. by apply fs_persist.
  - destruct Hok as (f2 & [= <-] & Hp).
    by eapply fs_write_success.
  - destruct (fail_details_ok e e0 He Hok). by eapply fs_write_error.
  - by eapply (fs_write_error _ _ _ _ f _ Hqo cancelledFlowError).
  - destruct (expired_ok f). by eapply fs_write_error.
  - destruct (device_failure_ok e e0 He Hok). by eapply fs_write_error.
  - by rewrite Bool.eqb_reflx in H.
  - rewrite count_cons, String.eqb_refl. breflect. by apply fs_report.
Qed.

(** A finished flow is only ever marked as reported. *)
Definition same_terminal (f f' : Flow) : Prop :=
  f_Status f' = f_Status f /\ terminalAccount f' = terminalAccount f
  /\ terminalError f' = terminalError f /\ ConsumedBy f' = ConsumedBy f
  /\ (terminalReported f = true -> terminalReported f' = true).

Lemma terminal_facts o q np nr f :
  flow_state o q np nr f -> is_terminal (f_Status f) = true -> Consumed f = true /\ o = 0%nat.
Proof.
  intros Hs Ht. destruct Hs; try done;
    match goal with H : f_Status f = _ |- _ => rewrite H in Ht; discriminate Ht end.
Qed.

Lemma run_flow_terminal e id f p s p' s' o q np nr :
  target p = Some id -> flows s !! id = Some f ->
  flow_state (o + b2n (holds id p)) q np nr f -> is_terminal (f_Status f) = true ->
  run_flow e id f p s = (p', s') ->
  forall f', flows s' !! id = Some f' -> same_terminal f f'.
Proof.
  intros Ht Hf Hs Hterm Hr f' Hf'. destruct (terminal_facts _ _ _ _ _ Hs Hterm) as [Hc Ho].
  destruct p; try discriminate Ht; injection Ht as ->; cbn [holds] in Ho;
    rewrite ?String.eqb_refl in Ho; cbn [b2n] in Ho; try lia;
    flow_cbn Hr; unfold snapshotTerminalFlowForPoll in Hr; rewrite ?Hc, ?Hterm in Hr;
    repeat (case_match; simplify_eq/=); simplify_eq/=;
    rewrite ?lookup_alter_eq, ?Hf in *; simplify_eq/=; by repeat split.
Qed.

Lemma run_flow_holds e id f p s p' s' j :
  target p = Some id -> run_flow e id f p s = (p', s') -> j <> id ->
  holds j p = false /\ carries j p = false /\ holds j p' = false /\ carries j p' = false.
Proof.
  intros Ht Hr Hj. assert (String.eqb id j = false) as Hij by (apply String.eqb_neq; congruence).
  destruct p; try discriminate Ht; injection Ht as ->; flow_cbn Hr;
    unfold snapshotTerminalFlowForPoll in Hr; repeat (case_match; simplify_eq/=); simplify_eq/=;
    rewrite ?Hij; done.
Qed.

Lemma pc_ok_static s s' p :
  (forall j f, flows s !! j = Some f -> exists f', flows s' !! j = Some f' /\ same_static f f') ->
  pc_ok s p -> pc_ok s' p.
Proof.
  intros Hs. destruct p; simpl; try done; intros (f & Hf & Hp);
    destruct (Hs _ _ Hf) as (f' & Hf' & (_ & Hm & _ & _ & _ & _ & Hc)); exists f'; (split; [done|]);
    unfold rail_published in *; rewrite ?Hm; auto.
Qed.

Lemma run_flow_pc e id f p s p' s' :
  target p = Some id -> flows s !! id = Some f -> flow_static f -> env_ok e -> pc_ok s p ->
  run_flow e id f p s = (p', s') -> pc_ok s' p'.
Proof.
  intros Ht Hf Hst He Hok Hr. pose proof He as (_ & He1 & He2 & He3).
  destruct p; try discriminate Ht; injection Ht as ->; flow_cbn Hr;
    unfold snapshotTerminalFlowForPoll in Hr; repeat (case_match; simplify_eq/=); simplify_eq/=;
    try done; eauto using account_of_err.
  - eexists. rewrite lookup_alter_eq, Hf. split; [done | by intros _].
  - exact (He3 _ _ H).
  - destruct Hok as (f2 & Hf2 & Hm). rewrite Hf in Hf2. injection Hf2 as <-.
    eexists. rewrite lookup_alter_eq, Hf. by split.
  - destruct Hok as (f2 & Hf2 & Hm). rewrite Hf in Hf2. injection Hf2 as <-.
    exists f. split; [done|]. unfold rail_published. by rewrite Hm.
Qed.

(** ** One action on the coordinator *)

(** [Some f]: the flow that this action starts. *)
Definition starts (p : pc) (s : shared) : option Flow :=
  match p, flowPtr s with PTryStart f, None => Some f | _, _ => None end.

Lemma run_coord_heap p s p' s' :
  target p = None -> pc_ok s p -> run_coord p s = (p', s') ->
  persisted s' = persisted s /\ reports s' = reports s
  /\ flows s' = match starts p s with Some f => <[f_ID f := f]> (flows s) | None => flows s end
  /\ (forall j, holds j p = false /\ carries j p = false /\ holds j p' = false /\ carries j p' = false).
Proof.
  intros Ht Hok Hr. destruct p; try discriminate Ht; coord_cbn Hr;
    unfold starts; repeat (case_match; simplify_eq/=); simplify_eq/=; try done;
    try (match goal with H : plain ?k |- _ => destruct k; done end).
Qed.

Lemma run_coord_pc p s p' s' :
  target p = None -> pc_ok s p -> (forall f, starts p s = Some f -> flows s !! f_ID f = None) ->
  run_coord p s = (p', s') -> pc_ok s' p'.
Proof.
  intros Ht Hok Hnew Hr. destruct p; try discriminate Ht; coord_cbn Hr;
    repeat (case_match; simplify_eq/=); simplify_eq/=; try done; try (match goal with H : plain ?k |- _ => destruct k; done end).
Qed.

Lemma run_coord_static p s p' s' :
  target p = None -> pc_ok s p -> (forall f, starts p s = Some f -> flows s !! f_ID f = None) ->
  run_coord p s = (p', s') ->
  forall j f, flows s !! j = Some f -> exists f', flows s' !! j = Some f' /\ same_static f f'.
Proof.
  intros Ht Hok Hnew Hr j f Hf. destruct (run_coord_heap _ _ _ _ Ht Hok Hr) as (_ & _ & -> & _).
  exists f. split; [|by repeat split]. destruct (starts p s) as [g|] eqn:E; [|done].
  specialize (Hnew _ eq_refl). rewrite lookup_insert_ne; [done|congruence].
Qed.

Lemma fresh_flow_facts f :
  fresh_flow f -> flow_state 0 0 0 0 f /\ flow_static f.
Proof.
  intros [(id & st & v & now & b & H1 & H2 & H3 & ->)|(id & dc & now & H1 & H2 & H3 & Hd)].
  - split; [by apply fs_idle|]. repeat split; try done. by left.
  - unfold device_flow in Hd. repeat case_match; simplify_eq; breflect.
    split; [by apply fs_idle|]. repeat split; try done. by right.
Qed.

(** ** Every step keeps the invariant *)

(** The other threads, when thread [i] runs. *)
Definition others_of (ts : list pc) (i : nat) : list pc := <[i := PDone ODone]> ts.

Lemma count_others (P : pc -> bool) ts i p p' :
  P (PDone ODone) = false -> ts !! i = Some p ->
  count P ts = (count P (others_of ts i) + b2n (P p))%nat
  /\ count P (<[i := p']> ts) = (count P (others_of ts i) + b2n (P p'))%nat.
Proof.
  intros HP Hi. pose proof (count_insert P ts i p p' Hi).
  pose proof (count_insert P ts i p (PDone ODone) Hi) as H0. rewrite HP in H0.
  unfold others_of. simpl in H0. lia.
Qed.

Lemma count_le (P Q : pc -> bool) ts :
  (forall p, P p = true -> Q p = true) -> (count P ts <= count Q ts)%nat.
Proof.
  intros H. unfold count. induction ts as [|p ts IH]; simpl; [lia|].
  specialize (H p). destruct (P p), (Q p); simpl; lia.
Qed.

Lemma carries_holds id p : carries id p = true -> holds id p = true.
Proof. by destruct p. Qed.

Lemma spawn_inert s p j : entry s p -> holds j p = false /\ carries j p = false.
Proof. by destruct p. Qed.

Lemma entry_pc_ok s p : entry s p -> pc_ok s p.
Proof. destruct p; try done. by destruct op. Qed.

(** A step of thread [i] on the flow it dereferences. *)
Lemma step_flow ts s i p e id f p' s' :
  sys_inv (mkSystem ts s) -> ts !! i = Some p -> env_ok e -> target p = Some id ->
  flows s !! id = Some f -> run_flow e id f p s = (p', s') ->
  sys_inv (mkSystem (<[i := p']> ts) s').
Proof.
  intros [Hinv Hpcs] Hi He Ht Hf Hr. cbn [threads mem] in *.
  assert (pc_ok s p) as Hok by (eapply Forall_lookup_1; eauto).
  destruct (run_flow_heap _ _ _ _ _ _ _ Ht Hf Hok Hr) as ((f' & Hf' & Hsame) & Hothers & _).
  pose proof (Hinv id) as Hid. unfold flow_inv in Hid. rewrite Hf in Hid. destruct Hid as (Hst & Hstat & Hfid).
  assert (flow_static f' /\ f_ID f' = id) as [Hstat' Hfid'].
  { destruct Hsame as (E1 & E2 & E3 & E4 & E5 & E6 & _). unfold flow_static in *.
    rewrite E1, E2, E3, E4, E5, E6. done. }
  split; cbn [threads mem].
  - intros j. unfold flow_inv. destruct (decide (j = id)) as [->|Hj].
    + rewrite Hf'. split; [|done].
      destruct (count_others (holds id) ts i p p' eq_refl Hi) as [E1 E2].
      destruct (count_others (carries id) ts i p p' eq_refl Hi) as [E3 E4].
      rewrite E1, E3 in Hst. rewrite E2, E4.
      eapply (run_flow_state e id f p s p' s'); eauto. apply count_le, carries_holds.
    + destruct (Hothers j Hj) as (-> & -> & ->).
      destruct (run_flow_holds _ _ _ _ _ _ _ j Ht Hr Hj) as (H1 & H2 & H3 & H4).
      destruct (count_others (holds j) ts i p p' eq_refl Hi) as [E1 E2].
      destruct (count_others (carries j) ts i p p' eq_refl Hi) as [E3 E4].
      rewrite E2, E4, H3, H4. specialize (Hinv j). unfold flow_inv in Hinv.
      by rewrite E1, E3, H1, H2 in Hinv.
  - apply Forall_insert; [|exact (run_flow_pc _ _ _ _ _ _ _ Ht Hf Hstat He Hok Hr)].
    eapply Forall_impl; [exact Hpcs|]. intros x. apply pc_ok_static.
    intros j g Hg. destruct (decide (j = id)) as [->|Hj].
    + exists f'. rewrite Hf in Hg. by injection Hg as <-.
    + exists g. destruct (Hothers j Hj) as (-> & _). split; [done | by repeat split].
Qed.

(** A step on the coordinator's own variables. *)
Lemma step_coord ts s i p p' s' :
  sys_inv (mkSystem ts s) -> ts !! i = Some p -> target p = None ->
  (forall f, p = PTryStart f -> flows s !! f_ID f = None) ->
  run_coord p s = (p', s') -> sys_inv (mkSystem (<[i := p']> ts) s').
Proof.
  intros [Hinv Hpcs] Hi Ht Hnew Hr. cbn [threads mem] in *.
  assert (pc_ok s p) as Hok by (eapply Forall_lookup_1; eauto).
  assert (forall f, starts p s = Some f -> flows s !! f_ID f = None /\ fresh_flow f) as Hst.
  { intros f. unfold starts. destruct p; try done. destruct (flowPtr s); [done|].
    intros [= <-]. split; [by apply Hnew | exact Hok]. }
  destruct (run_coord_heap _ _ _ _ Ht Hok Hr) as (Ep & Er & Ef & Hh).
  split; cbn [threads mem].
  - intros j. unfold flow_inv. destruct (Hh j) as (H1 & H2 & H3 & H4).
    destruct (count_others (holds j) ts i p p' eq_refl Hi) as [E1 E2].
    destruct (count_others (carries j) ts i p p' eq_refl Hi) as [E3 E4].
    specialize (Hinv j). unfold flow_inv in Hinv. rewrite E1, E3, H1, H2 in Hinv.
    rewrite Ep, Er, Ef, E2, E4, H3, H4. destruct (starts p s) as [f|] eqn:Es; [|exact Hinv].
    destruct (Hst _ eq_refl) as [Hn Hf]. destruct (decide (j = f_ID f)) as [->|Hj].
    + rewrite Hn in Hinv. destruct Hinv as (-> & -> & -> & ->). rewrite lookup_insert_eq.
      destruct (fresh_flow_facts _ Hf). done.
    + by rewrite lookup_insert_ne.
  - apply Forall_insert; [|eapply run_coord_pc; eauto; intros f Hf; by apply Hst].
    eapply Forall_impl; [exact Hpcs|]. intros x. apply pc_ok_static.
    eapply run_coord_static; eauto. intros f Hf. by apply Hst.
Qed.

Lemma step_inv y y' : step y y' -> sys_inv y -> sys_inv y'.
Proof.
  intros [i p e ts s p' s' Hi He Hr Hnew | p ts s Hen] Hy.
  - unfold run in Hr. destruct (target p) as [id|] eqn:Ht.
    + destruct (flows s !! id) as [f|] eqn:Hf; [by eapply step_flow|].
      injection Hr as <- <-. by rewrite list_insert_id.
    + by eapply step_coord.
  - destruct Hy as [Hinv Hpcs]. split; cbn [threads mem] in *.
    + intros j. unfold flow_inv. rewrite !count_app.
      destruct (spawn_inert s p j Hen) as [-> ->]. rewrite !Nat.add_0_r. apply Hinv.
    + apply Forall_app. split; [done|]. constructor; [by apply entry_pc_ok|done].
Qed.

Lemma reachable_inv y : reachable y -> sys_inv y.
Proof.
  intros Hr. eapply (rtc_invariant step sys_inv); [|exact Hr|].
  - intros s s' Hs. by apply step_inv.
  - split; [|constructor]. intros id. unfold flow_inv. simpl. by rewrite lookup_empty.
Qed.

(** ** The slot for the flow in progress *)

(** A thread that releases a flow has finished it, or the coordinator is shut
    down. *)
Definition released_ok (s : shared) (id : string) : Prop :=
  closed s = true \/ exists f, flows s !! id = Some f /\ is_terminal (f_Status f) = true.

Definition release_ok (s : shared) (p : pc) : Prop :=
  match p with
  | PRelease id _ | PReleaseClosed id _ | PReleaseStore id _ | PReleaseCAS id _ => released_ok s id
  | PShutdownLoad => closed s = true
  | _ => True
  end.

Definition slot_inv (y : system) : Prop :=
  Forall (release_ok (mem y)) (threads y)
  /\ (closed (mem y) = false ->
      forall id f, flows (mem y) !! id = Some f -> is_terminal (f_Status f) = false ->
        flowPtr (mem y) = Some id).

(** What a step keeps: shutdown, and finished flows. *)
Definition progress (s s' : shared) : Prop :=
  (closed s = true -> closed s' = true)
  /\ forall id f, flows s !! id = Some f -> is_terminal (f_Status f) = true ->
       exists f', flows s' !! id = Some f' /\ same_terminal f f'.

Lemma release_ok_progress s s' p : progress s s' -> release_ok s p -> release_ok s' p.
Proof.
  intros [Hc Ht]. destruct p; simpl; try done; try apply Hc;
    (intros [H|(f & Hf & Hter)]; [left; auto | right];
     destruct (Ht _ _ Hf Hter) as (f' & Hf' & (Es & _)); exists f'; by rewrite Es).
Qed.

Lemma run_flow_progress ts s i p e id f p' s' :
  sys_inv (mkSystem ts s) -> ts !! i = Some p -> target p = Some id ->
  flows s !! id = Some f -> run_flow e id f p s = (p', s') -> progress s s'.
Proof.
  intros [Hinv Hpcs] Hi Ht Hf Hr. cbn [threads mem] in *.
  assert (pc_ok s p) as Hok by (eapply Forall_lookup_1; eauto).
  destruct (run_flow_heap _ _ _ _ _ _ _ Ht Hf Hok Hr) as ((f' & Hf' & _) & Hothers & _ & Hcl).
  split; [by rewrite Hcl|]. intros j g Hg Hter. destruct (decide (j = id)) as [->|Hj].
  - rewrite Hf in Hg. injection Hg as <-. exists f'. split; [done|].
    pose proof (Hinv id) as Hid. unfold flow_inv in Hid. rewrite Hf in Hid. destruct Hid as (Hst & _).
    destruct (count_others (holds id) ts i p p' eq_refl Hi) as [E1 _]. rewrite E1 in Hst.
    by eapply (run_flow_terminal e id f p s p' s').
  - exists g. destruct (Hothers j Hj) as (-> & _). split; [done | by repeat split].
Qed.

Lemma run_coord_progress p s p' s' :
  target p = None -> pc_ok s p -> (forall f, p = PTryStart f -> flows s !! f_ID f = None) ->
  run_coord p s = (p', s') -> progress s s'.
Proof.
  intros Ht Hok Hnew Hr. destruct (run_coord_heap _ _ _ _ Ht Hok Hr) as (_ & _ & Ef & _). split.
  - destruct p; try discriminate Ht; coord_cbn Hr;
      repeat (case_match; simplify_eq/=); simplify_eq/=; done.
  - intros j f Hf Hter. exists f. split; [|by repeat split]. rewrite Ef.
    unfold starts. destruct p; try done. destruct (flowPtr s); [done|].
    rewrite lookup_insert_ne; [done|]. specialize (Hnew _ eq_refl). congruence.
Qed.

Lemma step_progress y y' : sys_inv y -> step y y' -> progress (mem y) (mem y').
Proof.
  intros Hy Hs. revert Hy. destruct Hs as [i p e ts s p' s' Hi He Hr Hnew | p ts s Hen]; intros Hy; cbn [mem].
  - unfold run in Hr. destruct (target p) as [id|] eqn:Ht.
    + destruct (flows s !! id) as [f|] eqn:Hf; [exact (run_flow_progress _ _ _ _ _ _ _ _ _ Hy Hi Ht Hf Hr)|].
      injection Hr as <- <-. split; [done|]. intros j f' Hf' _. exists f'. split; [done|by repeat split].
    + eapply run_coord_progress; eauto. destruct Hy as [_ Hp]. cbn [threads mem] in Hp.
      by eapply Forall_lookup_1.
  - split; [done|]. intros j f' Hf' _. exists f'. split; [done|by repeat split].
Qed.

(** The new program counter of a step is again entitled to what it does. *)
Lemma run_flow_release e id f p s p' s' :
  target p = Some id -> flows s !! id = Some f -> run_flow e id f p s = (p', s') -> release_ok s' p'.
Proof.
  intros Ht Hf Hr. destruct p; try discriminate Ht; injection Ht as ->; flow_cbn Hr;
    unfold snapshotTerminalFlowForPoll in Hr; repeat (case_match; simplify_eq/=); simplify_eq/=; try done;
    first [ by left | right; eexists; cbn; rewrite lookup_alter_eq, Hf; split; reflexivity ].
Qed.

Lemma run_coord_release p s p' s' :
  target p = None -> pc_ok s p -> release_ok s p -> run_coord p s = (p', s') -> release_ok s' p'.
Proof.
  intros Ht Hok Hrel Hr. destruct p; try discriminate Ht; coord_cbn Hr;
    repeat (case_match; simplify_eq/=); simplify_eq/=; try done;
    try (match goal with H : plain ?k |- release_ok _ ?k => destruct k; done end);
    first [ by left | exact Hrel ].
Qed.

(** Who writes the slot. *)
Lemma run_coord_ptr p s p' s' :
  target p = None -> pc_ok s p -> run_coord p s = (p', s') ->
  (starts p s = None /\ flowPtr s' = flowPtr s)
  \/ (exists f, starts p s = Some f /\ flowPtr s' = Some (f_ID f))
  \/ (exists id k, p = PReleaseCAS id k /\ flowPtr s = Some id /\ flowPtr s' = None /\ starts p s = None).
Proof.
  intros Ht Hok Hr. destruct p; try discriminate Ht; coord_cbn Hr; unfold starts;
    repeat (case_match; simplify_eq/=); simplify_eq/=; breflect; try (by left); try (by right; left; eauto).
  right; right. eauto 10.
Qed.

Lemma step_slot y y' : sys_inv y -> step y y' -> slot_inv y -> slot_inv y'.
Proof.
  intros Hy Hs [Hrel Hptr]. pose proof (step_progress _ _ Hy Hs) as Hprog.
  pose proof (step_inv _ _ Hs Hy) as Hy'.
  revert Hy Hrel Hptr Hprog Hy'. destruct Hs as [i p e ts s p' s' Hi He Hr Hnew | p ts s Hen];
    intros Hy Hrel Hptr Hprog Hy'; cbn [threads mem] in *.
  - assert (pc_ok s p) as Hok by (destruct Hy as [_ Hp]; by eapply Forall_lookup_1).
    assert (release_ok s p) as Hrp by (by eapply Forall_lookup_1).
    assert (release_ok s' p') as Hrp'.
    { unfold run in Hr. destruct (target p) as [id|] eqn:Ht; [|by eapply run_coord_release].
      destruct (flows s !! id) as [f|] eqn:Hf; [by eapply run_flow_release|].
      by injection Hr as <- <-. }
    split; cbn [threads mem].
    { apply Forall_insert; [|done]. eapply Forall_impl; [exact Hrel|].
      intros x. by apply release_ok_progress. }
    intros Hc j g Hg Hnt. unfold run in Hr. destruct (target p) as [id|] eqn:Ht.
    + destruct (flows s !! id) as [f|] eqn:Hf; [|injection Hr as <- <-; eauto].
      destruct (run_flow_heap _ _ _ _ _ _ _ Ht Hf Hok Hr) as ((f' & Hf' & _) & Hothers & Ep & Ecl).
      rewrite Ep. rewrite Ecl in Hc. destruct (decide (j = id)) as [->|Hj].
      * destruct (is_terminal (f_Status f)) eqn:Hft; [|eauto].
        destruct (proj2 Hprog _ _ Hf Hft) as (f2 & Hf2 & (Es & _)). congruence.
      * destruct (Hothers j Hj) as (E & _). rewrite E in Hg. eauto.
    + destruct (run_coord_heap _ _ _ _ Ht Hok Hr) as (_ & _ & Ef & _).
      assert (closed s = false) as Hc0.
      { destruct (closed s) eqn:E; [|done]. rewrite (proj1 Hprog E) in Hc. done. }
      specialize (Hptr Hc0).
      destruct (run_coord_ptr _ _ _ _ Ht Hok Hr) as [(E & Ep)|[(h & E & Ep)|(id & k & -> & Ep0 & Ep & E)]];
        rewrite E in Ef; rewrite Ep; rewrite Ef in Hg.
      * eauto.
      * apply lookup_insert_Some in Hg as [[<- _]|[_ Hg]]; [done|].
        specialize (Hptr _ _ Hg Hnt). unfold starts in E. rewrite Hptr in E. by destruct p.
      * specialize (Hptr _ _ Hg Hnt). assert (j = id) as -> by congruence.
        destruct Hrp as [?|(f & Hf & Hter)]; congruence.
  - split; cbn [threads mem]; [|done]. apply Forall_app. split; [done|].
    constructor; [|done]. destruct p; done.
Qed.

Lemma reachable_slot y : reachable y -> sys_inv y /\ slot_inv y.
Proof.
  intros Hr. eapply (rtc_invariant step (fun y => sys_inv y /\ slot_inv y)); [|exact Hr|].
  - intros s s' Hs [H1 H2]. split; [by eapply step_inv | by eapply step_slot].
  - split; [apply reachable_inv, rtc_refl|]. split; [constructor|]. intros _ id f. simpl. by rewrite lookup_empty.
Qed.

Lemma reachable_progress y y' : reachable y -> rtc step y y' -> progress (mem y) (mem y').
Proof.
  intros Hr Hs. induction Hs as [x|x z w Hxz Hzw IH].
  - split; [done|]. intros id f Hf _. exists f. split; [done | by repeat split].
  - pose proof (step_progress _ _ (reachable_inv _ Hr) Hxz) as [C1 T1].
    destruct (IH (rtc_r _ _ _ Hr Hxz)) as [C2 T2]. split; [auto|].
    intros id f Hf Ht. destruct (T1 _ _ Hf Ht) as (f1 & H1 & (E1 & E2 & E3 & E4 & E5)).
    rewrite <- E1 in Ht. destruct (T2 _ _ H1 Ht) as (f2 & H2 & (G1 & G2 & G3 & G4 & G5)).
    exists f2. split; [done|]. repeat split; try congruence. auto.
Qed.

(** ** Properties *)

(** C17: Whatever the interleaving of rails, cancellations, expiry, device
    polls, status polls and shutdown: at most one thread ever works on behalf
    of a flow, at most one account is inserted for it - exactly one if it ended
    in success, none if it ended in error - and its terminal snapshot is marked
    as delivered at most once. *)
Theorem flow_single_winner y id f :
  reachable y -> flows (mem y) !! id = Some f ->
  (count (holds id) (threads y) <= 1)%nat
  /\ (count (String.eqb id) (persisted (mem y)) <= 1)%nat
  /\ (count (String.eqb id) (reports (mem y)) <= 1)%nat
  /\ (f_Status f = FlowStatusSuccess -> count (String.eqb id) (persisted (mem y)) = 1%nat)
  /\ (f_Status f = FlowStatusError -> count (String.eqb id) (persisted (mem y)) = 0%nat)
  /\ (Consumed f = false -> count (holds id) (threads y) = 0%nat /\ ConsumedBy f = RailUnknown).
Proof.
  intros Hr Hf. destruct (reachable_inv _ Hr) as [Hinv _]. specialize (Hinv id).
  unfold flow_inv in Hinv. rewrite Hf in Hinv. destruct Hinv as (Hs & _).
  assert (b2n (terminalReported f) <= 1)%nat by (destruct (terminalReported f); simpl; lia).
  destruct Hs; repeat split; try lia; try congruence; intros Hst;
    match goal with H : f_Status f = _ |- _ => rewrite H in Hst; discriminate Hst end.
Qed.

(** A terminal outcome is final: once a flow has ended, no later step
    changes its status, its account, its error or its winning rail, and no
    further account is inserted for it. *)
Theorem flow_outcome_final y y' id f :
  reachable y -> rtc step y y' -> flows (mem y) !! id = Some f -> is_terminal (f_Status f) = true ->
  (exists f', flows (mem y') !! id = Some f' /\ same_terminal f f')
  /\ count (String.eqb id) (persisted (mem y')) = count (String.eqb id) (persisted (mem y)).
Proof.
  intros Hr Hs Hf Ht. destruct (reachable_progress _ _ Hr Hs) as [_ Hp].
  destruct (Hp _ _ Hf Ht) as (f' & Hf' & Hsame). split; [eauto|].
  pose proof (reachable_inv _ Hr) as [Hinv _]. pose proof (reachable_inv y') as Hy'.
  destruct Hy' as [Hinv' _]; [unfold reachable; etransitivity; [exact Hr | exact Hs]|].
  specialize (Hinv id). specialize (Hinv' id). unfold flow_inv in *. rewrite Hf in Hinv. rewrite Hf' in Hinv'.
  destruct Hinv as (Hs1 & _), Hinv' as (Hs2 & _). destruct Hsame as (Es & _).
  destruct Hs1; try (match goal with H : f_Status f = _ |- _ => rewrite H in Ht; discriminate Ht end);
    destruct Hs2; try congruence;
    match goal with H1 : f_Status f = _, H2 : f_Status f' = _ |- _ =>
      rewrite Es, H1 in H2; discriminate H2 end.
Qed.


(** One flow at a time: until shutdown, an unfinished flow is the one in
    the coordinator's slot, so no two unfinished flows coexist and the slot is
    only handed over once its flow has ended. *)
Theorem single_flow_in_progress y id f :
  reachable y -> closed (mem y) = false -> flows (mem y) !! id = Some f ->
  is_terminal (f_Status f) = false ->
  flowPtr (mem y) = Some id
  /\ (forall id' f', flows (mem y) !! id' = Some f' -> is_terminal (f_Status f') = false -> id' = id)
  /\ (forall y', step y y' -> closed (mem y') = false ->
        flowPtr (mem y') = Some id \/ exists f', flows (mem y') !! id = Some f' /\ is_terminal (f_Status f') = true).
Proof.
  intros Hr Hc Hf Ht. destruct (reachable_slot _ Hr) as [_ [_ Hptr]]. specialize (Hptr Hc).
  split; [by eapply Hptr|]. split.
  - intros id' f' Hf' Ht'. pose proof (Hptr _ _ Hf Ht). pose proof (Hptr _ _ Hf' Ht'). congruence.
  - intros y' Hs Hc'. destruct (reachable_slot _ (rtc_r _ _ _ Hr Hs)) as [[Hinv _] [_ Hptr']].
    destruct (flows (mem y') !! id) as [f'|] eqn:Hf'.
    + destruct (is_terminal (f_Status f')) eqn:Ht'; [right; eauto | left; by eapply Hptr'].
    + exfalso. revert Hr Hf Hf'. clear -Hs. destruct Hs as [i p e ts s p' s' Hi He Hrun Hnew | p ts s Hen];
        intros Hr Hf Hf'; cbn [mem] in *; [|congruence].
      destruct (reachable_inv _ Hr) as [_ Hp]. cbn [threads mem] in Hp.
      assert (pc_ok s p) as Hok by (by eapply Forall_lookup_1).
      unfold run in Hrun. destruct (target p) as [j|] eqn:Htg.
      * destruct (flows s !! j) as [g|] eqn:Hg; [|congruence].
        destruct (run_flow_heap _ _ _ _ _ _ _ Htg Hg Hok Hrun) as ((g' & Hg' & _) & Hoth & _).
        destruct (decide (id = j)) as [->|Hj]; [congruence|]. destruct (Hoth id Hj). congruence.
      * destruct (run_coord_static p s p' s' Htg Hok) with (j := id) (f := f) as (g & Hg & _);
          [|done|done|congruence].
        intros g. unfold starts. destruct p; try done. destruct (flowPtr s); [done|].
        intros [= <-]. by apply Hnew.
Qed.
