(* ===== verification/OAuthRefresh.v ===== *)
(** * OAuthRefresh: keeping an account's access token fresh
      (internal/oauth/coordinator.go, [RefreshIfStale])

    The refresh runs against the repository of [Store]: other sessions act
    during the call to the provider (interleaving point 10) and inside the
    repository's own operations.  The provider, [ExtractClaims], the clock and
    the flight a caller may join ([singleflight]) are answers of the
    environment, one per attempt. *)

From S2P Require Import Prelude GoLib Errors Account Engine Store OAuthFlow.

Record refreshResult := mkRefreshResult { accessToken : option string; usedFallback : bool }.

Inductive provider_answer :=
  | PTokens (t : Tokens)
  | PError (e : error)
  | PPanic (v : string).

Record refresh_env := mkRefreshEnv {
  r_now : time;                                     (* before the refresh *)
  r_refreshed : time;                               (* after the exchange *)
  r_provider : option string -> bool -> provider_answer;
  r_claims : option string -> result error Claims;
  r_join : option (result error refreshResult);
  r_text : error -> string }.

(** ** Error classes *)

Definition permanent_codes : list string := ["invalid_grant"; "account_deactivated"; "invalid_client"].

Definition refreshErrorCode (err : error) : string * bool :=
  if errors_Is err DeadlineExceeded then ("refresh_timeout", false)
  else if errors_Is err Canceled then ("refresh_cancelled", false)
  else match as_TokenExchangeError err with
  | Some (code, _, _) => (code, existsb (String.eqb code) permanent_codes)
  | None => ("oauth_internal_error", false)
  end.

Definition refreshTransientFallbackResult (acct : UpstreamAccount) : refreshResult :=
  mkRefreshResult (cloneBytes (AccessToken acct)) true.

(** [if errors.Is(err, ErrConditionalUpdateConflict)]: a lost optimistic lock
    becomes the retry signal, any other error a [StoreError]. *)
Definition store_error (op : string) (e : error) : error :=
  if errors_Is e ErrConditionalUpdateConflict then Sentinel errConcurrentRefreshConflict
  else StoreError op e.

(** When the token was last refreshed, and when it is due: half-way through
    its life. *)
Definition refresh_due (acct : UpstreamAccount) : result error (time * time) :=
  match LastRefresh acct, AccessExpiresAt acct with
  | Some lr, Some ex =>
      let lastRefresh := UTC lr in
      let accessExpiresAt := UTC ex in
      if Before accessExpiresAt lastRefresh then
        Err (Wrapf "oauth.RefreshIfStale: account %d access_expires_at %s precedes last_refresh %s: %w"
               [FInt (ID acct)] (Sentinel ErrInvalidAccountShape))
      else Ok (lastRefresh, Add lastRefresh (Z.quot (Sub accessExpiresAt lastRefresh) 2))
  | _, _ => Err (Errorf "nil pointer dereference" [])
  end.

Definition refresh_patch (e : refresh_env) (acct : UpstreamAccount) (lastRefresh : time)
    (t : Tokens) (c : Claims) : CredentialPatch :=
  let refreshedAt := UTC (r_refreshed e) in
  mkCredentialPatch (AuthMethod acct) "" (cloneBytes (t_AccessToken t)) (cloneBytes (t_RefreshToken t))
    (cloneBytes (t_IDToken t)) (Some refreshedAt) (Some lastRefresh)
    (Some (Add refreshedAt (t_ExpiresIn t)))
    (stringPointer (cl_Email c)) (stringPointer (cl_PlanType c)) (stringPointer (cl_ChatGPTAccountID c)).

Section Refresh.
Context {DB : Type} `{XormEngine DB} `{!Others DB}.
Import AccountRepo.

Definition handleRefreshFailure (acct : UpstreamAccount) (expectedLastRefresh : time) (err : error)
    : M DB refreshResult :=
  if snd (refreshErrorCode err) then
    wrap_err (store_error "disable account")
      (UpdateStatusIfCurrent (ID acct) AccountStatusDisabled expectedLastRefresh);;
    fail err
  else mret (refreshTransientFallbackResult acct).

(** The function given to [sf.Do], run by the caller that leads the flight. *)
Definition refresh_flight (e : refresh_env) (acct : UpstreamAccount) (lastRefresh : time)
    : M DB refreshResult :=
  interleave 10;;
  match r_provider e (cloneBytes (RefreshToken acct)) (UseProxy acct) with
  | PPanic v => fail (Errorf "oauth.RefreshIfStale: panic: %v" [FStr v])
  | PError err => handleRefreshFailure acct lastRefresh err
  | PTokens t =>
      match r_claims e (t_IDToken t) with
      | Err err => handleRefreshFailure acct lastRefresh (invalid_response (r_text e err))
      | Ok c =>
          wrap_err (store_error "update credentials")
            (UpdateCredentials (ID acct) (refresh_patch e acct lastRefresh t c));;
          mret (mkRefreshResult (cloneBytes (t_AccessToken t)) false)
      end
  end.

Definition refreshIfStaleOnce (e : refresh_env) (acct : option UpstreamAccount)
    : M DB (option string * bool) :=
  match acct with
  | None => fail (Errorf "oauth.RefreshIfStale: account is nil" [])
  | Some acct =>
      if ID acct <=? 0 then fail (Errorf "oauth.RefreshIfStale: invalid account id %d" [FInt (ID acct)])
      else if is_api_key (AuthMethod acct) then
        if String.eqb (APIKey acct) "" then
          fail (Wrapf "oauth.RefreshIfStale: api_key account %d has empty api_key: %w" [FInt (ID acct)]
                  (Sentinel ErrInvalidAccountShape))
        else mret (Some (APIKey acct), false)
      else if negb (is_oauth (AuthMethod acct)) then
        fail (Wrapf "oauth.RefreshIfStale: account %d has unknown auth_method %q: %w"
                [FInt (ID acct); FStr (AuthMethod acct)] (Sentinel ErrUnknownAuthMethod))
      else
        match Validate (Some acct) with
        | Some err => fail (Wrapf "oauth.RefreshIfStale: validate account %d: %w" [FInt (ID acct)] err)
        | None =>
            '(lastRefresh, refreshAfter) ← lift (fun _ => refresh_due acct);
            if negb (After (r_now e) refreshAfter) then mret (cloneBytes (AccessToken acct), false)
            else
              res ← match r_join e with
                    | Some r => lift (fun _ => r)
                    | None => refresh_flight e acct lastRefresh
                    end;
              mret (cloneBytes (accessToken res), usedFallback res)
        end
  end.

Definition reloadRefreshConflictAccount (accountID : Z) : M DB UpstreamAccount :=
  latest ← wrap_err (Wrapf "oauth.RefreshIfStale: get account %d: %w" [FInt accountID]) (GetByID accountID);
  if negb (String.eqb (Status latest) AccountStatusActive) then
    fail (Errorf "oauth.RefreshIfStale: account %d status %q is not active" [FInt accountID; FStr (Status latest)])
  else mret latest.

(** The loop of [RefreshIfStale], with the environment of each attempt.  The
    dereference [acct.ID] after a conflict is safe: a nil account fails
    otherwise. *)
Fixpoint refresh_loop (fuel attempt : nat) (e : nat -> refresh_env) (acct : option UpstreamAccount)
    : M DB (option string * bool) := fun db =>
  match fuel with
  | O => (Err (Errorf "out of fuel" []), db)
  | S fuel =>
      match refreshIfStaleOnce (e attempt) acct db with
      | (Ok r, db) => (Ok r, db)
      | (Err err, db) =>
          if negb (errors_Is err errConcurrentRefreshConflict) then (Err err, db)
          else if (0 <? attempt)%nat then (Err (Sentinel errConcurrentRefreshConflict), db)
          else match reloadRefreshConflictAccount (default 0 (ID <$> acct)) db with
               | (Ok latest, db) => refresh_loop fuel (S attempt) e (Some latest) db
               | (Err err, db) => (Err err, db)
               end
      end
  end.

Definition RefreshIfStale (e : nat -> refresh_env) (acct : option UpstreamAccount)
    : M DB (option string * bool) := refresh_loop 2 0 e acct.

End Refresh.

(** ** What a refresh does to the table *)

Section Outcomes.
Context {DB : Type} `{XormLaws DB} `{!Others DB}.
Import AccountRepo.

(** Nothing but other sessions changed the table. *)
Inductive env_step (db : DB) : DB -> Prop :=
  | es_others i : env_step db (others i db)
  | es_rows db' : eng_rows db' = eng_rows db -> env_step db db'.

Definition untouched : DB -> DB -> Prop := rtc env_step.

Lemma untouched_rows db db' : eng_rows db' = eng_rows db -> untouched db db'.
Proof. intros E. apply rtc_once. by constructor. Qed.

Lemma untouched_others i db : untouched db (others i db).
Proof. apply rtc_once. constructor. Qed.

Lemma untouched_quiet db db' : quiet -> untouched db db' -> eng_rows db' = eng_rows db.
Proof.
  intros Hq Hu. induction Hu as [|x y z Hxy _ IH]; [done|]. rewrite IH.
  destruct Hxy as [i|y E]; [apply Hq | exact E].
Qed.

(** An update that reports no row, or fails, changes nothing. *)
Lemma update_none p f db r db' :
  (forall a, ID (f a) = ID a) -> eng_update p f db = (r, db') ->
  (forall n, r = Ok n -> n = 0) -> untouched db db'.
Proof.
  intros Hid Hu Hr. apply untouched_rows. destruct r as [n|e]; [|by eapply update_err].
  destruct (update_ok _ _ _ _ _ Hid Hu) as (_ & _ & Hz & _).
  apply map_eq. intros k. apply Hz. by apply Hr.
Qed.

Lemma miss_untouched id c db r db' :
  credentialUpdateMissReason (A := unit) id c db = (r, db') -> db' = db /\ r <> Ok tt.
Proof. intros Hm. by apply miss_outcome in Hm as (-> & ? & _). Qed.

Lemma UpdateCredentials_err id p db e db' :
  UpdateCredentials id p db = (Err e, db') -> untouched db db'.
Proof.
  unfold UpdateCredentials, mbind, M_bind, wrap_err, lift, interleave, fail, mret, M_ret.
  intros Hr. destruct (patch_shape p); [by simplify_eq|].
  destruct (eng_get _ db) as [[a|]|]; simpl in Hr; [|by simplify_eq..].
  destruct (String.eqb _ _); [by simplify_eq|]. destruct (negb _); [by simplify_eq|].
  destruct (is_api_key _);
    match type of Hr with context [eng_update ?p ?f ?d] => destruct (eng_update p f d) as [[n|e1] d1] eqn:Hu end;
    try (destruct (n =? 0) eqn:Hn; [|done]; apply miss_untouched in Hr as [-> _]; breflect);
    simplify_eq; (etransitivity; [apply (untouched_others 0)|]);
    try (etransitivity; [|apply untouched_others]);
    (eapply update_none; [|exact Hu|naive_solver]; done).
Qed.

(** A conditional status update hits the row only in the state it was decided
    on. *)
Lemma status_if_current id st t db r db' :
  UpdateStatusIfCurrent id st t db = (r, db') ->
  match r with
  | Ok _ => exists a u, eng_rows db !! id = Some a /\ Status a = AccountStatusActive
      /\ LastRefresh a = Some (eng_trunc t)
      /\ eng_rows db' !! id = Some (stored (a <| Status := st |>) <| UpdatedAt := u |>)
      /\ forall k, k <> id -> eng_rows db' !! k = eng_rows db !! k
  | Err _ => untouched db db'
  end.
Proof.
  unfold UpdateStatusIfCurrent, mbind, M_bind, wrap_err, lift, interleave, fail, mret, M_ret.
  destruct (eng_update _ _ db) as [[n|e] d] eqn:Hu; intros Hr.
  - destruct (n =? 0) eqn:Hn; breflect.
    + assert (untouched db d) as Hd.
      { eapply update_none; [|exact Hu|naive_solver]. done. }
      destruct (eng_get _ (others 0 d)) as [[a|]|]; simpl in Hr; simplify_eq;
        by (etransitivity; [exact Hd | apply untouched_others]).
    + simplify_eq. edestruct (update_one id) as (a & u & Ha & Hp & Hw & Hk);
        [| |exact Hu|done|]; [done| |].
      { intros a. rewrite !andb_true_iff, Z.eqb_eq. tauto. }
      exists a, u. rewrite !andb_true_iff in Hp. destruct Hp as [[_ Hs] Hl]. breflect.
      unfold last_refresh_is in Hl. apply bool_decide_eq_true in Hl. rewrite arg_conditional in Hl. done.
  - simplify_eq. eapply update_none; [|exact Hu|naive_solver]. done.
Qed.

(** The exchange with the provider failed with [err]. *)
Definition exchange_error (e : refresh_env) (acct : UpstreamAccount) (err : error) : Prop :=
  let answer := r_provider e (cloneBytes (RefreshToken acct)) (UseProxy acct) in
  answer = PError err
  \/ exists t cerr, answer = PTokens t /\ r_claims e (t_IDToken t) = Err cerr
       /\ err = invalid_response (r_text e cerr).

Definition permanent (err : error) : Prop := snd (refreshErrorCode err) = true.

(** The row of [acct] was rewritten by [f] from the very refresh the caller
    saw at [lr]; no other row changed. *)
Definition rewritten (acct : UpstreamAccount) (lr : time) (pre : UpstreamAccount -> Prop)
    (f : UpstreamAccount -> UpstreamAccount) (db db' : DB) : Prop :=
  exists a u, eng_rows db !! ID acct = Some a /\ pre a /\ LastRefresh a = Some (eng_trunc lr)
    /\ eng_rows db' !! ID acct = Some (stored (f a) <| UpdatedAt := u |>)
    /\ forall k, k <> ID acct -> eng_rows db' !! k = eng_rows db !! k.

Definition disabled_by (acct : UpstreamAccount) (lr : time) (db db' : DB) : Prop :=
  rewritten acct lr (fun a => Status a = AccountStatusActive)
    (fun a => a <| Status := AccountStatusDisabled |>) (others 10 db) db'.

Definition refreshed_by (e : refresh_env) (acct : UpstreamAccount) (lr : time) (tok : option string)
    (db db' : DB) : Prop :=
  exists t c, r_provider e (cloneBytes (RefreshToken acct)) (UseProxy acct) = PTokens t
    /\ r_claims e (t_IDToken t) = Ok c /\ tok = cloneBytes (t_AccessToken t)
    /\ rewritten acct lr (fun a => Status a <> AccountStatusDeleted)
         (write_oauth (refresh_patch e acct lr t c)) (others 0 (others 10 db)) db'.

(** A failed exchange: disabled or not, by the class of the error. *)
Lemma failure_run acct lr err db r db' :
  handleRefreshFailure acct lr err db = (r, db') ->
  (permanent err ->
     (r = Err err /\ rewritten acct lr (fun a => Status a = AccountStatusActive)
                       (fun a => a <| Status := AccountStatusDisabled |>) db db')
     \/ ((exists x, r = Err (store_error "disable account" x)) /\ untouched db db'))
  /\ (~ permanent err -> r = Ok (refreshTransientFallbackResult acct) /\ db' = db).
Proof.
  unfold handleRefreshFailure, permanent. intros Hr. destruct (snd (refreshErrorCode err)).
  - split; [|done]. intros _. unfold mbind, M_bind, wrap_err, fail in Hr.
    destruct (UpdateStatusIfCurrent _ _ _ db) as [[[]|x] d] eqn:Hs; simplify_eq.
    + left. split; [done|]. by apply status_if_current in Hs.
    + right. split; [eauto|]. by apply status_if_current in Hs.
  - split; [done|]. intros _. unfold mret, M_ret in Hr. by simplify_eq.
Qed.

Lemma flight_run e acct lr db r db' :
  is_oauth (AuthMethod acct) = true -> refresh_flight e acct lr db = (r, db') ->
  match r with
  | Ok res =>
      if usedFallback res then
        accessToken res = cloneBytes (AccessToken acct) /\ db' = others 10 db
        /\ exists err, exchange_error e acct err /\ ~ permanent err
      else refreshed_by e acct lr (accessToken res) db db'
  | Err err =>
      untouched db db' \/ (exchange_error e acct err /\ permanent err /\ disabled_by acct lr db db')
  end.
Proof.
  intros Ho Hr. unfold refresh_flight in Hr.
  unfold mbind, M_bind at 1, interleave in Hr.
  assert (forall err, exchange_error e acct err ->
            handleRefreshFailure acct lr err (others 10 db) = (r, db') ->
            match r with
            | Ok res =>
                if usedFallback res then
                  accessToken res = cloneBytes (AccessToken acct) /\ db' = others 10 db
                  /\ exists err, exchange_error e acct err /\ ~ permanent err
                else refreshed_by e acct lr (accessToken res) db db'
            | Err err =>
                untouched db db' \/ (exchange_error e acct err /\ permanent err /\ disabled_by acct lr db db')
            end) as Hfail.
  { intros err Hx Hh. destruct (failure_run _ _ _ _ _ _ Hh) as [Hp Ht].
    assert (permanent err \/ ~ permanent err) as [P|P]
      by (unfold permanent; destruct (snd (refreshErrorCode err)); auto).
    - destruct (Hp P) as [[-> Hd]|[[x ->] Hu]]; [right; done|]. left.
      etransitivity; [apply (untouched_others 10) | exact Hu].
    - destruct (Ht P) as [-> ->]. simpl. eauto. }
  destruct (r_provider e _ _) as [t|err|v] eqn:Hp.
  - destruct (r_claims e (t_IDToken t)) as [c|cerr] eqn:Hc.
    + unfold M_bind, wrap_err in Hr. 
      destruct (UpdateCredentials _ _ (others 10 db)) as [[[]|x] d] eqn:Hu; simplify_eq.
      * unfold mret, M_ret in Hr. simplify_eq. simpl.
        edestruct refresh_won as (a & u & ?); [| |exact Hu|]; [reflexivity|exact Ho|].
        exists t, c. repeat split; try done. exists a, u. tauto.
      * left. etransitivity; [apply (untouched_others 10) | by eapply UpdateCredentials_err].
    + apply (Hfail (invalid_response (r_text e cerr))); [|done]. right. eauto.
  - apply (Hfail err); [by left | done].
  - unfold fail in Hr. simplify_eq. left. apply untouched_others.
Qed.

Lemma cloneBytes_idem b : cloneBytes (cloneBytes b) = cloneBytes b.
Proof.
  destruct b as [s|]; [|done]. unfold cloneBytes at 2. destruct (lenZ s =? 0) eqn:E; [by unfold cloneBytes; rewrite E|].
  done.
Qed.

(** An account [RefreshIfStale] refreshes: a valid OAuth row with its times in
    order, last refreshed at [lr] and due at [due]. *)
Definition refreshable (acct : UpstreamAccount) (lr due : time) : Prop :=
  0 < ID acct /\ is_oauth (AuthMethod acct) = true /\ Validate (Some acct) = None
  /\ refresh_due acct = Ok (lr, due).

Lemma once_run e acct lr due db :
  refreshable acct lr due ->
  refreshIfStaleOnce e (Some acct) db =
    if r_now e <=? due then (Ok (cloneBytes (AccessToken acct), false), db)
    else (res ← match r_join e with
                | Some r => lift (fun _ => r)
                | None => refresh_flight e acct lr
                end;
          mret (cloneBytes (accessToken res), usedFallback res)) db.
Proof.
  intros (Hid & Ho & Hv & Hd). unfold refreshIfStaleOnce.
  destruct (ID acct <=? 0) eqn:E; breflect; [lia|].
  assert (is_api_key (AuthMethod acct) = false) as -> by (apply String.eqb_neq, oauth_not_api; done).
  rewrite Ho, Hv. simpl negb. cbn iota. unfold mbind at 1, M_bind at 1, lift at 1. rewrite Hd. cbn iota.
  unfold After. rewrite <- Z.leb_antisym. by destruct (r_now e <=? due).
Qed.


(** *** Losing a race *)

Lemma lost_credentials id p t a db r db' :
  quiet -> no_db_errors (DB := DB) -> patch_shape p = None -> cp_ExpectedLastRefresh p = Some t ->
  is_oauth (cp_AuthMethod p) = true -> eng_rows db !! id = Some a -> Validate (Some a) = None ->
  AuthMethod a = cp_AuthMethod p -> Status a = AccountStatusActive -> LastRefresh a <> Some (eng_trunc t) ->
  UpdateCredentials id p db = (r, db') -> is_conflict r /\ eng_rows db' = eng_rows db.
Proof.
  intros Hq [Hget Hupd] Hp He Ho Ha Hv Hm Hs Hl Hr.
  assert (is_conflict r) as Hcf; [|split; [done|]].
  2:{ unfold is_conflict in Hcf. subst r. apply untouched_quiet; [done|]. by eapply UpdateCredentials_err. }
  unfold UpdateCredentials in Hr. rewrite Hp, He in Hr.
  assert (is_api_key (cp_AuthMethod p) = false) as Hk by (apply String.eqb_neq, oauth_not_api; done).
  unfold mbind, M_bind, wrap_err, lift, interleave, fail, mret, M_ret in Hr. rewrite Hk in Hr.
  destruct (Hget (by_id id) db) as [o Hg]. rewrite Hg in Hr.
  apply get_by_id in Hg. rewrite Ha in Hg. subst o. cbn [fmap option_fmap option_map] in Hr.
  change (Status (cols_auth_status a)) with (Status a) in Hr.
  change (storedMethod (cols_auth_status a)) with (storedMethod a) in Hr.
  rewrite (storedMethod_valid a Hv), Hm, String.eqb_refl, Hs in Hr. cbn [negb] in Hr.
  change (String.eqb AccountStatusActive AccountStatusDeleted) with false in Hr. cbn beta iota in Hr.
  match type of Hr with context [eng_update ?p ?f ?d] => destruct (Hupd p f d) as (n & d1 & Hu); rewrite Hu in Hr end.
  destruct (update_ok (refresh_cond id t) (write_oauth p) _ _ _ (fun a => eq_refl) Hu) as (_ & Hn0 & Hz & Hex).
  assert (n = 0) as ->.
  { destruct (decide (n = 0)) as [|Hn]; [done|]. exfalso. destruct Hex as (k & b & Hb & Hpb); [lia|].
    apply (refresh_cond_true id t) in Hpb as (Hid & _ & Hlb).
    pose proof (rows_id _ _ _ Hb) as Hkb. rewrite Hq in Hb. congruence. }
  simpl in Hr. specialize (Hz eq_refl).
  unfold credentialUpdateMissReason, mbind, M_bind, wrap_err, lift, fail in Hr.
  destruct (Hget (by_id id) (others 1 d1)) as [o Hg]. rewrite Hg in Hr. apply get_by_id in Hg.
  rewrite Hq, Hz, Hq, Ha in Hg. subst o. cbn [fmap option_fmap option_map] in Hr.
  change (Status (cols_auth_status a)) with (Status a) in Hr. rewrite Hs in Hr.
  change (String.eqb AccountStatusActive AccountStatusDeleted) with false in Hr. cbn in Hr. unfold is_conflict. by simplify_eq.
Qed.

Lemma lost_status id st t a db r db' :
  quiet -> no_db_errors (DB := DB) -> eng_rows db !! id = Some a -> LastRefresh a <> Some (eng_trunc t) ->
  UpdateStatusIfCurrent id st t db = (r, db') -> is_conflict r /\ eng_rows db' = eng_rows db.
Proof.
  intros Hq [Hget Hupd] Ha Hl Hr. pose proof (status_if_current _ _ _ _ _ _ Hr) as Hs.
  destruct r as [u|e]; [destruct Hs as (b & v & Hb & _ & Hlb & _); congruence|].
  split; [|by apply untouched_quiet].
  unfold UpdateStatusIfCurrent, mbind, M_bind, wrap_err, lift, interleave, fail, mret, M_ret in Hr.
  match type of Hr with context [eng_update ?p ?f ?d] => destruct (Hupd p f d) as (n & d1 & Hu); rewrite Hu in Hr end.
  destruct (n =? 0) eqn:Hn; [|done]. breflect. subst n.
  match type of Hu with eng_update ?p ?f _ = _ => destruct (update_ok p f _ _ _ (fun a => eq_refl) Hu) as (_ & _ & Hz & _) end.
  destruct (Hget (by_id id) (others 0 d1)) as [o Hg]. rewrite Hg in Hr. apply get_by_id in Hg.
  rewrite Hq, (Hz eq_refl), Ha in Hg. subst o. by simplify_eq.
Qed.

(** The provider answered with a complete token bundle. *)
Definition exchange_good (e : refresh_env) (acct : UpstreamAccount) (t : Tokens) (c : Claims) : Prop :=
  r_provider e (cloneBytes (RefreshToken acct)) (UseProxy acct) = PTokens t
  /\ r_claims e (t_IDToken t) = Ok c
  /\ bytes_len (t_AccessToken t) <> 0 /\ bytes_len (t_RefreshToken t) <> 0 /\ bytes_len (t_IDToken t) <> 0.

Lemma bytes_len_clone b : bytes_len (cloneBytes b) = bytes_len b.
Proof.
  destruct b as [s|]; [|done]. unfold cloneBytes. destruct (lenZ s =? 0) eqn:E; [|done]. breflect. done.
Qed.

Lemma refresh_patch_shape e acct lr t c :
  is_oauth (AuthMethod acct) = true -> exchange_good e acct t c ->
  patch_shape (refresh_patch e acct lr t c) = None.
Proof.
  intros Ho (_ & _ & Ha & Hr & Hi). unfold patch_shape.
  cbn [refresh_patch cp_AuthMethod cp_APIKey cp_AccessToken cp_RefreshToken cp_IDToken cp_LastRefresh cp_AccessExpiresAt].
  assert (is_api_key (AuthMethod acct) = false) as -> by (apply String.eqb_neq, oauth_not_api; done).
  rewrite Ho, !bytes_len_clone. apply Z.eqb_neq in Ha, Hr, Hi. by rewrite Ha, Hr, Hi.
Qed.

(** The row has moved on from the refresh the caller saw. *)
Definition moved_on (acct : UpstreamAccount) (lr : time) (a : UpstreamAccount) (db : DB) : Prop :=
  eng_rows db !! ID acct = Some a /\ Validate (Some a) = None /\ AuthMethod a = AuthMethod acct
  /\ Status a = AccountStatusActive /\ LastRefresh a <> Some (eng_trunc lr).

Lemma flight_lost e acct lr a db r db' :
  quiet -> no_db_errors (DB := DB) -> is_oauth (AuthMethod acct) = true -> moved_on acct lr a db ->
  (exists err, exchange_error e acct err /\ permanent err) \/ (exists t c, exchange_good e acct t c) ->
  refresh_flight e acct lr db = (r, db') ->
  r = Err (Sentinel errConcurrentRefreshConflict) /\ eng_rows db' = eng_rows db.
Proof.
  intros Hq Hne Ho (Ha & Hv & Hm & Hs & Hl) Hx Hr.
  pose proof (Hq 10%nat db) as H10. rewrite <- H10 in Ha.
  unfold refresh_flight, mbind, M_bind at 1, interleave in Hr.
  destruct Hx as [(err & Herr & Hp)|(t & c & Hg)].
  - assert (handleRefreshFailure acct lr err (others 10 db) = (r, db')) as Hf.
    { destruct Herr as [E|(t & ce & E & Ec & ->)]; rewrite E in Hr; [|rewrite Ec in Hr]; done. }
    unfold handleRefreshFailure in Hf. rewrite Hp in Hf. unfold mbind, M_bind, wrap_err, fail in Hf.
    destruct (UpdateStatusIfCurrent _ _ _ _) as [x d] eqn:E.
    destruct (lost_status _ _ _ _ _ _ _ Hq Hne Ha Hl E) as [Hc Hrows].
    unfold is_conflict in Hc. subst x. simplify_eq/=. by rewrite Hrows, H10.
  - pose proof Hg as (Hp & Hc & _). rewrite Hp, Hc in Hr. unfold M_bind, wrap_err in Hr.
    destruct (UpdateCredentials _ _ _) as [x d] eqn:E.
    destruct (lost_credentials (ID acct) (refresh_patch e acct lr t c) lr a (others 10 db) x d) as [Hcf Hrows];
      try done; [by apply refresh_patch_shape|].
    unfold is_conflict in Hcf. subst x. simplify_eq/=. by rewrite Hrows, H10.
Qed.

(** At most two attempts, whatever happens. *)
Lemma refresh_loop_bound n e acct db : refresh_loop (2 + n) 0 e acct db = RefreshIfStale e acct db.
Proof.
  unfold RefreshIfStale. cbn [refresh_loop Nat.add].
  destruct (refreshIfStaleOnce (e 0%nat) acct db) as [[x|err] d]; [done|].
  destruct (negb _); [done|]. cbn [Nat.ltb Nat.leb].
  destruct (reloadRefreshConflictAccount _ d) as [[latest|x] d2]; [|done].
  destruct (refreshIfStaleOnce (e 1%nat) (Some latest) d2) as [[x|x] d3]; [done|].
  by destruct (negb _).
Qed.


End Outcomes.
