(* ===== verification/GoHTTP.v ===== *)
(** * GoHTTP: the parts of net/http and strings the gateway uses

    Header keys and their canonical form, [http.Header], case-insensitive
    comparison, trimming.  An [http.Header] is an association list in the
    order in which the map would be ranged over; Go leaves that order open, so
    theorems hold for every list. *)

From S2P Require Import Prelude GoLib.

(** ** [strings] *)

Fixpoint TrimLeftByte (c : ascii) (s : string) : string :=
  match s with
  | String a s' => if Ascii.eqb a c then TrimLeftByte c s' else s
  | EmptyString => EmptyString
  end.

(** Drop the trailing [c]s. *)
Fixpoint TrimRightByte (c : ascii) (s : string) : string :=
  match s with
  | EmptyString => EmptyString
  | String a s' =>
      match TrimRightByte c s' with
      | EmptyString => if Ascii.eqb a c then EmptyString else String a EmptyString
      | t => String a t
      end
  end.

Definition TrimByte (c : ascii) (s : string) : string := TrimRightByte c (TrimLeftByte c s).

(** [strings.EqualFold] against ASCII text: the only other runes that fold to
    an ASCII letter are U+017F (to s) and U+212A (to k). *)
Definition fold_rune (p : Z * string) : string :=
  if fst p =? 0x17F then "s" else if fst p =? 0x212A then "k" else ToLowerASCII (snd p).

Definition EqualFold (s t : string) : bool :=
  String.eqb (concat_bytes ((fun p => (fst p, fold_rune p)) <$> runes s)) (ToLowerASCII t).

(** ** Header keys *)

Definition is_alpha_lower (a : ascii) : bool := (97 <=? byteZ a) && (byteZ a <=? 122).
Definition is_alpha_upper (a : ascii) : bool := (65 <=? byteZ a) && (byteZ a <=? 90).
Definition is_digit (a : ascii) : bool := (48 <=? byteZ a) && (byteZ a <=? 57).

Fixpoint all_bytes (p : ascii -> bool) (s : string) : bool :=
  match s with EmptyString => true | String a s' => p a && all_bytes p s' end.

Lemma all_bytes_app p a b : all_bytes p (a +:+ b) = all_bytes p a && all_bytes p b.
Proof.
  induction a as [|x a IH]; [done|].
  change (String x a +:+ b) with (String x (a +:+ b)). cbn [all_bytes]. by rewrite IH, andb_assoc.
Qed.

(** RFC 7230 token bytes. *)
Definition token_byte (a : ascii) : bool :=
  is_alpha_lower a || is_alpha_upper a || is_digit a
  || (match IndexByte "!#$%&'*+-.^_`|~" a with Some _ => true | None => false end).

Fixpoint canonical_bytes (upper : bool) (s : string) : string :=
  match s with
  | EmptyString => EmptyString
  | String a s' =>
      let a := if upper && is_alpha_lower a then Zbyte (byteZ a - 32)
               else if negb upper && is_alpha_upper a then Zbyte (byteZ a + 32) else a in
      String a (canonical_bytes (Ascii.eqb a "-"%char) s')
  end.

Definition CanonicalHeaderKey (s : string) : string :=
  if all_bytes token_byte s then canonical_bytes true s else s.

(** ** [http.Header] *)

Definition Header := list (string * list string).

Definition Values (h : Header) (key : string) : list string :=
  match List.find (fun kv => String.eqb (fst kv) (CanonicalHeaderKey key)) h with
  | Some kv => snd kv
  | None => []
  end.

Definition Get (h : Header) (key : string) : string := hd "" (Values h key).

(** Replace the values of a key, or append the key. *)
Fixpoint set_key (h : Header) (k : string) (f : list string -> list string) : Header :=
  match h with
  | [] => [(k, f [])]
  | kv :: h => if String.eqb (fst kv) k then (k, f (snd kv)) :: h else kv :: set_key h k f
  end.

Definition HeaderSet (h : Header) (key value : string) : Header :=
  set_key h (CanonicalHeaderKey key) (fun _ => [value]).
Definition HeaderAdd (h : Header) (key value : string) : Header :=
  set_key h (CanonicalHeaderKey key) (fun vs => vs ++ [value]).
Definition HeaderDel (h : Header) (key : string) : Header :=
  List.filter (fun kv => negb (String.eqb (fst kv) (CanonicalHeaderKey key))) h.

(** ** Lemmas *)

Lemma find_set_key h k f j :
  List.find (fun kv => String.eqb (fst kv) j) (set_key h k f) =
    if String.eqb k j
    then Some (k, f (match List.find (fun kv => String.eqb (fst kv) k) h with Some kv => snd kv | None => [] end))
    else List.find (fun kv => String.eqb (fst kv) j) h.
Proof.
  induction h as [|[a vs] h IH]; cbn [set_key List.find fst snd].
  - by destruct (String.eqb k j).
  - destruct (String.eqb_spec a k) as [->|Ha]; cbn [List.find fst snd].
    + by destruct (String.eqb k j).
    + rewrite IH. destruct (String.eqb_spec a j) as [->|]; [|by destruct (String.eqb k j)].
      destruct (String.eqb_spec k j); [congruence | done].
Qed.

Lemma Values_Set h k v j :
  Values (HeaderSet h k v) j =
    if String.eqb (CanonicalHeaderKey k) (CanonicalHeaderKey j) then [v] else Values h j.
Proof. unfold Values, HeaderSet. rewrite find_set_key. by destruct (String.eqb _ _). Qed.

Lemma Values_Add h k v j :
  Values (HeaderAdd h k v) j =
    if String.eqb (CanonicalHeaderKey k) (CanonicalHeaderKey j) then Values h k ++ [v] else Values h j.
Proof. unfold Values, HeaderAdd. rewrite find_set_key. by destruct (String.eqb _ _). Qed.

Example CanonicalHeaderKey_ex :
  CanonicalHeaderKey "chatgpt-account-id" = "Chatgpt-Account-Id"
  /\ CanonicalHeaderKey "X-REQUEST-id" = "X-Request-Id" /\ CanonicalHeaderKey "a b" = "a b".
Proof. repeat split; reflexivity. Qed.

Example EqualFold_ex : EqualFold "WebSocKet" "websocket" = true /\ EqualFold "web" "websocket" = false.
Proof. split; reflexivity. Qed.

(** ** Canonical keys and lower case *)

Lemma byte_range a : 0 <= byteZ a < 256.
Proof. unfold byteZ. pose proof (N_ascii_bounded a). lia. Qed.

Lemma Zbyte_byteZ a : Zbyte (byteZ a) = a.
Proof. unfold Zbyte, byteZ. rewrite N2Z.id. apply ascii_N_embedding. Qed.

Lemma byteZ_Zbyte z : 0 <= z < 256 -> byteZ (Zbyte z) = z.
Proof. intros Hz. unfold Zbyte, byteZ. rewrite N_ascii_embedding by lia. rewrite Z2N.id by lia. done. Qed.

Lemma ToLowerASCII_canonical u s : ToLowerASCII (canonical_bytes u s) = ToLowerASCII s.
Proof.
  revert u. induction s as [|a s IH]; intros u; [done|].
  change (canonical_bytes u (String a s)) with
    (let a' := if u && is_alpha_lower a then Zbyte (byteZ a - 32)
               else if negb u && is_alpha_upper a then Zbyte (byteZ a + 32) else a in
     String a' (canonical_bytes (Ascii.eqb a' "-"%char) s)).
  cbv zeta. cbn [ToLowerASCII]. rewrite IH. f_equal.
  pose proof (byte_range a). unfold is_alpha_lower, is_alpha_upper.
  destruct (u && _) eqn:E1; [|destruct (negb u && _) eqn:E2; [|done]]; breflect;
    unfold lower_byte; rewrite byteZ_Zbyte by lia.
  - rewrite (proj2 (Z.leb_le 65 (byteZ a - 32))) by lia. rewrite (proj2 (Z.leb_le (byteZ a - 32) 90)) by lia.
    rewrite (proj2 (Z.leb_gt (byteZ a) 90)) by lia. rewrite andb_false_r. simpl.
    replace (byteZ a - 32 + 32) with (byteZ a) by lia. apply Zbyte_byteZ.
  - rewrite (proj2 (Z.leb_gt (byteZ a + 32) 90)) by lia. rewrite andb_false_r.
    rewrite (proj2 (Z.leb_le 65 (byteZ a))) by lia. rewrite (proj2 (Z.leb_le (byteZ a) 90)) by lia. done.
Qed.

Definition ascii_str (s : string) : bool := all_bytes (fun a => byteZ a <? 0x80) s.

Lemma ToLower_ascii s : ascii_str s = true -> ToLower s = ToLowerASCII s.
Proof.
  unfold ascii_str, ToLower. induction s as [|a s IH]; [done|]. cbn [all_bytes]. intros Hs. breflect.
  cbn [runes]. pose proof (byte_range a). rewrite (proj2 (Z.ltb_lt (byteZ a) 0x80)) by done.
  cbn [fmap list_fmap fst snd]. rewrite concat_bytes_cons, IH by done.
  destruct (byteZ a =? 0x212A) eqn:E1; breflect; [lia|].
  destruct (byteZ a =? 0x130) eqn:E2; breflect; [lia|]. done.
Qed.

Lemma token_byte_ascii a : token_byte a = true -> (byteZ a <? 0x80) = true.
Proof.
  destruct (byteZ a <? 0x80) eqn:E; [done|]. breflect. unfold token_byte, is_alpha_lower, is_alpha_upper, is_digit.
  rewrite (proj2 (Z.leb_gt (byteZ a) 122)), (proj2 (Z.leb_gt (byteZ a) 90)), (proj2 (Z.leb_gt (byteZ a) 57)) by lia.
  rewrite !andb_false_r. cbn [orb].
  assert (forall s, ascii_str s = true -> IndexByte s a = None) as Hn; [|by rewrite Hn].
  intros s. unfold ascii_str. induction s as [|b s IH]; [done|]. cbn [all_bytes IndexByte]. intros Hs. breflect.
  destruct (Ascii.eqb_spec b a) as [->|]; [lia|]. by rewrite IH.
Qed.

Lemma all_bytes_impl p q s : (forall a, p a = true -> q a = true) -> all_bytes p s = true -> all_bytes q s = true.
Proof.
  intros Hpq. induction s as [|a s IH]; [done|]. cbn [all_bytes]. intros H. breflect.
  rewrite Hpq by done. by apply IH.
Qed.

Lemma canonical_ascii u s : ascii_str s = true -> ascii_str (canonical_bytes u s) = true.
Proof.
  unfold ascii_str. revert u. induction s as [|a s IH]; intros u; [done|]. cbn [all_bytes]. intros Hs. breflect.
  change (canonical_bytes u (String a s)) with
    (let a' := if u && is_alpha_lower a then Zbyte (byteZ a - 32)
               else if negb u && is_alpha_upper a then Zbyte (byteZ a + 32) else a in
     String a' (canonical_bytes (Ascii.eqb a' "-"%char) s)).
  cbv zeta. cbn [all_bytes]. rewrite IH by done. rewrite andb_true_r. apply Z.ltb_lt.
  pose proof (byte_range a). unfold is_alpha_lower, is_alpha_upper.
  destruct (u && _) eqn:E1; [|destruct (negb u && _) eqn:E2; [|done]]; breflect; rewrite byteZ_Zbyte; lia.
Qed.

(** Canonicalisation only changes case. *)
Lemma ToLower_canonical s : ToLower (CanonicalHeaderKey s) = ToLower s.
Proof.
  unfold CanonicalHeaderKey. destruct (all_bytes token_byte s) eqn:E; [|done].
  assert (ascii_str s = true) as Ha by (exact (all_bytes_impl _ _ _ token_byte_ascii E)).
  rewrite !ToLower_ascii; [apply ToLowerASCII_canonical | done | by apply canonical_ascii].
Qed.

(** ** Copying headers *)

Definition add_all (dst : Header) (kv : string * list string) : Header :=
  fold_left (fun h v => HeaderAdd h (fst kv) v) (snd kv) dst.
Definition copy_where (keep : string -> bool) (dst src : Header) : Header :=
  fold_left (fun h kv => if keep (fst kv) then add_all h kv else h) src dst.

Lemma Values_add_all dst kv k :
  CanonicalHeaderKey (fst kv) <> CanonicalHeaderKey k -> Values (add_all dst kv) k = Values dst k.
Proof.
  intros Hk. unfold add_all. revert dst. induction (snd kv) as [|v vs IH]; intros dst; [done|].
  cbn [fold_left]. rewrite IH, Values_Add. by apply String.eqb_neq in Hk as ->.
Qed.

Lemma Values_copy_where keep dst src k :
  (forall kv, kv ∈ src -> keep (fst kv) = true -> CanonicalHeaderKey (fst kv) <> CanonicalHeaderKey k) ->
  Values (copy_where keep dst src) k = Values dst k.
Proof.
  unfold copy_where. revert dst. induction src as [|kv src IH]; intros dst Hs; [done|]. cbn [fold_left].
  rewrite IH by (intros kv' Hin; apply Hs; by right). destruct (keep (fst kv)) eqn:E; [|done].
  apply Values_add_all, Hs; [by left | done].
Qed.
