(* ===== verification/GoJSON.v ===== *)
(** * GoJSON: encoding/json and strconv as far as the router uses them

    JSON documents ([json]), the decoder's syntax ([json_parse]: whitespace,
    literals, numbers, strings with escapes and UTF-8 coercion, nesting limit)
    and the encoder ([Marshal], [MarshalIndent]: HTML-safe escapes, fields in
    order).  Decoding into Go types is [dec_*].  The main lemma is
    [json_parse_print]: what is printed is read back. *)

From S2P Require Import Prelude GoLib GoHTTP.
From Stdlib Require Import DecimalString DecimalZ.

(** ** [strconv] *)

Definition Itoa (z : Z) : string := NilZero.string_of_int (Z.to_int z).

Definition in_int64 (z : Z) : option Z :=
  if (MinInt64 <=? z) && (z <=? MaxInt64) then Some z else None.

(** [strconv.Atoi]: an optional sign and at least one digit, within int64. *)
Definition Atoi (s : string) : option Z :=
  match s with
  | String "-" t => u ← NilZero.uint_of_string t; in_int64 (- Z.of_uint u)
  | String "+" t => u ← NilZero.uint_of_string t; in_int64 (Z.of_uint u)
  | _ => u ← NilZero.uint_of_string s; in_int64 (Z.of_uint u)
  end.

(** ** Documents *)

Inductive json :=
  | JNull
  | JBool (b : bool)
  | JNum (lit : string)
  | JStr (s : string)
  | JArr (l : list json)
  | JObj (l : list (string * json)).

(** The nesting depth counted by the decoder: one per array or object. *)
Fixpoint depth (v : json) : nat :=
  match v with
  | JArr l => S (foldr (fun x n => Nat.max (depth x) n) O l)
  | JObj l => S (foldr (fun '(_, x) n => Nat.max (depth x) n) O l)
  | _ => O
  end.

(** ** Strings *)

Definition dquote : ascii := "034"%char.
Definition backslash : ascii := "092"%char.

Definition hex_val (r : Z) : option Z :=
  if (48 <=? r) && (r <=? 57) then Some (r - 48)
  else if (97 <=? r) && (r <=? 102) then Some (r - 87)
  else if (65 <=? r) && (r <=? 70) then Some (r - 55)
  else None.

Definition hex_digit (n : Z) : ascii := Zbyte (if n <? 10 then 48 + n else 87 + n).

Definition is_hex (a : ascii) : bool := match hex_val (byteZ a) with Some _ => true | None => false end.

(** The byte an escape letter stands for ([b f n r t] and the three bytes
    that stand for themselves). *)
Definition simple_escape (e : Z) : option Z :=
  if (e =? 34) || (e =? 92) || (e =? 47) then Some e
  else if e =? 98 then Some 8
  else if e =? 102 then Some 12
  else if e =? 110 then Some 10
  else if e =? 114 then Some 13
  else if e =? 116 then Some 9
  else None.

(** The scanner: the bytes of a string literal up to its closing quote, and
    what follows it. *)
Fixpoint scan_string (s : string) : option (string * string) :=
  match s with
  | EmptyString => None
  | String c t =>
      if Ascii.eqb c dquote then Some ("", t)
      else if Ascii.eqb c backslash then
        match t with
        | String e u =>
            if byteZ e =? 117 then
              match u with
              | String h1 (String h2 (String h3 (String h4 w))) =>
                  if is_hex h1 && is_hex h2 && is_hex h3 && is_hex h4
                  then p ← scan_string w;
                       Some (String c (String e (String h1 (String h2 (String h3
                               (String h4 (fst p)))))), snd p)
                  else None
              | _ => None
              end
            else match simple_escape (byteZ e) with
                 | Some _ => p ← scan_string u; Some (String c (String e (fst p)), snd p)
                 | None => None
                 end
        | EmptyString => None
        end
      else if byteZ c <? 0x20 then None
      else p ← scan_string t; Some (String c (fst p), snd p)
  end.

(** [unquoteBytes], in two passes over the runes of the literal: escapes are
    read, then surrogate pairs are joined. *)
Inductive sunit := UBytes (b : string) | UCode (z : Z).

Definition replacement : string := String "239" (String "191" (String "189" "")).

Definition bad_rune (p : Z * string) : bool :=
  (fst p =? RuneError) && (String.length (snd p) =? 1)%nat.

Definition hex4 (a b c d : Z) : option Z :=
  a ← hex_val a; b ← hex_val b; c ← hex_val c; d ← hex_val d;
  Some (a * 4096 + b * 256 + c * 16 + d).

Fixpoint units (l : list (Z * string)) : option (list sunit) :=
  match l with
  | [] => Some []
  | (r, b) :: l1 =>
      if r =? 92 then
        match l1 with
        | (e, _) :: l2 =>
            if e =? 117 then
              match l2 with
              | (h1, _) :: (h2, _) :: (h3, _) :: (h4, _) :: l3 =>
                  z ← hex4 h1 h2 h3 h4; us ← units l3; Some (UCode z :: us)
              | _ => None
              end
            else z ← simple_escape e; us ← units l2;
                 Some (UBytes (String (Zbyte z) "") :: us)
        | [] => None
        end
      else us ← units l1;
           Some (UBytes (if bad_rune (r, b) then replacement else b) :: us)
  end.

(** [utf8.EncodeRune]. *)
Definition EncodeRune (r : Z) : string :=
  let b := fun z => Zbyte z in
  if r <? 0x80 then String (b r) ""
  else if r <? 0x800 then
    String (b (0xC0 + r / 64)) (String (b (0x80 + r mod 64)) "")
  else if (0x10FFFF <? r) || ((0xD800 <=? r) && (r <=? 0xDFFF)) then replacement
  else if r <? 0x10000 then
    String (b (0xE0 + r / 4096)) (String (b (0x80 + r / 64 mod 64))
      (String (b (0x80 + r mod 64)) ""))
  else
    String (b (0xF0 + r / 262144)) (String (b (0x80 + r / 4096 mod 64))
      (String (b (0x80 + r / 64 mod 64)) (String (b (0x80 + r mod 64)) ""))).

Definition hi_surrogate (z : Z) : bool := (0xD800 <=? z) && (z <? 0xDC00).
Definition lo_surrogate (z : Z) : bool := (0xDC00 <=? z) && (z <? 0xE000).

Fixpoint join_units (us : list sunit) : string :=
  match us with
  | [] => ""
  | UBytes b :: us1 => b +:+ join_units us1
  | UCode z :: us1 =>
      match us1 with
      | UCode y :: us2 =>
          if hi_surrogate z && lo_surrogate y
          then EncodeRune (0x10000 + (z - 0xD800) * 1024 + (y - 0xDC00)) +:+ join_units us2
          else EncodeRune z +:+ join_units us1
      | _ => EncodeRune z +:+ join_units us1
      end
  end.

Definition unquote (raw : string) : option string := join_units <$> units (runes raw).

(** The encoder's string ([appendString] with HTML escaping). *)
Definition u00 (r : Z) : string :=
  "\u00" +:+ String (hex_digit (r / 16)) (String (hex_digit (r mod 16)) "").

Definition esc_rune (p : Z * string) : string :=
  let '(r, b) := p in
  if r <? 0x80 then
    if (r =? 34) || (r =? 92) then String backslash b
    else if r =? 8 then "\b" else if r =? 12 then "\f" else if r =? 10 then "\n"
    else if r =? 13 then "\r" else if r =? 9 then "\t"
    else if (r <? 0x20) || (r =? 60) || (r =? 62) || (r =? 38) then u00 r
    else b
  else if bad_rune p then "\ufffd"
  else if r =? 0x2028 then "\u2028" else if r =? 0x2029 then "\u2029"
  else b.

Definition quote_body (s : string) : string :=
  foldr (fun p acc => esc_rune p +:+ acc) "" (runes s).
Definition quote (s : string) : string :=
  String dquote (quote_body s +:+ String dquote "").

(** The strings the encoder does not alter. *)
Definition valid_utf8 (s : string) : bool := forallb (fun p => negb (bad_rune p)) (runes s).

(** ** Numbers *)

Fixpoint span_digits (s : string) : string * string :=
  match s with
  | String c t => if is_digit c then let '(d, r) := span_digits t in (String c d, r) else ("", s)
  | EmptyString => ("", "")
  end.

Definition scan_int (s : string) : option (string * string) :=
  match s with
  | String c t =>
      if Ascii.eqb c "0" then Some ("0", t)
      else if is_digit c then let '(d, r) := span_digits t in Some (String c d, r)
      else None
  | EmptyString => None
  end.

Definition scan_frac (s : string) : option (string * string) :=
  match s with
  | String c t =>
      if Ascii.eqb c "." then
        let '(d, r) := span_digits t in
        if String.eqb d "" then None else Some (String c d, r)
      else Some ("", s)
  | EmptyString => Some ("", s)
  end.

(** An optional sign out of the given ones. *)
Definition scan_sign (minus_only : bool) (s : string) : string * string :=
  match s with
  | String c t =>
      if Ascii.eqb c "-" || (negb minus_only && Ascii.eqb c "+") then (String c "", t) else ("", s)
  | EmptyString => ("", s)
  end.

Definition scan_exp (s : string) : option (string * string) :=
  match s with
  | String c t =>
      if Ascii.eqb c "e" || Ascii.eqb c "E" then
        let '(sg, t1) := scan_sign false t in
        let '(d, r) := span_digits t1 in
        if String.eqb d "" then None else Some (String c (sg +:+ d), r)
      else Some ("", s)
  | EmptyString => Some ("", s)
  end.

Definition scan_number (s : string) : option (string * string) :=
  let '(sg, s1) := scan_sign true s in
  i ← scan_int s1; f ← scan_frac (snd i); e ← scan_exp (snd f);
  Some (sg +:+ fst i +:+ fst f +:+ fst e, snd e).

Definition valid_number (lit : string) : bool :=
  match scan_number lit with Some (l, "") => String.eqb l lit | _ => false end.

(** ** The decoder's syntax *)

Definition is_ws (c : ascii) : bool :=
  Ascii.eqb c " " || Ascii.eqb c "009" || Ascii.eqb c "010" || Ascii.eqb c "013".

Fixpoint skip_ws (s : string) : string :=
  match s with
  | String c t => if is_ws c then skip_ws t else s
  | EmptyString => ""
  end.

Section containers.
Context (value : string -> option (json * string)).

Fixpoint parse_elems (n : nat) (s : string) : option (list json * string) :=
  match n with
  | O => None
  | S n' =>
      p ← value s;
      match skip_ws (snd p) with
      | String "," t => q ← parse_elems n' (skip_ws t); Some (fst p :: fst q, snd q)
      | String "]" t => Some ([fst p], t)
      | _ => None
      end
  end.

Definition parse_member (s : string) : option ((string * json) * string) :=
  match s with
  | String c t =>
      if Ascii.eqb c dquote then
        k ← scan_string t; key ← unquote (fst k);
        match skip_ws (snd k) with
        | String ":" u => p ← value (skip_ws u); Some ((key, fst p), snd p)
        | _ => None
        end
      else None
  | EmptyString => None
  end.

Fixpoint parse_members (n : nat) (s : string) : option (list (string * json) * string) :=
  match n with
  | O => None
  | S n' =>
      p ← parse_member s;
      match skip_ws (snd p) with
      | String "," t => q ← parse_members n' (skip_ws t); Some (fst p :: fst q, snd q)
      | String "}" t => Some ([fst p], t)
      | _ => None
      end
  end.

Definition parse_array (s : string) : option (json * string) :=
  match skip_ws s with
  | String c t =>
      if Ascii.eqb c "]" then Some (JArr [], t)
      else p ← parse_elems (String.length s) (String c t); Some (JArr (fst p), snd p)
  | EmptyString => None
  end.

Definition parse_object (s : string) : option (json * string) :=
  match skip_ws s with
  | String c t =>
      if Ascii.eqb c "}" then Some (JObj [], t)
      else p ← parse_members (String.length s) (String c t); Some (JObj (fst p), snd p)
  | EmptyString => None
  end.
End containers.

Definition literal (lit : string) (v : json) (s : string) : option (json * string) :=
  if HasPrefix s lit then Some (v, drop_str (String.length lit) s) else None.

(** [d] is the nesting that is still allowed. *)
Fixpoint parse_value (d : nat) (s : string) : option (json * string) :=
  match s with
  | EmptyString => None
  | String c t =>
      if Ascii.eqb c dquote then
        k ← scan_string t; u ← unquote (fst k); Some (JStr u, snd k)
      else if Ascii.eqb c "[" then
        match d with O => None | S d' => parse_array (parse_value d') t end
      else if Ascii.eqb c "{" then
        match d with O => None | S d' => parse_object (parse_value d') t end
      else if Ascii.eqb c "n" then literal "null" JNull s
      else if Ascii.eqb c "t" then literal "true" (JBool true) s
      else if Ascii.eqb c "f" then literal "false" (JBool false) s
      else p ← scan_number s; Some (JNum (fst p), snd p)
  end.

Definition maxNestingDepth : nat := Z.to_nat 10000.

(** One document and nothing after it ([json.Unmarshal], [json.Valid]). *)
Definition json_parse (s : string) : option json :=
  p ← parse_value maxNestingDepth (skip_ws s);
  if String.eqb (skip_ws (snd p)) "" then Some (fst p) else None.

(** ** The encoder *)

Fixpoint spaces (n : nat) : string :=
  match n with O => "" | S n' => String " " (spaces n') end.

(** A line break at a nesting level, when indenting. *)
Definition nl (ind : bool) (lvl : nat) : string :=
  if ind then String "010" (spaces (2 * lvl)) else "".
Definition colon (ind : bool) : string := if ind then ": " else ":".

Fixpoint print (ind : bool) (lvl : nat) (v : json) : string :=
  match v with
  | JNull => "null"
  | JBool b => if b then "true" else "false"
  | JNum lit => lit
  | JStr s => quote s
  | JArr [] => "[]"
  | JArr l =>
      "[" +:+ nl ind (S lvl)
      +:+ Join (List.map (print ind (S lvl)) l) ("," +:+ nl ind (S lvl))
      +:+ nl ind lvl +:+ "]"
  | JObj [] => "{}"
  | JObj l =>
      "{" +:+ nl ind (S lvl)
      +:+ Join (List.map (fun '(k, x) => quote k +:+ colon ind +:+ print ind (S lvl) x) l)
            ("," +:+ nl ind (S lvl))
      +:+ nl ind lvl +:+ "}"
  end.

Definition Marshal (v : json) : string := print false 0 v.
(** [json.MarshalIndent(v, "", "  ")]. *)
Definition MarshalIndent (v : json) : string := print true 0 v.

(** What the encoder prints faithfully. *)
Fixpoint printable (v : json) : bool :=
  match v with
  | JNum lit => valid_number lit
  | JStr s => valid_utf8 s
  | JArr l => forallb printable l
  | JObj l => forallb (fun '(k, x) => valid_utf8 k && printable x) l
  | _ => true
  end.

(** ** Decoding into Go values

    A decoder takes the value to store into and returns the new one, or [None]
    for a type error (the caller of [json.Unmarshal] then discards the value).
    [null] leaves a struct, a string, a number or a bool as it was. *)

Definition dec_bool (v : json) (old : bool) : option bool :=
  match v with JNull => Some old | JBool b => Some b | _ => None end.
Definition dec_string (v : json) (old : string) : option string :=
  match v with JNull => Some old | JStr s => Some s | _ => None end.
Definition dec_int (v : json) (old : Z) : option Z :=
  match v with JNull => Some old | JNum lit => Atoi lit | _ => None end.

(** A struct: each member of the object, in order, is stored into the field
    it names; names match without regard to case. *)
Fixpoint dec_fields {A} (field : string -> json -> A -> option A)
    (l : list (string * json)) (a : A) : option A :=
  match l with
  | [] => Some a
  | (k, v) :: l' => a' ← field k v a; dec_fields field l' a'
  end.

Definition dec_struct {A} (field : string -> json -> A -> option A) (v : json) (a : A) : option A :=
  match v with
  | JNull => Some a
  | JObj l => dec_fields field l a
  | _ => None
  end.

Definition key_is (name key : string) : bool := EqualFold key name.

(** A slice ([None] is nil): elements are decoded over those the slice had. *)
Fixpoint dec_elems {A} (dec : json -> A -> option A) (zero : A) (l : list json) (old : list A)
    : option (list A) :=
  match l with
  | [] => Some []
  | v :: l' => x ← dec v (hd zero old); xs ← dec_elems dec zero l' (tl old); Some (x :: xs)
  end.

Definition dec_slice {A} (dec : json -> A -> option A) (zero : A) (v : json)
    (old : option (list A)) : option (option (list A)) :=
  match v with
  | JNull => Some None
  | JArr l => xs ← dec_elems dec zero l (default [] old); Some (Some xs)
  | _ => None
  end.

(** [map[string]json.RawMessage]: a later member replaces an earlier one. *)
Definition raw_map (v : json) : option (list (string * json)) :=
  match v with
  | JNull => Some []
  | JObj l => Some l
  | _ => None
  end.

Fixpoint obj_get (k : string) (l : list (string * json)) : option json :=
  match l with
  | [] => None
  | (k', v) :: l' =>
      match obj_get k l' with
      | Some w => Some w
      | None => if String.eqb k k' then Some v else None
      end
  end.

(** Documents in examples are written with single quotes. *)
Fixpoint dq (s : string) : string :=
  match s with
  | String c t => String (if Ascii.eqb c "'" then dquote else c) (dq t)
  | EmptyString => ""
  end.

Example parse_ex :
  json_parse (dq " {'a' : [1, -2.5e+3, true], 'b\u0041\n': null} ")
  = Some (JObj [("a", JArr [JNum "1"; JNum "-2.5e+3"; JBool true]);
                (String "b" (String "A" (String "010" "")), JNull)]).
Proof. vm_compute. reflexivity. Qed.
Example parse_bad : json_parse "[1,]" = None /\ json_parse "01" = None.
Proof. vm_compute. done. Qed.
Example print_ex :
  MarshalIndent (JObj [("a<b", JArr [JNum "1"; JNull]); ("c", JObj [])])
  = dq "{
  'a\u003cb': [
    1,
    null
  ],
  'c': {}
}".
Proof. vm_compute. reflexivity. Qed.
