(* ===== verification/GoJSONProofs.v ===== *)
(** * GoJSONProofs: what the JSON encoder prints, the decoder reads back *)

From S2P Require Import Prelude GoLib GoHTTP GoJSON.
From Stdlib Require Import DecimalString DecimalZ.

(** ** [strconv] *)

Lemma Atoi_Itoa z : int64_ok z -> Atoi (Itoa z) = Some z.
Proof.
  intros Hz. unfold Atoi, Itoa.
  assert (in_int64 z = Some z) as Hin.
  { unfold in_int64. destruct Hz. by rewrite (proj2 (Z.leb_le _ _)), (proj2 (Z.leb_le _ _)) by done. }
  pose proof (DecimalZ.of_to z) as Hof.
  destruct (Z.to_int z) as [u|u] eqn:E; cbn [NilZero.string_of_int Z.of_int] in *.
  - assert (u <> Decimal.Nil) as Hu.
    { intros ->. destruct z as [|p|p]; cbn in E; [done| |done].
      injection E as E. by apply DecimalPos.Unsigned.to_uint_nonnil in E. }
    pose proof (NilZero.usu u Hu) as Hs.
    destruct u; try done; cbn [NilZero.string_of_uint NilEmpty.string_of_uint] in *;
      rewrite Hs; cbn [mbind option_bind]; by rewrite Hof.
  - assert (u <> Decimal.Nil) as Hu.
    { intros ->. destruct z as [|p|p]; cbn in E; [done|done|].
      injection E as E. by apply DecimalPos.Unsigned.to_uint_nonnil in E. }
    rewrite (NilZero.usu u Hu). cbn [mbind option_bind]. by rewrite Hof.
Qed.

(** ** Runes in chunks *)

Inductive chunk : Z * string -> Prop :=
  | chunk1 a : byteZ a < 0x80 -> chunk (byteZ a, String a "")
  | chunk_bad a : 0x80 <= byteZ a -> chunk (rune_bad a)
  | chunk2 a b r : rune2 a b = Some r -> chunk (r, String a (String b ""))
  | chunk3 a b c r : rune3 a b c = Some r -> chunk (r, String a (String b (String c "")))
  | chunk4 a b c d r :
      rune4 a b c d = Some r -> chunk (r, String a (String b (String c (String d "")))).
#[export] Hint Constructors chunk : router.

Lemma runes_chunks_aux n s : (String.length s <= n)%nat -> Forall chunk (runes s).
Proof.
  revert s; induction n as [|n IH]; intros s Hn.
  { destruct s; [constructor|simpl in Hn; lia]. }
  destruct s as [|a s1]; [constructor|]. cbn [String.length] in Hn. cbn [runes].
  destruct (Z.ltb_spec (byteZ a) 0x80); [constructor; [by constructor|apply IH; lia]|].
  destruct s1 as [|b s2]; [by repeat constructor|]. cbn [String.length] in Hn.
  destruct (rune2 a b) eqn:?; [constructor; [by constructor|apply IH; lia]|].
  destruct s2 as [|c s3];
    [constructor; [by constructor|apply IH; simpl; lia]|]. cbn [String.length] in Hn.
  destruct (rune3 a b c) eqn:?; [constructor; [by constructor|apply IH; lia]|].
  destruct s3 as [|d s4];
    [constructor; [by constructor|apply IH; simpl; lia]|]. cbn [String.length] in Hn.
  destruct (rune4 a b c d) eqn:?; constructor; try (by constructor); apply IH; simpl; lia.
Qed.

Lemma runes_chunks s : Forall chunk (runes s).
Proof. by apply (runes_chunks_aux (String.length s)). Qed.

Lemma rune2_inv a b r :
  rune2 a b = Some r -> 0xC2 <= byteZ a <= 0xDF /\ cont b = true.
Proof. unfold rune2. destruct (cont b), (Z.leb_spec 0xC2 (byteZ a)), (Z.leb_spec (byteZ a) 0xDF); simpl; try done; lia. Qed.
Lemma rune3_inv a b c r :
  rune3 a b c = Some r -> 0xE0 <= byteZ a <= 0xEF /\ cont b = true /\ cont c = true.
Proof.
  unfold rune3. destruct (cont b), (cont c), (Z.leb_spec 0xE0 (byteZ a)), (Z.leb_spec (byteZ a) 0xEF);
    simpl; try done; lia.
Qed.
Lemma rune4_inv a b c d r :
  rune4 a b c d = Some r ->
  0xF0 <= byteZ a <= 0xF4 /\ cont b = true /\ cont c = true /\ cont d = true.
Proof.
  unfold rune4. destruct (cont b), (cont c), (cont d), (Z.leb_spec 0xF0 (byteZ a)), (Z.leb_spec (byteZ a) 0xF4);
    simpl; try done; lia.
Qed.

Lemma rune2_none a b : 0xE0 <= byteZ a -> rune2 a b = None.
Proof. intros. unfold rune2. destruct (Z.leb_spec (byteZ a) 0xDF); [lia|]. by rewrite andb_false_r. Qed.
Lemma rune3_none a b c : 0xF0 <= byteZ a -> rune3 a b c = None.
Proof. intros. unfold rune3. destruct (Z.leb_spec (byteZ a) 0xEF); [lia|]. by rewrite andb_false_r. Qed.

(** [String.append] does not simplify by itself. *)
Create Rewrite HintDb str.
Lemma str_app_cons a s t : String a s +:+ t = String a (s +:+ t).
Proof. done. Qed.
Lemma str_app_nil t : "" +:+ t = t.
Proof. done. Qed.
#[export] Hint Rewrite str_app_cons str_app_nil : str.
Ltac str_simpl := autorewrite with str; cbn [runes scan_string units].

(** A chunk at the head of any string is decoded first. *)
Lemma runes_chunk p t :
  chunk p -> bad_rune p = false -> runes (snd p +:+ t) = p :: runes t.
Proof.
  intros Hc Hb. destruct Hc as [a H|a H|a b r H|a b c r H|a b c d r H]; cbn [snd];
    autorewrite with str; cbn [runes].
  - by destruct (Z.ltb_spec (byteZ a) 0x80); [|lia].
  - done.
  - pose proof (rune2_inv _ _ _ H).
    destruct (Z.ltb_spec (byteZ a) 0x80); [lia|]. by rewrite H.
  - pose proof (rune3_inv _ _ _ _ H).
    destruct (Z.ltb_spec (byteZ a) 0x80); [lia|]. by rewrite rune2_none, H by lia.
  - pose proof (rune4_inv _ _ _ _ _ H).
    destruct (Z.ltb_spec (byteZ a) 0x80); [lia|].
    by rewrite rune2_none, rune3_none, H by lia.
Qed.

Lemma cbits_cont a : cont a = true -> cbits a = byteZ a - 0x80 /\ 0 <= cbits a < 64.
Proof. destruct a as [[] [] [] [] [] [] [] []]; vm_compute; try done; intros; repeat split; done. Qed.

Lemma lor_shiftl x n z : 0 <= n -> 0 <= z < 2 ^ n -> Z.lor (Z.shiftl x n) z = x * 2 ^ n + z.
Proof.
  intros Hn Hz. pose proof (Z.add_lor_land (Z.shiftl x n) z) as H.
  replace (Z.land (Z.shiftl x n) z) with 0 in H.
  { rewrite Z.shiftl_mul_pow2 in * by done. lia. }
  replace z with (Z.land z (Z.ones n)) by (rewrite Z.land_ones, Z.mod_small by lia; done).
  rewrite (Z.land_comm z), Z.land_assoc, Z.land_ones, Z.shiftl_mul_pow2 by done.
  by rewrite Z.mod_mul, Z.land_0_l by lia.
Qed.

Lemma rune3_value a b c r :
  rune3 a b c = Some r ->
  r = (byteZ a - 0xE0) * 4096 + (byteZ b - 0x80) * 64 + (byteZ c - 0x80)
  /\ 0x800 <= r < 0x10000.
Proof.
  intros H. pose proof (rune3_inv _ _ _ _ H) as (Ha & Hb & Hc).
  apply cbits_cont in Hb as [Eb Rb]. apply cbits_cont in Hc as [Ec Rc].
  assert (Z.land (byteZ a) 0x0F = byteZ a - 0xE0) as Ea.
  { clear -Ha. revert Ha. destruct a as [[] [] [] [] [] [] [] []]; vm_compute; try done; intros [? ?]; done. }
  unfold rune3 in H.
  destruct (_ && _) eqn:Hcond in H; [|done].
  injection H as <-.
  rewrite (lor_shiftl (cbits b) 6) by lia.
  rewrite lor_shiftl by lia. rewrite Ea, Eb, Ec.
  change (2 ^ 6) with 64. change (2 ^ 12) with 4096. split; [lia|].
  repeat rewrite andb_true_iff in Hcond. rewrite negb_true_iff in Hcond.
  destruct Hcond as [[_ Hlo] _].
  destruct (Z.eqb_spec (byteZ a) 0xE0); simpl in Hlo; [apply Z.ltb_ge in Hlo|]; lia.
Qed.

Lemma rune4_value a b c d r : rune4 a b c d = Some r -> 0x10000 <= r.
Proof.
  intros H. pose proof (rune4_inv _ _ _ _ _ H) as (Ha & Hbb & Hcc & Hdd).
  apply cbits_cont in Hbb as [Eb Rb]. apply cbits_cont in Hcc as [Ec Rc]. apply cbits_cont in Hdd as [Ed Rd].
  unfold rune4 in H. destruct (_ && _) eqn:Hcond in H; [|done]. injection H as <-.
  rewrite (lor_shiftl (cbits c) 6) by lia.
  rewrite (lor_shiftl (cbits b) 12) by (change (2 ^ 6) with 64; change (2 ^ 12) with 4096; lia).
  rewrite lor_shiftl by (change (2 ^ 6) with 64; change (2 ^ 12) with 4096; change (2 ^ 18) with 262144; lia).
  assert (Z.land (byteZ a) 0x07 = byteZ a - 0xF0) as Ea.
  { clear -Ha. revert Ha. destruct a as [[] [] [] [] [] [] [] []]; vm_compute; try done; intros [? ?]; done. }
  repeat rewrite andb_true_iff in Hcond. rewrite negb_true_iff in Hcond.
  destruct Hcond as [[_ Hlo] _].
  change (2 ^ 6) with 64. change (2 ^ 12) with 4096. change (2 ^ 18) with 262144.
  destruct (Z.eqb_spec (byteZ a) 0xF0); simpl in Hlo; [apply Z.ltb_ge in Hlo|]; lia.
Qed.

Lemma rune2_value a b r : rune2 a b = Some r -> 0x80 <= r < 0x800.
Proof.
  intros H. pose proof (rune2_inv _ _ _ H) as [Ha Hcb]. apply cbits_cont in Hcb as [? ?].
  unfold rune2 in H. destruct (_ && _); [|done]. injection H as <-.
  rewrite lor_shiftl by lia. change (2 ^ 6) with 64.
  assert (2 <= Z.land (byteZ a) 0x1F < 32).
  { clear -Ha. revert Ha. destruct a as [[] [] [] [] [] [] [] []]; vm_compute; intros [? ?]; done. }
  lia.
Qed.

(** The only chunks of the runes U+2028 and U+2029. *)
Lemma chunk_separator p :
  chunk p -> bad_rune p = false -> fst p = 0x2028 \/ fst p = 0x2029 ->
  snd p = String "226" (String "128" (String (if Z.eqb (fst p) 0x2028 then "168"%char else "169"%char) "")).
Proof.
  intros Hc Hb Hr. destruct Hc as [a H|a H|a b r H|a b c r H|a b c d r H]; cbn [fst snd] in *.
  - lia.
  - done.
  - apply rune2_value in H. lia.
  - pose proof (rune3_inv _ _ _ _ H) as (Ha & Hbb & Hcc). pose proof (rune3_value _ _ _ _ H) as [E _].
    apply cbits_cont in Hbb as [Eb Rb]. apply cbits_cont in Hcc as [Ec Rc].
    assert (byteZ a = 226 /\ byteZ b = 128 /\ byteZ c = if r =? 0x2028 then 168 else 169) as (Ea & Eb' & Ec').
    { destruct Hr as [-> | ->]; cbn; lia. }
    rewrite <- (Zbyte_byteZ a), <- (Zbyte_byteZ b), <- (Zbyte_byteZ c), Ea, Eb', Ec'.
    destruct Hr as [-> | ->]; done.
  - apply rune4_value in H. lia.
Qed.

(** ** Strings: the three forms of an encoded rune *)

Definition plain_byte (c : ascii) : bool :=
  negb (Ascii.eqb c dquote) && negb (Ascii.eqb c backslash) && (0x20 <=? byteZ c).

Inductive esc_form (p : Z * string) : string -> Prop :=
  | esc_plain :
      all_bytes plain_byte (snd p) = true -> fst p <> 92 -> esc_form p (snd p)
  | esc_simple e z :
      simple_escape (byteZ e) = Some z -> snd p = String (Zbyte z) "" ->
      esc_form p (String backslash (String e ""))
  | esc_u h1 h2 h3 h4 :
      hex4 (byteZ h1) (byteZ h2) (byteZ h3) (byteZ h4) = Some (fst p) ->
      EncodeRune (fst p) = snd p -> hi_surrogate (fst p) = false ->
      esc_form p (String backslash (String "u" (String h1 (String h2 (String h3 (String h4 "")))))).

Lemma high_plain a : 0x80 <= byteZ a -> plain_byte a = true.
Proof. destruct a as [[] [] [] [] [] [] [] []]; vm_compute; done. Qed.

Lemma cont_high a : cont a = true -> 0x80 <= byteZ a.
Proof. unfold cont. rewrite andb_true_iff, Z.leb_le. tauto. Qed.

Lemma chunk_high p :
  chunk p -> bad_rune p = false -> 0x80 <= fst p -> all_bytes plain_byte (snd p) = true.
Proof.
  intros Hc Hb Hp. destruct Hc as [a H|a H|a b r H|a b c r H|a b c d r H]; cbn [fst snd all_bytes] in *.
  - lia.
  - done.
  - apply rune2_inv in H as (? & ?%cont_high). by rewrite !high_plain by lia.
  - apply rune3_inv in H as (? & ?%cont_high & ?%cont_high). by rewrite !high_plain by lia.
  - apply rune4_inv in H as (? & ?%cont_high & ?%cont_high & ?%cont_high). by rewrite !high_plain by lia.
Qed.

Lemma chunk_low p : chunk p -> fst p < 0x80 -> exists a, p = (byteZ a, String a "") /\ byteZ a < 0x80.
Proof.
  intros Hc Hp. destruct Hc as [a H|a H|a b r H|a b c r H|a b c d r H]; cbn [fst snd] in *.
  - eauto.
  - vm_compute in Hp. done.
  - apply rune2_value in H. lia.
  - apply rune3_value in H. lia.
  - apply rune4_value in H. lia.
Qed.

Lemma esc_form_low a : byteZ a < 0x80 -> esc_form (byteZ a, String a "") (esc_rune (byteZ a, String a "")).
Proof.
  intros H. destruct a as [[] [] [] [] [] [] [] []]; try (exfalso; vm_compute in H; done); clear H;
    first
      [ apply esc_plain; vm_compute; done
      | eapply (esc_simple _ _ _); vm_compute; reflexivity
      | apply esc_u; vm_compute; reflexivity ].
Qed.

Lemma esc_forms p : chunk p -> bad_rune p = false -> esc_form p (esc_rune p).
Proof.
  intros Hc Hb. destruct (Z.ltb_spec (fst p) 0x80) as [Hlo|Hhi].
  { destruct (chunk_low p Hc Hlo) as (a & -> & Ha). by apply esc_form_low. }
  pose proof (chunk_separator p Hc Hb) as Hsep. pose proof (chunk_high p Hc Hb Hhi) as Hplain.
  destruct p as [r b]. cbn [fst snd] in *. unfold esc_rune.
  destruct (Z.ltb_spec r 0x80); [lia|]. rewrite Hb.
  destruct (Z.eqb_spec r 0x2028) as [->|].
  { rewrite Hsep by auto. by apply esc_u. }
  destruct (Z.eqb_spec r 0x2029) as [->|].
  { rewrite Hsep by auto. by apply esc_u. }
  apply esc_plain; cbn [fst snd]; [done|lia].
Qed.

Lemma scan_plain s t :
  all_bytes plain_byte s = true ->
  scan_string (s +:+ t) = (fun q => (s +:+ fst q, snd q)) <$> scan_string t.
Proof.
  induction s as [|c s IH]; intros H; str_simpl.
  - by destruct (scan_string t) as [[]|].
  - cbn [all_bytes] in H. apply andb_true_iff in H as [Hp Hs]. rewrite (IH Hs).
    unfold plain_byte in Hp. rewrite !andb_true_iff, !negb_true_iff in Hp.
    destruct Hp as [[-> ->] Hp]. apply Z.leb_le in Hp.
    destruct (Z.ltb_spec (byteZ c) 0x20); [lia|]. by destruct (scan_string t).
Qed.

Lemma hex_val_is_hex a z : hex_val (byteZ a) = Some z -> is_hex a = true.
Proof. unfold is_hex. by intros ->. Qed.

Lemma hex4_inv a b c d z :
  hex4 a b c d = Some z -> is_Some (hex_val a) /\ is_Some (hex_val b) /\ is_Some (hex_val c) /\ is_Some (hex_val d).
Proof.
  unfold hex4. destruct (hex_val a), (hex_val b), (hex_val c), (hex_val d); cbn; try done; eauto 10.
Qed.

Lemma scan_form p e t :
  esc_form p e -> scan_string (e +:+ t) = (fun q => (e +:+ fst q, snd q)) <$> scan_string t.
Proof.
  intros He. destruct He as [H ?|e z H ?|h1 h2 h3 h4 H ? ?].
  - by apply scan_plain.
  - str_simpl. replace (byteZ e =? 117) with false.
    2: { symmetry. apply Z.eqb_neq. intros E. by rewrite E in H. }
    rewrite H. by destruct (scan_string t).
  - str_simpl. apply hex4_inv in H as ([? X1] & [? X2] & [? X3] & [? X4]).
    erewrite !hex_val_is_hex by eassumption. by destruct (scan_string t).
Qed.

(** What the decoder makes of the encoding of a rune. *)
Definition decoded (p : Z * string) (u : sunit) : Prop :=
  u = UBytes (snd p)
  \/ (u = UCode (fst p) /\ EncodeRune (fst p) = snd p /\ hi_surrogate (fst p) = false).

Lemma simple_escape_low e z : simple_escape e = Some z -> e < 0x80.
Proof. unfold simple_escape. intros H. repeat case_match; simplify_eq; lia. Qed.
Lemma hex_val_low r z : hex_val r = Some z -> r < 0x80.
Proof. unfold hex_val. intros H. repeat case_match; simplify_eq; lia. Qed.

Lemma runes_low a t : byteZ a < 0x80 -> runes (String a t) = (byteZ a, String a "") :: runes t.
Proof. intros. cbn [runes]. by destruct (Z.ltb_spec (byteZ a) 0x80); [|lia]. Qed.

Lemma units_form p e t :
  chunk p -> bad_rune p = false -> esc_form p e ->
  exists u, decoded p u /\ units (runes (e +:+ t)) = cons u <$> units (runes t).
Proof.
  intros Hc Hb He. destruct He as [H Hne|e z H Hs|h1 h2 h3 h4 H Henc Hsur].
  - exists (UBytes (snd p)). split; [by left|]. rewrite runes_chunk by done.
    destruct p as [r b]. cbn [fst snd units] in *. rewrite (proj2 (Z.eqb_neq _ _) Hne), Hb.
    by destruct (units (runes t)).
  - exists (UBytes (snd p)). split; [by left|]. rewrite Hs, !str_app_cons, str_app_nil.
    rewrite (runes_low backslash), (runes_low e) by (done || by eapply simple_escape_low).
    change (byteZ backslash) with 92. cbn [units]. rewrite Z.eqb_refl.
    replace (byteZ e =? 117) with false.
    2: { symmetry. apply Z.eqb_neq. intros E. by rewrite E in H. }
    rewrite H. by destruct (units (runes t)).
  - exists (UCode (fst p)). split; [by right|]. rewrite !str_app_cons, str_app_nil.
    pose proof (hex4_inv _ _ _ _ _ H) as ([? X1] & [? X2] & [? X3] & [? X4]).
    rewrite (runes_low backslash), (runes_low "u"), (runes_low h1), (runes_low h2), (runes_low h3), (runes_low h4)
      by (done || by eapply hex_val_low).
    change (byteZ backslash) with 92. change (byteZ "u") with 117. cbn [units]. rewrite !Z.eqb_refl, H.
    by destruct (units (runes t)).
Qed.

Lemma join_decoded l us :
  Forall2 decoded l us -> join_units us = concat_bytes l.
Proof.
  induction 1 as [|[r b] u l us Hd Hl IH]; [done|].
  destruct Hd as [->|(-> & He & Hs)]; cbn [fst snd] in *.
  - cbn [join_units]. by rewrite IH.
  - rewrite concat_bytes_cons, <- IH. cbn [join_units]. rewrite Hs, He. cbn [andb].
    by destruct us as [|[]].
Qed.

Definition quote_runes (l : list (Z * string)) : string :=
  foldr (fun p acc => esc_rune p +:+ acc) "" l.

Lemma scan_quote l t :
  Forall chunk l -> forallb (fun p => negb (bad_rune p)) l = true ->
  scan_string (quote_runes l +:+ String dquote t) = Some (quote_runes l, t).
Proof.
  induction 1 as [|p l Hc Hl IH]; intros Hb; cbn [quote_runes foldr]; str_simpl; [done|].
  cbn [forallb] in Hb. apply andb_true_iff in Hb as [Hb%negb_true_iff Hbl].
  rewrite <- str_app_assoc, (scan_form p) by (by apply esc_forms).
  fold (quote_runes l). by rewrite IH.
Qed.

Lemma units_quote l :
  Forall chunk l -> forallb (fun p => negb (bad_rune p)) l = true ->
  exists us, units (runes (quote_runes l)) = Some us /\ Forall2 decoded l us.
Proof.
  induction 1 as [|p l Hc Hl IH]; intros Hb; [by exists []|].
  cbn [forallb] in Hb. apply andb_true_iff in Hb as [Hb%negb_true_iff Hbl].
  destruct (IH Hbl) as (us & E & H2).
  destruct (units_form p (esc_rune p) (quote_runes l) Hc Hb (esc_forms p Hc Hb)) as (u & Hd & Hu).
  exists (u :: us). cbn [quote_runes foldr]. fold (quote_runes l). rewrite Hu, E. auto.
Qed.

(** A valid string is scanned and unquoted to itself. *)
Lemma scan_quoted s t :
  valid_utf8 s = true ->
  scan_string (quote_body s +:+ String dquote t) = Some (quote_body s, t).
Proof. intros. by apply scan_quote; [apply runes_chunks|]. Qed.

Lemma unquote_quoted s : valid_utf8 s = true -> unquote (quote_body s) = Some s.
Proof.
  intros Hv. destruct (units_quote (runes s) (runes_chunks s) Hv) as (us & E & Hd).
  unfold unquote. change (quote_body s) with (quote_runes (runes s)). rewrite E. cbn.
  by rewrite (join_decoded _ _ Hd), runes_concat.
Qed.

(** ** Numbers *)

(** What follows a number does not continue it. *)
Definition stop (s : string) : bool :=
  match s with
  | String c _ => negb (is_digit c || Ascii.eqb c "." || Ascii.eqb c "e" || Ascii.eqb c "E"
                        || Ascii.eqb c "+" || Ascii.eqb c "-")
  | EmptyString => true
  end.

Ltac stop_facts H :=
  cbn [stop] in H; rewrite negb_true_iff, !orb_false_iff in H;
  destruct H as [[[[[?Hdig ?Hdot] ?He] ?HE] ?Hplus] ?Hminus].

Lemma span_app s d r t :
  span_digits s = (d, r) -> stop t = true -> span_digits (s +:+ t) = (d, r +:+ t).
Proof.
  revert d r; induction s as [|c s IH]; intros d r H Ht; str_simpl; cbn [span_digits] in *.
  - injection H as <- <-. destruct t as [|c t]; [done|]. stop_facts Ht. cbn. by rewrite Hdig.
  - destruct (is_digit c); [|by injection H as <- <-].
    destruct (span_digits s) as [d' r'] eqn:E. injection H as <- <-.
    by rewrite (IH _ _ eq_refl Ht).
Qed.

Lemma scan_int_app s i r t :
  scan_int s = Some (i, r) -> stop t = true -> scan_int (s +:+ t) = Some (i, r +:+ t).
Proof.
  intros H Ht. destruct s as [|c s]; [done|]. str_simpl. cbn [scan_int] in *.
  destruct (Ascii.eqb c "0"); [by simplify_eq|]. destruct (is_digit c); [|done].
  destruct (span_digits s) as [d r'] eqn:E. rewrite (span_app _ _ _ _ E Ht). by simplify_eq.
Qed.

Lemma scan_frac_app s i r t :
  scan_frac s = Some (i, r) -> stop t = true -> scan_frac (s +:+ t) = Some (i, r +:+ t).
Proof.
  intros H Ht. destruct s as [|c s].
  - cbn in H. simplify_eq. destruct t as [|c t]; [done|]. stop_facts Ht.
    str_simpl. cbn [scan_frac]. by rewrite Hdot.
  - str_simpl. cbn [scan_frac] in *. destruct (Ascii.eqb c "."); [|by simplify_eq].
    destruct (span_digits s) as [d r'] eqn:E. rewrite (span_app _ _ _ _ E Ht).
    destruct (String.eqb d ""); by simplify_eq.
Qed.

Lemma scan_sign_app b s sg r t :
  scan_sign b s = (sg, r) -> stop t = true -> scan_sign b (s +:+ t) = (sg, r +:+ t).
Proof.
  intros H Ht. destruct s as [|c s].
  - cbn in H. simplify_eq. destruct t as [|c t]; [done|]. stop_facts Ht.
    str_simpl. cbn [scan_sign].
    by rewrite Hminus, Hplus, andb_false_r.
  - str_simpl. cbn [scan_sign] in *. destruct (_ || _); by simplify_eq.
Qed.

Lemma scan_exp_app s i r t :
  scan_exp s = Some (i, r) -> stop t = true -> scan_exp (s +:+ t) = Some (i, r +:+ t).
Proof.
  intros H Ht. destruct s as [|c s].
  - cbn in H. simplify_eq. destruct t as [|c t]; [done|]. stop_facts Ht.
    str_simpl. cbn [scan_exp]. by rewrite He, HE.
  - str_simpl. cbn [scan_exp] in *. destruct (_ || _); [|by simplify_eq].
    destruct (scan_sign false s) as [sg s1] eqn:E1. rewrite (scan_sign_app _ _ _ _ _ E1 Ht).
    destruct (span_digits s1) as [d r'] eqn:E. rewrite (span_app _ _ _ _ E Ht).
    destruct (String.eqb d ""); by simplify_eq.
Qed.

Lemma scan_number_app lit t :
  valid_number lit = true -> stop t = true -> scan_number (lit +:+ t) = Some (lit, t).
Proof.
  unfold valid_number. destruct (scan_number lit) as [[l r]|] eqn:E; [|done].
  destruct r; [|done]. intros ->%String.eqb_eq Ht. unfold scan_number in *.
  destruct (scan_sign true lit) as [sg s1] eqn:E1. rewrite (scan_sign_app _ _ _ _ _ E1 Ht).
  destruct (scan_int s1) as [[i r1]|] eqn:E2; [|done]. rewrite (scan_int_app _ _ _ _ E2 Ht).
  cbn [mbind option_bind snd fst] in *.
  destruct (scan_frac r1) as [[f r2]|] eqn:E3; [|done]. rewrite (scan_frac_app _ _ _ _ E3 Ht).
  cbn [mbind option_bind snd fst] in *.
  destruct (scan_exp r2) as [[e r3]|] eqn:E4; [|done]. rewrite (scan_exp_app _ _ _ _ E4 Ht).
  cbn [mbind option_bind snd fst] in *. injection E as E ->. by rewrite E.
Qed.

(** ** Printed integers are JSON numbers *)

Lemma span_uint u :
  span_digits (NilEmpty.string_of_uint u) = (NilEmpty.string_of_uint u, "").
Proof. induction u; cbn [NilEmpty.string_of_uint span_digits]; [done|..]; cbn; by rewrite IHu. Qed.

Lemma unorm_head u : Decimal.unorm u = u -> u = Decimal.zero \/ forall u', u <> Decimal.D0 u'.
Proof.
  intros H. destruct u as [|u'|u'|u'|u'|u'|u'|u'|u'|u'|u']; try (by right; intros ? [=]).
  left. rewrite DecimalFacts.unorm_D0 in H. unfold Decimal.unorm in H.
  destruct (Decimal.nzhead u') eqn:E; rewrite <- H; try done;
    pose proof (DecimalFacts.nb_digits_nzhead u') as Hl; rewrite E, H in Hl; cbn in Hl; lia.
Qed.

Lemma scan_int_uint u :
  u <> Decimal.Nil -> Decimal.unorm u = u ->
  scan_int (NilEmpty.string_of_uint u) = Some (NilEmpty.string_of_uint u, "").
Proof.
  intros Hne [-> | Hd]%unorm_head; [done|].
  destruct u as [|u|u|u|u|u|u|u|u|u|u]; try done; [by destruct (Hd u)|..];
    cbn [NilEmpty.string_of_uint scan_int]; rewrite span_uint; done.
Qed.

Lemma Itoa_digits z :
  exists u, u <> Decimal.Nil /\ Decimal.unorm u = u /\
    (Itoa z = NilEmpty.string_of_uint u \/ Itoa z = String "-" (NilEmpty.string_of_uint u)).
Proof.
  assert (forall p, Pos.to_uint p <> Decimal.Nil /\ Decimal.unorm (Pos.to_uint p) = Pos.to_uint p) as Hp.
  { intros p. split; [apply DecimalPos.Unsigned.to_uint_nonnil|].
    pose proof (DecimalN.Unsigned.to_of (N.to_uint (N.pos p))) as H.
    by rewrite DecimalN.Unsigned.of_to in H. }
  assert (forall u, u <> Decimal.Nil -> NilZero.string_of_uint u = NilEmpty.string_of_uint u) as Hz
    by (by intros []).
  destruct z as [|p|p].
  - by exists Decimal.zero; repeat split; auto.
  - destruct (Hp p) as [Hn Hu]. exists (Pos.to_uint p). repeat split; auto. left.
    unfold Itoa. cbn. by rewrite Hz.
  - destruct (Hp p) as [Hn Hu]. exists (Pos.to_uint p). repeat split; auto. right.
    unfold Itoa. cbn. by rewrite Hz.
Qed.

Lemma uint_no_minus u t : NilEmpty.string_of_uint u <> String "-" t.
Proof. by destruct u. Qed.

Lemma valid_number_Itoa z : valid_number (Itoa z) = true.
Proof.
  destruct (Itoa_digits z) as (u & Hn & Hu & [-> | ->]); unfold valid_number, scan_number.
  - assert (scan_sign true (NilEmpty.string_of_uint u) = ("", NilEmpty.string_of_uint u)) as ->
      by (by destruct u).
    rewrite scan_int_uint by done. cbn [mbind option_bind fst snd scan_frac scan_exp].
    rewrite str_app_nil, !str_app_nil_r. apply String.eqb_refl.
  - change (scan_sign true (String "-" (NilEmpty.string_of_uint u))) with ("-", NilEmpty.string_of_uint u).
    cbn iota beta. rewrite scan_int_uint by done. cbn [mbind option_bind fst snd scan_frac scan_exp].
    str_simpl. rewrite !str_app_nil_r. apply String.eqb_refl.
Qed.

(** ** Values *)

Lemma json_rect' (P : json -> Prop) :
  P JNull -> (forall b, P (JBool b)) -> (forall n, P (JNum n)) -> (forall s, P (JStr s)) ->
  (forall l, Forall P l -> P (JArr l)) ->
  (forall l, Forall (fun kv => P (snd kv)) l -> P (JObj l)) ->
  forall v, P v.
Proof.
  intros Hn Hb Hm Hs Ha Ho. fix IH 1. intros [|b|n|s|l|l]; [apply Hn|apply Hb|apply Hm|apply Hs| |].
  - apply Ha. induction l as [|x l IHl]; constructor; [apply IH|apply IHl].
  - apply Ho. induction l as [|[k x] l IHl]; constructor; [apply IH|apply IHl].
Qed.

(** The first byte of a value: not white space, and not the end of a
    container. *)
Definition value_head (s : string) : Prop :=
  exists c t, s = String c t /\ is_ws c = false /\ c <> "]"%char /\ c <> "}"%char.

Lemma value_head_app s t : value_head s -> value_head (s +:+ t).
Proof. intros (c & u & -> & ?). exists c, (u +:+ t). done. Qed.

Lemma value_head_skip s : value_head s -> skip_ws s = s.
Proof. intros (c & t & -> & H & _). cbn [skip_ws]. by rewrite H. Qed.

Lemma digit_head c : is_digit c = true -> is_ws c = false /\ c <> "]"%char /\ c <> "}"%char.
Proof. destruct c as [[] [] [] [] [] [] [] []]; vm_compute; done. Qed.

Lemma scan_int_head s i r : scan_int s = Some (i, r) -> exists c t, s = String c t /\ is_digit c = true.
Proof.
  destruct s as [|c t]; [done|]. cbn [scan_int]. intros H. exists c, t. split; [done|].
  destruct (Ascii.eqb_spec c "0"); [by subst|]. by destruct (is_digit c).
Qed.

Lemma number_head lit : valid_number lit = true -> value_head lit /\ (exists c t, lit = String c t /\
  (is_digit c = true \/ c = "-"%char)).
Proof.
  unfold valid_number. destruct (scan_number lit) as [[l r]|] eqn:E; [|done]. intros _.
  assert (exists c t, lit = String c t /\ (is_digit c = true \/ c = "-"%char)) as H.
  { unfold scan_number in E. destruct lit as [|c t]; [done|]. exists c, t. split; [done|].
    cbn [scan_sign negb andb] in E. destruct (Ascii.eqb_spec c "-"); [by right|]. left. cbn [orb] in E.
    destruct (scan_int (String c t)) as [[i r']|] eqn:E2; [|done].
    apply scan_int_head in E2 as (c' & t' & [= <- <-] & ?). done. }
  split; [|done]. destruct H as (c & t & -> & [H | ->]); exists c, t || (exists "-"%char, t; done).
  by apply digit_head in H.
Qed.

Lemma print_head ind lvl v : printable v = true -> value_head (print ind lvl v).
Proof.
  destruct v as [|[]|n|s|[|x l]|[|x l]]; intros H;
    try (eexists _, _; split; [reflexivity|vm_compute; done]).
  by apply number_head.
Qed.

Lemma skip_spaces n t : skip_ws (spaces n +:+ t) = skip_ws t.
Proof. induction n; [done|]. cbn [spaces]. str_simpl. done. Qed.

Lemma skip_nl ind lvl t : skip_ws (nl ind lvl +:+ t) = skip_ws t.
Proof. destruct ind; [|done]. cbn [nl]. str_simpl. cbn [skip_ws]. apply skip_spaces. Qed.

Lemma stop_nl ind lvl t : stop t = true -> stop (nl ind lvl +:+ t) = true.
Proof. by destruct ind. Qed.

(** A printed list of items is read item by item. *)
Section items.
Context {A : Type} (pr : A -> string) (ind : bool) (lvl lvl' : nat).
Context (close : ascii) (items : nat -> string -> option (list A * string)).
Context (reads : A -> Prop).
Hypothesis items_last : forall n v t, reads v ->
  items (S n) (pr v +:+ nl ind lvl' +:+ String close t) = Some ([v], t).
Hypothesis items_more : forall n v w t, reads v -> value_head w ->
  items (S n) (pr v +:+ String "," (nl ind lvl +:+ (w +:+ t)))
  = (q ← items n (w +:+ t); Some (v :: fst q, snd q)).
Hypothesis reads_head : forall v, reads v -> value_head (pr v).

Lemma items_print l : forall n t,
  l <> [] -> Forall reads l -> (List.length l <= n)%nat ->
  items n (Join (List.map pr l) ("," +:+ nl ind lvl) +:+ nl ind lvl' +:+ String close t)
  = Some (l, t).
Proof.
  induction l as [|v l IH]; intros n t Hne Hl Hn; [done|]. clear Hne.
  apply Forall_cons in Hl as [Hv Hl]. destruct n as [|n]; [simpl in Hn; lia|].
  destruct l as [|w l].
  - cbn [List.map Join]. by apply items_last.
  - cbn [List.map] in *. rewrite Join_cons by done.
    set (r := Join (pr w :: List.map pr l) ("," +:+ nl ind lvl)) in *.
    assert (value_head r) as Hr.
    { apply Forall_cons in Hl as [Hw _]. apply reads_head in Hw. unfold r. cbn [Join].
      destruct (List.map pr l); [done|]. by apply value_head_app. }
    str_simpl. rewrite <- !str_app_assoc. str_simpl. rewrite <- !str_app_assoc.
    rewrite items_more by done. rewrite IH by (done || simpl in *; lia). done.
Qed.

Lemma Join_length l :
  Forall reads l -> (List.length l <= String.length (Join (List.map pr l) ("," +:+ nl ind lvl)))%nat.
Proof.
  induction 1 as [|v l Hv Hl IH]; [done|]. apply reads_head in Hv as (c & u & E & _).
  destruct l as [|w l]; [cbn; rewrite E; cbn; lia|].
  cbn [List.map] in *. rewrite Join_cons by done. rewrite !length_str_app, E. cbn in *. lia.
Qed.

Hypothesis close_cases : close = "]"%char \/ close = "}"%char.

(** The whole container after its opening bracket. *)
Lemma items_open l t : l <> [] -> Forall reads l ->
  let s := nl ind lvl +:+ Join (List.map pr l) ("," +:+ nl ind lvl)
             +:+ nl ind lvl' +:+ String close t in
  exists c u, skip_ws s = String c u /\ Ascii.eqb c close = false
    /\ items (String.length s) (String c u) = Some (l, t).
Proof.
  intros Hne Hl s. subst s.
  pose proof (Join_length l Hl) as Hlen. pose proof (items_print l) as Hitems.
  assert (value_head (Join (List.map pr l) ("," +:+ nl ind lvl))) as HJ.
  { destruct l as [|v l']; [done|]. apply Forall_cons in Hl as [Hv _]. cbn [List.map Join].
    destruct (List.map _ l'); [by apply reads_head|]. by apply value_head_app, reads_head. }
  set (J := Join _ _) in *. rewrite skip_nl, value_head_skip by (by apply value_head_app).
  destruct HJ as (c & u & E & _ & H1 & H2).
  exists c, (u +:+ (nl ind lvl' +:+ String close t)). rewrite <- str_app_cons, <- E. split; [done|]. split.
  - apply Ascii.eqb_neq. by destruct close_cases as [-> | ->].
  - apply Hitems; [done|done|]. rewrite !length_str_app. lia.
Qed.
End items.

Lemma parse_value_unfold d c t :
  parse_value d (String c t) =
  if Ascii.eqb c dquote then k ← scan_string t; u ← unquote (fst k); Some (JStr u, snd k)
  else if Ascii.eqb c "[" then match d with O => None | S d' => parse_array (parse_value d') t end
  else if Ascii.eqb c "{" then match d with O => None | S d' => parse_object (parse_value d') t end
  else if Ascii.eqb c "n" then literal "null" JNull (String c t)
  else if Ascii.eqb c "t" then literal "true" (JBool true) (String c t)
  else if Ascii.eqb c "f" then literal "false" (JBool false) (String c t)
  else p ← scan_number (String c t); Some (JNum (fst p), snd p).
Proof. by destruct d. Qed.

Lemma literal_app lit v t : literal lit v (lit +:+ t) = Some (v, t).
Proof. unfold literal. by rewrite prefix_app, drop_str_app. Qed.

Definition reads_value (ind : bool) (lvl d : nat) (v : json) : Prop :=
  value_head (print ind lvl v) /\
  forall t, stop t = true -> parse_value d (print ind lvl v +:+ t) = Some (v, t).

Lemma parse_quoted d s t : valid_utf8 s = true -> parse_value d (quote s +:+ t) = Some (JStr s, t).
Proof.
  intros Hs. unfold quote. str_simpl. rewrite parse_value_unfold.
  change (Ascii.eqb dquote dquote) with true. cbn iota.
  rewrite <- str_app_assoc, str_app_cons, str_app_nil, scan_quoted by done.
  cbn [mbind option_bind fst]. by rewrite unquote_quoted.
Qed.

Lemma elems_more ind lvl d n v w t :
  reads_value ind lvl d v -> value_head w ->
  parse_elems (parse_value d) (S n) (print ind lvl v +:+ String "," (nl ind lvl +:+ (w +:+ t)))
  = (q ← parse_elems (parse_value d) n (w +:+ t); Some (v :: fst q, snd q)).
Proof.
  intros [_ Hv] Hw. cbn [parse_elems]. rewrite Hv by done.
  cbn [mbind option_bind fst snd skip_ws]. change (is_ws ",") with false. cbn iota.
  by rewrite skip_nl, value_head_skip by (by apply value_head_app).
Qed.

Lemma print_array ind lvl l d t :
  l <> [] -> Forall (reads_value ind (S lvl) d) l ->
  parse_array (parse_value d)
    (nl ind (S lvl) +:+ Join (List.map (print ind (S lvl)) l) ("," +:+ nl ind (S lvl))
       +:+ nl ind lvl +:+ String "]" t) = Some (JArr l, t).
Proof.
  intros Hne Hl.
  destruct (items_open (print ind (S lvl)) ind (S lvl) lvl "]" (parse_elems (parse_value d))
    (reads_value ind (S lvl) d)) with (l := l) (t := t) as (c & u & E & Hc & Hi); auto.
  - intros n v t' [_ Hv]. cbn [parse_elems]. rewrite Hv by (by apply stop_nl).
    cbn [mbind option_bind fst snd]. by rewrite skip_nl.
  - intros. by apply elems_more.
  - by intros v [? _].
  - unfold parse_array. by rewrite E, Hc, Hi.
Qed.

Definition print_member (ind : bool) (lvl : nat) (kv : string * json) : string :=
  let '(k, x) := kv in quote k +:+ colon ind +:+ print ind lvl x.

Definition reads_member (ind : bool) (lvl d : nat) (kv : string * json) : Prop :=
  valid_utf8 (fst kv) = true /\ reads_value ind lvl d (snd kv).

Lemma parse_member_print ind lvl d kv t :
  reads_member ind lvl d kv -> stop t = true ->
  parse_member (parse_value d) (print_member ind lvl kv +:+ t) = Some (kv, t).
Proof.
  destruct kv as [k x]. intros [Hk [Hh Hx]] Ht. cbn [fst snd print_member] in *. unfold quote.
  str_simpl. cbn [parse_member]. change (Ascii.eqb dquote dquote) with true. cbn iota.
  rewrite <- !str_app_assoc, str_app_cons, str_app_nil, scan_quoted by done.
  cbn [mbind option_bind fst snd]. rewrite unquote_quoted by done. cbn [mbind option_bind fst snd].
  replace (skip_ws (colon ind +:+ print ind lvl x +:+ t)) with (colon ind +:+ print ind lvl x +:+ t)
    by (by destruct ind).
  replace (colon ind +:+ print ind lvl x +:+ t) with (String ":" (TrimPrefix (colon ind) ":" +:+ (print ind lvl x +:+ t)))
    by (by destruct ind).
  replace (skip_ws (TrimPrefix (colon ind) ":" +:+ (print ind lvl x +:+ t)))
    with (skip_ws (print ind lvl x +:+ t)) by (by destruct ind).
  rewrite value_head_skip by (by apply value_head_app). by rewrite Hx.
Qed.

Lemma members_more ind lvl d n kv w t :
  reads_member ind lvl d kv -> value_head w ->
  parse_members (parse_value d) (S n) (print_member ind lvl kv +:+ String "," (nl ind lvl +:+ (w +:+ t)))
  = (q ← parse_members (parse_value d) n (w +:+ t); Some (kv :: fst q, snd q)).
Proof.
  intros Hv Hw. cbn [parse_members]. rewrite (parse_member_print _ _ _ _ _ Hv) by done.
  cbn [mbind option_bind fst snd skip_ws]. change (is_ws ",") with false. cbn iota.
  by rewrite skip_nl, value_head_skip by (by apply value_head_app).
Qed.

Lemma print_object ind lvl l d t :
  l <> [] -> Forall (reads_member ind (S lvl) d) l ->
  parse_object (parse_value d)
    (nl ind (S lvl) +:+ Join (List.map (print_member ind (S lvl)) l) ("," +:+ nl ind (S lvl))
       +:+ nl ind lvl +:+ String "}" t) = Some (JObj l, t).
Proof.
  intros Hne Hl.
  destruct (items_open (print_member ind (S lvl)) ind (S lvl) lvl "}" (parse_members (parse_value d))
    (reads_member ind (S lvl) d)) with (l := l) (t := t) as (c & u & E & Hc & Hi); auto.
  - intros n v t' Hv. cbn [parse_members]. rewrite (parse_member_print _ _ _ _ _ Hv) by (by apply stop_nl).
    cbn [mbind option_bind fst snd]. by rewrite skip_nl.
  - intros. by apply members_more.
  - intros [k x] _. eexists _, _; split; [reflexivity|done].
  - unfold parse_object. by rewrite E, Hc, Hi.
Qed.

Lemma number_start c :
  is_digit c = true \/ c = "-"%char ->
  Ascii.eqb c dquote = false /\ Ascii.eqb c "[" = false /\ Ascii.eqb c "{" = false
  /\ Ascii.eqb c "n" = false /\ Ascii.eqb c "t" = false /\ Ascii.eqb c "f" = false.
Proof.
  intros [H | ->]; [|done]. destruct c as [[] [] [] [] [] [] [] []]; vm_compute in H; done.
Qed.

Lemma depth_arr l d :
  (depth (JArr l) <= S d)%nat -> Forall (fun v => (depth v <= d)%nat) l.
Proof. cbn. induction l as [|v l IH]; cbn; intros; constructor; [lia|apply IH; lia]. Qed.

Lemma depth_obj l d :
  (depth (JObj l) <= S d)%nat -> Forall (fun kv => (depth (snd kv) <= d)%nat) l.
Proof. cbn. induction l as [|[k v] l IH]; cbn; intros; constructor; [cbn; lia|apply IH; lia]. Qed.

Lemma forallb_Forall {A} (f : A -> bool) l : forallb f l = true -> Forall (fun x => f x = true) l.
Proof. rewrite forallb_forall. intros H. apply List.Forall_forall. exact H. Qed.

(** Every printable value is read back from its text, and reading stops where
    the text ends. *)
Lemma value_print ind v : forall lvl d,
  printable v = true -> (depth v <= d)%nat -> reads_value ind lvl d v.
Proof.
  induction v as [|b|n|s|l IH|l IH] using json_rect'; intros lvl d Hp Hd;
    (split; [by apply print_head|intros t Ht]).
  - str_simpl. cbn [print]. str_simpl. rewrite parse_value_unfold. apply (literal_app "null").
  - destruct b; cbn [print]; str_simpl; rewrite parse_value_unfold;
      [apply (literal_app "true")|apply (literal_app "false")].
  - cbn [print printable] in *. pose proof (number_head n Hp) as [_ (c & u & E & Hc)].
    pose proof (scan_number_app n t Hp Ht) as Hn. rewrite E, str_app_cons in Hn |- *.
    rewrite parse_value_unfold.
    destruct (number_start c Hc) as (-> & -> & -> & -> & -> & ->). by rewrite Hn.
  - by apply parse_quoted.
  - destruct l as [|v l]; [destruct d; [simpl in Hd; lia|done]|]. destruct d as [|d]; [simpl in Hd; lia|].
    cbn [print]. str_simpl. rewrite parse_value_unfold. cbn [Ascii.eqb Bool.eqb].
    rewrite <- !str_app_assoc, str_app_cons, str_app_nil.
    apply (print_array ind lvl (v :: l)); [done|].
    apply depth_arr in Hd. apply forallb_Forall in Hp.
    rewrite Forall_forall in *. eauto.
  - destruct l as [|kv l]; [destruct d; [simpl in Hd; lia|done]|]. destruct d as [|d]; [simpl in Hd; lia|].
    cbn [print]. str_simpl. rewrite parse_value_unfold. cbn [Ascii.eqb Bool.eqb].
    rewrite <- !str_app_assoc, str_app_cons, str_app_nil.
    apply (print_object ind lvl (kv :: l)); [done|].
    apply depth_obj in Hd. apply forallb_Forall in Hp.
    rewrite Forall_forall in *. intros [k x] Hin. specialize (Hp _ Hin). cbn in Hp.
    apply andb_true_iff in Hp as [Hk Hx]. split; [done|]. apply (IH _ Hin); [done|apply (Hd _ Hin)].
Qed.

(** ** Round trips *)

Lemma json_parse_print ind v t :
  printable v = true -> (depth v <= maxNestingDepth)%nat -> skip_ws t = "" -> stop t = true ->
  json_parse (print ind 0 v +:+ t) = Some v.
Proof.
  intros Hp Hd Ht Hst. destruct (value_print ind v 0 maxNestingDepth Hp Hd) as [Hh Hv].
  unfold json_parse. rewrite value_head_skip by (by apply value_head_app).
  rewrite Hv by done. cbn [mbind option_bind snd fst]. by rewrite Ht.
Qed.

Lemma parse_Marshal v :
  printable v = true -> (depth v <= maxNestingDepth)%nat -> json_parse (Marshal v) = Some v.
Proof.
  intros. rewrite <- (str_app_nil_r (Marshal v)). by apply json_parse_print.
Qed.

Lemma parse_MarshalIndent v :
  printable v = true -> (depth v <= maxNestingDepth)%nat -> json_parse (MarshalIndent v) = Some v.
Proof.
  intros. rewrite <- (str_app_nil_r (MarshalIndent v)). by apply json_parse_print.
Qed.
