(* ===== verification/GoStrings.v ===== *)
(** * GoStrings: facts on Go strings and sorting

    Decoding runes is stable under cutting a string at rune boundaries, so
    [TrimSpace] is idempotent; [sort.SliceStable] by a string key. *)

From S2P Require Import Prelude GoLib GoJSON GoJSONProofs.

(** ** Rune boundaries *)

(** The first rune of a string starts it, and decoding continues after it. *)
Lemma runes_head s p l :
  runes s = p :: l -> exists s', s = snd p +:+ s' /\ runes s' = l.
Proof.
  destruct s as [|a s1]; [done|]. cbn [runes].
  assert (forall q, rune_bad a :: runes s1 = q :: l ->
            exists s', String a s1 = snd q +:+ s' /\ runes s' = l) as Hbad
    by (intros q [= <- <-]; by exists s1).
  destruct (byteZ a <? 0x80); [intros [= <- <-]; by exists s1|].
  destruct s1 as [|b s2]; [exact (Hbad p)|].
  destruct (rune2 a b); [intros [= <- <-]; by exists s2|].
  destruct s2 as [|c s3]; [exact (Hbad p)|].
  destruct (rune3 a b c); [intros [= <- <-]; by exists s3|].
  destruct s3 as [|d s4]; [exact (Hbad p)|].
  destruct (rune4 a b c d); [intros [= <- <-]; by exists s4|exact (Hbad p)].
Qed.

Lemma bad_chunk p : chunk p -> bad_rune p = true -> exists a, p = rune_bad a.
Proof.
  intros Hc Hb. unfold bad_rune in Hb. destruct Hc; cbn [fst snd String.length] in Hb;
    rewrite ?andb_false_r in Hb; try discriminate; [|by eexists].
  destruct (Z.eqb_spec (byteZ a) RuneError) as [E|]; [|done]. unfold RuneError in E. lia.
Qed.

(** A bad byte stays bad when the string is cut somewhere after it. *)
Lemma runes_bad_cut a t u l :
  runes (String a (t +:+ u)) = rune_bad a :: l -> runes (String a t) = rune_bad a :: runes t.
Proof.
  assert (forall b, byteZ b <> RuneError) as Hne.
  { intros b. pose proof (N_ascii_bounded b). unfold byteZ, RuneError. lia. }
  cbn [runes]. destruct (byteZ a <? 0x80). { intros [= H _]. by destruct (Hne a). }
  destruct t as [|b t]; [done|]. rewrite str_app_cons. cbn [runes].
  destruct (rune2 a b); [discriminate|].
  destruct t as [|c t]; [done|]. rewrite str_app_cons.
  destruct (rune3 a b c); [discriminate|].
  destruct t as [|d t]; [done|]. rewrite str_app_cons.
  destruct (rune4 a b c d); [discriminate|]. done.
Qed.

Lemma runes_cut p t u l :
  chunk p -> runes (snd p +:+ t +:+ u) = p :: l -> runes (snd p +:+ t) = p :: runes t.
Proof.
  intros Hc H. destruct (bad_rune p) eqn:Hb; [|by apply runes_chunk].
  destruct (bad_chunk p Hc Hb) as [a ->]. cbn [snd rune_bad] in *. revert H. str_simpl. apply runes_bad_cut.
Qed.

Lemma concat_bytes_app l1 l2 : concat_bytes (l1 ++ l2) = concat_bytes l1 +:+ concat_bytes l2.
Proof.
  induction l1 as [|[r b] l1 IH]; [done|]. cbn [app]. by rewrite !concat_bytes_cons, IH, str_app_assoc.
Qed.

(** The runes of a piece cut out at rune boundaries. *)
Lemma runes_prefix l1 : forall s l2, runes s = l1 ++ l2 -> runes (concat_bytes l1) = l1.
Proof.
  induction l1 as [|p l1 IH]; intros s l2 H; [done|]. cbn [app] in H.
  pose proof (runes_chunks s) as Hc. rewrite H in Hc. apply Forall_cons in Hc as [Hc _].
  destruct (runes_head s p (l1 ++ l2) H) as (s' & -> & Hs').
  cbn [concat_bytes foldr]. change (foldr _ "" l1) with (concat_bytes l1).
  assert (s' = concat_bytes l1 +:+ concat_bytes l2) as E
    by (by rewrite <- (runes_concat s'), Hs', concat_bytes_app).
  rewrite E in H. rewrite (runes_cut p (concat_bytes l1) (concat_bytes l2) (l1 ++ l2) Hc H).
  by rewrite (IH s' l2 Hs').
Qed.

Lemma runes_suffix l1 : forall s l2, runes s = l1 ++ l2 -> runes (concat_bytes l2) = l2.
Proof.
  induction l1 as [|p l1 IH]; intros s l2 H; cbn [app] in H; [by rewrite <- H, runes_concat|].
  destruct (runes_head s p (l1 ++ l2) H) as (s' & _ & Hs'). by eapply IH.
Qed.

Lemma drop_while_split {A} (f : A -> bool) l :
  exists l1, l = l1 ++ drop_while f l /\ Forall (fun x => f x = true) l1
             /\ match drop_while f l with x :: _ => f x = false | [] => True end.
Proof.
  induction l as [|x l (l1 & E & Hf & Hh)]; [by exists []|]. cbn [drop_while].
  destruct (f x) eqn:Hx; [|by exists []].
  exists (x :: l1). cbn. split; [by rewrite <- E|]. split; [by constructor|done].
Qed.

Lemma drop_while_stop {A} (f : A -> bool) l :
  match l with x :: _ => f x = false | [] => True end -> drop_while f l = l.
Proof. destruct l as [|x l]; [done|]. cbn. by intros ->. Qed.

Definition trim_runes (l : list (Z * string)) : list (Z * string) :=
  let space p := IsSpace (fst p) in rev (drop_while space (rev (drop_while space l))).

Lemma trim_runes_spec l :
  exists l1 l2, l = l1 ++ trim_runes l ++ l2 /\ trim_runes (trim_runes l) = trim_runes l.
Proof.
  unfold trim_runes. set (f := fun p : Z * string => IsSpace (fst p)).
  destruct (drop_while_split f l) as (l1 & E1 & _ & H1). set (m := drop_while f l) in *.
  destruct (drop_while_split f (rev m)) as (l2 & E2 & _ & H2). set (n := drop_while f (rev m)) in *.
  assert (m = rev n ++ rev l2) as Em by (rewrite <- rev_app_distr, <- E2; by rewrite rev_involutive).
  exists l1, (rev l2). split; [by rewrite <- Em|].
  assert (drop_while f (rev n) = rev n) as ->.
  { apply drop_while_stop. rewrite Em in H1. destruct (rev n); [done|exact H1]. }
  rewrite rev_involutive. by rewrite (drop_while_stop f n H2).
Qed.

Lemma TrimSpace_idem s : TrimSpace (TrimSpace s) = TrimSpace s.
Proof.
  change (concat_bytes (trim_runes (runes (concat_bytes (trim_runes (runes s)))))
          = concat_bytes (trim_runes (runes s))).
  destruct (trim_runes_spec (runes s)) as (l1 & l2 & E & Hi).
  pose proof (runes_suffix l1 s _ E) as H2. pose proof (runes_prefix _ _ _ H2) as H3.
  by rewrite H3, Hi.
Qed.

(** ** Stable sorting by a string key

    [sort.SliceStable] with [key a < key b]: insertion that never passes an
    equal key. *)
Definition str_lt (a b : string) : bool := negb (bool_decide (String.le b a)).

Fixpoint insert_by {A} (key : A -> string) (x : A) (l : list A) : list A :=
  match l with
  | [] => [x]
  | y :: l' => if str_lt (key y) (key x) then y :: insert_by key x l' else x :: l
  end.
Definition SliceStable {A} (key : A -> string) (l : list A) : list A := foldr (insert_by key) [] l.

Definition key_sorted {A} (key : A -> string) : list A -> Prop :=
  StronglySorted (fun x y => String.le (key x) (key y)).

Lemma str_lt_le a b : str_lt a b = true -> String.le a b.
Proof.
  unfold str_lt. rewrite negb_true_iff, bool_decide_eq_false. intros H.
  by destruct (total String.le a b).
Qed.
Lemma str_lt_ge a b : str_lt a b = false <-> String.le b a.
Proof. unfold str_lt. by rewrite negb_false_iff, bool_decide_eq_true. Qed.

Lemma insert_by_perm {A} (key : A -> string) x l : insert_by key x l ≡ₚ x :: l.
Proof.
  induction l as [|y l IH]; [done|]. cbn [insert_by]. destruct (str_lt _ _); [|done].
  rewrite IH. apply Permutation_swap.
Qed.

Lemma SliceStable_perm {A} (key : A -> string) l : SliceStable key l ≡ₚ l.
Proof. induction l as [|x l IH]; [done|]. cbn. by rewrite insert_by_perm, IH. Qed.

Lemma insert_by_sorted {A} (key : A -> string) x l : key_sorted key l -> key_sorted key (insert_by key x l).
Proof.
  induction 1 as [|y l Hs IH Hy]; cbn [insert_by]; [by repeat constructor|].
  destruct (str_lt (key y) (key x)) eqn:E.
  - constructor; [done|]. rewrite insert_by_perm. constructor; [by apply str_lt_le|done].
  - apply str_lt_ge in E. constructor; [by constructor|]. constructor; [done|].
    eapply Forall_impl; [exact Hy|]. intros z Hz. by etrans.
Qed.

Lemma SliceStable_sorted {A} (key : A -> string) l : key_sorted key (SliceStable key l).
Proof. induction l; [constructor|by apply insert_by_sorted]. Qed.

Lemma SliceStable_id {A} (key : A -> string) l : key_sorted key l -> SliceStable key l = l.
Proof.
  induction 1 as [|y l Hs IH Hy]; [done|]. cbn. fold (SliceStable key l). rewrite IH.
  destruct l as [|z l]; [done|]. cbn. apply Forall_cons in Hy as [Hz _].
  by rewrite (proj2 (str_lt_ge (key z) (key y)) Hz).
Qed.

(** Equal keys keep their order. *)
Lemma insert_by_filter {A} (key : A -> string) k x l :
  List.filter (fun y => String.eqb (key y) k) (insert_by key x l)
  = List.filter (fun y => String.eqb (key y) k) (x :: l).
Proof.
  induction l as [|y l IH]; [done|]. cbn [insert_by]. destruct (str_lt _ _) eqn:E; [|done].
  cbn [List.filter] in *. rewrite IH.
  destruct (String.eqb_spec (key y) k) as [Ey|], (String.eqb_spec (key x) k) as [Ex|]; try done.
  exfalso. unfold str_lt in E. rewrite negb_true_iff, bool_decide_eq_false in E. apply E. by rewrite Ey, Ex.
Qed.

Lemma SliceStable_stable {A} (key : A -> string) k l :
  List.filter (fun y => String.eqb (key y) k) (SliceStable key l)
  = List.filter (fun y => String.eqb (key y) k) l.
Proof.
  induction l as [|x l IH]; [done|]. cbn [SliceStable foldr]. rewrite insert_by_filter. cbn [List.filter].
  fold (SliceStable key l). by rewrite IH.
Qed.
