(* ===== verification/GoAny.v ===== *)
(** * GoAny: Go's [any] as encoding/json fills and prints it

    A value of type [any] decoded from JSON is nil, a bool, a float64, a
    string, a [[]any] or a [map[string]any]; the router also stores Go ints in
    such values, and a decoder with [UseNumber] stores a [json.Number] ([ALit])
    for a float64.  Maps are [gmap]s: iteration order is never observable in the
    code modelled here, and the encoder sorts keys.  Numbers are binary64:
    [ParseFloat] rounds to nearest even, [shortest] finds the shortest decimal
    that reads back. *)

From S2P Require Import Prelude GoLib GoHTTP GoJSON.
From Stdlib Require Import SpecFloat DecimalString DecimalZ.

Inductive any :=
  | ANil
  | ABool (b : bool)
  | AInt (z : Z)
  | ANum (x : float64)
  | AStr (s : string)
  | AArr (l : list any)
  | AMap (m : gmap string any)
  | ALit (lit : string).

Abbreviation obj := (gmap string any).

(** ** Decimal to binary *)

(** [d * 10^e], for a positive [d], correctly rounded; [None] out of range. *)
Definition float_of_decimal (neg : bool) (d : positive) (e : Z) : option float64 :=
  let nd := Z.of_nat (String.length (Itoa (Z.pos d))) in
  if 309 <? e + nd then None
  else if e + nd <? -323 then Some (S754_zero neg)
  else
    let x :=
      if 0 <=? e then binary_normalize 53 1024 ((if neg then Z.opp else id) (Z.pos d * 10 ^ e)) 0 neg
      else
        match 10 ^ (- e) with
        | Z.pos den =>
            let '(m, e', l) := SFdiv_core_binary 53 1024 (Z.pos d) 0 (Z.pos den) 0 in
            binary_round_aux 53 1024 neg m e' l
        | _ => S754_nan
        end in
    match x with S754_infinity _ | S754_nan => None | _ => Some x end.

Definition digits_val (s : string) : Z := default 0 (Z.of_uint <$> NilZero.uint_of_string s).

(** [strconv.ParseFloat] on a JSON number. *)
Definition ParseFloat (lit : string) : option float64 :=
  let '(sg, s1) := scan_sign true lit in
  i ← scan_int s1; f ← scan_frac (snd i); e ← scan_exp (snd f);
  let frac := drop_str 1 (fst f) in
  let exp :=
    match fst e with
    | String _ (String "-" t) => - digits_val t
    | String _ (String "+" t) => digits_val t
    | String _ t => digits_val t
    | "" => 0
    end in
  let neg := negb (String.eqb sg "") in
  match digits_val (fst i +:+ frac) with
  | Z.pos d => float_of_decimal neg d (exp - lenZ frac)
  | _ => Some (S754_zero neg)
  end.

(** ** Binary to decimal

    [0.d1...dn * 10^k]: the digits and [k] of the shortest decimal that rounds
    to the float, the nearest one of that length.  A float is an integer [v]
    over a power of ten, [10^p]. *)
Definition scaled (m : positive) (e : Z) : Z * Z :=
  if e <? 0 then (Z.pos m * 5 ^ (- e), - e) else (Z.pos m * 2 ^ e, 0).

(** [n] digits of [v], which has [len] digits, to nearest even, and whether
    they carried over. *)
Definition round_digits (v len n : Z) : Z * bool :=
  if len <=? n then (v * 10 ^ (n - len), false)
  else
    let p := 10 ^ (len - n) in
    let q := v / p in
    let r := v mod p in
    let q := if (p <? 2 * r) || ((p =? 2 * r) && Z.odd q) then q + 1 else q in
    if q =? 10 ^ n then (10 ^ (n - 1), true) else (q, false).

Fixpoint shortest_from (fuel : nat) (neg : bool) (m : positive) (e v len p n : Z) : Z * Z :=
  let '(q, carry) := round_digits v len n in
  let k := len - p + (if carry then 1 else 0) in
  match fuel with
  | O => (q, k)
  | S fuel' =>
      if match q with
         | Z.pos d => bool_decide (float_of_decimal neg d (k - n) = Some (S754_finite neg m e))
         | _ => false
         end
      then (q, k)
      else shortest_from fuel' neg m e v len p (n + 1)
  end.

Definition shortest (neg : bool) (m : positive) (e : Z) : string * Z :=
  let '(v, p) := scaled m e in
  let '(q, k) := shortest_from 16 neg m e v (lenZ (Itoa v)) p 1 in (Itoa q, k).

Fixpoint zeros (n : nat) : string := match n with O => "" | S n' => String "0" (zeros n') end.

(** [%f] and [%e] of a digit string with its decimal point. *)
Definition fmtF (ds : string) (k : Z) : string :=
  let nd := lenZ ds in
  if k <=? 0 then "0." +:+ zeros (Z.to_nat (- k)) +:+ ds
  else if nd <=? k then ds +:+ zeros (Z.to_nat (k - nd))
  else substring 0 (Z.to_nat k) ds +:+ "." +:+ drop_str (Z.to_nat k) ds.

Definition fmtE (pad : bool) (ds : string) (k : Z) : string :=
  let e := k - 1 in
  let d := Itoa (Z.abs e) in
  (match ds with
   | String c "" => String c ""
   | String c t => String c (String "." t)
   | "" => ""
   end) +:+ "e" +:+ (if e <? 0 then "-" else "+")
  +:+ (if pad && (lenZ d <? 2) then "0" +:+ d else d).

Definition sign_str (neg : bool) : string := if neg then "-" else "".

(** The encoder's number ([floatEncoder]); exponents from 21 have two digits. *)
Definition FormatFloat (x : float64) : string :=
  match x with
  | S754_zero neg => sign_str neg +:+ "0"
  | S754_finite neg m e =>
      let '(ds, k) := shortest neg m e in
      sign_str neg +:+ (if (k <=? -6) || (22 <=? k) then fmtE false ds k else fmtF ds k)
  | S754_infinity neg => sign_str neg +:+ "Inf"
  | S754_nan => "NaN"
  end.

(** [fmt.Sprint] of a float64 ([%g] with the shortest precision). *)
Definition SprintFloat (x : float64) : string :=
  match x with
  | S754_zero neg => sign_str neg +:+ "0"
  | S754_finite neg m e =>
      let '(ds, k) := shortest neg m e in
      sign_str neg +:+ (if (k - 1 <? -4) || (6 <=? k - 1) then fmtE true ds k else fmtF ds k)
  | S754_infinity neg => (if neg then "-" else "+") +:+ "Inf"
  | S754_nan => "NaN"
  end.

Definition fmt_lit (lit : string) : option string := FormatFloat <$> ParseFloat lit.

Example floats_ex :
  fmt_lit "0.1" = Some "0.1" /\ fmt_lit "1.50e2" = Some "150" /\ fmt_lit "-0" = Some "-0"
  /\ fmt_lit "1e21" = Some "1e+21" /\ fmt_lit "123456789012345678" = Some "123456789012345680"
  /\ fmt_lit "0.0000001234" = Some "1.234e-7" /\ fmt_lit "1e309" = None
  /\ fmt_lit "5e-324" = Some "5e-324" /\ fmt_lit "1.7976931348623157e308" = Some "1.7976931348623157e+308"
  /\ SprintFloat (f64_of_Z 1234567) = "1.234567e+06".
Proof. vm_compute. done. Qed.

(** ** Decoding into [any] *)

Definition mapM_list {A B} (f : A -> option B) : list A -> option (list B) :=
  fix go l := match l with [] => Some [] | x :: l' => y ← f x; ys ← go l'; Some (y :: ys) end.

Fixpoint any_of (v : json) : option any :=
  match v with
  | JNull => Some ANil
  | JBool b => Some (ABool b)
  | JNum lit => ANum <$> ParseFloat lit
  | JStr s => Some (AStr s)
  | JArr l => AArr <$> mapM_list any_of l
  | JObj l =>
      (fun kvs : list (string * any) => AMap (list_to_map (reverse kvs)))
        <$> mapM_list (fun '(k, x) => pair k <$> any_of x) l
  end.

(** The same with [UseNumber]: numbers keep their literal. *)
Fixpoint any_num_of (v : json) : any :=
  match v with
  | JNull => ANil
  | JBool b => ABool b
  | JNum lit => ALit lit
  | JStr s => AStr s
  | JArr l => AArr (List.map any_num_of l)
  | JObj l => AMap (list_to_map (reverse (List.map (fun '(k, x) => (k, any_num_of x)) l)))
  end.

(** [var v any; json.Unmarshal(data, &v)] and the same into a
    [map[string]any]; a nil map is [None] inside. *)
Definition Unmarshal_any (data : string) : option any := json_parse data ≫= any_of.

Definition Unmarshal_map (data : string) : option (option obj) :=
  v ← json_parse data;
  match v with
  | JNull => Some None
  | JObj _ => a ← any_of v; match a with AMap m => Some (Some m) | _ => None end
  | _ => None
  end.

(** ** Encoding *)

Definition key_le (p q : string * json) : Prop := String.le (fst p) (fst q).
#[export] Instance key_le_dec p q : Decision (key_le p q).
Proof. unfold key_le. apply _. Defined.

Fixpoint json_of (v : any) : json :=
  match v with
  | ANil => JNull
  | ABool b => JBool b
  | AInt z => JNum (Itoa z)
  | ANum x => JNum (FormatFloat x)
  | AStr s => JStr s
  | AArr l => JArr (List.map json_of l)
  | AMap m => JObj (merge_sort key_le (map_to_list (json_of <$> m)))
  | ALit lit => JNum lit
  end.

(** Infinities and NaN cannot be encoded. *)
Definition f64_finite (x : float64) : bool :=
  match x with S754_infinity _ | S754_nan => false | _ => true end.

Fixpoint encodable (v : any) : bool :=
  match v with
  | ANum x => f64_finite x
  | AArr l => forallb encodable l
  | AMap m => map_fold (fun _ b acc => b && acc) true (encodable <$> m)
  | _ => true
  end.

Definition Marshal_any (v : any) : option string :=
  if encodable v then Some (Marshal (json_of v)) else None.

(** The encoder without HTML escaping ([SetEscapeHTML(false)]). *)
Definition esc_rune_plain (p : Z * string) : string :=
  if (fst p =? 60) || (fst p =? 62) || (fst p =? 38) then snd p else esc_rune p.

Definition quote_plain (s : string) : string :=
  String dquote (foldr (fun p acc => esc_rune_plain p +:+ acc) "" (runes s) +:+ String dquote "").

Fixpoint print_plain (v : json) : string :=
  match v with
  | JNull => "null"
  | JBool b => if b then "true" else "false"
  | JNum lit => lit
  | JStr s => quote_plain s
  | JArr l => "[" +:+ Join (List.map print_plain l) "," +:+ "]"
  | JObj l => "{" +:+ Join (List.map (fun '(k, x) => quote_plain k +:+ ":" +:+ print_plain x) l) "," +:+ "}"
  end.

(** ** Type assertions *)

Definition as_str (v : option any) : option string := match v with Some (AStr s) => Some s | _ => None end.
Definition as_map (v : option any) : option obj := match v with Some (AMap m) => Some m | _ => None end.
Definition as_arr (v : option any) : option (list any) := match v with Some (AArr l) => Some l | _ => None end.
Definition as_bool (v : option any) : option bool := match v with Some (ABool b) => Some b | _ => None end.

(** [m[k]] is nil: absent, or null. *)
Definition is_nil (v : option any) : bool :=
  match v with None | Some ANil => true | _ => false end.

(** ** Induction and size *)

Fixpoint asize (v : any) : nat :=
  match v with
  | AArr l => S (foldr (fun x n => asize x + n)%nat O l)
  | AMap m => S (map_fold (fun _ x n => x + n)%nat O (asize <$> m))
  | _ => 1%nat
  end.

Lemma asize_elem l x : x ∈ l -> (asize x <= foldr (fun x n => asize x + n)%nat O l)%nat.
Proof. induction 1; cbn; lia. Qed.

Lemma asize_lookup (m : obj) k x :
  m !! k = Some x -> (asize x <= map_fold (fun _ x n => x + n)%nat O (asize <$> m))%nat.
Proof.
  intros Hk. assert ((asize <$> m) !! k = Some (asize x)) as H by (by rewrite lookup_fmap, Hk).
  revert H. generalize (asize <$> m) as n. generalize (asize x) as y. clear. intros y n H.
  rewrite <- (insert_delete_id n k y H), map_fold_insert_L.
  - lia.
  - intros. lia.
  - by rewrite lookup_delete_eq.
Qed.

Lemma any_rect' (P : any -> Prop) :
  P ANil -> (forall b, P (ABool b)) -> (forall z, P (AInt z)) -> (forall x, P (ANum x)) ->
  (forall s, P (AStr s)) -> (forall l, Forall P l -> P (AArr l)) ->
  (forall m, map_Forall (fun _ => P) m -> P (AMap m)) -> (forall lit, P (ALit lit)) -> forall v, P v.
Proof.
  intros Hn Hb Hi Hf Hs Ha Hm Hl v. remember (asize v) as n eqn:E.
  assert (asize v <= n)%nat as Hle by lia. clear E. revert v Hle.
  induction n as [|n IH]; intros v Hle; [destruct v; cbn in Hle; lia|].
  destruct v; auto; cbn [asize] in Hle.
  - apply Ha, Forall_forall. intros x Hx. apply IH. apply asize_elem in Hx. lia.
  - apply Hm. intros k x Hx. apply IH. apply asize_lookup in Hx. lia.
Qed.
