(* ===== verification/GoBufio.v ===== *)
(** * GoBufio: bufio.Scanner over lines

    A reader is its bytes and how it ends ([None] is [io.EOF]), reported by a
    read of its own.  [Scan] gives the lines a scanner with [ScanLines]
    delivers and its [Err()]: a line and its newline must fit the buffer, a
    longer one ends the scan with [bufio.ErrTooLong]; an unterminated last
    line is delivered, also before the reader's error. *)

From S2P Require Import Prelude GoLib GoHTTP Errors.

Record reader := mkReader { rd_data : string; rd_err : option error }.

Definition lf : ascii := "010".
Definition newline : string := String lf "".
Definition cr : string := String "013" "".

Definition dropCR (line : string) : string := TrimSuffix line cr.

(** [scanner.Buffer(make([]byte, 0, c), max)]: the buffer grows to [max], and
    is never smaller than [c]. *)
Definition buffer_limit (c max : Z) : Z := Z.max c max.

Fixpoint scan_pieces (limit : Z) (rerr : option error) (ps : list string) : list string * option error :=
  match ps with
  | [] => ([], rerr)
  | p :: ps' =>
      if limit <=? lenZ p then ([], Some (Sentinel ErrTooLong))
      else match ps' with
           | [] => (if String.eqb p "" then [] else [dropCR p], rerr)
           | _ => let '(ls, e) := scan_pieces limit rerr ps' in (dropCR p :: ls, e)
           end
  end.

Definition Scan (limit : Z) (r : reader) : list string * option error :=
  scan_pieces limit (rd_err r) (Split (rd_data r) lf).

(** ** Lines put together again *)

Definition concat_str (l : list string) : string := foldr String.append "" l.
Definition unlines (ls : list string) : string := concat_str (List.map (fun l => l +:+ newline) ls).

Lemma concat_str_app a b : concat_str (a ++ b) = concat_str a +:+ concat_str b.
Proof.
  induction a as [|x a IH]; [done|].
  change (x +:+ concat_str (a ++ b) = (x +:+ concat_str a) +:+ concat_str b). by rewrite IH, str_app_assoc.
Qed.

Lemma unlines_cons l ls : unlines (l :: ls) = (l +:+ newline) +:+ unlines ls.
Proof. done. Qed.

Definition no_byte (c : ascii) (s : string) : bool := all_bytes (fun a => negb (Ascii.eqb a c)) s.

(** A line the scanner gives back as it is. *)
Definition plain_line (limit : Z) (l : string) : bool :=
  no_byte lf l && negb (HasSuffix l cr) && (lenZ l <? limit).

Lemma Split_line c l t : no_byte c l = true -> Split (l +:+ String c t) c = l :: Split t c.
Proof.
  unfold no_byte. induction l as [|a l IH]; cbn [all_bytes]; intros H.
  - change ("" +:+ String c t) with (String c t). cbn [Split]. by rewrite Ascii.eqb_refl.
  - breflect. change (String a l +:+ String c t) with (String a (l +:+ String c t)). cbn [Split].
    apply Ascii.eqb_neq in H. rewrite (proj2 (Ascii.eqb_neq a c)) by done. by rewrite IH.
Qed.

Lemma Split_plain c l : no_byte c l = true -> Split l c = [l].
Proof.
  unfold no_byte. induction l as [|a l IH]; [done|]. cbn [all_bytes]. intros H. breflect. cbn [Split].
  apply Ascii.eqb_neq in H. rewrite (proj2 (Ascii.eqb_neq a c)) by done. by rewrite IH.
Qed.

Lemma Split_no_byte c s : Forall (fun p => no_byte c p = true) (Split s c).
Proof.
  unfold no_byte. induction s as [|a s IH]; [by repeat constructor|]. cbn [Split].
  destruct (Ascii.eqb_spec a c) as [->|Hn]; [by constructor|].
  destruct (Split s c) as [|w ws]; [repeat constructor; cbn; by apply Ascii.eqb_neq in Hn as ->|].
  inversion IH as [|? ? Hw Hws]; subst. constructor; [|done]. cbn. apply Ascii.eqb_neq in Hn as ->. exact Hw.
Qed.

Lemma dropCR_id l : HasSuffix l cr = false -> dropCR l = l.
Proof. unfold dropCR, TrimSuffix. by intros ->. Qed.

Lemma scan_pieces_cons limit rerr p ps :
  plain_line limit p = true -> ps <> [] ->
  scan_pieces limit rerr (p :: ps) = (p :: fst (scan_pieces limit rerr ps), snd (scan_pieces limit rerr ps)).
Proof.
  intros H Hne. unfold plain_line in H. breflect. cbn [scan_pieces].
  rewrite (proj2 (Z.leb_gt limit (lenZ p))) by done. destruct ps as [|q ps]; [done|].
  rewrite dropCR_id by done. by destruct (scan_pieces limit rerr (q :: ps)).
Qed.

(** Lines written with a newline each are scanned back. *)
Lemma Scan_unlines limit rerr ls :
  0 < limit -> Forall (fun l => plain_line limit l = true) ls ->
  Scan limit (mkReader (unlines ls) rerr) = (ls, rerr).
Proof.
  intros Hl. unfold Scan. cbn [rd_data rd_err]. induction 1 as [|l ls Hp Hls IH].
  - cbn. by rewrite (proj2 (Z.leb_gt limit _)) by (unfold lenZ; cbn; lia).
  - unfold unlines. cbn [List.map concat_str foldr]. fold (concat_str (List.map (fun l => l +:+ newline) ls)).
    fold (unlines ls). unfold newline. rewrite <- str_app_assoc.
    change (String lf "" +:+ unlines ls) with (String lf (unlines ls)).
    rewrite Split_line by (unfold plain_line in Hp; by breflect).
    rewrite scan_pieces_cons by (done || apply Split_not_nil). by rewrite IH.
Qed.

(** What a scan delivers has no newline and fits the buffer. *)
Lemma scan_pieces_lines limit rerr ps :
  Forall (fun p => no_byte lf p = true) ps ->
  Forall (fun l => exists p, l = dropCR p /\ no_byte lf p = true /\ lenZ p < limit) (fst (scan_pieces limit rerr ps)).
Proof.
  induction 1 as [|p ps Hp Hps IH]; cbn [scan_pieces]; [constructor|].
  destruct (Z.leb_spec limit (lenZ p)); [constructor|]. destruct ps as [|q ps].
  - cbn [fst]. destruct (String.eqb p ""); [constructor|]. constructor; [|constructor]. by exists p.
  - destruct (scan_pieces limit rerr (q :: ps)) as [ls e]. cbn [fst] in *. constructor; [by exists p|done].
Qed.

Lemma Scan_lines limit r :
  Forall (fun l => exists p, l = dropCR p /\ no_byte lf p = true /\ lenZ p < limit) (fst (Scan limit r)).
Proof. apply scan_pieces_lines, Split_no_byte. Qed.

Lemma take_str_length n s : (String.length (take_str n s) <= String.length s)%nat.
Proof. revert s. induction n as [|n IH]; intros [|a s]; cbn; try lia. specialize (IH s). lia. Qed.

Lemma dropCR_length p : lenZ (dropCR p) <= lenZ p.
Proof.
  unfold dropCR, TrimSuffix, lenZ. destruct (HasSuffix p cr); [|lia].
  pose proof (take_str_length (String.length p - String.length cr)%nat p). lia.
Qed.

(** A scan that ends without an error has delivered everything. *)
Lemma scan_pieces_all limit rerr ps :
  snd (scan_pieces limit rerr ps) <> Some (Sentinel ErrTooLong) ->
  fst (scan_pieces limit rerr ps)
  = List.map dropCR (match List.rev ps with "" :: r => List.rev r | _ => ps end).
Proof.
  induction ps as [|p ps IH]; cbn [scan_pieces]; [done|].
  destruct (limit <=? lenZ p); [done|]. destruct ps as [|q ps].
  - cbn [fst List.rev app]. intros _. destruct p; [done|]. done.
  - intros H. destruct (scan_pieces limit rerr (q :: ps)) as [ls e] eqn:E. cbn [fst snd] in *.
    rewrite IH by done. cbn [List.rev]. destruct (List.rev ps ++ [q]) as [|w ws] eqn:Er; [by destruct (List.rev ps)|].
    cbn [app]. destruct w as [|a w]; [|done]. by rewrite List.rev_app_distr.
Qed.

Example Scan_ex :
  Scan 5 (mkReader ("ab" +:+ cr +:+ newline +:+ newline +:+ "c") None) = (["ab"; ""; "c"], None)
  /\ Scan 3 (mkReader ("ab" +:+ newline +:+ "abc") None) = (["ab"], Some (Sentinel ErrTooLong)).
Proof. vm_compute. done. Qed.
