(* ===== verification/GoAnyProofs.v ===== *)
(** * GoAnyProofs: decoded values can be encoded, on one line *)

From S2P Require Import Prelude GoLib GoHTTP GoJSON GoJSONProofs GoAny GoBufio.
From Stdlib Require Import SpecFloat DecimalString DecimalZ.

(** ** Encodable values *)

Lemma fold_andb (m : gmap string bool) :
  map_fold (fun _ b acc => b && acc) true m = true <-> map_Forall (fun _ b => b = true) m.
Proof.
  induction m as [|k b m Hk IH] using map_ind.
  - rewrite map_fold_empty. split; [intros _; apply map_Forall_empty|done].
  - rewrite map_fold_insert_L; [|intros; by rewrite !andb_assoc, (andb_comm z1 z2)|done].
    rewrite andb_true_iff, IH, map_Forall_insert by done. done.
Qed.

Lemma encodable_map m : encodable (AMap m) = true <-> map_Forall (fun _ v => encodable v = true) m.
Proof.
  cbn [encodable]. rewrite fold_andb. unfold map_Forall. setoid_rewrite lookup_fmap.
  split; intros H k v Hk; [apply (H k); by rewrite Hk|].
  destruct (m !! k) as [x|] eqn:E; [|done]. injection Hk as <-. by eapply H.
Qed.

Lemma encodable_insert m k v :
  encodable (AMap m) = true -> encodable v = true -> encodable (AMap (<[k := v]> m)) = true.
Proof. rewrite !encodable_map. intros Hm Hv. by apply map_Forall_insert_2. Qed.

Lemma encodable_lookup m k v : encodable (AMap m) = true -> m !! k = Some v -> encodable v = true.
Proof. rewrite encodable_map. intros H Hk. by eapply H. Qed.

Lemma encodable_empty : encodable (AMap ∅) = true.
Proof. done. Qed.

Lemma encodable_elem l v : encodable (AArr l) = true -> v ∈ l -> encodable v = true.
Proof. cbn. rewrite forallb_forall. intros H Hv. apply H. by apply list_elem_of_In. Qed.

Lemma encodable_Marshal v : encodable v = true -> Marshal_any v = Some (Marshal (json_of v)).
Proof. unfold Marshal_any. by intros ->. Qed.

Lemma ParseFloat_finite lit x : ParseFloat lit = Some x -> f64_finite x = true.
Proof.
  unfold ParseFloat. destruct (scan_sign true lit) as [sg s1].
  destruct (scan_int s1) as [i|]; [|done]. cbn [mbind option_bind].
  destruct (scan_frac (snd i)) as [f|]; [|done]. cbn [mbind option_bind].
  destruct (scan_exp (snd f)) as [e|]; [|done]. cbn [mbind option_bind].
  destruct (digits_val _) as [|d|d]; try (by intros [= <-]).
  unfold float_of_decimal. destruct (_ <? _); [done|]. destruct (_ <? _); [by intros [= <-]|].
  match goal with |- context [match ?y with S754_zero _ => _ | _ => _ end] => destruct y end;
    by try intros [= <-].
Qed.

Lemma mapM_Forall {A B} (f : A -> option B) (P : A -> Prop) (Q : B -> Prop) l : forall r,
  Forall P l -> (forall x y, P x -> f x = Some y -> Q y) -> mapM_list f l = Some r -> Forall Q r.
Proof.
  induction l as [|x l IH]; intros r HP Hf; cbn; [by intros [= <-]|].
  inversion HP; subst. destruct (f x) as [y|] eqn:E; [|done]. cbn.
  destruct (mapM_list f l) as [ys|] eqn:E'; [|done]. cbn. intros [= <-].
  constructor; [by eapply Hf|]. by apply IH.
Qed.

(** Whatever is decoded can be encoded, and holds no [json.Number]. *)
Fixpoint no_lit (v : any) : Prop :=
  match v with
  | ALit _ => False
  | AArr l => foldr (fun x P => no_lit x /\ P) True l
  | AMap m => map_Forall (fun _ P => P) (no_lit <$> m)
  | _ => True
  end.

Lemma no_lit_map m : no_lit (AMap m) <-> map_Forall (fun _ v => no_lit v) m.
Proof.
  cbn [no_lit]. unfold map_Forall. setoid_rewrite lookup_fmap.
  split; intros H k v Hk; [apply (H k); by rewrite Hk|].
  destruct (m !! k) as [x|] eqn:E; [|done]. injection Hk as <-. by eapply H.
Qed.

Lemma no_lit_arr l : no_lit (AArr l) <-> Forall no_lit l.
Proof. cbn [no_lit]. induction l as [|x l IH]; cbn; [done|]. rewrite IH, Forall_cons. done. Qed.

Lemma any_of_good v : forall a, any_of v = Some a -> encodable a = true /\ no_lit a.
Proof.
  induction v as [|b|n|s|l IH|l IH] using json_rect'; intros a; cbn [any_of]; try (by intros [= <-]).
  - destruct (ParseFloat n) as [x|] eqn:E; [|done]. intros [= <-]. split; [|done]. by eapply ParseFloat_finite.
  - destruct (mapM_list any_of l) as [r|] eqn:E; [|done]. intros [= <-].
    pose proof (mapM_Forall any_of _ (fun a => encodable a = true /\ no_lit a) l r IH (fun x y H => H y) E) as H.
    apply Forall_and in H as [H1 H2]. split; [|by apply no_lit_arr].
    cbn. apply forallb_forall. by apply List.Forall_forall.
  - destruct (mapM_list _ l) as [r|] eqn:E; [|done]. intros [= <-].
    assert (Forall (fun kv => encodable (snd kv) = true /\ no_lit (snd kv)) r) as H.
    { refine (mapM_Forall _ _ _ l r IH _ E). intros [k x] [k' y] Hx. cbn.
      destruct (any_of x) as [z|] eqn:Ex; [|done]. intros [= <- <-]. by apply Hx. }
    assert (forall k v, (list_to_map (reverse r) : obj) !! k = Some v -> encodable v = true /\ no_lit v) as Hm.
    { intros k v Hk%elem_of_list_to_map_2. rewrite elem_of_reverse in Hk.
      rewrite Forall_forall in H. exact (H _ Hk). }
    split; [apply encodable_map|apply no_lit_map]; intros k v Hk; by apply (Hm k v).
Qed.

Lemma Unmarshal_map_good data m :
  Unmarshal_map data = Some (Some m) -> encodable (AMap m) = true /\ no_lit (AMap m).
Proof.
  unfold Unmarshal_map. destruct (json_parse data) as [v|]; [|done]. cbn [mbind option_bind].
  destruct v; try done. destruct (any_of (JObj l)) as [a|] eqn:E; [|done]. cbn [mbind option_bind].
  destruct a; try done. intros [= <-]. by eapply any_of_good.
Qed.

(** ** The encoder writes no control bytes *)

Definition vis (s : string) : bool := all_bytes (fun a => 0x20 <=? byteZ a) s.

Lemma vis_app a b : vis (a +:+ b) = vis a && vis b.
Proof. apply all_bytes_app. Qed.

Lemma vis_Join l sep : vis sep = true -> Forall (fun s => vis s = true) l -> vis (Join l sep) = true.
Proof.
  intros Hs. induction 1 as [|x l Hx Hl IH]; [done|]. destruct l as [|y l]; [done|].
  rewrite Join_cons by done. by rewrite !vis_app, Hx, Hs, IH.
Qed.

Lemma vis_no_byte c s : byteZ c < 0x20 -> vis s = true -> no_byte c s = true.
Proof.
  intros Hc. unfold no_byte, vis. apply all_bytes_impl. intros a Ha. breflect.
  destruct (Ascii.eqb_spec a c) as [->|]; [lia|done].
Qed.

Lemma simple_escape_vis e z : simple_escape e = Some z -> 0x20 <= e.
Proof.
  unfold simple_escape. repeat (case_match; breflect; try lia; try discriminate).
Qed.

Lemma hex_val_vis e z : hex_val e = Some z -> 0x20 <= e.
Proof. unfold hex_val. repeat (case_match; breflect; try lia; try discriminate). Qed.

Lemma esc_form_vis p e : esc_form p e -> vis e = true.
Proof.
  unfold vis. intros [Hp _|x z Hx _|h1 h2 h3 h4 Hh _ _].
  - revert Hp. apply all_bytes_impl. intros a Ha. unfold plain_byte in Ha. breflect. by apply Z.leb_le.
  - cbn [all_bytes]. apply simple_escape_vis in Hx. rewrite (proj2 (Z.leb_le 0x20 (byteZ x))) by done. done.
  - unfold hex4 in Hh. destruct (hex_val (byteZ h1)) eqn:E1; [|done]. destruct (hex_val (byteZ h2)) eqn:E2; [|done].
    destruct (hex_val (byteZ h3)) eqn:E3; [|done]. destruct (hex_val (byteZ h4)) eqn:E4; [|done].
    apply hex_val_vis in E1, E2, E3, E4. cbn [all_bytes].
    by rewrite !(proj2 (Z.leb_le _ _)) by done.
Qed.

Lemma esc_rune_vis p : chunk p -> vis (esc_rune p) = true.
Proof.
  intros Hc. destruct (bad_rune p) eqn:Hb; [|by eapply esc_form_vis, esc_forms].
  destruct p as [r b]. unfold esc_rune. destruct (Z.ltb_spec r 0x80) as [Hr|]; [|by rewrite Hb].
  unfold bad_rune in Hb. cbn [fst snd] in Hb. breflect. unfold RuneError in *. lia.
Qed.

Lemma quote_vis s : vis (quote s) = true.
Proof.
  unfold quote, quote_body. pose proof (runes_chunks s) as Hc.
  change (vis (String dquote (foldr (fun p acc => esc_rune p +:+ acc) "" (runes s) +:+ String dquote "")))
    with (true && vis (foldr (fun p acc => esc_rune p +:+ acc) "" (runes s) +:+ String dquote "")).
  rewrite vis_app, andb_true_l, andb_true_r.
  induction Hc as [|p l Hp Hl IH]; [done|]. cbn [foldr]. by rewrite vis_app, esc_rune_vis, IH.
Qed.

(** *** Numbers *)

Lemma uint_vis u : vis (NilEmpty.string_of_uint u) = true.
Proof. unfold vis. induction u; cbn [NilEmpty.string_of_uint all_bytes]; [done|..]; by rewrite IHu. Qed.

Lemma Itoa_vis z : vis (Itoa z) = true.
Proof.
  destruct (Itoa_digits z) as (u & _ & _ & [-> | ->]); [apply uint_vis|].
  unfold vis. cbn [all_bytes]. fold (vis (NilEmpty.string_of_uint u)). by rewrite uint_vis.
Qed.

Lemma zeros_vis n : vis (zeros n) = true.
Proof. induction n as [|n IH]; [done|]. unfold vis in *. cbn [zeros all_bytes]. by rewrite IH. Qed.

Lemma drop_vis n s : vis s = true -> vis (drop_str n s) = true.
Proof.
  unfold vis. revert s. induction n as [|n IH]; intros [|a s]; try done. cbn [drop_str all_bytes].
  intros H. breflect. by apply IH.
Qed.

Lemma prefix_vis n s : vis s = true -> vis (substring 0 n s) = true.
Proof.
  unfold vis. revert s. induction n as [|n IH]; intros [|a s]; try done. cbn [substring all_bytes].
  intros H. breflect. rewrite IH by done. by rewrite (proj2 (Z.leb_le _ _)).
Qed.

Lemma fmtF_vis ds k : vis ds = true -> vis (fmtF ds k) = true.
Proof.
  intros H. unfold fmtF. repeat case_match; rewrite ?vis_app, ?zeros_vis, ?H; try done.
  by rewrite prefix_vis, drop_vis.
Qed.

Lemma fmtE_vis pad ds k : vis ds = true -> vis (fmtE pad ds k) = true.
Proof.
  intros H. unfold fmtE. rewrite !vis_app.
  assert (vis (match ds with "" => "" | String c "" => String c "" | String c t => String c (String "." t) end) = true) as ->.
  { unfold vis in *. by destruct ds as [|a [|b t]]. }
  pose proof (Itoa_vis (Z.abs (k - 1))). repeat case_match; rewrite ?vis_app, ?Itoa_vis; done.
Qed.

Lemma FormatFloat_vis x : vis (FormatFloat x) = true.
Proof.
  destruct x as [[]|[]| |[] m e]; try done; unfold FormatFloat, shortest;
    destruct (scaled m e) as [v p]; destruct (shortest_from _ _ _ _ _ _ _) as [q k];
    rewrite vis_app; (case_match; [rewrite fmtE_vis|rewrite fmtF_vis]); by rewrite ?Itoa_vis.
Qed.

(** *** Values *)

Fixpoint lits_vis (v : json) : bool :=
  match v with
  | JNum lit => vis lit
  | JArr l => forallb lits_vis l
  | JObj l => forallb (fun '(_, x) => lits_vis x) l
  | _ => true
  end.

Lemma print_vis v : forall lvl, lits_vis v = true -> vis (print false lvl v) = true.
Proof.
  induction v as [|b|n|s|l IH|l IH] using json_rect'; intros lvl Hl; cbn [print lits_vis] in *.
  - done.
  - by destruct b.
  - done.
  - apply quote_vis.
  - destruct l as [|x l]; [done|]. rewrite !vis_app. cbn [nl]. rewrite vis_Join; [done|done|].
    apply Forall_map. apply forallb_Forall in Hl. rewrite Forall_forall in *. eauto.
  - destruct l as [|x l]; [done|]. rewrite !vis_app. cbn [nl]. rewrite vis_Join; [done|done|].
    apply Forall_map. apply forallb_Forall in Hl. rewrite Forall_forall in *.
    intros [k y] Hin. cbn. rewrite !vis_app, quote_vis, (IH _ Hin); [done|]. exact (Hl _ Hin).
Qed.

Lemma json_of_lits v : no_lit v -> lits_vis (json_of v) = true.
Proof.
  induction v as [| | | | |l IH|m IH|lit] using any_rect'; cbn [json_of lits_vis]; try done.
  - intros _. apply Itoa_vis.
  - intros _. apply FormatFloat_vis.
  - rewrite no_lit_arr. intros H. apply forallb_forall. intros y Hy%list_elem_of_In.
    apply list_elem_of_In in Hy. apply List.in_map_iff in Hy as (x & <- & Hx%list_elem_of_In).
    rewrite Forall_forall in *. eauto.
  - rewrite no_lit_map. intros H. apply forallb_forall. intros [k y] Hy%list_elem_of_In.
    rewrite merge_sort_Permutation in Hy. apply elem_of_map_to_list in Hy. rewrite lookup_fmap in Hy.
    destruct (m !! k) as [x|] eqn:E; [|done]. injection Hy as <-. apply (IH k x E), (H k x E).
Qed.

Lemma Marshal_vis v : no_lit v -> vis (Marshal (json_of v)) = true.
Proof. intros H. by apply print_vis, json_of_lits. Qed.
