(* ===== verification/Usage.v ===== *)
(** * Usage: what the router reads from bodies and events
      (internal/provider/openai/usage.go, sse_collector.go)

    Token usage, model names, request parameters and error codes are read by
    decoding into Go structs; a type error anywhere in the fields that are read
    makes the whole result nil. *)

From S2P Require Import Prelude GoLib GoHTTP GoJSON GoAny.

Module usage.

(** A pointer field: null stores nil, anything else goes into the value it
    points to, a fresh one if it was nil. *)
Definition dec_ptr {A} (dec : json -> A -> option A) (zero : A) (v : json) (old : option A)
    : option (option A) :=
  match v with JNull => Some None | _ => Some <$> dec v (default zero old) end.

Definition dec_intp := dec_ptr dec_int 0.

(** [json.Unmarshal(data, &s)]; [None] is an error. *)
Definition Unmarshal_struct {A} (field : string -> json -> A -> option A) (zero : A) (data : string) : option A :=
  v ← json_parse data; dec_struct field v zero.

(** [domain.JSONMap], [None] when it is nil; an empty one is returned as nil. *)
Definition JSONMap := option obj.
Definition non_empty (m : obj) : JSONMap := if bool_decide (m = ∅) then None else Some m.
Definition put (key : string) (value : option Z) (m : obj) : obj :=
  match value with Some z => <[key := AInt z]> m | None => m end.

(** ** Usage objects *)

(** A details object with one counter. *)
Definition dec_details (name : string) : json -> option Z -> option (option Z) :=
  dec_struct (fun k v old => if key_is name k then dec_intp v old else Some old).

(** Both spellings of usage: tokens in, tokens out, and the two details. *)
Record usagePayload := mkUsagePayload {
  InputTokens : option Z; OutputTokens : option Z;
  InputTokensDetails : option (option Z); OutputTokensDetails : option (option Z) }.
#[export] Instance eta_usagePayload : Eta usagePayload := fun r =>
  mkUsagePayload (InputTokens r) (OutputTokens r) (InputTokensDetails r) (OutputTokensDetails r).

Definition no_usage : usagePayload := mkUsagePayload None None None None.

Definition usage_field (n_in n_out d_in d_out : string) (k : string) (v : json) (u : usagePayload)
    : option usagePayload :=
  if key_is n_in k then x ← dec_intp v (InputTokens u); Some (u <| InputTokens := x |>)
  else if key_is n_out k then x ← dec_intp v (OutputTokens u); Some (u <| OutputTokens := x |>)
  else if key_is d_in k then
    x ← dec_ptr (dec_details "cached_tokens") None v (InputTokensDetails u);
    Some (u <| InputTokensDetails := x |>)
  else if key_is d_out k then
    x ← dec_ptr (dec_details "reasoning_tokens") None v (OutputTokensDetails u);
    Some (u <| OutputTokensDetails := x |>)
  else Some u.

Definition dec_responses_usage : json -> usagePayload -> option usagePayload :=
  dec_struct (usage_field "input_tokens" "output_tokens" "input_tokens_details" "output_tokens_details").
Definition dec_chat_usage : json -> usagePayload -> option usagePayload :=
  dec_struct (usage_field "prompt_tokens" "completion_tokens" "prompt_tokens_details"
                "completion_tokens_details").

Definition usage_fields (u : usagePayload) : JSONMap :=
  non_empty (put "reasoning" (OutputTokensDetails u ≫= id)
    (put "cached_input" (InputTokensDetails u ≫= id)
      (put "output" (OutputTokens u) (put "input" (InputTokens u) ∅)))).

Definition usageMap (payload : option usagePayload) : JSONMap := payload ≫= usage_fields.

(** ** Events *)

Record chat_event := mkChatEvent { Object : string; ChatUsage : option usagePayload }.

Definition chat_event_field (k : string) (v : json) (e : chat_event) : option chat_event :=
  if key_is "object" k then s ← dec_string v (Object e); Some (mkChatEvent s (ChatUsage e))
  else if key_is "usage" k then
    u ← dec_ptr dec_chat_usage no_usage v (ChatUsage e); Some (mkChatEvent (Object e) u)
  else Some e.

Definition extractChatUsageFromEvent (eventData : string) : JSONMap :=
  evt ← Unmarshal_struct chat_event_field (mkChatEvent "" None) eventData;
  if String.eqb (Object evt) "chat.completion.chunk" then usageMap (ChatUsage evt) else None.

(** [Response] is a pointer to a struct with the single field [Usage]. *)
Record responses_event := mkResponsesEvent {
  Type_ : string; EvUsage : option usagePayload; Response : option (option usagePayload) }.

Definition usage_only : json -> option usagePayload -> option (option usagePayload) :=
  dec_struct (fun k v old => if key_is "usage" k then dec_ptr dec_responses_usage no_usage v old else Some old).

Definition responses_event_field (k : string) (v : json) (e : responses_event) : option responses_event :=
  if key_is "type" k then s ← dec_string v (Type_ e); Some (mkResponsesEvent s (EvUsage e) (Response e))
  else if key_is "usage" k then
    u ← dec_ptr dec_responses_usage no_usage v (EvUsage e);
    Some (mkResponsesEvent (Type_ e) u (Response e))
  else if key_is "response" k then
    r ← dec_ptr usage_only None v (Response e); Some (mkResponsesEvent (Type_ e) (EvUsage e) r)
  else Some e.

Definition ExtractUsageFromEvent (eventData : string) : JSONMap :=
  match extractChatUsageFromEvent eventData with
  | Some usage => Some usage
  | None =>
      evt ← Unmarshal_struct responses_event_field (mkResponsesEvent "" None None) eventData;
      if String.eqb (Type_ evt) "response.completed" then
        usageMap (match EvUsage evt with Some u => Some u | None => Response evt ≫= id end)
      else None
  end.

(** ** Whole bodies *)

Definition body_usage (dec : json -> usagePayload -> option usagePayload) (body : string) : JSONMap :=
  resp ← Unmarshal_struct
           (fun k v old => if key_is "usage" k then dec_ptr dec no_usage v old else Some old) None body;
  usageMap resp.

Definition extractChatUsageFromJSON (body : string) : JSONMap := body_usage dec_chat_usage body.

Definition ExtractUsageFromJSON (body : string) : JSONMap :=
  match extractChatUsageFromJSON body with
  | Some usage => Some usage
  | None => body_usage dec_responses_usage body
  end.

(** ** Requests *)

Definition ExtractModel (requestBody : string) : option string :=
  model ← Unmarshal_struct (fun k v old => if key_is "model" k then dec_string v old else Some old) "" requestBody;
  if String.eqb model "" then None else Some model.

Definition ExtractModelParams (requestBody : string) : JSONMap :=
  req ← Unmarshal_map requestBody;
  let req := default ∅ req in
  let params : obj :=
    match req !! "reasoning_effort" with
    | Some reasoningEffort => {["reasoning_effort" := reasoningEffort]}
    | None =>
        match as_map (req !! "reasoning") ≫= lookup "effort" with
        | Some effort => {["reasoning_effort" := effort]}
        | None => ∅
        end
    end in
  non_empty (match req !! "service_tier" with
             | Some serviceTier => <["service_tier" := serviceTier]> params
             | None => params
             end).

Definition RequestWantsStreaming (body : string) : bool :=
  match Unmarshal_struct (fun k v old => if key_is "stream" k then dec_ptr dec_bool false v old else Some old)
          None body with
  | Some (Some stream) => stream
  | _ => false
  end.

(** ** Error bodies *)

(** [code] and [type] of an error object. *)
Definition dec_error : json -> string * string -> option (string * string) :=
  dec_struct (fun k v '(code, ty) =>
    if key_is "code" k then s ← dec_string v code; Some (s, ty)
    else if key_is "type" k then s ← dec_string v ty; Some (code, s)
    else Some (code, ty)).

Definition dec_error_of : json -> option (string * string) -> option (option (string * string)) :=
  dec_struct (fun k v old => if key_is "error" k then dec_ptr dec_error ("", "") v old else Some old).

Definition error_field (k : string) (v : json)
    (r : option (string * string) * option (option (string * string)))
    : option (option (string * string) * option (option (string * string))) :=
  if key_is "error" k then e ← dec_ptr dec_error ("", "") v (fst r); Some (e, snd r)
  else if key_is "response" k then x ← dec_ptr dec_error_of None v (snd r); Some (fst r, x)
  else Some r.

Definition ExtractErrorCode (body : option string) : option string :=
  body ← body;
  resp ← Unmarshal_struct error_field (None, None) body;
  e ← match fst resp with Some e => Some e | None => snd resp ≫= id end;
  let code := if String.eqb (fst e) "" then snd e else fst e in
  if String.eqb code "" then None else Some code.

End usage.

Example usage_ex :
  usage.ExtractUsageFromEvent (dq "{'type':'response.completed','response':{'usage':{'input_tokens':3,'OUTPUT_tokens':4,'input_tokens_details':{'cached_tokens':1}}}}")
  = Some (<["cached_input" := AInt 1]> (<["output" := AInt 4]> {["input" := AInt 3]}))
  /\ usage.ExtractUsageFromEvent (dq "{'type':'response.completed','response':{'usage':{'input_tokens':1.5}}}") = None
  /\ usage.ExtractModel (dq "{'model':'gpt'}") = Some "gpt"
  /\ usage.ExtractErrorCode (Some (dq "{'error':{'type':'t'}}")) = Some "t".
Proof. split_and!; vm_compute; reflexivity. Qed.
