(* ===== verification/GoTime.v ===== *)
(** * GoTime: the wire form of time.Time

    [time.Time] values that are written to and read from JSON: an instant
    (nanoseconds from the Unix epoch, as in [GoLib]) with the offset of its
    zone in minutes.  [FormatStamp] is [Time.MarshalJSON] (RFC 3339 with
    nanoseconds), [ParseStamp] is [Time.UnmarshalJSON] on the RFC 3339 syntax;
    the lenient variants that [time.Parse] also takes (a comma before the
    fraction, a one-digit hour) are not modelled. *)

From S2P Require Import Prelude GoLib GoHTTP.

Record stamp := Stamp { at_ns : time; zone_min : Z }.
Definition zero_stamp : stamp := Stamp zero_time 0.
Definition utc_stamp (t : time) : stamp := Stamp t 0.

(** ** Dates: days from the epoch and the proleptic Gregorian calendar *)

Definition days_before_year (y : Z) : Z := 365 * y + y / 4 - y / 100.

(** Years begin in March, so that the leap day is the last one. *)
Definition civil_of_days (z : Z) : Z * Z * Z :=
  let z := z + 719468 in
  let era := z / 146097 in
  let doe := z mod 146097 in
  let yoe := (doe - doe / 1460 + doe / 36524 - doe / 146096) / 365 in
  let doy := doe - days_before_year yoe in
  let mp := (5 * doy + 2) / 153 in
  let d := doy - (153 * mp + 2) / 5 + 1 in
  let m := if mp <? 10 then mp + 3 else mp - 9 in
  (yoe + era * 400 + (if m <=? 2 then 1 else 0), m, d).

Definition days_of_civil (y m d : Z) : Z :=
  let y := if m <=? 2 then y - 1 else y in
  let era := y / 400 in
  let yoe := y mod 400 in
  let mp := if 2 <? m then m - 3 else m + 9 in
  let doy := (153 * mp + 2) / 5 + d - 1 in
  era * 146097 + days_before_year yoe + doy - 719468.

Definition leap (y : Z) : bool :=
  (y mod 4 =? 0) && (negb (y mod 100 =? 0) || (y mod 400 =? 0)).

Definition days_in (y m : Z) : Z :=
  if m =? 2 then (if leap y then 29 else 28)
  else if (m =? 4) || (m =? 6) || (m =? 9) || (m =? 11) then 30 else 31.

(** ** Digits *)

Definition digit (n : Z) : ascii := Zbyte (48 + n).
Definition digit_val (c : ascii) : Z := byteZ c - 48.

(** Exactly [k] digits. *)
Fixpoint pad (k : nat) (n : Z) : string :=
  match k with
  | O => ""
  | S k' => String (digit (n / 10 ^ Z.of_nat k')) (pad k' (n mod 10 ^ Z.of_nat k'))
  end.

Fixpoint num (k : nat) (s : string) : option (Z * string) :=
  match k with
  | O => Some (0, s)
  | S k' =>
      match s with
      | String c t =>
          if is_digit c
          then p ← num k' t; Some (digit_val c * 10 ^ Z.of_nat k' + fst p, snd p)
          else None
      | EmptyString => None
      end
  end.

(** A fraction of [k] digits without its trailing zeros. *)
Fixpoint frac (k : nat) (n : Z) : string :=
  match k with
  | O => ""
  | S k' =>
      if n =? 0 then ""
      else String (digit (n / 10 ^ Z.of_nat k')) (frac k' (n mod 10 ^ Z.of_nat k'))
  end.

(** The value of the first [k] digits of a fraction; further digits are
    dropped. *)
Fixpoint read_frac (k : nat) (s : string) : Z * string :=
  match s with
  | String c t =>
      if is_digit c then
        match k with
        | O => read_frac O t
        | S k' => let '(v, r) := read_frac k' t in (digit_val c * 10 ^ Z.of_nat k' + v, r)
        end
      else (0, s)
  | EmptyString => (0, "")
  end.

Definition expect (c : ascii) (s : string) : option string :=
  match s with String a t => if Ascii.eqb a c then Some t else None | EmptyString => None end.

(** ** RFC 3339 *)

Definition format_zone (z : Z) : string :=
  if z =? 0 then "Z"
  else String (if z <? 0 then "-"%char else "+"%char)
         (pad 2 (Z.abs z / 60) +:+ String ":" (pad 2 (Z.abs z mod 60))).

Definition format_frac (ns : Z) : string :=
  if ns =? 0 then "" else String "." (frac 9 ns).

Definition stamp_text (y m d h i c ns z : Z) : string :=
  pad 4 y +:+ String "-" (pad 2 m +:+ String "-" (pad 2 d +:+ String "T"
    (pad 2 h +:+ String ":" (pad 2 i +:+ String ":"
    (pad 2 c +:+ (format_frac ns +:+ format_zone z)))))).

Definition FormatStamp (t : stamp) : option string :=
  let wall := at_ns t + zone_min t * Minute in
  let secs := wall / Second in
  let '(y, m, d) := civil_of_days (secs / 86400) in
  let sod := secs mod 86400 in
  if (0 <=? y) && (y <=? 9999) && (Z.abs (zone_min t) <? 1440) then
    Some (stamp_text y m d (sod / 3600) (sod / 60 mod 60) (sod mod 60) (wall mod Second) (zone_min t))
  else None.

Definition parse_zone (s : string) : option Z :=
  match s with
  | String c t =>
      if Ascii.eqb c "Z" then (if String.eqb t "" then Some 0 else None)
      else if Ascii.eqb c "+" || Ascii.eqb c "-" then
        h ← num 2 t; u ← expect ":" (snd h); m ← num 2 u;
        if (fst h <=? 23) && (fst m <=? 59) && String.eqb (snd m) "" then
          Some (if Ascii.eqb c "-" then - (fst h * 60 + fst m) else fst h * 60 + fst m)
        else None
      else None
  | EmptyString => None
  end.

Definition parse_frac (s : string) : option (Z * string) :=
  match s with
  | String c t =>
      if Ascii.eqb c "." then
        match t with
        | String a _ => if is_digit a then Some (read_frac 9 t) else None
        | EmptyString => None
        end
      else Some (0, s)
  | EmptyString => Some (0, s)
  end.

Definition ParseStamp (s : string) : option stamp :=
  y ← num 4 s; s1 ← expect "-" (snd y); m ← num 2 s1; s2 ← expect "-" (snd m);
  d ← num 2 s2; s3 ← expect "T" (snd d); h ← num 2 s3; s4 ← expect ":" (snd h);
  i ← num 2 s4; s5 ← expect ":" (snd i); c ← num 2 s5; f ← parse_frac (snd c);
  z ← parse_zone (snd f);
  if (1 <=? fst m) && (fst m <=? 12) && (1 <=? fst d) && (fst d <=? days_in (fst y) (fst m))
     && (fst h <=? 23) && (fst i <=? 59) && (fst c <=? 59) then
    let secs := days_of_civil (fst y) (fst m) (fst d) * 86400
                + fst h * 3600 + fst i * 60 + fst c in
    Some (Stamp (secs * Second + fst f - z * Minute) z)
  else None.

Example format_ex :
  FormatStamp (Stamp (Unix 1700000000 + 120000000) 90) = Some "2023-11-14T23:43:20.12+01:30".
Proof. vm_compute. reflexivity. Qed.
Example ParseStamp_ex : ParseStamp "2024-02-29T00:00:00Z" = Some (utc_stamp (Unix 1709164800)).
Proof. vm_compute. reflexivity. Qed.
Example parse_bad_ex : ParseStamp "2023-02-29T00:00:00Z" = None.
Proof. vm_compute. reflexivity. Qed.
Example zero_ex : FormatStamp zero_stamp = Some "0001-01-01T00:00:00Z".
Proof. vm_compute. reflexivity. Qed.

(** ** The calendar is a bijection *)

Lemma yoe_bounds doe :
  0 <= doe < 146097 ->
  let yoe := (doe - doe / 1460 + doe / 36524 - doe / 146096) / 365 in
  0 <= yoe < 400 /\ 0 <= doe - days_before_year yoe <= 365.
Proof.
  intros H yoe. unfold days_before_year. subst yoe.
  Z.div_mod_to_equations. lia.
Qed.

(** The last day of a 366-day year only exists in leap years. *)
Lemma yoe_leap doe :
  0 <= doe < 146097 ->
  let yoe := (doe - doe / 1460 + doe / 36524 - doe / 146096) / 365 in
  doe - days_before_year yoe = 365 ->
  (yoe + 1) mod 4 = 0 /\ ((yoe + 1) mod 100 <> 0 \/ yoe = 399).
Proof.
  intros H yoe. unfold days_before_year. subst yoe. intros E.
  Z.div_mod_to_equations. lia.
Qed.

Lemma civil_spec z :
  let '(y, m, d) := civil_of_days z in
  1 <= m <= 12 /\ 1 <= d <= days_in y m /\ days_of_civil y m d = z.
Proof.
  unfold civil_of_days. set (doe := (z + 719468) mod 146097). set (era := (z + 719468) / 146097).
  assert (0 <= doe < 146097) as Hdoe by (apply Z.mod_pos_bound; lia).
  assert (z + 719468 = 146097 * era + doe) as Hz by (apply Z.div_mod; lia).
  pose proof (yoe_bounds doe Hdoe) as [Hyoe Hdoy]. pose proof (yoe_leap doe Hdoe) as Hleap.
  set (yoe := (doe - doe / 1460 + doe / 36524 - doe / 146096) / 365) in *. cbv zeta in *.
  clearbody yoe doe era. set (doy := doe - days_before_year yoe) in *.
  set (mp := (5 * doy + 2) / 153).
  assert (0 <= mp <= 11) as Hmp by (subst mp; Z.div_mod_to_equations; lia).
  split; [destruct (Z.ltb_spec mp 10); lia|].
  assert (days_of_civil (yoe + era * 400 + (if (if mp <? 10 then mp + 3 else mp - 9) <=? 2 then 1 else 0))
    (if mp <? 10 then mp + 3 else mp - 9) (doy - (153 * mp + 2) / 5 + 1) = z) as Hback.
  { unfold days_of_civil. destruct (Z.ltb_spec mp 10).
    - destruct (Z.leb_spec (mp + 3) 2), (Z.ltb_spec 2 (mp + 3)); try lia.
      rewrite Z.add_0_r, Z.div_add, Z.mod_add, Z.div_small, Z.mod_small by lia.
      replace (mp + 3 - 3) with mp by lia. subst doy. lia.
    - destruct (Z.leb_spec (mp - 9) 2), (Z.ltb_spec 2 (mp - 9)); try lia.
      replace (yoe + era * 400 + 1 - 1) with (yoe + era * 400) by lia.
      rewrite Z.div_add, Z.mod_add, Z.div_small, Z.mod_small by lia.
      replace (mp - 9 + 9) with mp by lia. subst doy. lia. }
  split; [|done].
  assert (mp = 11 -> doy <= 365 /\ (doy = 365 -> leap (yoe + era * 400 + 1) = true)) as Hfeb.
  { intros _. split; [lia|]. intros E. apply Hleap in E as [H4 H100]. unfold leap.
    replace (yoe + era * 400 + 1) with (yoe + 1 + era * 100 * 4) at 1 by lia.
    replace (yoe + era * 400 + 1) with (yoe + 1 + era * 4 * 100) at 1 by lia.
    replace (yoe + era * 400 + 1) with (yoe + 1 + era * 400) by lia.
    rewrite !Z.mod_add, H4 by lia. apply orb_true_iff. rewrite negb_true_iff, Z.eqb_neq, Z.eqb_eq.
    destruct H100 as [? | ->]; auto. }
  clear Hback Hleap Hz. clearbody doy.
  assert (153 * mp <= 5 * doy + 2 < 153 * mp + 153) as Hm by (subst mp; Z.div_mod_to_equations; lia).
  clearbody mp. unfold days_in.
  assert (mp = 0 \/ mp = 1 \/ mp = 2 \/ mp = 3 \/ mp = 4 \/ mp = 5 \/ mp = 6 \/ mp = 7 \/ mp = 8
    \/ mp = 9 \/ mp = 10 \/ mp = 11) as Hcases by lia.
  destruct Hcases as [-> |[-> |[-> |[-> |[-> |[-> |[-> |[-> |[-> |[-> |[-> | ->]]]]]]]]]]];
    match goal with |- context [(153 * ?k + 2) / 5] =>
      let v := eval vm_compute in ((153 * k + 2) / 5) in change ((153 * k + 2) / 5) with v end;
    repeat match goal with |- context [if ?b then _ else _] =>
      let v := eval vm_compute in b in
      match v with true => change b with true | false => change b with false end; cbn iota end;
    try lia.
  destruct (Hfeb eq_refl) as [? Hl]. destruct (leap _); [lia|].
  assert (doy <> 365) by (intros ->; by specialize (Hl eq_refl)). lia.
Qed.

(** ** Printed times are read back *)

Lemma digit_facts n : 0 <= n < 10 -> is_digit (digit n) = true /\ digit_val (digit n) = n.
Proof.
  intros [H0 H]. rewrite <- (Z2Nat.id n H0). assert (Z.to_nat n < 10)%nat as Hk by lia.
  generalize dependent (Z.to_nat n). intros k Hk. by do 10 (destruct k as [|k]; [done|]); lia.
Qed.

Lemma split_digit k n :
  0 <= n < 10 ^ Z.of_nat (S k) ->
  0 <= n / 10 ^ Z.of_nat k < 10 /\ 0 <= n mod 10 ^ Z.of_nat k < 10 ^ Z.of_nat k
  /\ n / 10 ^ Z.of_nat k * 10 ^ Z.of_nat k + n mod 10 ^ Z.of_nat k = n.
Proof.
  rewrite Nat2Z.inj_succ, Z.pow_succ_r by lia. intros H.
  assert (0 < 10 ^ Z.of_nat k) as Hp by (apply Z.pow_pos_nonneg; lia).
  split; [split; [apply Z.div_pos; lia|apply Z.div_lt_upper_bound; lia]|].
  split; [by apply Z.mod_pos_bound|].
  pose proof (Z.div_mod n (10 ^ Z.of_nat k)). lia.
Qed.

Lemma str_cons_app c s t : String c s +:+ t = String c (s +:+ t).
Proof. done. Qed.

Lemma num_pad k n t : 0 <= n < 10 ^ Z.of_nat k -> num k (pad k n +:+ t) = Some (n, t).
Proof.
  revert n; induction k as [|k IH]; intros n H; [simpl in H; by replace n with 0 by lia|].
  apply split_digit in H as (Hd & Hm & E). cbn [num pad]. rewrite str_cons_app.
  destruct (digit_facts _ Hd) as [-> ->]. rewrite IH by done. cbn. by rewrite E.
Qed.

Definition no_digit (t : string) : Prop :=
  match t with String c _ => is_digit c = false | EmptyString => True end.

Lemma read_frac_frac k n t :
  0 <= n < 10 ^ Z.of_nat k -> no_digit t -> read_frac k (frac k n +:+ t) = (n, t).
Proof.
  intros H Ht. assert (forall j, read_frac j t = (0, t)) as Hstop.
  { intros j. destruct t as [|c t]; [by destruct j|]. cbn in Ht. destruct j; cbn; by rewrite Ht. }
  revert n H; induction k as [|k IH]; intros n H.
  { simpl in H. replace n with 0 by lia. apply Hstop. }
  cbn [frac]. destruct (Z.eqb_spec n 0) as [-> |]; [apply Hstop|].
  apply split_digit in H as (Hd & Hm & E). rewrite str_cons_app. cbn [read_frac].
  destruct (digit_facts _ Hd) as [-> ->]. rewrite IH by done. by rewrite E.
Qed.

Lemma parse_frac_format ns t :
  0 <= ns < Second -> no_digit t -> (forall c u, t = String c u -> c <> "."%char) ->
  parse_frac (format_frac ns +:+ t) = Some (ns, t).
Proof.
  intros H Ht Hdot. unfold format_frac. destruct (Z.eqb_spec ns 0) as [-> |Hne].
  - change ("" +:+ t) with t. destruct t as [|c t]; [done|]. cbn.
    destruct (Ascii.eqb_spec c "."); [by apply (Hdot c t) in e|done].
  - rewrite str_cons_app. cbn [parse_frac]. change (Ascii.eqb "." ".") with true. cbn iota.
    pose proof (read_frac_frac 9 ns t H Ht) as E.
    assert (exists a u, frac 9 ns +:+ t = String a u /\ is_digit a = true) as (a & u & Eu & Ha).
    { cbn [frac]. destruct (Z.eqb_spec ns 0); [done|]. eexists _, _. split; [by rewrite str_cons_app|].
      apply digit_facts. apply (split_digit 8). done. }
    rewrite Eu in *. by rewrite Ha, E.
Qed.

Lemma parse_zone_format z : Z.abs z < 1440 -> parse_zone (format_zone z) = Some z.
Proof.
  intros H. unfold format_zone. destruct (Z.eqb_spec z 0) as [-> |Hne]; [done|].
  assert (0 <= Z.abs z / 60 < 24 /\ 0 <= Z.abs z mod 60 < 60
          /\ Z.abs z / 60 * 60 + Z.abs z mod 60 = Z.abs z) as (Hh & Hm & E)
    by (Z.div_mod_to_equations; lia).
  set (h := Z.abs z / 60) in *. set (m := Z.abs z mod 60) in *. clearbody h m.
  cbn [parse_zone].
  assert (forall c, num 2 (pad 2 h +:+ String c (pad 2 m)) = Some (h, String c (pad 2 m))) as E1
    by (intros; apply num_pad; cbn; lia).
  assert (num 2 (pad 2 m) = Some (m, "")) as E2.
  { pose proof (num_pad 2 m "") as E2. rewrite str_app_nil_r in E2. apply E2. cbn. lia. }
  destruct (Z.ltb_spec z 0); cbn [Ascii.eqb Bool.eqb orb];
    rewrite E1; cbn [mbind option_bind fst snd expect]; change (Ascii.eqb ":" ":") with true; cbn iota;
    cbn [mbind option_bind fst snd]; rewrite E2; cbn [mbind option_bind fst snd];
    destruct (Z.leb_spec h 23), (Z.leb_spec m 59); try lia; cbn [andb String.eqb]; f_equal; lia.
Qed.

Lemma format_zone_head z :
  no_digit (format_zone z) /\ (forall c u, format_zone z = String c u -> c <> "."%char).
Proof.
  unfold format_zone. destruct (z =? 0); [split; [done|by intros c u [= <- <-]]|].
  destruct (z <? 0); (split; [done|by intros c u [= <- <-]]).
Qed.

Lemma expect_same c t : expect c (String c t) = Some t.
Proof. cbn. by rewrite Ascii.eqb_refl. Qed.

(** What a printed time consists of. *)
Lemma FormatStamp_inv t s :
  FormatStamp t = Some s ->
  exists y m d h i c ns,
    s = stamp_text y m d h i c ns (zone_min t)
    /\ 0 <= y <= 9999 /\ 1 <= m <= 12 /\ 1 <= d <= days_in y m /\ d <= 31
    /\ 0 <= h < 24 /\ 0 <= i < 60 /\ 0 <= c < 60 /\ 0 <= ns < Second /\ Z.abs (zone_min t) < 1440
    /\ at_ns t = (days_of_civil y m d * 86400 + h * 3600 + i * 60 + c) * Second + ns - zone_min t * Minute.
Proof.
  unfold FormatStamp. set (wall := at_ns t + zone_min t * Minute). set (secs := wall / Second).
  pose proof (civil_spec (secs / 86400)) as Hc.
  destruct (civil_of_days (secs / 86400)) as [[y m] d]. destruct Hc as (Hm & Hd & Hdays).
  destruct (_ && _) eqn:Hg; [|done]. rewrite !andb_true_iff, !Z.leb_le, Z.ltb_lt in Hg.
  destruct Hg as [[Hy0 Hy] Hz]. intros Heq. apply (inj Some) in Heq as <-.
  assert (0 <= secs mod 86400 < 86400) as Hsod by (apply Z.mod_pos_bound; lia).
  set (sod := secs mod 86400) in *.
  assert (0 <= sod / 3600 < 24 /\ 0 <= sod / 60 mod 60 < 60 /\ 0 <= sod mod 60 < 60
    /\ sod / 3600 * 3600 + sod / 60 mod 60 * 60 + sod mod 60 = sod) as (Hh & Hi & Hs & Esod)
    by (Z.div_mod_to_equations; lia).
  assert (d <= 31) as Hd31 by (revert Hd; unfold days_in; repeat case_match; lia).
  assert (0 <= wall mod Second < Second) as Hns by (apply Z.mod_pos_bound; done).
  exists y, m, d, (sod / 3600), (sod / 60 mod 60), (sod mod 60), (wall mod Second).
  do 10 (split; [done || lia|]). rewrite Hdays.
  assert (secs / 86400 * 86400 + sod = secs) as Esecs by (subst sod; pose proof (Z.div_mod secs 86400); lia).
  assert (secs * Second + wall mod Second = wall) as Ewall.
  { subst secs. unfold Second. pose proof (Z.div_mod wall (10 ^ 9)). lia. }
  unfold Minute, Second in *. lia.
Qed.

Theorem Parse_FormatStamp t s : FormatStamp t = Some s -> ParseStamp s = Some t.
Proof.
  intros (y & m & d & h & i & c & ns & -> & Hy & Hm & Hd & Hd31 & Hh & Hi & Hc & Hns & Hz & E)%FormatStamp_inv.
  destruct (format_zone_head (zone_min t)) as [Hnd Hdot].
  unfold ParseStamp, stamp_text.
  do 5 (rewrite num_pad by (cbn; lia); cbn [mbind option_bind fst snd];
        rewrite expect_same; cbn [mbind option_bind]).
  rewrite num_pad by (cbn; lia); cbn [mbind option_bind fst snd].
  rewrite parse_frac_format by done. cbn [mbind option_bind fst snd].
  rewrite parse_zone_format by done. cbn [mbind option_bind fst snd].
  repeat (rewrite (proj2 (Z.leb_le _ _)) by lia). cbn [andb].
  rewrite <- E. by destruct t.
Qed.

(** Printed times are ASCII. *)
Lemma digit_ascii n : 0 <= n < 10 -> (byteZ (digit n) <? 128) = true.
Proof.
  intros H. unfold digit. rewrite byteZ_Zbyte by lia. apply Z.ltb_lt. lia.
Qed.

Lemma pad_ascii k n : 0 <= n < 10 ^ Z.of_nat k -> ascii_str (pad k n) = true.
Proof.
  unfold ascii_str. revert n; induction k as [|k IH]; intros n H; [done|].
  apply split_digit in H as (Hd & Hm & _). cbn [pad all_bytes]. rewrite digit_ascii by done. by apply IH.
Qed.

Lemma frac_ascii k n : 0 <= n < 10 ^ Z.of_nat k -> ascii_str (frac k n) = true.
Proof.
  unfold ascii_str. revert n; induction k as [|k IH]; intros n H; [done|].
  cbn [frac]. destruct (n =? 0); [done|].
  apply split_digit in H as (Hd & Hm & _). cbn [all_bytes]. rewrite digit_ascii by done. by apply IH.
Qed.

Lemma FormatStamp_ascii t s : FormatStamp t = Some s -> ascii_str s = true.
Proof.
  intros (y & m & d & h & i & c & ns & -> & Hy & Hm & Hd & Hd31 & Hh & Hi & Hc & Hns & Hz & _)%FormatStamp_inv.
  assert (0 <= Z.abs (zone_min t) / 60 < 100 /\ 0 <= Z.abs (zone_min t) mod 60 < 100) as [Hz1 Hz2]
    by (Z.div_mod_to_equations; lia).
  assert (ascii_str (format_zone (zone_min t)) = true) as Hzone.
  { unfold format_zone. destruct (zone_min t =? 0); [done|]. unfold ascii_str. cbn [all_bytes].
    rewrite all_bytes_app. cbn [all_bytes]. rewrite !pad_ascii by done. by destruct (zone_min t <? 0). }
  assert (ascii_str (format_frac ns) = true) as Hfrac.
  { unfold format_frac. destruct (ns =? 0); [done|]. unfold ascii_str. cbn [all_bytes]. by rewrite frac_ascii. }
  unfold ascii_str, stamp_text in *.
  repeat (rewrite all_bytes_app, pad_ascii by (cbn; lia); cbn [andb all_bytes]).
  rewrite all_bytes_app. by rewrite Hfrac, Hzone.
Qed.
