(* ===== verification/GoOS.v ===== *)
(** * GoOS: the file system calls the router makes on its configuration file

    The directory that holds the configuration file.  Directory entries name
    inodes; a file's data is durable once it was fsynced, and the directory's
    own changes are durable, in order, from the next directory fsync on.
    Every call may fail: the failure is an argument.  [power_loss] says what
    may be found on the disk after the machine stops. *)

From S2P Require Import Prelude GoLib Errors.

Record inode := Inode { data : string; synced : bool; is_dir : bool }.

(** [hist] holds the entries after each change since the last directory
    fsync, latest first; its last element is what is known to be on disk. *)
Record FS := mkFS {
  inodes : gmap positive inode;
  entries : gmap string positive;
  hist : list (gmap string positive);
}.

Definition lookup_file (fs : FS) (name : string) : option inode :=
  i ← entries fs !! name; inodes fs !! i.

Definition set_entries (fs : FS) (d : gmap string positive) : FS :=
  mkFS (inodes fs) d (entries fs :: hist fs).
Definition set_inode (fs : FS) (i : positive) (n : inode) : FS :=
  mkFS (<[i := n]> (inodes fs)) (entries fs) (hist fs).

(** ** System calls

    [fault] is the error the kernel answers with, if any.  A failing call is
    wrapped in a [PathError] with the call's name and path, as package os
    does. *)

Definition EEXIST : error := Errorf "file exists" [].
Definition EISDIR : error := Errorf "is a directory" [].

Definition os_Stat (fs : FS) (name : string) (fault : option error) : result error inode :=
  match fault with
  | Some e => Err (PathError "stat" name e)
  | None =>
      match lookup_file fs name with
      | Some n => Ok n
      | None => Err (PathError "stat" name (Sentinel ErrNotExist))
      end
  end.

Definition os_ReadFile (fs : FS) (name : string) (fault : option error) : result error string :=
  match fault with
  | Some e => Err (PathError "open" name e)
  | None =>
      match lookup_file fs name with
      | Some n => if is_dir n then Err (PathError "read" name EISDIR) else Ok (data n)
      | None => Err (PathError "open" name (Sentinel ErrNotExist))
      end
  end.

(** [os.OpenFile] with [O_CREATE|O_EXCL|O_WRONLY]: a fresh empty inode. *)
Definition os_Create (fs : FS) (name : string) (fault : option error)
    : FS * result error positive :=
  match entries fs !! name with
  | Some _ => (fs, Err (PathError "open" name EEXIST))
  | None =>
      match fault with
      | Some e => (fs, Err (PathError "open" name e))
      | None =>
          let i := fresh (dom (inodes fs)) in
          (set_entries (set_inode fs i (Inode "" false false)) (<[name := i]> (entries fs)), Ok i)
      end
  end.

(** A write that fails may have written a prefix. *)
Definition os_Write (fs : FS) (i : positive) (name b : string) (fault : option (nat * error))
    : FS * option error :=
  match fault with
  | None => (set_inode fs i (Inode b false false), None)
  | Some (n, e) => (set_inode fs i (Inode (take_str n b) false false), Some (PathError "write" name e))
  end.

Definition os_Sync (fs : FS) (i : positive) (name : string) (fault : option error) : FS * option error :=
  match fault with
  | Some e => (fs, Some (PathError "sync" name e))
  | None =>
      (match inodes fs !! i with
       | Some n => set_inode fs i (Inode (data n) true (is_dir n))
       | None => fs
       end, None)
  end.

Definition os_Close (name : string) (fault : option error) : option error :=
  PathError "close" name <$> fault.

(** [os.Rename]: one directory change; the target must not be a directory. *)
Definition os_Rename (fs : FS) (old new : string) (fault : option error) : FS * option error :=
  let fail e := (fs, Some (LinkError "rename" old new e)) in
  match fault, entries fs !! old with
  | Some e, _ => fail e
  | None, None => fail (Sentinel ErrNotExist)
  | None, Some i =>
      if match lookup_file fs new with Some n => is_dir n | None => false end
      then fail EEXIST
      else (set_entries fs (<[new := i]> (delete old (entries fs))), None)
  end.

Definition os_Remove (fs : FS) (name : string) (fault : option error) : FS * option error :=
  match fault, entries fs !! name with
  | Some e, _ => (fs, Some (PathError "remove" name e))
  | None, None => (fs, Some (PathError "remove" name (Sentinel ErrNotExist)))
  | None, Some _ => (set_entries fs (delete name (entries fs)), None)
  end.

(** Opening and fsyncing the directory: its changes are on disk. *)
Definition os_SyncDir (fs : FS) (dir : string) (open_fault sync_fault : option error)
    : FS * option error :=
  match open_fault, sync_fault with
  | Some e, _ => (fs, Some (PathError "open" dir e))
  | None, Some e => (fs, Some (PathError "sync" dir e))
  | None, None => (mkFS (inodes fs) (entries fs) [], None)
  end.

(** ** Power loss

    The directory is found as it was after some prefix of its unsynced
    changes; a file's data is what was fsynced, or anything at all. *)
Record power_loss (fs fs' : FS) : Prop := {
  pl_entries : entries fs' ∈ entries fs :: hist fs;
  pl_hist : hist fs' = [];
  pl_inodes : forall i n, inodes fs !! i = Some n ->
    exists n', inodes fs' !! i = Some n' /\ is_dir n' = is_dir n
               /\ (synced n = true -> n' = n);
}.

(** What a reader finds under a name. *)
Definition content (fs : FS) (name : string) : option string := data <$> lookup_file fs name.
