(* ===== verification/Config.v ===== *)
(** * Config: the configuration file (internal/config)

    The typed form of config.json with its defaults and its JSON wire form
    (config.go), the loader with its provenance map and environment overlay
    (loader.go), plugin flags (plugins.go) and the published snapshots
    (live.go).  Writing the file is [ConfigWriter]. *)

From S2P Require Import Prelude GoLib GoHTTP GoJSON GoTime Errors GoOS.

Module config.

Definition SupportedVersion : Z := 1.

(** ** Data (config.go) *)

Record ModelRenameRule := mkRename { From : string; To : string }.

Record RuntimeConfig := mkRuntime {
  LogClientRequestBody : bool;
  LogUpstreamRequestBody : bool;
  LogUpstreamResponseBody : bool;
  LogRetentionDays : Z;
  LogLevel : string;
  UsageRefreshIntervalSeconds : Z;
  ModelRenames : option (list ModelRenameRule);
}.
#[global] Instance eta_RuntimeConfig : Eta RuntimeConfig := fun r =>
  mkRuntime (LogClientRequestBody r) (LogUpstreamRequestBody r) (LogUpstreamResponseBody r)
    (LogRetentionDays r) (LogLevel r) (UsageRefreshIntervalSeconds r) (ModelRenames r).

Record AdminAuthPluginConfig := mkAdminAuth {
  AdminAuthEnabled : bool; SessionTTLMinutes : Z; JWTSecretRef : string }.
Record ClientKeysPluginConfig := mkClientKeys { ClientKeysEnabled : bool }.
Record PluginsConfig := mkPlugins {
  AdminAuth : AdminAuthPluginConfig; ClientKeys : ClientKeysPluginConfig }.
Record DBConfig := mkDB { Driver : string; URL : string }.
Record NetworkConfig := mkNetwork { ProxyURL : string }.

Record Config := mkConfig {
  Version : Z;
  DB : DBConfig;
  Runtime : RuntimeConfig;
  Plugins : PluginsConfig;
  Network : NetworkConfig;
  CreatedAt : stamp;
  UpdatedAt : stamp;
}.
#[global] Instance eta_Config : Eta Config := fun c =>
  mkConfig (Version c) (DB c) (Runtime c) (Plugins c) (Network c) (CreatedAt c) (UpdatedAt c).

Definition DefaultRuntimeConfig : RuntimeConfig := mkRuntime false false false 30 "info" 300 (Some []).
Definition DefaultPluginsConfig : PluginsConfig :=
  mkPlugins (mkAdminAuth false 0 "") (mkClientKeys false).

(** The zero values a decode starts from. *)
Definition zero_Rename := mkRename "" "".
Definition zero_Runtime := mkRuntime false false false 0 "" 0 None.
Definition zero_Config : Config :=
  mkConfig 0 (mkDB "" "") zero_Runtime (mkPlugins (mkAdminAuth false 0 "") (mkClientKeys false))
    (mkNetwork "") zero_stamp zero_stamp.

(** ** The wire form: encoding *)

Definition JInt (z : Z) : json := JNum (Itoa z).

Definition rename_json (r : ModelRenameRule) : json :=
  JObj [("from", JStr (From r)); ("to", JStr (To r))].

Definition runtime_json (r : RuntimeConfig) : json :=
  JObj [("log_client_request_body", JBool (LogClientRequestBody r));
        ("log_upstream_request_body", JBool (LogUpstreamRequestBody r));
        ("log_upstream_response_body", JBool (LogUpstreamResponseBody r));
        ("log_retention_days", JInt (LogRetentionDays r));
        ("log_level", JStr (LogLevel r));
        ("usage_refresh_interval_seconds", JInt (UsageRefreshIntervalSeconds r));
        ("model_renames",
          match ModelRenames r with None => JNull | Some l => JArr (List.map rename_json l) end)].

(** [omitempty] drops a zero. *)
Definition admin_auth_json (a : AdminAuthPluginConfig) : json :=
  JObj (("enabled", JBool (AdminAuthEnabled a))
    :: (if SessionTTLMinutes a =? 0 then [] else [("session_ttl_minutes", JInt (SessionTTLMinutes a))])
    ++ (if String.eqb (JWTSecretRef a) "" then [] else [("jwt_secret_ref", JStr (JWTSecretRef a))])).

Definition plugins_json (p : PluginsConfig) : json :=
  JObj [("admin_auth", admin_auth_json (AdminAuth p));
        ("client_keys", JObj [("enabled", JBool (ClientKeysEnabled (ClientKeys p)))])].

Definition db_json (d : DBConfig) : json :=
  JObj [("driver", JStr (Driver d)); ("url", JStr (URL d))].
Definition network_json (n : NetworkConfig) : json := JObj [("proxy_url", JStr (ProxyURL n))].

(** Encoding fails only on a time outside years 0 to 9999. *)
Definition config_json (c : Config) : option json :=
  created ← FormatStamp (CreatedAt c);
  updated ← FormatStamp (UpdatedAt c);
  Some (JObj [("version", JInt (Version c));
              ("db", db_json (DB c));
              ("runtime", runtime_json (Runtime c));
              ("plugins", plugins_json (Plugins c));
              ("network", network_json (Network c));
              ("created_at", JStr created);
              ("updated_at", JStr updated)]).

(** ** The wire form: decoding *)

Definition dec_stamp (v : json) (old : stamp) : option stamp :=
  match v with JNull => Some old | JStr s => ParseStamp s | _ => None end.

Definition rename_field (k : string) (v : json) (r : ModelRenameRule) : option ModelRenameRule :=
  if key_is "from" k then s ← dec_string v (From r); Some (mkRename s (To r))
  else if key_is "to" k then s ← dec_string v (To r); Some (mkRename (From r) s)
  else Some r.

Definition runtime_field (k : string) (v : json) (r : RuntimeConfig) : option RuntimeConfig :=
  if key_is "log_client_request_body" k then
    b ← dec_bool v (LogClientRequestBody r); Some (r <| LogClientRequestBody := b |>)
  else if key_is "log_upstream_request_body" k then
    b ← dec_bool v (LogUpstreamRequestBody r); Some (r <| LogUpstreamRequestBody := b |>)
  else if key_is "log_upstream_response_body" k then
    b ← dec_bool v (LogUpstreamResponseBody r); Some (r <| LogUpstreamResponseBody := b |>)
  else if key_is "log_retention_days" k then
    z ← dec_int v (LogRetentionDays r); Some (r <| LogRetentionDays := z |>)
  else if key_is "log_level" k then
    s ← dec_string v (LogLevel r); Some (r <| LogLevel := s |>)
  else if key_is "usage_refresh_interval_seconds" k then
    z ← dec_int v (UsageRefreshIntervalSeconds r); Some (r <| UsageRefreshIntervalSeconds := z |>)
  else if key_is "model_renames" k then
    l ← dec_slice (dec_struct rename_field) zero_Rename v (ModelRenames r);
    Some (r <| ModelRenames := l |>)
  else Some r.

Definition db_field (k : string) (v : json) (d : DBConfig) : option DBConfig :=
  if key_is "driver" k then s ← dec_string v (Driver d); Some (mkDB s (URL d))
  else if key_is "url" k then s ← dec_string v (URL d); Some (mkDB (Driver d) s)
  else Some d.

Definition admin_auth_field (k : string) (v : json) (a : AdminAuthPluginConfig)
    : option AdminAuthPluginConfig :=
  if key_is "enabled" k then
    b ← dec_bool v (AdminAuthEnabled a); Some (mkAdminAuth b (SessionTTLMinutes a) (JWTSecretRef a))
  else if key_is "session_ttl_minutes" k then
    z ← dec_int v (SessionTTLMinutes a); Some (mkAdminAuth (AdminAuthEnabled a) z (JWTSecretRef a))
  else if key_is "jwt_secret_ref" k then
    s ← dec_string v (JWTSecretRef a); Some (mkAdminAuth (AdminAuthEnabled a) (SessionTTLMinutes a) s)
  else Some a.

Definition client_keys_field (k : string) (v : json) (c : ClientKeysPluginConfig)
    : option ClientKeysPluginConfig :=
  if key_is "enabled" k then b ← dec_bool v (ClientKeysEnabled c); Some (mkClientKeys b) else Some c.

Definition plugins_field (k : string) (v : json) (p : PluginsConfig) : option PluginsConfig :=
  if key_is "admin_auth" k then
    a ← dec_struct admin_auth_field v (AdminAuth p); Some (mkPlugins a (ClientKeys p))
  else if key_is "client_keys" k then
    c ← dec_struct client_keys_field v (ClientKeys p); Some (mkPlugins (AdminAuth p) c)
  else Some p.

Definition network_field (k : string) (v : json) (n : NetworkConfig) : option NetworkConfig :=
  if key_is "proxy_url" k then s ← dec_string v (ProxyURL n); Some (mkNetwork s) else Some n.

Definition config_field (k : string) (v : json) (c : Config) : option Config :=
  if key_is "version" k then z ← dec_int v (Version c); Some (c <| Version := z |>)
  else if key_is "db" k then d ← dec_struct db_field v (DB c); Some (c <| DB := d |>)
  else if key_is "runtime" k then r ← dec_struct runtime_field v (Runtime c); Some (c <| Runtime := r |>)
  else if key_is "plugins" k then p ← dec_struct plugins_field v (Plugins c); Some (c <| Plugins := p |>)
  else if key_is "network" k then n ← dec_struct network_field v (Network c); Some (c <| Network := n |>)
  else if key_is "created_at" k then t ← dec_stamp v (CreatedAt c); Some (c <| CreatedAt := t |>)
  else if key_is "updated_at" k then t ← dec_stamp v (UpdatedAt c); Some (c <| UpdatedAt := t |>)
  else Some c.

(** [json.Unmarshal(raw, &cfg)] into a zero [Config]. *)
Definition decode_config (doc : json) : option Config := dec_struct config_field doc zero_Config.

(** ** Provenance and defaults (loader.go) *)

Definition Env := string -> option string.
Definition MapEnv (m : gmap string string) : Env := fun k => m !! k.

Abbreviation SourceMap := (gmap string string).
Definition srcFile : string := "file".
Definition srcDefault : string := "default".

Definition envOverridableKeys : list (string * string) :=
  [("db.driver", "ROUTER_DB_DRIVER"); ("db.url", "ROUTER_DB_URL")].

Definition ignoredEnvVars : list string :=
  ["ROUTER_LOG_CLIENT_REQUEST_BODY"; "ROUTER_LOG_UPSTREAM_REQUEST_BODY";
   "ROUTER_LOG_UPSTREAM_RESPONSE_BODY"; "ROUTER_LOG_RETENTION_DAYS"; "ROUTER_LOG_LEVEL";
   "ROUTER_ADMIN_AUTH_ENABLED"; "ROUTER_CLIENT_KEYS_ENABLED"].

(** The set of dotted keys of an object, and of the section [section] of the
    document when it has one. *)
Definition dotted (pre : string) (l : list (string * json)) : gset string :=
  list_to_set ((fun kv => pre +:+ "." +:+ fst kv) <$> l).

Definition section_keys (section : string) (top : list (string * json)) : option (gset string) :=
  match obj_get section top with
  | None => Some ∅
  | Some v => m ← raw_map v; Some (dotted section m)
  end.

(** A plugin section that is not an object is skipped. *)
Definition plugin_keys (top : list (string * json)) : option (gset string) :=
  match obj_get "plugins" top with
  | None => Some ∅
  | Some v =>
      m ← raw_map v;
      Some (⋃ ((fun kv =>
                  match s ← obj_get (fst kv) m; raw_map s with
                  | Some sub => dotted ("plugins." +:+ fst kv) sub
                  | None => ∅
                  end) <$> m))
  end.

Definition parse_error : error := Errorf "invalid JSON" [].
Definition type_error (where_ : string) : error := Wrapf "%s: %w" [FStr where_] parse_error.

Definition scanPresentKeys (raw : string) : result error (gset string) :=
  match json_parse raw with
  | None => Err parse_error
  | Some doc =>
      match raw_map doc with
      | None => Err parse_error
      | Some top =>
          match section_keys "runtime" top with
          | None => Err (type_error "runtime")
          | Some rt =>
              match plugin_keys top with
              | None => Err (type_error "plugins")
              | Some pl =>
                  match section_keys "network" top with
                  | None => Err (type_error "network")
                  | Some nw => Ok (rt ∪ pl ∪ nw)
                  end
              end
          end
      end
  end.

(** One key: from the file when present there, otherwise the default is
    stored and recorded. *)
Definition default_key {A} (present : gset string) (key : string) (use_default : A -> A)
    (st : A * SourceMap) : A * SourceMap :=
  let '(a, src) := st in
  if bool_decide (key ∈ present) then (a, <[key := srcFile]> src)
  else (use_default a, <[key := srcDefault]> src).

Definition cloneModelRenameRules (l : option (list ModelRenameRule)) : option (list ModelRenameRule) := l.

Definition applyRuntimeDefaults (rc defaults : RuntimeConfig) (present : gset string)
    (src : SourceMap) : RuntimeConfig * SourceMap :=
  let st := (rc, src) in
  let st := default_key present "runtime.log_client_request_body"
    (fun rc => rc <| LogClientRequestBody := LogClientRequestBody defaults |>) st in
  let st := default_key present "runtime.log_upstream_request_body"
    (fun rc => rc <| LogUpstreamRequestBody := LogUpstreamRequestBody defaults |>) st in
  let st := default_key present "runtime.log_upstream_response_body"
    (fun rc => rc <| LogUpstreamResponseBody := LogUpstreamResponseBody defaults |>) st in
  let st := default_key present "runtime.log_retention_days"
    (fun rc => rc <| LogRetentionDays := LogRetentionDays defaults |>) st in
  let st := default_key present "runtime.log_level"
    (fun rc => rc <| LogLevel := LogLevel defaults |>) st in
  default_key present "runtime.model_renames"
    (fun rc => rc <| ModelRenames := cloneModelRenameRules (ModelRenames defaults) |>) st.

Definition applyPluginDefaults (pc : PluginsConfig) (present : gset string) (src : SourceMap)
    : PluginsConfig * SourceMap :=
  let st := default_key present "plugins.admin_auth.enabled"
    (fun p => let a := AdminAuth p in
              mkPlugins (mkAdminAuth false (SessionTTLMinutes a) (JWTSecretRef a)) (ClientKeys p))
    (pc, src) in
  default_key present "plugins.client_keys.enabled"
    (fun p => mkPlugins (AdminAuth p) (mkClientKeys false)) st.

(** The switch of [overlayEnv]; its default case cannot be reached with the
    bindings above ([overlay_total]). *)
Definition overlay_one (env : Env) (b : string * string) (st : DBConfig * SourceMap)
    : option (DBConfig * SourceMap) :=
  let '(db, src) := st in
  match env (snd b) with
  | None => Some st
  | Some val =>
      if String.eqb val "" then Some st
      else
        let src := <[fst b := "env:" +:+ snd b]> src in
        if String.eqb (fst b) "db.driver" then Some (mkDB val (URL db), src)
        else if String.eqb (fst b) "db.url" then Some (mkDB (Driver db) val, src)
        else None
  end.

Definition overlayEnv (db : DBConfig) (env : Env) (src : SourceMap) : option (DBConfig * SourceMap) :=
  foldl (fun st b => st ≫= overlay_one env b) (Some (db, src)) envOverridableKeys.

(** The variables [warnOnIgnoredEnvVars] warns about. *)
Definition warnOnIgnoredEnvVars (env : Env) : list string :=
  filter (fun name => is_Some (env name)) ignoredEnvVars.

(** [ScrubPath] and [scrubLinkError] (writer.go): the configuration path does
    not appear in errors.  [errors.As] finds the first [PathError] of the
    chain; callers pass the raw OS error. *)
Definition scrubbedPathPlaceholder : string := "<config>".

Definition ScrubPath (e : error) : error :=
  match e with
  | PathError op p c => if String.eqb p "" then e else PathError op scrubbedPathPlaceholder c
  | _ => e
  end.

Definition scrubLinkError (e : error) : error :=
  match e with
  | LinkError op _ _ c => LinkError op scrubbedPathPlaceholder scrubbedPathPlaceholder c
  | _ => ScrubPath e
  end.

(** ** [Load]

    [stat_fault] and [read_fault] are the failures of the two file system
    calls. *)
Definition missing_fields (db : DBConfig) : list string :=
  (if String.eqb (Driver db) "" then ["db.driver"] else [])
  ++ (if String.eqb (URL db) "" then ["db.url"] else []).

Definition decode_raw (raw : string) : result error (gset string * Config) :=
  match scanPresentKeys raw with
  | Err e => Err (Wrapf "parse config.json: %w" [] e)
  | Ok present =>
      match json_parse raw ≫= decode_config with
      | None => Err (Wrapf "parse config.json: %w" [] parse_error)
      | Some cfg => Ok (present, cfg)
      end
  end.

Definition finish_load (present : gset string) (cfg : Config) (env : Env)
    : result error (Config * SourceMap) :=
  if negb (Version cfg =? SupportedVersion) then
    Err (Wrapf "%w: got %d, want %d" [FInt (Version cfg); FInt SupportedVersion] (Sentinel ErrUnsupportedVersion))
  else
    let '(rt, src) := applyRuntimeDefaults (Runtime cfg) DefaultRuntimeConfig present ∅ in
    let '(pl, src) := applyPluginDefaults (Plugins cfg) present src in
    let src := <["network.proxy_url" :=
      if bool_decide ("network.proxy_url" ∈ present) then srcFile else srcDefault]> src in
    let src := <["db.url" := srcFile]> (<["db.driver" := srcFile]> src) in
    match overlayEnv (DB cfg) env src with
    | None => Err (Errorf "panic: config: overlayEnv" [])
    | Some (db, src) =>
        match missing_fields db with
        | [] => Ok (cfg <| Runtime := rt |> <| Plugins := pl |> <| DB := db |>, src)
        | missing => Err (Wrapf "%w: missing required field(s): %v" (FStr <$> missing) (Sentinel ErrInvalidDBConfig))
        end
    end.

Definition Load (ctx_err : option error) (fs : FS) (path : string)
    (stat_fault read_fault : option error) (env : Env) : result error (Config * SourceMap) :=
  match ctx_err with
  | Some e => Err e
  | None =>
      match os_Stat fs path stat_fault with
      | Err e =>
          if errors_Is e ErrNotExist then Err (Sentinel ErrNoConfig)
          else Err (Wrapf "stat config.json: %w" [] (ScrubPath e))
      | Ok info =>
          if is_dir info then Err (Errorf "config path is a directory" [])
          else
            match os_ReadFile fs path read_fault with
            | Err e => Err (Wrapf "read config.json: %w" [] (ScrubPath e))
            | Ok raw => '(present, cfg) ← decode_raw raw; finish_load present cfg env
            end
      end
  end.

(** ** Plugin flags (plugins.go) and published snapshots (live.go) *)

(** The switch of [Enabled], with the set of unknown ids already warned about:
    an id is reported the first time only. *)
Definition Enabled (p : PluginsConfig) (id : string) (warned : gset string)
    : bool * gset string * bool :=
  if String.eqb id "admin_auth" then (AdminAuthEnabled (AdminAuth p), warned, false)
  else if String.eqb id "client_keys" then (ClientKeysEnabled (ClientKeys p), warned, false)
  else (false, {[id]} ∪ warned, bool_decide (id ∉ warned)).

(** The two published slots.  The source map is copied when it is stored. *)
Record live := mkLive { livePtr : option Config; liveSourcePtr : option SourceMap }.
Definition Publisher_Store (l : live) (c : option Config) : live := mkLive c (liveSourcePtr l).
Definition SourcePublisher_Store (l : live) (src : option SourceMap) : live := mkLive (livePtr l) src.

End config.
