(* ===== verification/ConfigWriter.v ===== *)
(** * ConfigWriter: writing config.json (internal/config/writer.go)

    [WriteAtomic] as the sequence of its system calls, with the state of the
    directory after each of them, so that a crash or a reader can be placed
    between any two; [SweepStale], the boot-time clean-up of temporary files
    left by dead processes. *)

From S2P Require Import Prelude GoLib GoJSON GoJSONProofs GoTime Errors GoOS Config.
Import config.

(** ** [WriteAtomic] *)

Definition tmpSuffixPrefix : string := ".tmp.".
Definition tmpPathFor (path : string) (pid : Z) : string := path +:+ tmpSuffixPrefix +:+ Itoa pid.

(** The failure of each system call, if any; a failing write stops after some
    bytes. *)
Record io_faults := mkIO {
  f_open : option error;
  f_write : option (nat * error);
  f_sync : option error;
  f_close : option error;
  f_rename : option error;
  f_remove : option error;
  f_dir_open : option error;
  f_dir_sync : option error;
}.
Definition no_faults : io_faults := mkIO None None None None None None None None.

(** The directory after each system call, the final directory, the stamped
    configuration and the returned error. *)
Record write_result := mkWrite {
  w_trail : list FS;
  w_fs : FS;
  w_cfg : option Config;
  w_err : option error;
}.

Definition wrap_write (what : string) (e : error) : option error :=
  Some (Wrapf ("config.WriteAtomic: " +:+ what +:+ ": %w") [] (ScrubPath e)).

(** The stamps: [UpdatedAt] always, [CreatedAt] on the first write. *)
Definition stamp_config (now : stamp) (c : Config) : Config :=
  let c := c <| UpdatedAt := now |> in
  if IsZero (at_ns (CreatedAt c)) then c <| CreatedAt := now |> else c.

(** [fsyncDir]. *)
Definition fsyncDir (fs : FS) (io : io_faults) : FS * option error :=
  let '(fs', err) := os_SyncDir fs "." (f_dir_open io) (f_dir_sync io) in
  (fs', (fun e =>
     Wrapf (match f_dir_open io with
            | Some _ => "open config parent dir: %w"
            | None => "fsync config parent dir: %w"
            end) [] (ScrubPath e)) <$> err).

(** From the opened temporary file to the durable rename.  A failing
    directory fsync is only logged. *)
Definition write_and_rename (fs : FS) (i : positive) (path tmp payload : string) (io : io_faults)
    : list FS * FS * option error :=
  match os_Write fs i tmp payload (f_write io) with
  | (fs1, Some e) => ([fs1], fs1, wrap_write "write tmp" e)
  | (fs1, None) =>
      match os_Sync fs1 i tmp (f_sync io) with
      | (fs2, Some e) => ([fs1; fs2], fs2, wrap_write "fsync tmp" e)
      | (fs2, None) =>
          match os_Close tmp (f_close io) with
          | Some e => ([fs1; fs2], fs2, wrap_write "close tmp" e)
          | None =>
              match os_Rename fs2 tmp path (f_rename io) with
              | (fs3, Some e) =>
                  ([fs1; fs2; fs3], fs3,
                   Some (Wrapf "config.WriteAtomic: rename tmp into place: %w" [] (scrubLinkError e)))
              | (fs3, None) =>
                  let '(fs4, _) := fsyncDir fs3 io in
                  ([fs1; fs2; fs3; fs4], fs4, None)
              end
          end
      end
  end.

Definition WriteAtomic (fs : FS) (path : string) (pid : Z) (now : stamp) (io : io_faults)
    (cfg : option Config) : write_result :=
  match cfg with
  | None => mkWrite [] fs None (Some (Errorf "config.WriteAtomic: cfg is nil" []))
  | Some c =>
      let c := stamp_config now c in
      match config_json c with
      | None =>
          mkWrite [] fs (Some c)
            (Some (Wrapf "config.WriteAtomic: marshal: %w" [] (Errorf "year outside of range [0,9999]" [])))
      | Some doc =>
          let tmp := tmpPathFor path pid in
          match os_Create fs tmp (f_open io) with
          | (fs1, Err e) => mkWrite [fs1] fs1 (Some c) (wrap_write "open tmp" e)
          | (fs1, Ok i) =>
              match write_and_rename fs1 i path tmp (MarshalIndent doc) io with
              | (trail, fs2, None) => mkWrite (fs1 :: trail) fs2 (Some c) None
              | (trail, fs2, Some e) =>
                  let '(fs3, _) := os_Remove fs2 tmp (f_remove io) in
                  mkWrite (fs1 :: trail ++ [fs3]) fs3 (Some c) (Some e)
              end
          end
      end
  end.

(** ** [SweepStale] *)

(** The answer of [kill(pid, 0)]. *)
Inductive kill_result := KillOk | KillEPERM | KillESRCH | KillOther.

Definition processAlive (kill : Z -> kill_result) (pid : Z) : bool :=
  if pid <=? 0 then false
  else match kill pid with KillOk | KillEPERM => true | KillESRCH => false | KillOther => true end.

(** What happens to one directory entry. *)
Definition sweeps (base : string) (self : Z) (kill : Z -> kill_result) (is_dir : bool) (name : string)
    : bool :=
  let pre := base +:+ tmpSuffixPrefix in
  if negb (HasPrefix name pre) then false
  else if is_dir then false
  else match Atoi (TrimPrefix name pre) with
       | None => true
       | Some pid => if pid =? self then false else negb (processAlive kill pid)
       end.

Definition sweep_one (base : string) (self : Z) (kill : Z -> kill_result)
    (remove_fault : string -> option error) (fs : FS) (name : string) : FS :=
  let dir := match lookup_file fs name with Some n => is_dir n | None => false end in
  if sweeps base self kill dir name then fst (os_Remove fs name (remove_fault name)) else fs.

(** [os.ReadDir] lists the names in order. *)
Definition SweepStale (fs : FS) (base : string) (self : Z) (kill : Z -> kill_result)
    (readdir_fault : option error) (remove_fault : string -> option error) : FS * option error :=
  match readdir_fault with
  | Some e => (fs, Some (Wrapf "config.SweepStale: read config dir: %w" [] (ScrubPath e)))
  | None =>
      (foldl (sweep_one base self kill remove_fault) fs
         (merge_sort String.le (elements (dom (entries fs)))), None)
  end.

(** ** Crash safety *)

(** Entries point to inodes; what the target names is durable, and was so
    before any pending directory change. *)
Record settled (fs : FS) (path : string) : Prop := {
  st_inodes : forall name i, entries fs !! name = Some i -> is_Some (inodes fs !! i);
  st_hist : Forall (fun d => d !! path = entries fs !! path) (hist fs);
  st_synced : forall n, lookup_file fs path = Some n -> synced n = true;
}.

(** Throughout a write, the target is the old file or a durable file with the
    new payload, in every directory state that may be on disk. *)
Record between (fs0 : FS) (path payload : string) (new : option positive) (fs : FS) : Prop := {
  bt_entries : Forall (fun d => d !! path = entries fs0 !! path \/ (is_Some new /\ d !! path = new))
                 (entries fs :: hist fs);
  bt_old : forall i, entries fs0 !! path = Some i -> inodes fs !! i = inodes fs0 !! i;
  bt_new : forall i, new = Some i -> inodes fs !! i = Some (Inode payload true false);
}.

Definition old_or_new (fs0 : FS) (path payload : string) (fs : FS) : Prop :=
  content fs path = content fs0 path \/ content fs path = Some payload.

Lemma power_loss_file fs fs' i n :
  power_loss fs fs' -> inodes fs !! i = Some n -> synced n = true -> inodes fs' !! i = Some n.
Proof. intros [_ _ H] Hi Hs. destruct (H i n Hi) as (n' & ? & _ & Heq). by rewrite <- Heq. Qed.

(** After a power loss the target is the old content or the whole payload. *)
Lemma between_power_loss fs0 path payload new fs fs' :
  settled fs0 path -> between fs0 path payload new fs -> power_loss fs fs' ->
  old_or_new fs0 path payload fs' /\ (new = None -> content fs' path = content fs0 path).
Proof.
  intros [Hin _ Hs] [He Ho Hn] Hpl. pose proof (pl_entries _ _ Hpl) as Hd.
  rewrite Forall_forall in He. specialize (He _ Hd).
  assert (entries fs' !! path = entries fs0 !! path -> content fs' path = content fs0 path) as Hold.
  { intros E. unfold content, lookup_file in *. rewrite E. cbn [mbind option_bind] in *.
    destruct (entries fs0 !! path) as [i|] eqn:Ei; [|done]. cbn [mbind option_bind] in *.
    destruct (Hin _ _ Ei) as [n En]. specialize (Hs n En).
    rewrite (power_loss_file fs fs' i n Hpl); [by rewrite En| |done].
    by rewrite (Ho i eq_refl). }
  split.
  - destruct He as [E|[[i ->] E]]; [left; auto|right].
    unfold content, lookup_file. rewrite E. cbn [mbind option_bind].
    by rewrite (power_loss_file fs fs' i _ Hpl (Hn i eq_refl) eq_refl).
  - intros ->. destruct He as [E|[[? ?] _]]; [auto|done].
Qed.

(** A reader of the running system sees the same. *)
Lemma between_read fs0 path payload new fs :
  between fs0 path payload new fs -> old_or_new fs0 path payload fs.
Proof.
  intros [He Ho Hn]. apply Forall_cons in He as [[E|[[i ->] E]] _]; unfold old_or_new, content, lookup_file;
    rewrite E; [left|right].
  - destruct (entries fs0 !! path) as [i|] eqn:Ei; [|done]. cbn [mbind option_bind]. by rewrite Ho.
  - cbn [mbind option_bind]. by rewrite (Hn i).
Qed.

Lemma between_old fs0 path payload fs :
  between fs0 path payload None fs -> content fs path = content fs0 path.
Proof.
  intros [He Ho _]. apply Forall_cons in He as [[E|[[? ?] _]] _]; [|done].
  unfold content, lookup_file. rewrite E. destruct (entries fs0 !! path) eqn:Ei; [|done].
  cbn [mbind option_bind]. by rewrite Ho.
Qed.

Lemma between_content fs0 path payload i fs :
  between fs0 path payload (Some i) fs -> entries fs !! path = Some i -> content fs path = Some payload.
Proof.
  intros Hb Hi. unfold content, lookup_file. rewrite Hi. cbn [mbind option_bind].
  by rewrite (bt_new _ _ _ _ _ Hb i).
Qed.

Ltac each := repeat first [apply Forall_nil_2 | apply Forall_cons_2].

Section steps.
Context (fs0 : FS) (path payload : string).
Hypothesis Hst : settled fs0 path.

Lemma between_refl : between fs0 path payload None fs0.
Proof.
  split; [|done|done]. apply Forall_cons. split; [by left|].
  eapply Forall_impl; [apply (st_hist _ _ Hst)|]. cbn. by left.
Qed.

Lemma between_set_inode new fs i n :
  between fs0 path payload new fs -> entries fs0 !! path <> Some i -> new <> Some i ->
  between fs0 path payload new (set_inode fs i n).
Proof.
  intros [He Ho Hn] Hi Hni. split; [done| |]; cbn [set_inode inodes entries hist].
  - intros j Hj. rewrite lookup_insert_ne by congruence. auto.
  - intros j Hj. rewrite lookup_insert_ne by congruence. auto.
Qed.

Lemma between_set_entries new fs d :
  between fs0 path payload new fs -> d !! path = entries fs !! path ->
  between fs0 path payload new (set_entries fs d).
Proof.
  intros [He Ho Hn] Hd. split; [|done|done]. cbn [set_entries entries hist].
  apply Forall_cons. split; [|done]. rewrite Hd. by apply Forall_cons in He as [? _].
Qed.

Lemma between_rename fs i tmp :
  between fs0 path payload None fs -> inodes fs !! i = Some (Inode payload true false) ->
  between fs0 path payload (Some i) (set_entries fs (<[path := i]> (delete tmp (entries fs)))).
Proof.
  intros [He Ho Hn] Hi. split; [|done|]; cbn [set_entries entries hist inodes].
  - apply Forall_cons. split; [right; split; [by eexists|apply lookup_insert_eq]|].
    eapply Forall_impl; [exact He|]. cbn. intros d [?|[[? ?] _]]; [by left|done].
  - intros j [= <-]. done.
Qed.

Lemma between_sync_dir new fs :
  between fs0 path payload new fs -> between fs0 path payload new (mkFS (inodes fs) (entries fs) []).
Proof.
  intros [He Ho Hn]. split; [|done|done]. cbn [entries hist].
  apply Forall_cons in He as [He _]. apply Forall_cons. by split.
Qed.

Lemma between_remove new fs tmp fault :
  tmp <> path -> between fs0 path payload new fs ->
  between fs0 path payload new (fst (os_Remove fs tmp fault)).
Proof.
  intros Hne H. unfold os_Remove. destruct fault, (entries fs !! tmp); try done. cbn [fst].
  apply between_set_entries; [done|]. by apply lookup_delete_ne.
Qed.

(** The invariant of the running write: only the temporary file changes. *)
Definition writing (i : positive) (tmp : string) (fs : FS) : Prop :=
  between fs0 path payload None fs /\ entries fs !! tmp = Some i.

Lemma writing_write i tmp fs fault :
  entries fs0 !! path <> Some i -> writing i tmp fs ->
  writing i tmp (fst (os_Write fs i tmp payload fault)).
Proof.
  intros Hi [Hb Ht]. split; [|by destruct fault as [[]|]].
  destruct fault as [[]|]; by apply between_set_inode.
Qed.

Lemma writing_sync i tmp fs fault :
  entries fs0 !! path <> Some i -> writing i tmp fs -> writing i tmp (fst (os_Sync fs i tmp fault)).
Proof.
  intros Hi [Hb Ht]. unfold os_Sync. destruct fault; [done|]. cbn [fst].
  destruct (inodes fs !! i); [|done]. split; [by apply between_set_inode|done].
Qed.

(** What a write that got as far as opening its temporary file leaves. *)
Definition outcome (i : positive) (tmp : string) (io : io_faults) (trail : list FS) (fs : FS)
    (err : option error) : Prop :=
  match err with
  | Some _ => Forall (between fs0 path payload None) trail /\ between fs0 path payload None fs
  | None =>
      Forall (fun f => exists new, between fs0 path payload new f) trail
      /\ between fs0 path payload (Some i) fs
      /\ entries fs !! path = Some i /\ entries fs !! tmp = None
      /\ (f_dir_open io = None -> f_dir_sync io = None -> hist fs = [])
  end.

Lemma write_and_rename_outcome fs i tmp io trail fs' err :
  entries fs0 !! path <> Some i -> tmp <> path -> writing i tmp fs ->
  write_and_rename fs i path tmp payload io = (trail, fs', err) ->
  outcome i tmp io trail fs' err.
Proof.
  intros Hi Hne Hw. unfold write_and_rename.
  pose proof (writing_write i tmp fs (f_write io) Hi Hw) as Hw1.
  destruct (f_write io) as [[k e]|] eqn:Ewr; cbn [os_Write fst] in *.
  { intros [= <- <- <-]. split; [each; apply Hw1|apply Hw1]. }
  set (fs1 := set_inode fs i (Inode payload false false)) in *.
  pose proof (writing_sync i tmp fs1 (f_sync io) Hi Hw1) as Hw2.
  assert (inodes fs1 !! i = Some (Inode payload false false)) as E1 by apply lookup_insert_eq.
  unfold os_Sync in *. destruct (f_sync io) as [e|]; cbn [fst] in *.
  { intros [= <- <- <-]. split; [each; apply Hw1|apply Hw1]. }
  rewrite E1 in *. cbn [data is_dir] in *. set (fs2 := set_inode fs1 i _) in *.
  assert (inodes fs2 !! i = Some (Inode payload true false)) as E2 by apply lookup_insert_eq.
  destruct (os_Close tmp (f_close io)) as [e|].
  { intros [= <- <- <-]. split; [each; [apply Hw1|apply Hw2]|apply Hw2]. }
  unfold os_Rename. rewrite (proj2 Hw2).
  destruct (f_rename io) as [e|].
  { intros [= <- <- <-]. split; [each; [apply Hw1|apply Hw2|apply Hw2]|apply Hw2]. }
  destruct (match lookup_file fs2 path with Some n => is_dir n | None => false end).
  { intros [= <- <- <-]. split; [each; [apply Hw1|apply Hw2|apply Hw2]|apply Hw2]. }
  pose proof (between_rename fs2 i tmp (proj1 Hw2) E2) as Hb3. set (fs3 := set_entries fs2 _) in *.
  pose proof (between_sync_dir (Some i) fs3 Hb3) as Hb4.
  assert (entries fs3 !! path = Some i /\ entries fs3 !! tmp = None) as [Ep Et].
  { cbn. split; [apply lookup_insert_eq|]. rewrite lookup_insert_ne by done. apply lookup_delete_eq. }
  unfold fsyncDir, os_SyncDir. destruct (f_dir_open io) eqn:?, (f_dir_sync io) eqn:?;
    intros [= <- <- <-];
    (split; [each; eexists; (apply Hw1 || apply Hw2 || exact Hb3 || exact Hb4)|]);
    (split; [exact Hb3 || exact Hb4|]);
    (split; [exact Ep|split; [exact Et|intros; congruence || done]]).
Qed.
End steps.

Lemma str_app_longer (s t : string) : t <> "" -> s +:+ t <> s.
Proof.
  intros Ht E. apply (f_equal String.length) in E. rewrite length_str_app in E.
  destruct t; [done|]. cbn in E. lia.
Qed.

Lemma tmp_ne_path path pid : tmpPathFor path pid <> path.
Proof. unfold tmpPathFor, tmpSuffixPrefix. by apply str_app_longer. Qed.

(** ** The contract of [WriteAtomic]

    [written fs path now c payload]: the write succeeded with this payload. *)
Definition payload_of (now : stamp) (c : Config) : option string :=
  MarshalIndent <$> config_json (stamp_config now c).

Lemma WriteAtomic_cases fs path pid now io c :
  settled fs path ->
  let r := WriteAtomic fs path pid now io (Some c) in
  let tmp := tmpPathFor path pid in
  match payload_of now c with
  | None => is_Some (w_err r) /\ w_fs r = fs /\ w_trail r = []
  | Some payload =>
      Forall (fun f => exists new, between fs path payload new f) (w_trail r)
      /\ match w_err r with
         | Some _ => Forall (between fs path payload None) (w_trail r)
                    /\ between fs path payload None (w_fs r)
         | None =>
             exists i, between fs path payload (Some i) (w_fs r)
             /\ entries (w_fs r) !! path = Some i /\ entries (w_fs r) !! tmp = None
             /\ (f_dir_open io = None -> f_dir_sync io = None -> hist (w_fs r) = [])
         end
  end.
Proof.
  intros Hst r tmp. unfold payload_of. subst r. unfold WriteAtomic.
  destruct (config_json (stamp_config now c)) as [doc|]; cbn [fmap option_fmap option_map]; [|done].
  set (payload := MarshalIndent doc). fold tmp.
  pose proof (between_refl fs path payload Hst) as Hb0.
  assert (forall l, Forall (between fs path payload None) l ->
            Forall (fun f => exists new, between fs path payload new f) l) as Hsome
    by (intros l Hl; eapply Forall_impl; [exact Hl|eauto]).
  unfold os_Create. destruct (entries fs !! tmp) as [j|] eqn:Et.
  { cbn. split; [apply Hsome|split]; by each. }
  destruct (f_open io) as [e|]; [cbn; split; [apply Hsome|split]; by each|].
  set (i := fresh (dom (inodes fs))).
  assert (inodes fs !! i = None) as Hi by (apply not_elem_of_dom, is_fresh).
  assert (entries fs !! path <> Some i) as Hpi.
  { intros E. destruct (st_inodes _ _ Hst _ _ E) as [? ?]. congruence. }
  set (fs1 := set_entries _ _).
  assert (writing fs path payload i tmp fs1) as Hw.
  { split; [|apply lookup_insert_eq]. apply between_set_entries.
    - by apply between_set_inode.
    - apply lookup_insert_ne, tmp_ne_path. }
  destruct (write_and_rename fs1 i path tmp payload io) as [[trail fs2] err] eqn:E.
  pose proof (write_and_rename_outcome fs path payload fs1 i tmp io trail fs2 err Hpi (tmp_ne_path _ _) Hw E) as Ho.
  destruct err as [e|]; cbn [outcome] in Ho.
  - destruct Ho as [Htr Hb2]. pose proof (between_remove fs path payload None fs2 tmp (f_remove io) (tmp_ne_path _ _) Hb2) as Hb3.
    destruct (os_Remove fs2 tmp (f_remove io)) as [fs3 er]. cbn [fst w_trail w_err w_fs] in *.
    assert (Forall (between fs path payload None) (fs1 :: trail ++ [fs3])) as Hall.
    { apply Forall_cons. split; [apply Hw|]. apply Forall_app. split; [done|by each]. }
    split; [by apply Hsome|done].
  - destruct Ho as (Htr & Hb2 & Hp & Ht & Hh). cbn [w_trail w_err w_fs]. split; [|by exists i].
    apply Forall_cons. split; [exists None; apply Hw|done].
Qed.

Lemma WriteAtomic_cfg fs path pid now io c :
  w_cfg (WriteAtomic fs path pid now io (Some c)) = Some (stamp_config now c).
Proof.
  unfold WriteAtomic. destruct (config_json _) as [doc|]; [|done].
  destruct (os_Create fs _ _) as [fs1 [i|e]]; [|done].
  destruct (write_and_rename _ _ _ _ _ _) as [[trail fs2] [e|]]; [|done].
  by destruct (os_Remove _ _ _).
Qed.

Lemma WriteAtomic_file fs path pid now io c :
  settled fs path -> w_err (WriteAtomic fs path pid now io (Some c)) = None ->
  exists n, lookup_file (w_fs (WriteAtomic fs path pid now io (Some c))) path = Some n /\ is_dir n = false.
Proof.
  intros Hst He. pose proof (WriteAtomic_cases fs path pid now io c Hst) as H. cbv zeta in H.
  rewrite He in H. destruct (payload_of now c) as [payload|]; [|by destruct H as [[? ?] _]].
  destruct H as (_ & i & Hb & Hi & _). exists (Inode payload true false). split; [|done].
  unfold lookup_file. rewrite Hi. cbn [mbind option_bind]. by apply (bt_new _ _ _ _ _ Hb).
Qed.

Lemma WriteAtomic_succeeds fs path pid now c payload :
  settled fs path -> payload_of now c = Some payload ->
  entries fs !! tmpPathFor path pid = None ->
  match lookup_file fs path with Some n => is_dir n | None => false end = false ->
  w_err (WriteAtomic fs path pid now no_faults (Some c)) = None.
Proof.
  intros Hst Hp Ht Hdir. unfold WriteAtomic, payload_of in *.
  destruct (config_json (stamp_config now c)) as [doc|]; [|done].
  unfold os_Create. rewrite Ht. cbn [f_open no_faults].
  set (i := fresh (dom (inodes fs))). set (tmp := tmpPathFor path pid) in *.
  assert (inodes fs !! i = None) as Hi by (apply not_elem_of_dom, is_fresh).
  unfold write_and_rename, os_Sync, os_Rename. cbn [os_Write os_Close f_write f_sync f_close f_rename no_faults fmap option_fmap option_map].
  unfold set_inode, set_entries. cbn [inodes entries].
  rewrite lookup_insert_eq. cbn [entries inodes data is_dir]. rewrite lookup_insert_eq.
  match goal with |- context [lookup_file ?g path] => assert (lookup_file g path = lookup_file fs path) as -> end.
  { unfold lookup_file. cbn [entries inodes]. rewrite lookup_insert_ne by apply tmp_ne_path.
    destruct (entries fs !! path) as [j|] eqn:Ej; [|done]. cbn [mbind option_bind].
    destruct (st_inodes _ _ Hst _ _ Ej) as [n En].
    rewrite !lookup_insert_ne by congruence. done. }
  rewrite Hdir. destruct (fsyncDir _ _). done.
Qed.

(** C27: a configuration write is atomic and durable.  At every point of the
    write, for a running reader and after a power loss, config.json holds
    exactly what it held before or exactly the new payload; a write that
    returns an error leaves the old content (also after a power loss); a write
    that returns nil shows the new payload, and keeps it across a power loss
    when the directory fsync went through.  Without faults, leftovers or a
    directory in its place, the write succeeds. *)
Theorem WriteAtomic_atomic fs path pid now io c payload :
  settled fs path -> payload_of now c = Some payload ->
  let r := WriteAtomic fs path pid now io (Some c) in
  (forall f, f ∈ fs :: w_trail r ->
     old_or_new fs path payload f
     /\ forall f', power_loss f f' -> old_or_new fs path payload f')
  /\ match w_err r with
     | Some _ =>
         content (w_fs r) path = content fs path
         /\ forall f', power_loss (w_fs r) f' -> content f' path = content fs path
     | None =>
         content (w_fs r) path = Some payload
         /\ (f_dir_open io = None -> f_dir_sync io = None ->
             forall f', power_loss (w_fs r) f' -> content f' path = Some payload)
     end
  /\ (io = no_faults -> entries fs !! tmpPathFor path pid = None ->
      match lookup_file fs path with Some n => is_dir n | None => false end = false ->
      w_err r = None).
Proof.
  intros Hst Hp r. pose proof (WriteAtomic_cases fs path pid now io c Hst) as H. rewrite Hp in H.
  cbv zeta in H. fold r in H. destruct H as [Htr Hend]. split; [|split].
  - intros f [-> | Hf]%elem_of_cons.
    + pose proof (between_refl fs path payload Hst) as Hb.
      split; [by eapply between_read|]. intros f' Hf'. by eapply between_power_loss.
    + rewrite Forall_forall in Htr. destruct (Htr f Hf) as [new Hb].
      split; [by eapply between_read|]. intros f' Hf'. by eapply between_power_loss.
  - destruct (w_err r).
    + destruct Hend as [_ Hb]. split.
      * by eapply between_old.
      * intros f' Hf'. by eapply between_power_loss.
    + destruct Hend as (i & Hb & Hi & _ & Hh). split; [by eapply between_content|].
      * intros Ho Hs f' Hpl. pose proof (pl_entries _ _ Hpl) as Hd. rewrite Hh in Hd by done.
        apply list_elem_of_singleton in Hd. unfold content, lookup_file. rewrite Hd, Hi. cbn [mbind option_bind].
        by rewrite (power_loss_file _ f' i _ Hpl (bt_new _ _ _ _ _ Hb i eq_refl) eq_refl).
  - intros -> Ht Hdir. by eapply WriteAtomic_succeeds.
Qed.

(** ** [SweepStale] *)

Lemma sweep_one_inodes base self kill rf fs name :
  inodes (sweep_one base self kill rf fs name) = inodes fs.
Proof. unfold sweep_one, os_Remove. destruct (sweeps _ _ _ _ _), (rf name), (entries fs !! name); done. Qed.

Definition removed (base : string) (self : Z) (kill : Z -> kill_result)
    (rf : string -> option error) (fs : FS) (name : string) : bool :=
  sweeps base self kill (match lookup_file fs name with Some n => is_dir n | None => false end) name
  && match rf name with None => true | Some _ => false end.

Lemma sweep_one_entries base self kill rf fs name k :
  entries (sweep_one base self kill rf fs name) !! k =
  if String.eqb k name && removed base self kill rf fs name then None else entries fs !! k.
Proof.
  unfold sweep_one, removed, os_Remove.
  destruct (sweeps _ _ _ _ _); [|by rewrite andb_false_r].
  destruct (rf name), (entries fs !! name) eqn:E; cbn [fst set_entries entries andb];
    rewrite ?andb_true_r, ?andb_false_r; try done; destruct (String.eqb_spec k name) as [-> |]; try done.
  - by rewrite lookup_delete_eq.
  - by rewrite lookup_delete_ne.
Qed.

Lemma sweep_fold base self kill rf l : forall fs, NoDup l ->
  let fs' := foldl (sweep_one base self kill rf) fs l in
  inodes fs' = inodes fs /\
  forall k, entries fs' !! k =
    if bool_decide (k ∈ l) && removed base self kill rf fs k then None else entries fs !! k.
Proof.
  induction l as [|name l IH]; intros fs Hnd fs'; [done|].
  apply NoDup_cons in Hnd as [Hni Hnd]. subst fs'. cbn [foldl].
  destruct (IH (sweep_one base self kill rf fs name) Hnd) as [Hin He]. split.
  { by rewrite Hin, sweep_one_inodes. }
  intros k. rewrite He, sweep_one_entries.
  destruct (String.eqb_spec k name) as [-> |Hne]; cbn [andb].
  - rewrite (bool_decide_eq_false_2 (name ∈ l)), (bool_decide_eq_true_2 (name ∈ name :: l)) by (done || left).
    done.
  - assert (removed base self kill rf (sweep_one base self kill rf fs name) k = removed base self kill rf fs k) as ->.
    { unfold removed, lookup_file. rewrite sweep_one_entries, sweep_one_inodes.
      by rewrite (proj2 (String.eqb_neq k name)). }
    rewrite (bool_decide_ext (k ∈ l) (k ∈ name :: l)); [done|]. rewrite elem_of_cons. tauto.
Qed.

(** The directory after a sweep. *)
Lemma SweepStale_entries fs base self kill rf name :
  let r := SweepStale fs base self kill None rf in
  snd r = None /\ inodes (fst r) = inodes fs /\
  entries (fst r) !! name = if removed base self kill rf fs name then None else entries fs !! name.
Proof.
  intros r. subst r. unfold SweepStale. cbn [fst snd].
  set (l := merge_sort String.le (elements (dom (entries fs)))).
  assert (forall k, k ∈ l <-> is_Some (entries fs !! k)) as Hl.
  { intros k. unfold l. rewrite merge_sort_Permutation, elem_of_elements. apply elem_of_dom. }
  assert (NoDup l) as Hnd by (unfold l; rewrite merge_sort_Permutation; apply NoDup_elements).
  destruct (sweep_fold base self kill rf l fs Hnd) as [Hin He]. split; [done|]. split; [done|].
  rewrite He. destruct (entries fs !! name) as [i|] eqn:E.
  - rewrite bool_decide_eq_true_2 by (apply Hl; eauto). done.
  - rewrite bool_decide_eq_false_2; [by destruct (removed _ _ _ _ _ _)|]. rewrite Hl, E. by intros [? ?].
Qed.

Lemma sweeps_inv base self kill d name :
  sweeps base self kill d name = true ->
  d = false /\ exists suffix, name = base +:+ tmpSuffixPrefix +:+ suffix
    /\ (Atoi suffix = None \/ exists pid, Atoi suffix = Some pid /\ pid <> self /\ processAlive kill pid = false).
Proof.
  unfold sweeps. destruct (HasPrefix name (base +:+ tmpSuffixPrefix)) eqn:Hp; [|done]. cbn [negb].
  destruct d; [done|]. intros H. split; [done|].
  apply HasPrefix_spec in Hp as [suffix ->]. rewrite TrimPrefix_app in H.
  exists suffix. split; [by rewrite <- str_app_assoc|].
  destruct (Atoi suffix) as [pid|]; [right|by left]. exists pid.
  destruct (Z.eqb_spec pid self); [done|]. apply negb_true_iff in H. done.
Qed.

Lemma sweeps_pid base self kill pid :
  int64_ok pid ->
  sweeps base self kill false (tmpPathFor base pid)
  = negb (pid =? self) && negb (processAlive kill pid).
Proof.
  intros Hp. unfold sweeps, tmpPathFor. rewrite str_app_assoc, prefix_app, TrimPrefix_app, Atoi_Itoa by done.
  cbn [negb]. by destruct (pid =? self).
Qed.

Lemma settled_remove fs path name fault :
  name <> path -> settled fs path ->
  settled (fst (os_Remove fs name fault)) path
  /\ content (fst (os_Remove fs name fault)) path = content fs path.
Proof.
  intros Hne Hst. unfold os_Remove. destruct fault, (entries fs !! name); try done. cbn [fst].
  assert (lookup_file (set_entries fs (delete name (entries fs))) path = lookup_file fs path) as Hl
    by (unfold lookup_file; cbn; by rewrite lookup_delete_ne).
  split; [|by unfold content; rewrite Hl].
  destruct Hst as [Hi Hh Hs]. split; cbn [set_entries entries inodes hist].
  - intros k j Hk. apply lookup_delete_Some in Hk as [_ Hk]. by eapply Hi.
  - rewrite lookup_delete_ne by done. by apply Forall_cons_2.
  - intros n Hn. rewrite Hl in Hn. auto.
Qed.

(** A sweep does not disturb the configuration file. *)
Lemma settled_sweep fs path self kill rd rf :
  settled fs path ->
  settled (fst (SweepStale fs path self kill rd rf)) path
  /\ content (fst (SweepStale fs path self kill rd rf)) path = content fs path.
Proof.
  intros Hst. unfold SweepStale. destruct rd; [done|]. cbn [fst].
  generalize (merge_sort String.le (elements (dom (entries fs)))) as l.
  intros l. revert fs Hst; induction l as [|name l IH]; intros fs Hst; [done|]. cbn [foldl].
  assert (settled (sweep_one path self kill rf fs name) path
          /\ content (sweep_one path self kill rf fs name) path = content fs path) as [H1 H2].
  { unfold sweep_one. destruct (sweeps _ _ _ _ _) eqn:E; [|done]. apply settled_remove; [|done].
    apply sweeps_inv in E as (_ & suffix & -> & _). by apply str_app_longer. }
  destruct (IH _ H1) as [H3 H4]. split; [done|]. by rewrite H4.
Qed.

(** The boot-time sweep removes exactly the leftovers.  A name disappears
    only if it is a temporary file of this configuration whose suffix is no
    pid, or the pid of another process that is not alive; the configuration
    file and the files of live processes stay; the file of every dead process
    other than this one goes, unless the system refuses to remove it. *)
Theorem SweepStale_exact fs base self kill rf :
  let fs' := fst (SweepStale fs base self kill None rf) in
  content fs' base = content fs base
  /\ (forall name, entries fs' !! name <> entries fs !! name ->
        entries fs' !! name = None
        /\ exists suffix, name = base +:+ tmpSuffixPrefix +:+ suffix
          /\ match lookup_file fs name with Some n => is_dir n | None => false end = false
          /\ (Atoi suffix = None
              \/ exists pid, Atoi suffix = Some pid /\ pid <> self /\ processAlive kill pid = false))
  /\ (forall pid, int64_ok pid ->
        match lookup_file fs (tmpPathFor base pid) with Some n => is_dir n | None => false end = false ->
        rf (tmpPathFor base pid) = None ->
        entries fs' !! tmpPathFor base pid =
          if negb (pid =? self) && negb (processAlive kill pid) then None
          else entries fs !! tmpPathFor base pid).
Proof.
  intros fs'.
  assert (forall name, entries fs' !! name =
    if removed base self kill rf fs name then None else entries fs !! name) as He
    by (intros; apply SweepStale_entries).
  assert (inodes fs' = inodes fs) as Hin by (by eapply (SweepStale_entries fs base self kill rf base)).
  assert (forall name, removed base self kill rf fs name = true ->
    exists suffix, name = base +:+ tmpSuffixPrefix +:+ suffix
      /\ match lookup_file fs name with Some n => is_dir n | None => false end = false
      /\ (Atoi suffix = None
          \/ exists pid, Atoi suffix = Some pid /\ pid <> self /\ processAlive kill pid = false)) as Hr.
  { intros name [Hs _]%andb_true_iff. apply sweeps_inv in Hs as (Hd & suffix & Hn & Hc). eauto 10. }
  split; [|split].
  - unfold content, lookup_file. rewrite He, Hin.
    destruct (removed base self kill rf fs base) eqn:E; [|done].
    apply Hr in E as (suffix & E & _). exfalso. by apply (str_app_longer base (tmpSuffixPrefix +:+ suffix)).
  - intros name Hne. rewrite He in Hne |- *. destruct (removed _ _ _ _ _ name) eqn:E; [|done]. auto.
  - intros pid Hp Hd Hrf. rewrite He. unfold removed. rewrite Hd, Hrf, sweeps_pid, andb_true_r by done. done.
Qed.

(** A temporary file left under the pid of the running process is never
    swept, and every later write fails on it, without touching the directory:
    a router that is always started with the same pid (as in a container) and
    crashed in the middle of a write cannot write its configuration again. *)
Theorem pid_reuse_blocks_writes fs path self kill rf i :
  int64_ok self -> entries fs !! tmpPathFor path self = Some i ->
  let fs' := fst (SweepStale fs path self kill None rf) in
  entries fs' !! tmpPathFor path self = Some i
  /\ forall now io c, exists e,
       w_err (WriteAtomic fs' path self now io (Some c)) = Some e
       /\ w_fs (WriteAtomic fs' path self now io (Some c)) = fs'.
Proof.
  intros Hs Hi fs'.
  assert (entries fs' !! tmpPathFor path self = Some i) as Hi'.
  { subst fs'. rewrite (proj2 (proj2 (SweepStale_entries fs path self kill rf (tmpPathFor path self)))).
    unfold removed. destruct (match lookup_file fs _ with Some n => is_dir n | None => false end) eqn:Hd.
    - assert (sweeps path self kill true (tmpPathFor path self) = false) as ->; [|done].
      unfold sweeps. by destruct (negb _).
    - rewrite sweeps_pid, Z.eqb_refl by done. done. }
  split; [done|]. intros now io c. unfold WriteAtomic.
  destruct (config_json (stamp_config now c)) as [doc|]; [|by eexists].
  unfold os_Create. rewrite Hi'. by eexists.
Qed.
