(* ===== verification/ConfigProofs.v ===== *)
(** * ConfigProofs: the loader's contract, and what is written is read back *)

From S2P Require Import Prelude GoLib GoHTTP GoJSON GoJSONProofs GoTime Errors GoOS Config ConfigWriter.
Import config.

(** ** The effective configuration, field by field *)

Definition env_set (env : Env) (var : string) : option string :=
  match env var with Some v => if String.eqb v "" then None else Some v | None => None end.

Definition effective_db (env : Env) (db : DBConfig) : DBConfig :=
  mkDB (default (Driver db) (env_set env "ROUTER_DB_DRIVER"))
       (default (URL db) (env_set env "ROUTER_DB_URL")).

Definition keep {A} (present : gset string) (key : string) (file dflt : A) : A :=
  if bool_decide (key ∈ present) then file else dflt.

(** Every runtime knob but one falls back to its default. *)
Definition effective_runtime (present : gset string) (r : RuntimeConfig) : RuntimeConfig :=
  let d := DefaultRuntimeConfig in
  mkRuntime (keep present "runtime.log_client_request_body" (LogClientRequestBody r) (LogClientRequestBody d))
    (keep present "runtime.log_upstream_request_body" (LogUpstreamRequestBody r) (LogUpstreamRequestBody d))
    (keep present "runtime.log_upstream_response_body" (LogUpstreamResponseBody r) (LogUpstreamResponseBody d))
    (keep present "runtime.log_retention_days" (LogRetentionDays r) (LogRetentionDays d))
    (keep present "runtime.log_level" (LogLevel r) (LogLevel d))
    (UsageRefreshIntervalSeconds r)
    (keep present "runtime.model_renames" (ModelRenames r) (ModelRenames d)).

Definition effective_plugins (present : gset string) (p : PluginsConfig) : PluginsConfig :=
  mkPlugins
    (mkAdminAuth (keep present "plugins.admin_auth.enabled" (AdminAuthEnabled (AdminAuth p)) false)
       (SessionTTLMinutes (AdminAuth p)) (JWTSecretRef (AdminAuth p)))
    (mkClientKeys (keep present "plugins.client_keys.enabled" (ClientKeysEnabled (ClientKeys p)) false)).

Definition tracked_keys : list string :=
  ["runtime.log_client_request_body"; "runtime.log_upstream_request_body";
   "runtime.log_upstream_response_body"; "runtime.log_retention_days"; "runtime.log_level";
   "runtime.model_renames"; "plugins.admin_auth.enabled"; "plugins.client_keys.enabled";
   "network.proxy_url"].

(** Where a field's value came from. *)
Definition source_of (present : gset string) (env : Env) (k : string) : option string :=
  if String.eqb k "db.driver" then
    Some (match env_set env "ROUTER_DB_DRIVER" with Some _ => "env:ROUTER_DB_DRIVER" | None => srcFile end)
  else if String.eqb k "db.url" then
    Some (match env_set env "ROUTER_DB_URL" with Some _ => "env:ROUTER_DB_URL" | None => srcFile end)
  else if existsb (String.eqb k) tracked_keys then Some (keep present k srcFile srcDefault)
  else None.

Definition effective (present : gset string) (env : Env) (c : Config) : Config :=
  c <| DB := effective_db env (DB c) |> <| Runtime := effective_runtime present (Runtime c) |>
    <| Plugins := effective_plugins present (Plugins c) |>.

(** ** The environment overlay *)

Lemma overlay_spec db env src :
  exists src', overlayEnv db env src = Some (effective_db env db, src') /\
  forall k, src' !! k =
    match (if String.eqb k "db.driver" then env_set env "ROUTER_DB_DRIVER"
           else if String.eqb k "db.url" then env_set env "ROUTER_DB_URL" else None) with
    | Some _ => Some ("env:" +:+ if String.eqb k "db.driver" then "ROUTER_DB_DRIVER" else "ROUTER_DB_URL")
    | None => src !! k
    end.
Proof.
  unfold overlayEnv, effective_db, env_set. cbn [foldl envOverridableKeys mbind option_bind overlay_one fst snd].
  assert (forall k a b (m : SourceMap), <[a := b]> m !! k = if String.eqb k a then Some b else m !! k) as Hins.
  { intros k a b m. destruct (String.eqb_spec k a) as [-> |]; [apply lookup_insert_eq|by apply lookup_insert_ne]. }
  destruct (env "ROUTER_DB_DRIVER") as [d|]; [destruct (String.eqb d "") eqn:Ed|];
    cbn [String.eqb Ascii.eqb Bool.eqb mbind option_bind overlay_one fst snd default];
    (destruct (env "ROUTER_DB_URL") as [u|]; [destruct (String.eqb u "") eqn:Eu|]);
    cbn [String.eqb Ascii.eqb Bool.eqb default id]; destruct db as [dr ur]; cbn [Driver URL];
    (eexists; split; [reflexivity|]); intros k; rewrite ?Hins;
    destruct (String.eqb_spec k "db.driver") as [-> |]; try done;
    destruct (String.eqb_spec k "db.url") as [-> |]; done.
Qed.

(** ** Defaults and provenance *)

Lemma default_key_source {A} present key (f : A -> A) st k :
  snd (default_key present key f st) !! k =
  if String.eqb k key then Some (keep present key srcFile srcDefault) else snd st !! k.
Proof.
  destruct st as [a src]. unfold default_key, keep. cbn [snd].
  destruct (bool_decide (key ∈ present)); cbn [snd]; destruct (String.eqb_spec k key) as [-> |];
    by rewrite ?lookup_insert_eq, ?lookup_insert_ne by done.
Qed.

Lemma runtime_defaults_value present r src :
  fst (applyRuntimeDefaults r DefaultRuntimeConfig present src) = effective_runtime present r.
Proof.
  unfold applyRuntimeDefaults, effective_runtime, default_key, keep.
  destruct r. repeat (destruct (bool_decide (_ ∈ present))); reflexivity.
Qed.

Lemma plugin_defaults_value present p src :
  fst (applyPluginDefaults p present src) = effective_plugins present p.
Proof.
  unfold applyPluginDefaults, effective_plugins, default_key, keep.
  destruct p as [[] []]. repeat (destruct (bool_decide (_ ∈ present))); reflexivity.
Qed.

Lemma finish_load_spec present cfg env :
  match finish_load present cfg env with
  | Ok (c, src) =>
      Version cfg = SupportedVersion /\ missing_fields (effective_db env (DB cfg)) = []
      /\ c = effective present env cfg /\ forall k, src !! k = source_of present env k
  | Err e =>
      (Version cfg <> SupportedVersion /\ errors_Is e ErrUnsupportedVersion = true)
      \/ (Version cfg = SupportedVersion /\ missing_fields (effective_db env (DB cfg)) <> []
          /\ errors_Is e ErrInvalidDBConfig = true)
  end.
Proof.
  unfold finish_load. destruct (Z.eqb_spec (Version cfg) SupportedVersion) as [Hv|Hv]; [|by left].
  cbn [negb].
  pose proof (runtime_defaults_value present (Runtime cfg) ∅) as Hr.
  destruct (applyRuntimeDefaults (Runtime cfg) DefaultRuntimeConfig present ∅) as [rt src1] eqn:E1.
  pose proof (plugin_defaults_value present (Plugins cfg) src1) as Hp.
  destruct (applyPluginDefaults (Plugins cfg) present src1) as [pl src2] eqn:E2.
  cbn [fst] in Hr, Hp. subst rt pl.
  set (src3 := <["db.url" := srcFile]> _).
  destruct (overlay_spec (DB cfg) env src3) as (src4 & -> & Hsrc).
  destruct (missing_fields (effective_db env (DB cfg))) eqn:Hm; [|right; auto].
  split; [done|]. split; [done|]. split; [done|]. intros k. rewrite Hsrc.
  assert (forall j, src2 !! j = if existsb (String.eqb j) (take 8 tracked_keys)
            then Some (keep present j srcFile srcDefault) else None) as H2.
  { intros j. replace src2 with (snd (applyPluginDefaults (Plugins cfg) present src1)) by (by rewrite E2).
    unfold applyPluginDefaults. rewrite !default_key_source. cbn [snd].
    replace src1 with (snd (applyRuntimeDefaults (Runtime cfg) DefaultRuntimeConfig present ∅)) by (by rewrite E1).
    unfold applyRuntimeDefaults. rewrite !default_key_source. cbn [snd]. rewrite lookup_empty.
    unfold tracked_keys. cbn [take existsb].
    repeat match goal with |- context [String.eqb j ?s] => destruct (String.eqb_spec j s) as [-> |]; [done|] end.
    done. }
  unfold source_of. subst src3.
  destruct (String.eqb_spec k "db.driver") as [-> |Hd].
  { destruct (env_set env "ROUTER_DB_DRIVER"); [done|]. cbn [String.eqb Ascii.eqb Bool.eqb].
    by rewrite lookup_insert_ne, lookup_insert_eq by done. }
  destruct (String.eqb_spec k "db.url") as [-> |Hu].
  { destruct (env_set env "ROUTER_DB_URL"); [done|]. by rewrite lookup_insert_eq. }
  rewrite !lookup_insert_ne by done.
  destruct (String.eqb_spec k "network.proxy_url") as [-> |Hn].
  { by rewrite lookup_insert_eq. }
  rewrite lookup_insert_ne, H2 by done. unfold tracked_keys. cbn [take existsb].
  rewrite (proj2 (String.eqb_neq k "network.proxy_url")) by done. done.
Qed.

(** ** Round trip: the wire form *)

Lemma ascii_runes_ok s : ascii_str s = true -> valid_utf8 s = true.
Proof.
  unfold valid_utf8, ascii_str. induction s as [|a s IH]; [done|]. cbn [all_bytes].
  rewrite andb_true_iff. intros [Ha Hs]. apply Z.ltb_lt in Ha.
  rewrite runes_low by done. cbn [forallb]. rewrite IH by done. rewrite andb_true_r. apply negb_true_iff.
  unfold bad_rune. cbn [fst]. apply andb_false_iff. left. apply Z.eqb_neq. unfold RuneError. lia.
Qed.

Definition rename_ok (r : ModelRenameRule) : bool := valid_utf8 (From r) && valid_utf8 (To r).

Definition int_ok (z : Z) : bool := (MinInt64 <=? z) && (z <=? MaxInt64).

(** Values of the Go types whose strings are UTF-8. *)
Definition config_ok (c : Config) : bool :=
  int_ok (Version c) && valid_utf8 (Driver (DB c)) && valid_utf8 (URL (DB c))
  && int_ok (LogRetentionDays (Runtime c)) && valid_utf8 (LogLevel (Runtime c))
  && int_ok (UsageRefreshIntervalSeconds (Runtime c))
  && forallb rename_ok (default [] (ModelRenames (Runtime c)))
  && int_ok (SessionTTLMinutes (AdminAuth (Plugins c)))
  && valid_utf8 (JWTSecretRef (AdminAuth (Plugins c)))
  && valid_utf8 (ProxyURL (Network c)).

Lemma int_ok_Atoi z : int_ok z = true -> Atoi (Itoa z) = Some z.
Proof. unfold int_ok. rewrite andb_true_iff, !Z.leb_le. intros. by apply Atoi_Itoa. Qed.

(** Evaluate which field a member names. *)
Ltac eval_keys :=
  repeat match goal with
  | |- context [key_is ?a ?b] =>
      let v := eval vm_compute in (key_is a b) in change (key_is a b) with v; cbn iota
  end.
Ltac dec_step :=
  cbn [dec_struct dec_fields dec_bool dec_string dec_int JInt mbind option_bind];
  rewrite ?int_ok_Atoi by done; cbn [mbind option_bind].

Lemma decode_rename r : dec_struct rename_field (rename_json r) zero_Rename = Some r.
Proof. destruct r as [f t]. reflexivity. Qed.

Lemma decode_renames l :
  dec_elems (dec_struct rename_field) zero_Rename (List.map rename_json l) [] = Some l.
Proof.
  induction l as [|r l IH]; [done|]. cbn [List.map dec_elems hd tl].
  rewrite decode_rename. cbn [mbind option_bind]. by rewrite IH.
Qed.

Lemma decode_runtime r :
  int_ok (LogRetentionDays r) = true -> int_ok (UsageRefreshIntervalSeconds r) = true ->
  dec_struct runtime_field (runtime_json r) zero_Runtime = Some r.
Proof.
  intros H1 H2. unfold runtime_json, runtime_field. cbn [dec_struct dec_fields]. eval_keys. dec_step.
  destruct r as [b1 b2 b3 z1 s z2 [l|]]; cbn [ModelRenames LogClientRequestBody LogUpstreamRequestBody
    LogUpstreamResponseBody LogRetentionDays LogLevel UsageRefreshIntervalSeconds] in *; [|done].
  cbn [dec_slice ModelRenames default zero_Runtime set].
  change (default [] None) with (@nil ModelRenameRule). rewrite decode_renames. done.
Qed.

Lemma decode_admin_auth a :
  int_ok (SessionTTLMinutes a) = true ->
  dec_struct admin_auth_field (admin_auth_json a) (mkAdminAuth false 0 "") = Some a.
Proof.
  intros H. unfold admin_auth_json, admin_auth_field. destruct a as [b z s]. cbn [AdminAuthEnabled SessionTTLMinutes JWTSecretRef] in *.
  destruct (Z.eqb_spec z 0) as [-> |], (String.eqb_spec s "") as [-> |];
    cbn [dec_struct dec_fields app]; eval_keys; dec_step; done.
Qed.

Lemma decode_db d old : dec_struct db_field (db_json d) old = Some d.
Proof. by destruct d. Qed.

Lemma decode_plugins p :
  int_ok (SessionTTLMinutes (AdminAuth p)) = true ->
  dec_struct plugins_field (plugins_json p) DefaultPluginsConfig = Some p.
Proof.
  intros H. unfold plugins_json, plugins_field. cbn [dec_struct dec_fields]. eval_keys.
  change (AdminAuth DefaultPluginsConfig) with (mkAdminAuth false 0 "").
  rewrite decode_admin_auth by done. by destruct p as [a []].
Qed.

Lemma decode_network n old : dec_struct network_field (network_json n) old = Some n.
Proof. by destruct n. Qed.

Lemma decode_written c doc :
  config_ok c = true -> config_json c = Some doc -> decode_config doc = Some c.
Proof.
  unfold config_ok. rewrite !andb_true_iff. intros H Hdoc. destruct_and! H.
  unfold config_json in Hdoc.
  destruct (FormatStamp (CreatedAt c)) as [created|] eqn:Ec; [|done].
  destruct (FormatStamp (UpdatedAt c)) as [updated|] eqn:Eu; [|done].
  cbn [mbind option_bind] in Hdoc. injection Hdoc as <-.
  unfold decode_config, config_field. cbn [dec_struct dec_fields]. eval_keys.
  cbn [dec_int JInt]. rewrite int_ok_Atoi by done. cbn [mbind option_bind].
  rewrite decode_db. cbn [mbind option_bind].
  change (Runtime (set DB _ _)) with zero_Runtime. rewrite decode_runtime by done. cbn [mbind option_bind].
  change (Plugins (set Runtime _ _)) with DefaultPluginsConfig. rewrite decode_plugins by done. cbn [mbind option_bind].
  rewrite decode_network. cbn [mbind option_bind dec_stamp].
  rewrite (Parse_FormatStamp _ _ Ec). cbn [mbind option_bind].
  rewrite (Parse_FormatStamp _ _ Eu). by destruct c.
Qed.

Lemma written_printable c doc :
  config_ok c = true -> config_json c = Some doc ->
  printable doc = true /\ (depth doc <= maxNestingDepth)%nat.
Proof.
  unfold config_ok. rewrite !andb_true_iff. intros H Hdoc. destruct_and! H.
  unfold config_json in Hdoc.
  destruct (FormatStamp (CreatedAt c)) as [created|] eqn:Ec; [|done].
  destruct (FormatStamp (UpdatedAt c)) as [updated|] eqn:Eu; [|done].
  cbn [mbind option_bind] in Hdoc. injection Hdoc as <-.
  assert (forall l, forallb rename_ok l = true ->
    forallb printable (List.map rename_json l) = true
    /\ (depth (JArr (List.map rename_json l)) <= 2)%nat) as Hren.
  { intros l. induction l as [|[f t] l IH]; [split; [done|cbn; lia]|]. cbn [forallb].
    rewrite andb_true_iff. intros [[Hf Ht]%andb_true_iff Hl]. cbn [From To] in *. destruct (IH Hl) as [IH1 IH2].
    cbn [List.map forallb rename_json printable From To]. rewrite Hf, Ht, IH1. cbn in IH2 |- *. split; [done|lia]. }
  split.
  - unfold db_json, runtime_json, plugins_json, admin_auth_json, network_json, JInt.
    cbn [printable forallb app].
    assert (forallb (fun '(k, x) => valid_utf8 k && printable x)
      ((if SessionTTLMinutes (AdminAuth (Plugins c)) =? 0 then []
        else [("session_ttl_minutes", JNum (Itoa (SessionTTLMinutes (AdminAuth (Plugins c)))))])
       ++ (if String.eqb (JWTSecretRef (AdminAuth (Plugins c))) "" then []
           else [("jwt_secret_ref", JStr (JWTSecretRef (AdminAuth (Plugins c))))])) = true) as ->.
    { destruct (_ =? 0), (String.eqb _ _); cbn [app forallb printable];
        rewrite ?valid_number_Itoa, ?H2; done. }
    rewrite !valid_number_Itoa.
    rewrite (ascii_runes_ok _ (FormatStamp_ascii _ _ Ec)), (ascii_runes_ok _ (FormatStamp_ascii _ _ Eu)).
    rewrite H1, H6, H8, H9.
    destruct (ModelRenames (Runtime c)) as [l|]; cbn [default id] in H4; [|done].
    cbn [printable]. by rewrite (proj1 (Hren l H4)).
  - assert (depth (runtime_json (Runtime c)) <= 3)%nat as Hr.
    { unfold runtime_json, JInt. cbn [depth foldr].
      destruct (ModelRenames (Runtime c)) as [l|]; cbn [default id] in H4; [|cbn; lia].
      pose proof (proj2 (Hren l H4)) as Hl. cbn [depth] in Hl |- *. lia. }
    assert (depth (plugins_json (Plugins c)) <= 2)%nat as Hp.
    { unfold plugins_json, admin_auth_json. destruct (_ =? 0), (String.eqb _ _); cbn; lia. }
    cbn [depth foldr db_json network_json JInt]. unfold maxNestingDepth. lia.
Qed.

Lemma dotted_in pre k v l : (k, v) ∈ l -> pre +:+ "." +:+ k ∈ dotted pre l.
Proof. intros H. apply elem_of_list_to_set, list_elem_of_fmap. by exists (k, v). Qed.

Ltac dotted_key pre k :=
  lazymatch goal with
  | |- _ ∈ dotted _ ?l =>
      eapply (dotted_in pre k); unfold runtime_json, network_json, admin_auth_json; cbn [app];
      repeat first [apply list_elem_of_here | apply list_elem_of_further]
  end.

Lemma written_present c doc raw :
  config_json c = Some doc -> json_parse raw = Some doc ->
  exists present, scanPresentKeys raw = Ok present /\ Forall (fun k => k ∈ present) tracked_keys.
Proof.
  intros Hdoc Hraw. unfold scanPresentKeys. rewrite Hraw.
  unfold config_json in Hdoc.
  destruct (FormatStamp (CreatedAt c)) as [created|]; [|done].
  destruct (FormatStamp (UpdatedAt c)) as [updated|]; [|done].
  cbn [mbind option_bind] in Hdoc. injection Hdoc as <-. cbn [raw_map].
  set (top := [("version", _); _; _; _; _; _; _]).
  assert (section_keys "runtime" top = Some (dotted "runtime"
    (match runtime_json (Runtime c) with JObj l => l | _ => [] end))) as -> by reflexivity.
  assert (plugin_keys top = Some (dotted "plugins.admin_auth"
      (match admin_auth_json (AdminAuth (Plugins c)) with JObj l => l | _ => [] end)
    ∪ (dotted "plugins.client_keys" [("enabled", JBool (ClientKeysEnabled (ClientKeys (Plugins c))))] ∪ ∅)))
    as -> by reflexivity.
  assert (section_keys "network" top = Some (dotted "network" [("proxy_url", JStr (ProxyURL (Network c)))]))
    as -> by reflexivity.
  eexists. split; [reflexivity|]. unfold tracked_keys.
  repeat apply Forall_cons_2; [| | | | | | | | |constructor].
  1-6: apply elem_of_union_l, elem_of_union_l.
  - dotted_key "runtime" "log_client_request_body".
  - dotted_key "runtime" "log_upstream_request_body".
  - dotted_key "runtime" "log_upstream_response_body".
  - dotted_key "runtime" "log_retention_days".
  - dotted_key "runtime" "log_level".
  - dotted_key "runtime" "model_renames".
  - apply elem_of_union_l, elem_of_union_r, elem_of_union_l. dotted_key "plugins.admin_auth" "enabled".
  - apply elem_of_union_l, elem_of_union_r, elem_of_union_r, elem_of_union_l.
    dotted_key "plugins.client_keys" "enabled".
  - apply elem_of_union_r. dotted_key "network" "proxy_url".
Qed.

Lemma keep_present {A} present k (a b : A) : k ∈ present -> keep present k a b = a.
Proof. intros. unfold keep. by rewrite bool_decide_eq_true_2. Qed.

Lemma effective_all_present present env c :
  Forall (fun k => k ∈ present) tracked_keys ->
  effective present env c = c <| DB := effective_db env (DB c) |>.
Proof.
  unfold tracked_keys. rewrite !Forall_cons. intros (?&?&?&?&?&?&?&?&_&_).
  unfold effective, effective_runtime, effective_plugins. rewrite !keep_present by done.
  destruct c as [? ? [] [[] []] ? ? ?]. reflexivity.
Qed.

(** ** [Load] *)

Lemma decode_raw_spec raw :
  match decode_raw raw with
  | Ok (present, file) =>
      scanPresentKeys raw = Ok present /\ json_parse raw ≫= decode_config = Some file
  | Err e =>
      (is_ok (scanPresentKeys raw) = false \/ json_parse raw ≫= decode_config = None)
      /\ errors_Is e ErrNoConfig = false
  end.
Proof.
  unfold decode_raw. destruct (scanPresentKeys raw) as [present|e] eqn:E.
  - destruct (json_parse raw ≫= decode_config); [done|]. split; [by right|done].
  - split; [by left|]. cbn [errors_Is]. revert E. unfold scanPresentKeys.
    repeat case_match; intros; simplify_eq; reflexivity.
Qed.

Lemma Load_file fs path env n :
  lookup_file fs path = Some n -> is_dir n = false ->
  Load None fs path None None env = ('(present, cfg) ← decode_raw (data n); finish_load present cfg env).
Proof. intros Hl Hd. unfold Load, os_Stat, os_ReadFile. rewrite Hl. cbn. by rewrite Hd. Qed.

(** C29: the effective configuration.  Loading a regular file, for any
    environment, succeeds exactly when the text parses, the version is the
    supported one, and both database fields are set by the file or a non-empty
    environment variable.  The result is then determined field by field: the
    database fields are overridden by the environment and nothing else is; a
    runtime knob or plugin flag absent from the file takes its default, except
    [usage_refresh_interval_seconds], which stays as decoded; and the
    provenance map records the origin of exactly these fields. *)
Theorem Load_effective fs path env n :
  lookup_file fs path = Some n -> is_dir n = false ->
  match Load None fs path None None env with
  | Ok (c, src) =>
      exists present file,
        scanPresentKeys (data n) = Ok present /\ json_parse (data n) ≫= decode_config = Some file
        /\ Version file = SupportedVersion /\ missing_fields (effective_db env (DB file)) = []
        /\ c = effective present env file /\ forall k, src !! k = source_of present env k
  | Err e =>
      is_ok (scanPresentKeys (data n)) = false \/ json_parse (data n) ≫= decode_config = None
      \/ exists file, json_parse (data n) ≫= decode_config = Some file
         /\ ((Version file <> SupportedVersion /\ errors_Is e ErrUnsupportedVersion = true)
             \/ (Version file = SupportedVersion /\ missing_fields (effective_db env (DB file)) <> []
                 /\ errors_Is e ErrInvalidDBConfig = true))
  end.
Proof.
  intros Hl Hd. rewrite (Load_file _ _ _ _ Hl Hd).
  pose proof (decode_raw_spec (data n)) as Hr. destruct (decode_raw (data n)) as [[present file]|e].
  - cbn [mbind result_bind]. pose proof (finish_load_spec present file env) as Hf. destruct Hr as [Hs Hc].
    destruct (finish_load present file env) as [[c src]|e].
    + destruct Hf as (Hv & Hm & Heq & Hsrc). exists present, file. auto 10.
    + right. right. exists file. auto.
  - cbn [mbind result_bind]. tauto.
Qed.

Lemma written_loads fs path c doc env :
  config_ok c = true -> Version c = SupportedVersion -> config_json c = Some doc ->
  lookup_file fs path = Some (Inode (MarshalIndent doc) true false) ->
  missing_fields (effective_db env (DB c)) = [] ->
  exists src,
    Load None fs path None None env = Ok (c <| DB := effective_db env (DB c) |>, src)
    /\ forall k, src !! k = source_of (list_to_set tracked_keys) env k.
Proof.
  intros Hok Hv Hdoc Hl Hm.
  destruct (written_printable _ _ Hok Hdoc) as [Hp Hd].
  pose proof (parse_MarshalIndent doc Hp Hd) as Hparse.
  rewrite (Load_file _ _ _ _ Hl eq_refl). cbn [data].
  destruct (written_present _ _ _ Hdoc Hparse) as (present & Hs & Hall).
  unfold decode_raw. rewrite Hs, Hparse. cbn [mbind option_bind].
  rewrite (decode_written _ _ Hok Hdoc). cbn [mbind result_bind].
  pose proof (finish_load_spec present c env) as Hf.
  destruct (finish_load present c env) as [[c' src]|e].
  - destruct Hf as (_ & _ & -> & Hsrc). exists src.
    rewrite (effective_all_present _ _ _ Hall). split; [done|]. intros k. rewrite Hsrc.
    unfold source_of. destruct (String.eqb k "db.driver"), (String.eqb k "db.url"); try done.
    destruct (existsb (String.eqb k) tracked_keys) eqn:Ek; [|done].
    apply existsb_exists in Ek as (k' & Hk & <-%String.eqb_eq). apply list_elem_of_In in Hk.
    rewrite Forall_forall in Hall. rewrite !keep_present; [done| |by apply Hall]. by apply elem_of_list_to_set.
  - destruct Hf as [[? _]|(_ & ? & _)]; done.
Qed.

Lemma stamp_config_keeps now c :
  config_ok (stamp_config now c) = config_ok c /\ DB (stamp_config now c) = DB c
  /\ Version (stamp_config now c) = Version c.
Proof. unfold stamp_config. by destruct (IsZero _). Qed.

(** The file after a successful write. *)
Lemma WriteAtomic_writes fs path pid now io c :
  settled fs path -> w_err (WriteAtomic fs path pid now io (Some c)) = None ->
  exists doc, config_json (stamp_config now c) = Some doc
    /\ lookup_file (w_fs (WriteAtomic fs path pid now io (Some c))) path = Some (Inode (MarshalIndent doc) true false).
Proof.
  intros Hst Herr. pose proof (WriteAtomic_cases fs path pid now io c Hst) as H. cbv zeta in H.
  rewrite Herr in H. unfold payload_of in H.
  destruct (config_json (stamp_config now c)) as [doc|]; cbn [fmap option_fmap option_map] in H;
    [|by destruct H as [[? ?] _]].
  destruct H as (_ & i & Hb & Hi & _). exists doc. split; [done|].
  unfold lookup_file. rewrite Hi. cbn [mbind option_bind]. by apply (bt_new _ _ _ _ _ Hb).
Qed.

(** C28: round trip.  When [WriteAtomic] returns nil for a configuration of
    the supported version whose strings are UTF-8, loading the file in any
    environment that leaves the database fields non-empty gives back exactly
    the stamped configuration, with the environment's database overrides, and
    attributes every other field to the file. *)
Theorem WriteAtomic_Load fs path pid now io c :
  settled fs path -> config_ok c = true -> Version c = SupportedVersion ->
  let r := WriteAtomic fs path pid now io (Some c) in
  w_err r = None ->
  w_cfg r = Some (stamp_config now c)
  /\ forall env, missing_fields (effective_db env (DB c)) = [] ->
     exists src,
       Load None (w_fs r) path None None env
       = Ok (stamp_config now c <| DB := effective_db env (DB c) |>, src)
       /\ forall k, src !! k = source_of (list_to_set tracked_keys) env k.
Proof.
  intros Hst Hok Hv r Herr. destruct (WriteAtomic_writes _ _ _ _ _ _ Hst Herr) as (doc & Hdoc & Hl).
  destruct (stamp_config_keeps now c) as (Eok & Edb & Ev). split; [by apply WriteAtomic_cfg|].
  intros env Hm. rewrite <- Edb in *. by apply (written_loads _ _ _ doc); rewrite ?Eok, ?Ev.
Qed.

(** ** Errors *)

(** An error whose text shows a path that starts with [path]. *)
Fixpoint mentions (path : string) (e : error) : bool :=
  match e with
  | PathError _ p c => HasPrefix p path || mentions path c
  | LinkError _ a b c => HasPrefix a path || HasPrefix b path || mentions path c
  | Wrapf _ _ c | StoreError _ c => mentions path c
  | Wrapf2 _ c1 c2 => mentions path c1 || mentions path c2
  | PreForwardError _ (Some c) | TokenExchangeError _ _ _ (Some c)
  | malformedIDTokenError _ (Some c) => mentions path c
  | _ => false
  end.

(** A failure reported by the kernel or the context names no path and is not
    one of the loader's own errors. *)
Definition raw_fault (path : string) (f : option error) : Prop :=
  forall e, f = Some e -> mentions path e = false /\ errors_Is e ErrNoConfig = false.

Definition hidden_path (path : string) : Prop := HasPrefix scrubbedPathPlaceholder path = false.

Lemma mentions_ScrubPath path op name c :
  hidden_path path -> name <> "" -> mentions path c = false ->
  mentions path (ScrubPath (PathError op name c)) = false.
Proof.
  intros Hh Hn Hc. cbn [ScrubPath]. destruct (String.eqb_spec name ""); [done|].
  cbn [mentions]. by rewrite Hh, Hc.
Qed.

Lemma scan_error_plain path raw e :
  decode_raw raw = Err e -> mentions path e = false /\ errors_Is e ErrNoConfig = false.
Proof.
  intros H. pose proof (decode_raw_spec raw) as Hs. rewrite H in Hs. split; [|apply Hs].
  revert H. unfold decode_raw, scanPresentKeys.
  destruct (json_parse raw) as [doc|]; [|by intros [= <-]].
  destruct (raw_map doc) as [top|]; [|by intros [= <-]].
  destruct (section_keys "runtime" top); [|by intros [= <-]].
  destruct (plugin_keys top); [|by intros [= <-]].
  destruct (section_keys "network" top); [|by intros [= <-]].
  destruct (_ ≫= _); by intros [= <-].
Qed.

Lemma finish_error_plain path present cfg env e :
  finish_load present cfg env = Err e -> mentions path e = false /\ errors_Is e ErrNoConfig = false.
Proof.
  unfold finish_load. destruct (negb _); [by intros [= <-]|].
  destruct (applyRuntimeDefaults _ _ _ _) as [rt src1]. destruct (applyPluginDefaults _ _ _) as [pl src2].
  destruct (overlayEnv _ _ _) as [[db src3]|]; [|by intros [= <-]].
  destruct (missing_fields db); by intros [= <-].
Qed.

Lemma Load_errors path ctx_err fs sf rf env e :
  hidden_path path -> path <> "" ->
  raw_fault path ctx_err -> raw_fault path sf -> raw_fault path rf ->
  Load ctx_err fs path sf rf env = Err e ->
  mentions path e = false
  /\ (errors_Is e ErrNoConfig = true <->
      ctx_err = None
      /\ match sf with Some f => errors_Is f ErrNotExist = true | None => lookup_file fs path = None end).
Proof.
  intros Hh Hne Hctx Hsf Hrf. unfold Load, os_Stat.
  destruct ctx_err as [x|].
  { intros [= <-]. destruct (Hctx x eq_refl) as [Hm Hn]. rewrite Hn. split; [done|].
    split; [done|by intros [? _]]. }
  destruct sf as [x|].
  { destruct (Hsf x eq_refl) as [Hm Hn]. cbn [errors_Is].
    destruct (errors_Is x ErrNotExist) eqn:Ex; intros [= <-]; [done|].
    split; [cbn [mentions]; by apply mentions_ScrubPath|].
    cbn [ScrubPath errors_Is]. destruct (String.eqb path ""); cbn [errors_Is]; rewrite Hn;
      (split; [done|by intros [_ ?]]). }
  destruct (lookup_file fs path) as [n|] eqn:El; [|by intros [= <-]].
  destruct (is_dir n) eqn:Ed.
  { intros [= <-]. split; [done|]. split; [done|by intros [_ ?]]. }
  unfold os_ReadFile. destruct rf as [x|].
  { destruct (Hrf x eq_refl) as [Hm Hn]. intros [= <-].
    split; [cbn [mentions]; by apply mentions_ScrubPath|].
    cbn [ScrubPath errors_Is]. destruct (String.eqb path ""); cbn [errors_Is]; rewrite Hn;
      (split; [done|by intros [_ ?]]). }
  rewrite El, Ed. destruct (decode_raw (data n)) as [[present cfg]|x] eqn:Er; cbn [mbind result_bind].
  + intros [Hm Hn]%(finish_error_plain path). rewrite Hn. split; [done|]. split; [done|by intros [_ ?]].
  + intros [= <-]. destruct (scan_error_plain path _ _ Er) as [Hm Hn]. rewrite Hn.
    split; [done|]. split; [done|by intros [_ ?]].
Qed.

Lemma WriteAtomic_errors path fs pid now io c e :
  hidden_path path -> path <> "" ->
  raw_fault path (f_open io) -> raw_fault path (snd <$> f_write io) -> raw_fault path (f_sync io) ->
  raw_fault path (f_close io) -> raw_fault path (f_rename io) ->
  w_err (WriteAtomic fs path pid now io c) = Some e -> mentions path e = false.
Proof.
  intros Hh Hne Ho Hw Hs Hc Hr. unfold WriteAtomic.
  destruct c as [c|]; [|by intros [= <-]].
  destruct (config_json _) as [doc|]; [|by intros [= <-]].
  set (tmp := tmpPathFor path pid).
  assert (tmp <> "") as Ht by (unfold tmp, tmpPathFor; by destruct path).
  assert (forall op f, mentions path f = false -> mentions path (ScrubPath (PathError op tmp f)) = false)
    as Hscrub by (intros; by apply mentions_ScrubPath).
  unfold os_Create. destruct (entries fs !! tmp).
  { intros [= <-]. cbn [mentions]. by apply Hscrub. }
  destruct (f_open io) as [f|]; [intros [= <-]; apply Hscrub, (proj1 (Ho f eq_refl))|].
  unfold write_and_rename.
  destruct (f_write io) as [[k f]|]; cbn [os_Write].
  { destruct (os_Remove _ _ _). intros [= <-]. apply Hscrub, (proj1 (Hw f eq_refl)). }
  unfold os_Sync. destruct (f_sync io) as [f|].
  { destruct (os_Remove _ _ _). intros [= <-]. apply Hscrub, (proj1 (Hs f eq_refl)). }
  unfold os_Close. destruct (f_close io) as [f|]; cbn [fmap option_fmap option_map].
  { destruct (os_Remove _ _ _). intros [= <-]. apply Hscrub, (proj1 (Hc f eq_refl)). }
  unfold os_Rename.
  destruct (f_rename io) as [f|].
  { destruct (os_Remove _ _ _). intros [= <-]. cbn [mentions scrubLinkError].
    by rewrite Hh, (proj1 (Hr f eq_refl)). }
  destruct (entries _ !! tmp).
  2: { destruct (os_Remove _ _ _). intros [= <-]. cbn [mentions scrubLinkError]. by rewrite Hh. }
  destruct (match lookup_file _ path with Some n => is_dir n | None => false end).
  { destruct (os_Remove _ _ _). intros [= <-]. cbn [mentions scrubLinkError]. by rewrite Hh. }
  by destruct (fsyncDir _ _).
Qed.

(** What errors say.  Whatever fails, no error of [Load] or
    [WriteAtomic] shows the configuration path or a temporary file's path; and
    [Load] answers [ErrNoConfig] (which starts the setup wizard) exactly when
    the file does not exist, never for another failure. *)
Theorem config_errors path :
  hidden_path path -> path <> "" ->
  (forall ctx_err fs sf rf env e,
     raw_fault path ctx_err -> raw_fault path sf -> raw_fault path rf ->
     Load ctx_err fs path sf rf env = Err e ->
     mentions path e = false
     /\ (errors_Is e ErrNoConfig = true <->
         ctx_err = None
         /\ match sf with Some f => errors_Is f ErrNotExist = true | None => lookup_file fs path = None end))
  /\ (forall fs pid now io c e,
        raw_fault path (f_open io) -> raw_fault path (snd <$> f_write io) -> raw_fault path (f_sync io) ->
        raw_fault path (f_close io) -> raw_fault path (f_rename io) ->
        w_err (WriteAtomic fs path pid now io c) = Some e -> mentions path e = false).
Proof.
  intros Hh Hne. split; intros; [by eapply Load_errors|by eapply WriteAtomic_errors].
Qed.
