(* ===== verification/GoEncoding.v ===== *)
(** * GoEncoding: base64 and form encoding

    [base64.RawURLEncoding] (with its round trip), [url.QueryEscape] and
    [url.Values.Encode] for keys with one value each, [URL.EscapedPath] and
    [http.StatusText]. *)

From S2P Require Import Prelude GoLib GoHTTP GoURL GoStrings.

(** ** base64.RawURLEncoding *)

Definition sextet (a : ascii) : option Z :=
  let c := byteZ a in
  if (65 <=? c) && (c <=? 90) then Some (c - 65)
  else if (97 <=? c) && (c <=? 122) then Some (c - 71)
  else if (48 <=? c) && (c <=? 57) then Some (c + 4)
  else if c =? 45 then Some 62
  else if c =? 95 then Some 63
  else None.

Definition sextet_char (z : Z) : ascii :=
  Zbyte (if z <? 26 then z + 65 else if z <? 52 then z + 71 else if z <? 62 then z - 4 else if z =? 62 then 45 else 95).

(** Line ends are skipped, padding is refused. *)
Fixpoint sextets (s : string) : option (list Z) :=
  match s with
  | EmptyString => Some []
  | String a t =>
      if (byteZ a =? 10) || (byteZ a =? 13) then sextets t
      else x ← sextet a; l ← sextets t; Some (x :: l)
  end.

(** Bits that do not fill a byte are dropped. *)
Fixpoint join6 (l : list Z) : option string :=
  match l with
  | [] => Some ""
  | [_] => None
  | [a; b] => Some (String (Zbyte (a * 4 + b / 16)) "")
  | [a; b; c] => Some (String (Zbyte (a * 4 + b / 16)) (String (Zbyte (b mod 16 * 16 + c / 4)) ""))
  | a :: b :: c :: d :: l' =>
      s ← join6 l';
      Some (String (Zbyte (a * 4 + b / 16)) (String (Zbyte (b mod 16 * 16 + c / 4)) (String (Zbyte (c mod 4 * 64 + d)) s)))
  end.

Definition DecodeString (s : string) : option string := sextets s ≫= join6.

Fixpoint split6 (s : string) : list Z :=
  match s with
  | EmptyString => []
  | String x EmptyString => [byteZ x / 4; byteZ x mod 4 * 16]
  | String x (String y EmptyString) => [byteZ x / 4; byteZ x mod 4 * 16 + byteZ y / 16; byteZ y mod 16 * 4]
  | String x (String y (String z t)) =>
      byteZ x / 4 :: byteZ x mod 4 * 16 + byteZ y / 16 :: byteZ y mod 16 * 4 + byteZ z / 64 :: byteZ z mod 64 :: split6 t
  end.

Definition of_sextets (l : list Z) : string := foldr (fun z s => String (sextet_char z) s) "" l.
Definition EncodeToString (s : string) : string := of_sextets (split6 s).

Lemma byteZ_range a : 0 <= byteZ a < 256.
Proof. unfold byteZ. pose proof (N_ascii_bounded a). lia. Qed.

Lemma sextet_sextet_char z :
  0 <= z < 64 -> sextet (sextet_char z) = Some z /\ byteZ (sextet_char z) <> 10 /\ byteZ (sextet_char z) <> 13.
Proof.
  intros H. unfold sextet_char.
  destruct (Z.ltb_spec z 26); [|destruct (Z.ltb_spec z 52); [|destruct (Z.ltb_spec z 62); [|destruct (Z.eqb_spec z 62)]]];
    unfold sextet; rewrite !byteZ_Zbyte by lia; (split; [|lia]);
    repeat match goal with |- context [?a <=? ?b] => destruct (Z.leb_spec a b); [|cbn; try lia] end; cbn;
    repeat match goal with |- context [?a =? ?b] => destruct (Z.eqb_spec a b); [|cbn; try lia] end; try (f_equal; lia); lia.
Qed.

Lemma sextets_of_sextets l : Forall (fun z => 0 <= z < 64) l -> sextets (of_sextets l) = Some l.
Proof.
  induction 1 as [|z l Hz Hl IH]; [done|]. cbn [of_sextets foldr sextets].
  destruct (sextet_sextet_char z Hz) as (Hs & H1 & H2). change (foldr _ "" l) with (of_sextets l).
  rewrite (proj2 (Z.eqb_neq _ _) H1), (proj2 (Z.eqb_neq _ _) H2). cbn [orb]. by rewrite Hs, IH.
Qed.

Lemma triples (P : string -> Prop) :
  P "" -> (forall x, P (String x "")) -> (forall x y, P (String x (String y ""))) ->
  (forall x y z t, P t -> P (String x (String y (String z t)))) -> forall s, P s.
Proof.
  intros H0 H1 H2 H3 s. assert (P s /\ (forall x, P (String x s)) /\ forall x y, P (String x (String y s))) as [? _]; [|done].
  induction s as [|a s (IH1 & IH2 & IH3)]; [done|]. split; [done|]. split; [by intros x; apply IH3|].
  intros x y. by apply H3.
Qed.

Lemma split6_range s : Forall (fun z => 0 <= z < 64) (split6 s).
Proof.
  pattern s. apply triples; clear s.
  - constructor.
  - intros x. pose proof (byteZ_range x). cbn [split6]. repeat constructor; Z.div_mod_to_equations; lia.
  - intros x y. pose proof (byteZ_range x). pose proof (byteZ_range y). cbn [split6].
    repeat constructor; Z.div_mod_to_equations; lia.
  - intros x y z t IH. pose proof (byteZ_range x). pose proof (byteZ_range y). pose proof (byteZ_range z).
    cbn [split6]. repeat apply Forall_cons_2; try exact IH; Z.div_mod_to_equations; lia.
Qed.

Lemma join6_split6 s : join6 (split6 s) = Some s.
Proof.
  assert (forall a z, z = byteZ a -> Zbyte z = a) as Hb by (intros a ? ->; apply Zbyte_byteZ).
  pattern s. apply triples; clear s.
  - done.
  - intros x. pose proof (byteZ_range x). cbn [split6 join6]. do 2 f_equal. apply Hb. Z.div_mod_to_equations. lia.
  - intros x y. pose proof (byteZ_range x). pose proof (byteZ_range y). cbn [split6 join6].
    rewrite (Hb x), (Hb y) by (Z.div_mod_to_equations; lia). done.
  - intros x y z t IH. pose proof (byteZ_range x). pose proof (byteZ_range y). pose proof (byteZ_range z).
    assert (forall a b c d l, join6 (a :: b :: c :: d :: l) = (u ← join6 l;
      Some (String (Zbyte (a * 4 + b / 16)) (String (Zbyte (b mod 16 * 16 + c / 4)) (String (Zbyte (c mod 4 * 64 + d)) u)))))
      as Hj by done.
    cbn [split6]. rewrite Hj, IH. cbn [mbind option_bind].
    rewrite (Hb x), (Hb y), (Hb z) by (Z.div_mod_to_equations; lia). done.
Qed.

Lemma Decode_Encode s : DecodeString (EncodeToString s) = Some s.
Proof.
  unfold DecodeString, EncodeToString. rewrite sextets_of_sextets by apply split6_range. apply join6_split6.
Qed.

(** No byte of the encoding is a dot. *)
Lemma sextet_char_dot z : 0 <= z < 64 -> sextet_char z <> "."%char.
Proof.
  intros Hz E. destruct (sextet_sextet_char z Hz) as [Hs _]. rewrite E in Hs. by vm_compute in Hs.
Qed.

(** ** url.QueryEscape, url.Values.Encode *)

Definition upper_hex (n : Z) : ascii := Zbyte (if n <? 10 then 48 + n else 55 + n).
Definition unreserved (a : ascii) : bool :=
  is_alpha_lower a || is_alpha_upper a || is_digit a || Ascii.eqb a "-" || Ascii.eqb a "_" || Ascii.eqb a "." || Ascii.eqb a "~".

Fixpoint QueryEscape (s : string) : string :=
  match s with
  | EmptyString => ""
  | String a t =>
      if unreserved a then String a (QueryEscape t)
      else if Ascii.eqb a " " then String "+" (QueryEscape t)
      else String "%" (String (upper_hex (byteZ a / 16)) (String (upper_hex (byteZ a mod 16)) (QueryEscape t)))
  end.

Definition Values := list (string * string).
Definition Encode (v : Values) : string :=
  Join ((fun kv => QueryEscape (fst kv) +:+ "=" +:+ QueryEscape (snd kv)) <$> SliceStable fst v) "&".

(** ** URL.EscapedPath *)

Definition path_char (a : ascii) : bool := unreserved a || in_set "$&+,/:;=@" a.

Fixpoint escape_path (s : string) : string :=
  match s with
  | EmptyString => ""
  | String a t =>
      if path_char a then String a (escape_path t)
      else String "%" (String (upper_hex (byteZ a / 16)) (String (upper_hex (byteZ a mod 16)) (escape_path t)))
  end.

(** [validEncoded]. *)
Definition valid_encoded_path (s : string) : bool := all_bytes (fun a => in_set "!$&'()*+,;=:@[]%" a || path_char a) s.

Definition EscapedPath (u : URL) : string :=
  let p := RawPath u in
  let path := default "" (unescape encodePath p) in
  if String.eqb p (escape_path path) || valid_encoded_path p then p
  else if String.eqb path "*" then "*" else escape_path path.

(** ** http.StatusText *)

Definition status_texts : list (Z * string) :=
  [(100, "Continue"); (101, "Switching Protocols"); (102, "Processing"); (103, "Early Hints"); (200, "OK");
   (201, "Created"); (202, "Accepted"); (203, "Non-Authoritative Information"); (204, "No Content");
   (205, "Reset Content"); (206, "Partial Content"); (207, "Multi-Status"); (208, "Already Reported"); (226, "IM Used");
   (300, "Multiple Choices"); (301, "Moved Permanently"); (302, "Found"); (303, "See Other"); (304, "Not Modified");
   (305, "Use Proxy"); (307, "Temporary Redirect"); (308, "Permanent Redirect"); (400, "Bad Request");
   (401, "Unauthorized"); (402, "Payment Required"); (403, "Forbidden"); (404, "Not Found"); (405, "Method Not Allowed");
   (406, "Not Acceptable"); (407, "Proxy Authentication Required"); (408, "Request Timeout"); (409, "Conflict");
   (410, "Gone"); (411, "Length Required"); (412, "Precondition Failed"); (413, "Request Entity Too Large");
   (414, "Request URI Too Long"); (415, "Unsupported Media Type"); (416, "Requested Range Not Satisfiable");
   (417, "Expectation Failed"); (418, "I'm a teapot"); (421, "Misdirected Request"); (422, "Unprocessable Entity");
   (423, "Locked"); (424, "Failed Dependency"); (425, "Too Early"); (426, "Upgrade Required");
   (428, "Precondition Required"); (429, "Too Many Requests"); (431, "Request Header Fields Too Large");
   (451, "Unavailable For Legal Reasons"); (500, "Internal Server Error"); (501, "Not Implemented"); (502, "Bad Gateway");
   (503, "Service Unavailable"); (504, "Gateway Timeout"); (505, "HTTP Version Not Supported");
   (506, "Variant Also Negotiates"); (507, "Insufficient Storage"); (508, "Loop Detected"); (510, "Not Extended");
   (511, "Network Authentication Required")].

Definition StatusText (code : Z) : string :=
  match List.find (fun x => fst x =? code) status_texts with Some x => snd x | None => "" end.
