(* ===== verification/OAuthProvider.v ===== *)
(** * OAuthProvider: the HTTP exchanges with the identity provider
      (internal/oauth/exchange.go, claims.go, the provider of flow.go)

    The network is an argument: [Do i p] is the answer to the [i]-th request
    of a call; what was sent is the state.  [text] is [error.Error()], which is
    not modelled.  Logging is left out, and so is [BuildAuthorizeURL]. *)

From Stdlib Require Import SpecFloat.
From S2P Require Import Prelude GoLib GoHTTP GoURL GoStrings GoEncoding GoJSON GoTime GoAny GoBufio Errors Account Engine OAuthFlow.

Module provider.

(** ** claims.go *)

Definition firstNonEmpty (l : list string) : string :=
  default "" (List.find (fun v => negb (String.eqb v "")) l).

Definition newMalformedIDTokenError (detail : string) (cause : option error) : error := malformedIDTokenError detail cause.

Definition stringClaim (value : option any) : string := default "" (as_str value).

Definition nestedStringClaim (raw : obj) (outer inner : string) : string :=
  match as_map (raw !! outer) with Some nested => stringClaim (nested !! inner) | None => "" end.

(** [int64(v)]; out of range it is the least integer (amd64). *)
Definition int64_of_float (x : float64) : Z :=
  match x with
  | S754_zero _ => 0
  | S754_finite s m e =>
      let n := if 0 <=? e then Zpos m * 2 ^ e else Zpos m / 2 ^ (- e) in
      let n := if s then - n else n in
      if (MinInt64 <=? n) && (n <=? MaxInt64) then n else MinInt64
  | _ => MinInt64
  end.

(** [time.Unix(sec, 0)]: seconds are counted from year 1 in 64 bits. *)
Definition unix_time (sec : Z) : time := Unix (wrap64 (sec + 62135596800) - 62135596800).

(** [json.Number] does not occur: the claims are decoded without [UseNumber]. *)
Definition unixTimeClaim (value : option any) : option time :=
  match value with
  | Some (ANum v) => let n := int64_of_float v in if f64_eq v (f64_of_Z n) then Some (UTC (unix_time n)) else None
  | _ => None
  end.

Definition auth_claim : string := "https://api.openai.com/auth".

Definition claims_of (raw : obj) : Claims :=
  mkClaims (stringClaim (raw !! "email"))
    (firstNonEmpty [nestedStringClaim raw auth_claim "chatgpt_plan_type"; nestedStringClaim raw auth_claim "plan_type";
                    nestedStringClaim raw "auth" "chatgpt_plan_type"; nestedStringClaim raw "auth" "plan_type"])
    (firstNonEmpty [nestedStringClaim raw auth_claim "chatgpt_account_id"; nestedStringClaim raw "auth" "chatgpt_account_id"])
    (unixTimeClaim (raw !! "exp")).

Definition ExtractClaims (idToken : string) : result error Claims :=
  match Split idToken "." with
  | [_; part; _] =>
      match DecodeString part with
      | None => Err (newMalformedIDTokenError "decode payload" (Some (New "illegal base64 data")))
      | Some payload =>
          match Unmarshal_map payload with
          | None => Err (newMalformedIDTokenError "decode claims JSON" (Some (New "invalid JSON")))
          | Some raw => Ok (claims_of (default ∅ raw))
          end
      end
  | parts => Err (newMalformedIDTokenError ("expected 3 segments, got " +:+ Itoa (Z.of_nat (List.length parts))) None)
  end.

(** ** Wire forms (exchange.go) *)

Record oauthErrorValue := mkErrVal { ev_Code : string; ev_Message : string }.
Definition no_error : oauthErrorValue := mkErrVal "" "".

(** A string, or an object with [code] and [message] or [error_description]. *)
Definition errval_field (k : string) (v : json) (p : string * string * string) : option (string * string * string) :=
  let '(code, message, description) := p in
  if key_is "code" k then s ← dec_string v code; Some (s, message, description)
  else if key_is "message" k then s ← dec_string v message; Some (code, s, description)
  else if key_is "error_description" k then s ← dec_string v description; Some (code, message, s)
  else Some p.

Definition UnmarshalJSON (v : json) (e : oauthErrorValue) : option oauthErrorValue :=
  match v with
  | JNull => Some e
  | JStr s => Some (mkErrVal s (ev_Message e))
  | _ => '(code, message, description) ← dec_struct errval_field v ("", "", "");
         Some (mkErrVal code (firstNonEmpty [message; description]))
  end.

Record tokenExchangeResponse := mkTokenResp {
  tr_AccessToken : string; tr_RefreshToken : string; tr_IDToken : string; tr_ExpiresInSeconds : Z;
  tr_Error : oauthErrorValue; tr_ErrorDescription : string }.
#[export] Instance eta_tr : Eta tokenExchangeResponse := fun r =>
  mkTokenResp (tr_AccessToken r) (tr_RefreshToken r) (tr_IDToken r) (tr_ExpiresInSeconds r) (tr_Error r) (tr_ErrorDescription r).

Definition token_field (k : string) (v : json) (r : tokenExchangeResponse) : option tokenExchangeResponse :=
  if key_is "access_token" k then s ← dec_string v (tr_AccessToken r); Some (r <| tr_AccessToken := s |>)
  else if key_is "refresh_token" k then s ← dec_string v (tr_RefreshToken r); Some (r <| tr_RefreshToken := s |>)
  else if key_is "id_token" k then s ← dec_string v (tr_IDToken r); Some (r <| tr_IDToken := s |>)
  else if key_is "expires_in" k then z ← dec_int v (tr_ExpiresInSeconds r); Some (r <| tr_ExpiresInSeconds := z |>)
  else if key_is "error" k then e ← UnmarshalJSON v (tr_Error r); Some (r <| tr_Error := e |>)
  else if key_is "error_description" k then s ← dec_string v (tr_ErrorDescription r); Some (r <| tr_ErrorDescription := s |>)
  else Some r.

Record deviceCodeResponse := mkCodeResp {
  cr_DeviceAuthID : string; cr_UserCode : string; cr_VerificationURI : string; cr_Interval : option json;
  cr_ExpiresAt : string; cr_Error : oauthErrorValue; cr_ErrorDescription : string; cr_Status : string }.
#[export] Instance eta_cr : Eta deviceCodeResponse := fun r =>
  mkCodeResp (cr_DeviceAuthID r) (cr_UserCode r) (cr_VerificationURI r) (cr_Interval r) (cr_ExpiresAt r) (cr_Error r)
    (cr_ErrorDescription r) (cr_Status r).

Definition code_field (k : string) (v : json) (r : deviceCodeResponse) : option deviceCodeResponse :=
  if key_is "device_auth_id" k then s ← dec_string v (cr_DeviceAuthID r); Some (r <| cr_DeviceAuthID := s |>)
  else if key_is "user_code" k then s ← dec_string v (cr_UserCode r); Some (r <| cr_UserCode := s |>)
  else if key_is "verification_uri" k then s ← dec_string v (cr_VerificationURI r); Some (r <| cr_VerificationURI := s |>)
  else if key_is "interval" k then Some (r <| cr_Interval := Some v |>)
  else if key_is "expires_at" k then s ← dec_string v (cr_ExpiresAt r); Some (r <| cr_ExpiresAt := s |>)
  else if key_is "error" k then e ← UnmarshalJSON v (cr_Error r); Some (r <| cr_Error := e |>)
  else if key_is "error_description" k then s ← dec_string v (cr_ErrorDescription r); Some (r <| cr_ErrorDescription := s |>)
  else if key_is "status" k then s ← dec_string v (cr_Status r); Some (r <| cr_Status := s |>)
  else Some r.

Record devicePollResponse := mkPollResp {
  pr_AuthorizationCode : string; pr_CodeVerifier : string; pr_Error : oauthErrorValue;
  pr_ErrorDescription : string; pr_Status : string }.
#[export] Instance eta_pr : Eta devicePollResponse := fun r =>
  mkPollResp (pr_AuthorizationCode r) (pr_CodeVerifier r) (pr_Error r) (pr_ErrorDescription r) (pr_Status r).

Definition poll_field (k : string) (v : json) (r : devicePollResponse) : option devicePollResponse :=
  if key_is "authorization_code" k then s ← dec_string v (pr_AuthorizationCode r); Some (r <| pr_AuthorizationCode := s |>)
  else if key_is "code_verifier" k then s ← dec_string v (pr_CodeVerifier r); Some (r <| pr_CodeVerifier := s |>)
  else if key_is "error" k then e ← UnmarshalJSON v (pr_Error r); Some (r <| pr_Error := e |>)
  else if key_is "error_description" k then s ← dec_string v (pr_ErrorDescription r); Some (r <| pr_ErrorDescription := s |>)
  else if key_is "status" k then s ← dec_string v (pr_Status r); Some (r <| pr_Status := s |>)
  else Some r.

(** ** Defaults and classification *)

Definition TokenExchangeError_Retryable (httpStatus : Z) : bool := 500 <=? httpStatus.

Definition http_code (httpStatus : Z) : string := "http_" +:+ Itoa httpStatus.

Definition defaultOAuthErrorCode (code : string) (httpStatus : Z) : string :=
  if negb (String.eqb code "") then code
  else if 0 <? httpStatus then http_code httpStatus else "invalid_response".

Definition defaultOAuthErrorMessage (message code : string) (httpStatus : Z) : string :=
  if negb (String.eqb message "") then message
  else if negb (String.eqb code "") then code
  else if 0 <? httpStatus then StatusText httpStatus else "invalid_response".

Definition defaultDevicePollMessage (message code status : string) : string :=
  if negb (String.eqb message "") then message
  else if negb (String.eqb code "") then code
  else if negb (String.eqb status "") then status else "authorization_pending".

Definition pending_statuses : list string :=
  ["pending"; "authorization_pending"; "deviceauth_authorization_unknown"; "deviceauth_authorization_pending"].
Definition isPendingDeviceStatus (value : string) : bool :=
  existsb (String.eqb (ToLower (TrimSpace value))) pending_statuses.

Definition semanticDevicePollCode (p : devicePollResponse) : string :=
  let code := TrimSpace (ev_Code (pr_Error p)) in
  if negb (String.eqb code "") then code
  else
    let status := TrimSpace (pr_Status p) in
    if existsb (String.eqb (ToLower status)) [""; "ok"; "success"] then "" else status.

Definition poll_message (p : devicePollResponse) : string :=
  firstNonEmpty [pr_ErrorDescription p; ev_Message (pr_Error p)].

Definition classifyPendingDevicePoll (p : devicePollResponse) : option error :=
  let errorCode := ev_Code (pr_Error p) in
  let message := defaultDevicePollMessage (poll_message p) errorCode (pr_Status p) in
  if isPendingDeviceStatus errorCode || isPendingDeviceStatus (pr_Status p)
  then Some (TokenExchangeError "authorization_pending" message 0 None)
  else if EqualFold (TrimSpace errorCode) "slow_down" || EqualFold (TrimSpace (pr_Status p)) "slow_down"
  then Some (TokenExchangeError "slow_down" message 0 None)
  else None.

Definition classifyDevicePollError (httpStatus : Z) (p : devicePollResponse) : error :=
  let code := semanticDevicePollCode p in
  let message := poll_message p in
  let message := if String.eqb message "" then TrimSpace (pr_Status p) else message in
  TokenExchangeError (defaultOAuthErrorCode code httpStatus) (defaultOAuthErrorMessage message code httpStatus) httpStatus None.

Definition classifyDeviceCodeError (httpStatus : Z) (p : deviceCodeResponse) : error :=
  if httpStatus =? 404 then
    let message := cr_ErrorDescription p in
    TokenExchangeError "device_auth_unavailable"
      (if String.eqb message "" then StatusText httpStatus else message) httpStatus None
  else if negb (String.eqb (ev_Code (cr_Error p)) "") || negb (String.eqb (ev_Message (cr_Error p)) "")
          || negb (String.eqb (cr_ErrorDescription p) "") then
    let code := ev_Code (cr_Error p) in
    let message := firstNonEmpty [cr_ErrorDescription p; ev_Message (cr_Error p)] in
    TokenExchangeError (defaultOAuthErrorCode code httpStatus) (defaultOAuthErrorMessage message code httpStatus) httpStatus None
  else TokenExchangeError (defaultOAuthErrorCode "" httpStatus) (defaultOAuthErrorMessage "" "" httpStatus) httpStatus None.

Definition classifyTokenExchangeError (httpStatus : Z) (p : tokenExchangeResponse) : error :=
  let code := if String.eqb (ev_Code (tr_Error p)) "" then "invalid_response" else ev_Code (tr_Error p) in
  let message := firstNonEmpty [tr_ErrorDescription p; ev_Message (tr_Error p)] in
  TokenExchangeError code (if String.eqb message "" then code else message) httpStatus None.

(** [None] inside is an absent value. *)
Definition parseFlexibleSeconds (raw : option json) : result error (option duration) :=
  match raw with
  | None | Some JNull => Ok None
  | Some v =>
      match dec_int v 0 with
      | Some number => Ok (Some (wrap64 (number * Second)))
      | None =>
          match dec_string v "" with
          | None => Err (New "cannot unmarshal into string")
          | Some text =>
              let text := TrimSpace text in
              if String.eqb text "" then Ok None
              else match Atoi text with
                   | Some value => Ok (Some (wrap64 (value * Second)))
                   | None => Err (New "strconv.ParseInt: invalid syntax")
                   end
          end
      end
  end.

(** ** The provider of flow.go *)

Definition openAIAuthBaseURL : string := "https://auth.openai.com".
Definition openAIAuthorizeURL : string := openAIAuthBaseURL +:+ "/oauth/authorize".
Definition openAITokenURL : string := openAIAuthBaseURL +:+ "/oauth/token".
Definition openAIDeviceCodeURL : string := openAIAuthBaseURL +:+ "/api/accounts/deviceauth/usercode".
Definition openAIDeviceTokenURL : string := openAIAuthBaseURL +:+ "/api/accounts/deviceauth/token".
Definition openAIDeviceRedirectPath : string := "/deviceauth/callback".
Definition openAIClientID : string := "app_EMoamEEZ73f0CkXaXp7hrann".
Definition openAIRedirectURI : string := "http://localhost:1455/auth/callback".
Definition formContentTypeURLEncoded : string := "application/x-www-form-urlencoded".
Definition jsonContentType : string := "application/json".
Definition oauthResponseBodyLimit : Z := 64 * 2 ^ 10.

(** The endpoints that replace the production ones, all or none
    ([validateOpenAIProviderConfig]). *)
Record OpenAIProviderConfig := mkProviderConfig {
  c_RedirectURI : string; c_AuthorizeURL : string; c_TokenURL : string; c_DeviceCodeURL : string; c_DeviceTokenURL : string }.
Definition production : OpenAIProviderConfig := mkProviderConfig "" "" "" "" "".

Definition endpoint_fields (c : OpenAIProviderConfig) : list (string * string) :=
  [("authorize_url", c_AuthorizeURL c); ("token_url", c_TokenURL c); ("device_code_url", c_DeviceCodeURL c);
   ("device_token_url", c_DeviceTokenURL c)].

Definition absolute (raw : string) : bool :=
  match Parse raw with
  | Some u => negb (String.eqb (Scheme u) "") && negb (String.eqb (Host u) "")
  | None => false
  end.

Definition validateOpenAIProviderConfig (c : OpenAIProviderConfig) : option error :=
  if negb (String.eqb (c_RedirectURI c) "") && negb (String.eqb (c_RedirectURI c) openAIRedirectURI)
  then Some (Errorf "oauth.NewOpenAIProvider: redirect_uri must be %q" [FStr openAIRedirectURI])
  else
    let missing := List.filter (fun f => String.eqb (snd f) "") (endpoint_fields c) in
    let given := List.filter (fun f => negb (String.eqb (snd f) "")) (endpoint_fields c) in
    match given, missing with
    | _ :: _, _ :: _ =>
        Some (New ("oauth.NewOpenAIProvider: partial endpoint override config is not allowed; missing "
                   +:+ Join (fst <$> missing) ", "))
    | _, _ =>
        match List.find (fun f => negb (absolute (snd f))) given with
        | Some f => Some (Errorf "oauth.NewOpenAIProvider: %s must be an absolute URL" [FStr (fst f)])
        | None => None
        end
    end.

Definition tokenEndpoint (c : OpenAIProviderConfig) : string :=
  if String.eqb (c_TokenURL c) "" then openAITokenURL else c_TokenURL c.
Definition deviceCodeEndpoint (c : OpenAIProviderConfig) : string :=
  if String.eqb (c_DeviceCodeURL c) "" then openAIDeviceCodeURL else c_DeviceCodeURL c.
Definition deviceTokenEndpoint (c : OpenAIProviderConfig) : string :=
  if String.eqb (c_DeviceTokenURL c) "" then openAIDeviceTokenURL else c_DeviceTokenURL c.

(** [authBaseURL]: the authorization server of the first endpoint that is
    replaced. *)
Definition base_candidates (c : OpenAIProviderConfig) : list (string * string) :=
  [(c_AuthorizeURL c, "/oauth/authorize"); (c_TokenURL c, "/oauth/token");
   (c_DeviceCodeURL c, "/api/accounts/deviceauth/usercode"); (c_DeviceTokenURL c, "/api/accounts/deviceauth/token")].

Definition base_of (candidate : string * string) : option string :=
  let '(raw, suffix) := candidate in
  if negb (absolute raw) then None
  else
    u ← Parse raw;
    let base := Scheme u +:+ "://" +:+ Host u in
    let pathPrefix := TrimSuffix (EscapedPath u) suffix in
    Some (if String.eqb pathPrefix (EscapedPath u) then base else TrimRightByte "/" (base +:+ pathPrefix)).

Fixpoint first_base (l : list (string * string)) : string :=
  match l with
  | [] => openAIAuthBaseURL
  | x :: l' => match base_of x with Some b => b | None => first_base l' end
  end.

Definition authBaseURL (c : OpenAIProviderConfig) : string := first_base (base_candidates c).

(** [openAIProvider.redirectURIOrDefault]. *)
Definition redirectURIOrDefault : string := openAIRedirectURI.

(** One POST and its answer. *)
Record post := mkPost { p_URL : string; p_ContentType : string; p_Body : string; p_Proxied : bool }.
Record response := mkResponse { StatusCode : Z; Body : reader }.

Abbreviation io := (M (list post)).

Definition ok_status (s : Z) : bool := (200 <=? s) && (s <? 300).

Definition readLimitedResponseBody (r : reader) : result error string :=
  if oauthResponseBodyLimit <? lenZ (rd_data r) then Err (Errorf "upstream oauth body exceeds %d bytes" [FInt oauthResponseBodyLimit])
  else match rd_err r with
       | Some e => Err (Wrapf "read upstream oauth body: %w" [] e)
       | None => Ok (rd_data r)
       end.

Definition decode_json {A} (field : string -> json -> A -> option A) (zero : A) (body : string) : result error A :=
  match json_parse body ≫= (fun v => dec_struct field v zero) with
  | Some r => Ok r
  | None => Err (Wrapf "decode upstream oauth JSON: %w" [] (New "invalid JSON"))
  end.

Definition decodeTokenExchangeResponse (body : string) : result error tokenExchangeResponse :=
  decode_json token_field (mkTokenResp "" "" "" 0 no_error "") body.

Section provider.
Context (Do : nat -> post -> result error response) (text : error -> string) (now : time).
Context (cfg : OpenAIProviderConfig) (proxy_configured : bool).

Definition invalid (status : Z) (e : error) : error := TokenExchangeError "invalid_response" (text e) status None.

(** Which of the two clients is used: the proxied one or the direct one. *)
Definition clientForBind : bool := proxy_configured.
Definition ProxyRequiredHint : string := "disable use_proxy for this account or configure network.proxy_url".
Definition clientForRefresh (useProxy : bool) : result error bool :=
  if negb useProxy then Ok false
  else if proxy_configured then Ok true
  else Err (TokenExchangeError "request_failed"
              ("account use_proxy=true but network.proxy_url is not configured (" +:+ ProxyRequiredHint +:+ ")") 0 None).

(** [http.NewRequestWithContext] and [client.Do]. *)
Definition send (op : string) (p : post) : io response := fun sent =>
  match Parse (p_URL p) with
  | None => (Err (Wrapf (op +:+ ": create request: %w") [] (New "malformed URL")), sent)
  | Some _ =>
      (match Do (List.length sent) p with
       | Ok r => Ok r
       | Err e => Err (TokenExchangeError "request_failed" (text e) 0 (Some e))
       end, (sent ++ [p])%list)
  end.

Definition as_invalid {A} (status : Z) (r : result error A) : io A :=
  match r with Ok a => mret a | Err e => fail (invalid status e) end.

Definition tokensFromResponse (p : tokenExchangeResponse) : result error Tokens :=
  if String.eqb (tr_AccessToken p) "" then Err (New "missing access_token")
  else if String.eqb (tr_RefreshToken p) "" then Err (New "missing refresh_token")
  else if String.eqb (tr_IDToken p) "" then Err (New "missing id_token")
  else if tr_ExpiresInSeconds p <? 0 then Err (New "invalid expires_in")
  else Ok (mkTokens (Some (tr_AccessToken p)) (Some (tr_RefreshToken p)) (Some (tr_IDToken p))
             (wrap64 (tr_ExpiresInSeconds p * Second)) (UTC now)).

Definition exchangeTokens (form : Values) (proxied : bool) : io Tokens :=
  resp ← send "oauth.exchangeTokens" (mkPost (tokenEndpoint cfg) formContentTypeURLEncoded (Encode form) proxied);
  let status := StatusCode resp in
  body ← as_invalid status (readLimitedResponseBody (Body resp));
  payload ← as_invalid status (decodeTokenExchangeResponse body);
  if negb (ok_status status) then fail (classifyTokenExchangeError status payload)
  else as_invalid status (tokensFromResponse payload).

Definition ExchangeCode (code verifier : string) : io Tokens :=
  if String.eqb code "" then fail (New "oauth.ExchangeCode: code is empty")
  else if String.eqb verifier "" then fail (New "oauth.ExchangeCode: verifier is empty")
  else exchangeTokens [("grant_type", "authorization_code"); ("code", code); ("code_verifier", verifier);
         ("redirect_uri", redirectURIOrDefault); ("client_id", openAIClientID)] clientForBind.

Definition Refresh (refreshToken : option string) (useProxy : bool) : io Tokens :=
  if bytes_len refreshToken =? 0 then fail (New "oauth.Refresh: refreshToken is empty")
  else match clientForRefresh useProxy with
  | Err e => fail e
  | Ok client =>
      exchangeTokens [("grant_type", "refresh_token"); ("refresh_token", default "" refreshToken);
                      ("client_id", openAIClientID)] client
  end.

(** The body of a device answer. *)
Definition device_body {A} (field : string -> json -> A -> option A) (zero : A) (resp : response) : io A :=
  body ← as_invalid (StatusCode resp) (readLimitedResponseBody (Body resp));
  as_invalid (StatusCode resp) (decode_json field zero body).

Definition decodeDeviceCodeResponse : response -> io deviceCodeResponse :=
  device_body code_field (mkCodeResp "" "" "" None "" no_error "" "").
Definition decodeDevicePollResponse : response -> io devicePollResponse :=
  device_body poll_field (mkPollResp "" "" no_error "" "").

Definition deviceCodeTTL (rawExpiresAt : string) : result error duration :=
  let raw := TrimSpace rawExpiresAt in
  if String.eqb raw "" then Err (New "missing expires_at")
  else match ParseStamp raw with
  | None => Err (Wrapf "invalid expires_at: %w" [] (New "cannot parse as time"))
  | Some t =>
      let expiresIn := Sub (at_ns t) (UTC now) in
      if expiresIn <=? 0 then Err (New "expires_at must be in the future") else Ok expiresIn
  end.

Definition deviceCodeFromResponse (p : deviceCodeResponse) : result error DeviceCode :=
  if String.eqb (cr_DeviceAuthID p) "" then Err (New "missing device_auth_id")
  else if String.eqb (cr_UserCode p) "" then Err (New "missing user_code")
  else match parseFlexibleSeconds (cr_Interval p) with
  | Err e => Err (Wrapf "invalid interval: %w" [] e)
  | Ok interval =>
      let seconds := default 0 interval in
      if seconds <? 0 then Err (New "interval must be non-negative")
      else
        let interval := if seconds =? 0 then defaultDevicePollInterval else seconds in
        expiresIn ← deviceCodeTTL (cr_ExpiresAt p);
        Ok (mkDeviceCode (cr_DeviceAuthID p) (cr_UserCode p)
              (if String.eqb (cr_VerificationURI p) "" then authBaseURL cfg +:+ "/codex/device" else cr_VerificationURI p)
              interval expiresIn)
  end.

Definition RequestDeviceCode : io DeviceCode :=
  resp ← send "oauth.RequestDeviceCode" (mkPost (deviceCodeEndpoint cfg) jsonContentType
           (Marshal (JObj [("client_id", JStr openAIClientID)])) clientForBind);
  payload ← decodeDeviceCodeResponse resp;
  if negb (ok_status (StatusCode resp)) then fail (classifyDeviceCodeError (StatusCode resp) payload)
  else as_invalid (StatusCode resp) (deviceCodeFromResponse payload).

(** What the answer to a poll means: tokens are ready, or the error. *)
Definition poll_answer (status : Z) (p : devicePollResponse) : option error :=
  match classifyPendingDevicePoll p with
  | Some e => Some e
  | None =>
      if negb (String.eqb (semanticDevicePollCode p) "") then Some (classifyDevicePollError status p)
      else if (status =? 403) || (status =? 404) then
        Some (TokenExchangeError (http_code status) (StatusText status) status None)
      else if negb (ok_status status) then Some (classifyDevicePollError status p)
      else if String.eqb (pr_AuthorizationCode p) "" then
        Some (TokenExchangeError "invalid_response" "missing authorization_code" status None)
      else if String.eqb (pr_CodeVerifier p) "" then
        Some (TokenExchangeError "invalid_response" "missing code_verifier" status None)
      else None
  end.

Definition PollDeviceCode (deviceAuthID userCode : string) : io Tokens :=
  if String.eqb deviceAuthID "" then fail (New "oauth.PollDeviceCode: deviceAuthID is empty")
  else if String.eqb userCode "" then fail (New "oauth.PollDeviceCode: userCode is empty")
  else
    resp ← send "oauth.PollDeviceCode" (mkPost (deviceTokenEndpoint cfg) jsonContentType
             (Marshal (JObj [("device_auth_id", JStr deviceAuthID); ("user_code", JStr userCode)])) clientForBind);
    payload ← decodeDevicePollResponse resp;
    match poll_answer (StatusCode resp) payload with
    | Some e => fail e
    | None =>
        exchangeTokens [("grant_type", "authorization_code"); ("code", pr_AuthorizationCode payload);
          ("redirect_uri", authBaseURL cfg +:+ openAIDeviceRedirectPath); ("client_id", openAIClientID);
          ("code_verifier", pr_CodeVerifier payload)] clientForBind
    end.

End provider.
End provider.
