(* ===== verification/OAuthProviderProofs.v ===== *)
(** * OAuthProviderProofs: id tokens and the calls to the identity provider *)

From S2P Require Import Prelude GoLib GoHTTP GoURL GoEncoding GoJSON GoJSONProofs GoAny GoBufio Errors Account Engine OAuthFlow OAuthProvider.
Import provider.

(** ** Claims *)

Definition no_dot (s : string) : bool := all_bytes (fun a => negb (Ascii.eqb a ".")) s.

Lemma Split_dotless s : no_dot s = true -> Split s "." = [s].
Proof.
  unfold no_dot. induction s as [|a s IH]; [done|]. cbn [all_bytes Split]. rewrite andb_true_iff, negb_true_iff.
  intros [-> Hs]. by rewrite IH.
Qed.

Lemma Split_dot s t : no_dot s = true -> Split (s +:+ "." +:+ t) "." = s :: Split t ".".
Proof.
  unfold no_dot. induction s as [|a s IH]; [done|]. cbn [all_bytes]. rewrite andb_true_iff, negb_true_iff.
  intros [Ha Hs]. change (String a s +:+ "." +:+ t) with (String a (s +:+ "." +:+ t)). cbn [Split].
  by rewrite Ha, (IH Hs).
Qed.

Lemma EncodeToString_no_dot s : no_dot (EncodeToString s) = true.
Proof.
  unfold EncodeToString, no_dot. pose proof (split6_range s) as H. induction H as [|z l Hz Hl IH]; [done|].
  cbn [of_sextets foldr all_bytes]. rewrite andb_true_iff, negb_true_iff. split; [|exact IH].
  apply Ascii.eqb_neq. by apply sextet_char_dot.
Qed.

(** A token of three segments whose second one holds [doc]. *)
Definition id_token (header : string) (doc : json) (signature : string) : string :=
  header +:+ "." +:+ (EncodeToString (Marshal doc) +:+ "." +:+ signature).

Lemma ExtractClaims_token header doc signature m :
  no_dot header = true -> no_dot signature = true -> printable doc = true -> (depth doc <= maxNestingDepth)%nat ->
  any_of doc = Some (AMap m) -> ExtractClaims (id_token header doc signature) = Ok (claims_of m).
Proof.
  intros Hh Hs Hp Hd Hm. unfold ExtractClaims, id_token.
  rewrite (Split_dot _ _ Hh), Split_dot by apply EncodeToString_no_dot. rewrite (Split_dotless _ Hs), Decode_Encode.
  unfold Unmarshal_map. rewrite parse_Marshal by done. cbn [mbind option_bind].
  destruct doc as [|b|n|x|l|l]; try done.
  - cbn [any_of] in Hm. by destruct (ParseFloat n).
  - cbn [any_of] in Hm. by destruct (mapM_list any_of l).
  - by rewrite Hm.
Qed.

(** Every failure is a malformed token. *)
Lemma ExtractClaims_malformed s e : ExtractClaims s = Err e -> errors_Is e ErrMalformedIDToken = true.
Proof. unfold ExtractClaims. repeat case_match; intros; simplify_eq; done. Qed.

(** ** Calls *)

Inductive call :=
  | CExchange (code verifier : string)
  | CRefresh (refreshToken : option string) (useProxy : bool)
  | CPoll (deviceAuthID userCode : string).

(** A typed error with a code. *)
Definition exchange_error (e : error) : Prop :=
  exists code message status cause, e = TokenExchangeError code message status cause /\ code <> "".

Definition complete (now : time) (t : Tokens) : Prop :=
  exists a r i, t_AccessToken t = Some a /\ t_RefreshToken t = Some r /\ t_IDToken t = Some i
    /\ a <> "" /\ r <> "" /\ i <> "" /\ t_LastRefresh t = now.

Lemma http_code_nonempty status : http_code status <> "".
Proof. unfold http_code. discriminate. Qed.

Lemma defaultOAuthErrorCode_nonempty code status : defaultOAuthErrorCode code status <> "".
Proof.
  unfold defaultOAuthErrorCode. destruct (String.eqb_spec code ""); cbn [negb]; [|done].
  destruct (0 <? status); [apply http_code_nonempty|discriminate].
Qed.

Lemma exchange_error_intro code m s c : code <> "" -> exchange_error (TokenExchangeError code m s c).
Proof. intros. by exists code, m, s, c. Qed.
#[local] Hint Resolve exchange_error_intro http_code_nonempty defaultOAuthErrorCode_nonempty : core.

Lemma classifyTokenExchangeError_typed status p : exchange_error (classifyTokenExchangeError status p).
Proof.
  unfold classifyTokenExchangeError. apply exchange_error_intro.
  by destruct (String.eqb_spec (ev_Code (tr_Error p)) "").
Qed.

Lemma poll_answer_typed status p e : poll_answer status p = Some e -> exchange_error e.
Proof.
  unfold poll_answer, classifyPendingDevicePoll, classifyDevicePollError.
  repeat case_match; intros; simplify_eq; apply exchange_error_intro; auto; discriminate.
Qed.

(** A validated configuration gives endpoints that parse. *)
Lemma validate_absolute cfg raw :
  validateOpenAIProviderConfig cfg = None -> raw ∈ (snd <$> endpoint_fields cfg) -> raw <> "" -> absolute raw = true.
Proof.
  unfold validateOpenAIProviderConfig. destruct (_ && _); [done|].
  intros Hv Hin Hne. apply list_elem_of_fmap in Hin as ([name v] & -> & Hin). cbn [snd] in *.
  apply list_elem_of_In in Hin.
  assert (In (name, v) (List.filter (fun f => negb (String.eqb (snd f) "")) (endpoint_fields cfg))) as Hg.
  { apply List.filter_In. split; [done|]. cbn [snd]. by rewrite (proj2 (String.eqb_neq v "")). }
  destruct (List.filter (fun f => negb (String.eqb (snd f) "")) (endpoint_fields cfg)) as [|x l]; [done|].
  destruct (List.filter _ _); [|done].
  destruct (List.find _ (x :: l)) as [f|] eqn:Ef; [done|].
  apply (List.find_none _ _ Ef) in Hg. by apply negb_false_iff in Hg.
Qed.

Lemma absolute_parses raw : absolute raw = true -> is_Some (Parse raw).
Proof. unfold absolute. destruct (Parse raw); [eauto|done]. Qed.

Lemma endpoints_parse cfg :
  validateOpenAIProviderConfig cfg = None ->
  is_Some (Parse (tokenEndpoint cfg)) /\ is_Some (Parse (deviceTokenEndpoint cfg)).
Proof.
  intros Hv. unfold tokenEndpoint, deviceTokenEndpoint. split.
  - destruct (String.eqb_spec (c_TokenURL cfg) ""); [vm_compute; eauto|].
    apply absolute_parses. eapply validate_absolute; [done| |done]. cbn. set_solver.
  - destruct (String.eqb_spec (c_DeviceTokenURL cfg) ""); [vm_compute; eauto|].
    apply absolute_parses. eapply validate_absolute; [done| |done]. cbn. set_solver.
Qed.

Section calls.
Context (Do : nat -> post -> result error response) (text : error -> string) (now : time).
Context (cfg : OpenAIProviderConfig) (proxy_configured : bool).
Hypothesis Hcfg : validateOpenAIProviderConfig cfg = None.

Abbreviation exchange := (exchangeTokens Do text now cfg).

Definition run (c : call) : io Tokens :=
  match c with
  | CExchange code verifier => ExchangeCode Do text now cfg proxy_configured code verifier
  | CRefresh tok up => Refresh Do text now cfg proxy_configured tok up
  | CPoll id code => PollDeviceCode Do text now cfg proxy_configured id code
  end.

(** The answer from which tokens are taken. *)
Definition token_answer (n : nat) (p : post) (t : Tokens) : Prop :=
  p_URL p = tokenEndpoint cfg /\ exists resp payload,
    Do n p = Ok resp /\ ok_status (StatusCode resp) = true
    /\ rd_err (Body resp) = None /\ lenZ (rd_data (Body resp)) <= oauthResponseBodyLimit
    /\ decodeTokenExchangeResponse (rd_data (Body resp)) = Ok payload /\ tokensFromResponse now payload = Ok t.

Lemma tokensFromResponse_complete p t : tokensFromResponse now p = Ok t -> complete now t.
Proof.
  unfold tokensFromResponse. destruct (String.eqb_spec (tr_AccessToken p) ""); [done|].
  destruct (String.eqb_spec (tr_RefreshToken p) ""); [done|]. destruct (String.eqb_spec (tr_IDToken p) ""); [done|].
  destruct (_ <? 0); [done|]. intros [= <-]. do 3 eexists. cbn. repeat (split; [done|]). done.
Qed.

Lemma send_parsed op p sent :
  is_Some (Parse (p_URL p)) ->
  send Do text op p sent =
  (match Do (List.length sent) p with
   | Ok r => Ok r
   | Err e => Err (TokenExchangeError "request_failed" (text e) 0 (Some e))
   end, (sent ++ [p])%list).
Proof. intros [u Hu]. unfold send. by rewrite Hu. Qed.

Lemma as_invalid_ok {A} status (r : result error A) sent a s' :
  as_invalid text status r sent = (Ok a, s') -> r = Ok a /\ s' = sent.
Proof. unfold as_invalid, mret, M_ret, fail. destruct r; intros; by simplify_eq. Qed.

Lemma as_invalid_err {A} status (r : result error A) sent e s' :
  as_invalid text status r sent = (Err e, s') -> exchange_error e /\ s' = sent.
Proof.
  unfold as_invalid, invalid, mret, M_ret, fail. destruct r; intros; simplify_eq. split; [|done]. apply exchange_error_intro; discriminate.
Qed.

Lemma readLimited_ok r body :
  readLimitedResponseBody r = Ok body -> body = rd_data r /\ rd_err r = None /\ lenZ (rd_data r) <= oauthResponseBodyLimit.
Proof.
  unfold readLimitedResponseBody. destruct (Z.ltb_spec oauthResponseBodyLimit (lenZ (rd_data r))); [done|].
  destruct (rd_err r); [done|]. by intros [= <-].
Qed.

Lemma exchange_spec form proxied sent r sent' :
  exchange form proxied sent = (r, sent') ->
  let p := mkPost (tokenEndpoint cfg) formContentTypeURLEncoded (Encode form) proxied in
  sent' = (sent ++ [p])%list
  /\ match r with
     | Ok t => complete now t /\ token_answer (List.length sent) p t
     | Err e => exchange_error e
     end.
Proof.
  intros H p. revert H. unfold exchangeTokens, mbind, M_bind. fold p.
  rewrite send_parsed by apply (endpoints_parse _ Hcfg).
  destruct (Do (List.length sent) p) as [resp|e] eqn:Ed.
  2: { intros [= <- <-]. split; [done|]. apply exchange_error_intro; discriminate. }
  destruct (as_invalid text (StatusCode resp) (readLimitedResponseBody (Body resp)) (sent ++ [p])) as [[body|e] s1] eqn:E1.
  2: { intros [= <- <-]. apply as_invalid_err in E1 as [? ->]. auto. }
  apply as_invalid_ok in E1 as [(-> & Hr & Hl)%readLimited_ok ->].
  destruct (as_invalid text (StatusCode resp) (decodeTokenExchangeResponse _) (sent ++ [p])) as [[payload|e] s1] eqn:E2.
  2: { intros [= <- <-]. apply as_invalid_err in E2 as [? ->]. auto. }
  apply as_invalid_ok in E2 as [Hp ->].
  destruct (ok_status (StatusCode resp)) eqn:Eok; cbn [negb].
  2: { intros [= <- <-]. split; [done|]. apply classifyTokenExchangeError_typed. }
  unfold as_invalid, mret, M_ret, fail.
  destruct (tokensFromResponse now payload) as [t|e] eqn:Et; intros [= <- <-]; (split; [done|]).
  - split; [by eapply tokensFromResponse_complete|]. split; [done|]. by exists resp, payload.
  - apply exchange_error_intro; discriminate.
Qed.

(** A poll: at most the question and the exchange of its answer. *)
Lemma poll_spec id code r sent :
  id <> "" -> code <> "" -> PollDeviceCode Do text now cfg proxy_configured id code [] = (r, sent) ->
  let p := mkPost (deviceTokenEndpoint cfg) jsonContentType
    (Marshal (JObj [("device_auth_id", JStr id); ("user_code", JStr code)])) proxy_configured in
  (exists e, r = Err e /\ exchange_error e /\ sent = [p])
  \/ exists form, let q := mkPost (tokenEndpoint cfg) formContentTypeURLEncoded (Encode form) proxy_configured in
     sent = [p; q] /\ match r with Ok t => complete now t /\ token_answer 1 q t | Err e => exchange_error e end.
Proof.
  intros Hid Hcode H p. revert H. unfold PollDeviceCode, mbind, M_bind.
  rewrite (proj2 (String.eqb_neq id "")), (proj2 (String.eqb_neq code "")) by done. unfold clientForBind. fold p.
  rewrite send_parsed by apply (endpoints_parse _ Hcfg). cbn [List.length app].
  destruct (Do 0 p) as [resp|e] eqn:Ed.
  2: { intros [= <- <-]. left. eexists. split; [done|]. split; [|done]. apply exchange_error_intro; discriminate. }
  unfold decodeDevicePollResponse, device_body, mbind, M_bind.
  destruct (as_invalid text (StatusCode resp) (readLimitedResponseBody (Body resp)) [p]) as [[body|e] s1] eqn:E1.
  2: { intros [= <- <-]. apply as_invalid_err in E1 as [? ->]. left. exists e. auto. }
  apply as_invalid_ok in E1 as [_ ->].
  destruct (as_invalid text (StatusCode resp) _ [p]) as [[payload|e] s1] eqn:E2.
  2: { intros [= <- <-]. apply as_invalid_err in E2 as [? ->]. left. exists e. auto. }
  apply as_invalid_ok in E2 as [_ ->].
  destruct (poll_answer (StatusCode resp) payload) as [e|] eqn:Ea.
  { intros [= <- <-]. left. exists e. split; [done|]. split; [|done]. by eapply poll_answer_typed. }
  intros H%exchange_spec. right. destruct H as [-> H]. eexists. by split.
Qed.

End calls.

(** Input a call refuses without asking. *)
Definition blank (c : call) : Prop :=
  match c with
  | CExchange code verifier => code = "" \/ verifier = ""
  | CRefresh tok _ => bytes_len tok = 0
  | CPoll id code => id = "" \/ code = ""
  end.

(** Which client a call uses: a refresh that of its account, others the
    configured one. *)
Definition proxied (proxy_configured : bool) (c : call) : bool :=
  match c with CRefresh _ useProxy => useProxy | _ => proxy_configured end.

Definition asks_device (c : call) : Prop := match c with CPoll _ _ => True | _ => False end.


(** How long tokens live: [expires_in] is a duration in nanoseconds, in 64
    bits. *)
Lemma expires_in_range now p t :
  tokensFromResponse now p = Ok t -> tr_ExpiresInSeconds p <= 9223372036 ->
  t_ExpiresIn t = tr_ExpiresInSeconds p * Second /\ 0 <= t_ExpiresIn t.
Proof.
  unfold tokensFromResponse. repeat (case_match; [done|]). intros [= <-] Hle. cbn [t_ExpiresIn].
  match goal with H : (_ <? 0) = false |- _ => apply Z.ltb_ge in H end.
  rewrite wrap64_id; [split; [done|]|]; unfold int64_ok, MinInt64, MaxInt64, Second; lia.
Qed.

(** A longer one can wrap around and end before it begins. *)
Example expires_in_overflow :
  t_ExpiresIn <$> (match tokensFromResponse 0 (mkTokenResp "a" "r" "i" 10000000000 no_error "") with
                   | Ok t => Some t | Err _ => None end) = Some (-8446744073709551616).
Proof. vm_compute. reflexivity. Qed.

(** What the provider answers makes a valid account in [OAuthCoordinator]. *)
Lemma bound_account_valid now t f claims a :
  complete now t -> consumed_account f t claims = Ok a -> Validate (Some a) = None /\ Status a = AccountStatusActive.
Proof.
  intros (at_ & rt & it & Ha & Hr & Hi & Hane & Hrne & Hine & Hl). unfold consumed_account.
  destruct (IsZero (t_LastRefresh t)); [done|]. destruct (deriveOAuthAccountName claims) as [name|]; [|done].
  rewrite Ha, Hr, Hi.
  assert (forall s, s <> "" -> cloneBytes (Some s) = Some s /\ bytes_len (Some s) <> 0) as Hb.
  { intros [|c s] Hs; [done|]. unfold cloneBytes, bytes_len, lenZ. cbn [default id String.length].
    rewrite (proj2 (Z.eqb_neq _ 0)) by lia. split; [done|lia]. }
  destruct (Hb _ Hane) as [-> Ba], (Hb _ Hrne) as [-> Br], (Hb _ Hine) as [-> Bi].
  intros [= <-]. split; [|reflexivity].
  apply Validate_ok. right. split.
  - unfold IsOAuth. cbn [AuthMethod set]. by destruct (String.eqb (f_Method f) FlowDevice).
  - unfold oauth_shape. split; [intros Hin; by apply elem_of_nil in Hin|]. split; [reflexivity|].
    split; [exact Ba|]. split; [exact Br|]. split; [exact Bi|]. split; eexists; reflexivity.
Qed.
