(* ===== verification/AuthJSON.v ===== *)
(** * AuthJSON: accounts to and from auth.json files
      (internal/oauth/import_auth_json.go,
       internal/api/exportapi/export_auth_json.go)

    An import parses the file, reads the claims of its id token
    ([OAuthProvider]) and inserts one row ([Store]); an export renders the
    tokens of one row. *)

From S2P Require Import Prelude GoLib GoJSON GoTime GoAny Errors Account Engine Store OAuthFlow OAuthProvider.
Import provider.

Module authjson.

(** The errors of an import. *)
Inductive import_error :=
  | ErrInvalidAuthJSONStructure
  | InvalidAuthJSONError (Reason : string) (MissingFields : list string)
  | StoreFailed (e : error).   (* insert imported auth.json account: %w *)

Record importStringField := mkField { Value : string; Present : bool; Valid : bool }.
Definition no_field : importStringField := mkField "" false false.

Record authJSONImportPayload := mkPayload {
  i_AccessToken : string; i_RefreshToken : string; i_IDToken : string; i_AccountID : string;
  i_LastRefresh : importStringField }.
#[export] Instance eta_payload : Eta authJSONImportPayload := fun p =>
  mkPayload (i_AccessToken p) (i_RefreshToken p) (i_IDToken p) (i_AccountID p) (i_LastRefresh p).
Definition no_payload : authJSONImportPayload := mkPayload "" "" "" "" no_field.

Record derivedTime := mkDerived { dt_value : time; dt_reason : string }.

(** [null] is a valid empty string. *)
Definition optionalStringField (fields : list (string * json)) (key : string) : importStringField :=
  match obj_get key fields with
  | None => no_field
  | Some raw =>
      match dec_string raw "" with
      | Some value => mkField value true true
      | None => mkField "" true false
      end
  end.

Definition requiredNonEmptyString (fields : list (string * json)) (key : string) : option string :=
  let field := optionalStringField fields key in
  if negb (Valid field) then None
  else let value := TrimSpace (Value field) in if String.eqb value "" then None else Some value.

Definition required_tokens : list string := ["access_token"; "refresh_token"; "id_token"].

(** The required fields that are missing. *)
Definition missing_tokens (tokens : list (string * json)) : list string :=
  (String.append "tokens.") <$> List.filter (fun k => match requiredNonEmptyString tokens k with None => true | Some _ => false end)
                     required_tokens.

(** [None] is a structure error.  The trimmed text starts with a brace, so it
    is an object or not JSON at all. *)
Definition parseImportAuthJSONPayload (raw : string) : option (authJSONImportPayload * list string) :=
  match json_parse (TrimSpace raw) with
  | Some (JObj top) =>
      let payload := no_payload <| i_LastRefresh := optionalStringField top "last_refresh" |> in
      match obj_get "tokens" top with
      | None => Some (payload, (String.append "tokens.") <$> required_tokens)
      | Some (JObj tokens) =>
          let token k := default "" (requiredNonEmptyString tokens k) in
          let accountID := optionalStringField tokens "account_id" in
          Some (mkPayload (token "access_token") (token "refresh_token") (token "id_token")
                  (if Valid accountID then Value accountID else "") (i_LastRefresh payload),
                missing_tokens tokens)
      | Some _ => None
      end
  | _ => None
  end.

Definition deriveImportLastRefresh (field : importStringField) (now : time) : derivedTime :=
  if negb (Present field) then mkDerived now "payload_last_refresh_absent"
  else if negb (Valid field) then mkDerived now "payload_last_refresh_unparseable"
  else match ParseStamp (Value field) with
       | None => mkDerived now "payload_last_refresh_unparseable"
       | Some parsed =>
           if After (at_ns parsed) now then mkDerived now "payload_last_refresh_future"
           else mkDerived (at_ns parsed) ""
       end.

Definition deriveImportAccessExpiresAt (expiresAt : option time) (now : time) : derivedTime :=
  match expiresAt with
  | None => mkDerived (Add now (5 * Minute)) "id_token_exp_absent"
  | Some t => mkDerived (UTC t) ""
  end.

Definition stringPtr (v : string) : option string := if String.eqb v "" then None else Some v.

Record AuthJSONImportResult := mkImportResult { Account : UpstreamAccount; FallbackReasons : list string }.

(** What one file asks for: the account to insert, with the reasons. *)
Definition import_account (raw : string) (now : time) : AuthJSONImportResult + import_error :=
  match parseImportAuthJSONPayload raw with
  | None => inr ErrInvalidAuthJSONStructure
  | Some (payload, missing) =>
      match missing with
      | _ :: _ => inr (InvalidAuthJSONError "missing_required_fields" missing)
      | [] =>
          match ExtractClaims (i_IDToken payload) with
          | Err _ => inr (InvalidAuthJSONError "malformed_id_token" ["tokens.id_token"])
          | Ok claims =>
              let chatgptAccountID := firstNonEmpty [cl_ChatGPTAccountID claims; i_AccountID payload] in
              let accountName := firstNonEmpty [cl_Email claims; chatgptAccountID] in
              if String.eqb accountName "" then
                inr (InvalidAuthJSONError "missing_identity_claims" ["email"; "chatgpt_account_id"; "tokens.account_id"])
              else
                let now := UTC now in
                let lastRefresh := deriveImportLastRefresh (i_LastRefresh payload) now in
                let accessExpiresAt := deriveImportAccessExpiresAt (cl_ExpiresAt claims) now in
                inl (mkImportResult
                  (zero_account <| Name := accountName |> <| Provider := ProviderOpenAI |>
                     <| Status := AccountStatusActive |> <| AuthMethod := AuthMethodOAuthImport |>
                     <| AccessToken := Some (i_AccessToken payload) |> <| RefreshToken := Some (i_RefreshToken payload) |>
                     <| IDToken := Some (i_IDToken payload) |> <| LastRefresh := Some (dt_value lastRefresh) |>
                     <| AccessExpiresAt := Some (dt_value accessExpiresAt) |> <| Email := stringPtr (cl_Email claims) |>
                     <| PlanType := stringPtr (cl_PlanType claims) |> <| ChatGPTAccountID := stringPtr chatgptAccountID |>)
                  (List.filter (fun r => negb (String.eqb r "")) [dt_reason lastRefresh; dt_reason accessExpiresAt]))
          end
      end
  end.

Section Import.
Context {DB : Type} `{XormEngine DB}.

(** [AuthJSONImportService.Import].  Every error of [ExtractClaims] is a
    malformed token. *)
Definition Import (raw : string) (now : time) (db : DB) : (AuthJSONImportResult + import_error) * DB :=
  match import_account raw now with
  | inr e => (inr e, db)
  | inl r =>
      match AccountRepo.InsertUpstreamAccount (Account r) db with
      | (Ok id, db') =>
          (inl (mkImportResult (Account r <| ID := id |>) (FallbackReasons r)), db')
      | (Err e, db') => (inr (StoreFailed e), db')
      end
  end.

(** ** Export *)

(** [buildCodexAuthJSONDocument] and its wire form; encoding fails on a time
    outside years 0 to 9999. *)
Definition auth_json (p : ExportPayload) : option json :=
  last ← match ex_LastRefresh p with None => Some JNull | Some t => JStr <$> FormatStamp (utc_stamp t) end;
  Some (JObj [("OPENAI_API_KEY", JNull);
              ("tokens", JObj [("access_token", JStr (default "" (ex_AccessToken p)));
                               ("refresh_token", JStr (default "" (ex_RefreshToken p)));
                               ("id_token", JStr (default "" (ex_IDToken p)));
                               ("account_id", match ex_ChatGPTAccountID p with Some a => JStr a | None => JNull end)]);
              ("last_refresh", last)]).

(** The attachment, a business envelope or a system error. *)
Inductive export_answer :=
  | Attachment (body : string)
  | InvalidAccountPayload
  | AccountNotFound
  | NotOAuthAccount
  | OAuthExportReadFailed
  | OAuthInternalError.

Definition parseExportAccountID (id : string) : option Z :=
  match Atoi (TrimSpace id) with
  | Some n => if n <=? 0 then None else Some n
  | None => None
  end.

Definition writeExportLookupError (id : Z) (err : error) (db : DB) : export_answer :=
  if errors_Is err ErrAccountNotFound then AccountNotFound
  else if errors_Is err ErrInvalidAccountShape then
    match fst (AccountRepo.GetProjectionByID id db) with
    | Ok row =>
        if String.eqb (Status row) AccountStatusDeleted then AccountNotFound
        else if is_api_key (AuthMethod row) then NotOAuthAccount
        else OAuthExportReadFailed
    | Err _ => OAuthExportReadFailed
    end
  else OAuthExportReadFailed.

(** [ExportAuthJSONHandler.ServeHTTP]. *)
Definition ServeHTTP (pathID : string) (db : DB) : export_answer :=
  match parseExportAccountID pathID with
  | None => InvalidAccountPayload
  | Some id =>
      match AccountRepo.GetForExport id db with
      | (Err err, db') => writeExportLookupError id err db'
      | (Ok payload, _) =>
          match auth_json payload with
          | None => OAuthInternalError
          | Some doc => Attachment (Marshal doc)
          end
      end
  end.

End Import.
End authjson.
