(* ===== verification/AuthJSONProofs.v ===== *)
(** * AuthJSONProofs: what an import inserts, and that it reads what an export
      writes *)

From S2P Require Import Prelude GoLib GoStrings GoJSON GoJSONProofs GoTime ConfigProofs GoAny Errors Account Engine Store OAuthFlow OAuthProvider AuthJSON.
Import provider authjson.

(** ** Text that [TrimSpace] leaves alone *)

Fixpoint last_byte (s : string) : option ascii :=
  match s with
  | EmptyString => None
  | String a EmptyString => Some a
  | String _ t => last_byte t
  end.

Lemma last_byte_app s t : t <> "" -> last_byte (s +:+ t) = last_byte t.
Proof.
  intros Ht. induction s as [|a s IH]; [done|]. change (String a s +:+ t) with (String a (s +:+ t)).
  cbn [last_byte]. destruct (s +:+ t) eqn:E; [|done]. by destruct s, t.
Qed.

(** A rune that ends in an ASCII byte is that byte, or an invalid one. *)
Lemma chunk_last p a : chunk p -> last_byte (snd p) = Some a -> byteZ a < 0x80 -> p = (byteZ a, String a "").
Proof.
  intros Hp. destruct Hp as [b Hb|b Hb|b c r H|b c d r H|b c d e r H]; cbn; intros [= ->]; [done|lia| | |].
  - apply rune2_inv in H as (_ & H). unfold cont in H. lia.
  - apply rune3_inv in H as (_ & _ & H). unfold cont in H. lia.
  - apply rune4_inv in H as (_ & _ & _ & H). unfold cont in H. lia.
Qed.

Lemma chunk_bytes p : chunk p -> snd p <> "".
Proof. by intros []. Qed.

Lemma TrimSpace_solid a s b :
  byteZ a < 0x80 -> IsSpace (byteZ a) = false -> last_byte (String a s) = Some b -> byteZ b < 0x80 ->
  IsSpace (byteZ b) = false -> TrimSpace (String a s) = String a s.
Proof.
  intros Ha Hsa Hl Hb Hsb.
  assert (trim_runes (runes (String a s)) = runes (String a s)) as E.
  { unfold trim_runes. rewrite (drop_while_stop _ (runes (String a s))) by (by rewrite runes_low).
    rewrite drop_while_stop; [by rewrite rev_involutive|].
    destruct (rev (runes (String a s))) as [|p l] eqn:Er; [done|].
    assert (runes (String a s) = rev l ++ [p]) as El by (rewrite <- (rev_involutive (runes _)), Er; done).
    pose proof (runes_chunks (String a s)) as Hc. rewrite El in Hc.
    apply Forall_app in Hc as [_ Hc]. apply Forall_cons in Hc as [Hc _].
    pose proof (runes_concat (String a s)) as Hs. rewrite El, concat_bytes_app in Hs. cbn [concat_bytes foldr] in Hs.
    rewrite str_app_nil_r in Hs. rewrite <- Hs in Hl. rewrite last_byte_app in Hl by (by apply chunk_bytes).
    by rewrite (chunk_last p b Hc Hl Hb). }
  unfold TrimSpace. change (concat_bytes (trim_runes (runes (String a s))) = String a s).
  by rewrite E, runes_concat.
Qed.

(** ** What is inserted *)

Lemma missing_none tokens k :
  missing_tokens tokens = [] -> In k required_tokens ->
  exists v, requiredNonEmptyString tokens k = Some v /\ v <> "".
Proof.
  unfold missing_tokens. intros Hm Hk. apply fmap_nil_inv in Hm.
  destruct (requiredNonEmptyString tokens k) as [v|] eqn:E.
  - exists v. split; [done|]. revert E. unfold requiredNonEmptyString.
    destruct (negb _); [done|]. destruct (String.eqb_spec (TrimSpace (Value (optionalStringField tokens k))) ""); [done|].
    by intros [= <-].
  - exfalso. assert (In k []) as []. rewrite <- Hm. apply List.filter_In. by rewrite E.
Qed.

(** The row an accepted file stands for. *)
Record imported (now : time) (a : UpstreamAccount) : Prop := {
  im_valid : Validate (Some a) = None;
  im_method : AuthMethod a = AuthMethodOAuthImport;
  im_status : Status a = AccountStatusActive;
  im_name : Name a <> "";
  im_last : exists t, LastRefresh a = Some t /\ t <= now;
}.

Lemma bytes_len_some v : v <> "" -> bytes_len (Some v) <> 0.
Proof. destruct v; [done|]. unfold bytes_len, lenZ. cbn. lia. Qed.

Lemma parse_payload raw payload :
  parseImportAuthJSONPayload raw = Some (payload, []) ->
  i_AccessToken payload <> "" /\ i_RefreshToken payload <> "" /\ i_IDToken payload <> "".
Proof.
  unfold parseImportAuthJSONPayload. destruct (json_parse _) as [[]|]; try done.
  destruct (obj_get "tokens" _) as [[| | | | |tokens]|]; try done. intros [= <- Hm].
  cbn [i_AccessToken i_RefreshToken i_IDToken].
  destruct (missing_none tokens "access_token" Hm) as (a & -> & ?); [cbn; auto|].
  destruct (missing_none tokens "refresh_token" Hm) as (r & -> & ?); [cbn; auto|].
  destruct (missing_none tokens "id_token" Hm) as (i & -> & ?); [cbn; auto|]. done.
Qed.

Lemma derived_last_refresh field now : dt_value (deriveImportLastRefresh field now) <= now.
Proof.
  unfold deriveImportLastRefresh, After. destruct (negb _); [cbn; lia|]. destruct (negb _); [cbn; lia|].
  destruct (ParseStamp _) as [t|]; [|cbn; lia]. destruct (Z.ltb_spec now (at_ns t)); cbn; lia.
Qed.

Lemma import_account_ok raw now r : import_account raw now = inl r -> imported now (Account r).
Proof.
  unfold import_account. destruct (parseImportAuthJSONPayload raw) as [[payload [|]]|] eqn:Ep; [|done|done].
  destruct (ExtractClaims (i_IDToken payload)) as [claims|]; [|done].
  destruct (String.eqb_spec (firstNonEmpty [cl_Email claims; firstNonEmpty [cl_ChatGPTAccountID claims; i_AccountID payload]]) "") as [|Hn];
    [done|].
  intros [= <-]. apply parse_payload in Ep as (Ha & Hr & Hi). cbn [Account].
  set (name := firstNonEmpty [cl_Email claims; _]) in *. set (id := firstNonEmpty [cl_ChatGPTAccountID claims; _]) in *.
  split; [|reflexivity|reflexivity|exact Hn|].
  - apply Validate_ok. right. split; [reflexivity|]. unfold oauth_shape.
    split; [intros Hin; by apply elem_of_nil in Hin|]. split; [reflexivity|].
    split; [by apply bytes_len_some|]. split; [by apply bytes_len_some|]. split; [by apply bytes_len_some|].
    split; eexists; reflexivity.
  - eexists. split; [reflexivity|]. apply derived_last_refresh.
Qed.

(** Which fields of a file are reported as missing. *)
Lemma import_missing raw now l :
  import_account raw now = inr (InvalidAuthJSONError "missing_required_fields" l) ->
  l <> [] /\ forall f, f ∈ l -> exists k, f = "tokens." +:+ k /\ k ∈ required_tokens.
Proof.
  unfold import_account. destruct (parseImportAuthJSONPayload raw) as [[payload [|x missing]]|] eqn:Ep; [|..|done].
  { destruct (ExtractClaims _); [|done]. by destruct (String.eqb _ _). }
  intros [= <-]. split; [done|]. revert Ep. unfold parseImportAuthJSONPayload.
  destruct (json_parse _) as [[]|]; try done. destruct (obj_get "tokens" _) as [[| | | | |tokens]|]; try done.
  - intros [= <- Hm] f Hf. unfold missing_tokens in Hm. rewrite <- Hm in Hf.
    apply list_elem_of_fmap in Hf as (k & -> & Hk). exists k. split; [done|].
    apply list_elem_of_In, List.filter_In in Hk as [Hk _]. by apply list_elem_of_In.
  - intros [= <- Hx Hm] f Hf. rewrite <- Hx, <- Hm in Hf.
    change (f ∈ String.append "tokens." <$> required_tokens) in Hf.
    apply list_elem_of_fmap in Hf as (k & -> & Hk). by exists k.
Qed.

Section import.
Context {DB : Type} `{XormLaws DB}.

Lemma insert_valid_oauth a (db : DB) :
  IsOAuth a = true -> Validate (Some a) = None ->
  AccountRepo.InsertUpstreamAccount a db =
  match eng_insert a db with
  | (Ok r, db') => (Ok (ID r), db')
  | (Err e, db') => (Err (Wrapf "insert account: %w" [] e), db')
  end.
Proof.
  intros Ho Hv. unfold AccountRepo.InsertUpstreamAccount. rewrite Hv. cbv zeta. rewrite !utc_same, Ho.
  rewrite oauth_key_same by done. unfold mbind, M_bind, wrap_err. by destruct (eng_insert a db) as [[] ?].
Qed.

End import.

(** ** Round trip *)

Lemma Marshal_solid kv l : TrimSpace (Marshal (JObj (kv :: l))) = Marshal (JObj (kv :: l)).
Proof.
  assert (exists s, Marshal (JObj (kv :: l)) = String "{" (s +:+ "}")) as (s & ->).
  { unfold Marshal. cbn [print]. eexists. reflexivity. }
  apply (TrimSpace_solid _ _ "}"%char); try (vm_compute; reflexivity).
  change (String "{" (s +:+ "}")) with ("{" +:+ (s +:+ "}")). rewrite str_app_assoc. by rewrite last_byte_app.
Qed.

(** Text that survives JSON and trimming. *)
Definition plain (o : option string) (s : string) : Prop :=
  o = Some s /\ s <> "" /\ valid_utf8 s = true /\ TrimSpace s = s.

(** A row whose export can be imported at [now]. *)
Record portable (now : time) (a : UpstreamAccount) (claims : Claims) : Prop := {
  po_access : exists s, plain (AccessToken a) s;
  po_refresh : exists s, plain (RefreshToken a) s;
  po_id : exists s, plain (IDToken a) s /\ ExtractClaims s = Ok claims;
  po_account : valid_utf8 (default "" (ChatGPTAccountID a)) = true;
  po_name : firstNonEmpty [cl_Email claims; cl_ChatGPTAccountID claims; default "" (ChatGPTAccountID a)] <> "";
  po_last : exists t, LastRefresh a = Some t /\ t <= now;
}.

(** What the import of an exported row keeps. *)
Definition reimported (a : UpstreamAccount) (claims : Claims) (b : UpstreamAccount) : Prop :=
  AccessToken b = AccessToken a /\ RefreshToken b = RefreshToken a /\ IDToken b = IDToken a
  /\ LastRefresh b = LastRefresh a
  /\ ChatGPTAccountID b = stringPtr (firstNonEmpty [cl_ChatGPTAccountID claims; default "" (ChatGPTAccountID a)])
  /\ Email b = stringPtr (cl_Email claims) /\ PlanType b = stringPtr (cl_PlanType claims).

Lemma firstNonEmpty_nested x y z : firstNonEmpty [x; firstNonEmpty [y; z]] = firstNonEmpty [x; y; z].
Proof.
  unfold firstNonEmpty. cbn [List.find].
  destruct (String.eqb x "") eqn:Ex, (String.eqb y "") eqn:Ey, (String.eqb z "") eqn:Ez; cbn;
    rewrite ?Ey, ?Ez; done.
Qed.

Lemma required_plain tokens k s :
  obj_get k tokens = Some (JStr s) -> s <> "" -> TrimSpace s = s -> requiredNonEmptyString tokens k = Some s.
Proof.
  intros Hk Hs Ht. unfold requiredNonEmptyString, optionalStringField. rewrite Hk. cbn [dec_string Valid Value negb].
  rewrite Ht. by rewrite (proj2 (String.eqb_neq s "")).
Qed.

Lemma auth_json_import a doc now claims :
  auth_json (mkExportPayload (ID a) (AccessToken a) (RefreshToken a) (IDToken a) (LastRefresh a) (ChatGPTAccountID a)) = Some doc ->
  portable now a claims ->
  exists r, import_account (Marshal doc) now = inl r /\ reimported a claims (Account r).
Proof.
  intros Hdoc [(at_ & Ha & Hane & Hau & Hat) (rt & Hr & Hrne & Hru & Hrt) (it & (Hi & Hine & Hiu & Hit) & Hcl) Hacc Hname (t & Hl & Hle)].
  unfold auth_json in Hdoc. cbn [ex_LastRefresh ex_AccessToken ex_RefreshToken ex_IDToken ex_ChatGPTAccountID] in Hdoc.
  rewrite Ha, Hr, Hi, Hl in Hdoc. cbn [default id] in Hdoc.
  destruct (FormatStamp (utc_stamp t)) as [last|] eqn:Ef; [|done]. cbn [fmap option_fmap option_map mbind option_bind] in Hdoc.
  injection Hdoc as <-. set (acc := match ChatGPTAccountID a with Some _ => _ | None => _ end).
  set (tokens := [("access_token", JStr at_); ("refresh_token", JStr rt); ("id_token", JStr it); ("account_id", acc)]).
  set (doc := JObj _).
  assert (printable acc = true /\ depth acc = O) as [Hpa Hda]
    by (subst acc; destruct (ChatGPTAccountID a); cbn in Hacc |- *; done).
  assert (json_parse (Marshal doc) = Some doc) as Hparse.
  { apply parse_Marshal.
    - subst doc tokens. cbn [printable forallb]. rewrite Hau, Hru, Hiu, Hpa, (ascii_runes_ok _ (FormatStamp_ascii _ _ Ef)). done.
    - subst doc tokens. cbn [depth foldr]. rewrite Hda. unfold maxNestingDepth. lia. }
  assert (parseImportAuthJSONPayload (Marshal doc) =
    Some (mkPayload at_ rt it (default "" (ChatGPTAccountID a)) (mkField last true true), [])) as Hp.
  { unfold parseImportAuthJSONPayload. subst doc. rewrite Marshal_solid, Hparse.
    change (obj_get "tokens" _) with (Some (JObj tokens)). cbv iota.
    unfold missing_tokens, required_tokens. cbn [List.filter].
    rewrite (required_plain tokens "access_token" at_), (required_plain tokens "refresh_token" rt),
      (required_plain tokens "id_token" it) by done.
    cbn [default id fmap list_fmap]. do 3 f_equal.
    subst tokens. unfold optionalStringField. change (obj_get "account_id" _) with (Some acc). cbv iota. subst acc.
    by destruct (ChatGPTAccountID a). }
  unfold import_account. rewrite Hp. cbn [i_IDToken i_AccountID i_LastRefresh i_AccessToken i_RefreshToken]. rewrite Hcl.
  rewrite firstNonEmpty_nested, (proj2 (String.eqb_neq _ "")) by done.
  eexists. split; [reflexivity|]. unfold reimported. cbn [Account].
  unfold deriveImportLastRefresh. cbn [Present Valid Value negb].
  rewrite (Parse_FormatStamp _ _ Ef). unfold After. cbn [at_ns utc_stamp]. unfold UTC.
  destruct (Z.ltb_spec now t); [lia|]. rewrite Ha, Hr, Hi, Hl. by repeat split.
Qed.

(** C37: export and import.  An export answers an attachment only for a live
    OAuth row, and importing it again gives an account with the same tokens,
    last refresh and identity (where the tokens are plain text and the id
    token still has its claims). *)
Theorem export_import_roundtrip {DB} `{XormLaws DB} pathID (db : DB) now body :
  ServeHTTP pathID db = Attachment body ->
  exists id a, parseExportAccountID pathID = Some id /\ eng_rows db !! id = Some a
  /\ IsOAuth a = true /\ Status a <> AccountStatusDeleted
  /\ forall claims, portable now a claims ->
     exists r, import_account body now = inl r /\ reimported a claims (Account r).
Proof.
  unfold ServeHTTP. destruct (parseExportAccountID pathID) as [id|]; [|done].
  assert (forall i e db1, writeExportLookupError i e db1 <> Attachment body) as Hno
    by (intros i e db1; unfold writeExportLookupError; repeat case_match; done).
  destruct (eng_get (AccountRepo.by_id id) db) as [o|e] eqn:Eg.
  2: { unfold AccountRepo.GetForExport, mbind, M_bind, wrap_err, lift. rewrite Eg. intros Hb. by apply Hno in Hb. }
  rewrite (GetForExport_eq _ _ _ Eg). pose proof (get_by_id _ _ _ Eg) as Hrow.
  destruct o as [a|]; [|intros Hb; by apply Hno in Hb].
  destruct (String.eqb_spec (Status a) AccountStatusDeleted); [intros Hb; by apply Hno in Hb|].
  destruct (IsOAuth a) eqn:Ho; cbn [negb]; [|intros Hb; by apply Hno in Hb].
  destruct (export_missing a); [|intros Hb; by apply Hno in Hb].
  destruct (auth_json (payload_of a)) as [doc|] eqn:Ed; [|done]. intros [= <-].
  exists id, a. repeat (split; [done|]). intros claims Hp. by apply auth_json_import.
Qed.
