(* ===== verification/CodexRequest.v ===== *)
(** * CodexRequest: translation of request bodies (internal/provider/openai)

    [codex_request.go]: the normalisation of a Responses or compact request
    for the ChatGPT backend, in compatible and native mode, as functions on
    the decoded payload; [forwarder.go]: the conversion of chat messages to
    input items.  A decoded payload is a tree, so the in-place updates of the
    code are value updates here. *)

From S2P Require Import Prelude GoLib GoHTTP GoJSON GoStrings GoAny Errors.

Module codex.

Definition text_set (l : list string) : gset string := list_to_set l.

Inductive codexResponsesRequestMode := codexResponsesOpenAICompat | codexResponsesNative.

Record codexResponsesRequest := mkRequest {
  Model : string;
  Messages : slice any;
  Input : option any;
  Instructions : string;
  Tools : slice any;
  ToolChoice : option any;
  ParallelToolCalls : option bool;
  Reasoning : option obj;
  Store : bool;
  StreamRequested : bool;
  Include : slice string;
  ServiceTier : string;
  Conversation : string;
  PreviousResponseID : string;
  Truncation : string;
  PromptCacheKey : string;
  Text : option obj;
  Payload : obj;
}.

Record codexResponsesCompactRequest := mkCompact {
  CModel : string;
  CMessages : slice any;
  CInput : option any;
  CInstructions : string;
  CReasoning : option obj;
  CStore : bool;
  CServiceTier : string;
  CPromptCacheKey : string;
  CPayload : obj;
}.

(** ** Tables *)

Definition codexUnsupportedUpstreamFields : gset string :=
  text_set ["max_output_tokens"; "prompt_cache_retention"; "safety_identifier"; "temperature"].
Definition codexUnsupportedToolTypes : gset string :=
  text_set ["file_search"; "code_interpreter"; "computer_use"; "computer_use_preview"].
Definition codexResponsesIncludeAllowlist : gset string :=
  text_set ["code_interpreter_call.outputs"; "computer_call_output.output.image_url";
            "file_search_call.results"; "message.input_image.image_url"; "message.output_text.logprobs";
            "reasoning.encrypted_content"; "web_search_call.action.sources"].
Definition codexInterleavedReasoningKeys : gset string :=
  text_set ["function_call"; "reasoning_content"; "reasoning_details"; "tool_calls"].
Definition codexInterleavedReasoningPartTypes : gset string :=
  text_set ["reasoning"; "reasoning_content"; "reasoning_details"].
Definition codexAssistantTextPartTypes : gset string := text_set ["input_text"; "output_text"; "text"].
Definition codexToolTextPartTypes : gset string := text_set ["input_text"; "output_text"; "refusal"; "text"].

(** ** Typed reads *)

Definition codexAnyMap (v : option any) : option obj := as_map v.
Definition codexAnySlice (v : option any) : slice any := as_arr v.
Definition codexStringSlice (v : option any) : option (list string) :=
  match as_arr v with
  | Some items => Some (omap (fun item => as_str (Some item)) items)
  | None => None
  end.
Definition codexBoolPointer (v : option any) : option bool := as_bool v.
Definition codexStringValue (v : option any) : string := default "" (as_str v).

Definition nonEmptyCodexString (v : option any) : option string :=
  match as_str v with
  | Some text => if String.eqb (TrimSpace text) "" then None else Some text
  | None => None
  end.

Definition firstNonEmptyCodexString (values : list (option any)) : string :=
  default "" (List.find (fun text => negb (String.eqb text "")) (omap as_str values)).

(** [firstString] (forwarder.go) reads the same way. *)
Definition firstString (values : list (option any)) : string := firstNonEmptyCodexString values.

Definition requiredCodexString (payload : obj) (field message : string) : result error string :=
  if is_nil (payload !! field) then Err (New message)
  else match as_str (payload !! field) with
       | Some text => if String.eqb (TrimSpace text) "" then Err (New message) else Ok text
       | None => Err (New message)
       end.

Definition codexInstructions (payload : obj) : result error (obj * string) :=
  if is_nil (payload !! "instructions") then Ok (<["instructions" := AStr ""]> payload, "")
  else match as_str (payload !! "instructions") with
       | Some text => Ok (payload, text)
       | None => Err (New "responses request instructions must be a string")
       end.

Definition optionalCodexBool (payload : obj) (field : string) : result error (option bool) :=
  if is_nil (payload !! field) then Ok None
  else match as_bool (payload !! field) with
       | Some flag => Ok (Some flag)
       | None => Err (Errorf "%s must be boolean" [FStr field])
       end.

Definition codexMessages (payload : obj) : result error (slice any * bool) :=
  if is_nil (payload !! "messages") then Ok (None, false)
  else match as_arr (payload !! "messages") with
       | Some messages => Ok (Some messages, true)
       | None => Err (New "responses request messages must be an array")
       end.

(** ** Validation of single fields *)

Definition validateCodexOptionalObject (payload : obj) (field message : string) : result error unit :=
  if is_nil (payload !! field) then Ok tt
  else match as_map (payload !! field) with Some _ => Ok tt | None => Err (New message) end.

Definition validateCodexOptionalString (payload : obj) (field message : string) : result error unit :=
  if is_nil (payload !! field) then Ok tt
  else match as_str (payload !! field) with Some _ => Ok tt | None => Err (New message) end.

Definition validateCodexResponsesObjectFields (payload : obj) : result error unit :=
  _ ← validateCodexOptionalObject payload "reasoning" "responses request reasoning must be an object";
  _ ← validateCodexOptionalObject payload "text" "responses request text must be an object";
  match codexAnyMap (payload !! "text") with
  | Some text => validateCodexOptionalObject text "format" "responses request text.format must be an object"
  | None => Ok tt
  end.

Definition validateCodexToolChoice (payload : obj) : result error unit :=
  match payload !! "tool_choice" with
  | None | Some ANil | Some (AStr _) | Some (AMap _) => Ok tt
  | Some _ => Err (New "responses request tool_choice must be a string or object")
  end.

Definition validateCodexResponsesScalarFields (payload : obj) : result error unit :=
  _ ← validateCodexOptionalString payload "service_tier" "responses request service_tier must be a string";
  _ ← validateCodexOptionalString payload "conversation" "responses request conversation must be a string";
  _ ← validateCodexOptionalString payload "previous_response_id" "responses request previous_response_id must be a string";
  _ ← validateCodexOptionalString payload "prompt_cache_key" "responses request prompt_cache_key must be a string";
  validateCodexToolChoice payload.

Definition validateCodexConversation (payload : obj) : result error unit :=
  match nonEmptyCodexString (payload !! "conversation"),
        nonEmptyCodexString (payload !! "previous_response_id") with
  | Some _, Some _ => Err (New "provide either conversation or previous_response_id, not both")
  | _, _ => Ok tt
  end.

Definition validateCodexTruncation (payload : obj) : result error unit :=
  if is_nil (payload !! "truncation") then Ok tt else Err (New "truncation is not supported").

Fixpoint validate_include_items (items : list any) : result error unit :=
  match items with
  | [] => Ok tt
  | AStr text :: items' =>
      if bool_decide (text ∈ codexResponsesIncludeAllowlist) then validate_include_items items'
      else Err (Errorf "unsupported include value: %s" [FStr text])
  | _ :: _ => Err (New "responses request include entries must be strings")
  end.

Definition validateCodexInclude (payload : obj) : result error unit :=
  if is_nil (payload !! "include") then Ok tt
  else match as_arr (payload !! "include") with
       | Some items => validate_include_items items
       | None => Err (New "responses request include must be an array")
       end.

(** ** Aliases *)

Definition moveCodexStringAlias (from to : string) (payload : obj) : obj :=
  match payload !! from with
  | None => payload
  | Some value =>
      let payload := delete from payload in
      match payload !! to, value with
      | None, AStr text => <[to := AStr text]> payload
      | _, _ => payload
      end
  end.

Definition moveCodexNestedStringAlias (from to : string) (st : obj * obj) : obj * obj :=
  let '(payload, target) := st in
  match payload !! from with
  | None => st
  | Some value =>
      let payload := delete from payload in
      match target !! to, value with
      | None, AStr text => (payload, <[to := AStr text]> target)
      | _, _ => (payload, target)
      end
  end.

(** A section is stored back when it is not empty. *)
Definition store_section (key : string) (st : obj * obj) : obj :=
  let '(payload, section) := st in
  if bool_decide (section = ∅) then payload else <[key := AMap section]> payload.

Definition normalizeCodexOpenAICompatibleAliases (payload : obj) : obj :=
  let payload := moveCodexStringAlias "promptCacheKey" "prompt_cache_key" payload in
  let payload := moveCodexStringAlias "promptCacheRetention" "prompt_cache_retention" payload in
  let st := (payload, default ∅ (codexAnyMap (payload !! "reasoning"))) in
  let st := moveCodexNestedStringAlias "reasoningEffort" "effort" st in
  let st := moveCodexNestedStringAlias "reasoningSummary" "summary" st in
  let payload := store_section "reasoning" st in
  let st := (payload, default ∅ (codexAnyMap (payload !! "text"))) in
  let st := moveCodexNestedStringAlias "textVerbosity" "verbosity" st in
  let st := moveCodexNestedStringAlias "verbosity" "verbosity" st in
  let payload := store_section "text" st in
  match as_str (payload !! "service_tier") with
  | Some tier => if EqualFold (TrimSpace tier) "fast" then <["service_tier" := AStr "priority"]> payload
                 else payload
  | None => payload
  end.

Definition normalizeCodexPreviousResponseID (payload : obj) : obj :=
  match as_str (payload !! "previous_response_id") with
  | Some text =>
      let trimmed := TrimSpace text in
      if String.eqb trimmed "" then delete "previous_response_id" payload
      else <["previous_response_id" := AStr trimmed]> payload
  | None => payload
  end.

(** ** Tools *)

Definition rename_preview (tool : obj) : obj :=
  if bool_decide (as_str (tool !! "type") = Some "web_search_preview")
  then <["type" := AStr "web_search"]> tool else tool.

Fixpoint normalize_tool_list (tools : list any) : result error (list any) :=
  match tools with
  | [] => Ok []
  | AMap tool :: tools' =>
      let tool := rename_preview tool in
      let toolType := codexStringValue (tool !! "type") in
      if bool_decide (toolType ∈ codexUnsupportedToolTypes)
      then Err (Errorf "unsupported tool type: %s" [FStr toolType])
      else rest ← normalize_tool_list tools'; Ok (AMap tool :: rest)
  | tool :: tools' => rest ← normalize_tool_list tools'; Ok (tool :: rest)
  end.

Definition normalizeCodexTools (payload : obj) : result error obj :=
  if is_nil (payload !! "tools") then Ok payload
  else match as_arr (payload !! "tools") with
       | Some tools => tools ← normalize_tool_list tools; Ok (<["tools" := AArr tools]> payload)
       | None => Err (New "responses request tools must be an array")
       end.

Definition normalizeCodexToolChoice (payload : obj) : obj :=
  match as_map (payload !! "tool_choice") with
  | Some choice => <["tool_choice" := AMap (rename_preview choice)]> payload
  | None => payload
  end.

Definition codexToolSortKey (tool : any) : string :=
  match tool with
  | AMap toolObj =>
      match as_str (toolObj !! "name") with
      | Some name => name
      | None =>
          match as_map (toolObj !! "function") with
          | Some function => codexStringValue (function !! "name")
          | None => ""
          end
      end
  | _ => ""
  end.

(** Copies the value; the encoder sorts the keys. *)
Fixpoint sortCodexJSONValue (value : any) : any :=
  match value with
  | AMap m => AMap (sortCodexJSONValue <$> m)
  | AArr l => AArr (List.map sortCodexJSONValue l)
  | _ => value
  end.

Definition canonicalizeCodexTools (payload : obj) : obj :=
  match as_arr (payload !! "tools") with
  | Some [] | None => payload
  | Some tools =>
      <["tools" := AArr (SliceStable codexToolSortKey (List.map sortCodexJSONValue tools))]> payload
  end.

(** Every unsupported field is deleted. *)
Definition stripCodexUnsupportedUpstreamFields (payload : obj) : obj :=
  filter (fun kv => fst kv ∉ codexUnsupportedUpstreamFields) (canonicalizeCodexTools payload).

(** ** Input items *)

Definition inputMissingOrEmpty (value : option any) : bool :=
  match value with None | Some ANil | Some (AArr []) => true | _ => false end.

Definition obj_of (l : list (string * any)) : any := AMap (list_to_map l).

Definition inputTextMessage (text : string) : any :=
  obj_of [("role", AStr "user");
          ("content", AArr [obj_of [("type", AStr "input_text"); ("text", AStr text)]])].

Definition output_text (text : string) : any := obj_of [("type", AStr "output_text"); ("text", AStr text)].

Definition isCodexInputFileWithID (item : obj) : bool :=
  match item !! "type", item !! "file_id" with
  | Some (AStr "input_file"), Some (AStr fileID) => negb (String.eqb fileID "")
  | _, _ => false
  end.

Definition part_has_file_id (part : any) : bool :=
  match part with AMap p => isCodexInputFileWithID p | _ => false end.

Definition item_has_file_id (item : any) : bool :=
  match item with
  | AMap m =>
      isCodexInputFileWithID m
      || match m !! "content" with
         | Some (AArr parts) => existsb part_has_file_id parts
         | Some (AMap part) => isCodexInputFileWithID part
         | _ => false
         end
  | _ => false
  end.

Definition codexInputHasFileID (items : list any) : bool := existsb item_has_file_id items.

(** A part without its reasoning fields; a reasoning part is dropped. *)
Definition drop_interleaved (m : obj) : obj :=
  filter (fun kv => fst kv ∉ codexInterleavedReasoningKeys) m.

Definition sanitizeCodexContentPart (part : any) : option any :=
  match part with
  | AMap m =>
      if bool_decide (codexStringValue (m !! "type") ∈ codexInterleavedReasoningPartTypes) then None
      else Some (AMap (drop_interleaved m))
  | _ => Some part
  end.

Definition sanitizeCodexContent (value : any) : option any :=
  match value with
  | AArr parts => Some (AArr (omap sanitizeCodexContentPart parts))
  | AMap _ => sanitizeCodexContentPart value
  | _ => Some value
  end.

Definition extractCodexTextContentPart (part : any) (allowedTypes : gset string) : option string :=
  match part with
  | AMap m =>
      let partType := codexStringValue (m !! "type") in
      let by_refusal :=
        if String.eqb partType "refusal" then as_str (m !! "refusal") else None in
      match as_str (m !! "text") with
      | Some text =>
          if String.eqb partType "" || bool_decide (partType ∈ allowedTypes) then Some text else by_refusal
      | None => by_refusal
      end
  | _ => None
  end.

Definition normalizeCodexAssistantContentPart (part : any) : any :=
  match extractCodexTextContentPart part codexAssistantTextPartTypes with
  | Some text => output_text text
  | None => match part with AStr text => output_text text | _ => part end
  end.

Definition normalizeCodexAssistantContent (content : any) : any :=
  match content with
  | AStr text => AArr [output_text text]
  | AArr parts => AArr (List.map normalizeCodexAssistantContentPart parts)
  | AMap _ => AArr [normalizeCodexAssistantContentPart content]
  | _ => content
  end.

Definition normalizeCodexAssistantInputItem (value : obj) : obj :=
  match value !! "content" with
  | Some content => <["content" := normalizeCodexAssistantContent content]> value
  | None => value
  end.

Definition marshalCodexCompactJSON (value : any) : result error string :=
  if encodable value then Ok (print_plain (json_of value))
  else Err (Wrapf "encode tool output: %w" [] (New "unsupported value")).

(** [fmt.Sprint] of the remaining kinds. *)
Definition Sprint (value : any) : string :=
  match value with
  | ABool b => if b then "true" else "false"
  | ANum x => SprintFloat x
  | AInt z => Itoa z
  | ALit lit => lit
  | _ => ""
  end.

Definition tool_part_text (part : any) : option string :=
  match part with
  | AStr text => Some text
  | _ => extractCodexTextContentPart part codexToolTextPartTypes
  end.

Definition normalizeCodexToolOutputValue (content : any) : result error string :=
  match content with
  | ANil => Ok ""
  | AStr text => Ok text
  | AArr parts =>
      match omap tool_part_text parts with
      | [] => marshalCodexCompactJSON content
      | texts => Ok (Join texts "")
      end
  | AMap _ =>
      match extractCodexTextContentPart content codexToolTextPartTypes with
      | Some text => Ok text
      | None => marshalCodexCompactJSON content
      end
  | _ => Ok (Sprint content)
  end.

Definition function_call_output (callID output : string) : obj :=
  list_to_map [("type", AStr "function_call_output"); ("call_id", AStr callID); ("output", AStr output)].

Definition normalizeCodexToolInputItem (value : obj) : result error obj :=
  let callID := firstNonEmptyCodexString [value !! "tool_call_id"; value !! "toolCallId"; value !! "call_id"] in
  if String.eqb callID "" then Err (New "tool input items must include 'tool_call_id'")
  else
    let outputValue := if is_nil (value !! "output") then value !! "content" else value !! "output" in
    output ← normalizeCodexToolOutputValue (default ANil outputValue);
    Ok (function_call_output callID output).

Definition normalizeCodexRoleInputItem (value : obj) : result error any :=
  let role := codexStringValue (value !! "role") in
  if String.eqb role "assistant" then Ok (AMap (normalizeCodexAssistantInputItem value))
  else if String.eqb role "tool" then o ← normalizeCodexToolInputItem value; Ok (AMap o)
  else Ok (AMap value).

Definition sanitize_fields (m : obj) : obj :=
  let m := drop_interleaved m in
  match m !! "content" ≫= sanitizeCodexContent with
  | Some content => <["content" := content]> m
  | None => delete "content" m
  end.

Definition sanitizeCodexInputItem (item : any) : result error any :=
  match item with
  | AMap m => normalizeCodexRoleInputItem (sanitize_fields m)
  | _ => Ok item
  end.

Fixpoint sanitizeCodexInputItems (items : list any) : result error (list any) :=
  match items with
  | [] => Ok []
  | item :: items' => x ← sanitizeCodexInputItem item; xs ← sanitizeCodexInputItems items'; Ok (x :: xs)
  end.

Definition normalizeCodexInput (payload : obj) : result error obj :=
  match payload !! "input" with
  | Some (AStr input) => Ok (<["input" := AArr [inputTextMessage input]]> payload)
  | Some (AArr input) =>
      if codexInputHasFileID input then Err (New "input_file.file_id is not supported")
      else sanitized ← sanitizeCodexInputItems input; Ok (<["input" := AArr sanitized]> payload)
  | _ => Err (New "responses request input must be a string or array")
  end.

(** ** Chat messages to input items (forwarder.go) *)

Fixpoint contentText (value : any) : string :=
  match value with
  | AStr v => v
  | AArr l => Join (List.filter (fun text => negb (String.eqb text "")) (List.map contentText l)) ""
  | AMap m =>
      match as_str (m !! "text"), as_str (m !! "refusal"), as_str (m !! "content") with
      | Some text, _, _ | None, Some text, _ | None, None, Some text => text
      | None, None, None => default "" (Marshal_any value)
      end
  | _ => ""
  end.

Definition content_text (v : option any) : string := contentText (default ANil v).

(** The instruction and the input items one message contributes. *)
Definition coerce_message (item : any) : list string * list any :=
  match item with
  | AMap msg =>
      let role := codexStringValue (msg !! "role") in
      let text := content_text (msg !! "content") in
      if String.eqb role "system" || String.eqb role "developer" then
        (if String.eqb text "" then [] else [text], [])
      else if String.eqb role "assistant" then
        ([], [obj_of [("role", AStr "assistant"); ("content", AArr [output_text text])]])
      else if String.eqb role "tool" then
        let callID := firstString [msg !! "tool_call_id"; msg !! "toolCallId"; msg !! "call_id"] in
        ([], if String.eqb callID "" then [] else [AMap (function_call_output callID text)])
      else ([], if String.eqb text "" then [] else [inputTextMessage text])
  | _ => ([], [])
  end.

Definition coerceMessages (instructions : string) (messages : list any) : string * list any :=
  let parts := if String.eqb (TrimSpace instructions) "" then [] else [instructions] in
  let coerced := List.map coerce_message messages in
  (Join (parts ++ List.concat (List.map fst coerced)) (String "010" (String "010" "")),
   List.concat (List.map snd coerced)).

(** ** Whole requests *)

Definition guard_that (b : bool) (e : error) : result error unit := if b then Ok tt else Err e.

(** The choice between messages and input; [what] is the kind of request in
    the error messages. *)
Definition choose_input (what : string) (mode : codexResponsesRequestMode) (payload : obj)
    (instructions : string) (messages : slice any) (hasMessages : bool)
    : result error (obj * string) :=
  let inputMissing := inputMissingOrEmpty (payload !! "input") in
  match mode with
  | codexResponsesOpenAICompat =>
      if hasMessages && negb inputMissing then
        Err (New (what +:+ " request must provide either messages or input, not both"))
      else if hasMessages then
        let '(coercedInstructions, input) := coerceMessages instructions (slice_list messages) in
        Ok (delete "messages" (<["input" := AArr input]>
              (<["instructions" := AStr coercedInstructions]> payload)), coercedInstructions)
      else if inputMissing then Err (New (what +:+ " request input or messages is required"))
      else Ok (payload, instructions)
  | codexResponsesNative =>
      if inputMissing then Err (New (what +:+ " request input is required")) else Ok (payload, instructions)
  end.

Definition store_must_be_false (what : string) (payload : obj) : result error unit :=
  store ← optionalCodexBool payload "store";
  guard_that (negb (bool_decide (store = Some true))) (New (what +:+ " request store must be false")).

Definition request_record (model : string) (messages : slice any) (instructions : string)
    (stream : option bool) (payload : obj) : codexResponsesRequest :=
  mkRequest model messages (payload !! "input") instructions
    (codexAnySlice (payload !! "tools")) (payload !! "tool_choice")
    (codexBoolPointer (payload !! "parallel_tool_calls")) (codexAnyMap (payload !! "reasoning"))
    false (bool_decide (stream = Some true)) (codexStringSlice (payload !! "include"))
    (codexStringValue (payload !! "service_tier")) (codexStringValue (payload !! "conversation"))
    (codexStringValue (payload !! "previous_response_id")) (codexStringValue (payload !! "truncation"))
    (codexStringValue (payload !! "prompt_cache_key")) (codexAnyMap (payload !! "text")) payload.

(** The checks before the input is looked at; they return the payload so far,
    the model, the instructions and the client's stream flag. *)
Definition check_fields (payload : obj) : result error (obj * string * string * option bool) :=
  _ ← validateCodexResponsesObjectFields payload;
  let payload := normalizeCodexOpenAICompatibleAliases payload in
  _ ← validateCodexResponsesScalarFields payload;
  let payload := normalizeCodexPreviousResponseID payload in
  _ ← validateCodexConversation payload;
  _ ← validateCodexTruncation payload;
  model ← requiredCodexString payload "model" "responses request model is required";
  '(payload, instructions) ← codexInstructions payload;
  stream ← optionalCodexBool payload "stream";
  _ ← store_must_be_false "responses" payload;
  _ ← validateCodexInclude payload;
  payload ← normalizeCodexTools payload;
  Ok (normalizeCodexToolChoice payload, model, instructions, stream).

Definition normalizeCodexResponsesPayloadMap (payload : option obj) (mode : codexResponsesRequestMode)
    : result error codexResponsesRequest :=
  match payload with
  | None => Err (New "responses request body must be an object")
  | Some payload =>
      '(payload, model, instructions, stream) ← check_fields payload;
      '(messages, hasMessages) ← codexMessages payload;
      '(payload, instructions) ← choose_input "responses" mode payload instructions messages hasMessages;
      payload ← normalizeCodexInput payload;
      let payload := <["stream" := ABool true]> (<["store" := ABool false]> payload) in
      let payload := stripCodexUnsupportedUpstreamFields payload in
      Ok (request_record model messages instructions stream payload)
  end.

Definition decode_failed (what : string) : error :=
  Wrapf ("decode " +:+ what +:+ " upstream request body: %w") [] (New "invalid JSON").

Definition decodeCodexResponsesRequest (data : string) (mode : codexResponsesRequestMode)
    : result error codexResponsesRequest :=
  match Unmarshal_map data with
  | None => Err (decode_failed "codex")
  | Some payload => normalizeCodexResponsesPayloadMap payload mode
  end.

Definition check_compact_fields (payload : obj) : result error (obj * string * string) :=
  _ ← validateCodexOptionalObject payload "reasoning" "compact request reasoning must be an object";
  let payload := normalizeCodexOpenAICompatibleAliases payload in
  _ ← validateCodexOptionalString payload "service_tier" "compact request service_tier must be a string";
  _ ← validateCodexOptionalString payload "prompt_cache_key" "compact request prompt_cache_key must be a string";
  model ← requiredCodexString payload "model" "compact request model is required";
  '(payload, instructions) ← codexInstructions payload;
  _ ← store_must_be_false "compact" payload;
  Ok (payload, model, instructions).

Definition decodeCodexResponsesCompactRequest (data : string) (mode : codexResponsesRequestMode)
    : result error codexResponsesCompactRequest :=
  match Unmarshal_map data with
  | None => Err (decode_failed "compact")
  | Some None => Err (New "compact request body must be an object")
  | Some (Some payload) =>
      '(payload, model, instructions) ← check_compact_fields payload;
      '(messages, hasMessages) ← codexMessages payload;
      '(payload, instructions) ← choose_input "compact" mode payload instructions messages hasMessages;
      payload ← normalizeCodexInput payload;
      let payload := delete "store" (stripCodexUnsupportedUpstreamFields payload) in
      Ok (mkCompact model messages (payload !! "input") instructions (codexAnyMap (payload !! "reasoning"))
            false (codexStringValue (payload !! "service_tier"))
            (codexStringValue (payload !! "prompt_cache_key")) payload)
  end.

Definition encode_payload (what : string) (payload : obj) : result error string :=
  match Marshal_any (AMap payload) with
  | Some encoded => Ok encoded
  | None => Err (Wrapf ("encode " +:+ what +:+ ": %w") [] (New "unsupported value"))
  end.

(** The body and whether the answer must be collected into one document. *)
Definition normalizeCodexResponsesBody (data : string) : result error (string * bool) :=
  req ← decodeCodexResponsesRequest data codexResponsesOpenAICompat;
  encoded ← encode_payload "codex upstream request body" (Payload req);
  Ok (encoded, negb (StreamRequested req)).

Definition normalizeNativeCodexResponsesBody (data : string) : result error string :=
  req ← decodeCodexResponsesRequest data codexResponsesNative;
  encode_payload "native codex upstream request body" (Payload req).

Definition normalizeCodexResponsesCompactBody (data : string) : result error string :=
  req ← decodeCodexResponsesCompactRequest data codexResponsesOpenAICompat;
  encode_payload "compact upstream request body" (CPayload req).

Definition normalizeNativeCodexResponsesCompactBody (data : string) : result error string :=
  req ← decodeCodexResponsesCompactRequest data codexResponsesNative;
  encode_payload "native compact upstream request body" (CPayload req).

Definition marshalNativeCodexResponsesPayload (payload : obj) : result error string :=
  req ← normalizeCodexResponsesPayloadMap (Some payload) codexResponsesNative;
  encode_payload "responses request" (Payload req).

Example normalize_ex :
  normalizeCodexResponsesBody (dq "{'model':'gpt','temperature':1,'verbosity':'low','input':'hi','tools':[{'type':'function','name':'b'},{'name':'a','type':'web_search_preview'}]}")
  = Ok (dq "{'input':[{'content':[{'text':'hi','type':'input_text'}],'role':'user'}],'instructions':'','model':'gpt','store':false,'stream':true,'text':{'verbosity':'low'},'tools':[{'name':'a','type':'web_search'},{'name':'b','type':'function'}]}", true).
Proof. vm_compute. reflexivity. Qed.

(** The conversion of messages keeps the output of a tool and drops the
    assistant's call it answers. *)
Example messages_ex :
  normalizeCodexResponsesBody (dq "{'model':'gpt','messages':[{'role':'system','content':'s'},{'role':'assistant','content':null,'tool_calls':[{'id':'c1','type':'function','function':{'name':'f','arguments':'{}'}}]},{'role':'tool','tool_call_id':'c1','content':'r'}]}")
  = Ok (dq "{'input':[{'content':[{'text':'','type':'output_text'}],'role':'assistant'},{'call_id':'c1','output':'r','type':'function_call_output'}],'instructions':'s','model':'gpt','store':false,'stream':true}", true).
Proof. vm_compute. reflexivity. Qed.
End codex.
