(* ===== verification/CodexProofs.v ===== *)
(** * CodexProofs: what the translated request bodies satisfy *)

From S2P Require Import Prelude GoLib GoHTTP GoJSON GoJSONProofs GoStrings GoAny Errors CodexRequest.
Import codex.

(** ** Go values *)

Lemma sort_id v : sortCodexJSONValue v = v.
Proof.
  induction v as [| | | | |l IH|m IH|] using any_rect'; try done; cbn [sortCodexJSONValue]; f_equal.
  - induction IH as [|x l Hx _ IHl]; [done|]. cbn. by rewrite Hx, IHl.
  - apply map_eq. intros k. rewrite lookup_fmap. destruct (m !! k) as [x|] eqn:E; [|done].
    cbn. f_equal. by apply (IH k).
Qed.

Lemma map_sort_id l : List.map sortCodexJSONValue l = l.
Proof. induction l as [|x l IH]; [done|]. cbn. by rewrite sort_id, IH. Qed.

(** Deleting what is absent, storing what is there. *)
Lemma filter_absent (l : gset string) (m : obj) :
  (forall k, k ∈ l -> m !! k = None) -> filter (fun kv => fst kv ∉ l) m = m.
Proof.
  intros H. apply map_filter_id. intros k x Hk Hin. cbn in Hin. by rewrite (H k Hin) in Hk.
Qed.

Lemma filter_lookup_in (l : gset string) (m : obj) k :
  k ∈ l -> filter (fun kv => fst kv ∉ l) m !! k = None.
Proof. intros Hk. apply map_lookup_filter_None. right. intros x _ Hn. cbn in Hn. by apply Hn. Qed.

Lemma filter_lookup_out (l : gset string) (m : obj) k :
  k ∉ l -> filter (fun kv => fst kv ∉ l) m !! k = m !! k.
Proof.
  intros Hk. destruct (m !! k) as [x|] eqn:E.
  - by apply map_lookup_filter_Some.
  - apply map_lookup_filter_None. by left.
Qed.

(** ** One input item is normalised once and for all *)

Lemma interleaved_drop m k : k ∈ codexInterleavedReasoningKeys -> drop_interleaved m !! k = None.
Proof. apply filter_lookup_in. Qed.

Lemma drop_interleaved_id m :
  (forall k, k ∈ codexInterleavedReasoningKeys -> m !! k = None) -> drop_interleaved m = m.
Proof. apply filter_absent. Qed.

Lemma drop_interleaved_idem m : drop_interleaved (drop_interleaved m) = drop_interleaved m.
Proof. apply drop_interleaved_id. intros k. apply interleaved_drop. Qed.

Ltac not_in_table := apply (bool_decide_unpack _); vm_compute; exact I.

Lemma drop_other m k :
  bool_decide (k ∉ codexInterleavedReasoningKeys) = true -> drop_interleaved m !! k = m !! k.
Proof. intros H%bool_decide_eq_true. by apply filter_lookup_out. Qed.

Lemma part_idem p q : sanitizeCodexContentPart p = Some q -> sanitizeCodexContentPart q = Some q.
Proof.
  destruct p as [| | | | | |m|]; cbn [sanitizeCodexContentPart]; try (by intros [= <-]).
  destruct (bool_decide _) eqn:E; [done|]. intros [= <-]. cbn [sanitizeCodexContentPart].
  by rewrite drop_other, E, drop_interleaved_idem.
Qed.

Definition parts_ok (l : list any) : Prop := Forall (fun p => sanitizeCodexContentPart p = Some p) l.

Lemma parts_idem l : parts_ok (omap sanitizeCodexContentPart l).
Proof.
  induction l as [|p l IH]; [constructor|]. cbn. destruct (sanitizeCodexContentPart p) eqn:E; [|done].
  constructor; [by eapply part_idem|done].
Qed.

Lemma parts_ok_id l : parts_ok l -> omap sanitizeCodexContentPart l = l.
Proof. induction 1 as [|p l Hp _ IH]; [done|]. cbn. by rewrite Hp, IH. Qed.

Lemma content_idem c d : sanitizeCodexContent c = Some d -> sanitizeCodexContent d = Some d.
Proof.
  destruct c as [| | | | |l|m|]; cbn [sanitizeCodexContent]; try (by intros [= <-]).
  - intros [= <-]. cbn. f_equal. f_equal. apply parts_ok_id, parts_idem.
  - intros H. pose proof (part_idem _ _ H) as H'. cbn [sanitizeCodexContentPart] in H.
    destruct (bool_decide _); [done|]. by injection H as <-.
Qed.

Lemma sanitize_fields_other m k :
  k <> "content" -> bool_decide (k ∉ codexInterleavedReasoningKeys) = true ->
  sanitize_fields m !! k = m !! k.
Proof.
  intros Hne Hk. unfold sanitize_fields. destruct (_ ≫= _).
  - by rewrite lookup_insert_ne, drop_other by done.
  - by rewrite lookup_delete_ne, drop_other by done.
Qed.

(** Fields and content of a sanitised item. *)
Definition fields_ok (m : obj) : Prop :=
  (forall k, k ∈ codexInterleavedReasoningKeys -> m !! k = None)
  /\ forall c, m !! "content" = Some c -> sanitizeCodexContent c = Some c.

Lemma sanitize_fields_ok m : fields_ok (sanitize_fields m).
Proof.
  assert (forall k, k ∈ codexInterleavedReasoningKeys -> k <> "content") as Hne.
  { intros k Hk ->. revert Hk. not_in_table. }
  split.
  - intros k Hk. unfold sanitize_fields.
    destruct (_ ≫= _); [rewrite lookup_insert_ne by (symmetry; auto)|rewrite lookup_delete_ne by (symmetry; auto)];
      by apply interleaved_drop.
  - intros c. unfold sanitize_fields. destruct (_ ≫= _) as [d|] eqn:E.
    + rewrite lookup_insert_eq. intros [= <-].
      destruct (drop_interleaved m !! "content"); [|done]. by eapply content_idem.
    + by rewrite lookup_delete_eq.
Qed.

Lemma fields_ok_id m : fields_ok m -> sanitize_fields m = m.
Proof.
  intros [Hk Hc]. unfold sanitize_fields. rewrite drop_interleaved_id by done.
  destruct (m !! "content") as [c|] eqn:E; cbn [mbind option_bind].
  - rewrite (Hc c eq_refl). by apply insert_id.
  - by apply delete_id.
Qed.

Lemma output_text_ok t : sanitizeCodexContentPart (output_text t) = Some (output_text t).
Proof.
  unfold output_text, obj_of. cbn [sanitizeCodexContentPart]. rewrite drop_interleaved_id; [done|].
  intros k Hk. cbn [list_to_map foldr uncurry fst snd].
  rewrite !lookup_insert_ne; [apply lookup_empty|..]; intros <-; revert Hk; not_in_table.
Qed.

Lemma assistant_part_text t : normalizeCodexAssistantContentPart (output_text t) = output_text t.
Proof. done. Qed.

Lemma assistant_part_idem p :
  normalizeCodexAssistantContentPart (normalizeCodexAssistantContentPart p)
  = normalizeCodexAssistantContentPart p.
Proof.
  unfold normalizeCodexAssistantContentPart at 2 3.
  destruct (extractCodexTextContentPart p _) as [t|] eqn:E; [done|].
  destruct p; try done. unfold normalizeCodexAssistantContentPart. by rewrite E.
Qed.

Lemma assistant_part_ok p :
  sanitizeCodexContentPart p = Some p ->
  sanitizeCodexContentPart (normalizeCodexAssistantContentPart p)
  = Some (normalizeCodexAssistantContentPart p).
Proof.
  intros Hp. unfold normalizeCodexAssistantContentPart.
  destruct (extractCodexTextContentPart p _); [apply output_text_ok|].
  destruct p; try done; apply output_text_ok.
Qed.

Lemma content_part_ok c :
  sanitizeCodexContent c = Some c -> match c with AMap m => sanitizeCodexContentPart c = Some c | _ => True end.
Proof. by destruct c. Qed.

Lemma content_parts_ok l : sanitizeCodexContent (AArr l) = Some (AArr l) -> parts_ok l.
Proof. cbn. intros [= E]. rewrite <- E. apply parts_idem. Qed.

Lemma assistant_content_ok c :
  sanitizeCodexContent c = Some c ->
  sanitizeCodexContent (normalizeCodexAssistantContent c) = Some (normalizeCodexAssistantContent c)
  /\ normalizeCodexAssistantContent (normalizeCodexAssistantContent c) = normalizeCodexAssistantContent c.
Proof.
  intros Hc. assert (forall l, parts_ok l -> sanitizeCodexContent (AArr l) = Some (AArr l)) as Hl
    by (intros l H; cbn; by rewrite parts_ok_id).
  destruct c as [| | | |s|l|m|]; try done; cbn [normalizeCodexAssistantContent].
  - apply content_parts_ok in Hc. split.
    + apply Hl, Forall_map. eapply Forall_impl; [exact Hc|]. intros p. apply assistant_part_ok.
    + f_equal. rewrite List.map_map. apply List.map_ext. apply assistant_part_idem.
  - apply content_part_ok in Hc. split.
    + apply Hl. constructor; [by apply assistant_part_ok|constructor].
    + cbn [List.map]. by rewrite assistant_part_idem.
Qed.

Lemma tool_item_spec m o :
  normalizeCodexToolInputItem m = Ok o -> exists callID output, o = function_call_output callID output.
Proof.
  unfold normalizeCodexToolInputItem. destruct (String.eqb _ ""); [done|].
  destruct (normalizeCodexToolOutputValue _) as [output|]; [|done]. intros [= <-]. eauto.
Qed.

Lemma function_call_output_ok callID output : fields_ok (function_call_output callID output).
Proof.
  unfold function_call_output. cbn [list_to_map foldr uncurry fst snd]. split.
  - intros k Hk. rewrite !lookup_insert_ne; [apply lookup_empty|..]; intros <-; revert Hk; not_in_table.
  - intros c. rewrite !lookup_insert_ne by done. by rewrite lookup_empty.
Qed.

Lemma item_idem x y : sanitizeCodexInputItem x = Ok y -> sanitizeCodexInputItem y = Ok y.
Proof.
  destruct x as [| | | | | |m|]; cbn [sanitizeCodexInputItem]; try (by intros [= <-]).
  pose proof (sanitize_fields_ok m) as Hm. set (m' := sanitize_fields m) in *. clearbody m'. clear m.
  unfold normalizeCodexRoleInputItem at 1. destruct (String.eqb _ "assistant") eqn:Ea; [|destruct (String.eqb _ "tool") eqn:Et].
  - intros [= <-]. unfold normalizeCodexAssistantInputItem.
    destruct (m' !! "content") as [c|] eqn:Ec; cbn [sanitizeCodexInputItem].
    + destruct Hm as [Hk Hc]. destruct (assistant_content_ok c (Hc c Ec)) as [H1 H2].
      rewrite fields_ok_id.
      * unfold normalizeCodexRoleInputItem, normalizeCodexAssistantInputItem.
        rewrite lookup_insert_ne, Ea, lookup_insert_eq, H2, insert_insert_eq by done. done.
      * split; [|by intros d; rewrite lookup_insert_eq; intros [= <-]].
        intros k Hin. rewrite lookup_insert_ne; [by apply Hk|]. intros <-. revert Hin. not_in_table.
    + rewrite fields_ok_id by done. unfold normalizeCodexRoleInputItem, normalizeCodexAssistantInputItem.
      by rewrite Ea, Ec.
  - destruct (normalizeCodexToolInputItem m') as [o|] eqn:Eo; [|done]. intros [= <-].
    apply tool_item_spec in Eo as (callID & output & ->).
    cbn [sanitizeCodexInputItem]. by rewrite fields_ok_id by apply function_call_output_ok.
  - intros [= <-]. cbn [sanitizeCodexInputItem]. rewrite fields_ok_id by done.
    unfold normalizeCodexRoleInputItem. by rewrite Ea, Et.
Qed.

Definition item_ok (x : any) : Prop := sanitizeCodexInputItem x = Ok x /\ item_has_file_id x = false.

(** ** No file id survives *)

Lemma file_id_fields m m' :
  m' !! "type" = m !! "type" -> m' !! "file_id" = m !! "file_id" ->
  isCodexInputFileWithID m' = isCodexInputFileWithID m.
Proof. unfold isCodexInputFileWithID. by intros -> ->. Qed.

Lemma part_file_id p q : sanitizeCodexContentPart p = Some q -> part_has_file_id q = part_has_file_id p.
Proof.
  destruct p as [| | | | | |m|]; cbn [sanitizeCodexContentPart]; try (by intros [= <-]).
  destruct (bool_decide _); [done|]. intros [= <-]. cbn.
  by apply file_id_fields; apply drop_other.
Qed.

Lemma assistant_part_file_id p :
  part_has_file_id p = false -> part_has_file_id (normalizeCodexAssistantContentPart p) = false.
Proof.
  intros Hp. unfold normalizeCodexAssistantContentPart.
  destruct (extractCodexTextContentPart p _); [done|]. by destruct p.
Qed.

(** The parts of an item's content that are looked at. *)
Definition content_file_id (c : option any) : bool :=
  match c with
  | Some (AArr parts) => existsb part_has_file_id parts
  | Some (AMap part) => isCodexInputFileWithID part
  | _ => false
  end.

Lemma content_file_id_sanitized c d :
  sanitizeCodexContent c = Some d -> content_file_id (Some c) = false -> content_file_id (Some d) = false.
Proof.
  destruct c as [| | | | |l|m|]; cbn [sanitizeCodexContent]; try (by intros [= <-]).
  - intros [= <-]. cbn. induction l as [|p l IH]; [done|]. cbn. rewrite orb_false_iff. intros [Hp Hl].
    destruct (sanitizeCodexContentPart p) as [q|] eqn:E; [|auto]. cbn.
    rewrite (part_file_id _ _ E), Hp. auto.
  - intros H Hm. pose proof (part_file_id _ _ H) as Hf. cbn [sanitizeCodexContentPart] in H.
    destruct (bool_decide _); [done|]. injection H as <-. cbn in *. by rewrite Hf.
Qed.

Lemma content_file_id_assistant c :
  content_file_id (Some c) = false -> content_file_id (Some (normalizeCodexAssistantContent c)) = false.
Proof.
  destruct c as [| | | | |l|m|]; cbn [normalizeCodexAssistantContent content_file_id]; try done.
  - induction l as [|p l IH]; [done|]. cbn. rewrite !orb_false_iff. intros [Hp Hl].
    split; [by apply assistant_part_file_id|auto].
  - intros H. cbn [existsb]. rewrite orb_false_r. by apply assistant_part_file_id.
Qed.

Lemma item_file_id x y :
  sanitizeCodexInputItem x = Ok y -> item_has_file_id x = false -> item_has_file_id y = false.
Proof.
  destruct x as [| | | | | |m|]; cbn [sanitizeCodexInputItem]; try (by intros [= <-]).
  intros H Hx. cbn [item_has_file_id] in Hx. apply orb_false_iff in Hx as [Hm Hc].
  change (content_file_id (m !! "content") = false) in Hc.
  assert (isCodexInputFileWithID (sanitize_fields m) = false) as Hm'
    by (rewrite <- Hm; by apply file_id_fields; apply sanitize_fields_other).
  assert (content_file_id (sanitize_fields m !! "content") = false) as Hc'.
  { unfold sanitize_fields. rewrite drop_other by done.
    destruct (m !! "content") as [c|]; cbn [mbind option_bind]; [|by rewrite lookup_delete_eq].
    destruct (sanitizeCodexContent c) eqn:E; [rewrite lookup_insert_eq|by rewrite lookup_delete_eq].
    by eapply content_file_id_sanitized. }
  set (m' := sanitize_fields m) in *. clearbody m'. clear Hm Hc m.
  revert H. unfold normalizeCodexRoleInputItem. destruct (String.eqb _ "assistant"); [|destruct (String.eqb _ "tool")].
  - intros [= <-]. unfold normalizeCodexAssistantInputItem.
    destruct (m' !! "content") as [c|] eqn:Ec; cbn [item_has_file_id]; [|by rewrite Hm', Ec].
    rewrite lookup_insert_eq. apply orb_false_iff. split.
    + rewrite <- Hm'. by apply file_id_fields; rewrite lookup_insert_ne.
    + by apply (content_file_id_assistant c).
  - destruct (normalizeCodexToolInputItem m') as [o|] eqn:Eo; [|done]. intros [= <-].
    apply tool_item_spec in Eo as (callID & output & ->). done.
  - intros [= <-]. cbn [item_has_file_id]. rewrite Hm'. exact Hc'.
Qed.

Lemma items_ok l l' :
  sanitizeCodexInputItems l = Ok l' -> codexInputHasFileID l = false -> Forall item_ok l'.
Proof.
  revert l'. induction l as [|x l IH]; intros l'; cbn [sanitizeCodexInputItems]; [by intros [= <-]|].
  destruct (sanitizeCodexInputItem x) as [y|] eqn:Ex; [|done]. cbn [mbind result_bind].
  destruct (sanitizeCodexInputItems l) as [ys|]; [|done]. intros [= <-].
  cbn [codexInputHasFileID existsb]. rewrite orb_false_iff. intros [Hx Hl].
  constructor; [split; [by eapply item_idem|by eapply item_file_id]|by apply IH].
Qed.

Lemma items_ok_id l :
  Forall item_ok l -> sanitizeCodexInputItems l = Ok l /\ codexInputHasFileID l = false.
Proof.
  induction 1 as [|x l [Hx Hf] _ [IH1 IH2]]; [done|]. cbn [sanitizeCodexInputItems codexInputHasFileID existsb].
  rewrite Hx. cbn [mbind result_bind]. rewrite IH1, Hf. done.
Qed.

(** ** Tools *)

Definition tool_ok (tool : any) : Prop :=
  match tool with
  | AMap t => rename_preview t = t /\ codexStringValue (t !! "type") ∉ codexUnsupportedToolTypes
  | _ => True
  end.

Lemma rename_preview_idem t : rename_preview (rename_preview t) = rename_preview t.
Proof.
  unfold rename_preview. destruct (bool_decide (as_str (t !! "type") = _)) eqn:E; [|by rewrite E].
  rewrite lookup_insert_eq. by rewrite bool_decide_eq_false_2 by done.
Qed.

Lemma normalize_tool_list_ok l l' : normalize_tool_list l = Ok l' -> Forall tool_ok l'.
Proof.
  revert l'. induction l as [|x l IH]; intros l'; [by intros [= <-]|].
  assert (forall y, tool_ok y -> (rest ← normalize_tool_list l; Ok (y :: rest)) = Ok l' -> Forall tool_ok l') as Hcons.
  { intros y Hy. destruct (normalize_tool_list l) as [rest|]; [|done]. intros [= <-]. by constructor; [|apply IH]. }
  destruct x as [| | | | | |t|]; cbn [normalize_tool_list]; try (by apply Hcons).
  destruct (bool_decide _) eqn:E; [done|]. apply bool_decide_eq_false in E.
  apply Hcons. split; [apply rename_preview_idem|exact E].
Qed.

Lemma normalize_tool_list_id l : Forall tool_ok l -> normalize_tool_list l = Ok l.
Proof.
  induction 1 as [|x l Hx _ IH]; [done|].
  destruct x as [| | | | | |t|]; cbn [normalize_tool_list]; rewrite ?IH; try done.
  destruct Hx as [-> Hx]. by rewrite bool_decide_eq_false_2.
Qed.

(** ** Steps that touch few keys *)

Definition agree (K : gset string) (p q : obj) : Prop := forall k, k ∉ K -> q !! k = p !! k.

Lemma agree_refl K p : agree K p p. Proof. done. Qed.
Lemma agree_trans K p q r : agree K p q -> agree K q r -> agree K p r.
Proof. intros H1 H2 k Hk. by rewrite H2, H1. Qed.
Lemma agree_weaken K K' p q : K ⊆ K' -> agree K p q -> agree K' p q.
Proof. intros HK H k Hk. apply H. set_solver. Qed.
Lemma subset_by_elements (K K' : gset string) :
  forallb (fun k => bool_decide (k ∈ K')) (elements K) = true -> K ⊆ K'.
Proof.
  rewrite forallb_forall. intros H k Hk. apply elem_of_elements, list_elem_of_In in Hk.
  by specialize (H k Hk); apply bool_decide_eq_true in H.
Qed.
Lemma agree_insert K k v p : k ∈ K -> agree K p (<[k := v]> p).
Proof. intros Hk k' Hk'. rewrite lookup_insert_ne; [done|]. by intros ->. Qed.
Lemma agree_delete K k p : k ∈ K -> agree K p (delete k p).
Proof. intros Hk k' Hk'. rewrite lookup_delete_ne; [done|]. by intros ->. Qed.

Ltac in_table :=
  lazymatch goal with
  | |- _ ⊆ _ => apply subset_by_elements; vm_compute; reflexivity
  | |- _ => apply (bool_decide_unpack _); vm_compute; exact I
  end.

Lemma agree_move K from to p : from ∈ K -> to ∈ K -> agree K p (moveCodexStringAlias from to p).
Proof.
  intros Hf Ht. unfold moveCodexStringAlias. destruct (p !! from) as [v|]; [|done].
  destruct (delete from p !! to), v; try (by apply agree_delete).
  eapply agree_trans; [by apply (agree_delete K from)|by apply agree_insert].
Qed.

Lemma move_from from to p : from <> to -> moveCodexStringAlias from to p !! from = None.
Proof.
  intros Hne. unfold moveCodexStringAlias. destruct (p !! from) as [v|] eqn:E; [|done].
  destruct (delete from p !! to), v; rewrite ?lookup_insert_ne by done; apply lookup_delete_eq.
Qed.

Lemma move_id from to p : p !! from = None -> moveCodexStringAlias from to p = p.
Proof. unfold moveCodexStringAlias. by intros ->. Qed.

Lemma agree_nested K from to st : from ∈ K -> agree K (fst st) (fst (moveCodexNestedStringAlias from to st)).
Proof.
  intros Hf. destruct st as [p t]. cbn. destruct (p !! from) as [v|]; [|done].
  destruct (t !! to), v; by apply agree_delete.
Qed.

Lemma nested_other from to st k :
  k <> from -> fst (moveCodexNestedStringAlias from to st) !! k = fst st !! k.
Proof. intros Hk. apply (agree_nested {[ from ]}); [by apply elem_of_singleton|by rewrite elem_of_singleton]. Qed.

Lemma nested_from from to st : fst (moveCodexNestedStringAlias from to st) !! from = None.
Proof.
  destruct st as [p t]. cbn. destruct (p !! from) as [v|] eqn:E; [|done].
  destruct (t !! to), v; apply lookup_delete_eq.
Qed.

Lemma nested_id from to st : fst st !! from = None -> moveCodexNestedStringAlias from to st = st.
Proof. destruct st as [p t]. cbn. by intros ->. Qed.

(** The target only gains a string under [to]. *)
Lemma nested_target from to st k :
  k <> to -> snd (moveCodexNestedStringAlias from to st) !! k = snd st !! k.
Proof.
  intros Hk. destruct st as [p t]. cbn. destruct (p !! from) as [v|]; [|done].
  destruct (t !! to), v; cbn; try done. by rewrite lookup_insert_ne.
Qed.

Lemma agree_section K key st : key ∈ K -> agree K (fst st) (store_section key st).
Proof. intros Hk. destruct st as [p t]. cbn. destruct (bool_decide _); [done|by apply agree_insert]. Qed.

Lemma section_lookup key st :
  store_section key st !! key = if bool_decide (snd st = ∅) then fst st !! key else Some (AMap (snd st)).
Proof. destruct st as [p t]. cbn. destruct (bool_decide _); [done|]. apply lookup_insert_eq. Qed.

(** Two aliases and the section they go to. *)
Lemma agree_aliased K key f1 t1 f2 t2 p s :
  f1 ∈ K -> f2 ∈ K -> key ∈ K ->
  agree K p (store_section key (moveCodexNestedStringAlias f2 t2 (moveCodexNestedStringAlias f1 t1 (p, s)))).
Proof.
  intros H1 H2 Hk.
  set (st1 := moveCodexNestedStringAlias f1 t1 (p, s)).
  assert (agree K p (fst st1)) as A1 by exact (agree_nested K f1 t1 (p, s) H1). clearbody st1.
  set (st2 := moveCodexNestedStringAlias f2 t2 st1).
  assert (agree K (fst st1) (fst st2)) as A2 by exact (agree_nested K f2 t2 st1 H2). clearbody st2.
  eapply agree_trans; [exact A1|]. eapply agree_trans; [exact A2|]. exact (agree_section K key st2 Hk).
Qed.

Lemma aliased_gone key f1 t1 f2 t2 st k :
  k = f1 \/ k = f2 -> k <> key ->
  store_section key (moveCodexNestedStringAlias f2 t2 (moveCodexNestedStringAlias f1 t1 st)) !! k = None.
Proof.
  intros Hf Hk.
  rewrite (agree_section {[key]} key) by set_solver.
  destruct (decide (k = f2)) as [-> |Hne]; [apply nested_from|].
  destruct Hf as [-> |]; [|done].
  rewrite (agree_nested {[f2]} f2) by set_solver. apply nested_from.
Qed.

(** Storing the section that was read changes nothing. *)
Lemma section_id key p : store_section key (p, default ∅ (codexAnyMap (p !! key))) = p.
Proof.
  cbn. destruct (codexAnyMap (p !! key)) as [m|] eqn:E; cbn [default]; [|by rewrite bool_decide_eq_true_2].
  destruct (bool_decide _); [done|]. apply insert_id. unfold codexAnyMap, as_map in E.
  destruct (p !! key) as [[]|]; try done. by injection E as ->.
Qed.

Definition alias_keys : gset string :=
  text_set ["promptCacheKey"; "promptCacheRetention"; "reasoningEffort"; "reasoningSummary";
            "textVerbosity"; "verbosity"].
Definition alias_touched : gset string :=
  alias_keys ∪ text_set ["prompt_cache_key"; "prompt_cache_retention"; "reasoning"; "text"; "service_tier"].

(** The steps of [normalizeCodexOpenAICompatibleAliases]. *)
Section aliases.
Variable p : obj.
Let q1 := moveCodexStringAlias "promptCacheRetention" "prompt_cache_retention"
            (moveCodexStringAlias "promptCacheKey" "prompt_cache_key" p).
Let r1 := moveCodexNestedStringAlias "reasoningSummary" "summary"
            (moveCodexNestedStringAlias "reasoningEffort" "effort"
               (q1, default ∅ (codexAnyMap (q1 !! "reasoning")))).
Let q2 := store_section "reasoning" r1.
Let t1 := moveCodexNestedStringAlias "verbosity" "verbosity"
            (moveCodexNestedStringAlias "textVerbosity" "verbosity"
               (q2, default ∅ (codexAnyMap (q2 !! "text")))).
Let q3 := store_section "text" t1.

Lemma agree_tier K q : "service_tier" ∈ K ->
  agree K q (match as_str (q !! "service_tier") with
             | Some tier => if EqualFold (TrimSpace tier) "fast"
                            then <["service_tier" := AStr "priority"]> q else q
             | None => q end).
Proof.
  intros HK. destruct (as_str _); [|done]. destruct (EqualFold _ _); [by apply agree_insert|done].
Qed.

Lemma tier_other (q : obj) k : k <> "service_tier" ->
  (match as_str (q !! "service_tier") with
  | Some tier => if EqualFold (TrimSpace tier) "fast" then <["service_tier" := AStr "priority"]> q else q
  | None => q
  end : obj) !! k = q !! k.
Proof.
  intros Hk. apply (agree_tier {[ "service_tier" ]}); [by apply elem_of_singleton|by rewrite elem_of_singleton].
Qed.

Lemma aliases_eq :
  normalizeCodexOpenAICompatibleAliases p
  = match as_str (q3 !! "service_tier") with
    | Some tier => if EqualFold (TrimSpace tier) "fast"
                   then <["service_tier" := AStr "priority"]> q3 else q3
    | None => q3
    end.
Proof. reflexivity. Qed.

Lemma q1_agree : agree (text_set ["promptCacheKey"; "promptCacheRetention"; "prompt_cache_key"; "prompt_cache_retention"]) p q1.
Proof. eapply agree_trans; apply agree_move; in_table. Qed.

Lemma q2_agree : agree (text_set ["reasoningEffort"; "reasoningSummary"; "reasoning"]) q1 q2.
Proof. apply agree_aliased; in_table. Qed.

Lemma q3_agree : agree (text_set ["textVerbosity"; "verbosity"; "text"]) q2 q3.
Proof. apply agree_aliased; in_table. Qed.

Lemma aliases_agree : agree alias_touched p (normalizeCodexOpenAICompatibleAliases p).
Proof.
  rewrite aliases_eq. eapply agree_trans; [|apply agree_tier; in_table].
  eapply agree_trans; [eapply agree_weaken; [|apply q1_agree]; in_table|].
  eapply agree_trans; [eapply agree_weaken; [|apply q2_agree]; in_table|].
  eapply agree_weaken; [|apply q3_agree]. in_table.
Qed.

Lemma q1_gone k : k ∈ text_set ["promptCacheKey"; "promptCacheRetention"] -> q1 !! k = None.
Proof.
  unfold text_set. rewrite elem_of_list_to_set, !elem_of_cons. intros [-> | [-> | []%elem_of_nil]].
  - unfold q1. rewrite (agree_move (text_set ["promptCacheRetention"; "prompt_cache_retention"])) by (in_table || not_in_table).
    by apply move_from.
  - by apply move_from.
Qed.

Lemma q3_gone k : k ∈ alias_keys -> q3 !! k = None.
Proof.
  unfold alias_keys, text_set. rewrite elem_of_list_to_set, !elem_of_cons.
  intros [-> | [-> | [-> | [-> | [-> | [-> | []%elem_of_nil]]]]]].
  1,2: rewrite q3_agree, q2_agree by not_in_table; apply q1_gone; in_table.
  1,2: rewrite q3_agree by not_in_table; apply aliased_gone; [tauto|done].
  all: apply aliased_gone; [tauto|done].
Qed.

Lemma aliases_gone k : k ∈ alias_keys -> normalizeCodexOpenAICompatibleAliases p !! k = None.
Proof.
  intros Hk. rewrite aliases_eq, tier_other by (intros ->; revert Hk; not_in_table).
  by apply q3_gone.
Qed.

(** The service tier is never left as an alias of [priority]. *)
Lemma aliases_tier t :
  normalizeCodexOpenAICompatibleAliases p !! "service_tier" = Some (AStr t) ->
  EqualFold (TrimSpace t) "fast" = false.
Proof.
  rewrite aliases_eq. destruct (as_str (q3 !! "service_tier")) as [tier|] eqn:E.
  - destruct (EqualFold (TrimSpace tier) "fast") eqn:Ef.
    + rewrite lookup_insert_eq. intros [= <-]. reflexivity.
    + intros H. rewrite H in E. injection E as ->. done.
  - intros H. by rewrite H in E.
Qed.

Lemma aliases_section key :
  key = "reasoning" \/ key = "text" ->
  exists s, normalizeCodexOpenAICompatibleAliases p !! key
            = (if bool_decide (s = ∅) then p !! key else Some (AMap s))
    /\ s !! "format" = default ∅ (codexAnyMap (p !! key)) !! "format".
Proof.
  assert (forall f1 a1 f2 a2 q, a1 <> "format" -> a2 <> "format" ->
    exists s, store_section key (moveCodexNestedStringAlias f2 a2 (moveCodexNestedStringAlias f1 a1
                (q, default ∅ (codexAnyMap (q !! key))))) !! key
              = (if bool_decide (s = ∅) then
                   fst (moveCodexNestedStringAlias f2 a2 (moveCodexNestedStringAlias f1 a1
                     (q, default ∅ (codexAnyMap (q !! key))))) !! key
                 else Some (AMap s))
      /\ s !! "format" = default ∅ (codexAnyMap (q !! key)) !! "format") as H.
  { intros f1 a1 f2 a2 q H1 H2. eexists. split; [apply section_lookup|].
    by rewrite !nested_target by done. }
  intros Hkey. rewrite aliases_eq, tier_other by (by destruct Hkey as [-> | ->]).
  destruct Hkey as [-> | ->].
  - rewrite q3_agree by not_in_table. destruct (H "reasoningEffort" "effort" "reasoningSummary" "summary" q1) as (s & E & Ef); [done..|].
    exists s. fold r1 in E. fold q2 in E. rewrite E. unfold r1.
    rewrite !nested_other by done. cbn [fst].
    rewrite q1_agree in Ef |- * by not_in_table. done.
  - destruct (H "textVerbosity" "verbosity" "verbosity" "verbosity" q2) as (s & E & Ef); [done..|].
    exists s. fold t1 in E. fold q3 in E. rewrite E. unfold t1.
    rewrite !nested_other by done. cbn [fst].
    rewrite q2_agree, q1_agree in Ef by not_in_table. rewrite q2_agree, q1_agree by not_in_table. done.
Qed.
End aliases.

(** ** The checks before the input *)

Lemma validate_object_iff p f m :
  validateCodexOptionalObject p f m = Ok tt <-> is_nil (p !! f) = true \/ exists o, p !! f = Some (AMap o).
Proof.
  unfold validateCodexOptionalObject. destruct (is_nil (p !! f)) eqn:E; [tauto|].
  destruct (p !! f) as [[]|]; cbn; naive_solver.
Qed.

Lemma validate_string_iff p f m :
  validateCodexOptionalString p f m = Ok tt <-> is_nil (p !! f) = true \/ exists s, p !! f = Some (AStr s).
Proof.
  unfold validateCodexOptionalString. destruct (is_nil (p !! f)) eqn:E; [tauto|].
  destruct (p !! f) as [[]|]; cbn; naive_solver.
Qed.

(** What the checks establish on the fields no later step touches. *)
Record checked (P : obj) (model : string) : Prop := {
  ck_aliases : forall k, k ∈ alias_keys -> P !! k = None;
  ck_objects : validateCodexResponsesObjectFields P = Ok tt;
  ck_scalars : validateCodexResponsesScalarFields P = Ok tt;
  ck_tier : forall t, P !! "service_tier" = Some (AStr t) -> EqualFold (TrimSpace t) "fast" = false;
  ck_previous : forall t, P !! "previous_response_id" = Some (AStr t) -> TrimSpace t = t /\ t <> "";
  ck_context : validateCodexConversation P = Ok tt;
  ck_truncation : validateCodexTruncation P = Ok tt;
  ck_model : requiredCodexString P "model" "responses request model is required" = Ok model;
  ck_include : validateCodexInclude P = Ok tt;
  ck_choice : forall c, P !! "tool_choice" = Some (AMap c) -> rename_preview c = c;
}.

Definition checked_keys : gset string :=
  alias_keys ∪ text_set ["reasoning"; "text"; "service_tier"; "conversation"; "previous_response_id";
    "prompt_cache_key"; "tool_choice"; "truncation"; "model"; "include"].

Lemma checked_agree K P Q model :
  (forall k, k ∈ checked_keys -> k ∉ K) -> agree K P Q -> checked P model -> checked Q model.
Proof.
  intros HK Ha [].
  assert (forall k, k ∈ checked_keys -> Q !! k = P !! k) as E by auto. clear HK Ha.
  assert (forall k, bool_decide (k ∈ checked_keys) = true -> Q !! k = P !! k) as E'
    by (intros k Hk%bool_decide_eq_true; auto).
  clear E.
  pose proof (E' "reasoning" eq_refl). pose proof (E' "text" eq_refl). pose proof (E' "service_tier" eq_refl).
  pose proof (E' "conversation" eq_refl). pose proof (E' "previous_response_id" eq_refl).
  pose proof (E' "prompt_cache_key" eq_refl). pose proof (E' "tool_choice" eq_refl).
  pose proof (E' "truncation" eq_refl). pose proof (E' "model" eq_refl). pose proof (E' "include" eq_refl).
  constructor; unfold validateCodexResponsesObjectFields, validateCodexResponsesScalarFields,
    validateCodexOptionalObject, validateCodexOptionalString, validateCodexToolChoice,
    validateCodexConversation, validateCodexTruncation, requiredCodexString, validateCodexInclude in *;
    repeat match goal with H : Q !! ?k = P !! ?k |- context [Q !! ?k] => rewrite H end; try assumption.
  intros k Hk. rewrite E'; [auto|]. apply bool_decide_eq_true. by apply elem_of_union_l.
Qed.

Lemma bind_ok {A B} (m : result error A) (f : A -> result error B) b :
  m ≫= f = Ok b -> exists a, m = Ok a /\ f a = Ok b.
Proof. destruct m as [a|]; [eauto|done]. Qed.

Lemma previous_agree p : agree {[ "previous_response_id" ]} p (normalizeCodexPreviousResponseID p).
Proof.
  unfold normalizeCodexPreviousResponseID. destruct (as_str _); [|done].
  destruct (String.eqb _ ""); [apply agree_delete|apply agree_insert]; by apply elem_of_singleton.
Qed.

Lemma previous_value p t :
  normalizeCodexPreviousResponseID p !! "previous_response_id" = Some (AStr t) -> TrimSpace t = t /\ t <> "".
Proof.
  unfold normalizeCodexPreviousResponseID. destruct (as_str _) as [text|] eqn:E.
  - destruct (String.eqb_spec (TrimSpace text) ""); [by rewrite lookup_delete_eq|].
    rewrite lookup_insert_eq. intros [= <-]. by rewrite TrimSpace_idem.
  - intros H. by rewrite H in E.
Qed.

Lemma previous_string p :
  (is_nil (p !! "previous_response_id") = true \/ exists s, p !! "previous_response_id" = Some (AStr s)) ->
  is_nil (normalizeCodexPreviousResponseID p !! "previous_response_id") = true
  \/ exists s, normalizeCodexPreviousResponseID p !! "previous_response_id" = Some (AStr s).
Proof.
  unfold normalizeCodexPreviousResponseID. destruct (as_str _) as [text|] eqn:E; [|done].
  destruct (String.eqb _ ""); [left; by rewrite lookup_delete_eq|right].
  eexists. by rewrite lookup_insert_eq.
Qed.

Lemma objects_aliases p :
  validateCodexResponsesObjectFields p = Ok tt ->
  validateCodexResponsesObjectFields (normalizeCodexOpenAICompatibleAliases p) = Ok tt.
Proof.
  unfold validateCodexResponsesObjectFields.
  intros ([] & H1 & ([] & H2 & H3)%bind_ok)%bind_ok.
  apply validate_object_iff in H1, H2.
  destruct (aliases_section p "reasoning") as (s & E & _); [by left|].
  destruct (aliases_section p "text") as (t & Et & Ef); [by right|].
  assert (forall f m, validateCodexOptionalObject (normalizeCodexOpenAICompatibleAliases p) f m = Ok tt
          \/ (f <> "reasoning" /\ f <> "text")) as Hv.
  { intros f m. destruct (decide (f = "reasoning")) as [-> |]; [left|destruct (decide (f = "text")) as [-> |]; [left|by right]];
      apply validate_object_iff.
    - rewrite E. destruct (bool_decide (s = ∅)); eauto.
    - rewrite Et. destruct (bool_decide (t = ∅)); eauto. }
  destruct (Hv "reasoning" "responses request reasoning must be an object") as [-> |[]]; [|done].
  destruct (Hv "text" "responses request text must be an object") as [-> |[]]; [|done].
  cbn [mbind result_bind]. rewrite Et. destruct (bool_decide (t = ∅)) eqn:Eb; [done|]. cbn [codexAnyMap as_map].
  apply validate_object_iff. rewrite Ef. destruct (codexAnyMap (p !! "text")) as [o|]; cbn [default].
  - by apply validate_object_iff in H3.
  - left. by rewrite lookup_empty.
Qed.

Lemma instructions_inv p q t :
  codexInstructions p = Ok (q, t) ->
  agree {[ "instructions" ]} p q /\ q !! "instructions" = Some (AStr t).
Proof.
  unfold codexInstructions. destruct (is_nil _).
  - intros [= <- <-]. split; [by apply agree_insert, elem_of_singleton|apply lookup_insert_eq].
  - destruct (as_str _) as [s|] eqn:E; [|done]. intros [= <- <-]. split; [done|].
    by destruct (p !! "instructions") as [[]|]; try done; injection E as ->.
Qed.

(** The tools of a payload: absent, or a list of acceptable ones. *)
Definition tools_ok (P : obj) : Prop :=
  is_nil (P !! "tools") = true \/ exists tools, P !! "tools" = Some (AArr tools) /\ Forall tool_ok tools.

Lemma tools_inv p q : normalizeCodexTools p = Ok q -> agree {[ "tools" ]} p q /\ tools_ok q.
Proof.
  unfold normalizeCodexTools. destruct (is_nil _) eqn:En; [intros [= <-]; split; [done|by left]|].
  destruct (as_arr _) as [l|]; [|done]. intros (l' & Hl & [= <-])%bind_ok.
  split; [by apply agree_insert, elem_of_singleton|]. right. exists l'.
  split; [apply lookup_insert_eq|by eapply normalize_tool_list_ok].
Qed.

Lemma choice_agree p : agree {[ "tool_choice" ]} p (normalizeCodexToolChoice p).
Proof.
  unfold normalizeCodexToolChoice. destruct (as_map _); [|done]. by apply agree_insert, elem_of_singleton.
Qed.

Lemma choice_value p c :
  normalizeCodexToolChoice p !! "tool_choice" = Some (AMap c) -> rename_preview c = c.
Proof.
  unfold normalizeCodexToolChoice. destruct (as_map _) as [m|] eqn:E.
  - rewrite lookup_insert_eq. intros [= <-]. apply rename_preview_idem.
  - intros H. by rewrite H in E.
Qed.

Lemma choice_valid p :
  validateCodexToolChoice p = Ok tt -> validateCodexToolChoice (normalizeCodexToolChoice p) = Ok tt.
Proof.
  unfold normalizeCodexToolChoice. destruct (as_map _) as [m|] eqn:E; [|done].
  intros _. unfold validateCodexToolChoice. by rewrite lookup_insert_eq.
Qed.

Lemma scalars_inv p :
  validateCodexResponsesScalarFields p = Ok tt <->
  (forall k, k ∈ ["service_tier"; "conversation"; "previous_response_id"; "prompt_cache_key"] ->
     is_nil (p !! k) = true \/ exists s, p !! k = Some (AStr s))
  /\ validateCodexToolChoice p = Ok tt.
Proof.
  unfold validateCodexResponsesScalarFields. split.
  - intros ([] & H1 & ([] & H2 & ([] & H3 & ([] & H4 & H5)%bind_ok)%bind_ok)%bind_ok)%bind_ok.
    apply validate_string_iff in H1, H2, H3, H4. split; [|done]. intros k.
    rewrite !elem_of_cons, elem_of_nil. by intros [-> | [-> | [-> | [-> |[]]]]].
  - intros [H Ht].
    assert (forall k m, k ∈ ["service_tier"; "conversation"; "previous_response_id"; "prompt_cache_key"] ->
              validateCodexOptionalString p k m = Ok tt) as Hv
      by (intros k m Hk; apply validate_string_iff; auto).
    rewrite !Hv by (rewrite !elem_of_cons; tauto). done.
Qed.

Definition check_touched : gset string :=
  alias_touched ∪ text_set ["previous_response_id"; "instructions"; "tools"; "tool_choice"].

Ltac agree_at H := rewrite H by first [rewrite elem_of_singleton; discriminate | not_in_table].

(** The steps between the aliases and the tool choice, one after the other. *)
Section check_steps.
Context (p1 p2 p3 p4 p5 : obj).
Context (A2 : agree {[ "previous_response_id" ]} p1 p2) (A3 : agree {[ "instructions" ]} p2 p3).
Context (A4 : agree {[ "tools" ]} p3 p4) (A5 : agree {[ "tool_choice" ]} p4 p5).

Lemma steps_other k :
  k ∉ text_set ["previous_response_id"; "instructions"; "tools"; "tool_choice"] -> p5 !! k = p1 !! k.
Proof.
  unfold text_set. rewrite elem_of_list_to_set, !elem_of_cons, elem_of_nil. intros Hk.
  rewrite A5, A4, A3, A2 by (rewrite elem_of_singleton; tauto). done.
Qed.

Lemma steps_previous : p5 !! "previous_response_id" = p2 !! "previous_response_id".
Proof. agree_at A5. agree_at A4. agree_at A3. done. Qed.

Lemma steps_context : validateCodexConversation p5 = validateCodexConversation p2.
Proof.
  unfold validateCodexConversation. rewrite steps_previous, (A5 "conversation"), (A4 "conversation"), (A3 "conversation")
    by (rewrite elem_of_singleton; discriminate). done.
Qed.

Lemma steps_scalars :
  validateCodexResponsesScalarFields p1 = Ok tt ->
  (is_nil (p2 !! "previous_response_id") = true \/ exists s, p2 !! "previous_response_id" = Some (AStr s)) ->
  (validateCodexToolChoice p4 = Ok tt -> validateCodexToolChoice p5 = Ok tt) ->
  validateCodexResponsesScalarFields p5 = Ok tt.
Proof.
  rewrite !scalars_inv. intros [Hs Hc] Hprev Hv. split.
  - intros k Hk. destruct (decide (k = "previous_response_id")) as [-> |Hne]; [by rewrite steps_previous|].
    rewrite steps_other; [auto|]. intros Hin. revert Hk Hin. unfold text_set.
    rewrite elem_of_list_to_set, !elem_of_cons, elem_of_nil. intros [-> | [-> | [-> | [-> |[]]]]]; intuition discriminate.
  - apply Hv. unfold validateCodexToolChoice in *.
    rewrite (A4 "tool_choice"), (A3 "tool_choice"), (A2 "tool_choice") by (rewrite elem_of_singleton; discriminate).
    exact Hc.
Qed.

Lemma steps_objects :
  validateCodexResponsesObjectFields p5 = validateCodexResponsesObjectFields p1.
Proof.
  unfold validateCodexResponsesObjectFields, validateCodexOptionalObject.
  by rewrite (steps_other "reasoning"), (steps_other "text") by not_in_table.
Qed.

Lemma steps_include : validateCodexInclude p5 = validateCodexInclude p3.
Proof.
  unfold validateCodexInclude. by rewrite (A5 "include"), (A4 "include") by (rewrite elem_of_singleton; discriminate).
Qed.
Lemma steps_result p model instructions stream :
  agree alias_touched p p1 -> (forall k, k ∈ alias_keys -> p1 !! k = None) ->
  validateCodexResponsesObjectFields p1 = Ok tt ->
  validateCodexResponsesScalarFields p1 = Ok tt ->
  (forall t, p1 !! "service_tier" = Some (AStr t) -> EqualFold (TrimSpace t) "fast" = false) ->
  (forall t, p2 !! "previous_response_id" = Some (AStr t) -> TrimSpace t = t /\ t <> "") ->
  (is_nil (p2 !! "previous_response_id") = true \/ exists s, p2 !! "previous_response_id" = Some (AStr s)) ->
  validateCodexConversation p2 = Ok tt -> validateCodexTruncation p2 = Ok tt ->
  requiredCodexString p2 "model" "responses request model is required" = Ok model ->
  p3 !! "instructions" = Some (AStr instructions) -> optionalCodexBool p3 "stream" = Ok stream ->
  validateCodexInclude p3 = Ok tt -> tools_ok p4 ->
  (forall c, p5 !! "tool_choice" = Some (AMap c) -> rename_preview c = c) ->
  (validateCodexToolChoice p4 = Ok tt -> validateCodexToolChoice p5 = Ok tt) ->
  checked p5 model /\ p5 !! "instructions" = Some (AStr instructions) /\ tools_ok p5
  /\ optionalCodexBool p "stream" = Ok stream
  /\ p !! "model" = Some (AStr model) /\ agree check_touched p p5.
Proof.
  intros A1 Hgone Hobj1 Hsc Htier Hprev Hprevs Hconv Htr Hm Ei Hst Hinc Htools Hcv Hcva.
  pose proof steps_other as O.
  assert (p5 !! "model" = p2 !! "model") as Em.
  { rewrite (A5 "model"), (A4 "model"), (A3 "model") by (rewrite elem_of_singleton; discriminate). done. }
  split; [constructor|split; [|split; [|split; [|split]]]].
  - intros k Hk. rewrite O; [by apply Hgone|]. intros Hin.
    assert (k ∈ check_touched ∖ alias_keys) as [_ Hn]%elem_of_difference; [|exact (Hn Hk)].
    revert Hin. apply subset_by_elements. vm_compute. reflexivity.
  - rewrite steps_objects. exact Hobj1.
  - exact (steps_scalars Hsc Hprevs Hcva).
  - intros tier. rewrite O by not_in_table. apply Htier.
  - intros prev. rewrite steps_previous. apply Hprev.
  - rewrite steps_context. exact Hconv.
  - unfold validateCodexTruncation. rewrite (A5 "truncation"), (A4 "truncation"), (A3 "truncation") by (rewrite elem_of_singleton; discriminate).
    exact Htr.
  - unfold requiredCodexString. rewrite Em. exact Hm.
  - rewrite steps_include. exact Hinc.
  - exact Hcv.
  - agree_at A5. agree_at A4. exact Ei.
  - unfold tools_ok. agree_at A5. exact Htools.
  - rewrite <- Hst. unfold optionalCodexBool. agree_at A3. agree_at A2. agree_at A1. done.
  - assert (p2 !! "model" = p !! "model") as <- by (agree_at A2; agree_at A1; done). revert Hm. unfold requiredCodexString.
    destruct (p2 !! "model") as [[| | | |s| | |]|]; cbn; try done. destruct (String.eqb _ ""); [done|]. by intros [= ->].
  - intros k Hk. rewrite O, A1; [done|..]; intros Hin; apply Hk; revert Hin; apply subset_by_elements; vm_compute; reflexivity.
Qed.
End check_steps.

(** The intermediate payloads of [check_fields]. *)
Lemma check_fields_steps p q model instructions stream :
  check_fields p = Ok (q, model, instructions, stream) ->
  let p1 := normalizeCodexOpenAICompatibleAliases p in
  let p2 := normalizeCodexPreviousResponseID p1 in
  exists p3 p4,
    validateCodexResponsesObjectFields p = Ok tt /\ validateCodexResponsesScalarFields p1 = Ok tt
    /\ validateCodexConversation p2 = Ok tt /\ validateCodexTruncation p2 = Ok tt
    /\ requiredCodexString p2 "model" "responses request model is required" = Ok model
    /\ codexInstructions p2 = Ok (p3, instructions) /\ optionalCodexBool p3 "stream" = Ok stream
    /\ validateCodexInclude p3 = Ok tt /\ normalizeCodexTools p3 = Ok p4
    /\ q = normalizeCodexToolChoice p4.
Proof.
  intros H p1 p2. unfold check_fields in H.
  apply bind_ok in H as ([] & Hobj & H). apply bind_ok in H as ([] & Hsc & H).
  apply bind_ok in H as ([] & Hconv & H). apply bind_ok in H as ([] & Htr & H).
  apply bind_ok in H as (m & Hm & H). apply bind_ok in H as ([p3 t] & Hi & H).
  apply bind_ok in H as (st & Hst & H). apply bind_ok in H as ([] & _ & H).
  apply bind_ok in H as ([] & Hinc & H). apply bind_ok in H as (p4 & Ht & H).
  injection H as Hq Hm' Hi' Hst'. subst m t st q. exists p3, p4. repeat (split; [assumption|]). reflexivity.
Qed.

Lemma check_fields_inv p q model instructions stream :
  check_fields p = Ok (q, model, instructions, stream) ->
  checked q model /\ q !! "instructions" = Some (AStr instructions) /\ tools_ok q
  /\ optionalCodexBool p "stream" = Ok stream
  /\ p !! "model" = Some (AStr model) /\ agree check_touched p q.
Proof.
  intros H. apply check_fields_steps in H as (p3 & p4 & Hobj & Hsc & Hconv & Htr & Hm & Hi & Hst & Hinc & Ht & ->).
  apply instructions_inv in Hi as [A3 Ei]. apply tools_inv in Ht as [A4 Htools].
  refine (steps_result _ _ p3 p4 _ (previous_agree _) A3 A4 (choice_agree p4) p model instructions stream
    (aliases_agree p) (aliases_gone p) (objects_aliases p Hobj) Hsc (aliases_tier p) (previous_value _)
    (previous_string _ _) Hconv Htr Hm Ei Hst Hinc Htools (choice_value p4) (choice_valid p4)).
  apply scalars_inv in Hsc as [Hs _]. apply Hs. rewrite !elem_of_cons. tauto.
Qed.

(** ** Messages, input and the final fields *)

Lemma part_of_text_ok ty t :
  bool_decide (ty ∈ codexInterleavedReasoningPartTypes) = false ->
  sanitizeCodexContentPart (obj_of [("type", AStr ty); ("text", AStr t)])
  = Some (obj_of [("type", AStr ty); ("text", AStr t)]).
Proof.
  intros Hty. unfold obj_of. cbn [sanitizeCodexContentPart list_to_map foldr uncurry fst snd].
  rewrite lookup_insert_eq. change (codexStringValue (Some (AStr ty))) with ty. rewrite Hty, drop_interleaved_id; [done|].
  intros k Hk. rewrite !lookup_insert_ne; [apply lookup_empty|..]; intros <-; revert Hk; not_in_table.
Qed.

Lemma inputTextMessage_ok t : item_ok (inputTextMessage t).
Proof.
  split; [|done]. unfold inputTextMessage, obj_of at 1. cbn [sanitizeCodexInputItem].
  rewrite fields_ok_id; [done|]. cbn [list_to_map foldr uncurry fst snd]. split.
  - intros k Hk. rewrite !lookup_insert_ne; [apply lookup_empty|..]; intros <-; revert Hk; not_in_table.
  - intros c. rewrite lookup_insert_ne, lookup_insert_eq by done. intros [= <-]. cbn [sanitizeCodexContent omap list_omap].
    by rewrite part_of_text_ok.
Qed.

Lemma input_inv p q :
  normalizeCodexInput p = Ok q ->
  agree {[ "input" ]} p q /\ exists items, q !! "input" = Some (AArr items) /\ Forall item_ok items.
Proof.
  unfold normalizeCodexInput. destruct (p !! "input") as [[| | | |s|l| |]|]; try done.
  - intros [= <-]. split; [by apply agree_insert, elem_of_singleton|].
    eexists. split; [apply lookup_insert_eq|]. constructor; [apply inputTextMessage_ok|constructor].
  - destruct (codexInputHasFileID l) eqn:Ef; [done|].
    destruct (sanitizeCodexInputItems l) as [l'|] eqn:El; [|done]. intros [= <-].
    split; [by apply agree_insert, elem_of_singleton|].
    eexists. split; [apply lookup_insert_eq|by eapply items_ok].
Qed.

Definition input_touched : gset string := text_set ["messages"; "input"; "instructions"].

Lemma choose_input_inv what mode p instructions messages has q instructions' :
  codexMessages p = Ok (messages, has) -> p !! "instructions" = Some (AStr instructions) ->
  choose_input what mode p instructions messages has = Ok (q, instructions') ->
  agree input_touched p q /\ q !! "instructions" = Some (AStr instructions')
  /\ (mode = codexResponsesOpenAICompat -> is_nil (q !! "messages") = true)
  /\ exists r, codexMessages q = Ok r.
Proof.
  intros Hm Hi. unfold choose_input.
  destruct mode.
  - destruct has; cbn [andb].
    + destruct (negb _); [done|]. destruct (coerceMessages _ _) as [t input]. intros [= <- <-].
      split; [|split; [|split]].
      * eapply agree_trans; [|apply agree_delete; in_table].
        eapply agree_trans; [|apply agree_insert; in_table]. apply agree_insert. in_table.
      * rewrite lookup_delete_ne, lookup_insert_ne by done. apply lookup_insert_eq.
      * intros _. by rewrite lookup_delete_eq.
      * unfold codexMessages. rewrite lookup_delete_eq. by eexists.
    + destruct (inputMissingOrEmpty _); [done|]. intros [= <- <-].
      split; [done|]. split; [done|]. split; [|by eexists].
      intros _. unfold codexMessages in Hm. destruct (is_nil _); [done|]. destruct (as_arr _); done.
  - destruct (inputMissingOrEmpty _); [done|]. intros [= <- <-]. split; [done|]. split; [done|]. split; [done|by eexists].
Qed.

(** Sorted acceptable tools. *)
Definition tools_sorted (P : obj) : Prop :=
  is_nil (P !! "tools") = true
  \/ exists tools, P !! "tools" = Some (AArr tools) /\ Forall tool_ok tools /\ key_sorted codexToolSortKey tools.

Lemma canonicalize_agree p : agree {[ "tools" ]} p (canonicalizeCodexTools p).
Proof.
  unfold canonicalizeCodexTools. destruct (as_arr _) as [[|]|]; try done.
  by apply agree_insert, elem_of_singleton.
Qed.

Lemma canonicalize_tools p tools :
  p !! "tools" = Some (AArr tools) ->
  canonicalizeCodexTools p !! "tools" = Some (AArr (SliceStable codexToolSortKey tools)).
Proof.
  intros H. unfold canonicalizeCodexTools. rewrite H. cbn [as_arr].
  destruct tools as [|x l]; [done|]. by rewrite lookup_insert_eq, map_sort_id.
Qed.

Lemma canonicalize_sorted p : tools_ok p -> tools_sorted (canonicalizeCodexTools p).
Proof.
  intros [Hn|(tools & E & Hok)].
  - left. unfold canonicalizeCodexTools. destruct (p !! "tools") as [[]|] eqn:E; cbn [as_arr]; done || by rewrite E.
  - right. eexists. split; [by apply canonicalize_tools|]. split; [|apply SliceStable_sorted].
    by rewrite SliceStable_perm.
Qed.

Lemma canonicalize_id p : tools_sorted p -> canonicalizeCodexTools p = p.
Proof.
  intros [Hn|(tools & E & _ & Hs)]; unfold canonicalizeCodexTools.
  - by destruct (p !! "tools") as [[]|].
  - rewrite E. cbn [as_arr]. destruct tools as [|x l]; [done|].
    rewrite map_sort_id, SliceStable_id by done. by apply insert_id.
Qed.

Lemma strip_gone p k : k ∈ codexUnsupportedUpstreamFields -> stripCodexUnsupportedUpstreamFields p !! k = None.
Proof. intros. by apply filter_lookup_in. Qed.

Lemma strip_other p k :
  k ∉ codexUnsupportedUpstreamFields -> k <> "tools" -> stripCodexUnsupportedUpstreamFields p !! k = p !! k.
Proof.
  intros Hk Ht. unfold stripCodexUnsupportedUpstreamFields. rewrite filter_lookup_out by done.
  apply canonicalize_agree. by rewrite elem_of_singleton.
Qed.

Lemma strip_tools p : stripCodexUnsupportedUpstreamFields p !! "tools" = canonicalizeCodexTools p !! "tools".
Proof. apply filter_lookup_out. not_in_table. Qed.

(** The form of every payload that is sent. *)
Record wire_form (mode : codexResponsesRequestMode) (P : obj) (model : string) : Prop := {
  wf_checked : checked P model;
  wf_instructions : exists t, P !! "instructions" = Some (AStr t);
  wf_messages : (mode = codexResponsesOpenAICompat -> is_nil (P !! "messages") = true)
    /\ exists r, codexMessages P = Ok r;
  wf_input : exists items, P !! "input" = Some (AArr items) /\ Forall item_ok items;
  wf_store : P !! "store" = Some (ABool false);
  wf_stream : P !! "stream" = Some (ABool true);
  wf_unsupported : forall k, k ∈ codexUnsupportedUpstreamFields -> P !! k = None;
  wf_tools : tools_sorted P;
}.

Definition final (p : obj) : obj :=
  stripCodexUnsupportedUpstreamFields (<["stream" := ABool true]> (<["store" := ABool false]> p)).

Lemma final_other p k :
  k ∉ codexUnsupportedUpstreamFields -> k <> "tools" -> k <> "store" -> k <> "stream" -> final p !! k = p !! k.
Proof. intros. unfold final. by rewrite strip_other, !lookup_insert_ne. Qed.

Definition final_touched : gset string :=
  codexUnsupportedUpstreamFields ∪ text_set ["tools"; "store"; "stream"].

Lemma final_agree p : agree final_touched p (final p).
Proof.
  intros k Hk. assert (forall k', bool_decide (k' ∈ final_touched) = true -> k <> k') as Hn
    by (intros k' H%bool_decide_eq_true ->; exact (Hk H)).
  apply final_other; [|apply Hn; vm_compute; reflexivity..].
  intros Hin. apply Hk. revert Hin. apply subset_by_elements. vm_compute. reflexivity.
Qed.

Lemma is_nil_messages_final p : final p !! "messages" = p !! "messages".
Proof. apply final_other; [not_in_table|done..]. Qed.

Section request_steps.
Context (p5 p6 p7 : obj) (mode : codexResponsesRequestMode) (model : string).
Context (A6 : agree input_touched p5 p6) (A7 : agree {[ "input" ]} p6 p7).

Definition request_touched : gset string := input_touched ∪ final_touched.

Lemma request_agree : agree request_touched p5 (final p7).
Proof.
  intros k Hk. assert (forall k', bool_decide (k' ∈ request_touched) = true -> k <> k') as Hn
    by (intros k' H%bool_decide_eq_true ->; exact (Hk H)).
  rewrite final_agree, A7, A6; [done|..].
  - intros Hin. apply Hk. revert Hin. apply subset_by_elements. vm_compute. reflexivity.
  - rewrite elem_of_singleton. apply Hn. vm_compute. reflexivity.
  - intros Hin. apply Hk. revert Hin. apply subset_by_elements. vm_compute. reflexivity.
Qed.

Lemma request_form instructions :
  checked p5 model -> tools_ok p5 -> p6 !! "instructions" = Some (AStr instructions) ->
  (mode = codexResponsesOpenAICompat -> is_nil (p6 !! "messages") = true) ->
  (exists r, codexMessages p6 = Ok r) ->
  (exists items, p7 !! "input" = Some (AArr items) /\ Forall item_ok items) ->
  wire_form mode (final p7) model.
Proof.
  intros Hc Ht Hi Hm Hcm Hin.
  assert (forall k, k ∉ final_touched -> k <> "input" -> final p7 !! k = p6 !! k) as F
    by (intros k Hk Hne; rewrite final_agree, A7 by (rewrite ?elem_of_singleton; assumption); reflexivity).
  constructor.
  - eapply checked_agree; [|exact request_agree|exact Hc].
    intros k Hk Hin'. assert (k ∈ checked_keys ∩ request_touched) as H by (apply elem_of_intersection; split; assumption).
    revert H. assert (checked_keys ∩ request_touched ⊆ ∅) as Hs by in_table.
    intros H%Hs. by apply not_elem_of_empty in H.
  - exists instructions. rewrite F by (discriminate || not_in_table). exact Hi.
  - split.
    + intros Hmode. rewrite F by (discriminate || not_in_table). auto.
    + unfold codexMessages. rewrite F by (discriminate || not_in_table). exact Hcm.
  - destruct Hin as (items & E & Hok). exists items. split; [|exact Hok].
    rewrite final_agree by not_in_table. exact E.
  - unfold final. rewrite strip_other by (discriminate || not_in_table).
    rewrite lookup_insert_ne by discriminate. apply lookup_insert_eq.
  - unfold final. rewrite strip_other by (discriminate || not_in_table). apply lookup_insert_eq.
  - intros k. apply strip_gone.
  - unfold final, tools_sorted. rewrite strip_tools. apply canonicalize_sorted. unfold tools_ok.
    rewrite !lookup_insert_ne by discriminate. rewrite (A7 "tools") by (rewrite elem_of_singleton; discriminate).
    rewrite (A6 "tools") by not_in_table. exact Ht.
Qed.
End request_steps.

Lemma normalize_steps p mode r :
  normalizeCodexResponsesPayloadMap (Some p) mode = Ok r ->
  exists p5 model instructions stream messages has p6 instructions' p7,
    check_fields p = Ok (p5, model, instructions, stream)
    /\ codexMessages p5 = Ok (messages, has)
    /\ choose_input "responses" mode p5 instructions messages has = Ok (p6, instructions')
    /\ normalizeCodexInput p6 = Ok p7
    /\ r = request_record model messages instructions' stream (final p7).
Proof.
  intros H. cbn [normalizeCodexResponsesPayloadMap] in H.
  apply bind_ok in H as ([[[p5 model] instructions] stream] & H5 & H).
  apply bind_ok in H as ([messages has] & Hm & H).
  apply bind_ok in H as ([p6 instructions'] & H6 & H).
  apply bind_ok in H as (p7 & H7 & H). injection H as <-.
  exists p5, model, instructions, stream, messages, has, p6, instructions', p7. repeat (split; [assumption|]). reflexivity.
Qed.

Lemma normalize_form p mode r :
  normalizeCodexResponsesPayloadMap (Some p) mode = Ok r -> wire_form mode (Payload r) (Model r).
Proof.
  intros H. apply normalize_steps in H as (p5 & model & t & stream & ms & has & p6 & t' & p7 & H5 & Hm & H6 & H7 & ->).
  apply check_fields_inv in H5 as (Hc & Hi & Ht & _).
  destruct (choose_input_inv _ _ _ _ _ _ _ _ Hm Hi H6) as (A6 & Hi' & Hn & Hcm).
  destruct (input_inv _ _ H7) as [A7 Hin].
  exact (request_form p5 p6 p7 mode model A6 A7 t' Hc Ht Hi' Hn Hcm Hin).
Qed.

(** ** A payload in the final form is left alone *)

Lemma aliases_id p :
  (forall k, k ∈ alias_keys -> p !! k = None) ->
  (forall t, p !! "service_tier" = Some (AStr t) -> EqualFold (TrimSpace t) "fast" = false) ->
  normalizeCodexOpenAICompatibleAliases p = p.
Proof.
  intros Hk Ht. rewrite aliases_eq.
  assert (forall k, bool_decide (k ∈ alias_keys) = true -> p !! k = None) as N
    by (intros k H%bool_decide_eq_true; auto).
  pose proof (N "promptCacheKey" eq_refl) as N1. pose proof (N "promptCacheRetention" eq_refl) as N2.
  pose proof (N "reasoningEffort" eq_refl) as N3. pose proof (N "reasoningSummary" eq_refl) as N4.
  pose proof (N "textVerbosity" eq_refl) as N5. pose proof (N "verbosity" eq_refl) as N6. clear N Hk.
  rewrite (move_id "promptCacheKey" "prompt_cache_key" p N1).
  rewrite (move_id "promptCacheRetention" "prompt_cache_retention" p N2).
  rewrite (nested_id "reasoningEffort" "effort" (p, _) N3), (nested_id "reasoningSummary" "summary" (p, _) N4).
  rewrite (section_id "reasoning" p).
  rewrite (nested_id "textVerbosity" "verbosity" (p, _) N5), (nested_id "verbosity" "verbosity" (p, _) N6).
  rewrite (section_id "text" p).
  destruct (p !! "service_tier") as [[]|] eqn:E; cbn [as_str]; try reflexivity. by rewrite Ht.
Qed.

Lemma previous_id p :
  (forall t, p !! "previous_response_id" = Some (AStr t) -> TrimSpace t = t /\ t <> "") ->
  normalizeCodexPreviousResponseID p = p.
Proof.
  intros H. unfold normalizeCodexPreviousResponseID.
  destruct (p !! "previous_response_id") as [[| | | |t| | |]|] eqn:E; try reflexivity. cbn [as_str].
  destruct (H t eq_refl) as [-> Hne]. rewrite (proj2 (String.eqb_neq t "") Hne). by apply insert_id.
Qed.

Lemma instructions_id p t : p !! "instructions" = Some (AStr t) -> codexInstructions p = Ok (p, t).
Proof. unfold codexInstructions. by intros ->. Qed.

Lemma tools_id p : tools_sorted p -> normalizeCodexTools p = Ok p.
Proof.
  unfold normalizeCodexTools. intros [-> |(tools & E & Hok & _)]; [done|]. rewrite E. cbn [is_nil as_arr].
  rewrite normalize_tool_list_id by done. cbn [mbind result_bind]. by rewrite insert_id.
Qed.

Lemma choice_id p :
  (forall c, p !! "tool_choice" = Some (AMap c) -> rename_preview c = c) -> normalizeCodexToolChoice p = p.
Proof.
  intros H. unfold normalizeCodexToolChoice.
  destruct (p !! "tool_choice") as [[| | | | | |c|]|] eqn:E; try reflexivity. cbn [as_map].
  rewrite (H c eq_refl). by apply insert_id.
Qed.

Lemma check_fields_id mode P model :
  wire_form mode P model -> exists t, check_fields P = Ok (P, model, t, Some true).
Proof.
  intros [[] [t Ht] _ _ Hstore Hstream _ Htools]. exists t. unfold check_fields.
  rewrite aliases_id, previous_id by assumption.
  rewrite ck_objects0. cbn [mbind result_bind]. rewrite ck_scalars0. cbn [mbind result_bind].
  rewrite ck_context0. cbn [mbind result_bind]. rewrite ck_truncation0. cbn [mbind result_bind].
  rewrite ck_model0. cbn [mbind result_bind]. rewrite (instructions_id P t Ht). cbn [mbind result_bind].
  unfold store_must_be_false, optionalCodexBool. rewrite Hstream, Hstore. cbn.
  rewrite ck_include0. cbn. rewrite (tools_id P Htools). cbn. by rewrite choice_id.
Qed.

Lemma choose_input_id what mode P model messages has t :
  wire_form mode P model -> inputMissingOrEmpty (P !! "input") = false ->
  codexMessages P = Ok (messages, has) -> choose_input what mode P t messages has = Ok (P, t).
Proof.
  intros Hf Hne Hm. unfold choose_input. rewrite Hne. destruct mode; [|reflexivity].
  pose proof (proj1 (wf_messages _ _ _ Hf) eq_refl) as Hn. unfold codexMessages in Hm. rewrite Hn in Hm.
  by injection Hm as <- <-.
Qed.

Lemma input_id mode P model : wire_form mode P model -> normalizeCodexInput P = Ok P.
Proof.
  intros Hf. destruct (wf_input _ _ _ Hf) as (items & E & Hok). apply items_ok_id in Hok as [H1 H2].
  unfold normalizeCodexInput. rewrite E, H2, H1. cbn [mbind result_bind]. by rewrite insert_id.
Qed.

Lemma final_id mode P model : wire_form mode P model -> final P = P.
Proof.
  intros [_ _ _ _ Hstore Hstream Hun Htools]. unfold final. rewrite (insert_id P "store") by done.
  rewrite insert_id by done. unfold stripCodexUnsupportedUpstreamFields.
  rewrite canonicalize_id by done. by apply filter_absent.
Qed.

Lemma normalize_id mode P model :
  wire_form mode P model -> inputMissingOrEmpty (P !! "input") = false ->
  exists r, normalizeCodexResponsesPayloadMap (Some P) mode = Ok r
            /\ Payload r = P /\ Model r = model /\ StreamRequested r = true.
Proof.
  intros Hf Hne. destruct (check_fields_id mode P model Hf) as [t Ht].
  destruct (proj2 (wf_messages _ _ _ Hf)) as [[messages has] Hm].
  exists (request_record model messages t (Some true) P). split; [|done].
  cbn [normalizeCodexResponsesPayloadMap]. rewrite Ht. cbn [mbind result_bind].
  rewrite Hm. cbn [mbind result_bind].
  rewrite (choose_input_id _ _ _ _ _ _ t Hf Hne Hm). cbn [mbind result_bind].
  rewrite (input_id _ _ _ Hf). cbn [mbind result_bind].
  change (stripCodexUnsupportedUpstreamFields _) with (final P). by rewrite (final_id _ _ _ Hf).
Qed.

(** ** What the backend receives *)

(** A content part without reasoning and without an uploaded file. *)
Definition part_clean (part : any) : Prop :=
  match part with
  | AMap m =>
      (codexStringValue (m !! "type") ∉ codexInterleavedReasoningPartTypes)
      /\ (forall k, k ∈ codexInterleavedReasoningKeys -> m !! k = None)
      /\ isCodexInputFileWithID m = false
  | _ => True
  end.

Definition item_clean (item : any) : Prop :=
  match item with
  | AMap m =>
      (forall k, k ∈ codexInterleavedReasoningKeys -> m !! k = None)
      /\ m !! "role" <> Some (AStr "tool")
      /\ isCodexInputFileWithID m = false
      /\ forall parts, m !! "content" = Some (AArr parts) -> Forall part_clean parts
  | _ => True
  end.

Lemma part_ok_clean part :
  sanitizeCodexContentPart part = Some part -> part_has_file_id part = false -> part_clean part.
Proof.
  destruct part as [| | | | | |m|]; try done. cbn [sanitizeCodexContentPart part_has_file_id].
  destruct (bool_decide _) eqn:E; [done|]. intros [= Em] Hf. apply bool_decide_eq_false in E.
  split; [exact E|]. split; [|exact Hf]. intros k Hk. rewrite <- Em. by apply interleaved_drop.
Qed.

Lemma assistant_fields_ok m : fields_ok m -> fields_ok (normalizeCodexAssistantInputItem m).
Proof.
  intros [Hk Hc]. unfold normalizeCodexAssistantInputItem. destruct (m !! "content") as [c|] eqn:Ec; [|by split; [|rewrite Ec]].
  split.
  - intros k Hin. rewrite lookup_insert_ne; [by apply Hk|]. intros <-. revert Hin. not_in_table.
  - intros d. rewrite lookup_insert_eq. intros [= <-]. by apply assistant_content_ok, Hc.
Qed.

Lemma item_out x m :
  sanitizeCodexInputItem x = Ok (AMap m) -> x = AMap m -> fields_ok m /\ m !! "role" <> Some (AStr "tool").
Proof.
  intros H ->. cbn [sanitizeCodexInputItem] in H. pose proof (sanitize_fields_ok m) as Hm.
  set (m' := sanitize_fields m) in *. clearbody m'. unfold normalizeCodexRoleInputItem in H.
  destruct (String.eqb_spec (codexStringValue (m' !! "role")) "assistant") as [Ea|Ea];
    [|destruct (String.eqb_spec (codexStringValue (m' !! "role")) "tool") as [Et|Et]].
  - injection H as <-. split; [by apply assistant_fields_ok|]. unfold normalizeCodexAssistantInputItem.
    destruct (m' !! "content"); rewrite ?lookup_insert_ne by done; intros E; by rewrite E in Ea.
  - destruct (normalizeCodexToolInputItem m') as [o|] eqn:Eo; [|done]. injection H as <-.
    apply tool_item_spec in Eo as (c & o' & ->). split; [apply function_call_output_ok|done].
  - injection H as <-. split; [done|]. intros E. by rewrite E in Et.
Qed.

Lemma item_ok_clean x : item_ok x -> item_clean x.
Proof.
  destruct x as [| | | | | |m|]; try done. intros [H Hf].
  destruct (item_out _ m H eq_refl) as [[Hk Hc] Hr]. cbn [item_has_file_id] in Hf.
  apply orb_false_iff in Hf as [Hf Hp]. split; [exact Hk|]. split; [exact Hr|]. split; [exact Hf|].
  intros parts Ep. rewrite Ep in Hp. pose proof (content_parts_ok _ (Hc _ Ep)) as Hps.
  clear -Hps Hp. induction Hps as [|q l Hq _ IH]; [constructor|]. cbn [existsb] in Hp.
  apply orb_false_iff in Hp as [H1 H2]. constructor; [by apply part_ok_clean|auto].
Qed.

Definition rename_tool (tool : any) : any :=
  match tool with AMap t => AMap (rename_preview t) | _ => tool end.

Lemma tool_list_renamed l l' : normalize_tool_list l = Ok l' -> l' = List.map rename_tool l.
Proof.
  revert l'. induction l as [|x l IH]; intros l'; [by intros [= <-]|].
  destruct x as [| | | | | |t|]; cbn [normalize_tool_list];
    try (intros (r & E & [= <-])%bind_ok; cbn; by rewrite (IH r E)).
  destruct (bool_decide _); [done|]. intros (r & E & [= <-])%bind_ok. cbn. by rewrite (IH r E).
Qed.

Lemma check_fields_tools p q model instructions stream ts :
  check_fields p = Ok (q, model, instructions, stream) -> p !! "tools" = Some (AArr ts) ->
  q !! "tools" = Some (AArr (List.map rename_tool ts)).
Proof.
  intros H Hts. apply check_fields_steps in H as (p3 & p4 & _ & _ & _ & _ & _ & Hi & _ & _ & Ht & ->).
  apply instructions_inv in Hi as [A3 _].
  assert (p3 !! "tools" = Some (AArr ts)) as E.
  { rewrite (A3 "tools") by (rewrite elem_of_singleton; discriminate).
    rewrite (previous_agree _ "tools") by (rewrite elem_of_singleton; discriminate).
    rewrite (aliases_agree p "tools") by not_in_table. exact Hts. }
  rewrite (choice_agree p4 "tools") by (rewrite elem_of_singleton; discriminate).
  unfold normalizeCodexTools in Ht. rewrite E in Ht. cbn [is_nil as_arr] in Ht.
  apply bind_ok in Ht as (l' & El & [= <-]). rewrite lookup_insert_eq. by rewrite (tool_list_renamed _ _ El).
Qed.

Lemma normalize_tools p mode r ts :
  normalizeCodexResponsesPayloadMap (Some p) mode = Ok r -> p !! "tools" = Some (AArr ts) ->
  Payload r !! "tools" = Some (AArr (SliceStable codexToolSortKey (List.map rename_tool ts))).
Proof.
  intros H Hts. apply normalize_steps in H as (p5 & model & t & stream & ms & has & p6 & t' & p7 & H5 & Hm & H6 & H7 & ->).
  pose proof (check_fields_tools _ _ _ _ _ _ H5 Hts) as E.
  apply check_fields_inv in H5 as (_ & Hi & _).
  destruct (choose_input_inv _ _ _ _ _ _ _ _ Hm Hi H6) as (A6 & _). destruct (input_inv _ _ H7) as [A7 _].
  cbn [request_record Payload]. unfold final. rewrite strip_tools. apply canonicalize_tools.
  rewrite !lookup_insert_ne by discriminate. rewrite (A7 "tools") by (rewrite elem_of_singleton; discriminate).
  rewrite (A6 "tools") by not_in_table. exact E.
Qed.

Definition all_touched : gset string := check_touched ∪ request_touched.

Lemma normalize_agree p mode r :
  normalizeCodexResponsesPayloadMap (Some p) mode = Ok r ->
  agree all_touched p (Payload r) /\ p !! "model" = Some (AStr (Model r))
  /\ StreamRequested r = (match p !! "stream" with Some (ABool b) => b | _ => false end).
Proof.
  intros H. apply normalize_steps in H as (p5 & model & t & stream & ms & has & p6 & t' & p7 & H5 & Hm & H6 & H7 & ->).
  apply check_fields_inv in H5 as (_ & Hi & _ & Hst & Hmod & A5).
  destruct (choose_input_inv _ _ _ _ _ _ _ _ Hm Hi H6) as (A6 & _). destruct (input_inv _ _ H7) as [A7 _].
  split; [|split; [exact Hmod|]].
  - eapply agree_trans; [eapply agree_weaken; [|exact A5]; in_table|].
    eapply agree_weaken; [|exact (request_agree p5 p6 p7 A6 A7)]. in_table.
  - cbn [StreamRequested request_record]. revert Hst. unfold optionalCodexBool.
    destruct (p !! "stream") as [[|[]| | | | | |]|]; cbn; try done; by intros [= <-].
Qed.


(** Translating is idempotent.  A translated payload with a non-empty
    input is accepted again and comes out unchanged, in the form the backend
    wants, so a body that passes through a second router is not altered. *)
Theorem codex_body_idempotent p mode r :
  normalizeCodexResponsesPayloadMap (Some p) mode = Ok r ->
  Payload r !! "input" <> Some (AArr []) ->
  exists r', normalizeCodexResponsesPayloadMap (Some (Payload r)) mode = Ok r'
    /\ Payload r' = Payload r /\ Model r' = Model r /\ StreamRequested r' = true
    /\ wire_form mode (Payload r') (Model r').
Proof.
  intros H Hne. apply normalize_form in H. destruct (normalize_id mode (Payload r) (Model r) H) as (r' & Hr & Hp & Hm & Hs).
  { destruct (wf_input _ _ _ H) as (items & E & _). rewrite E in *. by destruct items. }
  exists r'. rewrite Hp, Hm. by split_and!.
Qed.
