(* ===== verification/Collector.v ===== *)
(** * Collector: Responses events folded into one document
      (internal/provider/openai/sse_collector.go)

    [AddEvent] reads one event with [UseNumber], so that numbers keep their
    literals; [AggregateJSON] prints the response of the terminal event,
    completed with what the earlier events delivered. *)

From S2P Require Import Prelude GoLib GoHTTP GoJSON GoStrings GoAny GoBufio Errors CodexRequest.
Import codex.

Module collector.

(** Go's nil maps and slices: [response] is nil until a terminal event carries
    one; a nil [usage] is [ANil]. *)
Record ResponsesSSECollector := mkCollector {
  deltaText : string; doneText : string; response : option obj; usage : any;
  terminalType : string; outputItems : gmap Z obj }.
#[export] Instance eta_ResponsesSSECollector : Eta ResponsesSSECollector := fun c =>
  mkCollector (deltaText c) (doneText c) (response c) (usage c) (terminalType c) (outputItems c).

Definition new_collector : ResponsesSSECollector := mkCollector "" "" None ANil "" ∅.

(** [reflect.DeepEqual] on decoded values. *)
Fixpoint DeepEqual (v w : any) {struct v} : bool :=
  match v, w with
  | ANil, ANil => true
  | ABool b, ABool c => Bool.eqb b c
  | AInt x, AInt y => x =? y
  | ANum x, ANum y => f64_eq x y
  | AStr s, AStr t => String.eqb s t
  | ALit s, ALit t => String.eqb s t
  | AArr l, AArr l' =>
      (fix go (l : list any) (l' : list any) {struct l} : bool :=
         match l, l' with
         | [], [] => true
         | x :: l, y :: l' => DeepEqual x y && go l l'
         | _, _ => false
         end) l l'
  | AMap m, AMap m' =>
      (size m =? size m')%nat
      && map_fold (fun k (f : any -> bool) acc =>
           acc && match m' !! k with Some y => f y | None => false end) true (DeepEqual <$> m)
  | _, _ => false
  end.

(** ** Text of a response *)

Definition partOutputText (part : obj) : string :=
  let partType := default "" (as_str (part !! "type")) in
  if negb (String.eqb partType "") && negb (String.eqb partType "output_text") then ""
  else default "" (as_str (part !! "text")).

(** The texts of the elements that are objects, one after the other. *)
Definition texts_of (f : obj -> string) (l : option (list any)) : string :=
  concat_str (List.map (fun raw => match raw with AMap m => f m | _ => "" end) (default [] l)).

Definition itemOutputText (item : obj) : string := texts_of partOutputText (as_arr (item !! "content")).
Definition responseOutputText (response : obj) : string := texts_of itemOutputText (as_arr (response !! "output")).

Definition eventOutputText (event : obj) : string :=
  match as_map (event !! "part") with
  | Some part => partOutputText part
  | None =>
      match as_map (event !! "item") with
      | Some item => itemOutputText item
      | None => ""
      end
  end.

(** ** One event *)

(** One document, then [InputOffset] must be the end of the text. *)
Definition decode_event (raw : string) : result error obj :=
  let bad := Wrapf "decode responses SSE event: %w" [] (New "invalid JSON") in
  let trailing := New "decode responses SSE event: unexpected trailing data" in
  match parse_value maxNestingDepth raw with
  | Some (JObj l, rest) =>
      if String.eqb rest "" then Ok (default ∅ (as_map (Some (any_num_of (JObj l))))) else Err trailing
  | Some (JNull, rest) =>
      match rest with
      | "" => Ok ∅
      | String c _ => Err (if is_ws c then trailing else bad)
      end
  | _ => Err bad
  end.

Definition output_item_done (event : obj) (c : ResponsesSSECollector) : result error ResponsesSSECollector :=
  match event !! "output_index" with
  | Some (ALit lit) =>
      match Atoi lit with
      | Some index =>
          if index <? 0 then Err (New "responses SSE output_item.done requires a non-negative integer output_index")
          else match as_map (event !! "item") with
               | None => Err (New "responses SSE output_item.done requires an item object")
               | Some item =>
                   match outputItems c !! index with
                   | Some previous =>
                       if DeepEqual (AMap previous) (AMap item)
                       then Ok (c <| outputItems := <[index := item]> (outputItems c) |>)
                       else Err (Errorf "responses SSE conflicting completed items at output_index %d" [FInt index])
                   | None => Ok (c <| outputItems := <[index := item]> (outputItems c) |>)
                   end
               end
      | None => Err (New "responses SSE output_item.done requires a non-negative integer output_index")
      end
  | _ => Err (New "responses SSE output_item.done requires a non-negative integer output_index")
  end.

Definition terminal_types : list string := ["response.completed"; "response.failed"; "response.incomplete"].

Definition add_payload (event : obj) (c : ResponsesSSECollector) : result error ResponsesSSECollector :=
  let eventType := default "" (as_str (event !! "type")) in
  if String.eqb eventType "response.output_text.delta" then
    Ok (c <| deltaText := deltaText c +:+ default "" (as_str (event !! "delta")) |>)
  else if String.eqb eventType "response.output_text.done" then
    Ok (match as_str (event !! "text") with Some text => c <| doneText := text |> | None => c end)
  else if String.eqb eventType "response.output_item.done" then output_item_done event c
  else if String.eqb eventType "response.content_part.done" then
    Ok (if String.eqb (doneText c) "" then c <| doneText := eventOutputText event |> else c)
  else if existsb (String.eqb eventType) terminal_types then
    let c := c <| terminalType := eventType |> in
    Ok (match as_map (event !! "response") with
        | Some resp => c <| response := Some resp |> <| usage := default ANil (resp !! "usage") |>
        | None => c
        end)
  else if String.eqb eventType "error" then
    let c := c <| terminalType := eventType |> in
    Ok (match event !! "error" with
        | Some errPayload => c <| response := Some {["error" := errPayload]} |>
        | None => c <| response := Some event |>
        end)
  else Ok c.

Definition AddEvent (data : string) (c : ResponsesSSECollector) : result error ResponsesSSECollector :=
  let raw := TrimSpace data in
  if String.eqb raw "" || String.eqb raw "[DONE]" then Ok c
  else event ← decode_event raw; add_payload event c.

(** ** The aggregate *)

Definition item_le (p q : Z * obj) : Prop := (fst p <= fst q)%Z.
#[export] Instance item_le_dec p q : Decision (item_le p q).
Proof. unfold item_le. apply _. Defined.

(** The completed items in the order of their indices. *)
Definition ordered_items (items : gmap Z obj) : list any :=
  List.map (fun p => AMap (snd p)) (merge_sort item_le (map_to_list items)).

Definition fill_output (c : ResponsesSSECollector) (resp : obj) : result error obj :=
  if (size (outputItems c) =? 0)%nat then Ok resp
  else match as_arr (resp !! "output") with
       | None =>
           if is_nil (resp !! "output")
           then Ok (<["output" := AArr (ordered_items (outputItems c))]> resp)
           else Err (New "responses SSE terminal output must be an array")
       | Some [] => Ok (<["output" := AArr (ordered_items (outputItems c))]> resp)
       | Some _ => Ok resp
       end.

Definition first_non_empty (l : list string) : string :=
  hd "" (List.filter (fun s => negb (String.eqb s "")) l).

Definition fill_text (c : ResponsesSSECollector) (resp : obj) : obj :=
  let text := first_non_empty [responseOutputText resp; doneText c; deltaText c] in
  match resp !! "output_text" with
  | None | Some (AStr "") => <["output_text" := AStr text]> resp
  | Some _ => resp
  end.

Definition fill_usage (c : ResponsesSSECollector) (resp : obj) : obj :=
  match usage c, resp !! "usage" with
  | ANil, _ | _, Some _ => resp
  | u, None => <["usage" := u]> resp
  end.

(** The document, and whether a terminal event was seen; an error may come
    with either. *)
Definition AggregateJSON (requireTerminal : bool) (c : option ResponsesSSECollector)
    : string * bool * option error :=
  match c with
  | Some c =>
      if String.eqb (terminalType c) "" then
        ("", false, if requireTerminal then Some (New "responses SSE response missing terminal event") else None)
      else
        match response c with
        | None => ("", true, Some (Errorf "responses SSE %s missing response" [FStr (terminalType c)]))
        | Some resp =>
            match (if String.eqb (terminalType c) "error" then Ok resp
                   else resp ← fill_output c resp; Ok (fill_usage c (fill_text c resp)) : result error obj) with
            | Err e => ("", true, Some e)
            | Ok resp =>
                match Marshal_any (AMap resp) with
                | Some encoded => (encoded, true, None)
                | None => ("", true, Some (Wrapf "encode responses SSE aggregate: %w" [] (New "unsupported value")))
                end
            end
        end
  | None => ("", false, if requireTerminal then Some (New "responses SSE response missing terminal event") else None)
  end.

(** ** Whole bodies *)

Definition codexSSECollectLimit : Z := 16 * 2 ^ 20.

Definition sseDataField (line : string) : option string :=
  if HasPrefix line "data" then
    match drop_str 4 line with
    | "" => Some ""
    | rest => if HasPrefix rest ":" then Some (TrimPrefix (TrimPrefix rest ":") " ") else None
    end
  else None.

(** The lines of a body one by one: data fields are collected, a blank line
    delivers them. *)
Definition flush (wrap : error -> error) (st : ResponsesSSECollector * list string)
    : result error (ResponsesSSECollector * list string) :=
  match snd st with
  | [] => Ok st
  | eventData =>
      match AddEvent (Join eventData newline) (fst st) with
      | Ok c => Ok (c, [])
      | Err e => Err (wrap e)
      end
  end.

Definition collect_line (wrap : error -> error) (line : string) (st : ResponsesSSECollector * list string)
    : result error (ResponsesSSECollector * list string) :=
  if String.eqb line "" then flush wrap st
  else Ok (fst st, match sseDataField line with Some data => snd st ++ [data] | None => snd st end).

Fixpoint collect_lines (wrap : error -> error) (ls : list string) (st : ResponsesSSECollector * list string)
    : result error (ResponsesSSECollector * list string) :=
  match ls with
  | [] => Ok st
  | line :: ls' => st ← collect_line wrap line st; collect_lines wrap ls' st
  end.

(** A whole body: events, the scanner's error, the unterminated event. *)
Definition collect (what : string) (wrap : error -> error) (limit : Z) (data : string)
    : result error ResponsesSSECollector :=
  let '(ls, serr) := Scan limit (mkReader data None) in
  st ← collect_lines wrap ls (new_collector, []);
  match serr with
  | Some e => Err (Wrapf (what +:+ ": %w") [] e)
  | None => st ← flush wrap st; Ok (fst st)
  end.

Definition responseSSEScannerMaxBytes (size : Z) : Z :=
  let defaultMax := 64 * 1024 in
  let limit := if codexSSECollectLimit <? size then size else codexSSECollectLimit in
  if limit <? defaultMax then defaultMax else limit + 1.

Definition CollectResponsesSSEBytes (data : string) (requireTerminal : bool) : string * bool * option error :=
  match collect "scan responses SSE response" id
          (buffer_limit (64 * 1024) (responseSSEScannerMaxBytes (lenZ data))) data with
  | Ok c => AggregateJSON requireTerminal (Some c)
  | Err e => ("", false, Some e)
  end.

Definition collectCodexSSEBytes (data : string) : result error string :=
  c ← collect "scan codex SSE response" (fun e => Wrapf "decode codex SSE event: %w" [] e)
        (buffer_limit (64 * 1024) codexSSECollectLimit) data;
  match AggregateJSON true (Some c) with
  | (_, _, Some e) => Err (Wrapf "collect codex SSE response: %w" [] e)
  | (_, false, None) => Err (New "codex SSE response missing terminal event")
  | (encoded, true, None) => Ok encoded
  end.

(** ** Token events *)

Definition nonEmptyString (value : option any) : bool :=
  match as_str value with Some text => negb (String.eqb text "") | None => false end.

Definition IsOutputTextTokenEvent (data : string) : bool :=
  match Unmarshal_map data with
  | None => false
  | Some event =>
      let event := default ∅ event in
      let eventType := default "" (as_str (event !! "type")) in
      if String.eqb eventType "response.output_text.delta" then nonEmptyString (event !! "delta")
      else if String.eqb eventType "response.output_text.done" then nonEmptyString (event !! "text")
      else if existsb (String.eqb eventType)
                ["response.content_part.added"; "response.content_part.done";
                 "response.output_item.added"; "response.output_item.done"]
      then negb (String.eqb (eventOutputText event) "")
      else false
  end.

End collector.

Example collect_ex :
  collector.collectCodexSSEBytes (dq "data: {'type':'response.output_text.delta','delta':'hel'}

data: {'type':'response.output_text.delta','delta':'lo'}

event: x
data: {'type':'response.completed',
data: 'response':{'id':'r','n':1.50}}

data: [DONE]
")
  = Ok (dq "{'id':'r','n':1.50,'output_text':'hello'}").
Proof. vm_compute. reflexivity. Qed.
