(* ===== verification/SSE.v ===== *)
(** * SSE: relaying an event stream (internal/api/sse.go)

    [ForwardSSE] copies the upstream's lines to the client and reads the
    events on the way: usage, time to the first event, and, when bodies are
    logged, the aggregate of [Collector].  A write to a client that has gone
    is ignored by the code, so writes are commands here.  The clock is read
    once, at the first event. *)

From S2P Require Import Prelude GoLib GoHTTP GoJSON GoAny GoBufio Errors Usage Collector.
Import usage.

Module sse.
Import collector.

Record SSEResult := mkSSEResult {
  TokenUsage : JSONMap; UpstreamResponseBody : string; TTFTMs : option Z; ResultErr : option error }.
#[export] Instance eta_SSEResult : Eta SSEResult := fun r =>
  mkSSEResult (TokenUsage r) (UpstreamResponseBody r) (TTFTMs r) (ResultErr r).

Definition DefaultMaxSSEEventBytes : Z := 16 * 2 ^ 20.

(** The configured cap: [SetMaxSSEEventBytes] ignores what is not positive. *)
Definition SetMaxSSEEventBytes (n maxSSEEventBytes : Z) : Z := if 0 <? n then n else maxSSEEventBytes.

(** What is done to the client's connection. *)
Inductive wcmd := WriteString (s : string) | Flush.

Definition sseField (line field : string) : option string :=
  if HasPrefix line field then
    match drop_str (String.length field) line with
    | "" => Some ""
    | String c rest => if Ascii.eqb c ":" then Some (TrimPrefix rest " ") else None
    end
  else None.

(** ** One line *)

Record state := mkState {
  result_ : SSEResult; responseCollector : option ResponsesSSECollector;
  eventData : string; eventTooLarge : bool }.
#[export] Instance eta_state : Eta state := fun s =>
  mkState (result_ s) (responseCollector s) (eventData s) (eventTooLarge s).

Definition note (e : error) (r : SSEResult) : SSEResult :=
  match ResultErr r with None => r <| ResultErr := Some e |> | Some _ => r end.

Definition captureFirstOutputChunk (elapsed : duration) (r : SSEResult) : SSEResult :=
  match TTFTMs r with None => r <| TTFTMs := Some (Z.quot elapsed (10 ^ 6)) |> | Some _ => r end.

Definition processSSEEvent (data : string) (rc : SSEResult * option ResponsesSSECollector)
    : SSEResult * option ResponsesSSECollector :=
  let '(r, c) := rc in
  let r := match ExtractUsageFromEvent data with Some u => r <| TokenUsage := Some u |> | None => r end in
  match c with
  | None => (r, None)
  | Some c =>
      match AddEvent data c with
      | Ok c => (r, Some c)
      | Err e => (note (Wrapf "collect SSE response event: %w" [] e) r, Some c)
      end
  end.

Section forward.
Context (maxSSEEventBytes : Z) (elapsed : duration).

(** An event that is complete is read; one that was too large is dropped. *)
Definition dispatch (s : state) : state :=
  if negb (eventTooLarge s) && (0 <? lenZ (eventData s)) then
    let '(r, c) := processSSEEvent (eventData s)
                     (captureFirstOutputChunk elapsed (result_ s), responseCollector s) in
    mkState r c "" false
  else s <| eventData := "" |> <| eventTooLarge := false |>.

Definition add_data (data : string) (s : state) : state :=
  if eventTooLarge s then s
  else
    let some := 0 <? lenZ (eventData s) in
    let nextLen := lenZ (eventData s) + lenZ data + (if some then 1 else 0) in
    if maxSSEEventBytes <? nextLen then
      mkState (note (Sentinel ErrSSEEventTooLarge) (result_ s)) (responseCollector s) "" true
    else s <| eventData := if some then eventData s +:+ newline +:+ data else data |>.

Definition on_line (line : string) (s : state) : state :=
  if HasPrefix line ":" then s
  else match sseField line "data" with
       | Some data => add_data data s
       | None => if String.eqb line "" then dispatch s else s
       end.

(** The two writes of a line; a blank one is also flushed. *)
Definition line_out (can_flush : bool) (line : string) : list wcmd :=
  [WriteString line; WriteString newline] ++ (if String.eqb line "" && can_flush then [Flush] else []).

(** The last event needs no blank line. *)
Definition last_event (s : state) : state :=
  if negb (eventTooLarge s) && (0 <? lenZ (eventData s)) then dispatch s else s.

Definition scanner_error (e : error) : error :=
  if errors_Is e ErrTooLong
  then Wrapf2 "errors.Join: %w, %w" (Sentinel ErrSSEEventTooLarge) e else e.

(** After the loop: the scanner's error replaces any other, then the body is
    aggregated. *)
Definition finish (captureBody : bool) (serr : option error) (s : state) : SSEResult :=
  let r := match serr with
           | Some e => result_ s <| ResultErr := Some (scanner_error e) |>
           | None => result_ s
           end in
  if captureBody then
    let '(body, ok, err) := AggregateJSON false (responseCollector s) in
    let r := match err with
             | Some e => note (Wrapf "aggregate SSE response body: %w" [] e) r
             | None => r
             end in
    if ok then r <| UpstreamResponseBody := body |> else r
  else r.

Definition ForwardSSE (can_flush captureBody : bool) (upstream : reader) : SSEResult * list wcmd :=
  let limit := buffer_limit (256 * 1024) (wrap64 (maxSSEEventBytes + 6 + 2)) in
  let '(ls, serr) := Scan limit upstream in
  let s0 := mkState (mkSSEResult None "" None None)
              (if captureBody then Some new_collector else None) "" false in
  let s := last_event (foldl (fun s line => on_line line s) s0 ls) in
  (finish captureBody serr s,
   List.concat (List.map (line_out can_flush) ls) ++ (if can_flush then [Flush] else [])).

End forward.

(** ** The stream as a sequence of events

    What the loop computes, without its buffer: the lines between two blank
    ones are a paragraph, the data fields of a paragraph, joined by newlines,
    are its text; leading empty fields leave no trace. *)

Definition data_field (line : string) : option string :=
  if HasPrefix line ":" then None else sseField line "data".

Fixpoint paragraphs (ls : list string) : list string * list (list string) :=
  match ls with
  | [] => ([], [])
  | line :: ls' =>
      let '(p, ps) := paragraphs ls' in
      if String.eqb line "" then ([], p :: ps) else (line :: p, ps)
  end.

Definition paragraph_text (p : list string) : string :=
  Join (drop_while (fun d => String.eqb d "") (omap data_field p)) newline.

Definition texts (ls : list string) : list string :=
  let '(p, ps) := paragraphs ls in List.map paragraph_text (p :: ps).

(** How one paragraph changes the result. *)
Definition deliver (max : Z) (elapsed : duration) (rc : SSEResult * option ResponsesSSECollector) (text : string)
    : SSEResult * option ResponsesSSECollector :=
  if max <? lenZ text then (note (Sentinel ErrSSEEventTooLarge) (fst rc), snd rc)
  else if String.eqb text "" then rc
  else processSSEEvent text (captureFirstOutputChunk elapsed (fst rc), snd rc).

Definition events (max : Z) (ls : list string) : list string :=
  List.filter (fun t => negb (String.eqb t "") && (lenZ t <=? max)) (texts ls).

End sse.

Example ForwardSSE_ex :
  sse.ForwardSSE 40 5000000 true false
    (mkReader (dq "data: {'object':'chat.completion.chunk',
data: 'usage':{'prompt_tokens':2}}

: ping

data: {'object':'chat.completion.chunk'}
data
data:x
") None)
  = (sse.mkSSEResult None "" (Some 5) (Some (Sentinel ErrSSEEventTooLarge)),
     [sse.WriteString (dq "data: {'object':'chat.completion.chunk',"); sse.WriteString newline;
      sse.WriteString (dq "data: 'usage':{'prompt_tokens':2}}"); sse.WriteString newline;
      sse.WriteString ""; sse.WriteString newline; sse.Flush;
      sse.WriteString ": ping"; sse.WriteString newline;
      sse.WriteString ""; sse.WriteString newline; sse.Flush;
      sse.WriteString (dq "data: {'object':'chat.completion.chunk'}"); sse.WriteString newline;
      sse.WriteString "data"; sse.WriteString newline;
      sse.WriteString "data:x"; sse.WriteString newline; sse.Flush]).
Proof. vm_compute. reflexivity. Qed.
