(* ===== verification/SSEProofs.v ===== *)
(** * SSEProofs: the relayed stream and what is read from it *)

From S2P Require Import Prelude GoLib GoHTTP GoJSON GoAny GoBufio Errors Usage Collector SSE.
Import usage collector sse.

(** ** Texts and their lengths *)

Lemma lenZ_app a b : lenZ (a +:+ b) = lenZ a + lenZ b.
Proof. unfold lenZ. rewrite length_str_app. lia. Qed.

Lemma lenZ_nonneg s : 0 <= lenZ s.
Proof. unfold lenZ. lia. Qed.

Lemma lenZ_pos s : (0 <? lenZ s) = negb (String.eqb s "").
Proof. by destruct s. Qed.

(** The text of a paragraph, one line at a time. *)
Definition extend (t line : string) : string :=
  match data_field line with
  | Some d => if String.eqb t "" then d else t +:+ newline +:+ d
  | None => t
  end.

Lemma extend_length t line : lenZ t <= lenZ (extend t line).
Proof.
  unfold extend. destruct (data_field line); [|lia].
  destruct (String.eqb_spec t "") as [->|]; [apply lenZ_nonneg|]. rewrite !lenZ_app.
  pose proof (lenZ_nonneg s). pose proof (lenZ_nonneg newline). lia.
Qed.

Lemma extend_fields p : forall t, t <> "" -> foldl extend t p = Join (t :: omap data_field p) newline.
Proof.
  induction p as [|l p IH]; intros t Ht; [done|]. cbn [foldl omap list_omap]. unfold extend at 2.
  destruct (data_field l) as [d|] eqn:E; [|by apply IH].
  apply String.eqb_neq in Ht as Hb. rewrite Hb, IH by (by destruct t).
  cbn [Join]. destruct (omap data_field p); by rewrite ?str_app_assoc.
Qed.

Lemma paragraph_text_extend p : paragraph_text p = foldl extend "" p.
Proof.
  unfold paragraph_text. induction p as [|l p IH]; [done|]. cbn [foldl omap list_omap]. unfold extend at 2.
  cbn [String.eqb]. destruct (data_field l) as [d|]; [|done]. cbn [drop_while].
  destruct (String.eqb_spec d "") as [->|Hd]; [done|]. by rewrite extend_fields.
Qed.

(** ** The loop, a paragraph at a time *)

Section loop.
Context (max : Z) (elapsed : duration) (Hmax : 0 < max).

(** The loop's state between two lines of a paragraph whose text is [t]. *)
Definition at_text (t : string) (rc : SSEResult * option ResponsesSSECollector) : state :=
  if max <? lenZ t then mkState (note (Sentinel ErrSSEEventTooLarge) (fst rc)) (snd rc) "" true
  else mkState (fst rc) (snd rc) t false.

Lemma on_data d t rc :
  add_data max d (at_text t rc) = at_text (if String.eqb t "" then d else t +:+ newline +:+ d) rc.
Proof.
  unfold add_data, at_text. pose proof (lenZ_nonneg d). destruct (Z.ltb_spec max (lenZ t)) as [Hl|Hl]; cbn.
  - assert (max < lenZ (if String.eqb t "" then d else t +:+ newline +:+ d)) as H'.
    { destruct (String.eqb_spec t "") as [->|]; [unfold lenZ in Hl at 1; cbn in Hl; lia|].
      rewrite !lenZ_app. pose proof (lenZ_nonneg newline). lia. }
    by rewrite (proj2 (Z.ltb_lt _ _) H').
  - rewrite lenZ_pos. destruct (String.eqb_spec t "") as [->|Ht]; cbn [negb].
    + change (lenZ "") with 0. replace (0 + lenZ d + 0) with (lenZ d) by lia. by destruct (max <? lenZ d).
    + rewrite !lenZ_app. change (lenZ newline) with 1.
      replace (lenZ t + lenZ d + 1) with (lenZ t + (1 + lenZ d)) by lia. by destruct (max <? _).
Qed.

Lemma on_line_text line t rc :
  line <> "" -> on_line max elapsed line (at_text t rc) = at_text (extend t line) rc.
Proof.
  intros Hl. unfold on_line, extend, data_field. destruct (HasPrefix line ":"); [done|].
  destruct (sseField line "data") as [d|]; [apply on_data|]. apply String.eqb_neq in Hl. by rewrite Hl.
Qed.

Lemma dispatch_text t rc : dispatch elapsed (at_text t rc) = at_text "" (deliver max elapsed rc t).
Proof.
  unfold dispatch, at_text, deliver. destruct rc as [r c]. change (lenZ "") with 0.
  rewrite (proj2 (Z.ltb_ge max 0)) by lia. destruct (max <? lenZ t); cbn; [done|].
  rewrite lenZ_pos. destruct (String.eqb_spec t "") as [->|]; cbn; [done|].
  by destruct (match c with None => _ | Some c0 => _ end).
Qed.

Lemma on_blank t rc : on_line max elapsed "" (at_text t rc) = at_text "" (deliver max elapsed rc t).
Proof. apply dispatch_text. Qed.

Lemma last_event_text t rc :
  result_ (last_event elapsed (at_text t rc)) = fst (deliver max elapsed rc t)
  /\ responseCollector (last_event elapsed (at_text t rc)) = snd (deliver max elapsed rc t).
Proof.
  unfold last_event. destruct (negb _ && _) eqn:E.
  - rewrite dispatch_text. unfold at_text. change (lenZ "") with 0. by rewrite (proj2 (Z.ltb_ge max 0)) by lia.
  - revert E. unfold at_text, deliver. destruct (max <? lenZ t); cbn; [done|].
    rewrite lenZ_pos. by destruct (String.eqb t "").
Qed.

Definition run (ls : list string) (s : state) : state := foldl (fun s line => on_line max elapsed line s) s ls.

(** The loop computes the texts of the paragraphs and delivers them in order. *)
Lemma run_delivers ls : forall t rc,
  let s := last_event elapsed (run ls (at_text t rc)) in
  let '(p, ps) := paragraphs ls in
  (result_ s, responseCollector s)
  = foldl (deliver max elapsed) rc (foldl extend t p :: List.map paragraph_text ps).
Proof.
  induction ls as [|l ls IH]; intros t rc; cbn [paragraphs].
  - cbn. destruct (last_event_text t rc) as [-> ->]. by destruct (deliver max elapsed rc t).
  - destruct (String.eqb_spec l "") as [->|Hl].
    + specialize (IH "" (deliver max elapsed rc t)). destruct (paragraphs ls) as [p ps].
      unfold run. cbn [foldl]. rewrite on_blank. cbv zeta in IH. unfold run in IH. rewrite IH.
      cbn [foldl List.map]. by rewrite paragraph_text_extend.
    + specialize (IH (extend t l) rc). destruct (paragraphs ls) as [p ps].
      unfold run. cbn [foldl]. rewrite on_line_text by done. exact IH.
Qed.

(** The buffer never holds more than the cap. *)
Lemma run_bounded ls : forall t rc, exists t' rc', run ls (at_text t rc) = at_text t' rc'.
Proof.
  induction ls as [|l ls IH]; intros t rc; [by exists t, rc|]. unfold run. cbn [foldl].
  destruct (String.eqb_spec l "") as [->|Hl].
  - rewrite on_blank. apply IH.
  - rewrite on_line_text by done. apply IH.
Qed.

Lemma at_text_bounded t rc : lenZ (eventData (at_text t rc)) <= max.
Proof. unfold at_text. destruct (Z.ltb_spec max (lenZ t)); cbn; [unfold lenZ; cbn; lia | lia]. Qed.

(** ** What the deliveries leave *)

Lemma note_usage e r : TokenUsage (note e r) = TokenUsage r.
Proof. unfold note. by destruct (ResultErr r). Qed.
Lemma note_ttft e r : TTFTMs (note e r) = TTFTMs r.
Proof. unfold note. by destruct (ResultErr r). Qed.
Lemma capture_usage r : TokenUsage (captureFirstOutputChunk elapsed r) = TokenUsage r.
Proof. unfold captureFirstOutputChunk. by destruct (TTFTMs r). Qed.
Lemma capture_err r : ResultErr (captureFirstOutputChunk elapsed r) = ResultErr r.
Proof. unfold captureFirstOutputChunk. by destruct (TTFTMs r). Qed.
Lemma capture_ttft r : TTFTMs (captureFirstOutputChunk elapsed r)
  = Some (default (Z.quot elapsed (10 ^ 6)) (TTFTMs r)).
Proof. unfold captureFirstOutputChunk. by destruct (TTFTMs r) eqn:E; [rewrite E|]. Qed.

Definition is_event (t : string) : bool := negb (String.eqb t "") && (lenZ t <=? max).

(** The collector after one event; an event it refuses leaves no trace. *)
Definition collect_event (c : ResponsesSSECollector) (t : string) : ResponsesSSECollector :=
  match AddEvent t c with Ok c => c | Err _ => c end.

Lemma deliver_spec rc t :
  let rc' := deliver max elapsed rc t in
  TokenUsage (fst rc') = (if is_event t then match ExtractUsageFromEvent t with
                                            | Some u => Some u | None => TokenUsage (fst rc) end
                         else TokenUsage (fst rc))
  /\ TTFTMs (fst rc') = (if is_event t then Some (default (Z.quot elapsed (10 ^ 6)) (TTFTMs (fst rc)))
                        else TTFTMs (fst rc))
  /\ snd rc' = (if is_event t then (fun c => collect_event c t) <$> snd rc else snd rc)
  /\ (snd rc = None ->
      ResultErr (fst rc') = match ResultErr (fst rc) with
                            | Some e => Some e
                            | None => if max <? lenZ t then Some (Sentinel ErrSSEEventTooLarge) else None
                            end).
Proof.
  destruct rc as [r c]. unfold deliver, is_event. cbn [fst snd]. rewrite Z.leb_antisym.
  destruct (max <? lenZ t) eqn:Hm; cbn [negb].
  - rewrite andb_false_r. cbn [fst snd]. rewrite note_usage, note_ttft. split_and!; try done. unfold note. by destruct (ResultErr r) eqn:E.
  - destruct (String.eqb t ""); cbn [negb andb fst snd].
    + split_and!; try done. intros _. by destruct (ResultErr r).
    + unfold processSSEEvent. pose proof (capture_usage r) as Hu. pose proof (capture_err r) as He.
      pose proof (capture_ttft r) as Ht. destruct (captureFirstOutputChunk elapsed r) as [u b tt e].
      cbn in Hu, He, Ht. subst u e tt. destruct c as [c|]; cbn [fmap option_fmap option_map].
      * unfold collect_event. destruct (AddEvent t c) as [c'|err]; cbn [fst snd].
        -- by destruct (ExtractUsageFromEvent t).
        -- rewrite note_usage, note_ttft. by destruct (ExtractUsageFromEvent t).
      * cbn [fst snd]. destruct (ExtractUsageFromEvent t); (split_and!; try done; intros _; cbn; by destruct (ResultErr r)).
Qed.
End loop.

(** ** All the texts of a stream *)

Lemma delivers_usage max elapsed ts : forall rc,
  TokenUsage (fst (foldl (deliver max elapsed) rc ts))
  = match last (omap ExtractUsageFromEvent (List.filter (is_event max) ts)) with
    | Some u => Some u
    | None => TokenUsage (fst rc)
    end.
Proof.
  induction ts as [|t ts IH]; intros rc; [done|]. cbn [foldl List.filter].
  destruct (deliver_spec max elapsed rc t) as (Hu & _). rewrite IH, Hu.
  destruct (is_event max t); [|done]. cbn [omap list_omap].
  destruct (ExtractUsageFromEvent t) as [u|]; [|done]. rewrite last_cons. by destruct (last _).
Qed.

Lemma delivers_ttft max elapsed ts : forall rc,
  TTFTMs (fst (foldl (deliver max elapsed) rc ts))
  = match List.filter (is_event max) ts with
    | [] => TTFTMs (fst rc)
    | _ => Some (default (Z.quot elapsed (10 ^ 6)) (TTFTMs (fst rc)))
    end.
Proof.
  induction ts as [|t ts IH]; intros rc; [done|]. cbn [foldl List.filter].
  destruct (deliver_spec max elapsed rc t) as (_ & Ht & _). rewrite IH, Ht.
  destruct (is_event max t); [|done]. by destruct (List.filter (is_event max) ts).
Qed.

Lemma delivers_collector max elapsed ts : forall rc,
  snd (foldl (deliver max elapsed) rc ts)
  = (fun c => foldl collect_event c (List.filter (is_event max) ts)) <$> snd rc.
Proof.
  induction ts as [|t ts IH]; intros rc; [cbn; by destruct (snd rc)|]. cbn [foldl List.filter].
  destruct (deliver_spec max elapsed rc t) as (_ & _ & Hc & _). rewrite IH, Hc.
  destruct (is_event max t); by destruct (snd rc).
Qed.

Lemma delivers_error max elapsed ts : forall rc,
  snd rc = None ->
  ResultErr (fst (foldl (deliver max elapsed) rc ts))
  = match ResultErr (fst rc) with
    | Some e => Some e
    | None => if existsb (fun t => max <? lenZ t) ts then Some (Sentinel ErrSSEEventTooLarge) else None
    end.
Proof.
  induction ts as [|t ts IH]; intros rc Hn; [cbn; by destruct (ResultErr (fst rc))|]. cbn [foldl existsb].
  destruct (deliver_spec max elapsed rc t) as (_ & _ & Hc & He). specialize (He Hn).
  rewrite IH, He.
  - destruct (ResultErr (fst rc)); [done|]. by destruct (max <? lenZ t).
  - rewrite Hc, Hn. by destruct (is_event max t).
Qed.

Lemma delivers_body max elapsed ts : forall rc,
  UpstreamResponseBody (fst (foldl (deliver max elapsed) rc ts)) = UpstreamResponseBody (fst rc).
Proof.
  induction ts as [|t ts IH]; intros rc; [done|]. cbn [foldl]. rewrite IH. destruct rc as [r c]. unfold deliver.
  destruct (max <? lenZ t); [by unfold note; destruct (ResultErr _)|]. destruct (String.eqb t ""); [done|].
  unfold processSSEEvent, captureFirstOutputChunk, note. cbn [fst snd].
  destruct (TTFTMs r), (ExtractUsageFromEvent t), c as [c|]; try destruct (AddEvent t c); cbn;
    try (by destruct (ResultErr r)); done.
Qed.

Lemma events_filter max ls : events max ls = List.filter (is_event max) (texts ls).
Proof. done. Qed.

(** The scanner's limit of [ForwardSSE]. *)
Definition sse_limit (max : Z) : Z := buffer_limit (256 * 1024) (wrap64 (max + 6 + 2)).

Definition sse_start (captureBody : bool) : SSEResult * option ResponsesSSECollector :=
  (mkSSEResult None "" None None, if captureBody then Some new_collector else None).

Lemma start_text max rc : 0 < max -> at_text max "" rc = mkState (fst rc) (snd rc) "" false.
Proof. intros Hmax. unfold at_text. change (lenZ "") with 0. by rewrite (proj2 (Z.ltb_ge max 0)) by lia. Qed.

(** The loop over all the lines. *)
Lemma forward_delivers max elapsed b ls :
  0 < max ->
  let s := last_event elapsed (run max elapsed ls (mkState (fst (sse_start b)) (snd (sse_start b)) "" false)) in
  (result_ s, responseCollector s) = foldl (deliver max elapsed) (sse_start b) (texts ls).
Proof.
  intros Hmax. pose proof (run_delivers max elapsed Hmax ls "" (sse_start b)) as H.
  rewrite start_text in H by done. cbv zeta in *.
  unfold texts. destruct (paragraphs ls) as [p ps]. cbn [List.map]. rewrite paragraph_text_extend. exact H.
Qed.

Definition written (cmds : list wcmd) : string :=
  concat_str (List.map (fun c => match c with WriteString s => s | Flush => "" end) cmds).

Lemma written_app a b : written (a ++ b) = written a +:+ written b.
Proof. unfold written. by rewrite List.map_app, concat_str_app. Qed.

Lemma written_lines can_flush ls :
  written (List.concat (List.map (line_out can_flush) ls) ++ (if can_flush then [Flush] else [])) = unlines ls.
Proof.
  rewrite written_app. replace (written (if can_flush then [Flush] else [])) with "" by (by destruct can_flush).
  rewrite str_app_nil_r. induction ls as [|l ls IH]; [done|].
  cbn [List.map List.concat]. rewrite written_app, IH, unlines_cons.
  f_equal. unfold line_out. by destruct (String.eqb l "" && can_flush).
Qed.

Lemma finish_spec b serr s :
  let res := finish b serr s in
  TokenUsage res = TokenUsage (result_ s) /\ TTFTMs res = TTFTMs (result_ s)
  /\ UpstreamResponseBody res
     = (if b then let '(body, ok, _) := AggregateJSON false (responseCollector s) in
                  if ok then body else UpstreamResponseBody (result_ s)
        else UpstreamResponseBody (result_ s))
  /\ (b = false -> ResultErr res = match serr with Some e => Some (scanner_error e) | None => ResultErr (result_ s) end).
Proof.
  unfold finish. destruct s as [[u body t e] c d big]. cbn [result_ responseCollector].
  destruct b; [|by destruct serr]. destruct (AggregateJSON false c) as [[doc ok] err].
  destruct serr as [e'|], err, ok; unfold note; cbn; try done; by destruct e.
Qed.

(** C9: the event loop of [ForwardSSE] reads the events of the stream.  For a
    stream in any state of well-formedness: the recorded usage is the one of
    the last event that carries any, the time to the first chunk is taken at
    the first event, the logged body is the aggregate of the events, and,
    without a logged body, the error is the scanner's, or that an event was
    over the cap, or none.  Events over the cap are skipped, not the rest. *)
Theorem forward_reads_events max elapsed can_flush captureBody upstream :
  0 < max ->
  let '(ls, serr) := Scan (sse_limit max) upstream in
  let res := fst (ForwardSSE max elapsed can_flush captureBody upstream) in
  let evs := events max ls in
  TokenUsage res = last (omap ExtractUsageFromEvent evs)
  /\ TTFTMs res = (match evs with [] => None | _ => Some (Z.quot elapsed (10 ^ 6)) end)
  /\ (captureBody = true ->
        let '(body, ok, _) := AggregateJSON false (Some (foldl collect_event new_collector evs)) in
        UpstreamResponseBody res = (if ok then body else ""))
  /\ (captureBody = false ->
        UpstreamResponseBody res = ""
        /\ ResultErr res = match serr with
                           | Some e => Some (scanner_error e)
                           | None => if existsb (fun t => max <? lenZ t) (texts ls)
                                     then Some (Sentinel ErrSSEEventTooLarge) else None
                           end).
Proof.
  intros Hmax. unfold ForwardSSE. fold (sse_limit max). destruct (Scan (sse_limit max) upstream) as [ls serr].
  pose proof (forward_delivers max elapsed captureBody ls Hmax) as H. unfold run in H.
  pose proof (delivers_usage max elapsed (texts ls) (sse_start captureBody)) as Hu.
  pose proof (delivers_ttft max elapsed (texts ls) (sse_start captureBody)) as Ht.
  pose proof (delivers_collector max elapsed (texts ls) (sse_start captureBody)) as Hc.
  pose proof (delivers_error max elapsed (texts ls) (sse_start captureBody)) as He.
  pose proof (delivers_body max elapsed (texts ls) (sse_start captureBody)) as Hb.
  rewrite <- H in Hu, Ht, Hc, He, Hb. clear H. cbn [sse_start fst snd] in *. fold (events max ls) in *.
  set (s := last_event elapsed _) in *. clearbody s. cbn [fst snd TokenUsage TTFTMs ResultErr UpstreamResponseBody] in *.
  destruct (finish_spec captureBody serr s) as (-> & -> & Hbody & Herr). fold (events max ls) in Hu, Ht, Hc.
  split; [rewrite Hu; by destruct (last _)|]. split; [exact Ht|]. split; intros ->.
  - rewrite Hc in Hbody. cbn [fmap option_fmap option_map] in Hbody. rewrite Hb in Hbody.
    by destruct (AggregateJSON false _) as [[body ok] err].
  - split; [congruence|]. rewrite Herr, He by done. done.
Qed.

(** C31: what [ForwardSSE] does to the client and to the memory.  The client
    receives the lines of the upstream up to the first one that is too long,
    in order, each ended by a newline, whatever the events are; a stream of
    such lines passes unchanged.  At no point does the loop hold more of an
    event than the cap. *)
Theorem forward_relays max elapsed can_flush captureBody upstream :
  0 < max ->
  let '(ls, serr) := Scan (sse_limit max) upstream in
  let cmds := snd (ForwardSSE max elapsed can_flush captureBody upstream) in
  written cmds = unlines ls
  /\ (serr <> Some (Sentinel ErrTooLong) ->
        unlines ls = unlines (List.map dropCR (let ps := Split (rd_data upstream) lf in
                               match List.rev ps with "" :: r => List.rev r | _ => ps end)))
  /\ (forall ls', Forall (fun l => plain_line (sse_limit max) l = true) ls' ->
        rd_data upstream = unlines ls' -> written cmds = rd_data upstream)
  /\ (forall n, let s := run max elapsed (take n ls) (mkState (fst (sse_start captureBody))
                           (snd (sse_start captureBody)) "" false) in
        lenZ (eventData s) <= max).
Proof.
  intros Hmax. destruct (Scan (sse_limit max) upstream) as [ls serr] eqn:Es.
  assert (written (snd (ForwardSSE max elapsed can_flush captureBody upstream)) = unlines ls) as Hw.
  { unfold ForwardSSE. fold (sse_limit max). rewrite Es. apply written_lines. }
  split; [exact Hw|]. split; [|split].
  - intros Hne. f_equal. pose proof (scan_pieces_all (sse_limit max) (rd_err upstream) (Split (rd_data upstream) lf)) as H.
    unfold Scan in Es. rewrite Es in H. by apply H.
  - intros ls' Hp Hd. rewrite Hw, Hd. f_equal. destruct upstream as [d e]. cbn [rd_data] in Hd. subst d.
    rewrite Scan_unlines in Es; [by injection Es|unfold sse_limit, buffer_limit; lia|done].
  - intros n. cbv zeta. rewrite <- (start_text max) by done.
    destruct (run_bounded max elapsed Hmax (take n ls) "" (sse_start captureBody)) as (t & rc & ->).
    by apply at_text_bounded.
Qed.
