(* ===== verification/ChatRequest.v ===== *)
(** * ChatRequest: chat completions as Responses requests (chat_adapter.go)

    The request half of the chat adapter: the fields of a chat completion
    request are read one by one, messages become instructions and input items,
    and the result goes through the native normalisation of [CodexRequest].
    Warnings about ignored fields are logging. *)

From S2P Require Import Prelude GoLib GoHTTP GoJSON GoAny Errors CodexRequest.
Import codex.

Module chat.

(** A Go call that may panic. *)
Inductive outcome (A : Type) :=
  | Returned (r : result error A)
  | Panicked.
Arguments Returned {A} r.
Arguments Panicked {A}.

Definition invalid (msg : string) (args : list farg) : error :=
  Wrapf ("%w: " +:+ msg) args (Sentinel errChatAdapterValidation).
Definition reject {A} (msg : string) : result error A := Err (invalid msg []).

Record chatAdapterRequest := mkAdapted {
  model : string; stream : bool; includeUsage : bool; upstreamBody : string }.

(** ** Raw fields

    [map[string]json.RawMessage]; a null field counts as missing. *)
Abbreviation raw_fields := (list (string * json)).

Definition field (raw : raw_fields) (name : string) : option json :=
  match obj_get name raw with Some JNull | None => None | Some v => Some v end.

Definition requiredJSONString (raw : raw_fields) (name : string) : result error string :=
  match field raw name with
  | None => Err (invalid "missing %q" [FStr name])
  | Some (JStr out) =>
      if String.eqb (TrimSpace out) "" then Err (invalid "%q must be a non-empty string" [FStr name]) else Ok out
  | Some _ => Err (invalid "%q must be a non-empty string" [FStr name])
  end.

Definition optionalJSONBool (value : option json) : result error bool :=
  match value with
  | None => Ok false
  | Some (JBool b) => Ok b
  | Some _ => reject "stream must be boolean"
  end.

Definition optionalJSONInt (value : option json) (name : string) : result error (option Z) :=
  match value with
  | None => Ok None
  | Some v =>
      match dec_int v 0 with
      | Some z => if z <? 0 then Err (invalid "%s must be non-negative" [FStr name]) else Ok (Some z)
      | None => Err (invalid "%s must be integer" [FStr name])
      end
  end.

Definition optionalJSONString (value : option json) (name : string) : result error (option string) :=
  match value with
  | None => Ok None
  | Some (JStr s) =>
      if String.eqb (TrimSpace s) "" then Err (invalid "%s must be a non-empty string" [FStr name]) else Ok (Some s)
  | Some _ => Err (invalid "%s must be a string" [FStr name])
  end.

Definition validateChatStore (value : option json) : result error unit :=
  match value with
  | None | Some (JBool false) => Ok tt
  | Some (JBool true) => reject "store=true is not supported"
  | Some _ => reject "store must be boolean"
  end.

Definition validateChatN (value : option json) : result error unit :=
  match value with
  | None => Ok tt
  | Some v =>
      match dec_int v 0 with
      | Some z => if z =? 1 then Ok tt else reject "n must be 1"
      | None => reject "n must be integer"
      end
  end.

Definition chatMaxOutputTokens (maxTokens maxCompletionTokens : option json) : result error (option Z) :=
  a ← optionalJSONInt maxTokens "max_tokens";
  b ← optionalJSONInt maxCompletionTokens "max_completion_tokens";
  match a, b with
  | Some x, Some y => if x =? y then Ok (Some y) else reject "conflicting token limits"
  | None, Some y => Ok (Some y)
  | Some x, None => Ok (Some x)
  | None, None => Ok None
  end.

(** ** Slices of objects: [[]map[string]any], where null is a nil map *)

Definition map_elem (v : json) : option (option obj) :=
  match v with
  | JNull => Some None
  | JObj _ => a ← any_of v; match a with AMap m => Some (Some m) | _ => None end
  | _ => None
  end.

Definition map_slice (v : json) : option (list (option obj)) :=
  match v with JArr l => mapM_list map_elem l | _ => None end.

(** Reading a key of a nil map gives nil. *)
Definition get (m : option obj) (k : string) : option any := m ≫= lookup k.

(** ** Messages *)

Definition known_role (role : string) : bool :=
  existsb (String.eqb role) ["system"; "developer"; "user"; "assistant"; "tool"].

Fixpoint check_roles (values : list (option obj)) : result error (list obj) :=
  match values with
  | [] => Ok []
  | value :: values' =>
      let role := codexStringValue (get value "role") in
      if known_role role then rest ← check_roles values'; Ok (default ∅ value :: rest)
      else Err (invalid "unsupported message role %q" [FStr role])
  end.

Definition decodeChatMessages (value : option json) : result error (list obj) :=
  match value with
  | None => reject "missing messages"
  | Some v =>
      match map_slice v with
      | None => reject "messages must be an array of objects"
      | Some [] => reject "messages must be non-empty"
      | Some values => check_roles values
      end
  end.

Definition text_part (p : obj) : result error string :=
  let partType := codexStringValue (p !! "type") in
  if negb (String.eqb partType "") && negb (String.eqb partType "text") then Err (New "non-text content part")
  else match as_str (p !! "text") with
       | Some text => Ok text
       | None => Err (New "text part missing text")
       end.

Fixpoint text_parts (parts : list any) : result error (list string) :=
  match parts with
  | [] => Ok []
  | part :: parts' =>
      text ← (match part with
              | AStr p => Ok p
              | AMap p => text_part p
              | _ => Err (New "invalid content part")
              end);
      rest ← text_parts parts'; Ok (text :: rest)
  end.

Definition newline : string := String "010" "".

Definition chatTextContent (value : any) : result error string :=
  match value with
  | ANil => Ok ""
  | AStr v => Ok v
  | AArr parts => texts ← text_parts parts; Ok (Join texts newline)
  | AMap v => text_part v
  | _ => Err (New "invalid text content")
  end.

Definition image_part (url : string) (detail : option string) : obj :=
  let output := list_to_map [("type", AStr "input_image"); ("image_url", AStr url)] in
  match detail with Some d => <["detail" := AStr d]> output | None => output end.

Definition normalizeChatUserContentPart (value : any) : result error obj :=
  match value with
  | AMap part =>
      let typeName := codexStringValue (part !! "type") in
      if String.eqb typeName "text" then
        match as_str (part !! "text") with
        | Some text => Ok (list_to_map [("type", AStr "input_text"); ("text", AStr text)])
        | None => Err (New "text content part must include string text")
        end
      else if String.eqb typeName "image_url" then
        match as_map (part !! "image_url") with
        | None => Err (New "image_url content part must be an object")
        | Some image =>
            match nonEmptyCodexString (image !! "url") with
            | None => Err (New "image_url content part must include non-empty string url")
            | Some url =>
                let lowerURL := ToLower url in
                if negb (HasPrefix lowerURL "https://") && negb (HasPrefix lowerURL "data:")
                then Err (New "image_url content part url must use https or data scheme")
                else match image !! "detail" with
                     | None => Ok (image_part url None)
                     | Some (AStr d) =>
                         if String.eqb d "auto" || String.eqb d "low" || String.eqb d "high"
                         then Ok (image_part url (Some d))
                         else Err (New "image_url detail must be auto, low, or high")
                     | Some _ => Err (New "image_url detail must be auto, low, or high")
                     end
            end
        end
      else Err (Errorf "unsupported user content part type %q" [FStr typeName])
  | _ => Err (New "user content part must be an object")
  end.

Fixpoint user_parts (content : list any) : result error (list any) :=
  match content with
  | [] => Ok []
  | part :: content' =>
      p ← normalizeChatUserContentPart part; rest ← user_parts content'; Ok (AMap p :: rest)
  end.

Definition normalizeChatUserContent (value : any) : result error any :=
  match value with
  | AStr content => Ok (AArr [obj_of [("type", AStr "input_text"); ("text", AStr content)]])
  | AArr [] => Err (New "user content must not be empty")
  | AArr content => parts ← user_parts content; Ok (AArr parts)
  | _ => Err (New "user content must be a string or array")
  end.

Definition function_call (callID name args : string) : any :=
  obj_of [("type", AStr "function_call"); ("call_id", AStr callID); ("name", AStr name); ("arguments", AStr args)].

Definition call_error (idx : Z) (what : string) : error :=
  invalid ("assistant tool_calls[%d]" +:+ what) [FInt idx].

(** One element of [tool_calls]: its id, name and arguments. *)
Definition read_tool_call (idx : Z) (raw : any) : result error (string * string * string) :=
  match raw with
  | AMap toolCall =>
      let callID := firstString [toolCall !! "id"; toolCall !! "call_id"; toolCall !! "tool_call_id"] in
      if String.eqb callID "" then Err (call_error idx ".id is required")
      else match as_map (toolCall !! "function") with
           | None => Err (call_error idx ".function is required")
           | Some fn =>
               let name := firstString [fn !! "name"] in
               if String.eqb name "" then Err (call_error idx ".function.name is required")
               else match as_str (fn !! "arguments") with
                    | None => Err (call_error idx ".function.arguments must be a string")
                    | Some args => Ok (callID, name, args)
                    end
           end
  | _ => Err (call_error idx " must be an object")
  end.

Fixpoint tool_call_items (idx : Z) (calls : list any) : result error (list any) :=
  match calls with
  | [] => Ok []
  | raw :: calls' =>
      '(callID, name, args) ← read_tool_call idx raw;
      rest ← tool_call_items (idx + 1) calls';
      Ok (function_call callID name args :: rest)
  end.

Definition assistant_content (msg : obj) : list any :=
  (let text := content_text (msg !! "content") in
   if String.eqb text "" then [] else [output_text text])
  ++ match as_str (msg !! "refusal") with
     | Some refusal => if String.eqb refusal "" then []
                       else [obj_of [("type", AStr "refusal"); ("refusal", AStr refusal)]]
     | None => []
     end.

Definition assistantChatInputItems (msg : obj) : result error (list any) :=
  let contentParts := assistant_content msg in
  let items := match contentParts with
               | [] => []
               | _ => [obj_of [("role", AStr "assistant"); ("content", AArr contentParts)]]
               end in
  if is_nil (msg !! "tool_calls") then Ok items
  else match as_arr (msg !! "tool_calls") with
       | None => reject "assistant tool_calls must be an array"
       | Some toolCalls => calls ← tool_call_items 0 toolCalls; Ok (items ++ calls)
       end.

Definition user_item (role : string) (msg : obj) : result error obj :=
  let item := <["role" := AStr role]> msg in
  match msg !! "content" with
  | None => Ok item
  | Some value =>
      match normalizeChatUserContent value with
      | Ok content => Ok (<["content" := content]> item)
      | Err e => Err (Wrapf2 "%w: %w" (Sentinel errChatAdapterValidation) e)
      end
  end.

Definition chatInputItemsFromMessage (role : string) (msg : obj) : result error (list any) :=
  if String.eqb role "assistant" then assistantChatInputItems msg
  else if String.eqb role "tool" then
    let callID := firstString [msg !! "tool_call_id"; msg !! "toolCallId"; msg !! "call_id"] in
    if String.eqb callID "" then reject "tool messages must include tool_call_id"
    else Ok [AMap (function_call_output callID (content_text (msg !! "content")))]
  else item ← user_item role msg; Ok [AMap item].

(** The instruction texts and the input items, in message order. *)
Fixpoint convert_messages (messages : list obj) : result error (list string * list any) :=
  match messages with
  | [] => Ok ([], [])
  | msg :: messages' =>
      let role := codexStringValue (msg !! "role") in
      if String.eqb role "system" || String.eqb role "developer" then
        match chatTextContent (default ANil (msg !! "content")) with
        | Err _ => Err (invalid "%s messages must be text-only" [FStr role])
        | Ok text =>
            '(instructions, input) ← convert_messages messages';
            Ok (if String.eqb text "" then instructions else text :: instructions, input)
        end
      else
        items ← chatInputItemsFromMessage role msg;
        '(instructions, input) ← convert_messages messages';
        Ok (instructions, items ++ input)
  end.

Definition convertChatMessages (messages : list obj) : result error (string * list any) :=
  '(instructions, input) ← convert_messages messages; Ok (Join instructions newline, input).

(** ** The other fields *)

(** A value that does not decode is skipped. *)
Definition copyOptionalRawJSON (raw : raw_fields) (name : string) (payload : obj) : obj :=
  match field raw name ≫= any_of with
  | Some decoded => <[name := decoded]> payload
  | None => payload
  end.

Definition chatReasoning (reasoningRaw effortRaw : option json) : result error (option obj) :=
  reasoning ← (match reasoningRaw with
               | None => Ok ∅
               | Some v =>
                   match map_elem v with
                   | Some m => Ok (default ∅ m)
                   | None => reject "reasoning must be an object"
                   end
               end : result error obj);
  effort ← optionalJSONString effortRaw "reasoning_effort";
  let reasoning := match effort with Some e => <["effort" := AStr e]> reasoning | None => reasoning end in
  Ok (if bool_decide (reasoning = ∅) then None else Some reasoning).

(** One tool; a null element is a nil map, whose assignment panics. *)
Definition normalize_tool (tool : option obj) : outcome obj :=
  let toolType := codexStringValue (get tool "type") in
  let toolType := if String.eqb toolType "" then "function" else toolType in
  if negb (existsb (String.eqb toolType) ["function"; "web_search"; "web_search_preview"])
  then Returned (Err (invalid "unsupported tool type %q" [FStr toolType]))
  else
    let toolType := if String.eqb toolType "web_search_preview" then "web_search" else toolType in
    match as_map (get tool "function") with
    | Some fn =>
        let name := codexStringValue (fn !! "name") in
        if String.eqb name "" then Returned (reject "function tool missing name")
        else Returned (Ok (list_to_map [("type", AStr "function"); ("name", AStr name);
                             ("description", default ANil (fn !! "description"));
                             ("parameters", default ANil (fn !! "parameters"))]))
    | None =>
        match tool with
        | Some t => Returned (Ok (<["type" := AStr toolType]> t))
        | None => Panicked
        end
    end.

Fixpoint normalize_tools (tools : list (option obj)) : outcome (list any) :=
  match tools with
  | [] => Returned (Ok [])
  | tool :: tools' =>
      match normalize_tool tool with
      | Panicked => Panicked
      | Returned (Err e) => Returned (Err e)
      | Returned (Ok t) =>
          match normalize_tools tools' with
          | Returned (Ok rest) => Returned (Ok (AMap t :: rest))
          | o => o
          end
      end
  end.

Definition normalizeChatTools (value : option json) : outcome (option (list any)) :=
  match value with
  | None => Returned (Ok None)
  | Some v =>
      match map_slice v with
      | None => Returned (reject "tools must be an array")
      | Some tools =>
          match normalize_tools tools with
          | Panicked => Panicked
          | Returned (Ok out) => Returned (Ok (Some out))
          | Returned (Err e) => Returned (Err e)
          end
      end
  end.

Definition normalizeChatToolChoice (value : option json) : result error (option any) :=
  match value with
  | None => Ok None
  | Some v =>
      match any_of v with
      | None => reject "invalid tool_choice"
      | Some (AMap choice) =>
          match as_map (choice !! "function") with
          | Some fn =>
              let name := codexStringValue (fn !! "name") in
              if String.eqb name "" then reject "tool_choice function missing name"
              else
                let toolType := codexStringValue (choice !! "type") in
                let toolType := if String.eqb toolType "" then "function" else toolType in
                Ok (Some (obj_of [("type", AStr toolType); ("name", AStr name)]))
          | None => Ok (Some (AMap choice))
          end
      | Some decoded => Ok (Some decoded)
      end
  end.

Definition copy_key (src : obj) (out : obj) (key : string) : obj :=
  match src !! key with Some v => <[key := v]> out | None => out end.

Definition chatTextFormat (value : option json) : result error (option obj) :=
  match value with
  | None => Ok None
  | Some v =>
      match any_of v with
      | None => reject "invalid response_format"
      | Some (AStr s) =>
          if String.eqb s "text" || String.eqb s "json_object" then Ok (Some {["type" := AStr s]})
          else Err (invalid "unsupported response_format %q" [FStr s])
      | Some (AMap m) =>
          let formatType := codexStringValue (m !! "type") in
          if String.eqb formatType "text" || String.eqb formatType "json_object"
          then Ok (Some {["type" := AStr formatType]})
          else if String.eqb formatType "json_schema" then
            match as_map (m !! "json_schema") with
            | None => reject "response_format.json_schema required"
            | Some jsonSchema =>
                Ok (Some (foldl (copy_key jsonSchema) {["type" := AStr "json_schema"]} ["name"; "schema"; "strict"]))
            end
          else Err (invalid "unsupported response_format %q" [FStr formatType])
      | Some _ => reject "response_format must be string or object"
      end
  end.

Definition chatStreamIncludeUsage (value : option json) : result error bool :=
  match value with
  | None => Ok false
  | Some v =>
      match map_elem v with
      | None => reject "stream_options must be an object"
      | Some options =>
          if is_nil (get options "include_usage") then Ok false
          else match as_bool (get options "include_usage") with
               | Some include => Ok include
               | None => reject "stream_options.include_usage must be boolean"
               end
      end
  end.

(** ** The request *)

Definition copied_fields : list string :=
  ["temperature"; "top_p"; "stop"; "presence_penalty"; "frequency_penalty"; "seed"; "service_tier";
   "parallel_tool_calls"; "verbosity"; "prompt_cache_key"].

Definition set_opt (key : string) (v : option any) (payload : obj) : obj :=
  match v with Some x => <[key := x]> payload | None => payload end.

Definition base_payload (model instructions : string) (input : list any) : obj :=
  list_to_map [("model", AStr model); ("instructions", AStr instructions); ("input", AArr input);
               ("store", ABool false); ("stream", ABool true)].

(** The payload up to the reasoning field, before the tools are read. *)
Definition chat_payload (raw : raw_fields) : result error (string * bool * obj) :=
  model ← requiredJSONString raw "model";
  messages ← decodeChatMessages (field raw "messages");
  stream ← optionalJSONBool (field raw "stream");
  _ ← validateChatStore (field raw "store");
  _ ← validateChatN (field raw "n");
  maxOutputTokens ← chatMaxOutputTokens (field raw "max_tokens") (field raw "max_completion_tokens");
  '(instructions, input) ← convertChatMessages messages;
  let payload := base_payload model instructions input in
  let payload := set_opt "max_output_tokens" (AInt <$> maxOutputTokens) payload in
  let payload := foldl (fun p name => copyOptionalRawJSON raw name p) payload copied_fields in
  reasoning ← chatReasoning (field raw "reasoning") (field raw "reasoning_effort");
  Ok (model, stream, set_opt "reasoning" (AMap <$> reasoning) payload).

(** From the tools on. *)
Definition finish_request (raw : raw_fields) (model : string) (stream : bool) (payload : obj)
    (tools : option (list any)) : result error chatAdapterRequest :=
  let payload := set_opt "tools" (AArr <$> tools) payload in
  toolChoice ← normalizeChatToolChoice (field raw "tool_choice");
  let payload := set_opt "tool_choice" toolChoice payload in
  text ← chatTextFormat (field raw "response_format");
  let payload := set_opt "text" ((fun format => AMap {["format" := AMap format]}) <$> text) payload in
  includeUsage ← chatStreamIncludeUsage (field raw "stream_options");
  upstreamBody ← marshalNativeCodexResponsesPayload payload;
  Ok (mkAdapted model stream includeUsage upstreamBody).

(** [body] is the request's body: absent, unreadable, or its bytes. *)
Definition buildChatAdapterRequest (body : option (result error string)) : outcome chatAdapterRequest :=
  match body with
  | None => Returned (reject "missing request body")
  | Some (Err e) => Returned (Err (Wrapf "read chat request body: %w" [] e))
  | Some (Ok data) =>
      match json_parse data ≫= raw_map with
      | None => Returned (Err (Wrapf2 "%w: decode request JSON: %w" (Sentinel errChatAdapterValidation) (New "invalid JSON")))
      | Some raw =>
          match chat_payload raw with
          | Err e => Returned (Err e)
          | Ok (model, stream, payload) =>
              match normalizeChatTools (field raw "tools") with
              | Panicked => Panicked
              | Returned (Err e) => Returned (Err e)
              | Returned (Ok tools) => Returned (finish_request raw model stream payload tools)
              end
          end
      end
  end.

Example build_ex :
  buildChatAdapterRequest (Some (Ok (dq "{'model':'gpt','stream':true,'max_tokens':5,'messages':[{'role':'system','content':'s'},{'role':'user','content':[{'type':'text','text':'q'}]},{'role':'assistant','content':null,'tool_calls':[{'id':'c1','type':'function','function':{'name':'f','arguments':'{}'}}]},{'role':'tool','tool_call_id':'c1','content':'r'}],'tools':[{'type':'function','function':{'name':'f','parameters':{}}}]}")))
  = Returned (Ok (mkAdapted "gpt" true false (dq "{'input':[{'content':[{'text':'q','type':'input_text'}],'role':'user'},{'arguments':'{}','call_id':'c1','name':'f','type':'function_call'},{'call_id':'c1','output':'r','type':'function_call_output'}],'instructions':'s','model':'gpt','store':false,'stream':true,'tools':[{'description':null,'name':'f','parameters':{},'type':'function'}]}"))).
Proof. vm_compute. reflexivity. Qed.

Example null_tool_ex :
  buildChatAdapterRequest (Some (Ok (dq "{'model':'gpt','messages':[{'role':'user','content':'q'}],'tools':[null]}"))) = Panicked.
Proof. vm_compute. reflexivity. Qed.
End chat.
