(* ===== verification/ChatProofs.v ===== *)
(** * ChatProofs: what the chat adapter's request means *)

From S2P Require Import Prelude GoLib GoHTTP GoJSON GoAny Errors CodexRequest CodexProofs ChatRequest.
Import codex chat.

(** ** Conversations as event sequences *)

(** What happened in a conversation, apart from the instructions. *)
Inductive event :=
  | EUser
  | EAssistant
  | ECall (callID name args : string)
  | EOutput (callID output : string).

Definition call_of (raw : any) : option event :=
  match raw with
  | AMap tc =>
      match as_map (tc !! "function") with
      | Some fn => Some (ECall (firstString [tc !! "id"; tc !! "call_id"; tc !! "tool_call_id"])
                           (codexStringValue (fn !! "name")) (codexStringValue (fn !! "arguments")))
      | None => None
      end
  | _ => None
  end.

Definition is_system (msg : obj) : bool :=
  let role := codexStringValue (msg !! "role") in String.eqb role "system" || String.eqb role "developer".

(** The events of a client's message. *)
Definition msg_events (msg : obj) : list event :=
  let role := codexStringValue (msg !! "role") in
  if is_system msg then []
  else if String.eqb role "assistant" then
    (match assistant_content msg with [] => [] | _ => [EAssistant] end)
    ++ omap call_of (default [] (as_arr (msg !! "tool_calls")))
  else if String.eqb role "tool" then
    [EOutput (firstString [msg !! "tool_call_id"; msg !! "toolCallId"; msg !! "call_id"])
       (content_text (msg !! "content"))]
  else [EUser].

(** The event of an input item of the backend. *)
Definition item_event (item : any) : option event :=
  match item with
  | AMap m =>
      match m !! "role" with
      | Some (AStr role) => Some (if String.eqb role "assistant" then EAssistant else EUser)
      | _ =>
          let str k := codexStringValue (m !! k) in
          if String.eqb (str "type") "function_call" then Some (ECall (str "call_id") (str "name") (str "arguments"))
          else if String.eqb (str "type") "function_call_output" then Some (EOutput (str "call_id") (str "output"))
          else None
      end
  | _ => None
  end.

Definition system_text (msg : obj) : option string :=
  if is_system msg then
    match chatTextContent (default ANil (msg !! "content")) with
    | Ok text => if String.eqb text "" then None else Some text
    | Err _ => None
    end
  else None.

Definition not_tool_item (item : any) : Prop :=
  match item with AMap m => m !! "role" <> Some (AStr "tool") | _ => True end.

(** Normalising an item does not change its event. *)
Lemma item_event_sanitized x y :
  not_tool_item x -> sanitizeCodexInputItem x = Ok y -> item_event y = item_event x.
Proof.
  destruct x as [| | | | | |m|]; cbn [sanitizeCodexInputItem not_tool_item]; try (by intros _ [= <-]).
  intros Hrole. set (m' := sanitize_fields m).
  assert (forall k, k <> "content" -> bool_decide (k ∉ codexInterleavedReasoningKeys) = true -> m' !! k = m !! k) as E
    by (intros; by apply sanitize_fields_other). clearbody m'.
  assert (forall m'', (forall k, k <> "content" -> m'' !! k = m' !! k) -> item_event (AMap m'') = item_event (AMap m)) as Hev.
  { intros m'' E'. cbn [item_event].
    rewrite !E', (E "role"), (E "type"), (E "call_id"), (E "name"), (E "arguments"), (E "output") by done. done. }
  unfold normalizeCodexRoleInputItem. destruct (String.eqb _ "assistant"); [|destruct (String.eqb_spec (codexStringValue (m' !! "role")) "tool") as [Et|]].
  - intros [= <-]. apply Hev. intros k Hk. unfold normalizeCodexAssistantInputItem.
    destruct (m' !! "content"); [by rewrite lookup_insert_ne|done].
  - exfalso. apply Hrole. rewrite <- (E "role") by done. destruct (m' !! "role") as [[]|]; try done. by cbn in Et; subst.
  - intros [= <-]. by apply Hev.
Qed.

Lemma items_event_sanitized l l' :
  Forall not_tool_item l -> sanitizeCodexInputItems l = Ok l' -> omap item_event l' = omap item_event l.
Proof.
  intros H. revert l'. induction H as [|x l Hx _ IH]; intros l'; cbn [sanitizeCodexInputItems]; [by intros [= <-]|].
  intros (y & Ey & (ys & Eys & [= <-])%bind_ok)%bind_ok. cbn.
  rewrite (item_event_sanitized x y Hx Ey). by rewrite (IH ys Eys).
Qed.

Lemma firstString_one v : firstString [v] = codexStringValue v.
Proof.
  unfold firstString, firstNonEmptyCodexString, codexStringValue. cbn. destruct (as_str v) as [s|]; [|done].
  cbn. by destruct (String.eqb_spec s "") as [-> |].
Qed.

Lemma read_tool_call_event idx raw c n a :
  read_tool_call idx raw = Ok (c, n, a) -> call_of raw = Some (ECall c n a).
Proof.
  destruct raw as [| | | | | |tc|]; cbn [read_tool_call]; try done.
  destruct (String.eqb _ ""); [done|]. destruct (as_map _) as [fn|] eqn:Ef; [|done].
  destruct (String.eqb _ ""); [done|]. destruct (as_str _) as [s|] eqn:Ea; [|done].
  intros [= <- <- <-]. cbn [call_of]. rewrite Ef, firstString_one. unfold codexStringValue at 2. by rewrite Ea.
Qed.

Lemma tool_call_items_events idx calls items :
  tool_call_items idx calls = Ok items ->
  omap item_event items = omap call_of calls /\ Forall not_tool_item items.
Proof.
  revert idx items. induction calls as [|raw calls IH]; intros idx items; cbn [tool_call_items]; [by intros [= <-]|].
  intros ([[c n] a] & Ec & (rest & Er & [= <-])%bind_ok)%bind_ok. destruct (IH _ _ Er) as [IH1 IH2].
  cbn. rewrite (read_tool_call_event _ _ _ _ _ Ec). rewrite IH1. split; [done|by constructor].
Qed.

Lemma message_events role msg items :
  codexStringValue (msg !! "role") = role -> known_role role = true -> is_system msg = false ->
  chatInputItemsFromMessage role msg = Ok items ->
  omap item_event items = msg_events msg /\ Forall not_tool_item items.
Proof.
  intros Hr Hk Hs. unfold chatInputItemsFromMessage, msg_events. rewrite Hs, Hr.
  destruct (String.eqb role "assistant") eqn:Ea; [|destruct (String.eqb role "tool") eqn:Et].
  - unfold assistantChatInputItems. set (content := assistant_content msg).
    set (items0 := match content with [] => [] | _ => _ end).
    assert (omap item_event items0 = match content with [] => [] | _ => [EAssistant] end /\ Forall not_tool_item items0) as [H0 H1]
      by (subst items0; destruct content; [done|split; [done|by repeat constructor]]).
    destruct (is_nil (msg !! "tool_calls")) eqn:En.
    + intros [= <-]. rewrite H0. split; [|done].
      destruct (msg !! "tool_calls") as [[]|]; try done; cbn; by rewrite app_nil_r.
    + destruct (as_arr _) as [calls|]; [|done]. intros (cs & Ec & [= <-])%bind_ok.
      destruct (tool_call_items_events _ _ _ Ec) as [E1 E2]. cbn [default].
      rewrite omap_app, H0, E1. split; [done|by apply Forall_app].
  - destruct (String.eqb _ ""); [done|]. intros [= <-]. split; [done|by repeat constructor].
  - intros (item & Ei & [= <-])%bind_ok. unfold user_item in Ei.
    assert (item !! "role" = Some (AStr role)) as E.
    { destruct (msg !! "content") as [v|]; [|injection Ei as <-; apply lookup_insert_eq].
      destruct (normalizeChatUserContent v) as [c|]; [|done]. injection Ei as <-.
      rewrite lookup_insert_ne by done. apply lookup_insert_eq. }
    cbn. rewrite E, Ea. split; [done|]. constructor; [|constructor]. cbn. rewrite E. intros [= ->]. done.
Qed.

Lemma convert_events msgs instructions input :
  Forall (fun m => known_role (codexStringValue (m !! "role")) = true) msgs ->
  convert_messages msgs = Ok (instructions, input) ->
  instructions = omap system_text msgs /\ omap item_event input = flat_map msg_events msgs
  /\ Forall not_tool_item input.
Proof.
  intros H. revert instructions input. induction H as [|msg msgs Hm _ IH]; intros ins input; cbn [convert_messages].
  { by intros [= <- <-]. }
  cbn [omap list_omap flat_map]. fold (is_system msg).
  destruct (is_system msg) eqn:Es.
  - assert (msg_events msg = []) as -> by (unfold msg_events; by rewrite Es).
    unfold system_text at 1. rewrite Es.
    destruct (chatTextContent _) as [text|]; [|done]. intros ([i0 n0] & E & [= <- <-])%bind_ok.
    destruct (IH _ _ E) as (-> & H2 & H3). split; [|done]. by destruct (String.eqb text "").
  - unfold system_text at 1. rewrite Es. intros (items & Ei & ([i0 n0] & E & [= <- <-])%bind_ok)%bind_ok.
    destruct (IH _ _ E) as (-> & H2 & H3). destruct (message_events _ _ _ eq_refl Hm Es Ei) as [H4 H5].
    split; [done|]. split; [by rewrite omap_app, H4, H2|by apply Forall_app].
Qed.

(** ** The payload around the conversation *)

Lemma set_opt_other key v p k : k <> key -> set_opt key v p !! k = p !! k.
Proof. intros. destruct v; cbn; [by rewrite lookup_insert_ne|done]. Qed.

Lemma copied_other raw names p k :
  k ∉ names -> foldl (fun p name => copyOptionalRawJSON raw name p) p names !! k = p !! k.
Proof.
  revert p. induction names as [|n names IH]; intros p Hk; [done|]. apply not_elem_of_cons in Hk as [Hn Hk].
  cbn [foldl]. rewrite IH by done. unfold copyOptionalRawJSON. destruct (_ ≫= any_of); [|done].
  by rewrite lookup_insert_ne.
Qed.

(** The keys of the conversation in a chat payload. *)
Definition chat_base (p : obj) (model instructions : string) (input : list any) : Prop :=
  p !! "model" = Some (AStr model) /\ p !! "instructions" = Some (AStr instructions)
  /\ p !! "input" = Some (AArr input).

Lemma chat_base_set key v p model instructions input :
  key ∉ ["model"; "instructions"; "input"] -> chat_base p model instructions input ->
  chat_base (set_opt key v p) model instructions input.
Proof.
  intros Hk. unfold chat_base. rewrite !not_elem_of_cons in Hk. destruct Hk as (H1 & H2 & H3 & _).
  by rewrite !set_opt_other by done.
Qed.

Lemma chat_base_copied raw p model instructions input :
  chat_base p model instructions input ->
  chat_base (foldl (fun p name => copyOptionalRawJSON raw name p) p copied_fields) model instructions input.
Proof. unfold chat_base. rewrite !copied_other by not_in_table. done. Qed.

Ltac other_key := apply (bool_decide_unpack _); vm_compute; exact I.

Lemma check_roles_known values msgs :
  check_roles values = Ok msgs -> Forall (fun m => known_role (codexStringValue (m !! "role")) = true) msgs.
Proof.
  revert msgs. induction values as [|v values IH]; intros msgs; cbn [check_roles]; [by intros [= <-]|].
  destruct (known_role _) eqn:E; [|done]. intros (rest & Er & [= <-])%bind_ok. constructor; [|auto].
  destruct v as [m|]; [done|]. done.
Qed.

Lemma decode_known v msgs :
  decodeChatMessages v = Ok msgs -> Forall (fun m => known_role (codexStringValue (m !! "role")) = true) msgs.
Proof.
  unfold decodeChatMessages. destruct v as [v|]; [|done]. destruct (map_slice v) as [[|x l]|]; try done.
  apply check_roles_known.
Qed.

Lemma chat_payload_inv raw model stream p :
  chat_payload raw = Ok (model, stream, p) ->
  exists msgs input, decodeChatMessages (field raw "messages") = Ok msgs
    /\ chat_base p model (Join (omap system_text msgs) newline) input
    /\ omap item_event input = flat_map msg_events msgs /\ Forall not_tool_item input.
Proof.
  unfold chat_payload. intros H. apply bind_ok in H as (m & _ & H).
  apply bind_ok in H as (msgs & Hm & H). apply bind_ok in H as (st & _ & H).
  apply bind_ok in H as ([] & _ & H). apply bind_ok in H as ([] & _ & H).
  apply bind_ok in H as (mx & _ & H). apply bind_ok in H as ([ins input] & Hc & H).
  apply bind_ok in H as (reasoning & _ & H). injection H as <- <- <-.
  unfold convertChatMessages in Hc. apply bind_ok in Hc as ([parts input'] & Hc & [= <- <-]).
  destruct (convert_events _ _ _ (decode_known _ _ Hm) Hc) as (-> & He & Hn).
  exists msgs, input'. split; [done|]. split; [|done].
  apply chat_base_set; [other_key|]. apply chat_base_copied. apply chat_base_set; [other_key|]. done.
Qed.

(** Native normalisation keeps the conversation. *)
Lemma check_fields_input p q model instructions stream :
  check_fields p = Ok (q, model, instructions, stream) -> q !! "input" = p !! "input".
Proof. intros H. apply check_fields_inv in H as (_ & _ & _ & _ & _ & A). apply A. not_in_table. Qed.

Lemma check_fields_instructions p q model instructions stream t :
  check_fields p = Ok (q, model, instructions, stream) -> p !! "instructions" = Some (AStr t) ->
  q !! "instructions" = Some (AStr t).
Proof.
  intros H Ht. apply check_fields_steps in H as (p3 & p4 & _ & _ & _ & _ & _ & Hi & _ & _ & Hto & ->).
  rewrite (choice_agree p4 "instructions") by (rewrite elem_of_singleton; discriminate).
  apply tools_inv in Hto as [A4 _]. rewrite (A4 "instructions") by (rewrite elem_of_singleton; discriminate).
  rewrite (instructions_id _ t) in Hi.
  - injection Hi as <- _. rewrite (previous_agree _ "instructions") by (rewrite elem_of_singleton; discriminate).
    rewrite (aliases_agree p "instructions") by not_in_table. exact Ht.
  - rewrite (previous_agree _ "instructions") by (rewrite elem_of_singleton; discriminate).
    rewrite (aliases_agree p "instructions") by not_in_table. exact Ht.
Qed.

Lemma native_conversation p r model instructions input :
  chat_base p model instructions input ->
  normalizeCodexResponsesPayloadMap (Some p) codexResponsesNative = Ok r ->
  Model r = model /\ Payload r !! "instructions" = Some (AStr instructions)
  /\ exists items, Payload r !! "input" = Some (AArr items) /\ sanitizeCodexInputItems input = Ok items.
Proof.
  intros (Hm & Hi & Hin) H. split.
  { apply normalize_agree in H as (_ & Hm' & _). rewrite Hm in Hm'. by injection Hm' as <-. }
  apply normalize_steps in H as (p5 & m & t & stream & ms & has & p6 & t' & p7 & H5 & Hms & H6 & H7 & ->).
  pose proof (check_fields_input _ _ _ _ _ H5) as E5. pose proof (check_fields_instructions _ _ _ _ _ _ H5 Hi) as F5.
  unfold choose_input in H6. destruct (inputMissingOrEmpty _); [done|]. injection H6 as <- <-.
  cbn [request_record Payload]. rewrite !final_agree by not_in_table.
  unfold normalizeCodexInput in H7. rewrite E5, Hin in H7. destruct (codexInputHasFileID input); [done|].
  apply bind_ok in H7 as (items & Es & [= <-]). rewrite lookup_insert_ne by done. split; [exact F5|].
  exists items. split; [apply lookup_insert_eq|exact Es].
Qed.

Lemma finish_request_inv raw m stream p tools r model instructions input :
  chat_base p model instructions input -> finish_request raw m stream p tools = Ok r ->
  exists q req, chat_base q model instructions input
    /\ normalizeCodexResponsesPayloadMap (Some q) codexResponsesNative = Ok req
    /\ Marshal_any (AMap (Payload req)) = Some (upstreamBody r) /\ chat.model r = m /\ chat.stream r = stream.
Proof.
  intros Hb. unfold finish_request. intros H. apply bind_ok in H as (tc & _ & H).
  apply bind_ok in H as (text & _ & H). apply bind_ok in H as (iu & _ & H).
  apply bind_ok in H as (body & Hb' & H). injection H as <-.
  unfold marshalNativeCodexResponsesPayload in Hb'. apply bind_ok in Hb' as (req & Hreq & He).
  eexists _, req. split; [|split; [exact Hreq|]].
  - apply chat_base_set; [other_key|]. apply chat_base_set; [other_key|]. apply chat_base_set; [other_key|]. exact Hb.
  - unfold encode_payload in He. destruct (Marshal_any _) as [enc|]; [|done]. injection He as <-. done.
Qed.

(** ** Errors *)

Lemma invalid_is msg args : errors_Is (invalid msg args) errChatAdapterValidation = true.
Proof. reflexivity. Qed.

(** Every error is the adapter's validation error. *)
Definition rejects {A} (r : result error A) : Prop :=
  forall e, r = Err e -> errors_Is e errChatAdapterValidation = true.

Lemma rejects_ok {A} (a : A) : rejects (Ok a).
Proof. by intros e. Qed.
Lemma rejects_invalid {A} msg args : rejects (A := A) (Err (invalid msg args)).
Proof. by intros e [= <-]. Qed.
Lemma rejects_bind {A B} (m : result error A) (f : A -> result error B) :
  rejects m -> (forall a, rejects (f a)) -> rejects (m ≫= f).
Proof. intros Hm Hf e. destruct m as [a|e']; [apply Hf|]. intros [= ->]. by apply Hm. Qed.

Create HintDb chat discriminated.
#[export] Hint Resolve rejects_ok rejects_invalid : chat.

(** Splits a function into its branches. *)
Ltac branches :=
  repeat first
    [ apply rejects_ok | apply rejects_invalid
    | apply rejects_bind; [|intros ?]
    | match goal with
      | |- rejects (match ?x with _ => _ end) => destruct x
      | |- rejects (if ?b then _ else _) => destruct b
      end
    | solve [auto with chat] ].

Lemma rejects_string raw n : rejects (requiredJSONString raw n).
Proof. unfold requiredJSONString. branches. Qed.
Lemma rejects_int v n : rejects (optionalJSONInt v n).
Proof. unfold optionalJSONInt. branches. Qed.
Lemma rejects_opt_string v n : rejects (optionalJSONString v n).
Proof. unfold optionalJSONString. branches. Qed.
Lemma rejects_roles vs : rejects (check_roles vs).
Proof. induction vs; cbn [check_roles]; branches. Qed.
#[export] Hint Resolve rejects_string rejects_int rejects_opt_string rejects_roles : chat.
Lemma rejects_messages v : rejects (decodeChatMessages v).
Proof. unfold decodeChatMessages, reject. branches. Qed.
Lemma rejects_bool v : rejects (optionalJSONBool v).
Proof. unfold optionalJSONBool, reject. branches. Qed.
Lemma rejects_store v : rejects (validateChatStore v).
Proof. unfold validateChatStore, reject. branches. Qed.
Lemma rejects_n v : rejects (validateChatN v).
Proof. unfold validateChatN, reject. branches. Qed.
Lemma rejects_max a b : rejects (chatMaxOutputTokens a b).
Proof. unfold chatMaxOutputTokens, reject. branches. Qed.
Lemma rejects_tool_call idx raw : rejects (read_tool_call idx raw).
Proof. unfold read_tool_call, call_error. branches. Qed.
#[export] Hint Resolve rejects_tool_call : chat.
Lemma rejects_tool_calls calls : forall idx, rejects (tool_call_items idx calls).
Proof. induction calls; intros idx; cbn [tool_call_items]; branches. Qed.
#[export] Hint Resolve rejects_tool_calls : chat.
Lemma rejects_assistant msg : rejects (assistantChatInputItems msg).
Proof. unfold assistantChatInputItems, reject. branches. Qed.
Lemma rejects_user role msg : rejects (user_item role msg).
Proof.
  unfold user_item. destruct (msg !! "content") as [v|]; [|branches].
  destruct (normalizeChatUserContent v); [branches|]. by intros e' [= <-].
Qed.
#[export] Hint Resolve rejects_assistant rejects_user : chat.
Lemma rejects_items role msg : rejects (chatInputItemsFromMessage role msg).
Proof. unfold chatInputItemsFromMessage, reject. branches. Qed.
#[export] Hint Resolve rejects_items : chat.
Lemma rejects_convert msgs : rejects (convert_messages msgs).
Proof. induction msgs; cbn [convert_messages]; branches. Qed.
#[export] Hint Resolve rejects_convert rejects_messages rejects_bool rejects_store rejects_n rejects_max : chat.
Lemma rejects_convert_messages msgs : rejects (convertChatMessages msgs).
Proof. unfold convertChatMessages. branches. Qed.
Lemma rejects_reasoning a b : rejects (chatReasoning a b).
Proof. unfold chatReasoning, reject. branches. Qed.
#[export] Hint Resolve rejects_convert_messages rejects_reasoning : chat.
Lemma rejects_payload raw : rejects (chat_payload raw).
Proof. unfold chat_payload. branches. Qed.
Lemma rejects_choice v : rejects (normalizeChatToolChoice v).
Proof. unfold normalizeChatToolChoice, reject. branches. Qed.
Lemma rejects_format v : rejects (chatTextFormat v).
Proof. unfold chatTextFormat, reject. branches. Qed.
Lemma rejects_usage v : rejects (chatStreamIncludeUsage v).
Proof. unfold chatStreamIncludeUsage, reject. branches. Qed.

(** Either the adapter rejects, or the normalisation of the payload does. *)
Lemma finish_request_error raw m stream p tools e :
  finish_request raw m stream p tools = Err e ->
  errors_Is e errChatAdapterValidation = true \/ exists q, marshalNativeCodexResponsesPayload q = Err e.
Proof.
  unfold finish_request. intros H.
  destruct (normalizeChatToolChoice _) as [tc|e1] eqn:E1; cbn [mbind result_bind] in H;
    [|left; injection H as <-; by apply (rejects_choice _ _ E1)].
  destruct (chatTextFormat _) as [text|e2] eqn:E2; cbn [mbind result_bind] in H;
    [|left; injection H as <-; by apply (rejects_format _ _ E2)].
  destruct (chatStreamIncludeUsage _) as [iu|e3] eqn:E3; cbn [mbind result_bind] in H;
    [|left; injection H as <-; by apply (rejects_usage _ _ E3)].
  match type of H with context [marshalNativeCodexResponsesPayload ?q] =>
    destruct (marshalNativeCodexResponsesPayload q) eqn:E4; [done|right; exists q] end.
  injection H as <-. exact E4.
Qed.

Lemma normalize_tool_error t r :
  normalize_tool t = Returned (Err r) -> errors_Is r errChatAdapterValidation = true.
Proof.
  unfold normalize_tool. destruct (negb _); [by intros [= <-]|].
  destruct (as_map _); [destruct (String.eqb _ ""); by intros [= <-]|]. by destruct t.
Qed.

Lemma normalize_tool_panic t : normalize_tool t = Panicked -> t = None.
Proof.
  unfold normalize_tool. destruct (negb _); [done|].
  destruct (as_map _); [by destruct (String.eqb _ "")|]. by destruct t.
Qed.

Lemma normalize_tools_spec ts :
  (forall e, normalize_tools ts = Returned (Err e) -> errors_Is e errChatAdapterValidation = true)
  /\ (normalize_tools ts = Panicked -> None ∈ ts).
Proof.
  induction ts as [|t ts [IH1 IH2]]; [done|]. cbn [normalize_tools].
  destruct (normalize_tool t) as [[t'|e']|] eqn:E.
  - destruct (normalize_tools ts) as [[rest|e'']|]; split; try done.
    intros _. right. by apply IH2.
  - split; [|done]. intros e [= <-]. by eapply normalize_tool_error.
  - split; [done|]. intros _. apply normalize_tool_panic in E as ->. left.
Qed.

Lemma mapM_list_elem {A B} (f : A -> option B) l l' y :
  mapM_list f l = Some l' -> y ∈ l' -> exists x, x ∈ l /\ f x = Some y.
Proof.
  revert l'. induction l as [|x l IH]; intros l'; cbn; [by intros [= <-] ?%elem_of_nil|].
  destruct (f x) as [z|] eqn:Ex; [|done]. destruct (mapM_list f l) as [zs|]; [|done]. cbn.
  intros [= <-] [-> |Hy]%elem_of_cons; [exists x; split; [left|done]|].
  destruct (IH zs eq_refl Hy) as (x' & Hx & E). exists x'. split; [by right|done].
Qed.

Lemma normalizeChatTools_spec v :
  (forall e, normalizeChatTools v = Returned (Err e) -> errors_Is e errChatAdapterValidation = true)
  /\ (normalizeChatTools v = Panicked -> exists l, v = Some (JArr l) /\ JNull ∈ l).
Proof.
  unfold normalizeChatTools. destruct v as [v|]; [|done].
  destruct (map_slice v) as [ts|] eqn:E; [|by split; [intros e [= <-]|]].
  destruct (normalize_tools_spec ts) as [H1 H2].
  destruct (normalize_tools ts) as [[out|e']|]; split; try done.
  - intros e [= <-]. by apply H1.
  - intros _. specialize (H2 eq_refl). destruct v as [| | | |l|]; try done. exists l. split; [done|].
    destruct (mapM_list_elem _ _ _ _ E H2) as (x & Hx & Ex).
    destruct x; try done. cbn [map_elem] in Ex. destruct (any_of _) as [[]|]; done.
Qed.

(** A request with a null among its tools, the one that panics. *)
Definition null_tool (data : string) : Prop :=
  exists raw l, json_parse data ≫= raw_map = Some raw /\ field raw "tools" = Some (JArr l) /\ JNull ∈ l.

Lemma chat_panics data : buildChatAdapterRequest (Some (Ok data)) = Panicked -> null_tool data.
Proof.
  cbn [buildChatAdapterRequest]. destruct (json_parse data ≫= raw_map) as [raw|] eqn:Er; [|done].
  destruct (chat_payload raw) as [[[m stream] p]|e]; [|done].
  destruct (normalizeChatTools_spec (field raw "tools")) as [_ Hp].
  destruct (normalizeChatTools (field raw "tools")) as [[tools|e]|]; [by destruct (finish_request _ _ _ _ _)|done|].
  intros _. destruct (Hp eq_refl) as (l & Hl & Hnull). by exists raw, l.
Qed.

