(* ===== verification/ChatResponse.v ===== *)
(** * ChatResponse: answers in the chat completions format (chat_adapter.go)

    The response half of the chat adapter: tool calls are rebuilt from the
    deltas and items of the Responses API, and a finished response becomes a
    chat completion.  [ChatStream] has the streaming form.  Responses are
    decoded with plain [json.Unmarshal]; a nil map is [None] where the code
    distinguishes it. *)

From S2P Require Import Prelude GoLib GoHTTP GoJSON GoAny GoBufio Errors Usage CodexRequest Collector.
Import codex.

Module chatresp.

Definition str (m : obj) (k : string) : string := default "" (as_str (m !! k)).

(** ** Tool call indices *)

Record chatToolCallIndexer := mkIndexer { indexes : gmap string nat; next : nat }.
Definition newChatToolCallIndexer : chatToolCallIndexer := mkIndexer ∅ 0.

Definition index_key (callID name : string) : option string :=
  if negb (String.eqb callID "") then Some ("id:" +:+ callID)
  else if negb (String.eqb name "") then Some ("name:" +:+ name)
  else None.

Definition indexFor (callID name : string) (i : chatToolCallIndexer) : nat * chatToolCallIndexer :=
  match index_key callID name with
  | None => (0%nat, i)
  | Some key =>
      match indexes i !! key with
      | Some idx => (idx, i)
      | None => (next i, mkIndexer (<[key := next i]> (indexes i)) (S (next i)))
      end
  end.

(** ** Deltas and states *)

Record chatToolCallDelta := mkDelta {
  d_Index : nat; d_CallID : string; d_Name : string; d_Arguments : option string;
  d_ToolType : string; d_ArgumentsMode : string }.

Definition or_function (toolType : string) : string :=
  if String.eqb toolType "" then "function" else toolType.

Definition opt_field (k : string) (v : option any) (m : obj) : obj :=
  match v with Some x => <[k := x]> m | None => m end.
Definition str_field (k v : string) (m : obj) : obj :=
  if String.eqb v "" then m else <[k := AStr v]> m.

Definition toChunkToolCall (d : chatToolCallDelta) : obj :=
  let out : obj := {["index" := AInt (Z.of_nat (d_Index d))]} in
  let out := str_field "id" (d_CallID d) out in
  let out := <["type" := AStr (or_function (d_ToolType d))]> out in
  if negb (String.eqb (d_Name d) "") || bool_decide (is_Some (d_Arguments d)) then
    <["function" := AMap (opt_field "arguments" (AStr <$> d_Arguments d) (str_field "name" (d_Name d) ∅))]> out
  else out.

Record chatToolCallState := mkToolState {
  Index : nat; CallID : string; Name : string; Arguments : string; ToolType : string;
  EmittedCallID : string; EmittedName : string; EmittedArguments : string; EmittedToolType : string }.
#[export] Instance eta_chatToolCallState : Eta chatToolCallState := fun s =>
  mkToolState (Index s) (CallID s) (Name s) (Arguments s) (ToolType s)
    (EmittedCallID s) (EmittedName s) (EmittedArguments s) (EmittedToolType s).

Definition applyDelta (d : chatToolCallDelta) (s : chatToolCallState) : chatToolCallState :=
  let s := if String.eqb (d_CallID d) "" then s else s <| CallID := d_CallID d |> in
  let s := if String.eqb (d_Name d) "" then s else s <| Name := d_Name d |> in
  let s := match d_Arguments d with
           | Some args =>
               if String.eqb (d_ArgumentsMode d) "replace" then s <| Arguments := args |>
               else s <| Arguments := Arguments s +:+ args |>
           | None => s
           end in
  let s := if String.eqb (d_ToolType d) "" then s else s <| ToolType := d_ToolType d |> in
  if String.eqb (ToolType s) "" then s <| ToolType := "function" |> else s.

(** Record what is being sent. *)
Definition mark_emitted (callID name : string) (args : option string) (toolType : string)
    (s : chatToolCallState) : chatToolCallState :=
  let s := if String.eqb callID "" then s else s <| EmittedCallID := CallID s |> in
  let s := if String.eqb name "" then s else s <| EmittedName := Name s |> in
  let s := match args with Some _ => s <| EmittedArguments := Arguments s |> | None => s end in
  s <| EmittedToolType := toolType |>.

(** What the client has not been sent yet; sending it is recorded. *)
Definition buildStreamDelta (s : chatToolCallState) : chatToolCallState * option chatToolCallDelta :=
  let toolType := or_function (ToolType s) in
  let callID := if negb (String.eqb (CallID s) "") && negb (String.eqb (CallID s) (EmittedCallID s))
                then CallID s else "" in
  let name := if negb (String.eqb (Name s) "") && negb (String.eqb (Name s) (EmittedName s))
              then Name s else "" in
  let args :=
    if String.eqb (Arguments s) (EmittedArguments s) then None
    else Some (if HasPrefix (Arguments s) (EmittedArguments s)
               then TrimPrefix (Arguments s) (EmittedArguments s) else Arguments s) in
  if String.eqb callID "" && String.eqb name "" && bool_decide (args = None)
     && String.eqb (EmittedToolType s) toolType
  then (s, None)
  else (mark_emitted callID name args toolType s, Some (mkDelta (Index s) callID name args toolType "")).

Definition toMessageToolCall (s : chatToolCallState) : option obj :=
  let fn := str_field "arguments" (Arguments s) (str_field "name" (Name s) ∅) in
  let empty := String.eqb (Name s) "" && String.eqb (Arguments s) "" in
  if String.eqb (CallID s) "" && empty then None
  else
    let out : obj := {["type" := AStr (or_function (ToolType s))]} in
    let out := str_field "id" (CallID s) out in
    Some (if empty then out else <["function" := AMap fn]> out).

(** ** Reading a tool call out of an event *)

Definition item_keys : list string := ["call_id"; "tool_call_id"; "arguments"; "function"; "name"].

Definition is_tool_item (item : obj) : bool :=
  let itemType := str item "type" in
  Contains itemType "tool" || Contains itemType "function"
  || existsb (fun key => bool_decide (is_Some (item !! key))) item_keys.

Definition has (m : obj) (k : string) : bool := bool_decide (is_Some (m !! k)).

Definition isChatToolCallEvent (payload : obj) : bool :=
  let eventType := str payload "type" in
  Contains eventType "tool_call" || Contains eventType "function_call"
  || match as_map (payload !! "item") with Some item => is_tool_item item | None => false end
  || has payload "call_id" || has payload "tool_call_id"
  || (has payload "arguments" && (has payload "name" || has payload "function")).

Definition chatToolCallCandidate (payload : obj) : obj :=
  match as_map (payload !! "item") with
  | Some item => if is_tool_item item then item else payload
  | None => payload
  end.

Definition chatToolArgumentsMode (payload : obj) : string :=
  if HasSuffix (str payload "type") ".delta" then "append" else "replace".

(** The first of several ways to find a string that is not empty. *)
Definition or_else (s t : string) : string := if String.eqb s "" then t else s.

Definition fn_name (m : option obj) : string :=
  match m with Some m => match as_map (m !! "function") with Some fn => firstString [fn !! "name"] | None => "" end
             | None => "" end.

Definition candidate_callID (candidate : obj) : string :=
  or_else (firstString [candidate !! "call_id"; candidate !! "tool_call_id"; candidate !! "id"])
    (match as_map (candidate !! "delta") with
     | Some deltaMap => firstString [deltaMap !! "id"; deltaMap !! "call_id"; deltaMap !! "tool_call_id"]
     | None => ""
     end).

Definition candidate_name (candidate : obj) : string :=
  let deltaMap := as_map (candidate !! "delta") in
  or_else (firstString [candidate !! "name"; candidate !! "tool_name"])
    (or_else (match deltaMap with Some m => firstString [m !! "name"] | None => "" end)
      (or_else (fn_name (Some candidate)) (fn_name deltaMap))).

Definition candidate_arguments (candidate : obj) : option string :=
  match as_str (candidate !! "arguments") with
  | Some args => Some args
  | None =>
      let deltaText := str candidate "delta" in
      if negb (String.eqb deltaText "") then Some deltaText
      else match as_map (candidate !! "delta") with
           | None => None
           | Some deltaMap =>
               match as_str (deltaMap !! "arguments") with
               | Some args => Some args
               | None => match as_map (deltaMap !! "function") with
                         | Some fn => as_str (fn !! "arguments")
                         | None => None
                         end
               end
           end
  end.

Definition candidate_toolType (candidate : obj) : string :=
  let toolType := firstString [candidate !! "tool_type"; candidate !! "type"] in
  let toolType := if HasPrefix toolType "response." then "" else toolType in
  if String.eqb toolType "tool_call" || String.eqb toolType "function_call" then "function" else toolType.

Definition chatToolDeltaFromPayload (payload : obj) (indexer : chatToolCallIndexer)
    : chatToolCallIndexer * option chatToolCallDelta :=
  if negb (isChatToolCallEvent payload) then (indexer, None)
  else
    let candidate := chatToolCallCandidate payload in
    let callID := candidate_callID candidate in
    let name := candidate_name candidate in
    let arguments := candidate_arguments candidate in
    if String.eqb callID "" && String.eqb name "" && bool_decide (arguments = None) then (indexer, None)
    else
      let '(idx, indexer) := indexFor callID name indexer in
      (indexer, Some (mkDelta idx callID name arguments (candidate_toolType candidate)
                        (chatToolArgumentsMode payload))).

(** ** Tool calls in order *)

Definition fresh_state (i : nat) : chatToolCallState := mkToolState i "" "" "" "function" "" "" "" "".

(** Grow the slice until it has the index. *)
Definition ensure (idx : nat) (states : list chatToolCallState) : list chatToolCallState :=
  (states ++ List.map fresh_state (seq (List.length states) (S idx - List.length states)))%list.

Definition mergeChatToolCallDelta (d : chatToolCallDelta) (states : list chatToolCallState)
    : list chatToolCallState :=
  alter (applyDelta d) (d_Index d) (ensure (d_Index d) states).

(** The merging state: indexer and slice. *)
Abbreviation tools := (chatToolCallIndexer * list chatToolCallState)%type.

Definition merge_payload (payload : obj) (t : tools) : tools :=
  let '(indexer, delta) := chatToolDeltaFromPayload payload (fst t) in
  (indexer, match delta with Some d => mergeChatToolCallDelta d (snd t) | None => snd t end).

Definition item_done (item : obj) : obj :=
  list_to_map [("type", AStr "response.output_item.done"); ("item", AMap item)].

Definition merge_item (t : tools) (raw : any) : tools :=
  match raw with AMap item => merge_payload (item_done item) t | _ => t end.

Definition mergeResponseOutputToolCalls (response : option obj) (t : tools) : tools :=
  match response with
  | None => t
  | Some response => foldl merge_item t (default [] (as_arr (response !! "output")))
  end.

(** An empty list is nil. *)
Definition compactChatToolCalls (states : list chatToolCallState) : list any :=
  List.map AMap (omap toMessageToolCall states).

Definition responseToolCalls (response : option obj) : list any :=
  compactChatToolCalls (snd (mergeResponseOutputToolCalls response (newChatToolCallIndexer, []))).

(** ** Text, refusal, usage, errors *)

(** The string fields [key] of all content parts of all output items. *)
Definition parts_text (key : string) (response : obj) : string :=
  concat_str (List.map (fun item =>
    match item with
    | AMap m => concat_str (List.map (fun part => match part with AMap p => str p key | _ => "" end)
                              (default [] (as_arr (m !! "content"))))
    | _ => ""
    end) (default [] (as_arr (response !! "output")))).

Definition responseText (response : option obj) : string :=
  match response with
  | None => ""
  | Some response =>
      match as_str (response !! "output_text") with
      | Some text => text
      | None => parts_text "text" response
      end
  end.

Definition responseRefusal (response : option obj) : string :=
  match response with None => "" | Some response => parts_text "refusal" response end.

Definition non_nil (m : obj) : option obj := if bool_decide (m = ∅) then None else Some m.

Definition detail (rawUsage : obj) (src sub dst : string) (out : obj) : obj :=
  match as_map (rawUsage !! src) ≫= lookup sub with
  | Some v => <[dst := AMap {[sub := v]}]> out
  | None => out
  end.

Definition responseUsage (response : option obj) : option obj :=
  rawUsage ← response ≫= (fun r => as_map (r !! "usage"));
  let out := opt_field "prompt_tokens" (rawUsage !! "input_tokens") ∅ in
  let out := opt_field "completion_tokens" (rawUsage !! "output_tokens") out in
  let out := opt_field "total_tokens" (rawUsage !! "total_tokens") out in
  let out := detail rawUsage "input_tokens_details" "cached_tokens" "prompt_tokens_details" out in
  let out := detail rawUsage "output_tokens_details" "reasoning_tokens" "completion_tokens_details" out in
  non_nil out.

Definition recordUsageFromChatUsage (usage : option obj) : option obj :=
  usage ← usage;
  let out := opt_field "input" (usage !! "prompt_tokens") ∅ in
  let out := opt_field "output" (usage !! "completion_tokens") out in
  let out := opt_field "cached_input"
               (as_map (usage !! "prompt_tokens_details") ≫= lookup "cached_tokens") out in
  let out := opt_field "reasoning"
               (as_map (usage !! "completion_tokens_details") ≫= lookup "reasoning_tokens") out in
  non_nil out.

Definition upstream_error : obj :=
  list_to_map [("code", AStr "upstream_error"); ("message", AStr "Upstream response failed");
               ("type", AStr "server_error")].

Definition extractResponsesError (payload : obj) : obj :=
  match as_map (payload !! "error") with
  | Some errorObj => errorObj
  | None =>
      match as_map (payload !! "response") ≫= (fun r => as_map (r !! "error")) with
      | Some errorObj => errorObj
      | None => upstream_error
      end
  end.

Definition incompleteFinishReason (response : obj) : string :=
  match as_map (response !! "incomplete_details") ≫= (fun d => as_str (d !! "reason")) with
  | Some reason =>
      if String.eqb reason "max_output_tokens" || String.eqb reason "max_tokens" then "length"
      else if String.eqb reason "content_filter" then "content_filter" else "stop"
  | None => "stop"
  end.

Definition responseFailure (response : option obj) : option obj :=
  response ← response;
  match as_map (response !! "error") with
  | Some errObj => if bool_decide (errObj = ∅) then None else Some errObj
  | None => None
  end ∪
  (if String.eqb (str response "status") "failed" || String.eqb (str response "status") "cancelled"
   then Some (extractResponsesError {["response" := AMap response]}) else None).

(** ** The message *)

Record chatCompletionMessage := mkMessage { Content : any; Refusal : string; ToolCalls : list any }.

Definition chatMessageFromResponse (response : option obj) (streamedContent streamedRefusal : string)
    (streamedToolCalls : list chatToolCallState) : chatCompletionMessage :=
  let content := or_else streamedContent (responseText response) in
  let refusal := or_else streamedRefusal (responseRefusal response) in
  let toolCalls := match compactChatToolCalls streamedToolCalls with
                   | [] => responseToolCalls response
                   | calls => calls
                   end in
  let none := match toolCalls with [] => true | _ => false end in
  mkMessage (if String.eqb content "" && (negb (String.eqb refusal "") || negb none) then ANil else AStr content)
    refusal toolCalls.

Definition chatResponseHasAssistantPayload (response : option obj) (message : chatCompletionMessage) : bool :=
  (match Content message with AStr text => negb (String.eqb text "") | _ => false end)
  || bool_decide (is_Some (response ≫= (fun r => as_str (r !! "output_text"))))
  || bool_decide (is_Some (response ≫= (fun r => as_arr (r !! "output"))))
  || negb (String.eqb (Refusal message) "")
  || match ToolCalls message with [] => false | _ => true end.

Definition encode (payload : obj) : result error string :=
  match Marshal_any (AMap payload) with
  | Some out => Ok out
  | None => Err (New "json: unsupported value")
  end.

Section completion.
Context (requestID : string) (now : Z).

(** A fresh id unless the response has one. *)
Definition completion_id (response : option obj) : string :=
  or_else (match response with Some r => str r "id" | None => "" end) ("chatcmpl_" +:+ requestID).

Definition message_payload (message : chatCompletionMessage) : obj :=
  let m : obj := list_to_map [("role", AStr "assistant"); ("content", Content message)] in
  let m := str_field "refusal" (Refusal message) m in
  match ToolCalls message with [] => m | calls => <["tool_calls" := AArr calls]> m end.

Definition completion_payload (response : option obj) (model : string) (message : chatCompletionMessage)
    (usage : option obj) (finishReason : string) : obj :=
  let payload : obj := list_to_map
    [("id", AStr (completion_id response)); ("object", AStr "chat.completion"); ("created", AInt now);
     ("model", AStr model);
     ("choices", AArr [obj_of [("index", AInt 0); ("message", AMap (message_payload message));
                               ("finish_reason", AStr finishReason)]])] in
  opt_field "usage" (AMap <$> usage) payload.

Definition marshalChatCompletion (response : option obj) (model : string) (message : chatCompletionMessage)
    (usage : option obj) (finishReason : string) : result error (string * Z) :=
  out ← encode (completion_payload response model message usage finishReason); Ok (out, 200).

Definition failed_completion (errObj : obj) : result error (string * Z) :=
  out ← encode {["error" := AMap errObj]}; Ok (out, 502).

Definition chatCompletionFromResponsesJSON (data model : string) : result error (string * Z) :=
  match Unmarshal_map data with
  | None => Err (Wrapf "decode responses JSON: %w" [] (New "invalid JSON"))
  | Some response =>
      match responseFailure response with
      | Some errObj => failed_completion errObj
      | None =>
          let msg := chatMessageFromResponse response "" "" [] in
          if chatResponseHasAssistantPayload response msg then
            marshalChatCompletion response model msg (responseUsage response)
              (match ToolCalls msg with [] => "stop" | _ => "tool_calls" end)
          else Err (New "responses JSON missing assistant output")
      end
  end.

(** ** A collected event stream *)

(** The data lines of an event, trimmed, each with a newline. *)
Fixpoint sse_data_events (ls : list string) (eventData : string) : list string :=
  let flushed := if String.eqb eventData "" then [] else [TrimSuffix eventData newline] in
  match ls with
  | [] => flushed
  | line :: ls' =>
      if String.eqb line "" then flushed ++ sse_data_events ls' ""
      else if HasPrefix line "data:" then
        sse_data_events ls' (eventData +:+ TrimSpace (TrimPrefix line "data:") +:+ newline)
      else sse_data_events ls' eventData
  end.

Definition sse_scan_limit : Z := buffer_limit (64 * 1024) collector.codexSSECollectLimit.

Definition parseSSEDataEvents (data : string) : result error (list string) :=
  let '(ls, serr) := Scan sse_scan_limit (mkReader data None) in
  match serr with
  | Some e => Err (Wrapf "scan responses SSE: %w" [] e)
  | None => Ok (sse_data_events ls "")
  end.

(** What the events have built so far. *)
Record acc := mkAcc {
  a_content : string; a_refusal : string; a_response : option obj; a_finish : string;
  a_terminal : bool; a_tools : tools }.
#[export] Instance eta_acc : Eta acc := fun a =>
  mkAcc (a_content a) (a_refusal a) (a_response a) (a_finish a) (a_terminal a) (a_tools a).

Definition acc_start : acc := mkAcc "" "" None "stop" false (newChatToolCallIndexer, []).

Definition acc_event (payload : obj) (a : acc) : acc :=
  let eventType := str payload "type" in
  let a :=
    if String.eqb eventType "response.output_text.delta" then a <| a_content := a_content a +:+ str payload "delta" |>
    else if String.eqb eventType "response.output_text.done" then
      match as_str (payload !! "text") with Some text => a <| a_content := text |> | None => a end
    else if String.eqb eventType "response.refusal.delta" then
      a <| a_refusal := a_refusal a +:+ str payload "delta" |>
    else if String.eqb eventType "response.completed" || String.eqb eventType "response.incomplete" then
      let a := a <| a_terminal := true |> in
      match as_map (payload !! "response") with
      | Some resp =>
          let a := a <| a_response := Some resp |>
                     <| a_tools := mergeResponseOutputToolCalls (Some resp) (a_tools a) |> in
          if String.eqb eventType "response.incomplete" then a <| a_finish := incompleteFinishReason resp |> else a
      | None => a
      end
    else a in
  a <| a_tools := merge_payload payload (a_tools a) |>.

Definition is_failure_event (payload : obj) : bool :=
  String.eqb (str payload "type") "response.failed" || String.eqb (str payload "type") "error".

(** All events, or the answer of the failed response among them. *)
Fixpoint acc_events (events : list string) (a : acc) : result error (acc + obj) :=
  match events with
  | [] => Ok (inl a)
  | event :: events' =>
      match Unmarshal_map event with
      | None => Err (Wrapf "decode responses SSE event: %w" [] (New "invalid JSON"))
      | Some payload =>
          let payload := default ∅ payload in
          if is_failure_event payload then Ok (inr (extractResponsesError payload))
          else acc_events events' (acc_event payload a)
      end
  end.

Definition finish_sse (model : string) (a : acc) : result error (string * Z) :=
  if negb (a_terminal a) then Err (New "responses stream missing terminal event")
  else match a_response a with
       | None => Err (New "responses stream terminal event missing response")
       | Some response =>
           let msg := chatMessageFromResponse (Some response) (a_content a) (a_refusal a) (snd (a_tools a)) in
           if chatResponseHasAssistantPayload (Some response) msg then
             marshalChatCompletion (Some response) model msg (responseUsage (Some response))
               (match ToolCalls msg with [] => a_finish a | _ => "tool_calls" end)
           else Err (New "responses stream missing assistant output")
       end.

Definition chatCompletionFromResponsesSSE (data model : string) : result error (string * Z) :=
  events ← parseSSEDataEvents data;
  r ← acc_events events acc_start;
  match r with
  | inr errorPayload => failed_completion errorPayload
  | inl a => finish_sse model a
  end.

(** [readBoundedProviderBody] over a body that may fail. *)
Definition readBoundedProviderBody (body : reader) (limit : Z) (limitMessage : string) : result error string :=
  if limit <? lenZ (rd_data body) then Err (New limitMessage)
  else match rd_err body with Some e => Err e | None => Ok (rd_data body) end.

Definition chatCompletionFromResponsesBody (body : reader) (contentType model : string)
    : result error (string * Z) :=
  match readBoundedProviderBody body collector.codexSSECollectLimit
          "chat adapter upstream response too large" with
  | Err e => Err (Wrapf "read responses body: %w" [] e)
  | Ok data =>
      if Contains (ToLower contentType) "text/event-stream" || Contains data "data:"
      then chatCompletionFromResponsesSSE data model
      else chatCompletionFromResponsesJSON data model
  end.

End completion.

End chatresp.

Example completion_ex :
  chatresp.chatCompletionFromResponsesBody "q" 7 (mkReader (dq "data: {'type':'response.output_text.delta','delta':'hi'}

data: {'type':'response.completed','response':{'id':'r1','usage':{'input_tokens':1},'output':[{'type':'function_call','call_id':'c','name':'f','arguments':'{}'}]}}
") None) "text/event-stream" "gpt"
  = Ok (dq "{'choices':[{'finish_reason':'tool_calls','index':0,'message':{'content':'hi','role':'assistant','tool_calls':[{'function':{'arguments':'{}','name':'f'},'id':'c','type':'function'}]}}],'created':7,'id':'r1','model':'gpt','object':'chat.completion','usage':{'prompt_tokens':1}}", 200).
Proof. vm_compute. reflexivity. Qed.
