(* ===== verification/ChatStream.v ===== *)
(** * ChatStream: streaming answers in the chat completions format
      (chat_adapter.go)

    [writeChatCompletionStream] turns the events of a Responses stream into
    chat completion chunks while they arrive.  It writes to a pipe whose
    reader may go away: a write is then refused.  One clock reading and one
    request id are drawn per stream. *)

From S2P Require Import Prelude GoLib GoHTTP GoJSON GoAny GoBufio Errors Usage CodexRequest Collector ChatResponse.
Import codex chatresp.

Module chatstream.

(** ** What is written *)

Inductive sse_out := Payload (p : obj) | DoneMark.

Definition render_payload (json : string) : string := "data: " +:+ json +:+ newline +:+ newline.

Definition render (o : sse_out) : string :=
  match o with
  | Payload p => render_payload (default "" (Marshal_any (AMap p)))
  | DoneMark => "data: [DONE]" +:+ newline +:+ newline
  end.

(** The writes the reader still accepts; [None] is a reader that stays. *)
Record stream := mkStream {
  chunkID : string; usingGeneratedID : bool; sentChunk : bool; sentRole : bool;
  toolIndexer : chatToolCallIndexer; toolCalls : list chatToolCallState; sawToolCall : bool;
  terminalSeen : bool; eventData : string;
  usageCapture : usage.JSONMap; generatedID : option string;
  out : list sse_out; room : option nat }.
#[export] Instance eta_stream : Eta stream := fun s =>
  mkStream (chunkID s) (usingGeneratedID s) (sentChunk s) (sentRole s) (toolIndexer s) (toolCalls s)
    (sawToolCall s) (terminalSeen s) (eventData s) (usageCapture s) (generatedID s) (out s) (room s).

(** A step changes the state and may fail. *)
Definition step := stream -> stream * option error.
Definition ret : step := fun s => (s, None).
Definition raise (e : error) : step := fun s => (s, Some e).
Definition modify (f : stream -> stream) : step := fun s => (f s, None).
Definition andThen (f g : step) : step := fun s => match f s with (s', None) => g s' | r => r end.
Notation "f >>> g" := (andThen f g) (at level 62, right associativity).

Definition io_ErrClosedPipe : error := Errorf "io: read/write on closed pipe" [].

Definition write (o : sse_out) : step := fun s =>
  match room s with
  | Some O => (s, Some io_ErrClosedPipe)
  | r => (s <| out := out s ++ [o] |> <| room := Nat.pred <$> r |>, None)
  end.

Definition writeChatSSEPayload (payload : obj) : step := fun s =>
  match Marshal_any (AMap payload) with
  | None => (s, Some (Wrapf "encode chat stream chunk: %w" [] (New "json: unsupported value")))
  | Some _ => write (Payload payload) s
  end.

(** ** Chunks *)

Section writer.
Context (created : Z) (model : string) (includeUsage : bool).

Definition chunk_delta (role content refusal : string) (toolCalls : list any) : obj :=
  let delta := str_field "refusal" refusal (str_field "content" content (str_field "role" role ∅)) in
  match toolCalls with [] => delta | _ => <["tool_calls" := AArr toolCalls]> delta end.

Definition chatStreamChunk (id role content refusal finishReason : string) (toolCalls : list any)
    (usage : option obj) : obj :=
  let choice : obj := list_to_map
    [("index", AInt 0); ("delta", AMap (chunk_delta role content refusal toolCalls));
     ("finish_reason", if String.eqb finishReason "" then ANil else AStr finishReason)] in
  let chunk : obj := list_to_map
    [("id", AStr id); ("object", AStr "chat.completion.chunk"); ("created", AInt created);
     ("model", AStr model); ("choices", AArr [AMap choice])] in
  (* a nil map is encoded as null *)
  if includeUsage then <["usage" := match usage with Some u => AMap u | None => ANil end]> chunk else chunk.

(** The last chunk when the client asked for usage. *)
Definition usage_chunk (id : string) (usage : option obj) : obj :=
  list_to_map
    [("id", AStr id); ("object", AStr "chat.completion.chunk"); ("created", AInt created);
     ("model", AStr model); ("choices", AArr []);
     ("usage", match usage with Some u => AMap u | None => ANil end)].

Definition adoptResponseID (response : option obj) (s : stream) : stream :=
  match response with
  | Some r =>
      if negb (sentChunk s) && negb (String.eqb (str r "id") "")
      then s <| chunkID := str r "id" |> <| usingGeneratedID := false |> else s
  | None => s
  end.

Definition markChunk (s : stream) : stream :=
  let s := if usingGeneratedID s && negb (String.eqb (chunkID s) "")
           then s <| generatedID := Some (chunkID s) |> else s in
  s <| sentChunk := true |>.

(** [usageCapture.Set]: an empty usage is ignored. *)
Definition set_usage (u : usage.JSONMap) (s : stream) : stream :=
  match u with Some _ => s <| usageCapture := u |> | None => s end.

(** A chunk with a delta; the first one carries the role. *)
Definition send (content refusal : string) (calls : list any) : step := fun s =>
  let role := if sentRole s then "" else "assistant" in
  let s := markChunk (s <| sentRole := true |>) in
  writeChatSSEPayload (chatStreamChunk (chunkID s) role content refusal "" calls None) s.

(** The unsent part of the tool call at an index, if any. *)
Definition send_tool (idx : nat) : step := fun s =>
  match toolCalls s !! idx with
  | None => (s, None)
  | Some st =>
      let '(st', delta) := buildStreamDelta st in
      let s := s <| toolCalls := <[idx := st']> (toolCalls s) |> in
      match delta with
      | None => (s, None)
      | Some d => send "" "" [AMap (toChunkToolCall d)] s
      end
  end.

Fixpoint each_tool (idxs : list nat) : step :=
  match idxs with [] => ret | i :: idxs' => send_tool i >>> each_tool idxs' end.

Definition flushPendingToolCalls : step := fun s => each_tool (seq 0 (List.length (toolCalls s))) s.

Definition merge_response (response : obj) (s : stream) : stream :=
  let '(indexer, states) := mergeResponseOutputToolCalls (Some response) (toolIndexer s, toolCalls s) in
  s <| toolIndexer := indexer |> <| toolCalls := states |>.

(** The final chunks: the finish reason, the usage, the end mark. *)
Definition send_finish (finishReason : string) : step := fun s =>
  let s := markChunk s in
  writeChatSSEPayload (chatStreamChunk (chunkID s) "" "" "" finishReason [] None) s.

Definition send_usage (usage : option obj) : step := fun s =>
  if includeUsage then
    let s := markChunk s in writeChatSSEPayload (usage_chunk (chunkID s) usage) s
  else (s, None).

(** ** One event *)

Definition on_terminal (eventType : string) (payload : obj) : step :=
  modify (fun s => s <| terminalSeen := true |>) >>>
  match as_map (payload !! "response") with
  | None => raise (New "responses stream terminal event missing response")
  | Some response =>
      modify (adoptResponseID (Some response)) >>>
      modify (set_usage (recordUsageFromChatUsage (responseUsage (Some response)))) >>>
      modify (merge_response response) >>>
      flushPendingToolCalls >>>
      modify (fun s => s <| sawToolCall := sawToolCall s
                           || match compactChatToolCalls (toolCalls s) with [] => false | _ => true end |>) >>>
      (fun s => send_finish (if sawToolCall s then "tool_calls"
                             else if String.eqb eventType "response.incomplete"
                             then incompleteFinishReason response else "stop") s) >>>
      send_usage (responseUsage (Some response)) >>>
      write DoneMark
  end.

(** The remaining events: those about tool calls. *)
Definition on_other (payload : obj) : step := fun s =>
  let '(indexer, delta) := chatToolDeltaFromPayload payload (toolIndexer s) in
  let s := s <| toolIndexer := indexer |> in
  match delta with
  | None => (s, None)
  | Some d =>
      let s := s <| toolCalls := mergeChatToolCallDelta d (toolCalls s) |> in
      match toolCalls s !! d_Index d with
      | None => (s, None)
      | Some st =>
          match buildStreamDelta st with
          | (_, None) => (s, None)
          | (st', Some sd) =>
              send "" "" [AMap (toChunkToolCall sd)]
                (s <| toolCalls := <[d_Index d := st']> (toolCalls s) |> <| sawToolCall := true |>)
          end
      end
  end.

Definition on_event (payload : obj) : step :=
  let eventType := str payload "type" in
  if String.eqb eventType "response.created" || String.eqb eventType "response.in_progress" then
    modify (adoptResponseID (as_map (payload !! "response")))
  else if String.eqb eventType "response.output_text.delta" then send (str payload "delta") "" []
  else if String.eqb eventType "response.refusal.delta" then send "" (str payload "delta") []
  else if is_failure_event payload then
    writeChatSSEPayload {["error" := AMap (extractResponsesError payload)]} >>>
    write DoneMark >>>
    raise (Sentinel errChatAdapterStreamFailed)
  else if String.eqb eventType "response.completed" || String.eqb eventType "response.incomplete" then
    on_terminal eventType payload
  else on_other payload.

(** ** The stream *)

Definition decode_failed : error := Wrapf "decode responses stream event: %w" [] (New "invalid JSON").

Definition on_data (data : string) : step :=
  if String.eqb data "[DONE]" then
    fun s => (s, if terminalSeen s then None else Some (New "responses stream ended before terminal event"))
  else match Unmarshal_map data with
       | None => raise decode_failed
       | Some payload => on_event (default ∅ payload)
       end.

Definition flush : step := fun s =>
  if String.eqb (eventData s) "" then (s, None)
  else on_data (TrimSuffix (eventData s) newline) (s <| eventData := "" |>).

Definition on_line (line : string) : step :=
  if String.eqb line "" then flush
  else modify (fun s =>
    if HasPrefix line "data:"
    then s <| eventData := eventData s +:+ TrimSpace (TrimPrefix line "data:") +:+ newline |> else s).

Fixpoint on_lines (ls : list string) : step :=
  match ls with [] => ret | line :: ls' => on_line line >>> on_lines ls' end.

Definition stream_end (serr : option error) : step := fun s =>
  match serr with
  | Some e => (s, Some (Wrapf "scan responses stream: %w" [] e))
  | None => (s, if terminalSeen s then None else Some (New "responses stream missing terminal event"))
  end.

Definition new_stream (requestID : string) (accepts : option nat) : stream :=
  mkStream ("chatcmpl_" +:+ requestID) true false false newChatToolCallIndexer [] false false "" None None []
    accepts.

Definition writeChatCompletionStream (upstream : reader) : step :=
  let '(ls, serr) := Scan sse_scan_limit upstream in
  on_lines ls >>> flush >>> stream_end serr.

(** ** A response that was not streamed *)

(** The chunk id: the response's, or a fresh one. *)
Definition json_stream (requestID : string) (response : obj) : stream :=
  let s := new_stream requestID None in
  if String.eqb (str response "id") "" then s
  else s <| chunkID := str response "id" |> <| usingGeneratedID := false |>.

Definition json_chunks (response : obj) (msg : chatCompletionMessage) : step :=
  (match Content msg with
   | AStr content => if String.eqb content "" then ret else send content "" []
   | _ => ret
   end) >>>
  (if String.eqb (Refusal msg) "" then ret else send "" (Refusal msg) []) >>>
  modify (merge_response response) >>>
  flushPendingToolCalls >>>
  send_finish (match ToolCalls msg with
               | [] => if String.eqb (str response "status") "incomplete"
                       then incompleteFinishReason response else "stop"
               | _ => "tool_calls"
               end) >>>
  send_usage (responseUsage (Some response)) >>>
  write DoneMark.

(** The stream, and the error its reader ends with. *)
Definition chatCompletionStreamFromResponsesJSON (requestID data : string)
    : result error (stream * option error) :=
  match Unmarshal_map data with
  | None => Err (Wrapf "decode responses JSON: %w" [] (New "invalid JSON"))
  | Some response =>
      match responseFailure response with
      | Some errObj =>
          match (writeChatSSEPayload {["error" := AMap errObj]} >>> write DoneMark) (new_stream requestID None) with
          | (s, None) => Ok (s, Some (Sentinel errChatAdapterStreamFailed))
          | (_, Some e) => Err e
          end
      | None =>
          let msg := chatMessageFromResponse response "" "" [] in
          if chatResponseHasAssistantPayload response msg then
            let response := default ∅ response in
            let s := set_usage (recordUsageFromChatUsage (responseUsage (Some response)))
                       (json_stream requestID response) in
            match json_chunks response msg s with
            | (s, None) => Ok (s, None)
            | (_, Some e) => Err e
            end
          else Err (New "responses JSON missing assistant output")
      end
  end.

End writer.

End chatstream.

Example stream_ex :
  let '(s, e) := chatstream.writeChatCompletionStream 7 "gpt" true
    (mkReader (dq "data: {'type':'response.created','response':{'id':'r1'}}

data: {'type':'response.output_text.delta','delta':'hi'}

data: {'type':'response.output_item.added','item':{'type':'function_call','call_id':'c','name':'f','arguments':''}}

data: {'type':'response.function_call_arguments.delta','call_id':'c','delta':'{}'}

data: {'type':'response.completed','response':{'id':'r1','usage':{'input_tokens':1},'output':[]}}

data: [DONE]
") None) (chatstream.new_stream "q" None) in
  e = None
  /\ concat_str (List.map chatstream.render (chatstream.out s)) = dq "data: {'choices':[{'delta':{'content':'hi','role':'assistant'},'finish_reason':null,'index':0}],'created':7,'id':'r1','model':'gpt','object':'chat.completion.chunk','usage':null}

data: {'choices':[{'delta':{'tool_calls':[{'function':{'name':'f'},'id':'c','index':0,'type':'function'}]},'finish_reason':null,'index':0}],'created':7,'id':'r1','model':'gpt','object':'chat.completion.chunk','usage':null}

data: {'choices':[{'delta':{'tool_calls':[{'function':{'arguments':'{}'},'index':0,'type':'function'}]},'finish_reason':null,'index':0}],'created':7,'id':'r1','model':'gpt','object':'chat.completion.chunk','usage':null}

data: {'choices':[{'delta':{},'finish_reason':'tool_calls','index':0}],'created':7,'id':'r1','model':'gpt','object':'chat.completion.chunk','usage':null}

data: {'choices':[],'created':7,'id':'r1','model':'gpt','object':'chat.completion.chunk','usage':{'prompt_tokens':1}}

data: [DONE]

".
Proof. vm_compute. split; reflexivity. Qed.
