(* ===== verification/ChatStreamProofs.v ===== *)
(** * ChatStreamProofs: what a client reads from a converted stream

    A client of the chat completions API rebuilds a message from chunks:
    contents and refusals are concatenated; a tool call is looked up by its
    index, its id, name and type are overwritten, its arguments concatenated.
    Under a condition on the upstream events ([well_streamed]) it rebuilds
    what the collecting conversion ([chatCompletionFromResponsesSSE]) puts into
    its answer for the same bytes. *)

From S2P Require Import Prelude GoLib GoHTTP GoJSON GoAny GoAnyProofs GoBufio Errors Usage CodexRequest.
From S2P Require Import Collector ChatResponse ChatStream.
Import codex chatresp chatstream.

(** ** The client *)

Record call := mkCall { c_id : string; c_name : string; c_args : string; c_type : string }.
Record client := mkClient {
  cl_content : string; cl_refusal : string; cl_calls : gmap nat call; cl_roles : nat;
  cl_finish : list string; cl_usage : list obj; cl_done : nat }.
#[export] Instance eta_client : Eta client := fun c =>
  mkClient (cl_content c) (cl_refusal c) (cl_calls c) (cl_roles c) (cl_finish c) (cl_usage c) (cl_done c).

Definition new_client : client := mkClient "" "" ∅ 0 [] [] 0.

Definition read_call (calls : gmap nat call) (raw : any) : gmap nat call :=
  match raw with
  | AMap m =>
      match m !! "index" with
      | Some (AInt i) =>
          let c := default (mkCall "" "" "" "") (calls !! Z.to_nat i) in
          let fn := default ∅ (as_map (m !! "function")) in
          <[Z.to_nat i := mkCall (or_else (str m "id") (c_id c)) (or_else (str fn "name") (c_name c))
                            (c_args c +:+ str fn "arguments") (or_else (str m "type") (c_type c))]> calls
      | _ => calls
      end
  | _ => calls
  end.

Definition read_delta (d : obj) (c : client) : client :=
  c <| cl_content := cl_content c +:+ str d "content" |>
    <| cl_refusal := cl_refusal c +:+ str d "refusal" |>
    <| cl_calls := foldl read_call (cl_calls c) (default [] (as_arr (d !! "tool_calls"))) |>
    <| cl_roles := ((if has d "role" then 1 else 0) + cl_roles c)%nat |>.

Definition read_choice (ch : obj) (c : client) : client :=
  let c := read_delta (default ∅ (as_map (ch !! "delta"))) c in
  match as_str (ch !! "finish_reason") with Some f => c <| cl_finish := cl_finish c ++ [f] |> | None => c end.

Definition read_out (c : client) (o : sse_out) : client :=
  match o with
  | DoneMark => c <| cl_done := S (cl_done c) |>
  | Payload p =>
      let c := match as_arr (p !! "choices") with Some (AMap ch :: _) => read_choice ch c | _ => c end in
      match as_map (p !! "usage") with Some u => c <| cl_usage := cl_usage c ++ [u] |> | None => c end
  end.

Definition client_of (l : list sse_out) : client := foldl read_out new_client l.

Lemma client_of_snoc l o : client_of (l ++ [o]) = read_out (client_of l) o.
Proof. apply foldl_snoc. Qed.

(** ** Chunks *)

Lemma delta_fields role content refusal calls :
  let d := chunk_delta role content refusal calls in
  str d "content" = content /\ str d "refusal" = refusal
  /\ has d "role" = negb (String.eqb role "") /\ default [] (as_arr (d !! "tool_calls")) = calls.
Proof.
  unfold chunk_delta, str_field.
  destruct (String.eqb_spec role "") as [->|], (String.eqb_spec content "") as [->|],
    (String.eqb_spec refusal "") as [->|], calls; split_and!; reflexivity.
Qed.

Section chunks.
Context (created : Z) (model : string) (includeUsage : bool).
Abbreviation chunk := (chatStreamChunk created model includeUsage).

Definition choice_of (d : obj) (fin : string) : obj := list_to_map
  [("index", AInt 0); ("delta", AMap d); ("finish_reason", if String.eqb fin "" then ANil else AStr fin)].

Lemma choice_fields d fin :
  choice_of d fin !! "delta" = Some (AMap d)
  /\ choice_of d fin !! "finish_reason" = Some (if String.eqb fin "" then ANil else AStr fin).
Proof. split; reflexivity. Qed.

Lemma chunk_fields id role content refusal fin calls :
  let p := chunk id role content refusal fin calls None in
  p !! "choices" = Some (AArr [AMap (choice_of (chunk_delta role content refusal calls) fin)])
  /\ as_map (p !! "usage") = None /\ p !! "id" = Some (AStr id)
  /\ p !! "object" = Some (AStr "chat.completion.chunk").
Proof.
  unfold chatStreamChunk. fold (choice_of (chunk_delta role content refusal calls) fin).
  generalize (choice_of (chunk_delta role content refusal calls) fin). intros ch.
  destruct includeUsage; split_and!; reflexivity.
Qed.

Lemma read_chunk id role content refusal fin calls c :
  read_out c (Payload (chunk id role content refusal fin calls None))
  = let c' := c <| cl_content := cl_content c +:+ content |>
                <| cl_refusal := cl_refusal c +:+ refusal |>
                <| cl_calls := foldl read_call (cl_calls c) calls |>
                <| cl_roles := ((if String.eqb role "" then 0 else 1) + cl_roles c)%nat |> in
    if String.eqb fin "" then c' else c' <| cl_finish := cl_finish c ++ [fin] |>.
Proof.
  destruct (chunk_fields id role content refusal fin calls) as (Hc & Hu & _ & _).
  unfold read_out. rewrite Hc, Hu. cbn [as_arr]. unfold read_choice, read_delta.
  destruct (choice_fields (chunk_delta role content refusal calls) fin) as [-> ->].
  cbn [as_map default from_option Datatypes.id].
  destruct (delta_fields role content refusal calls) as (-> & -> & -> & ->).
  destruct (String.eqb role ""), (String.eqb fin ""); reflexivity.
Qed.

Lemma read_usage_chunk id usage c :
  read_out c (Payload (usage_chunk created model id usage))
  = match usage with Some u => c <| cl_usage := cl_usage c ++ [u] |> | None => c end.
Proof. destruct usage; reflexivity. Qed.

(** Chunks can be encoded. *)
Lemma encodable_chunk id role content refusal fin calls :
  encodable (AArr calls) = true ->
  encodable (AMap (chunk id role content refusal fin calls None)) = true.
Proof.
  intros Hc. assert (encodable (AMap (chunk_delta role content refusal calls)) = true) as Hd.
  { unfold chunk_delta, str_field. destruct calls; repeat case_match; repeat apply encodable_insert; done. }
  assert (encodable (AMap (choice_of (chunk_delta role content refusal calls) fin)) = true) as Hch.
  { unfold choice_of. cbn [list_to_map foldr uncurry fst snd].
    repeat apply encodable_insert; try done. by destruct (String.eqb fin ""). }
  unfold chatStreamChunk. fold (choice_of (chunk_delta role content refusal calls) fin).
  revert Hch. generalize (choice_of (chunk_delta role content refusal calls) fin). intros ch Hch.
  cbn [list_to_map foldr uncurry fst snd].
  destruct includeUsage; repeat apply encodable_insert; try done; change (encodable (AMap ch) && true = true);
    by rewrite Hch.
Qed.

Lemma encodable_usage_chunk id usage :
  (forall u, usage = Some u -> encodable (AMap u) = true) ->
  encodable (AMap (usage_chunk created model id usage)) = true.
Proof.
  intros H. unfold usage_chunk. cbn [list_to_map foldr uncurry fst snd].
  repeat apply encodable_insert; try done. destruct usage; [by apply H|done].
Qed.

Lemma encodable_call d : encodable (AMap (toChunkToolCall d)) = true.
Proof.
  unfold toChunkToolCall, str_field, opt_field, or_function.
  destruct (d_Arguments d); repeat case_match; repeat apply encodable_insert; try done;
    by simplify_option_eq.
Qed.

Lemma encodable_calls d : encodable (AArr [AMap (toChunkToolCall d)]) = true.
Proof. change (encodable (AMap (toChunkToolCall d)) && true = true). by rewrite encodable_call. Qed.
End chunks.

(** ** Tool calls: what has been sent *)

(** What the client has of a call, and what the call is. *)
Definition emitted (s : chatToolCallState) : option call :=
  if String.eqb (EmittedToolType s) "" then None
  else Some (mkCall (EmittedCallID s) (EmittedName s) (EmittedArguments s) (EmittedToolType s)).
Definition current (s : chatToolCallState) : call :=
  mkCall (CallID s) (Name s) (Arguments s) (or_function (ToolType s)).

(** The state without its emission record, which merging never reads. *)
Definition erase (s : chatToolCallState) : chatToolCallState :=
  mkToolState (Index s) (CallID s) (Name s) (Arguments s) (ToolType s) "" "" "" "".

Record state_ok (i : nat) (s : chatToolCallState) : Prop := {
  so_index : Index s = i;
  so_fresh : EmittedToolType s = "" -> EmittedCallID s = "" /\ EmittedName s = "" /\ EmittedArguments s = "";
  so_id : CallID s = "" -> EmittedCallID s = "";
  so_name : Name s = "" -> EmittedName s = "";
  so_args : HasPrefix (Arguments s) (EmittedArguments s) = true }.

Lemma or_function_ne t : or_function t <> "".
Proof. unfold or_function. by destruct (String.eqb_spec t ""). Qed.

Lemma or_function_idem t : or_function (or_function t) = or_function t.
Proof. unfold or_function at 1. by destruct (String.eqb_spec (or_function t) "") as [?%or_function_ne|]. Qed.

Lemma or_else_r s : or_else s s = s.
Proof. unfold or_else. by destruct (String.eqb s ""). Qed.

Lemma HasPrefix_refl s : HasPrefix s s = true.
Proof. apply HasPrefix_spec. exists "". by rewrite str_app_nil_r. Qed.

Lemma HasPrefix_trans a b c : HasPrefix a b = true -> HasPrefix b c = true -> HasPrefix a c = true.
Proof.
  rewrite !HasPrefix_spec. intros [x ->] [y ->]. exists (y +:+ x). by rewrite str_app_assoc.
Qed.

(** The chunk of a call, as the client reads it. *)
Lemma chunk_call_fields d :
  let m := toChunkToolCall d in
  m !! "index" = Some (AInt (Z.of_nat (d_Index d))) /\ str m "id" = d_CallID d
  /\ str m "type" = or_function (d_ToolType d)
  /\ str (default ∅ (as_map (m !! "function"))) "name" = d_Name d
  /\ str (default ∅ (as_map (m !! "function"))) "arguments" = default "" (d_Arguments d).
Proof.
  unfold toChunkToolCall, str_field, opt_field.
  destruct d as [i c n a t md]. cbn [d_Index d_CallID d_Name d_Arguments d_ToolType].
  generalize (or_function t). intros ty.
  destruct (String.eqb_spec c "") as [->|], (String.eqb_spec n "") as [->|], a as [a|]; split_and!; reflexivity.
Qed.

(** Once the missing parts are recorded as sent, everything is. *)
Lemma mark_emitted_full callID name args s :
  or_else callID (EmittedCallID s) = CallID s -> or_else name (EmittedName s) = Name s ->
  EmittedArguments s +:+ default "" args = Arguments s ->
  mark_emitted callID name args (or_function (ToolType s)) s
  = mkToolState (Index s) (CallID s) (Name s) (Arguments s) (ToolType s)
      (CallID s) (Name s) (Arguments s) (or_function (ToolType s)).
Proof.
  destruct s as [i cid nm ar ty eid enm ear ety]. unfold mark_emitted, or_else. cbn. intros H1 H2 H3.
  destruct (String.eqb callID ""), (String.eqb name ""), args; cbn in *; subst; rewrite ?str_app_nil_r; done.
Qed.

Lemma emitted_some s : EmittedToolType s <> "" ->
  emitted s = Some (mkCall (EmittedCallID s) (EmittedName s) (EmittedArguments s) (EmittedToolType s)).
Proof. unfold emitted. by intros ->%String.eqb_neq. Qed.

(** The client adds the missing parts to what it has. *)
Lemma read_missing i s callID name args calls :
  state_ok i s ->
  or_else callID (EmittedCallID s) = CallID s -> or_else name (EmittedName s) = Name s ->
  EmittedArguments s +:+ default "" args = Arguments s ->
  calls !! i = emitted s ->
  read_call calls (AMap (toChunkToolCall (mkDelta i callID name args (or_function (ToolType s)) "")))
  = <[i := current s]> calls.
Proof.
  intros [_ Hf _ _ _] Hcid Hnm Har Hc. unfold read_call.
  destruct (chunk_call_fields (mkDelta i callID name args (or_function (ToolType s)) "")) as (-> & -> & -> & -> & ->).
  cbn [d_Index d_CallID d_Name d_Arguments d_ToolType]. rewrite Nat2Z.id, Hc, or_function_idem. f_equal.
  assert (forall t, or_else (or_function (ToolType s)) t = or_function (ToolType s)) as Hty.
  { intros t. unfold or_else. by destruct (String.eqb_spec (or_function (ToolType s)) "") as [?%or_function_ne|]. }
  unfold current, emitted. rewrite Hty. destruct (String.eqb_spec (EmittedToolType s) "") as [E|]; cbn.
  - destruct (Hf E) as (E1 & E2 & E3). rewrite E1 in Hcid. rewrite E2 in Hnm. rewrite E3 in Har. cbn in Har.
    by rewrite Hcid, Hnm, Har.
  - by rewrite Hcid, Hnm, Har.
Qed.

(** Sending what is missing brings the client up to date. *)
Lemma build_spec i s :
  state_ok i s ->
  let '(s', d) := buildStreamDelta s in
  erase s' = erase s /\ state_ok i s' /\ emitted s' = Some (current s)
  /\ match d with
     | None => s' = s
     | Some d => forall calls, calls !! i = emitted s ->
                   read_call calls (AMap (toChunkToolCall d)) = <[i := current s]> calls
     end.
Proof.
  intros Hs. pose proof Hs as [Hi _ Hid Hn Ha]. unfold buildStreamDelta.
  set (callID := if negb (String.eqb (CallID s) "") && negb _ then _ else _).
  set (name := if negb (String.eqb (Name s) "") && negb _ then _ else _).
  assert (or_else callID (EmittedCallID s) = CallID s) as Hcid.
  { subst callID. unfold or_else. destruct (String.eqb_spec (CallID s) "") as [E|]; cbn; [by rewrite E, Hid|].
    destruct (String.eqb_spec (CallID s) (EmittedCallID s)); cbn; [done|]. by destruct (String.eqb_spec (CallID s) ""). }
  assert (or_else name (EmittedName s) = Name s) as Hnm.
  { subst name. unfold or_else. destruct (String.eqb_spec (Name s) "") as [E|]; cbn; [by rewrite E, Hn|].
    destruct (String.eqb_spec (Name s) (EmittedName s)); cbn; [done|]. by destruct (String.eqb_spec (Name s) ""). }
  rewrite Ha. set (args := if String.eqb (Arguments s) (EmittedArguments s) then None else Some _).
  assert (EmittedArguments s +:+ default "" args = Arguments s) as Har.
  { subst args. destruct (String.eqb_spec (Arguments s) (EmittedArguments s)) as [->|]; [by rewrite str_app_nil_r|].
    apply HasPrefix_spec in Ha as [r E]. rewrite E. by rewrite TrimPrefix_app. }
  clearbody callID name args. destruct (_ && _) eqn:E.
  - breflect. match goal with H : EmittedToolType s = _ |- _ => rename H into Et end.
    subst callID name args. unfold or_else in Hcid, Hnm. cbn in Hcid, Hnm, Har.
    rewrite str_app_nil_r in Har. split_and!; try done.
    rewrite emitted_some by (rewrite Et; apply or_function_ne). unfold current. by rewrite Hcid, Hnm, Har, Et.
  - rewrite (mark_emitted_full _ _ _ _ Hcid Hnm Har), Hi. split_and!; [by unfold erase; rewrite Hi| |by rewrite emitted_some by apply or_function_ne|].
    + split; cbn; try done; [by intros ?%or_function_ne|apply HasPrefix_refl].
    + intros calls Hc. by apply read_missing.
Qed.

(** ** Merging *)

(** The arguments after a delta. *)
Definition next_args (d : chatToolCallDelta) (args : string) : string :=
  match d_Arguments d with
  | Some a => if String.eqb (d_ArgumentsMode d) "replace" then a else args +:+ a
  | None => args
  end.

Lemma applyDelta_fields d s :
  applyDelta d s
  = mkToolState (Index s) (or_else (d_CallID d) (CallID s)) (or_else (d_Name d) (Name s))
      (next_args d (Arguments s)) (or_function (or_else (d_ToolType d) (ToolType s)))
      (EmittedCallID s) (EmittedName s) (EmittedArguments s) (EmittedToolType s).
Proof.
  destruct s as [ix cid nm ar ty eid enm ear ety]. unfold applyDelta, or_else, next_args.
  destruct (String.eqb (d_CallID d) ""), (String.eqb (d_Name d) "");
    (destruct (d_Arguments d); [destruct (String.eqb (d_ArgumentsMode d) "replace")|]);
    (destruct (String.eqb (d_ToolType d) ""); unfold or_function; cbn; by case_match).
Qed.

Lemma apply_erase d s : erase (applyDelta d s) = applyDelta d (erase s).
Proof. by rewrite !applyDelta_fields. Qed.

Lemma ensure_erase i l : erase <$> ensure i l = ensure i (erase <$> l).
Proof.
  unfold ensure. rewrite fmap_app, length_fmap. f_equal.
  induction (seq _ _) as [|k ks IH]; [done|]. cbn [List.map fmap list_fmap]. by f_equal.
Qed.

Lemma merge_erase d l : erase <$> mergeChatToolCallDelta d l = mergeChatToolCallDelta d (erase <$> l).
Proof.
  unfold mergeChatToolCallDelta. rewrite <- ensure_erase.
  apply list_fmap_alter, Forall_forall. intros s _. apply apply_erase.
Qed.

Lemma merge_payload_erase p ix l :
  merge_payload p (ix, erase <$> l)
  = (fst (merge_payload p (ix, l)), erase <$> snd (merge_payload p (ix, l))).
Proof.
  unfold merge_payload. cbn [fst snd]. destruct (chatToolDeltaFromPayload p ix) as [ix' [d|]]; cbn; [|done].
  by rewrite merge_erase.
Qed.

(** Looking up in a slice that has been extended. *)
Lemma ensure_lookup idx l i :
  ensure idx l !! i = match l !! i with
                      | Some s => Some s
                      | None => if decide (i <= idx)%nat then Some (fresh_state i) else None
                      end.
Proof.
  unfold ensure. destruct (l !! i) as [s|] eqn:E; [by apply lookup_app_l_Some|].
  apply lookup_ge_None in E. rewrite lookup_app_r by done.
  change (List.map fresh_state) with (fmap (M := list) fresh_state). rewrite list_lookup_fmap.
  destruct (decide (i <= idx)%nat).
  - rewrite lookup_seq_lt by lia. cbn. do 2 f_equal. lia.
  - by rewrite lookup_seq_ge by lia.
Qed.

Definition or_fresh (i : nat) (l : list chatToolCallState) : chatToolCallState :=
  default (fresh_state i) (l !! i).

Lemma merge_lookup d l i :
  mergeChatToolCallDelta d l !! i
  = if decide (i = d_Index d) then Some (applyDelta d (or_fresh i l)) else ensure (d_Index d) l !! i.
Proof.
  unfold mergeChatToolCallDelta, or_fresh. rewrite list_lookup_alter.
  destruct (decide (d_Index d = i)) as [->|]; [|by rewrite decide_False by congruence].
  rewrite decide_True by done. rewrite ensure_lookup. destruct (l !! i); [done|].
  by rewrite decide_True by lia.
Qed.

(** A delta that only adds to the arguments known so far. *)
Definition args_at (i : nat) (l : list chatToolCallState) : string := Arguments (or_fresh i l).
Definition extends (d : chatToolCallDelta) (l : list chatToolCallState) : bool :=
  HasPrefix (next_args d (args_at (d_Index d) l)) (args_at (d_Index d) l).

Definition states_ok (l : list chatToolCallState) : Prop := forall i s, l !! i = Some s -> state_ok i s.

Lemma fresh_ok i : state_ok i (fresh_state i).
Proof. by split. Qed.

Lemma ensure_ok idx l : states_ok l -> states_ok (ensure idx l).
Proof.
  intros Hl i s. rewrite ensure_lookup. destruct (l !! i) eqn:E; [intros [= <-]; by apply Hl|].
  destruct (decide _); [intros [= <-]; apply fresh_ok|done].
Qed.

Lemma or_fresh_ok i l : states_ok l -> state_ok i (or_fresh i l).
Proof. intros Hl. unfold or_fresh. destruct (l !! i) eqn:E; [by apply Hl|apply fresh_ok]. Qed.

Lemma merge_ok d l : states_ok l -> extends d l = true -> states_ok (mergeChatToolCallDelta d l).
Proof.
  intros Hl He i s. rewrite merge_lookup. destruct (decide (i = d_Index d)) as [->|]; [|by apply ensure_ok].
  intros [= <-]. unfold extends, args_at in He. destruct (or_fresh_ok (d_Index d) l Hl) as [Hi Hf Hid Hn Ha].
  rewrite applyDelta_fields. split; cbn; [done|done| | |by eapply HasPrefix_trans].
  - unfold or_else. destruct (String.eqb_spec (d_CallID d) ""); [done|]. congruence.
  - unfold or_else. destruct (String.eqb_spec (d_Name d) ""); [done|]. congruence.
Qed.

(** Merging does not touch what has been sent. *)
Lemma merge_emitted d l i : mergeChatToolCallDelta d l !! i ≫= emitted = l !! i ≫= emitted.
Proof.
  rewrite merge_lookup. destruct (decide (i = d_Index d)) as [->|].
  - cbn. rewrite applyDelta_fields. unfold or_fresh. by destruct (l !! d_Index d).
  - rewrite ensure_lookup. destruct (l !! i); [done|]. by destruct (decide _).
Qed.

Lemma extends_erase d l : extends d (erase <$> l) = extends d l.
Proof.
  assert (args_at (d_Index d) (erase <$> l) = args_at (d_Index d) l) as E.
  { unfold args_at, or_fresh. rewrite list_lookup_fmap. by destruct (l !! d_Index d). }
  unfold extends. by rewrite E.
Qed.

(** ** The stream and the collected answer *)

(** The stream [s] has told the client what [a] has collected. *)
Record agrees (s : stream) (a : acc) : Prop := {
  ag_room : room s = None;
  ag_content : cl_content (client_of (out s)) = a_content a;
  ag_refusal : cl_refusal (client_of (out s)) = a_refusal a;
  ag_calls : forall i, cl_calls (client_of (out s)) !! i = toolCalls s !! i ≫= emitted;
  ag_indexer : toolIndexer s = fst (a_tools a);
  ag_states : erase <$> toolCalls s = snd (a_tools a);
  ag_ok : states_ok (toolCalls s);
  ag_saw : sawToolCall s = true -> toolCalls s <> [];
  ag_roles : cl_roles (client_of (out s)) = if sentRole s then 1%nat else 0%nat }.

(** What only the terminal event changes. *)
Definition rest_of (s : stream) : list string * list obj * nat * bool * usage.JSONMap :=
  let c := client_of (out s) in (cl_finish c, cl_usage c, cl_done c, terminalSeen s, usageCapture s).

(** A step that does not end the stream. *)
Definition goes_on (s s' : stream) : Prop := rest_of s' = rest_of s /\ eventData s' = eventData s.

Lemma goes_on_refl s : goes_on s s.
Proof. by split. Qed.
Lemma goes_on_trans s1 s2 s3 : goes_on s1 s2 -> goes_on s2 s3 -> goes_on s1 s3.
Proof. intros [? ?] [? ?]. split; congruence. Qed.

Section stream_spec.
Context (created : Z) (model : string) (includeUsage : bool).
Abbreviation chunk := (chatStreamChunk created model includeUsage).
Abbreviation send := (send created model includeUsage).

Definition sent (o : sse_out) (s : stream) : stream :=
  markChunk (s <| sentRole := true |>) <| out := out s ++ [o] |>.

Lemma write_ok o s : room s = None -> write o s = (s <| out := out s ++ [o] |>, None).
Proof. intros H. unfold write. rewrite H. destruct s. cbn in *. by subst. Qed.

Lemma payload_ok p s :
  room s = None -> encodable (AMap p) = true ->
  writeChatSSEPayload p s = (s <| out := out s ++ [Payload p] |>, None).
Proof. intros Hr He. unfold writeChatSSEPayload. rewrite (encodable_Marshal _ He). by apply write_ok. Qed.

Lemma markChunk_frame s :
  room (markChunk s) = room s /\ out (markChunk s) = out s /\ toolIndexer (markChunk s) = toolIndexer s
  /\ toolCalls (markChunk s) = toolCalls s /\ sawToolCall (markChunk s) = sawToolCall s
  /\ terminalSeen (markChunk s) = terminalSeen s /\ eventData (markChunk s) = eventData s
  /\ sentRole (markChunk s) = sentRole s /\ chunkID (markChunk s) = chunkID s
  /\ usageCapture (markChunk s) = usageCapture s.
Proof. unfold markChunk. by destruct (usingGeneratedID s && _). Qed.

Lemma send_ok content refusal calls s :
  room s = None -> encodable (AArr calls) = true ->
  send content refusal calls s
  = (sent (Payload (chunk (chunkID s) (if sentRole s then "" else "assistant") content refusal "" calls None)) s, None).
Proof.
  intros Hr Hc. unfold chatstream.send.
  destruct (markChunk_frame (s <| sentRole := true |>)) as (Hr' & Ho & _ & _ & _ & _ & _ & _ & Hid & _).
  rewrite payload_ok; [|by rewrite Hr'|by apply encodable_chunk].
  unfold sent. by rewrite Ho, Hid.
Qed.

(** The frame of a chunk that was sent. *)
Lemma sent_frame o s :
  room (sent o s) = room s /\ out (sent o s) = out s ++ [o] /\ toolIndexer (sent o s) = toolIndexer s
  /\ toolCalls (sent o s) = toolCalls s /\ sawToolCall (sent o s) = sawToolCall s
  /\ terminalSeen (sent o s) = terminalSeen s /\ eventData (sent o s) = eventData s
  /\ sentRole (sent o s) = true /\ usageCapture (sent o s) = usageCapture s.
Proof. unfold sent, markChunk. by destruct (usingGeneratedID (s <| sentRole := true |>) && _). Qed.

Abbreviation sent_chunk content refusal calls s :=
  (sent (Payload (chunk (chunkID s) (if sentRole s then "" else "assistant") content refusal "" calls None)) s).

Lemma sent_client content refusal calls s :
  client_of (out (sent_chunk content refusal calls s))
  = let c := client_of (out s) in
    c <| cl_content := cl_content c +:+ content |> <| cl_refusal := cl_refusal c +:+ refusal |>
      <| cl_calls := foldl read_call (cl_calls c) calls |>
      <| cl_roles := ((if sentRole s then 0 else 1) + cl_roles c)%nat |>.
Proof.
  destruct (sent_frame (Payload (chunk (chunkID s) (if sentRole s then "" else "assistant") content refusal "" calls None)) s)
    as (_ & -> & _). rewrite client_of_snoc, read_chunk. by destruct (sentRole s).
Qed.

Lemma sent_goes_on content refusal calls s : goes_on s (sent_chunk content refusal calls s).
Proof.
  unfold goes_on, rest_of. rewrite sent_client.
  destruct (sent_frame (Payload (chunk (chunkID s) (if sentRole s then "" else "assistant") content refusal "" calls None)) s)
    as (_ & _ & _ & _ & _ & -> & -> & _ & ->). done.
Qed.

(** A chunk brings the relation forward. *)
Lemma sent_agrees content refusal calls s a :
  agrees s a ->
  (forall i, foldl read_call (cl_calls (client_of (out s))) calls !! i = toolCalls s !! i ≫= emitted) ->
  agrees (sent_chunk content refusal calls s)
    (a <| a_content := a_content a +:+ content |> <| a_refusal := a_refusal a +:+ refusal |>).
Proof.
  intros [] Hc. pose proof (sent_client content refusal calls s) as Hcl.
  destruct (sent_frame (Payload (chunk (chunkID s) (if sentRole s then "" else "assistant") content refusal "" calls None)) s)
    as (Hr & _ & Hi & Ht & Hs & _ & _ & Hrole & _).
  split; rewrite ?Hcl, ?Hr, ?Hi, ?Ht, ?Hs, ?Hrole; cbn; try done.
  - by rewrite ag_content0.
  - by rewrite ag_refusal0.
  - rewrite ag_roles0. by destruct (sentRole s).
Qed.

(** A chunk of text. *)
Lemma send_text content refusal s a :
  agrees s a ->
  exists s', send content refusal [] s = (s', None) /\ goes_on s s'
    /\ agrees s' (a <| a_content := a_content a +:+ content |> <| a_refusal := a_refusal a +:+ refusal |>).
Proof.
  intros Ha. eexists. split; [apply send_ok; [apply Ha|done]|]. split; [apply sent_goes_on|].
  apply sent_agrees; [done|]. apply Ha.
Qed.

(** Replacing a state by one whose missing part has been built. *)
Lemma built_agrees i st s a :
  agrees s a -> toolCalls s !! i = Some st ->
  let '(st', d) := buildStreamDelta st in
  let s1 := s <| toolCalls := <[i := st']> (toolCalls s) |> in
  goes_on s s1
  /\ erase <$> toolCalls s1 = snd (a_tools a) /\ states_ok (toolCalls s1) /\ toolCalls s1 <> []
  /\ toolCalls s1 !! i = Some st' /\ emitted st' = Some (current st')
  /\ (forall j, j <> i -> toolCalls s1 !! j = toolCalls s !! j)
  /\ match d with
     | None => s1 = s
     | Some d => forall j, foldl read_call (cl_calls (client_of (out s))) [AMap (toChunkToolCall d)] !! j
                           = toolCalls s1 !! j ≫= emitted
     end.
Proof.
  intros Ha Hi. pose proof (build_spec i st (ag_ok _ _ Ha i st Hi)) as Hb.
  destruct (buildStreamDelta st) as [st' d]. destruct Hb as (He & Hok & Hem & Hd).
  assert (current st' = current st) as Hcur by (unfold current; injection He; congruence).
  assert (i < List.length (toolCalls s))%nat as Hlt by (by eapply lookup_lt_Some).
  cbv zeta. cbn [toolCalls set eta eta_stream out].
  split_and!.
  - done.
  - rewrite list_fmap_insert, He, <- (ag_states _ _ Ha). apply list_insert_id. by rewrite list_lookup_fmap, Hi.
  - intros j st2. destruct (decide (j = i)) as [->|Hj].
    + rewrite list_lookup_insert_eq by done. by intros [= <-].
    + rewrite list_lookup_insert_ne by done. apply (ag_ok _ _ Ha).
  - intros E%(f_equal List.length). rewrite length_insert in E. cbn in E. lia.
  - by apply list_lookup_insert_eq.
  - congruence.
  - intros j Hj. by apply list_lookup_insert_ne.
  - destruct d as [d|].
    + intros j. cbn [foldl]. rewrite Hd by (by rewrite (ag_calls _ _ Ha), Hi).
      destruct (decide (j = i)) as [->|Hj].
      * rewrite lookup_insert_eq, list_lookup_insert_eq by done. by rewrite <- Hem.
      * rewrite lookup_insert_ne, list_lookup_insert_ne by done. apply (ag_calls _ _ Ha).
    + subst st'. rewrite list_insert_id by done. by destruct s.
Qed.

Definition synced (i : nat) (s : stream) : Prop :=
  forall st, toolCalls s !! i = Some st -> emitted st = Some (current st).

Definition same_tools (s s' : stream) : Prop :=
  toolIndexer s' = toolIndexer s /\ sawToolCall s' = sawToolCall s
  /\ List.length (toolCalls s') = List.length (toolCalls s).

(** Sending the missing part of one call. *)
Lemma send_tool_ok i s a :
  agrees s a ->
  exists s', send_tool created model includeUsage i s = (s', None) /\ goes_on s s' /\ agrees s' a
    /\ same_tools s s' /\ synced i s' /\ (forall j, synced j s -> synced j s').
Proof.
  intros Ha. unfold send_tool. destruct (toolCalls s !! i) as [st|] eqn:Hi.
  2:{ exists s. split_and!; try done. unfold synced. by rewrite Hi. }
  pose proof (built_agrees i st s a Ha Hi) as Hb. destruct (buildStreamDelta st) as [st' d].
  destruct Hb as (Hg & Hst & Hok & Hne & Hat & Hem & Hoth & Hd).
  set (s1 := s <| toolCalls := <[i := st']> (toolCalls s) |>) in *.
  assert (same_tools s s1) as Hsame by (unfold same_tools; split_and!; [done|done|apply length_insert]).
  assert (synced i s1) as Hsync by (intros st2; rewrite Hat; by intros [= <-]).
  assert (forall j, synced j s -> synced j s1) as Hsyncs.
  { intros j Hj. destruct (decide (j = i)) as [->|Hn]; [done|]. unfold synced. by rewrite Hoth. }
  destruct d as [d|]; [|exists s1; rewrite Hd in *; split_and!; done].
  exists (sent_chunk "" "" [AMap (toChunkToolCall d)] s1).
  destruct (sent_frame (Payload (chunk (chunkID s1) (if sentRole s1 then "" else "assistant") "" "" ""
                          [AMap (toChunkToolCall d)] None)) s1)
    as (Hr & _ & Hix & Ht & Hs & _ & _ & Hrole & _).
  split; [apply send_ok; [apply Ha|apply encodable_calls]|].
  split; [eapply goes_on_trans; [exact Hg|apply sent_goes_on]|].
  split; [|by unfold same_tools, synced in *; rewrite Hix, Hs, Ht].
  pose proof (sent_client "" "" [AMap (toChunkToolCall d)] s1) as Hcl. destruct Ha.
  split; rewrite ?Hcl, ?Hr, ?Hix, ?Ht, ?Hs, ?Hrole; cbn; rewrite ?str_app_nil_r; try done.
  change (((if sentRole s then 0 else 1) + cl_roles (client_of (out s)))%nat = 1%nat).
  rewrite ag_roles0. by destruct (sentRole s).
Qed.

Lemma each_tool_ok idxs : forall s a,
  agrees s a ->
  exists s', each_tool created model includeUsage idxs s = (s', None) /\ goes_on s s' /\ agrees s' a
    /\ same_tools s s' /\ (forall i, i ∈ idxs -> synced i s') /\ (forall j, synced j s -> synced j s').
Proof.
  induction idxs as [|i idxs IH]; intros s a Ha; cbn [each_tool].
  - exists s. split_and!; try done. by intros i ?%elem_of_nil.
  - destruct (send_tool_ok i s a Ha) as (s1 & E1 & G1 & A1 & T1 & Hi & K1).
    destruct (IH s1 a A1) as (s2 & E2 & G2 & A2 & T2 & His & K2).
    exists s2. unfold andThen. rewrite E1. split; [done|]. split; [by eapply goes_on_trans|]. split; [done|].
    split; [unfold same_tools in *; intuition congruence|]. split; [|auto].
    intros j [->|Hj]%elem_of_cons; auto.
Qed.

(** After a flush the client has every call. *)
Lemma flush_ok s a :
  agrees s a ->
  exists s', flushPendingToolCalls created model includeUsage s = (s', None) /\ goes_on s s' /\ agrees s' a
    /\ (forall i, cl_calls (client_of (out s')) !! i = current <$> snd (a_tools a) !! i)
    /\ sawToolCall s' = sawToolCall s.
Proof.
  intros Ha. destruct (each_tool_ok (seq 0 (List.length (toolCalls s))) s a Ha) as (s' & E & G & A & T & Hs & _).
  exists s'. split_and!; try done; [|apply T].
  intros i. rewrite (ag_calls _ _ A), <- (ag_states _ _ A), list_lookup_fmap.
  destruct (toolCalls s' !! i) as [st|] eqn:Hi; [|done]. cbn. rewrite (Hs i) with (st := st); try done.
  apply elem_of_seq. apply lookup_lt_Some in Hi. destruct T as (_ & _ & T). lia.
Qed.
End stream_spec.

(** ** Events *)

Definition delta_extends (p : obj) (t : tools) : bool :=
  match snd (chatToolDeltaFromPayload p (fst t)) with Some d => extends d (snd t) | None => true end.

Fixpoint items_extend (t : tools) (items : list any) : bool :=
  match items with
  | [] => true
  | AMap item :: items' => delta_extends (item_done item) t && items_extend (merge_item t (AMap item)) items'
  | _ :: items' => items_extend t items'
  end.

Definition quiet_types : list string :=
  ["response.created"; "response.in_progress"; "response.output_text.delta"; "response.refusal.delta"].

Definition is_terminal (p : obj) : bool :=
  String.eqb (str p "type") "response.completed" || String.eqb (str p "type") "response.incomplete".

(** An event before the terminal one: the events about text say nothing about
    tool calls, the final text is the text that was streamed, and arguments
    only grow. *)
Definition event_ok (a : acc) (p : obj) : bool :=
  if existsb (String.eqb (str p "type")) quiet_types then negb (isChatToolCallEvent p)
  else if String.eqb (str p "type") "response.output_text.done" then
    match as_str (p !! "text") with Some text => String.eqb text (a_content a) | None => true end
    && delta_extends p (a_tools a)
  else negb (is_failure_event p) && negb (is_terminal p) && delta_extends p (a_tools a).

Definition terminal_ok (a : acc) (p : obj) : bool :=
  is_terminal p && negb (isChatToolCallEvent p)
  && match as_map (p !! "response") with
     | Some r => items_extend (a_tools a) (default [] (as_arr (r !! "output")))
     | None => false
     end.

(** All events, the last one terminal. *)
Fixpoint well_streamed (a : acc) (ps : list obj) : bool :=
  match ps with
  | [] => false
  | [p] => terminal_ok a p
  | p :: ps' => event_ok a p && well_streamed (acc_event p a) ps'
  end.

Lemma quiet_merge p t : isChatToolCallEvent p = false -> merge_payload p t = t.
Proof.
  intros H. unfold merge_payload, chatToolDeltaFromPayload. rewrite H. cbn. by destruct t.
Qed.

Lemma merge_tools p ix l :
  merge_payload p (ix, l)
  = (fst (chatToolDeltaFromPayload p ix),
     match snd (chatToolDeltaFromPayload p ix) with Some d => mergeChatToolCallDelta d l | None => l end).
Proof. unfold merge_payload. cbn [fst snd]. by destruct (chatToolDeltaFromPayload p ix). Qed.

Lemma merge_not_nil d l : mergeChatToolCallDelta d l <> [].
Proof.
  intros E. pose proof (merge_lookup d l (d_Index d)) as H. rewrite E, decide_True in H by done. done.
Qed.

(** Merging on both sides. *)
Lemma merge_agrees p s a :
  agrees s a -> delta_extends p (a_tools a) = true ->
  let t := merge_payload p (toolIndexer s, toolCalls s) in
  agrees (s <| toolIndexer := fst t |> <| toolCalls := snd t |>)
    (a <| a_tools := merge_payload p (a_tools a) |>).
Proof.
  intros Ha He t. subst t. pose proof Ha as [].
  assert (a_tools a = (toolIndexer s, erase <$> toolCalls s)) as Et
    by (destruct (a_tools a); cbn in *; by subst).
  unfold delta_extends in He. rewrite Et in He. cbn [fst snd] in He.
  rewrite Et, merge_payload_erase, merge_tools. cbn [fst snd].
  destruct (snd (chatToolDeltaFromPayload p (toolIndexer s))) as [d|].
  - rewrite extends_erase in He. split; cbn; try done.
    + intros i. by rewrite merge_emitted.
    + by apply merge_ok.
    + intros _. apply merge_not_nil.
  - split; cbn; try done.
Qed.

Lemma items_agree items : forall s a,
  agrees s a -> items_extend (a_tools a) items = true ->
  let t := foldl merge_item (toolIndexer s, toolCalls s) items in
  agrees (s <| toolIndexer := fst t |> <| toolCalls := snd t |>)
    (a <| a_tools := foldl merge_item (a_tools a) items |>).
Proof.
  induction items as [|it items IH]; intros s a Ha He; cbn [foldl].
  { destruct s, a. exact Ha. }
  destruct it as [| | | | | |item|]; try (by apply IH). cbn [items_extend] in He. breflect.
  pose proof (merge_agrees (item_done item) s a Ha) as H1. specialize (H1 ltac:(done)).
  cbn [merge_item] in *. destruct (merge_payload (item_done item) (toolIndexer s, toolCalls s)) as [ix l].
  refine (IH _ _ H1 _). assumption.
Qed.

Section events_spec.
Context (created : Z) (model : string) (includeUsage : bool).
Abbreviation chunk := (chatStreamChunk created model includeUsage).

(** An event about a tool call. *)
Lemma on_other_ok p s a :
  agrees s a -> delta_extends p (a_tools a) = true ->
  exists s', on_other created model includeUsage p s = (s', None) /\ goes_on s s'
    /\ agrees s' (a <| a_tools := merge_payload p (a_tools a) |>).
Proof.
  intros Ha He. pose proof (merge_agrees p s a Ha He) as H. cbv zeta in H. rewrite merge_tools in H. cbn [fst snd] in H.
  unfold on_other. destruct (chatToolDeltaFromPayload p (toolIndexer s)) as [ix [d|]]; cbn [fst snd] in H; [|by eexists].
  set (s2 := s <| toolIndexer := ix |> <| toolCalls := mergeChatToolCallDelta d (toolCalls s) |>) in *.
  change (toolCalls (s <| toolIndexer := ix |>)) with (toolCalls s). fold s2.
  destruct (toolCalls s2 !! d_Index d) as [st|] eqn:Hi; [|by eexists].
  destruct (buildStreamDelta st) as [st' [sd|]] eqn:Hb; [|by eexists].
  assert (agrees (s2 <| sawToolCall := true |>) (a <| a_tools := merge_payload p (a_tools a) |>)) as H3.
  { destruct H. split; try done. intros _. apply merge_not_nil. }
  destruct (send_tool_ok created model includeUsage (d_Index d) _ _ H3) as (s' & E & G & A & _).
  unfold send_tool in E. change (toolCalls (s2 <| sawToolCall := true |>)) with (toolCalls s2) in E.
  rewrite Hi, Hb in E. exists s'. split; [exact E|]. split; [|done].
  eapply goes_on_trans; [|exact G]. done.
Qed.

Lemma adopt_ok r s a :
  agrees s a -> agrees (adoptResponseID r s) a /\ goes_on s (adoptResponseID r s).
Proof.
  intros []. unfold adoptResponseID. destruct r as [r|]; [|done]. destruct (_ && _); [|done]. done.
Qed.

Lemma set_tools_same a : a <| a_tools := a_tools a |> = a.
Proof. by destruct a. Qed.
Lemma set_content_same a : a <| a_content := a_content a |> = a.
Proof. by destruct a. Qed.

(** Any event before the terminal one. *)
Lemma on_event_ok p s a :
  agrees s a -> event_ok a p = true ->
  exists s', on_event created model includeUsage p s = (s', None) /\ goes_on s s'
    /\ agrees s' (acc_event p a) /\ a_finish (acc_event p a) = a_finish a.
Proof.
  intros Ha He. unfold event_ok in He. unfold on_event, acc_event.
  destruct (existsb (String.eqb (str p "type")) quiet_types) eqn:Eq.
  - apply negb_true_iff in He. unfold quiet_types in Eq. cbn [existsb] in Eq.
    destruct (String.eqb_spec (str p "type") "response.created") as [E|_];
      [|destruct (String.eqb_spec (str p "type") "response.in_progress") as [E|_];
        [|destruct (String.eqb_spec (str p "type") "response.output_text.delta") as [E|_];
          [|destruct (String.eqb_spec (str p "type") "response.refusal.delta") as [E|_]; [|done]]]];
      clear Eq; rewrite ?E; simpl String.eqb; cbn [orb]; rewrite (quiet_merge p _ He), set_tools_same.
    1,2: destruct (adopt_ok (as_map (p !! "response")) s a Ha) as [H1 H2]; by eexists.
    + destruct (send_text created model includeUsage (str p "delta") "" s a Ha) as (s' & E' & G & A).
      exists s'. split_and!; try done. rewrite str_app_nil_r in A. by destruct a.
    + destruct (send_text created model includeUsage "" (str p "delta") s a Ha) as (s' & E' & G & A).
      exists s'. split_and!; try done. rewrite str_app_nil_r in A. by destruct a.
  - unfold quiet_types in Eq. cbn [existsb] in Eq. rewrite orb_false_r in Eq. breflect.
    destruct (String.eqb_spec (str p "type") "response.created") as [|_]; [done|].
    destruct (String.eqb_spec (str p "type") "response.in_progress") as [|_]; [done|].
    destruct (String.eqb_spec (str p "type") "response.output_text.delta") as [|_]; [done|].
    destruct (String.eqb_spec (str p "type") "response.refusal.delta") as [|_]; [done|]. cbn [orb].
    destruct (String.eqb_spec (str p "type") "response.output_text.done") as [E|_].
    + apply andb_true_iff in He as [Ht He].
      unfold is_failure_event. rewrite E. simpl String.eqb. cbn [orb].
      destruct (on_other_ok p s a Ha He) as (s' & E' & G & A). exists s'. split; [exact E'|]. split; [exact G|].
      destruct (as_str (p !! "text")) as [t|]; [apply String.eqb_eq in Ht as ->; by rewrite set_content_same|done].
    + apply andb_true_iff in He as [He Hd]. apply andb_true_iff in He as [Hf Ht].
      apply negb_true_iff in Hf, Ht. unfold is_terminal in Ht. rewrite Hf, Ht.
      destruct (on_other_ok p s a Ha Hd) as (s' & E' & G & A). by exists s'.
Qed.

(** *** The terminal event *)

Lemma opt_field_encodable k v m :
  encodable (AMap m) = true -> (forall x, v = Some x -> encodable x = true) ->
  encodable (AMap (opt_field k v m)) = true.
Proof. intros Hm Hv. destruct v; cbn [opt_field]; [apply encodable_insert; auto|done]. Qed.

Lemma as_map_Some v m : as_map v = Some m -> v = Some (AMap m).
Proof. destruct v as [[]|]; try done. by intros [= ->]. Qed.

Lemma detail_encodable raw src sub dst m :
  encodable (AMap m) = true -> encodable (AMap raw) = true -> encodable (AMap (detail raw src sub dst m)) = true.
Proof.
  intros Hm Hr. unfold detail. destruct (as_map (raw !! src)) as [x|] eqn:E; [|done]. cbn.
  destruct (x !! sub) as [y|] eqn:E'; [|done]. apply encodable_insert; [done|]. apply encodable_insert; [done|].
  apply as_map_Some in E. eapply encodable_lookup; [|exact E']. by eapply encodable_lookup.
Qed.

Lemma responseUsage_encodable r u :
  encodable (AMap r) = true -> responseUsage (Some r) = Some u -> encodable (AMap u) = true.
Proof.
  intros Hr. unfold responseUsage. cbn [mbind option_bind]. destruct (as_map (r !! "usage")) as [raw|] eqn:E; [|done].
  apply as_map_Some in E. pose proof (encodable_lookup _ _ _ Hr E) as Hraw. cbn [mbind option_bind].
  unfold non_nil. destruct (bool_decide _); [done|]. intros [= <-].
  repeat apply detail_encodable; try done.
  repeat (apply opt_field_encodable; [|intros x Hx; by eapply encodable_lookup]). done.
Qed.

(** Why the stream ends, compared with the collected answer. *)
Definition reason_ok (a : acc) (r : string) : Prop :=
  (compactChatToolCalls (snd (a_tools a)) <> [] -> r = "tool_calls")
  /\ (snd (a_tools a) = [] -> r = a_finish a).

Lemma compact_erase l : compactChatToolCalls (erase <$> l) = compactChatToolCalls l.
Proof.
  unfold compactChatToolCalls. f_equal. induction l as [|s l IH]; [done|].
  cbn [fmap list_fmap omap list_omap]. by rewrite IH.
Qed.

(** What the client has once the stream is complete. *)
Record told (s : stream) (a : acc) : Prop := {
  td_content : cl_content (client_of (out s)) = a_content a;
  td_refusal : cl_refusal (client_of (out s)) = a_refusal a;
  td_calls : forall i, cl_calls (client_of (out s)) !! i = current <$> snd (a_tools a) !! i;
  td_roles : (cl_roles (client_of (out s)) <= 1)%nat }.

Lemma tail_ok reason usage s :
  room s = None -> reason <> "" ->
  (forall u, usage = Some u -> encodable (AMap u) = true) ->
  exists s', (send_finish created model includeUsage reason >>> (send_usage created model includeUsage usage >>> write DoneMark)) s
    = (s', None)
    /\ client_of (out s') = (let c := client_of (out s) in
         c <| cl_finish := cl_finish c ++ [reason] |>
           <| cl_usage := cl_usage c ++ (if includeUsage then option_list usage else []) |>
           <| cl_done := S (cl_done c) |>)
    /\ last (out s') = Some DoneMark
    /\ terminalSeen s' = terminalSeen s /\ eventData s' = eventData s /\ usageCapture s' = usageCapture s.
Proof.
  intros Hr Hn Hu. unfold andThen at 1, send_finish.
  destruct (markChunk_frame s) as (Hr1 & Ho1 & _ & _ & _ & Hs1 & Hd1 & _ & Hid1 & Hu1).
  rewrite payload_ok; [|by rewrite Hr1|by apply encodable_chunk]. rewrite Hid1, Ho1.
  set (p := Payload (chunk (chunkID s) "" "" "" reason [] None)).
  set (s1 := markChunk s <| out := out s ++ [p] |>).
  assert (client_of (out s1) = client_of (out s) <| cl_finish := cl_finish (client_of (out s)) ++ [reason] |>) as Hc1.
  { change (client_of (out s ++ [p]) = client_of (out s) <| cl_finish := cl_finish (client_of (out s)) ++ [reason] |>).
    rewrite client_of_snoc. unfold p. rewrite read_chunk. cbn. rewrite (proj2 (String.eqb_neq _ _) Hn), !str_app_nil_r.
    by destruct (client_of (out s)). }
  assert (room s1 = None) as Hrs by (change (room (markChunk s) = None); by rewrite Hr1).
  unfold andThen, send_usage. destruct includeUsage.
  - destruct (markChunk_frame s1) as (Hr2 & Ho2 & _ & _ & _ & Hs2 & Hd2 & _ & _ & Hu2).
    rewrite payload_ok; [|by rewrite Hr2|by apply encodable_usage_chunk].
    rewrite write_ok by (change (room (markChunk s1) = None); by rewrite Hr2).
    eexists. split; [done|]. cbn [out set eta eta_stream terminalSeen eventData usageCapture].
    rewrite client_of_snoc, client_of_snoc, read_usage_chunk, Ho2, Hc1, Hs2, Hd2, Hu2.
    split; [by destruct usage; cbn; rewrite ?app_nil_r|]. split; [apply last_snoc|]. done.
  - rewrite write_ok by done. eexists. split; [done|].
    cbn [out set eta eta_stream terminalSeen eventData usageCapture].
    change (out s ++ [p]) with (out s1). rewrite client_of_snoc, Hc1. split; [cbn; by rewrite app_nil_r|].
    split; [apply last_snoc|]. done.
Qed.

Lemma set_usage_frame u s a :
  agrees s a ->
  agrees (set_usage u s) a
  /\ out (set_usage u s) = out s /\ terminalSeen (set_usage u s) = terminalSeen s
  /\ eventData (set_usage u s) = eventData s
  /\ usageCapture (set_usage u s) = match u with Some _ => u | None => usageCapture s end.
Proof. intros []. by destruct u. Qed.

Lemma finish_reason_ne eventType response : 
  (if String.eqb eventType "response.incomplete" then incompleteFinishReason response else "stop") <> "".
Proof.
  unfold incompleteFinishReason. destruct (String.eqb _ _); [|done]. destruct (_ ≫= _); [|done].
  by destruct (_ || _); [|destruct (String.eqb _ _)].
Qed.

(** The accumulator after the terminal event. *)
Lemma acc_terminal p a r :
  is_terminal p = true -> isChatToolCallEvent p = false -> as_map (p !! "response") = Some r ->
  a_finish a = "stop" ->
  acc_event p a
  = a <| a_terminal := true |> <| a_response := Some r |>
      <| a_tools := mergeResponseOutputToolCalls (Some r) (a_tools a) |>
      <| a_finish := if String.eqb (str p "type") "response.incomplete" then incompleteFinishReason r else "stop" |>.
Proof.
  intros Ht Hq Hr Hs. unfold acc_event. rewrite (quiet_merge p _ Hq), set_tools_same, Hr.
  unfold is_terminal in Ht. apply orb_true_iff in Ht.
  destruct a as [c rf rs fin tm tl]. cbn in Hs. subst fin.
  destruct Ht as [Ht|Ht]; apply String.eqb_eq in Ht; rewrite Ht; reflexivity.
Qed.

(** The terminal event tells the client the rest. *)
Lemma on_terminal_ok p s a :
  agrees s a -> a_finish a = "stop" -> encodable (AMap p) = true -> terminal_ok a p = true ->
  exists s' reason response,
    on_event created model includeUsage p s = (s', None)
    /\ as_map (p !! "response") = Some response
    /\ told s' (acc_event p a) /\ reason_ok (acc_event p a) reason
    /\ cl_finish (client_of (out s')) = cl_finish (client_of (out s)) ++ [reason]
    /\ cl_usage (client_of (out s'))
       = cl_usage (client_of (out s)) ++ (if includeUsage then option_list (responseUsage (Some response)) else [])
    /\ cl_done (client_of (out s')) = S (cl_done (client_of (out s)))
    /\ last (out s') = Some DoneMark /\ terminalSeen s' = true /\ eventData s' = eventData s
    /\ usageCapture s' = match recordUsageFromChatUsage (responseUsage (Some response)) with
                         | Some u => Some u
                         | None => usageCapture s
                         end.
Proof.
  intros Ha Hstop Hp Hok. unfold terminal_ok in Hok. apply andb_true_iff in Hok as [Hok Hext].
  apply andb_true_iff in Hok as [Hterm Hquiet]. apply negb_true_iff in Hquiet.
  destruct (as_map (p !! "response")) as [response|] eqn:Hresp; [|done].
  rewrite (acc_terminal p a response) by done.
  assert (on_event created model includeUsage p = on_terminal created model includeUsage (str p "type") p) as ->.
  { unfold on_event, is_failure_event. unfold is_terminal in Hterm. rewrite Hterm.
    apply orb_true_iff in Hterm as [E|E]; apply String.eqb_eq in E; by rewrite E. }
  unfold on_terminal. rewrite Hresp. unfold andThen at 1, modify at 1.
  assert (agrees (s <| terminalSeen := true |>) a) as A1 by (by destruct Ha).
  unfold andThen at 1, modify at 1.
  destruct (adopt_ok (Some response) _ _ A1) as [A2 G2].
  set (s2 := adoptResponseID (Some response) (s <| terminalSeen := true |>)) in *.
  unfold andThen at 1, modify at 1.
  destruct (set_usage_frame (recordUsageFromChatUsage (responseUsage (Some response))) s2 a A2)
    as (A3 & Ho3 & Ht3 & Hd3 & Hu3).
  set (s3 := set_usage _ s2) in *.
  unfold andThen at 1, modify at 1.
  pose proof (items_agree _ s3 a A3 Hext) as A4. cbv zeta in A4.
  set (s4 := merge_response response s3).
  assert (agrees s4 (a <| a_tools := mergeResponseOutputToolCalls (Some response) (a_tools a) |>)
          /\ goes_on s3 s4 /\ out s4 = out s3) as (A4' & G4 & Ho4).
  { subst s4. unfold merge_response, mergeResponseOutputToolCalls in *.
    by destruct (foldl merge_item (toolIndexer s3, toolCalls s3) _) as [ix l]. }
  clearbody s4. clear A4. unfold andThen at 1.
  destruct (flush_ok created model includeUsage s4 _ A4') as (s5 & -> & G5 & A5 & Hcalls & _).
  unfold andThen at 1, modify at 1.
  set (s6 := s5 <| sawToolCall := _ |>).
  set (reason := if sawToolCall s6 then "tool_calls" else
                 if String.eqb (str p "type") "response.incomplete" then incompleteFinishReason response else "stop").
  assert (reason <> "") as Hne by (unfold reason; destruct (sawToolCall s6); [done|apply finish_reason_ne]).
  destruct (tail_ok reason (responseUsage (Some response)) s6) as (s7 & E7 & Hc7 & Hl7 & Ht7 & Hd7 & Hu7).
  { apply A5. }
  { done. }
  { intros u Hu. apply as_map_Some in Hresp. eapply responseUsage_encodable; [|exact Hu]. by eapply encodable_lookup. }
  exists s7, reason, response. split; [exact E7|]. split; [done|].
  assert (rest_of s5 = (cl_finish (client_of (out s)), cl_usage (client_of (out s)), cl_done (client_of (out s)), true,
                        usageCapture s3) /\ eventData s5 = eventData s) as [Hrest Hd5].
  { destruct G5 as [-> ->], G4 as [-> ->]. unfold rest_of. rewrite Ho3, Ht3, Hd3.
    destruct G2 as [G2 ->]. unfold rest_of in G2. injection G2 as -> -> -> -> _. done. }
  unfold rest_of in Hrest. injection Hrest as Hf Hus Hdn Hts Huc.
  change (client_of (out s6)) with (client_of (out s5)) in Hc7. rewrite Hc7.
  split; [|split].
  - destruct A5. split; rewrite Hc7; cbn; try done. rewrite ag_roles0. destruct (sentRole s5); lia.
  - destruct A5. unfold reason_ok. cbn [a_tools a_finish set eta eta_acc] in *. rewrite <- ag_states0, compact_erase.
    subst reason s6. cbn [sawToolCall set eta eta_stream]. split.
    + intros H. destruct (compactChatToolCalls (toolCalls s5)); [done|]. by rewrite orb_true_r.
    + intros H%fmap_nil_inv. rewrite H. cbn. rewrite orb_false_r.
      destruct (sawToolCall s5) eqn:Es; [|done]. by destruct (ag_saw0 eq_refl).
  - cbn [cl_finish cl_usage cl_done set eta eta_client]. rewrite Hf, Hus, Hdn, Hl7, Ht7, Hd7, Hu7.
    cbn [terminalSeen eventData usageCapture set eta eta_stream s6]. rewrite Hts, Hd5, Huc, Hu3.
    split_and!; try done. destruct G2 as [G2 _]. unfold rest_of in G2. injection G2 as _ _ _ _ ->. by destruct (recordUsageFromChatUsage _).
Qed.

(** ** Lines and events *)

Definition on_datas (ds : list string) : step :=
  foldr (fun d k => on_data created model includeUsage d >>> k) ret ds.

(** No step below the line level touches the buffered data. *)
Definition keeps_data (f : step) : Prop := forall s, eventData (fst (f s)) = eventData s.
Definition keeps_data' (f : stream -> stream) : Prop := forall s, eventData (f s) = eventData s.

Lemma keeps_then f g : keeps_data f -> keeps_data g -> keeps_data (f >>> g).
Proof.
  intros Hf Hg s. unfold andThen. specialize (Hf s). destruct (f s) as [s' [e|]]; cbn in *; [done|]. by rewrite Hg.
Qed.
Lemma keeps_write o : keeps_data (write o).
Proof. intros s. unfold write. by destruct (room s) as [[|n]|]. Qed.
Lemma keeps_payload p : keeps_data (writeChatSSEPayload p).
Proof. intros s. unfold writeChatSSEPayload. destruct (Marshal_any _); [apply keeps_write|done]. Qed.
Lemma keeps_send content refusal calls : keeps_data (chatstream.send created model includeUsage content refusal calls).
Proof.
  intros s. unfold chatstream.send. rewrite keeps_payload.
  by destruct (markChunk_frame (s <| sentRole := true |>)) as (_ & _ & _ & _ & _ & _ & -> & _).
Qed.
Lemma keeps_tool i : keeps_data (send_tool created model includeUsage i).
Proof.
  intros s. unfold send_tool. destruct (toolCalls s !! i); [|done].
  destruct (buildStreamDelta c) as [st' [d|]]; [by rewrite keeps_send|done].
Qed.
Lemma keeps_tools idxs : keeps_data (each_tool created model includeUsage idxs).
Proof. induction idxs; [done|]. apply keeps_then; [apply keeps_tool|done]. Qed.

Lemma keeps_terminal ty p : keeps_data (on_terminal created model includeUsage ty p).
Proof.
  apply keeps_then; [done|]. destruct (as_map (p !! "response")) as [r|]; [|done].
  apply keeps_then; [intros s; cbn; unfold adoptResponseID; by destruct (_ && _)|].
  apply keeps_then; [intros s; by destruct (recordUsageFromChatUsage _)|].
  apply keeps_then; [intros s; cbn; unfold merge_response; by destruct (mergeResponseOutputToolCalls _ _)|].
  apply keeps_then; [intros s; apply keeps_tools|].
  apply keeps_then; [done|].
  apply keeps_then; [intros s; unfold send_finish; rewrite keeps_payload; by destruct (markChunk_frame s) as (_ & _ & _ & _ & _ & _ & -> & _)|].
  apply keeps_then; [|apply keeps_write].
  intros s. unfold send_usage. destruct includeUsage; [|done]. rewrite keeps_payload.
  by destruct (markChunk_frame s) as (_ & _ & _ & _ & _ & _ & -> & _).
Qed.

Lemma keeps_event p : keeps_data (on_event created model includeUsage p).
Proof.
  unfold on_event. destruct (_ || _).
  { intros s. cbn. unfold adoptResponseID. destruct (as_map _); [|done]. by destruct (_ && _). }
  destruct (String.eqb _ _); [apply keeps_send|]. destruct (String.eqb _ _); [apply keeps_send|].
  destruct (is_failure_event p).
  { apply keeps_then; [apply keeps_payload|]. apply keeps_then; [apply keeps_write|done]. }
  destruct (_ || _); [apply keeps_terminal|].
  intros s. unfold on_other. destruct (chatToolDeltaFromPayload p (toolIndexer s)) as [ix [d|]]; [|done].
  destruct (toolCalls _ !! _); [|done]. destruct (buildStreamDelta c) as [st' [sd|]]; [by rewrite keeps_send|done].
Qed.

Lemma keeps_on_data d : keeps_data (on_data created model includeUsage d).
Proof.
  unfold on_data. destruct (String.eqb d "[DONE]"); [done|]. destruct (Unmarshal_map d); [apply keeps_event|done].
Qed.

(** The line loop reads the events that [parseSSEDataEvents] lists. *)
Lemma lines_are_events ls : forall s,
  (on_lines created model includeUsage ls >>> flush created model includeUsage) s
  = on_datas (sse_data_events ls (eventData s)) (s <| eventData := "" |>).
Proof.
  assert (forall s, flush created model includeUsage s
    = on_datas (if String.eqb (eventData s) "" then [] else [TrimSuffix (eventData s) newline]) (s <| eventData := "" |>)) as Hflush.
  { intros s. unfold flush. destruct (String.eqb_spec (eventData s) "") as [E|E]; cbn.
    - destruct s; cbn in *; by subst.
    - unfold andThen, ret. by destruct (on_data _ _ _ _ _) as [s' [e|]]. }
  induction ls as [|l ls IH]; intros s; cbn [on_lines sse_data_events].
  { exact (Hflush s). }
  unfold andThen at 1 2. unfold on_line. destruct (String.eqb_spec l "") as [->|Hl].
  - rewrite Hflush. destruct (String.eqb_spec (eventData s) "") as [E|E]; cbn [on_datas foldr app].
    + exact (IH (s <| eventData := "" |>)).
    + unfold andThen, ret.
      pose proof (keeps_on_data (TrimSuffix (eventData s) newline) (s <| eventData := "" |>)) as Hk.
      destruct (on_data _ _ _ _ _) as [s' [e|]]; [done|]. cbn in Hk.
      pose proof (IH s') as IH'. unfold andThen in IH'. rewrite Hk in IH'.
      replace (s' <| eventData := "" |>) with s' in IH' by (destruct s'; cbn in *; by subst). exact IH'.
  - unfold modify. destruct (HasPrefix l "data:"); [|apply IH].
    exact (IH (s <| eventData := eventData s +:+ TrimSpace (TrimPrefix l "data:") +:+ newline |>)).
Qed.

(** *** All the events of a stream *)

Definition payloads_of (events : list string) : option (list obj) :=
  mapM (fun e => default ∅ <$> Unmarshal_map e) events.

Lemma acc_events_ok events : forall a ps,
  payloads_of events = Some ps -> forallb (fun p => negb (is_failure_event p)) ps = true ->
  acc_events events a = Ok (inl (foldl (fun a p => acc_event p a) a ps)).
Proof.
  induction events as [|e events IH]; intros a ps; cbn; [by intros [= <-]|].
  destruct (Unmarshal_map e) as [p|]; [|done]. cbn. destruct (mapM _ events) as [ps'|] eqn:E; [|done].
  cbn. intros [= <-]. cbn [forallb]. intros H. apply andb_true_iff in H as [Hf H]. apply negb_true_iff in Hf. rewrite Hf.
  exact (IH _ _ E H).
Qed.

Lemma well_streamed_no_failure ps : forall a,
  well_streamed a ps = true -> forallb (fun p => negb (is_failure_event p)) ps = true.
Proof.
  assert (forall p, is_terminal p = true -> is_failure_event p = false) as Ht.
  { intros p Hp. unfold is_terminal, is_failure_event in *. apply orb_true_iff in Hp as [E|E];
      apply String.eqb_eq in E; by rewrite E. }
  assert (forall a p, event_ok a p = true -> is_failure_event p = false) as He.
  { intros a p. unfold event_ok, is_failure_event. destruct (existsb _ quiet_types) eqn:Eq.
    - intros _. unfold quiet_types in Eq. apply existsb_exists in Eq as (t & Hin & Et). apply String.eqb_eq in Et. rewrite Et.
      cbn in Hin. by destruct Hin as [<-|[<-|[<-|[<-|[]]]]].
    - destruct (String.eqb_spec (str p "type") "response.output_text.done") as [E|_]; [by rewrite E|].
      intros H. apply andb_true_iff in H as [H _]. apply andb_true_iff in H as [H _]. by apply negb_true_iff in H. }
  induction ps as [|p ps IH]; intros a H; [done|]. destruct ps as [|q ps].
  - cbn in H |- *. unfold terminal_ok in H. apply andb_true_iff in H as [H _]. apply andb_true_iff in H as [H _].
    by rewrite Ht.
  - change (event_ok a p && well_streamed (acc_event p a) (q :: ps) = true) in H.
    apply andb_true_iff in H as [H1 H2]. cbn [forallb]. rewrite (He a p H1). exact (IH _ H2).
Qed.

Lemma then_assoc f g h s : ((f >>> g) >>> h) s = (f >>> (g >>> h)) s.
Proof. unfold andThen. by destruct (f s) as [s' [e|]]. Qed.

Lemma done_not_json : Unmarshal_map "[DONE]" = None.
Proof. vm_compute. reflexivity. Qed.

(** What a finished stream has told its client about the answer [a]. *)
Definition finished (s : stream) (a : acc) : Prop :=
  told s a
  /\ (exists reason, cl_finish (client_of (out s)) = [reason] /\ reason_ok a reason)
  /\ cl_usage (client_of (out s)) = (if includeUsage then option_list (responseUsage (a_response a)) else [])
  /\ usageCapture s = recordUsageFromChatUsage (responseUsage (a_response a))
  /\ cl_done (client_of (out s)) = 1%nat /\ last (out s) = Some DoneMark /\ terminalSeen s = true.

#[local] Opaque Unmarshal_map.

Lemma datas_ok events : forall ps s a,
  payloads_of events = Some ps -> well_streamed a ps = true -> agrees s a -> a_finish a = "stop" ->
  rest_of s = ([], [], 0%nat, false, None) ->
  exists s', on_datas events s = (s', None) /\ finished s' (foldl (fun a p => acc_event p a) a ps).
Proof.
  induction events as [|e events IH]; intros ps s a Hps Hw Ha Hstop Hrest; cbn in Hps; [by injection Hps as <-|].
  destruct (Unmarshal_map e) as [op|] eqn:Ep; [|done]. cbn in Hps.
  destruct (mapM _ events) as [ps'|] eqn:Eps; [|done]. cbn in Hps. injection Hps as <-.
  assert (on_data created model includeUsage e = on_event created model includeUsage (default ∅ op)) as Hd.
  { unfold on_data. rewrite Ep. destruct (String.eqb_spec e "[DONE]") as [->|]; [|done]. by rewrite done_not_json in Ep. }
  assert (encodable (AMap (default ∅ op)) = true) as Hen.
  { destruct op as [m|]; [|done]. exact (proj1 (Unmarshal_map_good _ _ Ep)). }
  cbn [on_datas foldr]. fold (on_datas events). unfold andThen. rewrite Hd.
  destruct ps' as [|q ps'].
  - cbn [well_streamed foldl] in *. destruct events as [|e' events]; [|by cbn in Eps; destruct (_ <$> _); [|done]; destruct (mapM _ _)].
    destruct (on_terminal_ok (default ∅ op) s a Ha Hstop Hen Hw)
      as (s' & reason & response & -> & Hresp & Htold & Hre & Hf & Hu & Hdn & Hl & Ht & _ & Huc).
    exists s'. split; [done|]. injection Hrest as R1 R2 R3 _ R5. rewrite R1 in Hf. rewrite R2 in Hu. rewrite R3 in Hdn.
    rewrite R5 in Huc. unfold terminal_ok in Hw. apply andb_true_iff in Hw as [Hw _]. apply andb_true_iff in Hw as [Hw1 Hw2].
    apply negb_true_iff in Hw2. assert (a_response (acc_event (default ∅ op) a) = Some response) as Er
      by (by rewrite (acc_terminal _ a response)).
    unfold finished. rewrite Er. split; [done|]. split; [by exists reason|]. split; [done|]. split; [|done].
    rewrite Huc. by destruct (recordUsageFromChatUsage _).
  - change (event_ok a (default ∅ op) && well_streamed (acc_event (default ∅ op) a) (q :: ps') = true) in Hw.
    apply andb_true_iff in Hw as [He Hw].
    destruct (on_event_ok (default ∅ op) s a Ha He) as (s' & -> & [G _] & A & Hfin).
    destruct (IH (q :: ps') s' (acc_event (default ∅ op) a)) as (s2 & E2 & F2); try done; [congruence..|].
    by exists s2.
Qed.

#[local] Transparent Unmarshal_map.
End events_spec.

