(* ===== verification/ChatStreamTypes.v ===== *)
(** * ChatStreamTypes: the shape of every converted stream

    Whatever the upstream sends, and whenever the client goes away, what has
    been written is a sequence of well-formed chunks of one completion. *)

From S2P Require Import Prelude GoLib GoHTTP GoJSON GoAny GoAnyProofs GoBufio Errors Usage CodexRequest.
From S2P Require Import Collector ChatResponse ChatStream ChatStreamProofs.
Import codex chatresp chatstream.

Section types.
Context (created : Z) (model : string) (includeUsage : bool).
Abbreviation chunk := (chatStreamChunk created model includeUsage).

(** A chunk of the completion [id]: some of a message, the finish reason, or
    the usage. *)
Inductive chunk_ok (id : string) : obj -> Prop :=
  | delta_chunk_ok role content refusal ds :
      role = "" \/ role = "assistant" ->
      chunk_ok id (chunk id role content refusal "" (List.map (fun d => AMap (toChunkToolCall d)) ds) None)
  | finish_chunk_ok reason :
      reason ∈ ["stop"; "tool_calls"; "length"; "content_filter"] ->
      chunk_ok id (chunk id "" "" "" reason [] None)
  | usage_chunk_ok usage : includeUsage = true -> chunk_ok id (usage_chunk created model id usage).

Definition out_ok (id : string) (o : sse_out) : Prop :=
  match o with
  | DoneMark => True
  | Payload p => chunk_ok id p \/ exists e, p = {["error" := AMap e]}
  end.

(** Whether a delta chunk carries the role; nothing for any other output. *)
Definition role_flag (o : sse_out) : option bool :=
  match o with
  | DoneMark => None
  | Payload p =>
      match as_arr (p !! "choices") with
      | Some (AMap ch :: _) =>
          match as_str (ch !! "finish_reason") with
          | Some _ => None
          | None => Some (has (default ∅ (as_map (ch !! "delta"))) "role")
          end
      | _ => None
      end
  end.

Definition role_first (l : list bool) : Prop := l = [] \/ exists k, l = true :: replicate k false.

(** What is known of a stream that has failed, and of one that has not. *)
Record weak (s : stream) : Prop := {
  w_out : Forall (out_ok (chunkID s)) (out s);
  w_role : role_first (omap role_flag (out s)) }.
Record strong (s : stream) : Prop := {
  st_weak : weak s;
  st_unsent : sentChunk s = false -> Forall (fun o => forall id, out_ok id o) (out s);
  st_role : omap role_flag (out s) = [] <-> sentRole s = false }.

Definition sound (f : step) : Prop :=
  forall s, strong s -> weak (fst (f s)) /\ (snd (f s) = None -> strong (fst (f s))).

Lemma sound_then f g : sound f -> sound g -> sound (f >>> g).
Proof.
  intros Hf Hg s Hs. unfold andThen. destruct (Hf s Hs) as [Hw Hst].
  destruct (f s) as [s' [e|]]; cbn in *; [done|]. by apply Hg, Hst.
Qed.

Lemma sound_ret : sound ret.
Proof. intros s Hs. split; [apply Hs|done]. Qed.
Lemma sound_raise e : sound (raise e).
Proof. intros s Hs. split; [apply Hs|done]. Qed.

(** Changes of the state that are not about chunks. *)
Definition quiet (f : stream -> stream) : Prop :=
  forall s, out (f s) = out s /\ chunkID (f s) = chunkID s /\ sentChunk (f s) = sentChunk s
            /\ sentRole (f s) = sentRole s.

Lemma strong_same s s' :
  out s' = out s -> chunkID s' = chunkID s -> sentChunk s' = sentChunk s -> sentRole s' = sentRole s ->
  strong s -> strong s'.
Proof.
  intros Ho Hi Hc Hr [[Hw1 Hw2] Hu Hro]. split; [split|..]; rewrite ?Ho, ?Hi, ?Hc, ?Hr; done.
Qed.

Lemma sound_modify f : quiet f -> sound (modify f).
Proof.
  intros Hf s Hs. destruct (Hf s) as (Ho & Hi & Hc & Hr).
  assert (strong (f s)) as H by (by eapply strong_same). split; [apply H|done].
Qed.

Lemma strong_adopt r s : strong s -> strong (adoptResponseID r s).
Proof.
  intros Hs. unfold adoptResponseID. destruct r as [r|]; [|done]. destruct (_ && _) eqn:E; [|done].
  apply andb_true_iff in E as [E _]. apply negb_true_iff in E. destruct Hs as [[Hw1 Hw2] Hu Hro].
  split; [split|..]; cbn; try done. eapply Forall_impl; [by apply Hu|]. auto.
Qed.

Lemma sound_adopt r : sound (modify (adoptResponseID r)).
Proof. intros s Hs. pose proof (strong_adopt r s Hs) as H. split; [apply H|done]. Qed.

Lemma role_first_snoc l b :
  role_first l -> (l = [] -> b = true) -> (l <> [] -> b = false) -> role_first (l ++ [b]).
Proof.
  intros [-> | [k ->]] H1 H2; right; [exists 0%nat; by rewrite H1|].
  exists (S k). rewrite H2 by done. cbn. f_equal. by rewrite <- replicate_cons_app.
Qed.

(** ** Writing *)

Lemma write_cases o s :
  (write o s = (s, Some io_ErrClosedPipe))
  \/ exists r, write o s = (s <| out := out s ++ [o] |> <| room := r |>, None).
Proof. unfold write. destruct (room s) as [[|n]|]; [by left|right; eexists; reflexivity..]. Qed.

(** An output that is neither a chunk nor in the way of one. *)
Lemma sound_write o : (forall id, out_ok id o) -> role_flag o = None -> sound (write o).
Proof.
  intros Ho Hf s Hs. destruct (write_cases o s) as [-> | [r ->]]; cbn; [split; [apply Hs|done]|].
  assert (strong (s <| out := out s ++ [o] |> <| room := r |>)) as H; [|split; [apply H|done]].
  destruct Hs as [[Hw1 Hw2] Hu Hro]. split; [split|..]; cbn; rewrite ?omap_app; cbn; rewrite ?Hf, ?app_nil_r; try done.
  - apply Forall_app. split; [done|]. constructor; [auto|constructor].
  - intros Hc. apply Forall_app. split; [auto|]. constructor; [done|constructor].
Qed.

Lemma sound_done : sound (write DoneMark).
Proof. by apply sound_write. Qed.

Lemma sound_error e : sound (writeChatSSEPayload {["error" := AMap e]}).
Proof.
  intros s Hs. unfold writeChatSSEPayload. destruct (Marshal_any _); [|split; [apply Hs|done]].
  apply sound_write; [intros id; right; by eexists|reflexivity|done].
Qed.

(** Writing a chunk of the current completion, once [sentChunk] is set. *)
Lemma sound_chunk p s b :
  weak s -> chunk_ok (chunkID s) p -> role_flag (Payload p) = b ->
  match b with
  | Some b => (omap role_flag (out s) = [] -> b = true) /\ (omap role_flag (out s) <> [] -> b = false)
  | None => True
  end ->
  let r := writeChatSSEPayload p s in
  weak (fst r) /\ (snd r = None ->
    weak (fst r) /\ sentChunk (fst r) = sentChunk s /\ sentRole (fst r) = sentRole s
    /\ omap role_flag (out (fst r)) = omap role_flag (out s) ++ option_list b).
Proof.
  intros Hs Hp Hb Hrole r. subst r. unfold writeChatSSEPayload. destruct (Marshal_any (AMap p)); [|done].
  destruct (write_cases (Payload p) s) as [-> | [n ->]]; cbn; [done|]. destruct Hs as [Hw1 Hw2].
  assert (omap role_flag (out s ++ [Payload p]) = omap role_flag (out s) ++ option_list b) as E
    by (rewrite omap_app; cbn [omap list_omap]; rewrite Hb; by destruct b).
  assert (weak (s <| out := out s ++ [Payload p] |> <| room := n |>)) as H; [|done].
  split; cbn; [|rewrite E].
  - apply Forall_app. split; [done|]. constructor; [by left|constructor].
  - destruct b as [b|]; cbn; [destruct Hrole; by apply role_first_snoc|by rewrite app_nil_r].
Qed.

Lemma strong_mark s : strong s -> strong (markChunk s) /\ sentChunk (markChunk s) = true.
Proof.
  intros [[Hw1 Hw2] Hu Hro]. unfold markChunk.
  destruct (usingGeneratedID s && _); (split; [|done]); (split; [split|..]); cbn; done.
Qed.

Lemma markChunk_same s :
  out (markChunk s) = out s /\ chunkID (markChunk s) = chunkID s /\ sentRole (markChunk s) = sentRole s.
Proof. unfold markChunk. by destruct (usingGeneratedID s && _). Qed.

(** The flag of a delta chunk, and of the others. *)
Lemma role_flag_chunk id role content refusal fin calls :
  role_flag (Payload (chunk id role content refusal fin calls None))
  = if String.eqb fin "" then Some (negb (String.eqb role "")) else None.
Proof.
  destruct (chunk_fields created model includeUsage id role content refusal fin calls) as (Hc & _).
  unfold role_flag. rewrite Hc. cbn [as_arr].
  destruct (choice_fields (chunk_delta role content refusal calls) fin) as [-> ->]. cbn [as_map default from_option].
  destruct (delta_fields role content refusal calls) as (_ & _ & Hr & _).
  destruct (String.eqb fin ""); cbn; [|done]. by rewrite <- Hr.
Qed.

Lemma weak_mark s : weak s -> weak (markChunk s).
Proof. destruct (markChunk_same s) as (Ho & Hi & _). intros []. split; by rewrite ?Ho, ?Hi. Qed.

Lemma mark_sent s : sentChunk (markChunk s) = true.
Proof. unfold markChunk. by destruct (usingGeneratedID s && _). Qed.

Lemma sound_send content refusal ds :
  sound (chatstream.send created model includeUsage content refusal (List.map (fun d => AMap (toChunkToolCall d)) ds)).
Proof.
  intros s Hs. unfold chatstream.send. pose proof Hs as [Hw Hu Hro].
  set (role := if sentRole s then "" else "assistant").
  assert (weak (s <| sentRole := true |>)) as Hw1 by (by destruct Hw).
  destruct (markChunk_same (s <| sentRole := true |>)) as (Ho & Hi & Hr).
  destruct (sound_chunk (chunk (chunkID (markChunk (s <| sentRole := true |>))) role content refusal ""
              (List.map (fun d => AMap (toChunkToolCall d)) ds) None)
              (markChunk (s <| sentRole := true |>)) (Some (negb (String.eqb role "")))) as [Hweak Hstrong].
  { by apply weak_mark. }
  { apply delta_chunk_ok. unfold role. destruct (sentRole s); auto. }
  { by rewrite role_flag_chunk. }
  { rewrite Ho. cbn [out set eta eta_stream]. rewrite Hro. unfold role. destruct (sentRole s); split; try done. }
  split; [exact Hweak|]. intros Hn. destruct (Hstrong Hn) as (_ & Hc & Hrr & Hf).
  split; [done| |].
  - rewrite Hc, mark_sent. done.
  - rewrite Hf, Hrr, Hr, Ho. cbn. split; [by intros [_ ?]%app_nil|done].
Qed.

Lemma sound_finish reason :
  reason ∈ ["stop"; "tool_calls"; "length"; "content_filter"] ->
  sound (send_finish created model includeUsage reason).
Proof.
  intros Hre s Hs. unfold send_finish. pose proof Hs as [Hw Hu Hro].
  assert (String.eqb reason "" = false) as Hne.
  { apply String.eqb_neq. intros ->. revert Hre. by apply (bool_decide_unpack _). }
  destruct (markChunk_same s) as (Ho & Hi & Hr).
  destruct (sound_chunk (chunk (chunkID (markChunk s)) "" "" "" reason [] None) (markChunk s) None) as [Hweak Hstrong].
  { by apply weak_mark. }
  { by apply finish_chunk_ok. }
  { by rewrite role_flag_chunk, Hne. }
  { done. }
  split; [exact Hweak|]. intros Hn. destruct (Hstrong Hn) as (_ & Hc & Hrr & Hf).
  split; [done| |].
  - rewrite Hc, mark_sent. done.
  - rewrite Hf, Hrr, Hr, Ho. cbn. by rewrite app_nil_r.
Qed.

Lemma sound_usage usage : sound (send_usage created model includeUsage usage).
Proof.
  intros s Hs. unfold send_usage. destruct includeUsage eqn:Ei; [|split; [apply Hs|done]]. pose proof Hs as [Hw Hu Hro].
  destruct (markChunk_same s) as (Ho & Hi & Hr).
  destruct (sound_chunk (usage_chunk created model (chunkID (markChunk s)) usage) (markChunk s) None) as [Hweak Hstrong].
  { by apply weak_mark. }
  { by apply usage_chunk_ok. }
  { reflexivity. }
  { done. }
  split; [exact Hweak|]. intros Hn. destruct (Hstrong Hn) as (_ & Hc & Hrr & Hf).
  split; [done| |].
  - rewrite Hc, mark_sent. done.
  - rewrite Hf, Hrr, Hr, Ho. cbn. by rewrite app_nil_r.
Qed.

(** ** Events *)

Lemma strong_tools s l : strong s -> strong (s <| toolCalls := l |>).
Proof. by apply strong_same. Qed.

Lemma sound_tool i : sound (send_tool created model includeUsage i).
Proof.
  intros s Hs. unfold send_tool. destruct (toolCalls s !! i) as [st|]; [|split; [apply Hs|done]].
  destruct (buildStreamDelta st) as [st' [d|]].
  - apply (sound_send "" "" [d]). by apply strong_tools.
  - split; [|intros _]; by apply strong_tools.
Qed.

Lemma sound_tools idxs : sound (each_tool created model includeUsage idxs).
Proof. induction idxs; [apply sound_ret|]. apply sound_then; [apply sound_tool|done]. Qed.

Lemma reason_known (b : bool) eventType response :
  (if b then "tool_calls" else if String.eqb eventType "response.incomplete"
                               then incompleteFinishReason response else "stop")
  ∈ ["stop"; "tool_calls"; "length"; "content_filter"].
Proof.
  assert (forall r, bool_decide (r ∈ ["stop"; "tool_calls"; "length"; "content_filter"]) = true ->
    r ∈ ["stop"; "tool_calls"; "length"; "content_filter"]) as H by (intros r Hr; by apply bool_decide_eq_true in Hr).
  destruct b; [by apply H|]. destruct (String.eqb eventType _); [|by apply H].
  unfold incompleteFinishReason. destruct (_ ≫= _); [|by apply H].
  destruct (_ || _); [by apply H|]. destruct (String.eqb _ _); by apply H.
Qed.

Lemma sound_terminal eventType p : sound (on_terminal created model includeUsage eventType p).
Proof.
  unfold on_terminal. apply sound_then; [by apply sound_modify|].
  destruct (as_map (p !! "response")) as [r|]; [|apply sound_raise].
  apply sound_then; [apply sound_adopt|].
  apply sound_then; [apply sound_modify; intros s; by destruct (recordUsageFromChatUsage _)|].
  apply sound_then.
  { apply sound_modify. intros s. unfold merge_response. by destruct (mergeResponseOutputToolCalls _ _). }
  apply sound_then; [intros s; apply sound_tools|].
  apply sound_then; [by apply sound_modify|].
  apply sound_then; [intros s; apply sound_finish, reason_known|].
  apply sound_then; [apply sound_usage|apply sound_done].
Qed.

Lemma sound_other p : sound (on_other created model includeUsage p).
Proof.
  intros s Hs. unfold on_other.
  destruct (chatToolDeltaFromPayload p (toolIndexer s)) as [ix [d|]];
    [|split; [|intros _]; by eapply strong_same; [..|exact Hs]].
  destruct (toolCalls _ !! _) as [st|]; [|split; [|intros _]; by eapply strong_same; [..|exact Hs]].
  destruct (buildStreamDelta st) as [st' [sd|]]; [|split; [|intros _]; by eapply strong_same; [..|exact Hs]].
  apply (sound_send "" "" [sd]). by eapply strong_same; [..|exact Hs].
Qed.

Lemma sound_event p : sound (on_event created model includeUsage p).
Proof.
  unfold on_event. destruct (_ || _); [apply sound_adopt|].
  destruct (String.eqb _ _); [apply (sound_send _ _ [])|]. destruct (String.eqb _ _); [apply (sound_send _ _ [])|].
  destruct (is_failure_event p).
  { apply sound_then; [apply sound_error|]. apply sound_then; [apply sound_done|apply sound_raise]. }
  destruct (_ || _); [apply sound_terminal|apply sound_other].
Qed.

Lemma sound_flush : sound (flush created model includeUsage).
Proof.
  intros s Hs. unfold flush. destruct (String.eqb (eventData s) ""); [split; [apply Hs|done]|].
  assert (strong (s <| eventData := "" |>)) as Hs' by (by eapply strong_same; [..|exact Hs]).
  unfold on_data. destruct (String.eqb _ "[DONE]"); [split; [apply Hs'|done]|].
  destruct (Unmarshal_map _); [by apply sound_event|by apply sound_raise].
Qed.

Lemma sound_lines ls : sound (on_lines created model includeUsage ls).
Proof.
  induction ls as [|l ls IH]; [apply sound_ret|]. apply sound_then; [|exact IH]. unfold on_line.
  destruct (String.eqb l ""); [apply sound_flush|]. apply sound_modify. intros s. by destruct (HasPrefix l "data:").
Qed.

Lemma sound_stream upstream : sound (writeChatCompletionStream created model includeUsage upstream).
Proof.
  unfold writeChatCompletionStream. destruct (Scan _ _) as [ls serr].
  apply sound_then; [apply sound_lines|]. apply sound_then; [apply sound_flush|].
  intros s Hs. unfold stream_end. destruct serr; (split; [apply Hs|done]).
Qed.

(** ** How a stream ends *)

(** A step between terminal events. *)
Definition calm (f : step) : Prop :=
  forall s, terminalSeen (fst (f s)) = terminalSeen s /\ (exists l, out (fst (f s)) = out s ++ l)
            /\ snd (f s) <> Some (Sentinel errChatAdapterStreamFailed).

Lemma calm_then f g : calm f -> calm g -> calm (f >>> g).
Proof.
  intros Hf Hg s. unfold andThen. destruct (Hf s) as (H1 & [l1 H2] & H3).
  destruct (f s) as [s' [e|]]; cbn in *; [split_and!; eauto|].
  destruct (Hg s') as (G1 & [l2 G2] & G3). split; [congruence|]. split; [|done].
  exists (l1 ++ l2). by rewrite G2, H2, app_assoc.
Qed.

Lemma calm_modify f : (forall s, out (f s) = out s /\ terminalSeen (f s) = terminalSeen s) -> calm (modify f).
Proof.
  intros Hf s. destruct (Hf s) as [Ho Ht]. split_and!; [done| |done]. exists []. by rewrite app_nil_r.
Qed.

Lemma calm_ret : calm ret.
Proof. by apply calm_modify. Qed.

Lemma calm_write o : calm (write o).
Proof.
  intros s. destruct (write_cases o s) as [-> | [r ->]]; cbn; split_and!; try done; [|by eexists].
  exists []. by rewrite app_nil_r.
Qed.

Lemma calm_payload p : calm (writeChatSSEPayload p).
Proof.
  intros s. unfold writeChatSSEPayload. destruct (Marshal_any _); [apply calm_write|].
  split_and!; try done. exists []. by rewrite app_nil_r.
Qed.

(** A step that starts by changing the state. *)
Lemma calm_after (g : stream -> stream) (f : stream -> step) :
  (forall s, out (g s) = out s /\ terminalSeen (g s) = terminalSeen s) -> (forall s, calm (f s)) ->
  calm (fun s => f s (g s)).
Proof.
  intros Hg Hf s. destruct (Hg s) as [Ho Ht], (Hf s (g s)) as (H1 & H2 & H3). by rewrite Ho, Ht in *.
Qed.

Lemma markChunk_calm s : out (markChunk s) = out s /\ terminalSeen (markChunk s) = terminalSeen s.
Proof. unfold markChunk. by destruct (usingGeneratedID s && _). Qed.

Lemma calm_marked p s s' :
  out s' = out s -> terminalSeen s' = terminalSeen s ->
  let r := writeChatSSEPayload p s' in
  terminalSeen (fst r) = terminalSeen s /\ (exists l, out (fst r) = out s ++ l)
  /\ snd r <> Some (Sentinel errChatAdapterStreamFailed).
Proof. intros <- <-. apply calm_payload. Qed.

Lemma calm_send content refusal calls : calm (chatstream.send created model includeUsage content refusal calls).
Proof.
  intros s. unfold chatstream.send.
  destruct (markChunk_calm (s <| sentRole := true |>)) as [Ho Ht]. by apply calm_marked.
Qed.

Lemma calm_tool i : calm (send_tool created model includeUsage i).
Proof.
  intros s. unfold send_tool. destruct (toolCalls s !! i) as [st|]; [|apply calm_ret].
  destruct (buildStreamDelta st) as [st' [d|]].
  - destruct (calm_send "" "" [AMap (toChunkToolCall d)] (s <| toolCalls := <[i := st']> (toolCalls s) |>)) as (? & ? & ?).
    done.
  - split_and!; try done. exists []. by rewrite app_nil_r.
Qed.

Lemma calm_tools idxs : calm (each_tool created model includeUsage idxs).
Proof. induction idxs; [apply calm_ret|]. apply calm_then; [apply calm_tool|done]. Qed.

Lemma calm_finish reason : calm (send_finish created model includeUsage reason).
Proof.
  intros s. unfold send_finish.
  destruct (markChunk_calm s) as [Ho Ht]. by apply calm_marked.
Qed.

Lemma calm_usage usage : calm (send_usage created model includeUsage usage).
Proof.
  intros s. unfold send_usage. destruct includeUsage; [|apply calm_ret].
  destruct (markChunk_calm s) as [Ho Ht]. by apply calm_marked.
Qed.

Lemma adopt_calm r s : out (adoptResponseID r s) = out s /\ terminalSeen (adoptResponseID r s) = terminalSeen s.
Proof. unfold adoptResponseID. destruct r as [r|]; [|done]. by destruct (_ && _). Qed.

Lemma calm_quick (s s' : stream) :
  out s' = out s -> terminalSeen s' = terminalSeen s ->
  let r := (s', None : option error) in
  terminalSeen (fst r) = terminalSeen s /\ (exists l, out (fst r) = out s ++ l)
  /\ snd r <> Some (Sentinel errChatAdapterStreamFailed).
Proof.
  intros Ho Ht r. split; [exact Ht|]. split; [exists []; by rewrite app_nil_r|discriminate].
Qed.

Lemma calm_other p : calm (on_other created model includeUsage p).
Proof.
  intros s. unfold on_other. destruct (chatToolDeltaFromPayload p (toolIndexer s)) as [ix [d|]];
    [|apply (calm_quick s); reflexivity].
  destruct (toolCalls _ !! _) as [st|]; [|apply (calm_quick s); reflexivity].
  destruct (buildStreamDelta st) as [st' [sd|]]; [|apply (calm_quick s); reflexivity].
  match goal with |- context [chatstream.send _ _ _ ?c ?r ?l ?s1] => destruct (calm_send c r l s1) as (? & ? & ?) end.
  split; [assumption|]. split; assumption.
Qed.

(** What any event guarantees. *)
Definition ends_well (f : step) : Prop :=
  forall s, let '(s', e) := f s in
    (exists l, out s' = out s ++ l)
    /\ (e = None -> terminalSeen s' = true -> terminalSeen s = true \/ DoneMark ∈ out s')
    /\ (e = Some (Sentinel errChatAdapterStreamFailed) ->
          exists l err, out s' = l ++ [Payload {["error" := AMap err]}; DoneMark]).

Lemma calm_ends f : calm f -> ends_well f.
Proof.
  intros Hf s. destruct (Hf s) as (H1 & H2 & H3). destruct (f s) as [s' e]. cbn in *. split_and!; [done| |done].
  intros _ Ht. left. congruence.
Qed.

Lemma ends_then f g : ends_well f -> ends_well g -> ends_well (f >>> g).
Proof.
  intros Hf Hg s. unfold andThen. specialize (Hf s). destruct (f s) as [s1 [e|]]; [exact Hf|].
  destruct Hf as ([l1 H1] & H2 & _). specialize (Hg s1). destruct (g s1) as [s2 e].
  destruct Hg as ([l2 G1] & G2 & G3). split_and!; [|intros Hn Ht|done].
  - exists (l1 ++ l2). by rewrite G1, H1, app_assoc.
  - destruct (G2 Hn Ht) as [Hs1|]; [|by right]. destruct (H2 eq_refl Hs1) as [|Hd]; [by left|].
    right. rewrite G1. by apply elem_of_app; left.
Qed.

(** A sequence of calm steps, the last of which writes the end mark. *)
Inductive to_done : step -> Prop :=
  | td_done : to_done (write DoneMark)
  | td_then f g : calm f -> to_done g -> to_done (f >>> g)
  | td_raise e : e <> Sentinel errChatAdapterStreamFailed -> to_done (raise e).

Lemma to_done_marks f : to_done f -> forall s, let '(s', e) := f s in
  (exists l, out s' = out s ++ l) /\ (e = None -> DoneMark ∈ out s')
  /\ e <> Some (Sentinel errChatAdapterStreamFailed).
Proof.
  induction 1 as [|f g Hf Hg IH|e He]; intros s.
  - destruct (write_cases DoneMark s) as [-> | [r ->]]; cbn; split_and!; try done.
    + exists []. by rewrite app_nil_r.
    + by eexists.
    + intros _. apply elem_of_app. right. by apply list_elem_of_singleton.
  - unfold andThen. destruct (Hf s) as (_ & [l1 H2] & H3). destruct (f s) as [s1 [e|]]; cbn in *.
    + split_and!; try done. by exists l1.
    + specialize (IH s1). destruct (g s1) as [s2 e]. destruct IH as ([l2 G1] & G2 & G3). split_and!; try done.
      exists (l1 ++ l2). by rewrite G1, H2, app_assoc.
  - cbn. split_and!; [exists []; by rewrite app_nil_r|done|congruence].
Qed.

Lemma ends_terminal eventType p : ends_well (on_terminal created model includeUsage eventType p).
Proof.
  intros s. unfold on_terminal. unfold andThen at 1, modify at 1.
  match goal with |- context [match as_map (p !! "response") with None => ?a | Some r => @?b r end] =>
    assert (to_done (match as_map (p !! "response") with None => a | Some r => b r end)) as H end.
  { destruct (as_map (p !! "response")) as [r|]; [|by apply td_raise].
    apply td_then; [apply calm_modify, adopt_calm|].
    apply td_then; [apply calm_modify; intros s0; by destruct (recordUsageFromChatUsage _)|].
    apply td_then; [apply calm_modify; intros s0; unfold merge_response; by destruct (mergeResponseOutputToolCalls _ _)|].
    apply td_then; [intros s0; apply calm_tools|].
    apply td_then; [by apply calm_modify|].
    apply td_then; [intros s0; apply calm_finish|].
    apply td_then; [apply calm_usage|apply td_done]. }
  pose proof (to_done_marks _ H (s <| terminalSeen := true |>)) as Hm.
  match goal with |- context [match ?x with (s', e) => _ end] => destruct x as [s' e] end.
  destruct Hm as (H1 & H2 & H3). split_and!; [done|intros Hn _; right; auto|done].
Qed.

Lemma ends_failure p :
  ends_well (writeChatSSEPayload {["error" := AMap (extractResponsesError p)]} >>> (write DoneMark >>>
             raise (Sentinel errChatAdapterStreamFailed))).
Proof.
  intros s. unfold andThen at 1. destruct (calm_payload {["error" := AMap (extractResponsesError p)]} s) as (H1 & H2 & H3).
  unfold writeChatSSEPayload in *. destruct (Marshal_any _); [|cbn in *; by split_and!].
  destruct (write_cases (Payload {["error" := AMap (extractResponsesError p)]}) s) as [E | [r E]]; rewrite E in *; cbn in *;
    [by split_and!|].
  unfold andThen.
  match goal with |- context [write DoneMark ?s1] => destruct (write_cases DoneMark s1) as [-> | [r' ->]] end;
    cbn; split_and!; try done.
  - exists ([Payload {["error" := AMap (extractResponsesError p)]}] ++ [DoneMark]). by rewrite app_assoc.
  - intros _. exists (out s), (extractResponsesError p). by rewrite <- app_assoc.
Qed.

Lemma ends_event p : ends_well (on_event created model includeUsage p).
Proof.
  unfold on_event. destruct (_ || _); [apply calm_ends, calm_modify, adopt_calm|].
  destruct (String.eqb _ _); [apply calm_ends, calm_send|]. destruct (String.eqb _ _); [apply calm_ends, calm_send|].
  destruct (is_failure_event p); [apply ends_failure|].
  destruct (_ || _); [apply ends_terminal|apply calm_ends, calm_other].
Qed.

Lemma ends_quick s s' e :
  out s' = out s -> terminalSeen s' = terminalSeen s -> e <> Some (Sentinel errChatAdapterStreamFailed) ->
  (exists l, out s' = out s ++ l) /\ (e = None -> terminalSeen s' = true -> terminalSeen s = true \/ DoneMark ∈ out s')
  /\ (e = Some (Sentinel errChatAdapterStreamFailed) ->
        exists l err, out s' = l ++ [Payload {["error" := AMap err]}; DoneMark]).
Proof.
  intros Ho Ht He. split_and!; [exists []; by rewrite app_nil_r|intros _ ?; left; congruence|done].
Qed.

Lemma ends_flush : ends_well (flush created model includeUsage).
Proof.
  intros s. unfold flush. destruct (String.eqb (eventData s) ""); [by apply ends_quick|].
  unfold on_data. destruct (String.eqb _ "[DONE]").
  { apply ends_quick; [done|done|]. by destruct (terminalSeen _). }
  destruct (Unmarshal_map _) as [p|]; [|by apply ends_quick].
  pose proof (ends_event (default ∅ p) (s <| eventData := "" |>)) as H.
  destruct (on_event _ _ _ _ _) as [s' e]. exact H.
Qed.

Lemma ends_lines ls : ends_well (on_lines created model includeUsage ls).
Proof.
  induction ls as [|l ls IH]; [apply calm_ends, calm_ret|]. apply ends_then; [|exact IH]. unfold on_line.
  destruct (String.eqb l ""); [apply ends_flush|]. apply calm_ends, calm_modify. intros s. by destruct (HasPrefix l "data:").
Qed.

Lemma ends_stream upstream : ends_well (writeChatCompletionStream created model includeUsage upstream).
Proof.
  unfold writeChatCompletionStream. destruct (Scan _ _) as [ls serr].
  apply ends_then; [apply ends_lines|]. apply ends_then; [apply ends_flush|].
  intros s. unfold stream_end. destruct serr; apply ends_quick; try done. by destruct (terminalSeen s).
Qed.

Lemma stream_seen upstream s s' :
  writeChatCompletionStream created model includeUsage upstream s = (s', None) -> terminalSeen s' = true.
Proof.
  unfold writeChatCompletionStream. destruct (Scan _ _) as [ls serr]. unfold andThen.
  destruct (on_lines _ _ _ _ _) as [s1 [e|]]; [done|]. destruct (flush _ _ _ _) as [s2 [e|]]; [done|].
  unfold stream_end. destruct serr; [done|]. destruct (terminalSeen s2) eqn:E; [|done]. by intros [= <-].
Qed.

End types.

