(* ===== verification/GoMime.v ===== *)
(** * GoMime: mime.ParseMediaType

    A Content-Type is a media type and parameters; every error of the parser
    is [None].  Parameters in pieces ([charset*0], [charset*]) are put together
    as RFC 2231 has it. *)

From S2P Require Import Prelude GoLib GoURL GoHTTP.

(** ** Tokens and values *)

Definition isTSpecial (a : ascii) : bool := in_set "()<>@,;:\/[]?=" a || (byteZ a =? 34).
Definition isTokenChar (a : ascii) : bool := (0x20 <? byteZ a) && (byteZ a <? 0x7f) && negb (isTSpecial a).

Definition TrimLeftSpace (s : string) : string :=
  concat_bytes (drop_while (fun p => IsSpace (fst p)) (runes s)).

Fixpoint consumeToken (v : string) : string * string :=
  match v with
  | EmptyString => ("", "")
  | String a v' =>
      if isTokenChar a then let '(t, rest) := consumeToken v' in (String a t, rest) else ("", v)
  end.

(** A quoted string after its opening quote; [None] when it is not closed or
    has a line break. *)
Fixpoint quoted (v : string) : option (string * string) :=
  match v with
  | EmptyString => None
  | String r v' =>
      let plain := if (byteZ r =? 13) || (byteZ r =? 10) then None
                   else '(s, rest) ← quoted v'; Some (String r s, rest) in
      if byteZ r =? 34 then Some ("", v')
      else if Ascii.eqb r "\" then
        match v' with
        | String c v'' => if isTSpecial c then '(s, rest) ← quoted v''; Some (String c s, rest) else plain
        | EmptyString => plain
        end
      else plain
  end.

Definition consumeValue (v : string) : string * string :=
  match v with
  | EmptyString => ("", "")
  | String a v' => if byteZ a =? 34 then default ("", v) (quoted v') else consumeToken v
  end.

(** [; key = value]; [None] where the Go function returns an empty key. *)
Definition consumeMediaParam (v : string) : option (string * string * string) :=
  match TrimLeftSpace v with
  | String ";" rest =>
      let '(param, rest) := consumeToken (TrimLeftSpace rest) in
      if String.eqb param "" then None
      else match TrimLeftSpace rest with
           | String "=" rest =>
               let rest := TrimLeftSpace rest in
               let '(value, rest2) := consumeValue rest in
               if String.eqb value "" && String.eqb rest2 rest then None else Some (ToLower param, value, rest2)
           | _ => None
           end
  | _ => None
  end.

Definition checkMediaTypeDisposition (s : string) : bool :=
  let '(typ, rest) := consumeToken s in
  if String.eqb typ "" then false
  else match rest with
       | EmptyString => true
       | String "/" rest => let '(subtype, rest) := consumeToken rest in
                            negb (String.eqb subtype "") && String.eqb rest ""
       | _ => false
       end.

(** ** RFC 2231 *)

Fixpoint percentHexUnescape (s : string) : option string :=
  match s with
  | EmptyString => Some ""
  | String "%" (String h (String l s')) =>
      if isHex h && isHex l then t ← percentHexUnescape s'; Some (String (Zbyte (unhex h * 16 + unhex l)) t)
      else None
  | String "%" _ => None
  | String a s' => t ← percentHexUnescape s'; Some (String a t)
  end.

(** [charset'language'value]. *)
Definition decode2231Enc (v : string) : option string :=
  let '(charset, v, found) := Cut v "'" in
  let '(_, encv, found2) := Cut v "'" in
  let charset := ToLower charset in
  if found && found2 && (String.eqb charset "us-ascii" || String.eqb charset "utf-8")
  then percentHexUnescape encv else None.

Abbreviation params := (gmap string string).

(** The pieces [key*0], [key*1], ... until one is missing; [n] bounds their
    number by that of the parameters. *)
Fixpoint stitch (pieces : params) (key : string) (n i : nat) : option string :=
  match n with
  | O => None
  | S n' =>
      let simplePart := key +:+ "*" +:+ pretty i in
      let next s := Some (s +:+ default "" (stitch pieces key n' (S i))) in
      match pieces !! simplePart with
      | Some v => next v
      | None =>
          match pieces !! (simplePart +:+ "*") with
          | Some v => next (default "" (if (i =? 0)%nat then decode2231Enc v else percentHexUnescape v))
          | None => None
          end
      end
  end.

Definition continuation (pieces : params) (ps : params) (key : string) : params :=
  match pieces !! (key +:+ "*") with
  | Some v => match decode2231Enc v with Some d => <[key := d]> ps | None => ps end
  | None => match stitch pieces key (S (size pieces)) 0 with Some s => <[key := s]> ps | None => ps end
  end.

(** ** The parser *)

(** The parameters, as long as each parses; the string gets shorter with each,
    so its length is enough fuel. *)
Fixpoint media_params (fuel : nat) (v : string) (ps : params) : option params :=
  match fuel with
  | O => None
  | S fuel =>
      let v := TrimLeftSpace v in
      if String.eqb v "" then Some ps
      else match consumeMediaParam v with
           | None => if String.eqb (TrimSpace v) ";" then Some ps else None
           | Some (key, value, rest) =>
               match ps !! key with
               | Some v' => if String.eqb v' value then media_params fuel rest ps else None
               | None => media_params fuel rest (<[key := value]> ps)
               end
           end
  end.

Definition starred (key : string) : bool := match IndexByte key "*" with Some _ => true | None => false end.
Definition base_name (key : string) : string := fst (fst (Cut key "*")).

Definition ParseMediaType (v : string) : option (string * params) :=
  let base := fst (fst (Cut v ";")) in
  let mediatype := TrimSpace (ToLower base) in
  if negb (checkMediaTypeDisposition mediatype) then None
  else
    all ← media_params (S (String.length v)) (drop_str (String.length base) v) ∅;
    let plain := filter (fun kv => starred (fst kv) = false) all in
    let pieces := filter (fun kv => starred (fst kv) = true) all in
    Some (mediatype, foldr (fun key ps => continuation pieces ps key) plain
                       (remove_dups (List.map base_name (elements (dom pieces))))).

Example ParseMediaType_ex :
  ParseMediaType "Application/JSON; charset=UTF-8;" = Some ("application/json", {["charset" := "UTF-8"]})
  /\ ParseMediaType "a/b; charset*=us-ascii'en'a%20b; x=1; x=2" = None
  /\ ParseMediaType "a/b; charset*0=u; charset*1*=%74f" = Some ("a/b", {["charset" := "utf"]})
  /\ ParseMediaType "a/" = None.
Proof. split_and!; vm_compute; reflexivity. Qed.
