(* ===== verification/SystemOne.v ===== *)
(** * SystemOne: the native System One protocol
      (internal/provider/systemone/bridge.go)

    What is checked of a request before an account is selected, and of a
    response before anything is written.  Of several invalid questions or
    answers the first in the document is reported; Go's order is unspecified. *)

From S2P Require Import Prelude GoLib GoHTTP GoMime GoJSON GoAny Errors Usage.
Import usage.

Module systemone.

(** The error, if any: media that is not plain JSON, or a query. *)
Definition ValidateHeaders (headers : Header) (rawQuery : string) : option error :=
  let encoding := TrimSpace (Get headers "Content-Encoding") in
  let encoding_ok := String.eqb encoding "" || EqualFold encoding "identity" in
  let media_ok :=
    match ParseMediaType (Get headers "Content-Type") with
    | Some (media, params) =>
        let charset := default "" (params !! "charset") in
        String.eqb media "application/json" && (String.eqb charset "" || EqualFold charset "utf-8")
    | None => false
    end in
  if negb (media_ok && encoding_ok) then Some (Sentinel ErrUnsupportedMedia)
  else if negb (String.eqb rawQuery "") then Some (New "systemone query parameters are unsupported")
  else None.

(** The members of a [map[string]json.RawMessage]: a later one replaces an
    earlier one. *)
Fixpoint effective (l : list (string * json)) : list (string * json) :=
  match l with
  | [] => []
  | (k, v) :: l' => if existsb (fun p => String.eqb k (fst p)) l' then effective l' else (k, v) :: effective l'
  end.

(** The [type] of an entry, which must be an object or null. *)
Definition entry_type (v : json) : option string :=
  dec_struct (fun k v old => if key_is "type" k then dec_string v old else Some old) v "".

Definition entry_types : list string := ["noul"; "choice"; "score"].

Fixpoint check_entries (not_object unsupported : error) (l : list (string * json)) : option error :=
  match l with
  | [] => None
  | (_, v) :: l' =>
      match entry_type v with
      | None => Some not_object
      | Some t => if existsb (String.eqb t) entry_types then check_entries not_object unsupported l'
                  else Some unsupported
      end
  end.

Definition unsupported_fields : list string := ["assets"; "images"; "stream"].

Definition ValidateRequest (body : string) : option error :=
  if negb (valid_utf8 body) then Some (New "invalid UTF-8")
  else match json_parse body ≫= raw_map with
  | None => Some (Wrapf "decode systemone request: %w" [] (New "invalid JSON"))
  | Some req =>
      match obj_get "model" req ≫= (fun v => dec_string v "") with
      | Some model =>
          if String.eqb (TrimSpace model) "" then Some (New "model must be a nonempty string")
          else match obj_get "state" req with
          | Some (JStr _ | JObj _ | JArr _) =>
              match List.find (fun key => bool_decide (is_Some (obj_get key req))) unsupported_fields with
              | Some key => Some (Errorf "unsupported systemone field: %s" [FStr key])
              | None =>
                  match obj_get "questions" req with
                  | Some (JObj ((_ :: _) as questions)) =>
                      check_entries (New "question must be an object") (New "unsupported question type")
                        (effective questions)
                  | _ => Some (New "questions must be a nonempty object")
                  end
              end
          | _ => Some (New "state must be a string, object or array")
          end
      | None => Some (New "model must be a nonempty string")
      end
  end.

(** ** Responses *)

Record response_usage := mkResponseUsage {
  Input : option Z; Output : option Z;
  InputDetails : option json; OutputDetails : option json;
  Prompt : option json; Completion : option json;
  PromptDetails : option json; CompletionDetails : option json }.
#[export] Instance eta_response_usage : Eta response_usage := fun r =>
  mkResponseUsage (Input r) (Output r) (InputDetails r) (OutputDetails r) (Prompt r) (Completion r)
    (PromptDetails r) (CompletionDetails r).
Definition no_response_usage : response_usage := mkResponseUsage None None None None None None None None.

(** A [json.RawMessage] field keeps the value, null included. *)
Definition response_usage_field (k : string) (v : json) (u : response_usage) : option response_usage :=
  if key_is "input_tokens" k then x ← dec_intp v (Input u); Some (u <| Input := x |>)
  else if key_is "output_tokens" k then x ← dec_intp v (Output u); Some (u <| Output := x |>)
  else if key_is "input_tokens_details" k then Some (u <| InputDetails := Some v |>)
  else if key_is "output_tokens_details" k then Some (u <| OutputDetails := Some v |>)
  else if key_is "prompt_tokens" k then Some (u <| Prompt := Some v |>)
  else if key_is "completion_tokens" k then Some (u <| Completion := Some v |>)
  else if key_is "prompt_tokens_details" k then Some (u <| PromptDetails := Some v |>)
  else if key_is "completion_tokens_details" k then Some (u <| CompletionDetails := Some v |>)
  else Some u.

Record response := mkResponse {
  Model : string; Answers : list (string * json); RespUsage : option response_usage }.

(** A repeated [answers] object adds to the map; null clears it. *)
Definition response_field (k : string) (v : json) (r : response) : option response :=
  if key_is "model" k then s ← dec_string v (Model r); Some (mkResponse s (Answers r) (RespUsage r))
  else if key_is "answers" k then
    match v with
    | JNull => Some (mkResponse (Model r) [] (RespUsage r))
    | JObj l => Some (mkResponse (Model r) (Answers r ++ l) (RespUsage r))
    | _ => None
    end
  else if key_is "usage" k then
    u ← dec_ptr (dec_struct response_usage_field) no_response_usage v (RespUsage r);
    Some (mkResponse (Model r) (Answers r) u)
  else Some r.

(** A raw field that is present is decoded. *)
Definition opt_dec {A} (dec : json -> option A -> option (option A)) (raw : option json) : option (option A) :=
  match raw with None => Some None | Some v => dec v None end.

Definition details_of (name : string) : json -> option (option Z) -> option (option (option Z)) :=
  dec_ptr (dec_details name) None.

Definition normalize (input output inputDetails outputDetails : option json) : option obj :=
  i ← opt_dec dec_intp input;
  o ← opt_dec dec_intp output;
  cached ← opt_dec (details_of "cached_tokens") inputDetails;
  reasoning ← opt_dec (details_of "reasoning_tokens") outputDetails;
  Some (put "reasoning" (reasoning ≫= id) (put "cached_input" (cached ≫= id) (put "output" o (put "input" i ∅)))).

(** Chat-style counters are preferred; otherwise the mandatory ones with their
    details; unreadable details leave no usage at all. *)
Definition observed_usage (u : response_usage) (input output : Z) : JSONMap :=
  let native :=
    usage ← normalize None None (InputDetails u) (OutputDetails u);
    Some (<["output" := AInt output]> (<["input" := AInt input]> usage)) in
  match normalize (Prompt u) (Completion u) (PromptDetails u) (CompletionDetails u) with
  | Some usage => if bool_decide (usage = ∅) then native else Some usage
  | None => native
  end.

Definition ValidateResponse (body : string) : result error JSONMap :=
  if negb (valid_utf8 body) then Err (New "invalid response UTF-8")
  else match Unmarshal_struct response_field (mkResponse "" [] None) body with
  | None => Err (Wrapf "decode systemone response: %w" [] (New "invalid JSON"))
  | Some r =>
      let contract := Err (New "invalid systemone response contract") in
      match RespUsage r with
      | Some u =>
          match Input u, Output u with
          | Some input, Some output =>
              if String.eqb (TrimSpace (Model r)) "" || (input <? 0) || (output <? 0)
                 || match Answers r with [] => true | _ => false end
              then contract
              else match check_entries (New "invalid systemone answer") (New "invalid systemone answer type")
                           (effective (Answers r)) with
                   | Some e => Err e
                   | None => Ok (observed_usage u input output)
                   end
          | _, _ => contract
          end
      | None => contract
      end
  end.

End systemone.

Example systemone_ex :
  systemone.ValidateRequest (dq "{'model':'m','state':[],'questions':{'q':{'type':'score'}}}") = None
  /\ systemone.ValidateRequest (dq "{'model':'m','state':1,'questions':{'q':{'type':'score'}}}")
     = Some (New "state must be a string, object or array")
  /\ systemone.ValidateResponse (dq "{'model':'m','answers':{'q':{'type':'noul'}},'usage':{'input_tokens':1,'output_tokens':2,'output_tokens_details':{'reasoning_tokens':3}}}")
     = Ok (Some (<["output" := AInt 2]> (<["input" := AInt 1]> {["reasoning" := AInt 3]})))
  /\ systemone.ValidateHeaders [("Content-Type", ["application/json; charset=utf8"])] ""
     = Some (Sentinel ErrUnsupportedMedia).
Proof. split_and!; vm_compute; reflexivity. Qed.
