(* ===== verification/GoRegexp.v ===== *)
(** * GoRegexp: the regular expressions the program uses

    A backtracking matcher over runes with the leftmost-first choice of
    Go's [regexp]: alternatives in order, repetitions greedy.  Repetition is
    of a character class only; every expression used matches at least one
    rune. *)

From S2P Require Import Prelude GoLib GoHTTP.

Module regexp.

Abbreviation input := (list (Z * string)).

Inductive re :=
  | Cls (p : Z -> bool)
  | Many (least : nat) (p : Z -> bool)
  | Seq (r s : re)
  | Alt (r s : re)
  | Group (i : nat) (r : re)
  | Boundary.

Definition captures := list (nat * string).

Definition text (l : input) : string := foldr (fun p acc => snd p +:+ acc) "" l.

(** ** Character classes *)

Definition lower (r : Z) : bool := (97 <=? r) && (r <=? 122).
Definition upper (r : Z) : bool := (65 <=? r) && (r <=? 90).
Definition digit (r : Z) : bool := (48 <=? r) && (r <=? 57).
Definition alnum (r : Z) : bool := lower r || upper r || digit r.
Definition one_of (s : string) (r : Z) : bool := existsb (fun p => fst p =? r) (runes s).
(** [\s], and what [\b] separates. *)
Definition space (r : Z) : bool := (r =? 9) || (r =? 10) || (r =? 12) || (r =? 13) || (r =? 32).
Definition word (r : Z) : bool := alnum r || (r =? 95).

(** The runes that fold to a letter: the Kelvin sign to k, the long s to s. *)
Definition fold_of (r : Z) : Z :=
  if upper r then r + 32 else if r =? 0x212A then 107 else if r =? 0x17F then 115 else r.
(** A class under [(?i)]. *)
Definition fold_case (p : Z -> bool) (r : Z) : bool := p r || p (fold_of r) || (lower (fold_of r) && p (fold_of r - 32)).

(** A literal. *)
Fixpoint lit_runes (fold : bool) (l : input) : re :=
  match l with
  | [] => Many 0 (fun _ => false)
  | [(c, _)] => Cls (if fold then fold_case (Z.eqb c) else Z.eqb c)
  | (c, _) :: l' => Seq (Cls (if fold then fold_case (Z.eqb c) else Z.eqb c)) (lit_runes fold l')
  end.
Definition Lit (fold : bool) (s : string) : re := lit_runes fold (runes s).

Fixpoint Alts (l : list re) : re :=
  match l with
  | [] => Cls (fun _ => false)
  | [r] => r
  | r :: l' => Alt r (Alts l')
  end.
Fixpoint Seqs (l : list re) : re :=
  match l with
  | [] => Many 0 (fun _ => false)
  | [r] => r
  | r :: l' => Seq r (Seqs l')
  end.

(** ** Matching *)

(** What is left, the rune before it, how much was matched, the groups. *)
Record at_ := mkAt { rest : input; before : option Z; count : nat; caps : captures }.

Definition step (c : Z * string) (rest' : input) (s : at_) : at_ := mkAt rest' (Some (fst c)) (S (count s)) (caps s).

Definition boundary (s : at_) : bool :=
  let w o := match o with Some r => word r | None => false end in
  negb (Bool.eqb (w (before s)) (w (match rest s with c :: _ => Some (fst c) | [] => None end))).

(** As many as possible first. *)
Fixpoint many {R} (l : input) (least : nat) (p : Z -> bool) (s : at_) (k : at_ -> option R) : option R :=
  let stop := match least with O => k s | S _ => None end in
  match l with
  | c :: l' => if p (fst c) then match many l' (Nat.pred least) p (step c l' s) k with
                                 | Some r => Some r
                                 | None => stop
                                 end
               else stop
  | [] => stop
  end.

Fixpoint run {R} (r : re) (s : at_) (k : at_ -> option R) : option R :=
  match r with
  | Cls p => match rest s with c :: l' => if p (fst c) then k (step c l' s) else None | [] => None end
  | Many least p => many (rest s) least p s k
  | Seq r1 r2 => run r1 s (fun s1 => run r2 s1 k)
  | Alt r1 r2 => match run r1 s k with Some x => Some x | None => run r2 s k end
  | Group i r1 =>
      run r1 s (fun s1 =>
        k (mkAt (rest s1) (before s1) (count s1)
             ((i, text (take (count s1 - count s) (rest s))) :: caps s1)))
  | Boundary => if boundary s then k s else None
  end.

(** A match that starts here: its length and its groups. *)
Definition match_here (r : re) (prev : option Z) (l : input) : option (nat * captures) :=
  run r (mkAt l prev 0 []) (fun s => Some (count s, caps s)).

(** ** Replacing *)

Inductive piece := Str (s : string) | Ref (i : nat).

Definition group (i : nat) (cs : captures) : string :=
  default "" (snd <$> List.find (fun p => Nat.eqb i (fst p)) cs).

Definition expand (template : list piece) (cs : captures) : string :=
  foldr (fun p acc => match p with Str s => s | Ref i => group i cs end +:+ acc) "" template.

(** [skip] runes belong to the last match. *)
Fixpoint replace (r : re) (template : list piece) (skip : nat) (prev : option Z) (l : input) : string :=
  match l with
  | [] => ""
  | c :: l' =>
      match skip with
      | S n => replace r template n (Some (fst c)) l'
      | O => match match_here r prev l with
             | Some (S n, cs) => expand template cs +:+ replace r template n (Some (fst c)) l'
             | _ => snd c +:+ replace r template O (Some (fst c)) l'
             end
      end
  end.

Definition ReplaceAllString (r : re) (template : list piece) (src : string) : string :=
  replace r template O None (runes src).

End regexp.
