(* ===== verification/Redaction.v ===== *)
(** * Redaction: what is kept of a logged body
      (internal/core/redaction.go) *)

From S2P Require Import Prelude GoLib GoHTTP GoStrings GoJSON GoAny GoRegexp.

Module redaction.
Import regexp.

Definition redactedValue := "[redacted]".

(** ** Patterns *)

Definition token_class : Z -> bool := fun r => alnum r || one_of "+/=_.-" r.

Definition bearerTokenPattern : re :=
  Seqs [Boundary; Lit true "Bearer"; Many 1 space; Many 8 (fold_case token_class)].

Definition apiKeyPattern : re :=
  Seqs [Boundary; Lit false "sk"; Cls (one_of "-_"); Many 8 (fun r => alnum r || one_of "_-" r)].

Definition jwtPattern : re :=
  Seqs [Boundary; Lit false "eyJ"; Many 40 (fun r => alnum r || one_of "._-" r)].

Definition secret_names : list string :=
  ["access_token"; "refresh_token"; "id_token"; "api_key"; "authorization"; "token"; "secret"; "password"; "credential"].
Definition secret_name : re := Alts (List.map (Lit true) secret_names).

Definition quote_re : re := Cls (Z.eqb 34).
Definition backslash_quote : re := Seq (Cls (Z.eqb 92)) quote_re.

Definition keyValuePattern : re :=
  Seqs [Boundary; Group 1 secret_name; Group 2 (Seqs [Many 0 space; Cls (one_of ":="); Many 0 space]);
        Group 3 (Alt (Seqs [quote_re; Many 1 (fun r => negb (r =? 34)); quote_re])
                     (Many 1 (fun r => negb (space r || one_of "&,;}" r))))].

Definition quotedJSONKeyValuePattern : re :=
  Seqs [Group 1 (Seqs [quote_re; secret_name; quote_re; Many 0 space; Cls (Z.eqb 58); Many 0 space; quote_re]);
        Group 2 (Many 1 (fun r => negb (r =? 34))); Group 3 quote_re].

Definition escapedJSONKeyValuePattern : re :=
  Seqs [Group 1 (Seqs [backslash_quote; secret_name; backslash_quote; Many 0 space; Cls (Z.eqb 58); Many 0 space;
                       backslash_quote]);
        Group 2 (Many 1 (fun r => negb ((r =? 34) || (r =? 92)))); Group 3 backslash_quote].

Definition RedactString (value : string) : string :=
  let value := ReplaceAllString quotedJSONKeyValuePattern [Ref 1; Str redactedValue; Ref 3] value in
  let value := ReplaceAllString escapedJSONKeyValuePattern [Ref 1; Str redactedValue; Ref 3] value in
  let value := ReplaceAllString bearerTokenPattern [Str redactedValue] value in
  let value := ReplaceAllString apiKeyPattern [Str redactedValue] value in
  let value := ReplaceAllString jwtPattern [Str redactedValue] value in
  ReplaceAllString keyValuePattern [Ref 1; Ref 2; Str redactedValue] value.

Definition IsTokenLikeString (value : string) : bool := negb (String.eqb (RedactString value) value).

(** ** Values *)

Definition IsSecretLikeKey (key : string) : bool :=
  let lower := ToLower key in
  existsb (Contains lower) ["authorization"; "api_key"; "bearer"; "secret"; "password"; "credential"]
  || existsb (String.eqb lower)
       ["token"; "access_token"; "accesstoken"; "refresh_token"; "refreshtoken"; "id_token"; "idtoken"].

Definition image_string (image : string) : string :=
  if HasPrefix (ToLower (TrimSpace image)) "data:" then redactedValue else RedactString image.

(** How a member of an object is treated, given both treatments of its value. *)
Definition member (image : bool) (key : string) (both : any * any) : any :=
  let '(plain, as_image) := both in
  if image then if EqualFold key "url" then as_image else plain
  else if IsSecretLikeKey key then AStr redactedValue
  else if EqualFold key "image_url" then as_image else plain.

(** [RedactJSONValue], and [redactImageURL] when [image]. *)
Fixpoint redact (image : bool) (value : any) : any :=
  match value with
  | AMap m => AMap (map_imap (fun k both => Some (member image k both)) ((fun x => (redact false x, redact true x)) <$> m))
  | AArr l => AArr (List.map (redact false) l)
  | AStr s => AStr (if image then image_string s else RedactString s)
  | _ => value
  end.

Definition RedactJSONValue : any -> any := redact false.
Definition redactImageURL : any -> any := redact true.

Definition RedactJSONMap (src : option obj) : option obj :=
  match src with
  | None => None
  | Some m => as_map (Some (RedactJSONValue (AMap m)))
  end.

Definition RedactCapturedBody (body : string) : string :=
  if String.eqb body "" then ""
  else match Unmarshal_any body ≫= (fun value => Marshal_any (RedactJSONValue value)) with
       | Some encoded => encoded
       | None => RedactString body
       end.

End redaction.
