(* ===== verification/RedactionProofs.v ===== *)
(** * RedactionProofs: what a redacted body cannot contain *)

From S2P Require Import Prelude GoLib GoHTTP GoStrings GoJSON GoAny GoRegexp Redaction.

Import regexp redaction.

(** ** The matcher finds a match exactly when there is one *)

(** Where a match is: the rune before, and what is left. *)
Definition pos : Type := option Z * input.
Definition pos_of (s : at_) : pos := (before s, rest s).

Inductive matches_many (p : Z -> bool) : nat -> pos -> pos -> Prop :=
  | many_stop q : matches_many p 0 q q
  | many_step least prev c l q :
      p (fst c) = true -> matches_many p (Nat.pred least) (Some (fst c), l) q ->
      matches_many p least (prev, c :: l) q.

Inductive matches : re -> pos -> pos -> Prop :=
  | m_cls p prev c l : p (fst c) = true -> matches (Cls p) (prev, c :: l) (Some (fst c), l)
  | m_many least p q q' : matches_many p least q q' -> matches (Many least p) q q'
  | m_seq r1 r2 q1 q2 q3 : matches r1 q1 q2 -> matches r2 q2 q3 -> matches (Seq r1 r2) q1 q3
  | m_alt_l r1 r2 q q' : matches r1 q q' -> matches (Alt r1 r2) q q'
  | m_alt_r r1 r2 q q' : matches r2 q q' -> matches (Alt r1 r2) q q'
  | m_group i r q q' : matches r q q' -> matches (Group i r) q q'
  | m_boundary prev l n cs : boundary (mkAt l prev n cs) = true -> matches Boundary (prev, l) (prev, l).
#[export] Hint Constructors matches matches_many : router.

(** A state counts what it has consumed of the input [l]. *)
Definition tracks (l : input) (s : at_) : Prop := rest s = drop (count s) l /\ (count s <= List.length l)%nat.

Lemma tracks_step l s c l' : tracks l s -> rest s = c :: l' -> tracks l (step c l' s).
Proof.
  intros [H1 H2] H. unfold tracks. cbn. rewrite H in H1.
  assert (drop (S (count s)) l = l') as ->.
  { by rewrite <- Nat.add_1_r, <- drop_drop, <- H1. }
  split; [done|]. assert (List.length (drop (count s) l) = S (List.length l')) as E by (by rewrite <- H1).
  rewrite length_drop in E. lia.
Qed.

Section run.
Context {R : Type}.

Lemma many_sound l0 p l least s (k : at_ -> option R) x :
  rest s = l -> tracks l0 s -> many l least p s k = Some x ->
  exists s', matches_many p least (pos_of s) (pos_of s') /\ tracks l0 s' /\ k s' = Some x.
Proof.
  revert least s. induction l as [|c l IH]; intros least s Hs Ht Hm; cbn [many] in Hm.
  - destruct least; [|done]. eauto with router.
  - destruct (p (fst c)) eqn:Ep; [|destruct least; [|done]; eauto with router].
    destruct (many l _ p (step c l s) k) eqn:E.
    + injection Hm as ->. apply IH in E as (s' & Hm & Ht' & Hk); [|done|by apply tracks_step].
      exists s'. split; [|done]. unfold pos_of at 1. rewrite Hs. by constructor.
    + destruct least; [|done]. eauto with router.
Qed.

Lemma run_sound l0 r s (k : at_ -> option R) x :
  tracks l0 s -> run r s k = Some x ->
  exists s', matches r (pos_of s) (pos_of s') /\ tracks l0 s' /\ k s' = Some x.
Proof.
  revert s k. induction r as [p|least p|r1 IH1 r2 IH2|r1 IH1 r2 IH2|i r IH|]; intros s k Ht Hr; cbn [run] in Hr.
  - destruct (rest s) as [|c l] eqn:E; [done|]. destruct (p (fst c)) eqn:Ep; [|done]. exists (step c l s).
    split; [|split; [by apply tracks_step|done]]. unfold pos_of at 1. rewrite E. by constructor.
  - apply (many_sound l0) in Hr as (s' & ? & ? & ?); eauto with router.
  - apply IH1 in Hr as (s1 & ? & ? & Hr); [|done]. apply IH2 in Hr as (s2 & ? & ? & ?); eauto with router.
  - destruct (run r1 s k) eqn:E; [injection Hr as ->; apply IH1 in E as (? & ? & ? & ?)|apply IH2 in Hr as (? & ? & ? & ?)];
      eauto with router.
  - apply IH in Hr as (s' & Hm & Ht' & Hk); [|done]. eexists. split; [|split; [|exact Hk]]; [by constructor|exact Ht'].
  - destruct (boundary s) eqn:E; [|done]. exists s. split; [|done]. destruct s. by econstructor.
Qed.

Lemma many_complete p least q q' (k : at_ -> option R) :
  matches_many p least q q' -> forall s, pos_of s = q -> (forall s', pos_of s' = q' -> k s' <> None) ->
  many (rest s) least p s k <> None.
Proof.
  induction 1 as [q|least prev c l q Hp Hm IH]; intros s Hs Hk.
  - specialize (Hk s Hs). destruct (rest s) as [|c l]; cbn [many]; [done|]. destruct (p (fst c)); [|done].
    by destruct (many l _ p _ k).
  - injection Hs as Hb Hr. rewrite Hr. cbn [many]. rewrite Hp.
    specialize (IH (step c l s) eq_refl Hk). change (rest (step c l s)) with l in IH. by destruct (many l _ p (step c l s) k).
Qed.

Lemma run_complete r q q' : matches r q q' -> forall s (k : at_ -> option R),
  pos_of s = q -> (forall s', pos_of s' = q' -> k s' <> None) -> run r s k <> None.
Proof.
  induction 1 as [p prev c l Hp|least p q q' Hm|r1 r2 q1 q2 q3 H1 IH1 H2 IH2|r1 r2 q q' H1 IH1|r1 r2 q q' H1 IH1
    |i r q q' H1 IH1|prev l n cs Hb]; intros s k Hs Hk; cbn [run].
  - injection Hs as Hb Hr. rewrite Hr, Hp. by apply Hk.
  - by eapply many_complete.
  - eapply IH1; [done|]. intros s1 E1. by eapply IH2.
  - specialize (IH1 s k Hs Hk). by destruct (run r1 s k).
  - destruct (run r1 s k); [done|]. by eapply IH1.
  - eapply IH1; [done|]. intros s' E. by apply Hk.
  - assert (boundary s = true) as ->; [|by apply Hk]. injection Hs as Hb' Hr. unfold boundary in *. cbn in Hb. by rewrite Hb', Hr.
Qed.
End run.

(** The matcher is right: what it reports is a match, of the length it
    reports; and it reports one if there is any. *)
Theorem match_here_correct r prev l :
  match match_here r prev l with
  | Some (n, _) => exists before, (n <= List.length l)%nat /\ matches r (prev, l) (before, drop n l)
  | None => forall q, ~ matches r (prev, l) q
  end.
Proof.
  unfold match_here. destruct (run r _ _) as [[n cs]|] eqn:E.
  - eapply (run_sound l) in E as (s & Hm & [Ht1 Ht2] & Hk); [|split; [done|cbn; lia]].
    injection Hk as <- _. exists (before s). split; [done|]. unfold pos_of in Hm. by rewrite Ht1 in Hm.
  - intros q Hm. eapply run_complete in E; [done|exact Hm|done|done].
Qed.

(** Text without a match is left as it is. *)
Lemma replace_no_match r template prev l :
  (forall n prev' q, ~ matches r (prev', drop n l) q) -> replace r template 0 prev l = text l.
Proof.
  revert prev. induction l as [|c l IH]; intros prev Hno; cbn [replace]; [done|].
  pose proof (match_here_correct r prev (c :: l)) as Hm.
  destruct (match_here r prev (c :: l)) as [[[|n] cs]|]; cbn [text foldr].
  2:{ destruct Hm as (b & _ & Hm). by apply (Hno 0%nat) in Hm. }
  all: f_equal; apply IH; intros m; apply (Hno (S m)).
Qed.

(** ** Redacted values *)

Lemma redact_map image m :
  redact image (AMap m)
  = AMap (map_imap (fun k x => Some (member image k (redact false x, redact true x))) m).
Proof.
  cbn [redact]. f_equal. apply map_eq. intros k. rewrite !map_lookup_imap, lookup_fmap. by destruct (m !! k).
Qed.

(** The keys and elements on the way to a part of a value. *)
Inductive key := Key (k : string) | Elem.

Inductive inside (v : any) : list key -> any -> Prop :=
  | in_here : inside v [] v
  | in_elem p l x : inside v p (AArr l) -> x ∈ l -> inside v (p ++ [Elem]) x
  | in_member p m k x : inside v p (AMap m) -> m !! k = Some x -> inside v (p ++ [Key k]) x.

(** The object found there is the value of an [image_url], or of a [url]. *)
Definition image_object (p : list key) : Prop :=
  exists k, last p = Some (Key k) /\ (EqualFold k "image_url" = true \/ EqualFold k "url" = true).

Lemma redacted_fixed : AStr redactedValue = redact false (AStr redactedValue).
Proof. vm_compute. reflexivity. Qed.

Lemma last_app_one {A} (p : list A) x : last (p ++ [x]) = Some x.
Proof. by rewrite last_snoc. Qed.

(** Every part of the result comes from a part of the original. *)
Lemma inside_redact v p x :
  inside (RedactJSONValue v) p x ->
  exists image v0, x = redact image v0 /\ (image = true -> image_object p).
Proof.
  unfold RedactJSONValue. induction 1 as [|p l x _ (image & v0 & E & _) Hx|p m k x _ (image & v0 & E & _) Hx].
  - by exists false, v.
  - exists false. destruct v0 as [| | | | |l0|m0|]; try discriminate E.
    injection E as ->. apply list_elem_of_In, List.in_map_iff in Hx as (y & <- & _). by exists y.
  - destruct v0 as [| | | | |l0|m0|]; try discriminate E. rewrite redact_map in E. injection E as ->.
    rewrite map_lookup_imap in Hx. destruct (m0 !! k) as [y|]; [|done]. injection Hx as <-. unfold member.
    assert (forall (b : bool), b = true -> EqualFold k "image_url" = true \/ EqualFold k "url" = true ->
              b = true -> image_object (p ++ [Key k])) as Himg.
    { intros b _ Hk _. exists k. by rewrite last_snoc. }
    destruct image; [destruct (EqualFold k "url") eqn:Eu|destruct (IsSecretLikeKey k);
                     [|destruct (EqualFold k "image_url") eqn:Eu]].
    + exists true, y. split; [done|]. apply (Himg true); [done|by right].
    + by exists false, y.
    + exists false, (AStr redactedValue). split; [apply redacted_fixed|done].
    + exists true, y. split; [done|]. apply (Himg true); [done|by left].
    + by exists false, y.
Qed.

