(* ===== verification/GatewayRoutes.v ===== *)
(** * GatewayRoutes: classifying a data-plane request
      (internal/api/proxy_routes.go, internal/provider/openai/contracts.go)

    Which operation a request is, and which class of account may serve it on
    which upstream path.  Everything that is not listed is refused. *)

From S2P Require Import Prelude GoLib GoHTTP Errors Account.

(** ** Operations *)

Definition OpID := string.
Definition BridgeID := string.
Definition CredentialClassAPIKey := "api_key".
Definition CredentialClassOAuth := "oauth".

Definition OpOpenAIResponsesCreate : OpID := "op.openai.responses.create".
Definition OpOpenAIResponsesWebSocket : OpID := "op.openai.responses.websocket".
Definition OpOpenAIResponsesRetrieve : OpID := "op.openai.responses.retrieve".
Definition OpOpenAIResponsesDelete : OpID := "op.openai.responses.delete".
Definition OpOpenAIResponsesCancel : OpID := "op.openai.responses.cancel".
Definition OpOpenAIResponsesInputItemsList : OpID := "op.openai.responses.input_items.list".
Definition OpOpenAIResponsesInputTokens : OpID := "op.openai.responses.input_tokens.create".
Definition OpOpenAIResponsesCompact : OpID := "op.openai.responses.compact".
Definition OpOpenAIConversationsCreate : OpID := "op.openai.conversations.create".
Definition OpOpenAIConversationsRetrieve : OpID := "op.openai.conversations.retrieve".
Definition OpOpenAIConversationsUpdate : OpID := "op.openai.conversations.update".
Definition OpOpenAIConversationsDelete : OpID := "op.openai.conversations.delete".
Definition OpOpenAIConversationsItemsCreate : OpID := "op.openai.conversations.items.create".
Definition OpOpenAIConversationsItemsList : OpID := "op.openai.conversations.items.list".
Definition OpOpenAIConversationsItemsRetrieve : OpID := "op.openai.conversations.items.retrieve".
Definition OpOpenAIConversationsItemsDelete : OpID := "op.openai.conversations.items.delete".
Definition OpOpenAIChatCompletionsCreate : OpID := "op.openai.chat_completions.create".
Definition OpOpenAIChatCompletionsList : OpID := "op.openai.chat_completions.list".
Definition OpOpenAIChatCompletionsRetrieve : OpID := "op.openai.chat_completions.retrieve".
Definition OpOpenAIChatCompletionsUpdate : OpID := "op.openai.chat_completions.update".
Definition OpOpenAIChatCompletionsDelete : OpID := "op.openai.chat_completions.delete".
Definition OpOpenAIChatCompletionsMessagesList : OpID := "op.openai.chat_completions.messages.list".
Definition OpOpenAIModelsList : OpID := "op.openai.models.list".
Definition OpOpenAIModelsRetrieve : OpID := "op.openai.models.retrieve".
Definition OpCodexNativeResponsesCreate : OpID := "op.codex_native.responses.create".
Definition OpCodexNativeResponsesWebSocket : OpID := "op.codex_native.responses.websocket".
Definition OpCodexNativeResponsesCompact : OpID := "op.codex_native.responses.compact".
Definition OpCodexNativeModelsList : OpID := "op.codex_native.models.list".
Definition OpCodexNativeTranscribe : OpID := "op.codex_native.transcribe".
Definition OpSystemOneCreate : OpID := "op.systemone.create".

(** ** Routes *)

Inductive gatewayRouteKind :=
  | gatewayRouteKindNone            (* the zero value "" *)
  | gatewayRouteKindSupported | gatewayRouteKindPlatformDirect | gatewayRouteKindCodexMapping
  | gatewayRouteKindChatAdapter | gatewayRouteKindModelsFacade
  | gatewayRouteKindUnsupported | gatewayRouteKindBlocked.

#[export] Instance gatewayRouteKind_eq_dec : EqDecision gatewayRouteKind.
Proof. solve_decision. Defined.

Inductive gatewayBodyPolicy :=
  | gatewayBodyPolicyJSONCaptureAllowed | gatewayBodyPolicyCaptureDisabled
  | gatewayBodyPolicyWebSocketNoBody.

#[export] Instance gatewayBodyPolicy_eq_dec : EqDecision gatewayBodyPolicy.
Proof. solve_decision. Defined.

Record gatewayCredentialRoute := mkCredentialRoute {
  Eligible : bool; cr_Kind : gatewayRouteKind; UpstreamPath : string }.

Definition no_credential_route : gatewayCredentialRoute := mkCredentialRoute false gatewayRouteKindNone "".

Record gatewayRoute := mkRoute {
  Kind : gatewayRouteKind; Pattern : string; r_OpID : OpID; ResponseMode : string;
  BodyPolicy : gatewayBodyPolicy; rt_APIKey : gatewayCredentialRoute; rt_OAuth : gatewayCredentialRoute;
  StatusCode : Z; ErrorCode : string }.

#[export] Instance eta_route : Eta gatewayRoute := fun r =>
  mkRoute (Kind r) (Pattern r) (r_OpID r) (ResponseMode r) (BodyPolicy r) (rt_APIKey r) (rt_OAuth r)
    (StatusCode r) (ErrorCode r).

Definition ResponseModeJSON := "json".
Definition ResponseModeSSE := "sse".
Definition ResponseModeWebSocket := "websocket".
Definition ErrCodeUnsupportedEndpoint := "unsupported_endpoint".
Definition ErrCodeBlockedEndpoint := "blocked_endpoint".

(** ** Building routes *)

Definition supportedGatewayRoute (opID : OpID) (pattern responseMode : string) (bodyPolicy : gatewayBodyPolicy)
    : gatewayRoute :=
  mkRoute gatewayRouteKindSupported pattern opID responseMode bodyPolicy
    no_credential_route no_credential_route 0 "".

Definition platformDirectRoute (opID : OpID) (pattern : string) : gatewayRoute :=
  supportedGatewayRoute opID pattern ResponseModeJSON gatewayBodyPolicyJSONCaptureAllowed
    <| rt_APIKey := mkCredentialRoute true gatewayRouteKindPlatformDirect pattern |>.

Definition platformAndOAuthCodexRoute (opID : OpID) (pattern oauthUpstreamPath : string) : gatewayRoute :=
  platformDirectRoute opID pattern
    <| rt_OAuth := mkCredentialRoute true gatewayRouteKindCodexMapping oauthUpstreamPath |>.

Definition oauthCodexRoute (opID : OpID) (pattern responseMode : string) (bodyPolicy : gatewayBodyPolicy)
    (upstreamPath : string) : gatewayRoute :=
  supportedGatewayRoute opID pattern responseMode bodyPolicy
    <| rt_OAuth := mkCredentialRoute true gatewayRouteKindCodexMapping upstreamPath |>.

Definition unsupportedGatewayRoute (pattern : string) : gatewayRoute :=
  mkRoute gatewayRouteKindUnsupported pattern "" ResponseModeJSON gatewayBodyPolicyCaptureDisabled
    no_credential_route no_credential_route 404 ErrCodeUnsupportedEndpoint.

Definition isBlockedGatewayPath (path : string) : bool :=
  HasPrefix path "/v1/organization" || HasPrefix path "/v1/projects/".

Definition blockedGatewayPattern (path : string) : string :=
  if HasPrefix path "/v1/organization" then "/v1/organization*"
  else if HasPrefix path "/v1/projects/" then "/v1/projects/*"
  else path.

Definition blockedGatewayRoute (path : string) : gatewayRoute :=
  mkRoute gatewayRouteKindBlocked (blockedGatewayPattern path) "" ResponseModeJSON
    gatewayBodyPolicyCaptureDisabled no_credential_route no_credential_route 403 ErrCodeBlockedEndpoint.

Definition normalizeGatewayPath (path : string) : string := if String.eqb path "" then "/" else path.

Definition gatewayPathSegments (path : string) : list string :=
  let trimmed := TrimByte "/"%char path in
  if String.eqb trimmed "" then [] else Split trimmed "/"%char.

(** [switch method { case ... }] and the like: the first matching case. *)
Fixpoint switch {A} (x : string) (cases : list (string * A)) : option A :=
  match cases with
  | [] => None
  | (c, a) :: rest => if String.eqb x c then Some a else switch x rest
  end.

(** ** Classification *)

Definition platformOnlyDynamicPattern (method path : string) : option (string * OpID) :=
  match gatewayPathSegments path with
  | v1 :: family :: rest =>
      if negb (String.eqb v1 "v1") then None
      else if String.eqb family "responses" then
        match rest with
        | [_] =>
            switch method
              [("GET", ("/v1/responses/{response_id}", OpOpenAIResponsesRetrieve));
               ("DELETE", ("/v1/responses/{response_id}", OpOpenAIResponsesDelete))]
        | [_; s3] =>
            if String.eqb method "POST" && String.eqb s3 "cancel" then
              Some ("/v1/responses/{response_id}/cancel", OpOpenAIResponsesCancel)
            else if String.eqb method "GET" && String.eqb s3 "input_items" then
              Some ("/v1/responses/{response_id}/input_items", OpOpenAIResponsesInputItemsList)
            else None
        | _ => None
        end
      else if String.eqb family "conversations" then
        match rest with
        | [_] =>
            switch method
              [("GET", ("/v1/conversations/{conversation_id}", OpOpenAIConversationsRetrieve));
               ("POST", ("/v1/conversations/{conversation_id}", OpOpenAIConversationsUpdate));
               ("DELETE", ("/v1/conversations/{conversation_id}", OpOpenAIConversationsDelete))]
        | [_; s3] =>
            if String.eqb s3 "items" then
              switch method
                [("POST", ("/v1/conversations/{conversation_id}/items", OpOpenAIConversationsItemsCreate));
                 ("GET", ("/v1/conversations/{conversation_id}/items", OpOpenAIConversationsItemsList))]
            else None
        | [_; s3; _] =>
            if String.eqb s3 "items" then
              switch method
                [("GET", ("/v1/conversations/{conversation_id}/items/{item_id}", OpOpenAIConversationsItemsRetrieve));
                 ("DELETE", ("/v1/conversations/{conversation_id}/items/{item_id}", OpOpenAIConversationsItemsDelete))]
            else None
        | _ => None
        end
      else if String.eqb family "chat" then
        match rest with
        | [s2; _] =>
            if String.eqb s2 "completions" then
              switch method
                [("GET", ("/v1/chat/completions/{completion_id}", OpOpenAIChatCompletionsRetrieve));
                 ("POST", ("/v1/chat/completions/{completion_id}", OpOpenAIChatCompletionsUpdate));
                 ("DELETE", ("/v1/chat/completions/{completion_id}", OpOpenAIChatCompletionsDelete))]
            else None
        | [s2; _; s4] =>
            if String.eqb s2 "completions" && (String.eqb method "GET" && String.eqb s4 "messages") then
              Some ("/v1/chat/completions/{completion_id}/messages", OpOpenAIChatCompletionsMessagesList)
            else None
        | _ => None
        end
      else if String.eqb family "models" then
        match rest with
        | [_] => if String.eqb method "GET" then Some ("/v1/models/{model}", OpOpenAIModelsRetrieve) else None
        | _ => None
        end
      else None
  | _ => None
  end.

(** The [switch path] of [classifySupportedGatewayRoute]: a case whose method
    does not match falls through to the dynamic patterns. *)
Definition staticGatewayRoute (method path : string) : option gatewayRoute :=
  let on m r := if String.eqb method m then Some r else None in
  match switch path
    [("/v1/systemone", on "POST" (platformDirectRoute OpSystemOneCreate path));
     ("/v1/responses", on "POST" (platformAndOAuthCodexRoute OpOpenAIResponsesCreate path "/codex/responses"));
     ("/v1/responses/input_tokens", on "POST" (platformDirectRoute OpOpenAIResponsesInputTokens path));
     ("/v1/responses/compact",
      on "POST" (platformAndOAuthCodexRoute OpOpenAIResponsesCompact path "/codex/responses/compact"));
     ("/v1/conversations", on "POST" (platformDirectRoute OpOpenAIConversationsCreate path));
     ("/v1/chat/completions",
      switch method
        [("POST", platformDirectRoute OpOpenAIChatCompletionsCreate path
                    <| rt_OAuth := mkCredentialRoute true gatewayRouteKindChatAdapter "/codex/responses" |>);
         ("GET", platformDirectRoute OpOpenAIChatCompletionsList path)]);
     ("/v1/models",
      on "GET" (platformDirectRoute OpOpenAIModelsList path
                  <| rt_OAuth := mkCredentialRoute true gatewayRouteKindModelsFacade "/codex/models" |>));
     ("/backend-api/codex/responses",
      on "POST" (oauthCodexRoute OpCodexNativeResponsesCreate path ResponseModeJSON
                   gatewayBodyPolicyJSONCaptureAllowed "/codex/responses"));
     ("/backend-api/codex/responses/compact",
      on "POST" (oauthCodexRoute OpCodexNativeResponsesCompact path ResponseModeJSON
                   gatewayBodyPolicyJSONCaptureAllowed "/codex/responses/compact"));
     ("/backend-api/codex/models",
      on "GET" (oauthCodexRoute OpCodexNativeModelsList path ResponseModeJSON
                  gatewayBodyPolicyJSONCaptureAllowed "/codex/models"));
     ("/backend-api/transcribe",
      on "POST" (oauthCodexRoute OpCodexNativeTranscribe path ResponseModeJSON
                   gatewayBodyPolicyCaptureDisabled "/transcribe"))]
  with
  | Some (Some r) => Some r
  | _ => None
  end.

Definition classifySupportedGatewayRoute (method path : string) (websocket : bool) : option gatewayRoute :=
  if websocket then
    if String.eqb method "GET" && String.eqb path "/v1/responses" then
      Some (oauthCodexRoute OpOpenAIResponsesWebSocket "/v1/responses" ResponseModeWebSocket
              gatewayBodyPolicyWebSocketNoBody "/codex/responses")
    else if String.eqb method "GET" && String.eqb path "/backend-api/codex/responses" then
      Some (oauthCodexRoute OpCodexNativeResponsesWebSocket "/backend-api/codex/responses" ResponseModeWebSocket
              gatewayBodyPolicyWebSocketNoBody "/codex/responses")
    else None
  else
    match staticGatewayRoute method path with
    | Some r => Some r
    | None =>
        match platformOnlyDynamicPattern method path with
        | Some (pattern, opID) => Some (platformDirectRoute opID pattern)
        | None => None
        end
    end.

(** [case path == p || strings.HasPrefix(path, p + "/")]. *)
Definition under (path p : string) : bool := String.eqb path p || HasPrefix path (p +:+ "/").

Definition unsupportedGatewayPattern (method path : string) (websocket : bool) : string :=
  if HasPrefix path "/v1/audio/" then "/v1/audio/*"
  else if under path "/v1/embeddings" then "/v1/embeddings"
  else if under path "/v1/moderations" then "/v1/moderations"
  else if HasPrefix path "/v1/images/" then "/v1/images/*"
  else if under path "/v1/videos" then "/v1/videos*"
  else if under path "/v1/files" then "/v1/files*"
  else if under path "/v1/uploads" then "/v1/uploads*"
  else if under path "/v1/vector_stores" then "/v1/vector_stores*"
  else if under path "/v1/batches" then "/v1/batches*"
  else if under path "/v1/fine_tuning" then "/v1/fine_tuning*"
  else if under path "/v1/evals" then "/v1/evals*"
  else if under path "/v1/realtime" || (websocket && HasPrefix path "/v1/realtime") then "/v1/realtime*"
  else if under path "/v1/assistants" then "/v1/assistants*"
  else if under path "/v1/threads" then "/v1/threads*"
  else if String.eqb path "/v1/completions" then "/v1/completions"
  else if under path "/v1/chatkit" then "/v1/chatkit*"
  else if under path "/v1/containers" then "/v1/containers*"
  else if under path "/v1/skills" then "/v1/skills*"
  else if String.eqb method "DELETE" && HasPrefix path "/v1/models/" then "/v1/models/{model}"
  else if String.eqb path "/backend-api" then "/backend-api"
  else if HasPrefix path "/backend-api/" then "/backend-api/*"
  else if HasPrefix path "/v1/" then "/v1/*"
  else path.

Definition classifyGatewayRoute (method rawPath : string) (websocket : bool) : gatewayRoute :=
  let path := normalizeGatewayPath rawPath in
  if isBlockedGatewayPath path then blockedGatewayRoute path
  else match classifySupportedGatewayRoute method path websocket with
       | Some route => route
       | None => unsupportedGatewayRoute (unsupportedGatewayPattern method path websocket)
       end.

(** [isGatewayWebSocketUpgrade], on the request's headers. *)
Definition isGatewayWebSocketUpgrade (h : Header) : bool :=
  EqualFold (TrimSpace (Get h "Upgrade")) "websocket"
  && existsb (fun raw => existsb (fun token => EqualFold (TrimSpace token) "upgrade") (Split raw ","%char))
       (Values h "Connection").

Definition credentialClassForAccount (account : UpstreamAccount) : string :=
  if IsOAuth account then CredentialClassOAuth else CredentialClassAPIKey.

(** ** Eligibility of an account (internal/api/proxy.go) *)

Definition proxyAccountEligible (route : gatewayRoute) (eligibleAccountIDs : option (gset Z))
    (account : UpstreamAccount) : bool :=
  if negb (String.eqb (r_OpID route) OpSystemOneCreate) && SystemOneOnly account then false
  else if IsOAuth account && negb (Eligible (rt_OAuth route)) then false
  else if negb (IsOAuth account) && negb (Eligible (rt_APIKey route)) then false
  else if negb (IsOAuth account) && negb (String.eqb (r_OpID route) "")
          && negb (HasCapabilityFor account (r_OpID route)) then false
  else match eligibleAccountIDs with
       | Some ids => bool_decide (ID account ∈ ids)
       | None => true
       end.

(** ** Lemmas *)

Lemma switch_In {A} x (cases : list (string * A)) a : switch x cases = Some a -> (x, a) ∈ cases.
Proof.
  induction cases as [|[c b] rest IH]; simpl; [done|].
  destruct (String.eqb_spec x c) as [->|]; [intros [= ->]; by left | intros H; right; auto].
Qed.

(** The operations of the dynamic patterns. *)
Definition dynamic_ops : list OpID :=
  [OpOpenAIResponsesRetrieve; OpOpenAIResponsesDelete; OpOpenAIResponsesCancel;
   OpOpenAIResponsesInputItemsList; OpOpenAIConversationsRetrieve; OpOpenAIConversationsUpdate;
   OpOpenAIConversationsDelete; OpOpenAIConversationsItemsCreate; OpOpenAIConversationsItemsList;
   OpOpenAIConversationsItemsRetrieve; OpOpenAIConversationsItemsDelete; OpOpenAIChatCompletionsRetrieve;
   OpOpenAIChatCompletionsUpdate; OpOpenAIChatCompletionsDelete; OpOpenAIChatCompletionsMessagesList;
   OpOpenAIModelsRetrieve].

Lemma dynamic_ops_complete method path pattern op :
  platformOnlyDynamicPattern method path = Some (pattern, op) -> op ∈ dynamic_ops.
Proof.
  unfold platformOnlyDynamicPattern.
  destruct (gatewayPathSegments path) as [|v1 [|family rest]]; try done.
  destruct (negb _); [done|].
  assert (forall (l : list (string * (string * OpID))),
            forallb (fun x => bool_decide (snd (snd x) ∈ dynamic_ops)) l = true ->
            switch method l = Some (pattern, op) -> op ∈ dynamic_ops) as Hsw.
  { intros l Hl Hs. apply switch_In, list_elem_of_In in Hs. rewrite forallb_forall in Hl.
    apply Hl in Hs. by apply bool_decide_eq_true in Hs. }
  repeat case_match; intros Hs; try done;
    first [ eapply Hsw; [|exact Hs]; vm_compute; reflexivity
          | injection Hs as <- <-; by apply (bool_decide_unpack _), I ].
Qed.
