(* ===== verification/Bridges.v ===== *)
(** * Bridges: operation bridges and their registry
      (internal/provider/bridge.go, internal/provider/openai/bridge.go,
       internal/provider/openai/contracts.go, internal/provider/systemone/bridge.go,
       header filtering of internal/provider/openai/forwarder.go)

    A bridge serves one operation for one class of credential: it knows the
    upstream path, the headers to send and how to adapt the response.  The
    registry maps (operation, credential class) to its bridge. *)

From S2P Require Import Prelude GoLib GoURL GoHTTP GoBufio Errors Account CodexRequest ChatRequest GatewayRoutes.

(** ** Identifiers *)

Definition Contract := string.

Definition BridgeOpenAIResponsesDirect : BridgeID := "bridge.openai.responses.direct".
Definition BridgeOpenAIResponsesCompactDirect : BridgeID := "bridge.openai.responses.compact.direct".
Definition BridgeOpenAIConversationsDirect : BridgeID := "bridge.openai.conversations.direct".
Definition BridgeOpenAIChatCompletionsDirect : BridgeID := "bridge.openai.chat_completions.direct".
Definition BridgeOpenAIModelsDirect : BridgeID := "bridge.openai.models.direct".
Definition BridgeOpenAIResponsesToCodex : BridgeID := "bridge.openai.responses.to_codex".
Definition BridgeOpenAIResponsesWebSocketToCodex : BridgeID := "bridge.openai.responses.websocket.to_codex".
Definition BridgeOpenAIResponsesCompactToCodex : BridgeID := "bridge.openai.responses.compact.to_codex".
Definition BridgeOpenAIChatCompletionsToCodex : BridgeID := "bridge.openai.chat_completions.to_codex".
Definition BridgeOpenAIModelsFromCodex : BridgeID := "bridge.openai.models.from_codex".
Definition BridgeCodexNativeResponsesDirect : BridgeID := "bridge.codex_native.responses.direct".
Definition BridgeCodexNativeResponsesWebSocketDirect : BridgeID := "bridge.codex_native.responses.websocket.direct".
Definition BridgeCodexNativeResponsesCompactDirect : BridgeID := "bridge.codex_native.responses.compact.direct".
Definition BridgeCodexNativeModelsDirect : BridgeID := "bridge.codex_native.models.direct".
Definition BridgeCodexNativeTranscribeDirect : BridgeID := "bridge.codex_native.transcribe.direct".

Definition ContractOpenAIV1Responses : Contract := "contract.openai.v1.responses".
Definition ContractOpenAIV1ResponsesCompact : Contract := "contract.openai.v1.responses.compact".
Definition ContractOpenAIV1ResponsesWS : Contract := "contract.openai.v1.responses.websocket".
Definition ContractOpenAIV1Conversations : Contract := "contract.openai.v1.conversations".
Definition ContractOpenAIV1ChatCompletions : Contract := "contract.openai.v1.chat_completions".
Definition ContractOpenAIV1Models : Contract := "contract.openai.v1.models".
Definition ContractChatGPTBackendAPICodexResponses : Contract := "contract.chatgpt.backend_api.codex.responses".
Definition ContractChatGPTBackendAPICodexResponsesCompact : Contract := "contract.chatgpt.backend_api.codex.responses.compact".
Definition ContractChatGPTBackendAPICodexResponsesWS : Contract := "contract.chatgpt.backend_api.codex.responses.websocket".
Definition ContractChatGPTBackendAPICodexModels : Contract := "contract.chatgpt.backend_api.codex.models".
Definition ContractChatGPTBackendAPITranscribe : Contract := "contract.chatgpt.backend_api.transcribe".
Definition ContractSystemOne : Contract := "systemone.v1".

Inductive adapterKind :=
  | ClientResponseAdapterPassthrough | ClientResponseAdapterOpenAIResponsesJSON
  | ClientResponseAdapterOpenAIResponsesSSE | ClientResponseAdapterChatCompletionsJSON
  | ClientResponseAdapterChatCompletionsSSE | ClientResponseAdapterOpenAIModelsList
  | ClientResponseAdapterCodexNative | ClientResponseAdapterWebSocketRelay.

#[export] Instance adapterKind_eq_dec : EqDecision adapterKind.
Proof. solve_decision. Defined.

(** ** The bridges *)

Record operationBridge := mkBridge {
  b_id : BridgeID; b_opID : OpID; b_credential : string;
  b_clientContract : Contract; b_upstreamContract : Contract;
  b_upstreamPath : string; b_adapterKind : adapterKind }.

#[export] Instance operationBridge_eq_dec : EqDecision operationBridge.
Proof. solve_decision. Defined.

(** One [bridgeSpec], expanded over its operations. *)
Definition spec (credential : string) (opIDs : list OpID) (id : BridgeID) (client upstream : Contract)
    (upstreamPath : string) (kind : adapterKind) : list operationBridge :=
  (fun op => mkBridge id op credential client upstream upstreamPath kind) <$> opIDs.

Definition defaultOperationBridges : list operationBridge :=
  spec CredentialClassAPIKey
    [OpOpenAIResponsesCreate; OpOpenAIResponsesRetrieve; OpOpenAIResponsesDelete; OpOpenAIResponsesCancel;
     OpOpenAIResponsesInputItemsList; OpOpenAIResponsesInputTokens]
    BridgeOpenAIResponsesDirect ContractOpenAIV1Responses ContractOpenAIV1Responses ""
    ClientResponseAdapterPassthrough
  ++ spec CredentialClassAPIKey [OpOpenAIResponsesCompact] BridgeOpenAIResponsesCompactDirect
    ContractOpenAIV1ResponsesCompact ContractOpenAIV1ResponsesCompact "" ClientResponseAdapterPassthrough
  ++ spec CredentialClassAPIKey
    [OpOpenAIConversationsCreate; OpOpenAIConversationsRetrieve; OpOpenAIConversationsUpdate;
     OpOpenAIConversationsDelete; OpOpenAIConversationsItemsCreate; OpOpenAIConversationsItemsList;
     OpOpenAIConversationsItemsRetrieve; OpOpenAIConversationsItemsDelete]
    BridgeOpenAIConversationsDirect ContractOpenAIV1Conversations ContractOpenAIV1Conversations ""
    ClientResponseAdapterPassthrough
  ++ spec CredentialClassAPIKey
    [OpOpenAIChatCompletionsCreate; OpOpenAIChatCompletionsList; OpOpenAIChatCompletionsRetrieve;
     OpOpenAIChatCompletionsUpdate; OpOpenAIChatCompletionsDelete; OpOpenAIChatCompletionsMessagesList]
    BridgeOpenAIChatCompletionsDirect ContractOpenAIV1ChatCompletions ContractOpenAIV1ChatCompletions ""
    ClientResponseAdapterPassthrough
  ++ spec CredentialClassAPIKey [OpOpenAIModelsList; OpOpenAIModelsRetrieve]
    BridgeOpenAIModelsDirect ContractOpenAIV1Models ContractOpenAIV1Models "" ClientResponseAdapterPassthrough
  ++ spec CredentialClassOAuth [OpOpenAIResponsesCreate] BridgeOpenAIResponsesToCodex
    ContractOpenAIV1Responses ContractChatGPTBackendAPICodexResponses "/codex/responses"
    ClientResponseAdapterOpenAIResponsesJSON
  ++ spec CredentialClassOAuth [OpOpenAIResponsesWebSocket] BridgeOpenAIResponsesWebSocketToCodex
    ContractOpenAIV1ResponsesWS ContractChatGPTBackendAPICodexResponsesWS "/codex/responses"
    ClientResponseAdapterWebSocketRelay
  ++ spec CredentialClassOAuth [OpOpenAIResponsesCompact] BridgeOpenAIResponsesCompactToCodex
    ContractOpenAIV1ResponsesCompact ContractChatGPTBackendAPICodexResponsesCompact "/codex/responses/compact"
    ClientResponseAdapterOpenAIResponsesJSON
  ++ spec CredentialClassOAuth [OpOpenAIChatCompletionsCreate] BridgeOpenAIChatCompletionsToCodex
    ContractOpenAIV1ChatCompletions ContractChatGPTBackendAPICodexResponses "/codex/responses"
    ClientResponseAdapterChatCompletionsJSON
  ++ spec CredentialClassOAuth [OpOpenAIModelsList] BridgeOpenAIModelsFromCodex
    ContractOpenAIV1Models ContractChatGPTBackendAPICodexModels "/codex/models"
    ClientResponseAdapterOpenAIModelsList
  ++ spec CredentialClassOAuth [OpCodexNativeResponsesCreate] BridgeCodexNativeResponsesDirect
    ContractChatGPTBackendAPICodexResponses ContractChatGPTBackendAPICodexResponses "/codex/responses"
    ClientResponseAdapterCodexNative
  ++ spec CredentialClassOAuth [OpCodexNativeResponsesWebSocket] BridgeCodexNativeResponsesWebSocketDirect
    ContractChatGPTBackendAPICodexResponsesWS ContractChatGPTBackendAPICodexResponsesWS "/codex/responses"
    ClientResponseAdapterWebSocketRelay
  ++ spec CredentialClassOAuth [OpCodexNativeResponsesCompact] BridgeCodexNativeResponsesCompactDirect
    ContractChatGPTBackendAPICodexResponsesCompact ContractChatGPTBackendAPICodexResponsesCompact
    "/codex/responses/compact" ClientResponseAdapterCodexNative
  ++ spec CredentialClassOAuth [OpCodexNativeModelsList] BridgeCodexNativeModelsDirect
    ContractChatGPTBackendAPICodexModels ContractChatGPTBackendAPICodexModels "/codex/models"
    ClientResponseAdapterCodexNative
  ++ spec CredentialClassOAuth [OpCodexNativeTranscribe] BridgeCodexNativeTranscribeDirect
    ContractChatGPTBackendAPITranscribe ContractChatGPTBackendAPITranscribe "/transcribe"
    ClientResponseAdapterCodexNative.

(** [provider.OperationBridge]: the openai bridges and [systemone.Bridge]. *)
Inductive OperationBridge :=
  | OpenAIBridge (b : operationBridge)
  | SystemOneBridge.

Definition bridge_OpID (b : OperationBridge) : OpID :=
  match b with OpenAIBridge b => b_opID b | SystemOneBridge => OpSystemOneCreate end.
Definition bridge_CredentialClass (b : OperationBridge) : string :=
  match b with OpenAIBridge b => b_credential b | SystemOneBridge => CredentialClassAPIKey end.
Definition bridge_ClientContract (b : OperationBridge) : Contract :=
  match b with OpenAIBridge b => b_clientContract b | SystemOneBridge => ContractSystemOne end.

Definition bridge_ID (b : OperationBridge) : BridgeID :=
  match b with OpenAIBridge b => b_id b | SystemOneBridge => "bridge.systemone.direct" end.
Definition bridge_UpstreamContract (b : OperationBridge) : Contract :=
  match b with OpenAIBridge b => b_upstreamContract b | SystemOneBridge => ContractSystemOne end.

(** ** The registry *)

Definition BridgeRegistry := gmap (OpID * string) OperationBridge.

(** [None] is the panic on a duplicate key. *)
Fixpoint register (registry : BridgeRegistry) (bridges : list OperationBridge) : option BridgeRegistry :=
  match bridges with
  | [] => Some registry
  | b :: rest =>
      let key := (bridge_OpID b, bridge_CredentialClass b) in
      match registry !! key with
      | Some _ => None
      | None => register (<[key := b]> registry) rest
      end
  end.

Definition NewBridgeRegistry (bridges : list OperationBridge) : option BridgeRegistry := register ∅ bridges.

Definition Resolve (r : BridgeRegistry) (opID : OpID) (credential : string) : option OperationBridge :=
  r !! (opID, credential).

Definition defaultGatewayBridges : list OperationBridge :=
  (OpenAIBridge <$> defaultOperationBridges) ++ [SystemOneBridge].

Definition selectGatewayBridgeFromRegistry (registry : BridgeRegistry) (route : gatewayRoute)
    (credential : string) : option OperationBridge :=
  if negb (bool_decide (Kind route = gatewayRouteKindSupported)) || String.eqb (r_OpID route) "" then None
  else if String.eqb credential CredentialClassAPIKey then
    if Eligible (rt_APIKey route) then Resolve registry (r_OpID route) credential else None
  else if String.eqb credential CredentialClassOAuth then
    if Eligible (rt_OAuth route) then Resolve registry (r_OpID route) credential else None
  else None.

(** ** Requests *)

(** [provider.ClientRequest]: the body as read by the router, and the stream
    it was given where it is not read. *)
Record ClientRequest := mkClientRequest {
  c_Contract : Contract; c_Method : string; c_Path : string; c_RawQuery : string;
  c_RawBody : string; c_Body : option reader; c_ContentLength : Z; c_Headers : Header; c_WebSocket : bool }.

Record UpstreamRequest := mkUpstreamRequest {
  u_Contract : Contract; u_OpID : OpID; u_BridgeID : BridgeID; u_Method : string; u_URL : string;
  u_Path : string; u_RawBody : string; u_Body : reader; u_ContentLength : Z; u_Headers : Header;
  u_UseProxy : bool; u_AccountID : Z }.

Record clientResponseAdapter := mkAdapter {
  a_kind : adapterKind; a_model : string; a_includeUsage : bool }.

(** ** Where a request goes *)

Definition CodexClientVersion := "0.160.0".
Definition CodexCLIUserAgent := "codex_cli_rs/0.160.0 (Mac OS 26.2; arm64) dumb".

Definition stripV1Prefix (path : string) : string :=
  if HasPrefix path "/v1/" then drop_str 3 path
  else if String.eqb path "/v1" then "/"
  else path.

Definition resolvedUpstreamPath (b : operationBridge) (req : ClientRequest) : string :=
  if negb (String.eqb (b_upstreamPath b) "") then b_upstreamPath b else stripV1Prefix (c_Path req).

Definition upstreamURL (b : operationBridge) (req : ClientRequest) (baseURL : string) : string :=
  let oauth := String.eqb (b_credential b) CredentialClassOAuth in
  if String.eqb baseURL "" && negb oauth then ""
  else
    let base := if String.eqb baseURL "" then ChatGPTBackendBaseURL else baseURL in
    let target := TrimRightByte "/"%char base +:+ resolvedUpstreamPath b req in
    let q := (if String.eqb (c_RawQuery req) "" then [] else [c_RawQuery req])
             ++ (if oauth then ["client_version=" +:+ CodexClientVersion] else []) in
    match q with
    | [] => target
    | _ => target +:+ "?" +:+ Join q "&"
    end.

(** ** Which headers it carries *)

Definition hopByHopRequestHeaders : list string :=
  ["connection"; "keep-alive"; "proxy-authenticate"; "proxy-authorization"; "proxy-connection"; "te";
   "trailer"; "transfer-encoding"; "upgrade"; "host"; "authorization"].

Definition routerOwnedRequestHeaders : list string :=
  ["chatgpt-account-id"; "cookie"; "x-admin-token"; "x-csrf-token"; "x-xsrf-token"].

Definition mem (x : string) (l : list string) : bool := existsb (String.eqb x) l.

Definition dynamicDrops (src : Header) : list string :=
  List.filter (fun t => negb (String.eqb t ""))
    (flat_map (fun raw => (fun token => TrimSpace (ToLower token)) <$> Split raw ","%char)
       (Values src "Connection")).

Definition dropped (src : Header) (lower : string) : bool :=
  mem lower hopByHopRequestHeaders || mem lower routerOwnedRequestHeaders || mem lower (dynamicDrops src).

Definition forwarded_key (src : Header) (key : string) : bool :=
  let lower := ToLower key in
  negb (dropped src lower) && negb (HasPrefix lower "x-forwarded-") && negb (HasPrefix lower "cf-")
  && negb (HasPrefix lower "sec-websocket-").

Definition transcribe_key (src : Header) (key : string) : bool :=
  let lower := ToLower key in
  negb (dropped src lower)
  && (String.eqb lower "content-type" || String.eqb lower "user-agent"
      || HasPrefix lower "x-openai-" || HasPrefix lower "x-codex-").

Definition copyForwardHeaders (dst src : Header) : Header := copy_where (forwarded_key src) dst src.
Definition copyTranscribeHeaders (dst src : Header) : Header := copy_where (transcribe_key src) dst src.
Definition forceIdentityAcceptEncoding (h : Header) : Header := HeaderSet h "Accept-Encoding" "identity".

Definition requiresIdentityAcceptEncoding (b : operationBridge) (req : ClientRequest) : bool :=
  String.eqb (resolvedUpstreamPath b req) "/codex/responses"
  || String.eqb (resolvedUpstreamPath b req) "/codex/responses/compact"
  || bool_decide (b_adapterKind b ∈ [ClientResponseAdapterOpenAIResponsesJSON;
       ClientResponseAdapterOpenAIModelsList; ClientResponseAdapterChatCompletionsJSON;
       ClientResponseAdapterChatCompletionsSSE]).

Definition hasJSONUpstreamBody (b : operationBridge) (req : ClientRequest) : bool :=
  if bool_decide (b_adapterKind b = ClientResponseAdapterWebSocketRelay) then false
  else (0 <? lenZ (c_RawBody req))
       || match c_Body req with Some _ => negb (c_ContentLength req =? 0) | None => false end.

(** [chatGPTAccountIDFromMetadata] of [accountBridgeMetadata]. *)
Definition accountChatGPTID (account : UpstreamAccount) : string :=
  match ChatGPTAccountID account with
  | Some v => TrimSpace v
  | None => ""
  end.

Definition upstreamHeaders (b : operationBridge) (req : ClientRequest) (credentialValue chatgptID : string)
    : Header :=
  let transcribe := String.eqb (b_id b) BridgeCodexNativeTranscribeDirect in
  let headers := if transcribe then copyTranscribeHeaders [] (c_Headers req)
                 else copyForwardHeaders [] (c_Headers req) in
  let headers := if negb (String.eqb credentialValue "")
                 then HeaderSet headers "Authorization" ("Bearer " +:+ credentialValue) else headers in
  if String.eqb (b_credential b) CredentialClassOAuth then
    let headers := HeaderSet headers "User-Agent" CodexCLIUserAgent in
    let headers := if negb (c_WebSocket req) && negb transcribe && hasJSONUpstreamBody b req
                   then HeaderSet headers "Content-Type" "application/json" else headers in
    let headers := if negb (c_WebSocket req) && requiresIdentityAcceptEncoding b req
                   then forceIdentityAcceptEncoding headers else headers in
    let headers := if negb (c_WebSocket req)
                      && String.eqb (resolvedUpstreamPath b req) "/codex/responses"
                   then forceIdentityAcceptEncoding (HeaderSet headers "Accept" "text/event-stream")
                   else headers in
    if negb (String.eqb chatgptID "") then HeaderSet headers "chatgpt-account-id" chatgptID else headers
  else headers.

(** ** Building the upstream request *)

Record BuildInput := mkBuildInput {
  bi_ClientRequest : ClientRequest; bi_Credential : string; bi_CredentialValue : string;
  bi_ChatGPTAccountID : string; bi_UpstreamBaseURL : string; bi_UseProxy : bool; bi_AccountID : Z }.

(** What is sent, and how the answer is adapted: the raw body, the stream that
    carries it and its length. *)
Definition sent_body : Type := string * reader * Z * clientResponseAdapter.

Definition bodyFromBytes (adapter : clientResponseAdapter) (body : string) : sent_body :=
  (body, mkReader body None, lenZ body, adapter).

Definition translated (adapter : clientResponseAdapter) (body : result error string)
    : chat.outcome sent_body :=
  chat.Returned (body ← body; Ok (bodyFromBytes adapter body)).

Definition responses_body (adapter : clientResponseAdapter) (rawBody : string) : result error sent_body :=
  '(body, collectSSE) ← codex.normalizeCodexResponsesBody rawBody;
  Ok (bodyFromBytes (if collectSSE : bool then adapter
                     else mkAdapter ClientResponseAdapterOpenAIResponsesSSE (a_model adapter) (a_includeUsage adapter))
        body).

Definition chat_body (rawBody : string) : chat.outcome sent_body :=
  match chat.buildChatAdapterRequest (Some (Ok rawBody)) with
  | chat.Panicked => chat.Panicked
  | chat.Returned (Err e) => chat.Returned (Err e)
  | chat.Returned (Ok adapted) =>
      let kind := if chat.stream adapted then ClientResponseAdapterChatCompletionsSSE
                  else ClientResponseAdapterChatCompletionsJSON in
      chat.Returned (Ok (bodyFromBytes (mkAdapter kind (chat.model adapted) (chat.includeUsage adapted))
                           (chat.upstreamBody adapted)))
  end.

Definition upstreamBodyAndAdapter (b : operationBridge) (req : ClientRequest) : chat.outcome sent_body :=
  let adapter := mkAdapter (b_adapterKind b) "" false in
  let raw := c_RawBody req in
  if String.eqb (b_id b) BridgeOpenAIResponsesToCodex then chat.Returned (responses_body adapter raw)
  else if String.eqb (b_id b) BridgeCodexNativeResponsesDirect then
    translated adapter (codex.normalizeNativeCodexResponsesBody raw)
  else if String.eqb (b_id b) BridgeOpenAIResponsesCompactToCodex then
    translated adapter (codex.normalizeCodexResponsesCompactBody raw)
  else if String.eqb (b_id b) BridgeCodexNativeResponsesCompactDirect then
    translated adapter (codex.normalizeNativeCodexResponsesCompactBody raw)
  else if String.eqb (b_id b) BridgeOpenAIChatCompletionsToCodex then chat_body raw
  else if String.eqb (b_id b) BridgeCodexNativeTranscribeDirect then
    match c_Body req with
    | Some body => chat.Returned (Ok ("", body, c_ContentLength req, adapter))
    | None => translated adapter (Ok raw)
    end
  else translated adapter (Ok raw).

(** [operationBridge.BuildUpstreamRequest]. *)
Definition openai_BuildUpstreamRequest (b : operationBridge) (i : BuildInput)
    : chat.outcome (UpstreamRequest * clientResponseAdapter) :=
  let req := bi_ClientRequest i in
  if negb (String.eqb (c_Contract req) (b_clientContract b)) then
    chat.Returned (Err (Errorf "client request contract does not match bridge" []))
  else if negb (String.eqb (bi_Credential i) "") && negb (String.eqb (bi_Credential i) (b_credential b)) then
    chat.Returned (Err (Wrapf "%w: credential class %q does not match bridge %q"
                          [FStr (bi_Credential i); FStr (b_id b)] (Sentinel ErrInvalidUpstreamRequest)))
  else match upstreamBodyAndAdapter b req with
  | chat.Panicked => chat.Panicked
  | chat.Returned (Err e) => chat.Returned (Err (Wrapf "build upstream request body: %w" [] e))
  | chat.Returned (Ok (raw, body, len, adapter)) =>
      chat.Returned (Ok (
        mkUpstreamRequest (b_upstreamContract b) (b_opID b) (b_id b) (c_Method req)
          (upstreamURL b req (bi_UpstreamBaseURL i)) (resolvedUpstreamPath b req) raw body len
          (upstreamHeaders b req (bi_CredentialValue i) (bi_ChatGPTAccountID i))
          (bi_UseProxy i) (bi_AccountID i), adapter))
  end.

(** [systemone.Bridge.BuildUpstreamRequest]. *)
Definition systemone_headers (credentialValue requestID : string) : Header :=
  HeaderSet (HeaderSet (HeaderSet (HeaderSet (HeaderSet []
    "Authorization" ("Bearer " +:+ credentialValue)) "Content-Type" "application/json")
    "Accept" "application/json") "Accept-Encoding" "identity") "X-Request-Id" requestID.

Definition systemone_BuildUpstreamRequest (requestID : string) (i : BuildInput)
    : result error (UpstreamRequest * clientResponseAdapter) :=
  let req := bi_ClientRequest i in
  if negb (String.eqb (bi_Credential i) CredentialClassAPIKey) || negb (String.eqb (c_Contract req) ContractSystemOne)
     || String.eqb (bi_CredentialValue i) "" then
    Err (Errorf "invalid systemone credential or contract" [])
  else match ValidateBaseURL (bi_UpstreamBaseURL i) with
  | Some e => Err e
  | None =>
      match Parse (bi_UpstreamBaseURL i) with
      | Some base =>
          if HasUser base then Err (Errorf "invalid systemone base URL" [])
          else Ok (mkUpstreamRequest ContractSystemOne OpSystemOneCreate "bridge.systemone.direct" "POST"
                     (TrimRightByte "/"%char (bi_UpstreamBaseURL i) +:+ "/systemone") "/systemone" (c_RawBody req)
                     (mkReader (c_RawBody req) None) (lenZ (c_RawBody req))
                     (systemone_headers (bi_CredentialValue i) requestID) (bi_UseProxy i) (bi_AccountID i),
                   mkAdapter ClientResponseAdapterPassthrough "" false)
      | None => Err (Errorf "invalid systemone base URL" [])
      end
  end.
