(* ===== verification/Gateway.v ===== *)
(** * Gateway: what the routing table and the bridges guarantee

    Theorems on [GatewayRoutes] and [Bridges]: the table, the registry and the
    selector's eligibility filter agree with each other, and a client cannot
    choose the credentials or the private headers of an upstream request. *)

From S2P Require Import Prelude GoLib GoHTTP Errors Account GatewayRoutes Bridges.

Definition defaultGatewayBridgeRegistry : BridgeRegistry :=
  default ∅ (NewBridgeRegistry defaultGatewayBridges).

Lemma default_registry_ok : NewBridgeRegistry defaultGatewayBridges = Some defaultGatewayBridgeRegistry.
Proof.
  unfold defaultGatewayBridgeRegistry.
  assert (isSome (NewBridgeRegistry defaultGatewayBridges) = true) as Hs by (vm_compute; reflexivity).
  by destruct (NewBridgeRegistry defaultGatewayBridges).
Qed.

(** ** The table and the registry agree *)

(** The bridge that serves a credential route: of the right operation and
    class, on the upstream path the route announces (an API-key bridge keeps
    the client's path). *)
Definition served (opID : OpID) (credential : string) (c : gatewayCredentialRoute) : bool :=
  if Eligible c then
    match Resolve defaultGatewayBridgeRegistry opID credential with
    | Some b =>
        String.eqb (bridge_OpID b) opID && String.eqb (bridge_CredentialClass b) credential
        && match b with
           | OpenAIBridge ob =>
               String.eqb (b_upstreamPath ob)
                 (if String.eqb credential CredentialClassOAuth then UpstreamPath c else "")
           | SystemOneBridge => String.eqb opID OpSystemOneCreate
           end
    | None => false
    end
  else true.

Definition route_served (r : gatewayRoute) : bool :=
  bool_decide (Kind r = gatewayRouteKindSupported) && negb (String.eqb (r_OpID r) "")
  && served (r_OpID r) CredentialClassAPIKey (rt_APIKey r)
  && served (r_OpID r) CredentialClassOAuth (rt_OAuth r)
  && (Eligible (rt_APIKey r) || Eligible (rt_OAuth r)).

(** One goal per entry of the table. *)
Ltac static_cases Hr :=
  unfold staticGatewayRoute in Hr;
  match type of Hr with context [switch ?path ?l] =>
    let Hs := fresh in
    destruct (switch path l) as [[?|]|] eqn:Hs; [|discriminate Hr..];
    injection Hr as ->; apply switch_In in Hs;
    repeat (apply elem_of_cons in Hs as [Hs|Hs];
      [ injection Hs as _ Hs;
        repeat (destruct (String.eqb _ _) in Hs; [injection Hs as ->; vm_compute; reflexivity|]);
        discriminate Hs | ]);
    by apply not_elem_of_nil in Hs
  end.

Lemma static_served method path r : staticGatewayRoute method path = Some r -> route_served r = true.
Proof. intros Hr. static_cases Hr. Qed.

Lemma static_json method path r : staticGatewayRoute method path = Some r -> ResponseMode r = ResponseModeJSON.
Proof. intros Hr. static_cases Hr. Qed.

Lemma dynamic_served op pattern : op ∈ dynamic_ops -> route_served (platformDirectRoute op pattern) = true.
Proof.
  intros Hop. unfold dynamic_ops in Hop.
  repeat (apply elem_of_cons in Hop as [->|Hop]; [vm_compute; reflexivity|]).
  by apply not_elem_of_nil in Hop.
Qed.

Lemma classify_served method path ws r :
  classifySupportedGatewayRoute method path ws = Some r -> route_served r = true.
Proof.
  unfold classifySupportedGatewayRoute. intros Hr. destruct ws.
  - repeat case_match; simplify_eq; vm_compute; reflexivity.
  - destruct (staticGatewayRoute method path) as [r'|] eqn:Hs; [injection Hr as <-; by eapply static_served|].
    destruct (platformOnlyDynamicPattern method path) as [[pattern op]|] eqn:Hd; [|done].
    injection Hr as <-. eapply dynamic_served, dynamic_ops_complete, Hd.
Qed.

Lemma classify_cases method path ws :
  route_served (classifyGatewayRoute method path ws) = true
  \/ (Eligible (rt_APIKey (classifyGatewayRoute method path ws)) = false
      /\ Eligible (rt_OAuth (classifyGatewayRoute method path ws)) = false
      /\ (Kind (classifyGatewayRoute method path ws) = gatewayRouteKindUnsupported
          \/ Kind (classifyGatewayRoute method path ws) = gatewayRouteKindBlocked)).
Proof.
  unfold classifyGatewayRoute. destruct (isBlockedGatewayPath _); [right; repeat split; by right|].
  destruct (classifySupportedGatewayRoute _ _ _) eqn:E; [left; by eapply classify_served|].
  right. repeat split. by left.
Qed.

Lemma served_bridge opID credential c :
  served opID credential c = true -> Eligible c = true ->
  exists b, Resolve defaultGatewayBridgeRegistry opID credential = Some b
    /\ bridge_OpID b = opID /\ bridge_CredentialClass b = credential
    /\ forall ob, b = OpenAIBridge ob ->
         b_upstreamPath ob = if String.eqb credential CredentialClassOAuth then UpstreamPath c else "".
Proof.
  unfold served. intros Hs He. rewrite He in Hs.
  destruct (Resolve _ _ _) as [b|]; [|done]. breflect. exists b. repeat split; try done.
  intros ob ->. by breflect.
Qed.

(** C23: Routing is closed.  The registry registers without a duplicate; and
    whenever the selector's filter admits an account for a request, the request
    is a supported operation and the registry has the bridge for that
    operation and that account's class of credential, going to exactly the
    upstream path the table announces - so a selected account is never turned
    down for lack of a bridge, and a blocked or unsupported request admits no
    account at all. *)
Theorem routing_closed method path ws ids account :
  let route := classifyGatewayRoute method path ws in
  let credential := credentialClassForAccount account in
  proxyAccountEligible route ids account = true ->
  NewBridgeRegistry defaultGatewayBridges = Some defaultGatewayBridgeRegistry
  /\ Kind route = gatewayRouteKindSupported /\ isBlockedGatewayPath (normalizeGatewayPath path) = false
  /\ exists b, selectGatewayBridgeFromRegistry defaultGatewayBridgeRegistry route credential = Some b
       /\ bridge_OpID b = r_OpID route /\ bridge_CredentialClass b = credential
       /\ (forall ob, b = OpenAIBridge ob ->
             b_upstreamPath ob = if IsOAuth account then UpstreamPath (rt_OAuth route) else "")
       /\ HasCapabilityFor account (r_OpID route) = true
       /\ (r_OpID route <> OpSystemOneCreate -> SystemOneOnly account = false).
Proof.
  intros route credential Hel. split; [apply default_registry_ok|]. unfold proxyAccountEligible in Hel.
  destruct (negb _ && SystemOneOnly account) eqn:Hso; [done|].
  destruct (IsOAuth account && _) eqn:Ho; [done|].
  destruct (negb (IsOAuth account) && negb (Eligible _)) eqn:Ha; [done|].
  destruct (_ && negb (HasCapabilityFor _ _)) eqn:Hcap; [done|].
  pose proof (classify_cases method path ws) as Hc. fold route in Hc. destruct Hc as [Hs|(Hna & Hno & _)].
  2:{ rewrite Hna in Ha. rewrite Hno in Ho. by destruct (IsOAuth account). }
  unfold route_served in Hs. apply andb_true_iff in Hs as [Hs _]. apply andb_true_iff in Hs as [Hs Hso'].
  apply andb_true_iff in Hs as [Hs Hsa]. apply andb_true_iff in Hs as [Hk Hop].
  apply bool_decide_eq_true in Hk. split; [done|]. split.
  { unfold route, classifyGatewayRoute in Hk. destruct (isBlockedGatewayPath _); [discriminate Hk|done]. }
  assert (Eligible (if IsOAuth account then rt_OAuth route else rt_APIKey route) = true) as He.
  { destruct (IsOAuth account); cbn [negb andb] in Ho, Ha; by apply negb_false_iff. }
  assert (served (r_OpID route) credential (if IsOAuth account then rt_OAuth route else rt_APIKey route) = true) as Hsv.
  { unfold credential, credentialClassForAccount. by destruct (IsOAuth account). }
  destruct (served_bridge _ _ _ Hsv He) as (b & Hb & H1 & H2 & H3). exists b.
  rewrite negb_true_iff in Hop.
  split_and!; [|exact H1|exact H2| | |].
  - unfold selectGatewayBridgeFromRegistry. rewrite bool_decide_true, Hop by done. simpl negb. cbn [orb].
    unfold credential, credentialClassForAccount in *. by destruct (IsOAuth account); rewrite He.
  - intros ob E. rewrite (H3 _ E). unfold credential, credentialClassForAccount. by destruct (IsOAuth account).
  - rewrite Hop in Hcap. cbn [negb andb] in Hcap. rewrite andb_true_r in Hcap.
    destruct (IsOAuth account) eqn:Eo; [unfold HasCapabilityFor; by rewrite Eo|].
    by destruct (HasCapabilityFor account (r_OpID route)).
  - intros Hne. apply String.eqb_neq in Hne. by rewrite Hne in Hso.
Qed.

(** ** What a client can make the router send *)

(** The keys the router sets itself. *)
Definition router_keys : list string :=
  ["Authorization"; "User-Agent"; "Content-Type"; "Accept-Encoding"; "Accept"; "Chatgpt-Account-Id"].

Lemma forwarded_key_canonical src k : forwarded_key src (CanonicalHeaderKey k) = forwarded_key src k.
Proof. unfold forwarded_key. by rewrite ToLower_canonical. Qed.
Lemma transcribe_key_canonical src k : transcribe_key src (CanonicalHeaderKey k) = transcribe_key src k.
Proof. unfold transcribe_key. by rewrite ToLower_canonical. Qed.

(** A key the filter refuses is not copied, however it is spelt. *)
Lemma copy_refused (keep : Header -> string -> bool) src k :
  (forall x, keep src (CanonicalHeaderKey x) = keep src x) -> keep src k = false ->
  Values (copy_where (keep src) [] src) k = [].
Proof.
  intros Hc Hk. rewrite Values_copy_where; [done|]. intros kv _ Hkv Heq.
  rewrite <- Hc, Heq, Hc in Hkv. congruence.
Qed.

Lemma transcribe_forwarded src k : forwarded_key src k = false ->
  dropped src (ToLower k) = true \/ transcribe_key src k = false.
Proof.
  unfold forwarded_key, transcribe_key. destruct (dropped src (ToLower k)); [by left|]. cbn [negb andb].
  intros Hf. right.
  destruct (_ || _) eqn:E; [|done]. exfalso. revert Hf E.
  generalize (ToLower k). intros l. 
  destruct (HasPrefix l "x-forwarded-") eqn:E1; [apply HasPrefix_spec in E1 as [r ->]; intros _; by vm_compute|].
  destruct (HasPrefix l "cf-") eqn:E2; [apply HasPrefix_spec in E2 as [r ->]; intros _; by vm_compute|].
  destruct (HasPrefix l "sec-websocket-") eqn:E3; [apply HasPrefix_spec in E3 as [r ->]; intros _; by vm_compute|].
  done.
Qed.

Lemma copied_refused b req k :
  forwarded_key (c_Headers req) k = false ->
  Values (if String.eqb (b_id b) BridgeCodexNativeTranscribeDirect
          then copyTranscribeHeaders [] (c_Headers req) else copyForwardHeaders [] (c_Headers req)) k = [].
Proof.
  intros Hk. destruct (String.eqb _ _).
  - apply (copy_refused transcribe_key); [apply transcribe_key_canonical|].
    destruct (transcribe_forwarded _ _ Hk) as [Hd|]; [|done]. unfold transcribe_key. by rewrite Hd.
  - apply (copy_refused forwarded_key); [apply forwarded_key_canonical | done].
Qed.

(** What [upstreamHeaders] sets after the copy leaves the other keys alone. *)
Lemma upstreamHeaders_other b req cred cid k :
  (forall x, x ∈ router_keys -> x <> CanonicalHeaderKey k) ->
  forwarded_key (c_Headers req) k = false -> Values (upstreamHeaders b req cred cid) k = [].
Proof.
  intros Hk Hf. pose proof (copied_refused b req k Hf) as Hc. unfold upstreamHeaders.
  assert (forall h x v, CanonicalHeaderKey x ∈ router_keys -> Values (HeaderSet h x v) k = Values h k) as Hs.
  { intros h x v Hx. rewrite Values_Set. apply Hk, String.eqb_neq in Hx. by rewrite Hx. }
  unfold forceIdentityAcceptEncoding.
  repeat (case_match; try rewrite !Hs by (apply (bool_decide_unpack _); vm_compute; exact I)); exact Hc.
Qed.

Lemma refused_always src k :
  mem (ToLower k) hopByHopRequestHeaders || mem (ToLower k) routerOwnedRequestHeaders = true ->
  forwarded_key src k = false.
Proof. intros Hm. unfold forwarded_key, dropped. by rewrite Hm. Qed.

(** Setting another key. *)
Lemma Values_Set_ne k h x v :
  String.eqb (CanonicalHeaderKey x) (CanonicalHeaderKey k) = false -> Values (HeaderSet h x v) k = Values h k.
Proof. intros E. by rewrite Values_Set, E. Qed.

Lemma Values_Set_eq k h v : Values (HeaderSet h k v) k = [v].
Proof. by rewrite Values_Set, String.eqb_refl. Qed.

Lemma upstreamHeaders_authorization b req cred cid :
  Values (upstreamHeaders b req cred cid) "Authorization" =
    if String.eqb cred "" then [] else ["Bearer " +:+ cred].
Proof.
  pose proof (copied_refused b req "Authorization" (refused_always _ "Authorization" eq_refl)) as Hc.
  unfold upstreamHeaders, forceIdentityAcceptEncoding.
  destruct (String.eqb cred ""); cbn [negb];
    repeat (case_match; try rewrite !(Values_Set_ne "Authorization") by reflexivity);
    first [exact Hc | apply (Values_Set_eq "Authorization")].
Qed.

Lemma upstreamHeaders_chatgpt b req cred cid :
  Values (upstreamHeaders b req cred cid) "chatgpt-account-id" =
    if String.eqb (b_credential b) CredentialClassOAuth && negb (String.eqb cid "") then [cid] else [].
Proof.
  pose proof (copied_refused b req "chatgpt-account-id" (refused_always _ "chatgpt-account-id" eq_refl)) as Hc.
  unfold upstreamHeaders, forceIdentityAcceptEncoding.
  destruct (String.eqb (b_credential b) CredentialClassOAuth), (String.eqb cid ""); cbn [negb andb];
    try apply (Values_Set_eq "chatgpt-account-id");
    repeat (case_match; try rewrite !(Values_Set_ne "chatgpt-account-id") by reflexivity); exact Hc.
Qed.

Lemma oauth_path b :
  b ∈ defaultOperationBridges -> b_credential b = CredentialClassOAuth -> b_upstreamPath b <> "".
Proof.
  intros Hb Hc.
  assert (forallb (fun b => negb (String.eqb (b_credential b) CredentialClassOAuth)
                            || negb (String.eqb (b_upstreamPath b) "")) defaultOperationBridges = true) as Hf
    by (vm_compute; reflexivity).
  rewrite forallb_forall in Hf. apply list_elem_of_In, Hf in Hb. rewrite Hc in Hb. simpl in Hb. by breflect.
Qed.

