(* ===== verification/Forwarder.v ===== *)
(** * Forwarder: sending a request and adapting its answer
      (internal/provider/openai/forwarder.go, client.go and
       adaptChatCompletionsResponse of chat_adapter.go)

    The network ([Do]), gzip and the configured outbound proxy are arguments.
    What a capture reports through a function is the value it has once the
    body has been read to its end. *)

From S2P Require Import Prelude GoLib GoURL GoHTTP GoJSON GoAny GoBufio Errors Usage Collector CodexRequest.
From S2P Require Import ChatRequest ChatResponse ChatStream GatewayRoutes Bridges.
Import usage collector.

Module forwarder.

Record Response := mkResponse { rs_Status : Z; rs_Header : Header; rs_Body : reader; rs_Length : Z }.
#[export] Instance eta_Response : Eta Response := fun r =>
  mkResponse (rs_Status r) (rs_Header r) (rs_Body r) (rs_Length r).

(** The three functions are [None] when they are nil. *)
Record ForwardCapture := mkCapture {
  UpstreamRequestBody : string; UpstreamResponseBody : string;
  UpstreamResponseBodySnapshot : option string;
  TokenUsage : option JSONMap; ModelParams : option JSONMap }.
#[export] Instance eta_ForwardCapture : Eta ForwardCapture := fun r =>
  mkCapture (UpstreamRequestBody r) (UpstreamResponseBody r) (UpstreamResponseBodySnapshot r)
    (TokenUsage r) (ModelParams r).

Definition no_capture : ForwardCapture := mkCapture "" "" None None None.

(** A response or an error, each with what was captured. *)
Definition forwarded : Type := result error Response * ForwardCapture.

(** ** Bodies *)

(** At most [limit] bytes. *)
Definition take_limit (limit : Z) (s : string) : string :=
  if lenZ s <=? limit then s else take_str (Z.to_nat limit) s.

(** What [readBoundedProviderBody] returns beside its error. *)
Definition bounded_data (body : reader) (limit : Z) : string := take_limit (limit + 1) (rd_data body).

Definition readCodexSSEResponse (body : reader) : result error string :=
  match chatresp.readBoundedProviderBody body codexSSECollectLimit "codex SSE response too large" with
  | Err e => Err (Wrapf "read codex SSE response: %w" [] e)
  | Ok data => Ok data
  end.

(** A response with a new body that is in memory. *)
Definition buffered_json (body : string) (resp : Response) : Response :=
  let h := HeaderDel (HeaderDel (HeaderDel (rs_Header resp) "Content-Encoding") "Trailer") "Transfer-Encoding" in
  let h := HeaderSet (HeaderSet h "Content-Length" (pretty (lenZ body))) "Content-Type" "application/json" in
  mkResponse (rs_Status resp) h (mkReader body None) (lenZ body).

(** ** Responses as JSON *)

Definition collectResponsesSSEForJSON (resp : Response) (capture : ForwardCapture) : forwarded :=
  let invalid e := Wrapf2 "%w: %w" (Sentinel ErrUpstreamResponseInvalid) e in
  if Contains (ToLower (Get (rs_Header resp) "Content-Type")) "application/json" then (Ok resp, capture)
  else
    let capture := capture <| UpstreamResponseBody := bounded_data (rs_Body resp) codexSSECollectLimit |> in
    match readCodexSSEResponse (rs_Body resp) with
    | Err e => (Err (invalid e), capture)
    | Ok rawBody =>
        match collectCodexSSEBytes rawBody with
        | Err e => (Err (invalid e), capture)
        | Ok collected =>
            (Ok (buffered_json collected resp), capture <| UpstreamResponseBody := collected |>)
        end
    end.

(** ** The list of models *)

Definition numericJSONValue (value : option any) : option any :=
  match value with
  | Some (ANum f) => Some (ANum f)
  | Some (AInt z) => Some (AInt z)
  | Some (ALit l) => Some (ALit l)
  | _ => None
  end.

Definition codexModelMetadataKeys : list string :=
  ["display_name"; "description"; "context_window"; "input_modalities"; "supported_reasoning_levels";
   "default_reasoning_level"; "supports_reasoning_summaries"; "support_verbosity"; "default_verbosity";
   "prefer_websockets"; "supports_parallel_tool_calls"; "supported_in_api"; "minimal_client_version"; "priority"].

Definition codexModelMetadata (model : obj) : obj :=
  list_to_map (omap (fun key => pair key <$> model !! key) codexModelMetadataKeys).

Definition model_item (model : obj) (slug : string) : obj :=
  let item : obj := <["object" := AStr "model"]> {["id" := AStr slug]} in
  let item := chatresp.opt_field "created" (numericJSONValue (model !! "created")) item in
  let item := chatresp.str_field "owned_by" (default "" (as_str (model !! "owned_by"))) item in
  let metadata := codexModelMetadata model in
  if bool_decide (metadata = ∅) then item else <["metadata" := AMap metadata]> item.

Fixpoint model_items (rawModels : list any) : result error (list any) :=
  match rawModels with
  | [] => Ok []
  | AMap model :: rest =>
      items ← model_items rest;
      match as_str (model !! "slug") with
      | Some slug => Ok (if String.eqb (TrimSpace slug) "" then items else AMap (model_item model slug) :: items)
      | None => Ok items
      end
  | _ :: _ => Err (New "codex models response contains non-object model")
  end.

Definition codexModelsToOpenAIList (data : string) : result error string :=
  match Unmarshal_map data with
  | None => Err (Wrapf "decode codex models response: %w" [] (New "invalid JSON"))
  | Some payload =>
      match as_arr (default ∅ payload !! "models") with
      | None => Err (New "codex models response missing models array")
      | Some rawModels =>
          items ← model_items rawModels;
          chatresp.encode (list_to_map [("object", AStr "list"); ("data", AArr items)])
      end
  end.

Definition adaptCodexModelsListResponse (resp : Response) (capture : ForwardCapture) : forwarded :=
  let invalid f e := Wrapf2 f (Sentinel ErrUpstreamResponseInvalid) e in
  if 400 <=? rs_Status resp then (Ok resp, capture)
  else match chatresp.readBoundedProviderBody (rs_Body resp) codexSSECollectLimit "codex models response too large" with
  | Err e => (Err (invalid "%w: read codex models response: %w" e), capture)
  | Ok rawBody =>
      let capture := capture <| UpstreamResponseBody := rawBody |> in
      match codexModelsToOpenAIList rawBody with
      | Err e => (Err (invalid "%w: %w" e), capture)
      | Ok transformed => (Ok (buffered_json transformed resp), capture)
      end
  end.

(** ** Chat completions *)

(** [streamingUpstreamBodyCapture]: the first bytes of what passes. *)
Definition chatStreamCaptureLimit : Z := 2 ^ 20.

Definition capture_Write (limit : Z) (p body : string) : string :=
  if lenZ body <? limit then body +:+ take_limit (limit - lenZ body) p else body.

Definition capture_Snapshot (data : string) : string :=
  if String.eqb data "" then ""
  else match CollectResponsesSSEBytes data false with
       | (collected, true, None) => collected
       | _ => data
       end.

Definition metadata_Snapshot (s : chatstream.stream) : JSONMap :=
  match chatstream.generatedID s with
  | Some id => Some (list_to_map [("chat_adapter_generated_id", ABool true); ("chat_adapter_protocol_id", AStr id)])
  | None => None
  end.

(** What the client reads of a converted stream. *)
Definition stream_reader (s : chatstream.stream) (err : option error) : reader :=
  mkReader (concat_str (List.map chatstream.render (chatstream.out s))) err.

(** The bytes up to the first that is not a space; [true] when the data ends
    before. *)
Fixpoint shape_prefix (limit : nat) (data : string) : string * bool :=
  match limit, data with
  | O, _ => ("", false)
  | _, EmptyString => ("", true)
  | S limit, String b data' =>
      if in_set (" " +:+ String "009" (String "013" newline)) b
      then let '(p, fin) := shape_prefix limit data' in (String b p, fin)
      else (String b "", false)
  end.

Definition readBodyShapePrefix (body : reader) (limit : nat) : result error string :=
  match shape_prefix limit (rd_data body), rd_err body with
  | (_, true), Some e => Err e
  | (prefix, _), _ => Ok prefix
  end.

Definition looksLikeSSEBody (data : string) : bool :=
  match TrimSpace data with
  | String c _ => Ascii.eqb c ":" || Ascii.eqb c "d" || Ascii.eqb c "e"
  | EmptyString => false
  end.

Section chat.
Context (requestID : string) (now : Z).
(** How much of a body has been read when its conversion is over: all of it,
    unless the conversion stopped before the end. *)
Context (read_bytes : reader -> string).

Definition as_stream (resp : Response) (body : reader) : Response :=
  let h := HeaderDel (HeaderDel (HeaderDel (HeaderDel (rs_Header resp) "Content-Length") "Content-Encoding")
                        "Trailer") "Transfer-Encoding" in
  mkResponse (rs_Status resp) (HeaderSet h "Content-Type" "text/event-stream") body (-1).

(** [chatCompletionStreamFromResponses], with the captures of its goroutine. *)
Definition converted_stream (resp : Response) (capture : ForwardCapture) (model : string) (includeUsage : bool)
    : forwarded :=
  let '(s, err) := chatstream.writeChatCompletionStream now model includeUsage (rs_Body resp)
                     (chatstream.new_stream requestID None) in
  (Ok (as_stream resp (stream_reader s err)),
   capture <| UpstreamResponseBodySnapshot :=
                Some (capture_Snapshot (capture_Write chatStreamCaptureLimit (read_bytes (rs_Body resp)) "")) |>
           <| TokenUsage := Some (chatstream.usageCapture s) |>
           <| ModelParams := Some (metadata_Snapshot s) |>).

(** A JSON answer to a streaming request. *)
Definition converted_json (resp : Response) (capture : ForwardCapture) (model : string) (includeUsage : bool)
    : forwarded :=
  let invalid f e := Wrapf2 f (Sentinel ErrUpstreamResponseInvalid) e in
  let capture := capture <| UpstreamResponseBody := bounded_data (rs_Body resp) codexSSECollectLimit |>
                         <| TokenUsage := Some None |> <| ModelParams := Some None |> in
  match chatresp.readBoundedProviderBody (rs_Body resp) codexSSECollectLimit "chat adapter upstream response too large" with
  | Err e => (Err (invalid "%w: read chat stream fallback body: %w" e), capture)
  | Ok rawBody =>
      match chatstream.chatCompletionStreamFromResponsesJSON now model includeUsage requestID rawBody with
      | Err e => (Err (invalid "%w: %w" e), capture)
      | Ok (s, err) =>
          (Ok (as_stream resp (stream_reader s err)),
           capture <| TokenUsage := Some (chatstream.usageCapture s) |> <| ModelParams := Some (metadata_Snapshot s) |>)
      end
  end.

Definition adaptChatCompletionsResponse (resp : Response) (capture : ForwardCapture) (model : string)
    (stream includeUsage : bool) : forwarded :=
  let invalid f e := Wrapf2 f (Sentinel ErrUpstreamResponseInvalid) e in
  let contentType := Get (rs_Header resp) "Content-Type" in
  if 400 <=? rs_Status resp then (Ok resp, capture)
  else if stream then
    if Contains (ToLower contentType) "text/event-stream" then converted_stream resp capture model includeUsage
    else match readBodyShapePrefix (rs_Body resp) 32 with
         | Err e => (Err (invalid "%w: read chat stream response prefix: %w" e),
                     capture <| TokenUsage := Some None |> <| ModelParams := Some None |>)
         | Ok prefix => if looksLikeSSEBody prefix then converted_stream resp capture model includeUsage
                        else converted_json resp capture model includeUsage
         end
  else match chatresp.chatCompletionFromResponsesBody requestID now (rs_Body resp) contentType model with
       | Err e => (Err (invalid "%w: %w" e), capture)
       | Ok (converted, statusCode) => (Ok (buffered_json converted resp <| rs_Status := statusCode |>), capture)
       end.

(** ** Bridges *)

Definition isChatGPTContract (contract : Contract) : bool := HasPrefix contract "contract.chatgpt.".

Definition adaptBridgeResponse (resp : Response) (capture : ForwardCapture) (upstream : UpstreamRequest)
    (adapter : clientResponseAdapter) : forwarded :=
  let resp := if isChatGPTContract (u_Contract upstream)
              then resp <| rs_Header := HeaderDel (rs_Header resp) "Set-Cookie" |> else resp in
  match a_kind adapter with
  | ClientResponseAdapterOpenAIResponsesJSON => collectResponsesSSEForJSON resp capture
  | ClientResponseAdapterOpenAIModelsList => adaptCodexModelsListResponse resp capture
  | ClientResponseAdapterChatCompletionsJSON =>
      adaptChatCompletionsResponse resp capture (a_model adapter) false (a_includeUsage adapter)
  | ClientResponseAdapterChatCompletionsSSE =>
      adaptChatCompletionsResponse resp capture (a_model adapter) true (a_includeUsage adapter)
  | _ => (Ok resp, capture)
  end.

(** ** Compression *)

Definition encodings (ce : string) : list string := Split ce ",".
Definition is_gzip (enc : string) : bool := String.eqb (TrimSpace (ToLower enc)) "gzip".
Definition hasGzipContentEncoding (ce : string) : bool := existsb is_gzip (encodings ce).

Definition stripGzipContentEncoding (h : Header) (ce : string) : Header :=
  match List.filter (fun enc => negb (String.eqb (TrimSpace (ToLower enc)) "") && negb (is_gzip enc)) (encodings ce) with
  | [] => HeaderDel h "Content-Encoding"
  | remaining => HeaderSet h "Content-Encoding" (Join (List.map TrimSpace remaining) ", ")
  end.

(** [gzip.NewReader]: the uncompressed stream, unless the header is invalid. *)
Context (gunzip : reader -> result error reader).

Definition decompressResponse (resp : Response) : result error Response :=
  let ce := Get (rs_Header resp) "Content-Encoding" in
  if negb (hasGzipContentEncoding ce) then Ok resp
  else match gunzip (rs_Body resp) with
       | Err e => Err (Wrapf "decompress gzip response: %w" [] e)
       | Ok body =>
           Ok (mkResponse (rs_Status resp)
                 (HeaderDel (stripGzipContentEncoding (rs_Header resp) ce) "Content-Length") body (-1))
       end.

(** ** The HTTP client *)

(** The exchange over the network, through the proxy or not; whether an error
    is a timeout of the network; whether a proxy is configured. *)
Context (Do : bool -> UpstreamRequest -> result error Response) (net_timeout : error -> bool)
  (proxy_configured : bool).

Definition isTimeout (e : error) : bool := net_timeout e || errors_Is e DeadlineExceeded.

(** [proxydial.Decide] and the choice of one of the two clients. *)
Definition httpClientForUseProxy (useProxy : bool) : result error bool :=
  if negb useProxy then Ok false
  else if proxy_configured then Ok true else Err (Sentinel ErrProxyRequired).

Definition ForwardBridgeRequestWithCapture (upstream : UpstreamRequest) (adapter : clientResponseAdapter) : forwarded :=
  if String.eqb (TrimSpace (u_URL upstream)) "" then
    (Err (Wrapf "%w: missing upstream URL" [] (Sentinel ErrInvalidUpstreamRequest)), no_capture)
  else match Parse (u_URL upstream) with
  | None => (Err (Wrapf "create bridge upstream request: %w" [] (New "parse error")), no_capture)
  | Some _ =>
      match httpClientForUseProxy (u_UseProxy upstream) with
      | Err e => (Err (Wrapf2 "%w: %w" (Sentinel ErrUpstreamConnectFailed) e), no_capture)
      | Ok proxied =>
          let capture := no_capture <| UpstreamRequestBody := u_RawBody upstream |> in
          match Do proxied upstream with
          | Err e =>
              (Err (if errors_Is e ErrRequestBodyTooLarge then Sentinel ErrRequestBodyTooLarge
                    else if isTimeout e then Sentinel ErrUpstreamTimeout
                    else Wrapf2 "%w: %w" (Sentinel ErrUpstreamConnectFailed) e), capture)
          | Ok resp =>
              match decompressResponse resp with
              | Err e => (Err (Wrapf2 "%w: %w" (Sentinel ErrUpstreamResponseInvalid) e), capture)
              | Ok resp => adaptBridgeResponse resp capture upstream adapter
              end
          end
      end
  end.

End chat.
End forwarder.
