(* ===== verification/AccountModels.v ===== *)
(** * AccountModels: which models an account serves
      (internal/store/account_models.go, internal/core/model_refresh.go and
       the model list of internal/api/proxy_models.go)

    The table [account_models] is a map from (account, model id), the columns
    of its unique constraint.  Each statement may fail ([fault], by its
    number); within a transaction other sessions are not interleaved.  What
    the upstream answers, and the text of database errors, are arguments. *)

From S2P Require Import Prelude GoLib GoHTTP GoStrings GoJSON GoAny Errors Account Bridges.
From S2P Require Import CodexRequest ChatResponse.

Module models.

Abbreviation table := (gmap (Z * string) AccountModel).

Definition rows (p : AccountModel -> bool) (t : table) : list AccountModel :=
  List.filter p (snd <$> map_to_list t).

(** [OrderBy("model_id ASC, account_id ASC")]. *)
Definition row_le (r s : AccountModel) : Prop :=
  (m_ModelID r <> m_ModelID s /\ String.le (m_ModelID r) (m_ModelID s))
  \/ (m_ModelID r = m_ModelID s /\ m_AccountID r <= m_AccountID s).
#[export] Instance row_le_dec : RelDecision row_le.
Proof. intros r s. unfold row_le. apply _. Defined.

(** ** Reading *)

Section repo.
(** [fault i]: how the [i]-th statement of the call fails. *)
Context (fault : nat -> option error).

Definition statement {A} (i : nat) (what : string) (x : A) : result error A :=
  match fault i with Some e => Err (Wrapf (what +:+ ": %w") [] e) | None => Ok x end.

Definition HasModel (accountID : Z) (modelID : string) (t : table) : result error bool :=
  if String.eqb modelID "" then Ok false
  else statement 0 "check account model" (bool_decide (is_Some (t !! (accountID, modelID)))).

Definition ListByAccount (accountID : Z) (t : table) : result error (list AccountModel) :=
  statement 0 "list account models" (merge_sort row_le (rows (fun r => m_AccountID r =? accountID) t)).

Definition ListByAccounts (accountIDs : list Z) (t : table) : result error (list AccountModel) :=
  match accountIDs with
  | [] => Ok []
  | _ => statement 0 "list models for accounts"
           (merge_sort row_le (rows (fun r => existsb (Z.eqb (m_AccountID r)) accountIDs) t))
  end.

(** The [Distinct] account ids of some rows; their order is the database's. *)
Definition distinct_accounts (l : list AccountModel) : list Z := remove_dups (m_AccountID <$> l).

Definition AccountsWithModel (modelID : string) (t : table) : result error (list Z) :=
  statement 0 "find accounts with model" (distinct_accounts (rows (fun r => String.eqb (m_ModelID r) modelID) t)).

(** [stored]: the ids of the accounts that are not deleted. *)
Definition AccountsWithoutModels (stored : list Z) (t : table) : result error (list Z) :=
  withModels ← statement 0 "find accounts with models" (distinct_accounts (rows (fun _ => true) t));
  accounts ← statement 1 "list accounts for model-agnostic set" stored;
  Ok (List.filter (fun id => negb (existsb (Z.eqb id) withModels)) accounts).

(** ** Writing *)

(** [Error()] of a database error, and the error of a violated unique
    constraint. *)
Context (err_text : error -> string) (unique_violation : error).

Definition isDuplicateKeyError (e : error) : bool :=
  let s := err_text e in
  Contains s "UNIQUE constraint" || Contains s "duplicate key" || Contains s "Duplicate entry".

Definition new_row (now : time) (accountID : Z) (modelID source : string) (metadata : option string)
    (id : Z) : AccountModel :=
  mkAccountModel id accountID modelID source metadata now now.

(** [Insert]: the next id is the database's. *)
Definition insert_row (i : nat) (r : AccountModel) (t : table) : result error table :=
  match fault i with
  | Some e => Err e
  | None => match t !! (m_AccountID r, m_ModelID r) with
            | Some _ => Err unique_violation
            | None => Ok (<[(m_AccountID r, m_ModelID r) := r]> t)
            end
  end.

Definition Insert (now : time) (id accountID : Z) (modelID source : string) (t : table) : result error unit * table :=
  if String.eqb modelID "" then (Err (New "insert account model: empty model_id"), t)
  else match insert_row 0 (new_row now accountID modelID source None id) t with
       | Ok t' => (Ok tt, t')
       | Err e => (Err (Wrapf "insert account model: %w" []
                          (if isDuplicateKeyError e then Sentinel ErrAccountModelDuplicate else e)), t)
       end.

Definition Delete (accountID : Z) (modelID : string) (t : table) : result error unit * table :=
  match statement 0 "delete account model" tt with
  | Ok _ => (Ok tt, delete (accountID, modelID) t)
  | Err e => (Err e, t)
  end.

(** The first draft of each id, empty ids left out. *)
Fixpoint dedup (seen : list string) (drafts : list AccountModelDraft) : list AccountModelDraft :=
  match drafts with
  | [] => []
  | m :: rest =>
      if String.eqb (d_ID m) "" || existsb (String.eqb (d_ID m)) seen then dedup seen rest
      else m :: dedup (d_ID m :: seen) rest
  end.

Definition draftMetadataString (raw : option string) : option string :=
  match raw with Some s => if String.eqb s "" then None else Some s | None => None end.

Definition is_source (accountID : Z) (source : string) (r : AccountModel) : bool :=
  (m_AccountID r =? accountID) && String.eqb (m_Source r) source.

Definition delete_upstream (accountID : Z) (t : table) : table :=
  filter (fun kr => is_source accountID AccountModelSourceUpstream (snd kr) = false) t.

(** The statements for the drafts: manual rows get the new metadata, the
    others are collected for insertion. *)
Fixpoint apply_drafts (now : time) (accountID : Z) (manualIDs : list string) (i : nat)
    (drafts : list AccountModelDraft) (t : table) : result error (table * list AccountModelDraft * nat) :=
  match drafts with
  | [] => Ok (t, [], i)
  | draft :: rest =>
      let meta := draftMetadataString (d_Metadata draft) in
      if existsb (String.eqb (d_ID draft)) manualIDs then
        match meta with
        | None => apply_drafts now accountID manualIDs i rest t
        | Some m =>
            _ ← statement i "update manual model metadata" tt;
            apply_drafts now accountID manualIDs (S i) rest
              (alter (fun r => if String.eqb (m_Source r) AccountModelSourceManual
                               then r <| m_Metadata := Some m |> <| m_UpdatedAt := now |> else r)
                 (accountID, d_ID draft) t)
        end
      else
        '(t, toInsert, i) ← apply_drafts now accountID manualIDs i rest t;
        Ok (t, draft :: toInsert, i)
  end.

(** One [INSERT] of all rows: it fails as a whole. *)
Fixpoint insert_all (now : time) (accountID : Z) (ids : list Z) (drafts : list AccountModelDraft) (t : table)
    : result error table :=
  match drafts with
  | [] => Ok t
  | draft :: rest =>
      match t !! (accountID, d_ID draft) with
      | Some _ => Err (Wrapf "batch insert upstream models: %w" [] unique_violation)
      | None =>
          insert_all now accountID (tl ids) rest
            (<[(accountID, d_ID draft) :=
                 new_row now accountID (d_ID draft) AccountModelSourceUpstream
                   (draftMetadataString (d_Metadata draft)) (hd 0 ids)]> t)
      end
  end.

(** The transaction as a function of the table; [ids] are the keys the
    database assigns. *)
Definition replace_tx (now : time) (ids : list Z) (accountID : Z) (drafts : list AccountModelDraft) (t : table)
    : result error (Z * Z * table) :=
  _ ← statement 0 "replace upstream models tx begin" tt;
  manualRows ← statement 1 "load manual models" (rows (is_source accountID AccountModelSourceManual) t);
  t1 ← statement 2 "delete upstream models" (delete_upstream accountID t);
  '(t2, toInsert, i) ← apply_drafts now accountID (m_ModelID <$> manualRows) 3 (dedup [] drafts) t1;
  t3 ← (match toInsert with
        | [] => Ok t2
        | _ => _ ← statement i "batch insert upstream models" tt; insert_all now accountID ids toInsert t2
        end);
  Ok (Z.of_nat (List.length toInsert), Z.of_nat (List.length manualRows), t3).

(** Rolled back on any error; a commit that fails may still have happened. *)
Definition ReplaceUpstreamModels (now : time) (ids : list Z) (commit_fault : option (error * bool))
    (accountID : Z) (drafts : list AccountModelDraft) (t : table) : result error (Z * Z) * table :=
  match replace_tx now ids accountID drafts t with
  | Err e => (Err e, t)
  | Ok (added, keptManual, t') =>
      match commit_fault with
      | Some (e, applied) =>
          (Err (Wrapf "replace upstream models tx commit: %w" [] e), if applied : bool then t' else t)
      | None => (Ok (added, keptManual), t')
      end
  end.

End repo.

(** ** Reading an upstream's list *)

(** A field that is not a non-empty string is set. *)
Definition default_str (key value : string) (o : obj) : obj :=
  if String.eqb (chatresp.str o key) "" then <[key := AStr value]> o else o.

Definition normalizeModelObject (raw : json) (id : string) : result error string :=
  match any_of raw with
  | Some (AMap o) =>
      let o := default_str "object" "model" (default_str "id" id o) in
      let o := match as_str (o !! "slug") with
               | Some _ => o
               | None => if String.eqb id "" then o else <["slug" := AStr id]> o
               end in
      chatresp.encode o
  | _ => Err (Wrapf "decode model object: %w" [] (New "invalid JSON"))
  end.

(** The name an entry goes by, [slug] or [id]. *)
Definition entry_name (key : string) (raw : json) : option string :=
  dec_struct (fun k v old => if key_is key k then dec_string v old else Some old) raw "".

Fixpoint entries (key what : string) (l : list json) : result error (list AccountModelDraft) :=
  match l with
  | [] => Ok []
  | raw :: rest =>
      match entry_name key raw with
      | None => Err (Wrapf ("decode " +:+ what +:+ " model entry: %w") [] (New "invalid JSON"))
      | Some name =>
          if String.eqb name "" then entries key what rest
          else
            normalized ← normalizeModelObject raw name;
            drafts ← entries key what rest;
            Ok (mkAccountModelDraft name (Some normalized) :: drafts)
      end
  end.

(** [[]json.RawMessage], [None] when nil. *)
Definition dec_raws (v : json) (old : option (list json)) : option (option (list json)) :=
  match v with JNull => Some None | JArr l => Some (Some l) | _ => None end.

Definition openai_field (k : string) (v : json) (p : string * option (list json))
    : option (string * option (list json)) :=
  if key_is "object" k then s ← dec_string v (fst p); Some (s, snd p)
  else if key_is "data" k then d ← dec_raws v (snd p); Some (fst p, d)
  else Some p.

Definition ParseModels (body : string) : result error (list AccountModelDraft) :=
  let invalid := Wrapf "decode response: %w" [] (New "invalid JSON") in
  match json_parse body with
  | None => Err invalid
  | Some doc =>
      match dec_struct (fun k v old => if key_is "models" k then dec_raws v old else Some old) doc None with
      | Some (Some l) => entries "slug" "codex" l
      | _ =>
          match dec_struct openai_field doc ("", None) with
          | None => Err invalid
          | Some (object, data) =>
              if negb (String.eqb object "") && negb (String.eqb object "list")
              then Err (Errorf "unexpected object type: %s" [FStr object])
              else entries "id" "openai" (default [] data)
          end
      end
  end.

Definition ParseModelIDs (body : string) : result error (list string) :=
  match ParseModels body with Ok drafts => Ok (List.map d_ID drafts) | Err e => Err e end.

(** ** Refreshing *)

Definition ChatGPTBackend (codexBackend : string) : string :=
  if String.eqb codexBackend "" then ChatGPTBackendBaseURL else codexBackend.

Definition modelListEndpoint (codexBackend codexClientVersion : string) (acct : UpstreamAccount) : string :=
  if IsOAuth acct then
    TrimSuffix (ChatGPTBackend codexBackend) "/" +:+ "/codex/models?client_version=" +:+ codexClientVersion
  else TrimSuffix (EffectiveBaseURL acct) "/v1" +:+ "/v1/models".

(** A GET of an endpoint with a bearer token, through the proxy or not:
    status and body. *)
Definition fetcher : Type := bool -> string -> string -> result error (Z * string).

Section refresh.
Context (fetch : fetcher) (proxy_configured has_proxied_client : bool) (codexBackend codexClientVersion : string).

Definition fetchUpstreamModels (acct : UpstreamAccount) : result error (list AccountModelDraft) :=
  let token := if IsOAuth acct then default "" (AccessToken acct) else APIKey acct in
  if UseProxy acct && negb proxy_configured then
    Err (Wrapf "upstream request failed: %w" [] (Sentinel ErrProxyRequired))
  else if UseProxy acct && negb has_proxied_client then Err (New "model refresher proxied client is nil")
  else match fetch (UseProxy acct) (modelListEndpoint codexBackend codexClientVersion acct) token with
  | Err e => Err (Wrapf "upstream request failed: %w" [] e)
  | Ok (status, body) =>
      if negb (status =? 200) then
        Err (Errorf "upstream returned status %d: %s" [FInt status; FStr (take_str 256 body)])
      else match ParseModels body with
           | Err e => Err (Wrapf "parse models: %w" [] e)
           | Ok models => Ok (dedup [] models)
           end
  end.

(** Added, kept and fetched; the repository is asked only for a list that is
    not empty. *)
Definition Refresh (acct : UpstreamAccount)
    (replace : Z -> list AccountModelDraft -> table -> result error (Z * Z) * table) (t : table)
    : result error (Z * Z * Z) * table :=
  if SystemOneOnly acct then
    (Err (New "automatic model discovery is unavailable for System One-only accounts; add models manually"), t)
  else match fetchUpstreamModels acct with
  | Err e => (Err e, t)
  | Ok [] => (Ok (0, 0, 0), t)
  | Ok models =>
      match replace (ID acct) models t with
      | (Err e, t') => (Err (Wrapf2 "%w: %w" (Sentinel ErrModelRefreshStoreFailed) e), t')
      | (Ok (added, keptManual), t') => (Ok (added, keptManual, Z.of_nat (List.length models)), t')
      end
  end.

(** Whether [TriggerAsync] starts a refresh. *)
Definition triggers (acct : option UpstreamAccount) : bool :=
  match acct with
  | Some a => String.eqb (Status a) AccountStatusActive && negb (SystemOneOnly a)
  | None => false
  end.
End refresh.

(** ** The list shown to clients *)

Definition decodeModelMetadata (raw : option string) (fallbackID : string) : option obj :=
  match raw with
  | Some s =>
      if String.eqb s "" then None
      else match Unmarshal_map s with
           | Some (Some o) =>
               let with_object o := if String.eqb (TrimSpace (chatresp.str o "object")) ""
                                    then <["object" := AStr "model"]> o else o in
               if String.eqb (TrimSpace (chatresp.str o "id")) "" then
                 if String.eqb fallbackID "" then None else Some (with_object (<["id" := AStr fallbackID]> o))
               else Some (with_object o)
           | _ => None
           end
  | None => None
  end.

(** The list so far: ids in order, their objects, and which have or had bad
    metadata. *)
Record merged := mkMerged {
  order : list string; byID : gmap string obj; validMetadata : gset string; corruptMetadata : gset string }.
Definition no_models : merged := mkMerged [] ∅ ∅ ∅.

Definition minimal_model (id : string) : obj := <["object" := AStr "model"]> {["id" := AStr id]}.

Definition merge_row (m : merged) (row : AccountModel) : merged :=
  let id := m_ModelID row in
  if String.eqb id "" then m
  else
    let m := match byID m !! id with
             | Some _ => m
             | None => mkMerged (order m ++ [id]) (<[id := minimal_model id]> (byID m)) (validMetadata m)
                         (corruptMetadata m)
             end in
    if bool_decide (m_Metadata row = None) || bool_decide (id ∈ validMetadata m) then m
    else match decodeModelMetadata (m_Metadata row) id with
         | None => mkMerged (order m) (byID m) (validMetadata m) ({[id]} ∪ corruptMetadata m)
         | Some model =>
             mkMerged (order m) (<[id := model]> (byID m)) ({[id]} ∪ validMetadata m) (corruptMetadata m)
         end.

Definition mergeAccountModelRows (l : list AccountModel) : list obj * Z :=
  let m := foldl merge_row no_models l in
  ((fun id => default ∅ (byID m !! id)) <$> order m,
   Z.of_nat (size (corruptMetadata m ∖ validMetadata m))).

(** [openAIModelsListResponse]. *)
Definition models_list (l : list obj) : result error string :=
  let data := AArr (AMap <$> l) in
  if encodable data then Ok (Marshal (JObj [("object", JStr "list"); ("data", json_of data)]))
  else Err (New "json: unsupported value").

Definition modelsUnionCacheMetadata (classes : list string) (modelCount degraded : Z) : obj :=
  {["models_union" := AMap (list_to_map
      [("source", AStr "account_models_cache"); ("account_count", AInt (Z.of_nat (List.length classes)));
       ("credential_classes", AArr (AStr <$> classes)); ("model_count", AInt modelCount);
       ("model_routing_bound", ABool true); ("degraded_metadata_count", AInt degraded)])]}.

End models.
