(* ===== verification/AccountModelsProofs.v ===== *)
(** * AccountModelsProofs: the model table and the list shown to clients *)

From S2P Require Import Prelude GoLib GoHTTP GoStrings GoJSON GoAny Errors Account Bridges.
From S2P Require Import CodexRequest ChatResponse AccountModels.

Import models.

(** ** The table *)

(** What the constraints of the table guarantee: the key is the row's, the
    source one of two. *)
Definition table_ok (t : table) : Prop :=
  forall k r, t !! k = Some r ->
    k = (m_AccountID r, m_ModelID r)
    /\ m_Source r ∈ [AccountModelSourceManual; AccountModelSourceUpstream].

Lemma elem_rows p t r : table_ok t -> r ∈ rows p t <-> t !! (m_AccountID r, m_ModelID r) = Some r /\ p r = true.
Proof.
  intros Hok. unfold rows. rewrite list_elem_of_In, List.filter_In, <- list_elem_of_In, list_elem_of_fmap. split.
  - intros [([k r'] & -> & Hin) Hp]. apply elem_of_map_to_list in Hin. cbn in *.
    by rewrite <- (proj1 (Hok k r' Hin)).
  - intros [Hl Hp]. split; [|done]. exists ((m_AccountID r, m_ModelID r), r). split; [done|].
    by apply elem_of_map_to_list.
Qed.

Lemma existsb_eqb_in (x : string) l : existsb (String.eqb x) l = true <-> x ∈ l.
Proof.
  rewrite existsb_exists. split; [intros (y & Hy & E); apply String.eqb_eq in E as ->; by apply list_elem_of_In|].
  intros Hx. exists x. split; [by apply list_elem_of_In|apply String.eqb_refl].
Qed.

(** ** Drafts *)

(** The first draft of an id. *)
Definition first_draft (id : string) (l : list AccountModelDraft) : option AccountModelDraft :=
  List.find (fun d => String.eqb (d_ID d) id) l.

Lemma dedup_find seen l id :
  id <> "" -> id ∉ seen -> first_draft id (dedup seen l) = first_draft id l.
Proof.
  revert seen. induction l as [|d l IH]; intros seen Hne Hs; [done|]. cbn [dedup first_draft List.find].
  destruct (String.eqb_spec (d_ID d) id) as [E|E].
  - rewrite E. destruct (String.eqb_spec id ""); [done|].
    destruct (existsb (String.eqb id) seen) eqn:Ex; [by apply existsb_eqb_in in Ex|]. cbn [orb List.find first_draft].
    by rewrite E, String.eqb_refl.
  - destruct (_ || _); [by apply IH|]. cbn [first_draft List.find]. rewrite (proj2 (String.eqb_neq _ _) E).
    apply IH; [done|]. rewrite elem_of_cons. intros [?|?]; [congruence|done].
Qed.

Lemma dedup_ids seen l :
  NoDup (d_ID <$> dedup seen l) /\ Forall (fun id => id <> "" /\ id ∉ seen) (d_ID <$> dedup seen l).
Proof.
  revert seen. induction l as [|d l IH]; intros seen; cbn [dedup]; [by repeat constructor|].
  destruct (String.eqb_spec (d_ID d) "") as [E|E]; cbn [orb]; [apply IH|].
  destruct (existsb (String.eqb (d_ID d)) seen) eqn:Ex; [apply IH|].
  assert (d_ID d ∉ seen) as Hs by (intros H; apply existsb_eqb_in in H; congruence).
  destruct (IH (d_ID d :: seen)) as [Hn Hf]. rewrite Forall_forall in Hf. cbn [fmap list_fmap]. split.
  - constructor; [|done]. intros H. apply Hf in H as [_ H]. apply H. by left.
  - constructor; [done|]. apply Forall_forall. intros x Hx. apply Hf in Hx as [? Hx]. split; [done|].
    intros Hin. apply Hx. by right.
Qed.

Lemma find_cons_ne id d l : d_ID d <> id -> first_draft id (d :: l) = first_draft id l.
Proof. intros E. unfold first_draft. cbn. by rewrite (proj2 (String.eqb_neq _ _) E). Qed.

Lemma find_cons_eq d l : first_draft (d_ID d) (d :: l) = Some d.
Proof. unfold first_draft. cbn. by rewrite String.eqb_refl. Qed.

Lemma find_none id l : id ∉ d_ID <$> l -> first_draft id l = None.
Proof.
  induction l as [|d l IH]; [done|]. cbn [fmap list_fmap]. rewrite not_elem_of_cons. intros [? ?].
  rewrite find_cons_ne by done. by apply IH.
Qed.

(** The drafts of the ids for which [keep] holds. *)
Lemma find_filter (keep : string -> bool) id l :
  first_draft id (List.filter (fun d => keep (d_ID d)) l) = if keep id then first_draft id l else None.
Proof.
  induction l as [|d l IH]; cbn [List.filter]; [by destruct (keep id)|].
  destruct (String.eqb_spec (d_ID d) id) as [<-|E].
  - rewrite find_cons_eq. destruct (keep (d_ID d)) eqn:Ek; [by rewrite find_cons_eq|]. rewrite IH. done.
  - rewrite (find_cons_ne id d l) by done. destruct (keep (d_ID d)); [rewrite find_cons_ne by done|]; exact IH.
Qed.

(** ** Replacing the upstream rows *)

(** What a refresh leaves of a manual row. *)
Definition refreshed (now : time) (draft : option AccountModelDraft) (r : AccountModel) : AccountModel :=
  match draft ≫= (fun d => draftMetadataString (d_Metadata d)) with
  | Some m => r <| m_Metadata := Some m |> <| m_UpdatedAt := now |>
  | None => r
  end.

Section replace.
Context (fault : nat -> option error) (unique_violation : error) (now : time) (accountID : Z).

Lemma statement_ok {A} i what (x y : A) : statement fault i what x = Ok y -> y = x.
Proof. unfold statement. by destruct (fault i); intros [=]. Qed.

Lemma delete_upstream_lookup k t :
  table_ok t ->
  delete_upstream accountID t !! k
  = match t !! k with
    | Some r => if (fst k =? accountID) && String.eqb (m_Source r) AccountModelSourceUpstream then None else Some r
    | None => None
    end.
Proof.
  intros Hok. unfold delete_upstream. rewrite map_lookup_filter. destruct (t !! k) as [r|] eqn:E; cbn; [|done].
  pose proof (proj1 (Hok _ _ E)) as ->. unfold is_source. cbn.
  destruct ((m_AccountID r =? accountID) && _) eqn:Eb; [by rewrite option_guard_False|by rewrite option_guard_True].
Qed.

Lemma apply_drafts_ok manualIDs i l t t' toInsert i' :
  apply_drafts fault now accountID manualIDs i l t = Ok (t', toInsert, i') -> NoDup (d_ID <$> l) ->
  toInsert = List.filter (fun d => negb (existsb (String.eqb (d_ID d)) manualIDs)) l
  /\ forall k, t' !! k = if (fst k =? accountID) && existsb (String.eqb (snd k)) manualIDs
                         then (fun r => if String.eqb (m_Source r) AccountModelSourceManual
                                        then refreshed now (first_draft (snd k) l) r else r) <$> t !! k
                         else t !! k.
Proof.
  revert i t t' toInsert i'. induction l as [|d l IH]; intros i t t' toInsert i' Ha Hn; cbn [apply_drafts] in Ha.
  { simplify_eq. split; [done|]. intros k. case_match; [|done].
    destruct (t' !! k) as [r|]; [|done]. cbn. by destruct (String.eqb _ _). }
  cbn [fmap list_fmap] in Hn. apply NoDup_cons in Hn as [Hd Hn].
  assert (forall id, id <> d_ID d -> first_draft id (d :: l) = first_draft id l) as Hne
    by (intros; by apply find_cons_ne).
  cbn [List.filter]. destruct (existsb (String.eqb (d_ID d)) manualIDs) eqn:Em; cbn [negb].
  - destruct (draftMetadataString (d_Metadata d)) as [m|] eqn:Edm.
    + destruct (statement fault i _ tt) as [[]|]; [|done]. cbn in Ha. destruct (IH _ _ _ _ _ Ha Hn) as [-> Hl]. split; [done|].
      intros [a id]. rewrite Hl. cbn [fst snd].
      destruct (Z.eqb_spec a accountID) as [->|Ha']; cbn [andb]; [|by rewrite lookup_alter_ne by congruence].
      destruct (String.eqb_spec id (d_ID d)) as [->|Hid].
      * rewrite Em, lookup_alter, decide_True by done. rewrite find_cons_eq, (find_none (d_ID d) l) by done.
        destruct (t !! (accountID, d_ID d)) as [r|]; [|done]. cbn. f_equal. unfold refreshed. cbn. rewrite Edm.
        destruct (String.eqb (m_Source r) AccountModelSourceManual) eqn:Es; cbn; by rewrite ?Es.
      * rewrite lookup_alter_ne by congruence. case_match; [|done]. by rewrite (Hne id).
    + destruct (IH _ _ _ _ _ Ha Hn) as [-> Hl]. split; [done|]. intros [a id]. rewrite Hl. cbn [fst snd].
      destruct (String.eqb_spec id (d_ID d)) as [->|Hid]; [|by rewrite (Hne id)].
      case_match; [|done]. rewrite find_cons_eq, find_none by done. destruct (t !! _) as [r|]; [|done].
      unfold refreshed. cbn. by rewrite Edm.
  - destruct (apply_drafts _ _ _ _ _ _ _) as [[[t2 ins] j]|] eqn:E2; [|done]. cbn in Ha. simplify_eq.
    destruct (IH _ _ _ _ _ E2 Hn) as [-> Hl]. split; [done|]. intros [a id]. rewrite Hl. cbn [fst snd].
    destruct (String.eqb_spec id (d_ID d)) as [->|Hid]; [by rewrite Em, andb_false_r|by rewrite (Hne id)].
Qed.

(** The row inserted for a draft. *)
Definition upstream_row (d : AccountModelDraft) (r : AccountModel) : Prop :=
  exists id, r = new_row now accountID (d_ID d) AccountModelSourceUpstream (draftMetadataString (d_Metadata d)) id.

Lemma insert_all_ok ids l t t' :
  insert_all unique_violation now accountID ids l t = Ok t' -> NoDup (d_ID <$> l) ->
  forall k, match (if fst k =? accountID then first_draft (snd k) l else None) with
            | Some d => t !! k = None /\ exists r, t' !! k = Some r /\ upstream_row d r
            | None => t' !! k = t !! k
            end.
Proof.
  revert ids t. induction l as [|d l IH]; intros ids t Hi Hn k; cbn [insert_all] in Hi.
  { simplify_eq. by destruct (fst k =? accountID). }
  apply NoDup_cons in Hn as [Hd Hn]. destruct (t !! (accountID, d_ID d)) eqn:E; [done|].
  specialize (IH _ _ Hi Hn k). destruct k as [a id]. cbn [fst snd] in *.
  destruct (Z.eqb_spec a accountID) as [->|Ha]; [|by rewrite lookup_insert_ne in IH by congruence].
  destruct (String.eqb_spec (d_ID d) id) as [<-|Hid].
  - rewrite find_cons_eq. rewrite (find_none (d_ID d) l) in IH by done. split; [done|].
    rewrite lookup_insert, decide_True in IH by done. rewrite IH. eexists. split; [done|]. by eexists.
  - rewrite find_cons_ne by done. by rewrite lookup_insert_ne in IH by congruence.
Qed.

(** Without faults no constraint is in the way. *)
Lemma insert_all_succeeds ids l t :
  NoDup (d_ID <$> l) -> (forall d, d ∈ l -> t !! (accountID, d_ID d) = None) ->
  exists t', insert_all unique_violation now accountID ids l t = Ok t'.
Proof.
  revert ids t. induction l as [|d l IH]; intros ids t Hn Hf; cbn [insert_all]; [by eexists|].
  apply NoDup_cons in Hn as [Hd Hn]. rewrite (Hf d) by (by left). apply IH; [done|]. intros d' Hd'.
  rewrite lookup_insert_ne; [apply Hf; by right|]. intros [= E]. apply Hd. rewrite E. by apply list_elem_of_fmap_2.
Qed.

End replace.

Lemma row_ids_nodup acc source t :
  table_ok t -> NoDup (m_ModelID <$> rows (is_source acc source) t).
Proof.
  intros Hok. unfold rows. pose proof (NoDup_fst_map_to_list t) as Hn.
  assert (forall k r, (k, r) ∈ map_to_list t -> k = (m_AccountID r, m_ModelID r)) as Hk
    by (intros k r Hin; apply elem_of_map_to_list in Hin; by apply Hok).
  induction (map_to_list t) as [|[k r] l IH]; [constructor|]. cbn [fmap list_fmap fst snd] in *.
  apply NoDup_cons in Hn as [Hnot Hn].
  assert (NoDup (m_ModelID <$> List.filter (is_source acc source) (snd <$> l))) as IHl
    by (apply IH; [done|]; intros; apply Hk; by right).
  cbn [List.filter]. destruct (is_source acc source r) eqn:Es; [|done]. cbn [fmap list_fmap]. constructor; [|done].
  intros Hin. apply list_elem_of_fmap in Hin as (r' & E & Hin). apply list_elem_of_In, List.filter_In in Hin as [Hin Es'].
  apply list_elem_of_In, list_elem_of_fmap in Hin as ([k' r''] & -> & Hin). apply Hnot.
  pose proof (Hk k r (list_elem_of_here _ _)) as ->. cbn in *.
  pose proof (Hk k' r'' (list_elem_of_further _ _ _ Hin)) as ->.
  unfold is_source in Es, Es'. breflect.
  assert ((m_AccountID r, m_ModelID r) = (m_AccountID r'', m_ModelID r'')) as -> by congruence.
  apply list_elem_of_fmap. by exists ((m_AccountID r'', m_ModelID r''), r'').
Qed.

Lemma elem_row_ids acc source t id :
  table_ok t ->
  id ∈ m_ModelID <$> rows (is_source acc source) t
  <-> exists r, t !! (acc, id) = Some r /\ m_Source r = source.
Proof.
  intros Hok. rewrite list_elem_of_fmap. split.
  - intros (r & -> & Hin). apply elem_rows in Hin as [Hl Hs]; [|done]. unfold is_source in Hs. breflect. subst. by exists r.
  - intros (r & Hl & Hs). destruct (Hok _ _ Hl) as [[= -> ->] _]. exists r. split; [done|]. apply elem_rows; [done|].
    split; [done|]. unfold is_source. by rewrite Z.eqb_refl, Hs, String.eqb_refl.
Qed.

Definition manual_at (acc : Z) (t : table) (id : string) : option AccountModel :=
  r ← t !! (acc, id);
  if String.eqb (m_Source r) AccountModelSourceManual then Some r else None.

(** A table after the upstream rows of an account were replaced: the other
    accounts' rows are as before; each manual row is kept, with the first
    draft's metadata if it has any; the other rows are one for each other id
    of the drafts, from its first draft. *)
Definition replaced (now : time) (acc : Z) (drafts : list AccountModelDraft) (t t' : table) : Prop :=
  (forall k, fst k <> acc -> t' !! k = t !! k)
  /\ forall id,
       match manual_at acc t id, first_draft id (dedup [] drafts) with
       | Some r, draft => t' !! (acc, id) = Some (refreshed now draft r)
       | None, Some d => exists r, t' !! (acc, id) = Some r /\ upstream_row now acc d r
       | None, None => t' !! (acc, id) = None
       end.

Lemma first_draft_id id l d : first_draft id l = Some d -> d_ID d = id /\ d ∈ l.
Proof.
  intros Hf. apply List.find_some in Hf as [Hin E]. apply String.eqb_eq in E. split; [done|by apply list_elem_of_In].
Qed.

Lemma refreshed_fields now d r :
  m_AccountID (refreshed now d r) = m_AccountID r /\ m_ModelID (refreshed now d r) = m_ModelID r
  /\ m_Source (refreshed now d r) = m_Source r.
Proof. unfold refreshed. by destruct (d ≫= _). Qed.

Lemma replaced_ok now acc drafts t t' : table_ok t -> replaced now acc drafts t t' -> table_ok t'.
Proof.
  intros Hok [Hother Hacc] [a id] r Hl. destruct (decide (a = acc)) as [->|Ha].
  2:{ apply Hok. rewrite <- Hother; done. }
  specialize (Hacc id). destruct (manual_at acc t id) as [r0|] eqn:Em.
  - rewrite Hacc in Hl. simplify_eq. unfold manual_at in Em. destruct (t !! (acc, id)) as [r1|] eqn:E0; [|done].
    cbn in Em. destruct (String.eqb _ _); [|done]. simplify_eq. destruct (Hok _ _ E0) as [E1 E2].
    by destruct (refreshed_fields now (first_draft id (dedup [] drafts)) r0) as (-> & -> & ->).
  - destruct (first_draft id _) as [d|] eqn:Ed; [|congruence]. destruct Hacc as (r' & E & rid & Hu).
    rewrite Hl in E. injection E as ->. subst r'. apply first_draft_id in Ed as [<- _]. split; [done|]. cbn. right. left.
Qed.

Lemma manual_at_in acc t id :
  table_ok t ->
  existsb (String.eqb id) (m_ModelID <$> rows (is_source acc AccountModelSourceManual) t) = isSome (manual_at acc t id).
Proof.
  intros Hok. apply eq_true_iff_eq. rewrite existsb_eqb_in, elem_row_ids by done. unfold manual_at. split.
  - intros (r & -> & E). cbn. by rewrite E.
  - destruct (t !! (acc, id)) as [r|]; [|done]. cbn. destruct (String.eqb_spec (m_Source r) AccountModelSourceManual);
      [|done]. by exists r.
Qed.

Lemma filter_ids_nodup p l : NoDup (d_ID <$> l) -> NoDup (d_ID <$> List.filter p l).
Proof.
  induction l as [|d l IH]; [done|]. cbn [fmap list_fmap List.filter]. intros Hn. apply NoDup_cons in Hn as [Hd Hn].
  destruct (p d); [|by apply IH]. cbn [fmap list_fmap]. constructor; [|by apply IH]. intros Hin. apply Hd.
  apply list_elem_of_fmap in Hin as (d' & -> & Hin). apply list_elem_of_fmap_2.
  apply list_elem_of_In, List.filter_In in Hin as [Hin _]. by apply list_elem_of_In.
Qed.

(** The steps of a transaction that got through. *)
Lemma replace_tx_steps fault uv now ids acc drafts t added kept t' :
  table_ok t -> replace_tx fault uv now ids acc drafts t = Ok (added, kept, t') ->
  exists i t2 i',
    let manualIDs := m_ModelID <$> rows (is_source acc AccountModelSourceManual) t in
    let ins := List.filter (fun d => negb (existsb (String.eqb (d_ID d)) manualIDs)) (dedup [] drafts) in
    apply_drafts fault now acc manualIDs i (dedup [] drafts) (delete_upstream acc t) = Ok (t2, ins, i')
    /\ insert_all uv now acc ids ins t2 = Ok t'
    /\ added = Z.of_nat (List.length ins)
    /\ kept = Z.of_nat (List.length (rows (is_source acc AccountModelSourceManual) t)).
Proof.
  intros Hok Htx. unfold replace_tx in Htx.
  destruct (statement fault 0 _ _); [|done]. cbn [mbind result_bind] in Htx.
  destruct (statement fault 1 _ _) as [manual|] eqn:E1; [|done]. apply statement_ok in E1 as ->.
  cbn [mbind result_bind] in Htx.
  destruct (statement fault 2 _ _) as [t1|] eqn:E2; [|done]. apply statement_ok in E2 as ->.
  cbn [mbind result_bind] in Htx.
  destruct (apply_drafts _ _ _ _ _ _ _) as [[[t2 ins] i]|] eqn:E3; [|done]. cbn [mbind result_bind] in Htx.
  exists 3%nat, t2, i. cbv zeta.
  destruct (apply_drafts_ok _ _ _ _ _ _ _ _ _ _ E3 (proj1 (dedup_ids [] drafts))) as [Ei _].
  rewrite <- Ei. split; [done|]. clear Ei E3. destruct ins as [|d ins].
  { cbn [mbind result_bind] in Htx. by simplify_eq. }
  destruct (statement fault i _ _); [|done]. cbn [mbind result_bind] in Htx.
  destruct (insert_all _ _ _ _ _ _); [|done]. cbn [mbind result_bind] in Htx. by simplify_eq.
Qed.

Lemma replace_tx_replaced fault uv now ids acc drafts t added kept t' :
  table_ok t -> replace_tx fault uv now ids acc drafts t = Ok (added, kept, t') -> replaced now acc drafts t t'.
Proof.
  intros Hok Htx. destruct (replace_tx_steps _ _ _ _ _ _ _ _ _ _ Hok Htx) as (i & t2 & i' & E3 & E4 & _ & _).
  destruct (dedup_ids [] drafts) as [Hnd _]. destruct (apply_drafts_ok _ _ _ _ _ _ _ _ _ _ E3 Hnd) as [_ Hl2].
  pose proof (insert_all_ok _ _ _ _ _ _ _ E4 (filter_ids_nodup _ _ Hnd)) as Hl3. clear E3 E4. split.
  - intros k Hk. specialize (Hl3 k). specialize (Hl2 k). apply Z.eqb_neq in Hk.
    rewrite Hk in Hl3, Hl2. cbn [andb] in Hl2. rewrite Hl3, Hl2, delete_upstream_lookup, Hk by done. by destruct (t !! k).
  - intros id. specialize (Hl3 (acc, id)). specialize (Hl2 (acc, id)). cbn [fst snd] in *.
    rewrite Z.eqb_refl in Hl3, Hl2. cbn [andb] in Hl2. rewrite delete_upstream_lookup in Hl2 by done. cbn [fst] in Hl2.
    rewrite Z.eqb_refl in Hl2. cbn [andb] in Hl2.
    rewrite (find_filter (fun id => negb (existsb (String.eqb id) _))) in Hl3.
    rewrite manual_at_in in Hl3, Hl2 by done. unfold manual_at in *.
    destruct (t !! (acc, id)) as [r|] eqn:E0; cbn [mbind option_bind isSome negb] in *.
    + destruct (Hok _ _ E0) as [_ Hs].
      unfold AccountModelSourceManual, AccountModelSourceUpstream in *.
      apply elem_of_cons in Hs as [Hs|Hs%list_elem_of_singleton]; rewrite Hs in Hl2, Hl3 |- *; cbn in Hl2, Hl3 |- *.
      * by rewrite Hl3, Hl2, Hs.
      * destruct (first_draft id _); [by destruct Hl3 as [_ ?]|by rewrite Hl3].
    + destruct (first_draft id _); [by destruct Hl3 as [_ ?]|by rewrite Hl3].
Qed.

Lemma first_draft_in l d : NoDup (d_ID <$> l) -> d ∈ l -> first_draft (d_ID d) l = Some d.
Proof.
  induction l as [|x l IH]; intros Hn Hd; [by inversion Hd|]. apply NoDup_cons in Hn as [Hx Hn].
  apply elem_of_cons in Hd as [->|Hd]; [apply find_cons_eq|].
  rewrite find_cons_ne; [by apply IH|]. intros E. apply Hx. rewrite E. by apply list_elem_of_fmap_2.
Qed.

Lemma NoDup_same_length {A} (l k : list A) : NoDup l -> NoDup k -> (forall x, x ∈ l <-> x ∈ k) -> List.length l = List.length k.
Proof. intros. by apply Permutation_length, NoDup_Permutation. Qed.

(** The number of added rows is that of the account's upstream rows. *)
Lemma replaced_count now acc drafts t t' :
  table_ok t -> replaced now acc drafts t t' ->
  List.length (List.filter (fun d => negb (existsb (String.eqb (d_ID d))
                 (m_ModelID <$> rows (is_source acc AccountModelSourceManual) t))) (dedup [] drafts))
  = List.length (rows (is_source acc AccountModelSourceUpstream) t').
Proof.
  intros Hok Hr. pose proof (replaced_ok _ _ _ _ _ Hok Hr) as Hok'.
  rewrite <- (length_fmap m_ModelID (rows _ t')), <- (length_fmap d_ID).
  apply NoDup_same_length; [apply filter_ids_nodup, dedup_ids|by apply row_ids_nodup|]. intros id.
  rewrite elem_row_ids by done. destruct Hr as [_ Hacc]. specialize (Hacc id). rewrite list_elem_of_fmap.
  split.
  - intros (d & -> & Hd). apply list_elem_of_In, List.filter_In in Hd as [Hd Hm]. apply list_elem_of_In, (first_draft_in _ _ (proj1 (dedup_ids [] drafts))) in Hd.
    rewrite manual_at_in in Hm by done. destruct (manual_at acc t (d_ID d)); [done|]. rewrite Hd in Hacc.
    destruct Hacc as (r & -> & rid & ->). by eexists.
  - intros (r & Hl & Hs). destruct (manual_at acc t id) as [r0|] eqn:Em.
    + rewrite Hacc in Hl. simplify_eq. destruct (refreshed_fields now (first_draft id (dedup [] drafts)) r0) as (_ & _ & E).
      rewrite E in Hs. unfold manual_at in Em. destruct (t !! (acc, id)); [|done]. cbn in Em.
      destruct (String.eqb_spec (m_Source a) AccountModelSourceManual) as [E1|]; [|done].
      injection Em as ->. rewrite E1 in Hs. discriminate Hs.
    + destruct (first_draft id _) as [d|] eqn:Ed; [|congruence]. destruct (first_draft_id _ _ _ Ed) as [<- Hin].
      exists d. split; [done|]. apply list_elem_of_In, List.filter_In. split; [by apply list_elem_of_In|].
      rewrite manual_at_in by done. by rewrite Em.
Qed.

Lemma replaced_manual now acc drafts t t' :
  table_ok t -> replaced now acc drafts t t' ->
  List.length (rows (is_source acc AccountModelSourceManual) t)
  = List.length (rows (is_source acc AccountModelSourceManual) t').
Proof.
  intros Hok Hr. pose proof (replaced_ok _ _ _ _ _ Hok Hr) as Hok'.
  rewrite <- (length_fmap m_ModelID (rows _ t')), <- (length_fmap m_ModelID (rows _ t)).
  apply NoDup_same_length; [by apply row_ids_nodup..|]. intros id. rewrite !elem_row_ids by done.
  destruct Hr as [_ Hacc]. specialize (Hacc id). split.
  - intros (r & Hl & Hs). unfold manual_at in Hacc. rewrite Hl in Hacc. cbn in Hacc. rewrite Hs in Hacc. cbn in Hacc.
    rewrite Hacc. eexists. split; [done|]. by destruct (refreshed_fields now (first_draft id (dedup [] drafts)) r) as (_ & _ & ->).
  - intros (r & Hl & Hs). unfold manual_at in Hacc. destruct (t !! (acc, id)) as [r0|] eqn:E0.
    + destruct (String.eqb_spec (m_Source r0) AccountModelSourceManual) as [E1|E1]; [by exists r0|].
      cbn in Hacc. apply String.eqb_neq in E1. rewrite E1 in Hacc. destruct (first_draft id _); [|congruence].
      destruct Hacc as (r' & E & rid & ->). rewrite Hl in E. injection E as ->. discriminate Hs.
    + cbn in Hacc. destruct (first_draft id _); [|congruence]. destruct Hacc as (r' & E & rid & ->).
      rewrite Hl in E. injection E as ->. discriminate Hs.
Qed.

(** With no fault the transaction gets through: no constraint is violated. *)
Lemma statement_succeeds {A} fault i what (x : A) : (forall i, fault i = None) -> statement fault i what x = Ok x.
Proof. intros Hf. unfold statement. by rewrite Hf. Qed.

Lemma apply_drafts_succeeds fault now acc manualIDs i l t :
  (forall i, fault i = None) -> is_ok (apply_drafts fault now acc manualIDs i l t) = true.
Proof.
  intros Hf. revert i t. induction l as [|d l IH]; intros i t; cbn [apply_drafts]; [done|].
  destruct (existsb _ _);
    [destruct (draftMetadataString _); [rewrite statement_succeeds by done|]; apply IH|].
  specialize (IH i t). by destruct (apply_drafts _ _ _ _ _ _ _) as [[[? ?] ?]|].
Qed.

Lemma replace_tx_succeeds fault uv now ids acc drafts t :
  (forall i, fault i = None) -> table_ok t -> is_ok (replace_tx fault uv now ids acc drafts t) = true.
Proof.
  intros Hf Hok. unfold replace_tx. rewrite !statement_succeeds by done. cbn [mbind result_bind].
  destruct (apply_drafts _ _ _ _ _ _ _) as [[[t2 ins] i]|] eqn:E3.
  2:{ pose proof (apply_drafts_succeeds fault now acc (m_ModelID <$> rows (is_source acc AccountModelSourceManual) t) 3
                    (dedup [] drafts) (delete_upstream acc t) Hf) as Hs. by rewrite E3 in Hs. }
  cbn [mbind result_bind]. destruct (apply_drafts_ok _ _ _ _ _ _ _ _ _ _ E3 (proj1 (dedup_ids [] drafts))) as [-> Hl2].
  set (ins := List.filter _ _). assert (exists t3, insert_all uv now acc ids ins t2 = Ok t3) as [t3 E4].
  { apply insert_all_succeeds; [apply filter_ids_nodup, dedup_ids|]. intros d Hd.
    apply list_elem_of_In, List.filter_In in Hd as [_ Hd]. rewrite Hl2. cbn [fst snd]. rewrite Z.eqb_refl. cbn [andb].
    rewrite (proj1 (negb_true_iff _) Hd), delete_upstream_lookup by done. cbn [fst]. rewrite Z.eqb_refl. cbn [andb].
    rewrite manual_at_in in Hd by done. unfold manual_at in Hd. destruct (t !! _) as [r|] eqn:E0; [|done]. cbn in Hd.
    destruct (Hok _ _ E0) as [_ Hs]. apply elem_of_cons in Hs as [Hs|Hs%list_elem_of_singleton]; rewrite Hs in Hd |- *; done. }
  destruct ins; [done|]. rewrite statement_succeeds by done. cbn [mbind result_bind]. by rewrite E4.
Qed.


(** ** The merged list *)

(** What a row says of a model. *)
Definition row_object (id : string) (r : AccountModel) : option obj :=
  if String.eqb (m_ModelID r) id then decodeModelMetadata (m_Metadata r) id else None.

(** The first readable metadata of a model. *)
Definition first_object (id : string) (l : list AccountModel) : option obj := head (omap (row_object id) l).

(** Some row of the model has metadata. *)
Definition has_metadata (id : string) (l : list AccountModel) : bool :=
  existsb (fun r => String.eqb (m_ModelID r) id && isSome (m_Metadata r)) l.

Lemma first_object_snoc id l r :
  first_object id (l ++ [r]) = match first_object id l with Some o => Some o | None => row_object id r end.
Proof.
  unfold first_object. rewrite omap_app. destruct (omap (row_object id) l); cbn; [by destruct (row_object id r)|done].
Qed.

Lemma has_metadata_snoc id l r :
  has_metadata id (l ++ [r]) = has_metadata id l || (String.eqb (m_ModelID r) id && isSome (m_Metadata r)).
Proof. unfold has_metadata. rewrite existsb_app. cbn. by rewrite orb_false_r. Qed.

Record merge_inv (l : list AccountModel) (m : merged) : Prop := {
  inv_nodup : NoDup (order m);
  inv_named : "" ∉ corruptMetadata m;
  inv_order id : id ∈ order m <-> id <> "" /\ id ∈ m_ModelID <$> l;
  inv_byID id : byID m !! id = if bool_decide (id ∈ order m)
                               then Some (default (minimal_model id) (first_object id l)) else None;
  inv_valid id : id ∈ validMetadata m <-> id <> "" /\ is_Some (first_object id l);
  inv_corrupt id : first_object id l = None -> id ∈ corruptMetadata m <-> id <> "" /\ has_metadata id l = true }.

Lemma in_ids_snoc id l r : id ∈ m_ModelID <$> (l ++ [r]) <-> id ∈ m_ModelID <$> l \/ id = m_ModelID r.
Proof.
  rewrite fmap_app, elem_of_app. change (m_ModelID <$> [r]) with [m_ModelID r]. by rewrite list_elem_of_singleton.
Qed.

(** A model is added once. *)
Lemma merge_new l m r :
  merge_inv l m -> m_ModelID r <> "" ->
  let m1 := match byID m !! m_ModelID r with
            | Some _ => m
            | None => mkMerged (order m ++ [m_ModelID r]) (<[m_ModelID r := minimal_model (m_ModelID r)]> (byID m))
                        (validMetadata m) (corruptMetadata m)
            end in
  NoDup (order m1) /\ (forall id, id ∈ order m1 <-> id <> "" /\ id ∈ m_ModelID <$> (l ++ [r]))
  /\ (forall id, byID m1 !! id = if bool_decide (id ∈ order m1)
                                 then Some (default (minimal_model id) (first_object id l)) else None)
  /\ validMetadata m1 = validMetadata m /\ corruptMetadata m1 = corruptMetadata m.
Proof.
  intros [Hn _ Ho Hb Hv Hc] Hne. cbv zeta. set (i := m_ModelID r) in *. pose proof (Hb i) as Hi.
  destruct (byID m !! i) as [o|] eqn:E.
  - assert (i ∈ order m) as Hin by (by case_bool_decide). split; [done|]. split; [|done]. intros id.
    rewrite in_ids_snoc, Ho. fold i. split; [naive_solver|].
    intros [? [?| ->]]; [done|by apply Ho].
  - assert (i ∉ order m) as Hin by (by case_bool_decide). cbn [order byID validMetadata corruptMetadata].
    split; [apply NoDup_app; split; [done|]; split; [|by apply NoDup_singleton]; intros x Hx; 
            rewrite list_elem_of_singleton; congruence|].
    split; [intros id; rewrite in_ids_snoc, elem_of_app, Ho, list_elem_of_singleton; fold i; naive_solver|].
    split; [|done]. intros id. destruct (decide (id = i)) as [->|Hid].
    + rewrite lookup_insert, decide_True, bool_decide_true by (done || set_solver).
      assert (first_object i l = None) as ->; [|done]. unfold first_object.
      destruct (omap (row_object i) l) as [|o os] eqn:Eo; [done|].
      assert (o ∈ omap (row_object i) l) as Ho' by (rewrite Eo; left).
      apply list_elem_of_omap in Ho' as (r' & Hr' & Hro). unfold row_object in Hro.
      destruct (String.eqb_spec (m_ModelID r') i) as [Er|]; [|done]. exfalso. apply Hin, Ho. split; [done|].
      rewrite <- Er. by apply list_elem_of_fmap_2.
    + rewrite lookup_insert_ne, Hb by done. 
      rewrite (bool_decide_ext (id ∈ order m ++ [i]) (id ∈ order m)) by set_solver. done.
Qed.

Lemma row_object_self r : row_object (m_ModelID r) r = decodeModelMetadata (m_Metadata r) (m_ModelID r).
Proof. unfold row_object. by rewrite String.eqb_refl. Qed.

Lemma row_object_other id r : m_ModelID r <> id -> row_object id r = None.
Proof. intros E. unfold row_object. by rewrite (proj2 (String.eqb_neq _ _) E). Qed.

(** What a row that adds nothing leaves. *)
Lemma merge_same l m m1 r :
  merge_inv l m -> m_ModelID r <> "" ->
  NoDup (order m1) -> (forall id, id ∈ order m1 <-> id <> "" /\ id ∈ m_ModelID <$> (l ++ [r])) ->
  (forall id, byID m1 !! id = if bool_decide (id ∈ order m1)
                              then Some (default (minimal_model id) (first_object id l)) else None) ->
  validMetadata m1 = validMetadata m -> corruptMetadata m1 = corruptMetadata m ->
  first_object (m_ModelID r) (l ++ [r]) = first_object (m_ModelID r) l ->
  (first_object (m_ModelID r) l = None -> m_Metadata r = None) ->
  merge_inv (l ++ [r]) m1.
Proof.
  intros Hinv Hne H1 H2 H3 H4 H5 H6 H7.
  assert (forall id, first_object id (l ++ [r]) = first_object id l) as Hf.
  { intros id. destruct (decide (m_ModelID r = id)) as [<-|E]; [done|].
    rewrite first_object_snoc, row_object_other by done. by destruct (first_object id l). }
  constructor; [done|rewrite H5; apply Hinv|done|..]; intros id; rewrite Hf; [done|rewrite H4; apply Hinv|].
  rewrite H5, has_metadata_snoc. intros E. rewrite (inv_corrupt _ _ Hinv id E).
  destruct (String.eqb_spec (m_ModelID r) id) as [<-|]; [rewrite H7 by done|]; cbn; by rewrite orb_false_r.
Qed.

Lemma merge_row_inv l m r : merge_inv l m -> merge_inv (l ++ [r]) (merge_row m r).
Proof.
  intros Hinv. unfold merge_row. destruct (String.eqb_spec (m_ModelID r) "") as [E|Hne].
  { assert (forall id, id <> "" -> first_object id (l ++ [r]) = first_object id l) as Hf.
    { intros id Hid. rewrite first_object_snoc, row_object_other by congruence. by destruct (first_object id l). }
    destruct Hinv as [Hn Hne Ho Hb Hv Hc]. constructor; [done|done|..]; intros id.
    - rewrite in_ids_snoc, Ho, E. naive_solver.
    - rewrite Hb. case_bool_decide as Hin; [|done]. rewrite Hf; [done|by apply Ho].
    - rewrite Hv. destruct (decide (id = "")) as [->|]; [naive_solver|by rewrite Hf].
    - destruct (decide (id = "")) as [->|Hid]; [|rewrite Hf by done; intros Hd; rewrite (Hc id Hd), has_metadata_snoc, E].
      + intros Hd. rewrite first_object_snoc in Hd. destruct (first_object "" l) eqn:Ef; [done|]. rewrite (Hc "" Ef). naive_solver.
      + rewrite (proj2 (String.eqb_neq "" id)) by done. cbn. by rewrite orb_false_r. }
  destruct (merge_new l m r Hinv Hne) as (H1 & H2 & H3 & H4 & H5). cbv zeta in *.
  set (m1 := match byID m !! m_ModelID r with Some _ => m | None => _ end) in *. clearbody m1.
  destruct (decide (m_Metadata r = None)) as [Em|Em].
  { rewrite bool_decide_true by done. cbn [orb]. eapply merge_same; eauto.
    rewrite first_object_snoc, row_object_self, Em. by destruct (first_object _ l). }
  rewrite (bool_decide_false (m_Metadata r = None)) by done. cbn [orb]. rewrite H4.
  destruct (first_object (m_ModelID r) l) as [o|] eqn:Ef.
  { rewrite bool_decide_true by (apply Hinv; by rewrite Ef). eapply merge_same; eauto; [|by rewrite Ef].
    by rewrite first_object_snoc, Ef. }
  rewrite bool_decide_false by (rewrite (inv_valid _ _ Hinv), Ef; intros [_ [? [=]]]).
  assert (forall id, first_object id (l ++ [r])
            = if String.eqb (m_ModelID r) id then decodeModelMetadata (m_Metadata r) id else first_object id l) as Hf.
  { intros id. rewrite first_object_snoc. unfold row_object.
    destruct (String.eqb_spec (m_ModelID r) id) as [<-|]; [by rewrite Ef|by destruct (first_object id l)]. }
  destruct (decodeModelMetadata (m_Metadata r) (m_ModelID r)) as [o|] eqn:Ed.
  - constructor; cbn [order byID validMetadata corruptMetadata]; [done|rewrite H5; apply Hinv|done|..]; intros id; rewrite ?Hf.
    + destruct (String.eqb_spec (m_ModelID r) id) as [<-|E].
      * rewrite lookup_insert, decide_True, Ed by done. rewrite bool_decide_true; [done|]. apply H2. split; [done|].
        apply in_ids_snoc. by right.
      * by rewrite lookup_insert_ne, H3 by done.
    + rewrite elem_of_union, elem_of_singleton, (inv_valid _ _ Hinv).
      destruct (String.eqb_spec (m_ModelID r) id) as [<-|E]; [rewrite Ed; naive_solver|naive_solver].
    + destruct (String.eqb_spec (m_ModelID r) id) as [<-|E]; [by rewrite Ed|]. intros Hd.
      rewrite H5, (inv_corrupt _ _ Hinv id Hd), has_metadata_snoc, (proj2 (String.eqb_neq _ _) E). cbn. by rewrite orb_false_r.
  - constructor; cbn [order byID validMetadata corruptMetadata];
      [done|rewrite H5, elem_of_union, elem_of_singleton; intros [E|E]; [congruence|by apply (inv_named _ _ Hinv)]|done|..]; intros id; rewrite ?Hf.
    + rewrite H3. destruct (String.eqb_spec (m_ModelID r) id) as [<-|E]; [by rewrite Ef, Ed|done].
    + rewrite (inv_valid _ _ Hinv). destruct (String.eqb_spec (m_ModelID r) id) as [<-|E]; [by rewrite Ef, Ed|done].
    + rewrite elem_of_union, elem_of_singleton, H5, has_metadata_snoc.
      destruct (String.eqb_spec (m_ModelID r) id) as [<-|E].
      * intros _. destruct (m_Metadata r); [|done]. cbn. rewrite orb_true_r. naive_solver.
      * intros Hd. rewrite (inv_corrupt _ _ Hinv id Hd). cbn. rewrite orb_false_r. naive_solver.
Qed.

(** The list shown to clients has each model the rows name once, in the
    order of their first rows, described by the first readable metadata of
    its rows or, without any, by its id alone; the models that have metadata,
    none of it readable, are counted as degraded. *)
Theorem merge_rows_spec l :
  let m := foldl merge_row no_models l in
  NoDup (order m)
  /\ (forall id, id ∈ order m <-> id <> "" /\ id ∈ m_ModelID <$> l)
  /\ fst (mergeAccountModelRows l) = (fun id => default (minimal_model id) (first_object id l)) <$> order m
  /\ snd (mergeAccountModelRows l)
     = Z.of_nat (List.length (List.filter (fun id => has_metadata id l && negb (isSome (first_object id l))) (order m))).
Proof.
  assert (merge_inv l (foldl merge_row no_models l)) as Hinv.
  { induction l as [|r l IH] using rev_ind; [|rewrite foldl_app; by apply merge_row_inv].
    constructor; cbn; [constructor|set_solver|..]; intros id; set_solver. }
  cbv zeta. unfold mergeAccountModelRows. cbn [fst snd]. set (m := foldl merge_row no_models l) in *.
  destruct Hinv as [Hn Hne Ho Hb Hv Hc]. split; [done|]. split; [done|]. split.
  - apply list_fmap_ext. intros i id Hid. apply list_elem_of_lookup_2 in Hid. by rewrite Hb, bool_decide_true by done.
  - f_equal. rewrite <- (size_list_to_set (C := gset string)).
    + apply set_size_proper. intros id. rewrite elem_of_difference, elem_of_list_to_set, list_elem_of_In, List.filter_In, <- list_elem_of_In.
      rewrite Hv. destruct (first_object id l) as [o|] eqn:Ef; cbn [isSome negb].
      * rewrite andb_false_r. split; [|by intros [_ ?]]. intros [Hin Hnv]. exfalso. apply Hnv.
        split; [by intros ->|done].
      * rewrite andb_true_r, (Hc id Ef), Ho. split; [intros [[? Hm] _]|intros [[? _] ?]; naive_solver].
        split; [|done]. split; [done|]. unfold has_metadata in Hm. apply existsb_exists in Hm as (r & Hr & Hm). breflect. subst id.
        apply list_elem_of_fmap_2. by apply list_elem_of_In.
    + apply NoDup_ListNoDup, List.NoDup_filter. by apply NoDup_ListNoDup.
Qed.
