(* ===== verification/Proxy.v ===== *)
(** * Proxy: serving a data-plane request
      (internal/api/proxy.go, proxy_models.go, session.go, errors.go)

    [ServeHTTP] as a function from the request to the list of its visible
    effects - the upstream requests it sends, the response it writes, the
    record it keeps, or a panic - and the new state of the account selector.
    The network, gzip, the clock, the request's context and the database are
    arguments, collected in [ProxyEnv]; reading, translating and adapting
    bodies is the code of the other files.  Client addresses, latencies and
    log lines are left out, and the WebSocket branch ends in an event that
    [WebSocket] continues. *)

From S2P Require Import Prelude GoLib GoURL GoHTTP GoStrings GoMime GoJSON GoAny GoBufio Errors Account Engine.
From S2P Require Import Store Selector Usage SSE CodexRequest ChatRequest GatewayRoutes Bridges Forwarder.
From S2P Require Import SystemOne GoRegexp Redaction AccountModels.

(** ** Data *)

Record Request := mkRequest {
  rq_Method : string; rq_Path : string; rq_RawQuery : string; rq_Headers : Header;
  rq_Body : option reader; rq_ContentLength : Z; rq_ID : string }.

Record RequestRecord := mkRequestRecord {
  rr_RequestID : string; rr_AccountID : option Z; rr_SessionKey : option string;
  rr_Method : string; rr_Path : string; rr_StatusCode : Z; rr_TTFTMs : option Z;
  rr_Outcome : string; rr_ErrorCode : option string;
  rr_Model : option string; rr_ModelParams : usage.JSONMap; rr_RouterMetadata : usage.JSONMap;
  rr_ResponseMode : string; rr_TokenUsage : usage.JSONMap;
  rr_ClientRequestBody : option string; rr_UpstreamRequestBody : option string;
  rr_UpstreamResponseBody : option string }.

(** What is written after the headers. *)
Inductive written :=
  | Bytes (body : string)
  | NativeError (Type_ Code Message : string)
  | Stream (cmds : list sse.wcmd).

Inductive event :=
  | ESend (u : UpstreamRequest)
  | EWrite (status : Z) (headers : Header) (body : written)
  | ERecord (r : RequestRecord)
  | EPanic
  | EWebSocket (route : gatewayRoute).

Record ModelRenameRule := mkModelRenameRule { From : string; To : string }.

Record AccountModelRepository := mkAccountModelRepository {
  AccountsWithModel : string -> result error (list Z);
  AccountsWithoutModels : result error (list Z);
  ListByAccounts : list Z -> result error (list AccountModel) }.

Record ProxyEnv := mkProxyEnv {
  maxRequestBody : Z;
  modelRename : option (list ModelRenameRule);
  accountModelRepo : option AccountModelRepository;
  codexBaseURL : string;
  (* client request, upstream request, upstream response *)
  bodyLog : bool * bool * bool;
  maxSSEEventBytes : Z;
  (* the outside world *)
  Do : bool -> UpstreamRequest -> result error forwarder.Response;
  net_timeout : error -> bool;
  proxy_configured : bool;
  gunzip : reader -> result error reader;
  read_bytes : reader -> string;
  now : Z;
  elapsed : duration;
  can_flush : bool;
  ctx_err : option error }.

Definition OutcomeSuccess := "success".
Definition OutcomeUpstreamError := "upstream_error".
Definition OutcomeNoAvailableAccount := "no_available_account".
Definition OutcomeRouterError := "router_error".
Definition OutcomeCancelled := "cancelled".

Definition ErrCodeNoAvailableAccount := "no_available_account".
Definition ErrCodeInternalError := "internal_error".
Definition ErrCodeInvalidRequest := "invalid_request".
Definition ErrCodeUpstreamConnFailed := "upstream_connect_failed".
Definition ErrCodeUpstreamRespInvalid := "upstream_response_invalid".
Definition ErrCodeUpstreamTimeout := "upstream_timeout".
Definition ErrCodeModelNotSupported := "model_not_supported".

Definition defaultMaxUpstreamResponseBody : Z := 64 * 2 ^ 20.
Definition bodyCaptureMaxBytes : Z := 2 ^ 20.

(** ** Bodies *)

(** [io.ReadAll(io.LimitReader(body, n))]: the data, and whether reading
    failed. *)
Definition read_limited (b : reader) (n : Z) : string * option error :=
  (forwarder.take_limit n (rd_data b), if lenZ (rd_data b) <? n then rd_err b else None).

Definition readBounded (b : reader) (limit : Z) (limitMessage : string) : string * option error :=
  let '(data, err) := read_limited b (limit + 1) in
  match err with
  | Some e => (data, Some e)
  | None => (data, if limit <? lenZ data then Some (New limitMessage) else None)
  end.

(** [boundedRequestBody]: what is read through it. *)
Definition newBoundedRequestBody (body : reader) (limit : Z) : reader :=
  if Z.max 0 limit <? lenZ (rd_data body)
  then mkReader (forwarder.take_limit (Z.max 0 limit) (rd_data body)) (Some (Sentinel ErrRequestBodyTooLarge))
  else body.

Definition capturedBodyTruncatedMarker : string := newline +:+ "[truncated]".

(** The start of the last rune that starts at most [limit] bytes in. *)
Fixpoint cut_index (limit idx cut : Z) (l : list (Z * string)) : Z :=
  match l with
  | [] => cut
  | p :: l' => if limit <? idx then cut else cut_index limit (idx + lenZ (snd p)) idx l'
  end.

Definition capturedBodyString (body : string) : string :=
  let value := redaction.RedactCapturedBody body in
  if lenZ value <=? bodyCaptureMaxBytes then value
  else
    let limit := bodyCaptureMaxBytes - lenZ capturedBodyTruncatedMarker in
    if limit <=? 0 then capturedBodyTruncatedMarker
    else
      let cut := cut_index limit 0 0 (runes value) in
      let cut := if cut =? 0 then limit else cut in
      forwarder.take_limit cut value +:+ capturedBodyTruncatedMarker.

(** A body that is logged, if it is to be and there is one. *)
Definition logged (on : bool) (body : string) : option string :=
  if on && negb (String.eqb body "") then Some (capturedBodyString body) else None.

(** ** Small helpers of the handler *)

Definition sessionHeaders : list string := ["X-Codex-Session-Id"; "X-Codex-Conversation-Id"; "Session-Id"].

(** The first non-empty one. *)
Definition ExtractSessionKey (r : Request) : string :=
  hd "" (List.filter (fun v => negb (String.eqb v ""))
           ((fun h => TrimSpace (Get (rq_Headers r) h)) <$> sessionHeaders)).

Definition session_ptr (r : Request) : option string :=
  if String.eqb (ExtractSessionKey r) "" then None else Some (ExtractSessionKey r).

Definition hopByHopHeaders : list string :=
  ["connection"; "keep-alive"; "proxy-authenticate"; "proxy-authorization"; "te"; "trailer"; "trailers";
   "transfer-encoding"; "upgrade"].

(** Which response headers reach the client. *)
Definition response_key (src : Header) (key : string) : bool :=
  let lower := ToLower key in
  negb (mem lower hopByHopHeaders) && negb (mem lower (dynamicDrops src)) && negb (String.eqb lower "set-cookie")
  && negb (String.eqb (CanonicalHeaderKey key) "X-Request-Id")
  && negb (String.eqb (CanonicalHeaderKey key) "Request-Id").

Definition copyResponseHeaders (src : Header) : Header := copy_where (response_key src) [] src.

Definition DetectResponseMode (contentType : string) : string :=
  if Contains contentType "text/event-stream" then ResponseModeSSE else ResponseModeJSON.

Definition bufferedReaderStartsWithSSE (b : reader) : bool :=
  match rd_data b with
  | String c _ => Ascii.eqb c "e" || Ascii.eqb c "d" || Ascii.eqb c ":"
  | EmptyString => false
  end.

Definition isModelsUnionRoute (route : gatewayRoute) (r : Request) : bool :=
  String.eqb (rq_Method r) "GET" && String.eqb (rq_Path r) "/v1/models"
  && bool_decide (Kind route = gatewayRouteKindSupported)
  && String.eqb (r_OpID route) OpOpenAIModelsList && String.eqb (ResponseMode route) ResponseModeJSON.

Definition is_systemone (route : gatewayRoute) : bool := String.eqb (r_OpID route) OpSystemOneCreate.

Definition mergeModelParams (base extra : usage.JSONMap) : usage.JSONMap :=
  match extra with
  | None => base
  | Some extra => if bool_decide (extra = ∅) then base else Some (extra ∪ default ∅ base)
  end.

(** [BridgeMetadata.SafeMap] under its key, beside the rename's. *)
Definition safe_map (b : OperationBridge) (credential endpoint : string) : obj :=
  list_to_map [("op_id", AStr (bridge_OpID b)); ("bridge_id", AStr (bridge_ID b));
    ("client_contract", AStr (bridge_ClientContract b)); ("upstream_contract", AStr (bridge_UpstreamContract b));
    ("upstream_endpoint", AStr endpoint); ("credential_class", AStr credential)].

Definition MergeBridgeRouterMetadata (base : usage.JSONMap) (b : OperationBridge) (credential endpoint : string)
    : usage.JSONMap :=
  Some (<["bridge" := AMap (safe_map b credential endpoint)]> (default ∅ base)).

(** ** Errors *)

(** [proxyErrorBodyCapture]. *)
Record errorCapture := mkErrorCapture {
  clientRequestBody : string; upstreamRequestBody : string; upstreamResponseBody : string;
  routerMetadata : usage.JSONMap }.
Definition no_error_capture : errorCapture := mkErrorCapture "" "" "" None.
Definition of_client (body : string) (metadata : usage.JSONMap) : errorCapture := mkErrorCapture body "" "" metadata.

(** The headers of [WriteNativeError], set on those already there. *)
Definition native_headers (headers : Header) (requestID : string) : Header :=
  let h := HeaderSet headers "Content-Type" "application/json; charset=utf-8" in
  if negb (String.eqb requestID "") && String.eqb (Get h "X-Request-Id") ""
  then HeaderSet h "X-Request-Id" requestID else h.

Definition WriteNativeError (r : Request) (status : Z) (errorType code message : string) : event :=
  EWrite status (native_headers [] (rq_ID r)) (NativeError errorType code message).

Definition WriteRouterError (r : Request) (status : Z) (code message : string) : event :=
  WriteNativeError r status "router_error" code message.

Definition recordProxyError (env : ProxyEnv) (r : Request) (account : option Z) (status : Z)
    (code outcome : string) (c : errorCapture) : event :=
  let '(clientLog, upstreamReqLog, upstreamRespLog) := bodyLog env in
  let client := clientRequestBody c in
  let present := negb (String.eqb client "") in
  ERecord {|
    rr_RequestID := rq_ID r; rr_AccountID := account; rr_SessionKey := session_ptr r;
    rr_Method := rq_Method r; rr_Path := rq_Path r; rr_StatusCode := status; rr_TTFTMs := None;
    rr_Outcome := outcome; rr_ErrorCode := Some code;
    rr_Model := if present then usage.ExtractModel client else None;
    rr_ModelParams := if present then usage.ExtractModelParams client else None;
    rr_RouterMetadata := routerMetadata c; rr_ResponseMode := ResponseModeJSON; rr_TokenUsage := None;
    rr_ClientRequestBody := logged clientLog client;
    rr_UpstreamRequestBody := logged upstreamReqLog (upstreamRequestBody c);
    rr_UpstreamResponseBody := logged upstreamRespLog (upstreamResponseBody c) |}.

Definition writeError (env : ProxyEnv) (r : Request) (account : option Z) (status : Z)
    (code message outcome : string) (c : errorCapture) : list event :=
  [WriteRouterError r status code message; recordProxyError env r account status code outcome c].

Definition gatewayRouteErrorMessage (route : gatewayRoute) : string :=
  match Kind route with
  | gatewayRouteKindBlocked => "endpoint is blocked by router policy"
  | _ => "endpoint is not supported by this router"
  end.

(** ** After the upstream answered *)

Definition classifySSEForwardFailure (ctx : option error) (currentOutcome : string) (err : error)
    : string * option string :=
  let success := String.eqb currentOutcome OutcomeSuccess in
  if isSome ctx || errors_Is err Canceled then ((if success then OutcomeCancelled else currentOutcome), None)
  else ((if success then OutcomeRouterError else currentOutcome), Some ErrCodeUpstreamRespInvalid).

(** The body of a System One response, read and validated before anything is
    written, with its usage; what was read beside an error. *)
Definition systemone_response (resp : forwarder.Response) : (string * usage.JSONMap) + (string * error) :=
  let '(body, readErr) := readBounded (forwarder.rs_Body resp) defaultMaxUpstreamResponseBody "upstream response too large" in
  match readErr with
  | Some e => inr (body, e)
  | None =>
      if (200 <=? forwarder.rs_Status resp) && (forwarder.rs_Status resp <? 300) then
        match ParseMediaType (Get (forwarder.rs_Header resp) "Content-Type") with
        | Some (media, _) =>
            if negb (String.eqb media "application/json") then inr (body, New "systemone requires a JSON response")
            else match systemone.ValidateResponse body with
                 | Ok u => inl (body, u)
                 | Err e => inr (body, e)
                 end
        | None => inr (body, New "systemone requires a JSON response")
        end
      else inl (body, None)
  end.

(** The response mode and headers, after sniffing a mislabelled stream. *)
Definition response_mode (r : Request) (route : gatewayRoute) (reqBody : string) (resp : forwarder.Response)
    : string * Header :=
  let headers := copyResponseHeaders (forwarder.rs_Header resp) in
  let mode := if is_systemone route then ResponseModeJSON
              else DetectResponseMode (Get (forwarder.rs_Header resp) "Content-Type") in
  if String.eqb mode ResponseModeJSON && (forwarder.rs_Status resp <? 400) && String.eqb (rq_Path r) "/v1/responses"
     && usage.RequestWantsStreaming reqBody && bufferedReaderStartsWithSSE (forwarder.rs_Body resp)
  then (ResponseModeSSE, HeaderDel (HeaderSet headers "Content-Type" "text/event-stream") "Content-Length")
  else (mode, headers).

(** What differs between the answers to a forwarded request. *)
Record answer_of := mkAnswerOf {
  ao_Status : Z; ao_Headers : Header; ao_Written : written; ao_RecordStatus : Z;
  ao_Outcome : string; ao_Code : option string; ao_TokenUsage : usage.JSONMap; ao_TTFT : option Z;
  ao_UpstreamBody : option string }.

Definition stream_answer (env : ProxyEnv) (resp : forwarder.Response) (capture : forwarder.ForwardCapture)
    (headers : Header) (outcome : string) : answer_of :=
  let upstreamRespLog := snd (bodyLog env) in
  let '(result, cmds) := sse.ForwardSSE (maxSSEEventBytes env) (elapsed env) (can_flush env) upstreamRespLog
                           (forwarder.rs_Body resp) in
  let '(outcome', code) := match sse.ResultErr result with
                           | Some e => classifySSEForwardFailure (ctx_err env) outcome e
                           | None => (outcome, None)
                           end in
  let tokenUsage := match sse.ResultErr result, sse.TokenUsage result with
                    | None, None => default None (forwarder.TokenUsage capture)
                    | _, u => u
                    end in
  let upstreamBody :=
    if negb (String.eqb (forwarder.UpstreamResponseBody capture) "") then
      logged upstreamRespLog (forwarder.UpstreamResponseBody capture)
    else match forwarder.UpstreamResponseBodySnapshot capture with
         | Some body => logged upstreamRespLog body
         | None => logged upstreamRespLog (sse.UpstreamResponseBody result)
         end in
  mkAnswerOf (forwarder.rs_Status resp) headers (Stream cmds) (forwarder.rs_Status resp) outcome' code tokenUsage
    (sse.TTFTMs result) upstreamBody.

(** The body to record: the collected one is redacted but not truncated. *)
Definition recorded_body (env : ProxyEnv) (capture : forwarder.ForwardCapture) (body : string) : option string :=
  let collected := forwarder.UpstreamResponseBody capture in
  if negb (String.eqb collected "") then
    if snd (bodyLog env) then Some (redaction.RedactCapturedBody collected) else None
  else logged (snd (bodyLog env)) body.

Definition buffered_answer (env : ProxyEnv) (r : Request) (resp : forwarder.Response)
    (capture : forwarder.ForwardCapture) (headers : Header) (outcome : string) (body : string)
    (json_usage : usage.JSONMap) : answer_of :=
  let success := String.eqb outcome OutcomeSuccess in
  mkAnswerOf (forwarder.rs_Status resp) headers (Bytes body) (forwarder.rs_Status resp) outcome
    (if success then None else usage.ExtractErrorCode (Some body)) (if success then json_usage else None) None
    (recorded_body env capture body).

Definition unreadable_answer (r : Request) : answer_of :=
  mkAnswerOf 502 (native_headers [] (rq_ID r))
    (NativeError "router_error" ErrCodeUpstreamRespInvalid "failed to read upstream response") 502
    OutcomeRouterError (Some ErrCodeUpstreamRespInvalid) None None None.

(** The answer and its record. *)
Definition deliver (env : ProxyEnv) (r : Request) (account : Z) (reqBody : string)
    (capture : forwarder.ForwardCapture) (metadata : usage.JSONMap) (mode : string) (a : answer_of) : list event :=
  let '(clientLog, upstreamReqLog, _) := bodyLog env in
  let present := negb (String.eqb reqBody "") in
  [EWrite (ao_Status a) (ao_Headers a) (ao_Written a);
   ERecord {|
     rr_RequestID := rq_ID r; rr_AccountID := Some account; rr_SessionKey := session_ptr r;
     rr_Method := rq_Method r; rr_Path := rq_Path r; rr_StatusCode := ao_RecordStatus a; rr_TTFTMs := ao_TTFT a;
     rr_Outcome := ao_Outcome a; rr_ErrorCode := ao_Code a;
     rr_Model := if present then usage.ExtractModel reqBody else None;
     rr_ModelParams := mergeModelParams (if present then usage.ExtractModelParams reqBody else None)
                         (default None (forwarder.ModelParams capture));
     rr_RouterMetadata := metadata; rr_ResponseMode := mode; rr_TokenUsage := ao_TokenUsage a;
     rr_ClientRequestBody := logged clientLog reqBody;
     rr_UpstreamRequestBody := logged upstreamReqLog (forwarder.UpstreamRequestBody capture);
     rr_UpstreamResponseBody := ao_UpstreamBody a |}].

Definition respond (env : ProxyEnv) (r : Request) (route : gatewayRoute) (account : Z) (reqBody : string)
    (metadata : usage.JSONMap) (resp : forwarder.Response) (capture : forwarder.ForwardCapture) : list event :=
  let status := forwarder.rs_Status resp in
  let outcome := if (400 <=? status) || (is_systemone route && (300 <=? status))
                 then OutcomeUpstreamError else OutcomeSuccess in
  let '(mode, headers) := response_mode r route reqBody resp in
  let deliver := deliver env r account reqBody capture metadata mode in
  if is_systemone route then
    match systemone_response resp with
    | inl (body, u) => deliver (buffered_answer env r resp capture headers outcome body u)
    | inr (body, _) =>
        let c := mkErrorCapture reqBody (forwarder.UpstreamRequestBody capture) body metadata in
        let timeout := match ctx_err env with Some e => errors_Is e DeadlineExceeded | None => false end in
        writeError env r (Some account) (if timeout then 504 else 502)
          (if timeout then ErrCodeUpstreamTimeout else ErrCodeUpstreamRespInvalid)
          "invalid systemone upstream response" OutcomeRouterError c
    end
  else if String.eqb mode ResponseModeSSE then deliver (stream_answer env resp capture headers outcome)
  else
    match readBounded (forwarder.rs_Body resp) defaultMaxUpstreamResponseBody "upstream response too large" with
    | (_, Some _) => deliver (unreadable_answer r)
    | (body, None) => deliver (buffered_answer env r resp capture headers outcome body (usage.ExtractUsageFromJSON body))
    end.

(** The answer to a failed [ForwardBridgeRequestWithCapture]. *)
Definition forward_failure (env : ProxyEnv) (r : Request) (account : Z) (err : error) (c : errorCapture) : list event :=
  let fail status code message := writeError env r (Some account) status code message OutcomeRouterError c in
  if errors_Is err ErrUpstreamTimeout then fail 504 ErrCodeUpstreamTimeout "upstream response timeout"
  else if errors_Is err ErrRequestBodyTooLarge then fail 413 ErrCodeInvalidRequest "request body too large"
  else if errors_Is err ErrInvalidUpstreamRequest then fail 400 ErrCodeInvalidRequest "invalid request body"
  else if errors_Is err ErrUpstreamResponseInvalid then fail 502 ErrCodeUpstreamRespInvalid "invalid upstream response"
  else fail 502 ErrCodeUpstreamConnFailed "cannot connect to upstream".

(** ** Before the upstream is asked *)

(** The body read into memory and the one the bridge may stream, or the error
    response. *)
Definition read_body (env : ProxyEnv) (r : Request) (route : gatewayRoute)
    : list event + (string * option reader) :=
  let max := maxRequestBody env in
  let too_large := writeError env r None 413 ErrCodeInvalidRequest "request body too large" OutcomeRouterError no_error_capture in
  match rq_Body r with
  | None => inr ("", None)
  | Some b =>
      match BodyPolicy route with
      | gatewayBodyPolicyJSONCaptureAllowed =>
          match read_limited b (max + 1) with
          | (_, Some _) =>
              inl (writeError env r None 502 ErrCodeInternalError "failed to read request body" OutcomeRouterError
                     no_error_capture)
          | (data, None) => if max <? lenZ data then inl too_large else inr (data, Some (mkReader data None))
          end
      | gatewayBodyPolicyCaptureDisabled =>
          if max <? rq_ContentLength r then inl too_large else inr ("", Some (newBoundedRequestBody b max))
      | gatewayBodyPolicyWebSocketNoBody => inr ("", Some b)
      end
  end.

Definition rename_metadata (rule : ModelRenameRule) : obj :=
  {["model_rename" := AMap (<["to" := AStr (To rule)]> {["from" := AStr (From rule)]})]}.

(** The first rule for the requested model, applied to the body. *)
Definition rewriteModelForRoute (env : ProxyEnv) (route : gatewayRoute) (path body : string) : option (string * obj) :=
  match modelRename env with
  | None => None
  | Some rules =>
      if String.eqb body "" || is_systemone route then None
      else if negb (bool_decide (BodyPolicy route = gatewayBodyPolicyJSONCaptureAllowed))
              || String.eqb (ResponseMode route) ResponseModeWebSocket || negb (HasPrefix path "/v1/") then None
      else
        payload ← Unmarshal_map body;
        let payload := default ∅ payload in
        model ← as_str (payload !! "model");
        rule ← List.find (fun rule => String.eqb model (From rule)) rules;
        rewritten ← Marshal_any (AMap (<["model" := AStr (To rule)]> payload));
        Some (rewritten, rename_metadata rule)
  end.

(** The accounts a model restricts the selection to; those without any model
    row serve every model. *)
Definition buildModelEligibleSet (env : ProxyEnv) (model : option string) : result error (option (gset Z)) :=
  match model, accountModelRepo env with
  | Some m, Some repo =>
      match AccountsWithModel repo m with
      | Err e => Err (Wrapf "accounts with model %q: %w" [FStr m] e)
      | Ok ids =>
          match AccountsWithoutModels repo with
          | Err e => Err (Wrapf "accounts without models: %w" [] e)
          | Ok agnostic => Ok (Some (list_to_set ids ∪ list_to_set agnostic))
          end
      end
  | _, _ => Ok None
  end.

(** The answer to a failed selection; [account] is what [SelectEligible]
    returned beside the error. *)
Definition selection_failure (env : ProxyEnv) (r : Request) (route : gatewayRoute) (hasModelFilter : bool) (account : Z)
    (err : error) (c : errorCapture) : list event :=
  if errors_Is err ErrNoCapacity then
    if hasModelFilter && negb (is_systemone route)
    then [WriteNativeError r 400 "invalid_request" ErrCodeModelNotSupported
            "No active account supports the requested model";
          recordProxyError env r None 400 ErrCodeModelNotSupported OutcomeNoAvailableAccount c]
    else writeError env r None 503 ErrCodeNoAvailableAccount "No active upstream accounts available"
           OutcomeNoAvailableAccount c
  else if errors_Is err ErrPreForward then
    writeError env r (Some account) 502 ErrCodeInternalError "upstream credentials unavailable" OutcomeRouterError c
  else writeError env r None 500 ErrCodeInternalError "account selection failed" OutcomeRouterError c.

(** The request as the bridge decodes it: the systemone bridge has decoded it
    before the selection, an openai bridge cannot fail. *)
Definition decoded (b : OperationBridge) (r : Request) (body : string) (stream : option reader) (contentLength : Z)
    : ClientRequest :=
  match b with
  | OpenAIBridge ob =>
      mkClientRequest (b_clientContract ob) (rq_Method r) (rq_Path r) (rq_RawQuery r) body stream
        contentLength (HeaderSet (rq_Headers r) "X-Request-Id" (rq_ID r)) false
  | SystemOneBridge =>
      mkClientRequest ContractSystemOne "POST" (rq_Path r) "" body None (lenZ body) (rq_Headers r) false
  end.

(** Where the account's requests go; [None] when System One has no base URL. *)
Definition upstream_base (env : ProxyEnv) (route : gatewayRoute) (account : UpstreamAccount) : option string :=
  if is_systemone route then
    match BaseURL account with
    | Some u => if String.eqb (TrimSpace u) "" then None
                else Some (if IsOAuth account then codexBaseURL env else u)
    | None => None
    end
  else Some (if IsOAuth account then codexBaseURL env else EffectiveBaseURL account).

Definition build_upstream (r : Request) (b : OperationBridge) (i : BuildInput)
    : chat.outcome (UpstreamRequest * clientResponseAdapter) :=
  match b with
  | OpenAIBridge ob => openai_BuildUpstreamRequest ob i
  | SystemOneBridge => chat.Returned (systemone_BuildUpstreamRequest (rq_ID r) i)
  end.

Definition forward (env : ProxyEnv) (r : Request) (upstream : UpstreamRequest) (adapter : clientResponseAdapter)
    : forwarder.forwarded :=
  forwarder.ForwardBridgeRequestWithCapture (rq_ID r) (now env) (read_bytes env) (gunzip env) (Do env)
    (net_timeout env) (proxy_configured env) upstream adapter.

(** The bodies of a request: as it came, renamed, and as a stream. *)
Record bodies := mkBodies { original : string; renamed : option (string * obj); streamed : option reader }.

Definition effective (b : bodies) : string := match renamed b with Some (body, _) => body | None => original b end.

(** With an account and its token in hand. *)
Definition serve_account (env : ProxyEnv) (registry : BridgeRegistry) (r : Request) (route : gatewayRoute)
    (b : bodies) (account : UpstreamAccount) (token : option string) : list event :=
  let credential := credentialClassForAccount account in
  let id := ID account in
  let base_metadata := snd <$> renamed b in
  let fail status code message outcome metadata :=
    writeError env r (Some id) status code message outcome (of_client (original b) metadata) in
  match selectGatewayBridgeFromRegistry registry route credential with
  | None => fail 503 ErrCodeNoAvailableAccount "No active upstream accounts available" OutcomeNoAvailableAccount base_metadata
  | Some bridge =>
      let metadata := MergeBridgeRouterMetadata base_metadata bridge credential in
      match upstream_base env route account with
      | None => fail 500 ErrCodeInternalError "systemone account requires base_url" OutcomeRouterError (metadata "")
      | Some base =>
          let contentLength := match renamed b with Some (body, _) => lenZ body | None => rq_ContentLength r end in
          let stream := match renamed b with Some (body, _) => Some (mkReader body None) | None => streamed b end in
          let input := mkBuildInput (decoded bridge r (effective b) stream contentLength) credential (default "" token)
                         (accountChatGPTID account) base (UseProxy account) id in
          match build_upstream r bridge input with
          | chat.Panicked => [EPanic]
          | chat.Returned (Err _) => fail 400 ErrCodeInvalidRequest "invalid request body" OutcomeRouterError (metadata "")
          | chat.Returned (Ok (upstream, adapter)) =>
              let metadata := metadata (u_Path upstream) in
              ESend upstream ::
              match forward env r upstream adapter with
              | (Err e, capture) =>
                  forward_failure env r id e
                    (mkErrorCapture (original b) (forwarder.UpstreamRequestBody capture)
                       (forwarder.UpstreamResponseBody capture) metadata)
              | (Ok resp, capture) => respond env r route id (original b) metadata resp capture
              end
          end
      end
  end.

(** ** The handler *)

Section Serve.
Context {S : Type} `{AccountRepository S}.
Variables (sel : AccountSelector S) (env : ProxyEnv) (registry : BridgeRegistry).

Definition union_record (r : Request) (metadata : obj) : event :=
  ERecord {|
    rr_RequestID := rq_ID r; rr_AccountID := None; rr_SessionKey := session_ptr r;
    rr_Method := rq_Method r; rr_Path := rq_Path r; rr_StatusCode := 200; rr_TTFTMs := None;
    rr_Outcome := OutcomeSuccess; rr_ErrorCode := None; rr_Model := None; rr_ModelParams := None;
    rr_RouterMetadata := Some metadata; rr_ResponseMode := ResponseModeJSON; rr_TokenUsage := None;
    rr_ClientRequestBody := None; rr_UpstreamRequestBody := None; rr_UpstreamResponseBody := None |}.

Definition serveModelsUnion (r : Request) (route : gatewayRoute) (st : sel_state (S := S))
    : list event * sel_state :=
  let fail status code message outcome metadata :=
    writeError env r None status code message outcome (mkErrorCapture "" "" "" metadata) in
  match accountModelRepo env with
  | None => (fail 500 ErrCodeInternalError "model cache unavailable" OutcomeRouterError None, st)
  | Some repo =>
      let '(res, s') := ListEligibleAccounts (Some (proxyAccountEligible route None)) (fst st) in
      let st' := (s', snd st) in
      match res with
      | Err e =>
          if errors_Is e ErrNoCapacity
          then (fail 503 ErrCodeNoAvailableAccount "No active upstream accounts available" OutcomeNoAvailableAccount None, st')
          else (fail 500 ErrCodeInternalError "account selection failed" OutcomeRouterError None, st')
      | Ok accounts =>
          match ListByAccounts repo (ID <$> accounts) with
          | Err _ => (fail 500 ErrCodeInternalError "failed to load account models" OutcomeRouterError None, st')
          | Ok rows =>
              let '(merged, degraded) := models.mergeAccountModelRows rows in
              let metadata := models.modelsUnionCacheMetadata (credentialClassForAccount <$> accounts)
                                (Z.of_nat (List.length merged)) degraded in
              match models.models_list merged with
              | Err _ => (fail 500 ErrCodeInternalError "failed to encode response" OutcomeRouterError (Some metadata), st')
              | Ok response =>
                  let headers := HeaderSet (HeaderSet [] "Content-Type" "application/json")
                                   "Content-Length" (pretty (lenZ response)) in
                  ([EWrite 200 headers (Bytes response); union_record r metadata], st')
              end
          end
      end
  end.

(** [SelectEligible] and what follows: the account [SelectEligible] returns
    beside an error of [prepareToken] is the one it had picked. *)
Definition serve_selected (r : Request) (route : gatewayRoute) (b : bodies)
    (ids : option (gset Z)) (st : sel_state (S := S)) : list event * sel_state :=
  let c := of_client (original b) (snd <$> renamed b) in
  match pick sel (ExtractSessionKey r) (Some (proxyAccountEligible route ids)) st with
  | (Err e, st) => (selection_failure env r route (isSome ids) 0 e c, st)
  | (Ok account, st) =>
      match on_repo (prepareToken sel account) st with
      | (Err e, st) => (selection_failure env r route (isSome ids) (ID account) e c, st)
      | (Ok (account, token, _), st) => (serve_account env registry r route b account token, st)
      end
  end.

(** After the body is read: System One requests are validated, the model is
    renamed, the selection is restricted to the accounts that have it. *)
Definition serve_body (r : Request) (route : gatewayRoute) (body : string) (stream : option reader)
    (st : sel_state (S := S)) : list event * sel_state :=
  if is_systemone route && isSome (systemone.ValidateRequest body) then
    (writeError env r None 400 ErrCodeInvalidRequest "invalid systemone request" OutcomeRouterError (of_client body None), st)
  else
    let b := mkBodies body (rewriteModelForRoute env route (rq_Path r) body) stream in
    match buildModelEligibleSet env (usage.ExtractModel (effective b)) with
    | Err _ =>
        (writeError env r None 500 ErrCodeInternalError "model eligibility check failed" OutcomeRouterError
           (of_client body (snd <$> renamed b)), st)
    | Ok ids => serve_selected r route b ids st
    end.

(** [Error()] of what [ValidateHeaders] returns. *)
Definition headers_error (e : error) : string :=
  if errors_Is e ErrUnsupportedMedia then "systemone requires uncompressed application/json"
  else match e with Errorf msg _ => msg | _ => "" end.

Definition ServeHTTP (r : Request) (st : sel_state (S := S)) : list event * sel_state :=
  let route := classifyGatewayRoute (rq_Method r) (rq_Path r) (isGatewayWebSocketUpgrade (rq_Headers r)) in
  if bool_decide (Kind route = gatewayRouteKindUnsupported) || bool_decide (Kind route = gatewayRouteKindBlocked)
  then (writeError env r None (StatusCode route) (ErrorCode route) (gatewayRouteErrorMessage route) OutcomeRouterError
          no_error_capture, st)
  else if String.eqb (ResponseMode route) ResponseModeWebSocket then ([EWebSocket route], st)
  else if isModelsUnionRoute route r then serveModelsUnion r route st
  else
    match (if is_systemone route then systemone.ValidateHeaders (rq_Headers r) (rq_RawQuery r) else None) with
    | Some e =>
        (writeError env r None (if errors_Is e ErrUnsupportedMedia then 415 else 400) ErrCodeInvalidRequest
           (headers_error e) OutcomeRouterError no_error_capture, st)
    | None =>
        match read_body env r route with
        | inl answer => (answer, st)
        | inr (body, stream) => serve_body r route body stream st
        end
    end.

End Serve.
