(* ===== verification/ProxyProofs.v ===== *)
(** * ProxyProofs: what serving a request guarantees

    One answer and one record per request, on every branch; what can be said
    of a request that was sent upstream; and what is kept of the bodies. *)

From S2P Require Import Prelude GoLib GoHTTP GoStrings GoMime GoJSON GoAny GoBufio Errors Account Engine Store.
From S2P Require Import Selector Usage SSE CodexRequest ChatRequest ChatProofs GatewayRoutes Bridges Gateway Forwarder.
From S2P Require Import SystemOne GoRegexp Redaction AccountModels Proxy.

(** ** One answer *)

Definition is_router_error (w : written) : Prop := exists t c m, w = NativeError t c m.

(** The response and the record of a request agree: same status; an error of
    the router's own is recorded under its code; and [success] is recorded
    only for a response below 400 that is not the router's own error. *)
Definition answer (r : Request) (evs : list event) : Prop :=
  exists s h w rec,
    evs = [EWrite s h w; ERecord rec] /\ rr_StatusCode rec = s
    /\ rr_RequestID rec = rq_ID r /\ rr_Method rec = rq_Method r /\ rr_Path rec = rq_Path r
    /\ (forall t c m, w = NativeError t c m -> rr_ErrorCode rec = Some c /\ rr_Outcome rec <> OutcomeSuccess)
    /\ (rr_Outcome rec = OutcomeSuccess -> s < 400 /\ rr_ErrorCode rec = None).

(** A chat request with a null tool, as it came or renamed, ends the handler:
    the connection is closed without an answer and without a record. *)
Definition panics (env : ProxyEnv) (r : Request) (route : gatewayRoute) (evs : list event) : Prop :=
  evs = [EPanic] /\ r_OpID route = OpOpenAIChatCompletionsCreate
  /\ exists rd, rq_Body r = Some rd
       /\ (null_tool (rd_data rd)
           \/ exists body m, rewriteModelForRoute env route (rq_Path r) (rd_data rd) = Some (body, m) /\ null_tool body).

(** At most one upstream request, then the answer. *)
Definition answered (r : Request) (evs : list event) : Prop :=
  answer r evs \/ exists u evs', evs = ESend u :: evs' /\ answer r evs'.

Lemma native_answer env r account status ty code message outcome c :
  outcome <> OutcomeSuccess ->
  answer r [WriteNativeError r status ty code message; recordProxyError env r account status code outcome c].
Proof.
  intros Ho. unfold recordProxyError. destruct (bodyLog env) as [[a b] d].
  do 4 eexists. split; [reflexivity|]. cbn.
  repeat split; try done; by match goal with E : NativeError _ _ _ = _ |- _ => injection E as <- <- <- end.
Qed.

Lemma writeError_answer env r account status code message outcome c :
  outcome <> OutcomeSuccess -> answer r (writeError env r account status code message outcome c).
Proof. apply native_answer. Qed.

Lemma selection_failure_answer env r route m account err c : answer r (selection_failure env r route m account err c).
Proof.
  unfold selection_failure.
  destruct (errors_Is err ErrNoCapacity); [destruct (_ && _)|destruct (errors_Is err ErrPreForward)];
    first [by apply writeError_answer | by apply native_answer].
Qed.

Lemma forward_failure_answer env r account err c : answer r (forward_failure env r account err c).
Proof. unfold forward_failure. repeat case_match; by apply writeError_answer. Qed.

(** An answer built from the upstream's. *)
Lemma deliver_answer env r account reqBody capture metadata mode a :
  ao_RecordStatus a = ao_Status a ->
  (forall t c m, ao_Written a = NativeError t c m -> ao_Code a = Some c /\ ao_Outcome a <> OutcomeSuccess) ->
  (ao_Outcome a = OutcomeSuccess -> ao_Status a < 400 /\ ao_Code a = None) ->
  answer r (deliver env r account reqBody capture metadata mode a).
Proof.
  intros Hs Hw Ho. unfold deliver. destruct (bodyLog env) as [[x y] z].
  do 4 eexists. split; [reflexivity|]. cbn [rr_StatusCode rr_RequestID rr_Method rr_Path rr_Outcome rr_ErrorCode].
  split; [exact Hs|]. split; [reflexivity|]. split; [reflexivity|]. split; [reflexivity|]. split; [exact Hw|exact Ho].
Qed.

Lemma buffered_ok env r resp capture headers body u outcome :
  (outcome = OutcomeSuccess -> forwarder.rs_Status resp < 400) ->
  let a := buffered_answer env r resp capture headers outcome body u in
  ao_Outcome a = OutcomeSuccess -> ao_Status a < 400 /\ ao_Code a = None.
Proof.
  unfold buffered_answer. cbn [ao_Outcome ao_Status ao_Code]. intros Ho E. split; [by apply Ho|]. by rewrite E.
Qed.

Lemma stream_ok env resp capture headers outcome :
  (outcome = OutcomeSuccess -> forwarder.rs_Status resp < 400) ->
  let a := stream_answer env resp capture headers outcome in
  ao_RecordStatus a = ao_Status a /\ (exists cmds, ao_Written a = Stream cmds)
  /\ (ao_Outcome a = OutcomeSuccess -> ao_Status a < 400 /\ ao_Code a = None).
Proof.
  intros Ho. unfold stream_answer. destruct (sse.ForwardSSE _ _ _ _ _) as [result cmds].
  destruct (sse.ResultErr result) as [e|]; [|cbn; split; [done|]; split; [eauto|]; intros E; by split; [apply Ho|]].
  unfold classifySSEForwardFailure.
  destruct (String.eqb_spec outcome OutcomeSuccess); destruct (_ || _); cbn; (split; [done|]; split; [eauto|]); by intros.
Qed.

Lemma respond_answer env r route account reqBody metadata resp capture :
  answer r (respond env r route account reqBody metadata resp capture).
Proof.
  unfold respond. destruct (response_mode _ _ _ _) as [mode headers].
  set (outcome := if _ || _ then OutcomeUpstreamError else OutcomeSuccess).
  assert (outcome = OutcomeSuccess -> forwarder.rs_Status resp < 400) as Ho.
  { unfold outcome. destruct (Z.leb_spec 400 (forwarder.rs_Status resp)); [done|]. intros _. lia. }
  clearbody outcome. destruct (is_systemone route).
  - destruct (systemone_response resp) as [[body u]|[body e]]; [|by apply writeError_answer].
    apply deliver_answer; [done|done|by apply buffered_ok].
  - destruct (String.eqb mode ResponseModeSSE).
    + destruct (stream_ok env resp capture headers outcome Ho) as (H1 & [cmds H2] & H3).
      apply deliver_answer; [done|rewrite H2; done|done].
    + destruct (readBounded _ _ _) as [body [e|]]; apply deliver_answer; try done; [|by apply buffered_ok].
      intros t c m E. cbn in *. injection E as <- <- <-. done.
Qed.

(** ** The bridges *)

Lemma register_sound (l0 l : list OperationBridge) reg reg' :
  (forall k b, reg !! k = Some b -> k = (bridge_OpID b, bridge_CredentialClass b) /\ b ∈ l0) ->
  (forall b, b ∈ l -> b ∈ l0) -> register reg l = Some reg' ->
  forall k b, reg' !! k = Some b -> k = (bridge_OpID b, bridge_CredentialClass b) /\ b ∈ l0.
Proof.
  revert reg. induction l as [|x l IH]; intros reg Hok Hin Hr; cbn [register] in Hr; [by simplify_eq|].
  destruct (reg !! _) eqn:E; [done|]. eapply IH; [|intros; apply Hin; by right|exact Hr]. intros k b' Hk.
  apply lookup_insert_Some in Hk as [[<- <-]|[_ Hk]]; [split; [done|apply Hin; by left]|eauto].
Qed.

Lemma selected_bridge route cred b :
  selectGatewayBridgeFromRegistry defaultGatewayBridgeRegistry route cred = Some b ->
  bridge_OpID b = r_OpID route /\ b ∈ defaultGatewayBridges.
Proof.
  intros Hs. assert (exists cred', Resolve defaultGatewayBridgeRegistry (r_OpID route) cred' = Some b) as [cred' Hb].
  { unfold selectGatewayBridgeFromRegistry in Hs. destruct (_ || _); [done|].
    destruct (String.eqb _ CredentialClassAPIKey); [destruct (Eligible _); [eauto|done]|].
    destruct (String.eqb _ CredentialClassOAuth); [|done]. destruct (Eligible _); [eauto|done]. }
  assert (Hreg := register_sound defaultGatewayBridges defaultGatewayBridges ∅ defaultGatewayBridgeRegistry).
  apply Hreg in Hb as [E Hin]; [|done|done|apply default_registry_ok]. by injection E.
Qed.

(** The chat adapter is that of one operation. *)
Lemma chat_bridge_op ob :
  OpenAIBridge ob ∈ defaultGatewayBridges -> b_id ob = BridgeOpenAIChatCompletionsToCodex ->
  b_opID ob = OpOpenAIChatCompletionsCreate.
Proof.
  intros Hin Hid. assert (Forall (fun b => match b with
      | OpenAIBridge ob => String.eqb (b_id ob) BridgeOpenAIChatCompletionsToCodex = true -> b_opID ob = OpOpenAIChatCompletionsCreate
      | SystemOneBridge => True end) defaultGatewayBridges) as Hf.
  { repeat (constructor; [vm_compute; first [exact I | intros _; reflexivity | discriminate]|]).
    constructor. }
  rewrite Forall_forall in Hf. apply (Hf _ Hin). by rewrite Hid.
Qed.

Lemma chat_body_panics raw : chat_body raw = chat.Panicked -> null_tool raw.
Proof.
  unfold chat_body. intros E. apply chat_panics.
  destruct (chat.buildChatAdapterRequest (Some (Ok raw))) as [[a|e]|]; [discriminate E|discriminate E|reflexivity].
Qed.

Lemma body_panics ob req :
  upstreamBodyAndAdapter ob req = chat.Panicked ->
  b_id ob = BridgeOpenAIChatCompletionsToCodex /\ null_tool (c_RawBody req).
Proof.
  unfold upstreamBodyAndAdapter, translated. cbv zeta. intros E.
  destruct (String.eqb (b_id ob) BridgeOpenAIResponsesToCodex); [discriminate E|].
  destruct (String.eqb (b_id ob) BridgeCodexNativeResponsesDirect); [discriminate E|].
  destruct (String.eqb (b_id ob) BridgeOpenAIResponsesCompactToCodex); [discriminate E|].
  destruct (String.eqb (b_id ob) BridgeCodexNativeResponsesCompactDirect); [discriminate E|].
  destruct (String.eqb_spec (b_id ob) BridgeOpenAIChatCompletionsToCodex) as [Eb|].
  - split; [exact Eb|]. by apply chat_body_panics.
  - destruct (String.eqb (b_id ob) BridgeCodexNativeTranscribeDirect); [destruct (c_Body req)|]; discriminate E.
Qed.

Lemma build_panics r b i :
  build_upstream r b i = chat.Panicked ->
  exists ob, b = OpenAIBridge ob /\ b_id ob = BridgeOpenAIChatCompletionsToCodex
    /\ null_tool (c_RawBody (bi_ClientRequest i)).
Proof.
  destruct b as [ob|]; cbn [build_upstream]; [|discriminate]. intros Hp. exists ob. split; [reflexivity|].
  apply body_panics. unfold openai_BuildUpstreamRequest in Hp. cbv zeta in Hp.
  destruct (negb _); [discriminate Hp|]. destruct (_ && _); [discriminate Hp|].
  destruct (upstreamBodyAndAdapter ob (bi_ClientRequest i)) as [[[[[? ?] ?] ?]|e]|];
    [discriminate Hp|discriminate Hp|reflexivity].
Qed.

Lemma writeError_answered env r account status code message outcome c :
  outcome <> OutcomeSuccess -> answered r (writeError env r account status code message outcome c).
Proof. intros. left. by apply writeError_answer. Qed.
#[export] Hint Resolve writeError_answer writeError_answered selection_failure_answer forward_failure_answer
  respond_answer : router.

Lemma serve_account_answered env r route b account token :
  answered r (serve_account env defaultGatewayBridgeRegistry r route b account token)
  \/ (serve_account env defaultGatewayBridgeRegistry r route b account token = [EPanic]
      /\ r_OpID route = OpOpenAIChatCompletionsCreate /\ null_tool (effective b)).
Proof.
  unfold serve_account.
  destruct (selectGatewayBridgeFromRegistry _ route _) as [bridge|] eqn:Hs; [|left; by apply writeError_answered].
  destruct (upstream_base env route account) as [base|]; [|left; by apply writeError_answered].
  set (input := mkBuildInput _ _ _ _ _ _ _).
  destruct (build_upstream r bridge input) as [[[up ad]|e]|] eqn:Hb; [|left; by apply writeError_answered|].
  - left. right. do 2 eexists. split; [reflexivity|].
    destruct (forward env r up ad) as [[resp|e] capture]; [apply respond_answer|apply forward_failure_answer].
  - right. split; [done|]. apply build_panics in Hb as (ob & -> & Hid & Hn).
    destruct (selected_bridge _ _ _ Hs) as [<- Hin]. split; [by apply chat_bridge_op|exact Hn].
Qed.

(** ** The body *)

Lemma take_str_len n s : String.length (take_str n s) = Nat.min n (String.length s).
Proof. revert n. induction s as [|a s IH]; intros [|n]; cbn; try lia. by rewrite IH. Qed.

Lemma take_limit_len n s : lenZ (forwarder.take_limit n s) = Z.min (Z.max 0 n) (lenZ s).
Proof.
  unfold forwarder.take_limit. destruct (Z.leb_spec (lenZ s) n); unfold lenZ in *; [lia|].
  rewrite take_str_len. lia.
Qed.

Lemma take_limit_all n s : lenZ (forwarder.take_limit n s) < n -> forwarder.take_limit n s = s.
Proof.
  rewrite take_limit_len. unfold forwarder.take_limit. intros Hn.
  destruct (Z.leb_spec (lenZ s) n); [done|]. unfold lenZ in *. lia.
Qed.

Lemma read_body_answer env r route evs : read_body env r route = inl evs -> answer r evs.
Proof.
  unfold read_body. cbv zeta. destruct (rq_Body r) as [b|]; [|discriminate]. destruct (BodyPolicy route).
  - destruct (read_limited _ _) as [data [e|]]; [intros [= <-]; by apply writeError_answer|].
    destruct (_ <? _); [intros [= <-]; by apply writeError_answer|discriminate].
  - destruct (_ <? _); [intros [= <-]; by apply writeError_answer|discriminate].
  - discriminate.
Qed.

Lemma read_body_data env r route body stream :
  read_body env r route = inr (body, stream) -> body = "" \/ exists rd, rq_Body r = Some rd /\ body = rd_data rd.
Proof.
  unfold read_body. cbv zeta. destruct (rq_Body r) as [b|]; [|intros [= <- _]; by left].
  destruct (BodyPolicy route); [|destruct (_ <? _); [discriminate|]; intros [= <- _]; by left|intros [= <- _]; by left].
  destruct (read_limited _ _) as [data [e|]] eqn:E; [discriminate|]. destruct (Z.ltb_spec (maxRequestBody env) (lenZ data));
    [discriminate|]. intros [= <- _]. right. exists b. split; [done|]. unfold read_limited in E. injection E as <- _.
  apply take_limit_all. lia.
Qed.

(** ** The whole handler *)

Section Serve.
Context {S : Type} `{AccountRepository S}.
Variables (sel : AccountSelector S) (env : ProxyEnv).
#[local] Abbreviation ServeHTTP := (ServeHTTP sel env defaultGatewayBridgeRegistry).

Lemma serve_selected_answered r route b ids st :
  let evs := fst (serve_selected sel env defaultGatewayBridgeRegistry r route b ids st) in
  answered r evs \/ (evs = [EPanic] /\ r_OpID route = OpOpenAIChatCompletionsCreate /\ null_tool (effective b)).
Proof.
  unfold serve_selected. destruct (pick sel _ _ st) as [[a|e] st1]; [|left; left; apply selection_failure_answer].
  destruct (on_repo _ st1) as [[[[a' token] fb]|e] st2]; [apply serve_account_answered|].
  left. left. apply selection_failure_answer.
Qed.

Lemma null_tool_nonempty body : null_tool body -> body <> "".
Proof. by intros (raw & l & E & _) ->. Qed.

Lemma serve_body_answered r route body stream st :
  let evs := fst (serve_body sel env defaultGatewayBridgeRegistry r route body stream st) in
  (body = "" \/ exists rd, rq_Body r = Some rd /\ body = rd_data rd) ->
  answered r evs \/ panics env r route evs.
Proof.
  intros evs Hbody. unfold evs, serve_body. destruct (_ && _); [left; by apply writeError_answered|].
  set (b := mkBodies _ _ _). destruct (buildModelEligibleSet _ _) as [ids|]; [|left; by apply writeError_answered].
  destruct (serve_selected_answered r route b ids st) as [Ha|(Hp & Hop & Hn)]; [by left|]. right.
  split; [exact Hp|]. split; [exact Hop|]. unfold effective, b in Hn. cbn [renamed original] in Hn.
  destruct Hbody as [->|(rd & Hrd & ->)].
  - destruct (rewriteModelForRoute env route (rq_Path r) "") as [[b' m]|] eqn:Er.
    + unfold rewriteModelForRoute in Er. by destruct (modelRename env).
    + by apply null_tool_nonempty in Hn.
  - exists rd. split; [done|]. destruct (rewriteModelForRoute _ _ _ _) as [[b' m]|]; [right; eauto|by left].
Qed.

Lemma serveModelsUnion_answer r route st : answer r (fst (serveModelsUnion env r route st)).
Proof.
  unfold serveModelsUnion. destruct (accountModelRepo env) as [repo|]; [|by apply writeError_answer].
  destruct (ListEligibleAccounts _ _) as [[accounts|e] s']; [|destruct (errors_Is _ _); by apply writeError_answer].
  destruct (ListByAccounts repo _) as [rows|]; [|by apply writeError_answer].
  destruct (models.mergeAccountModelRows rows) as [merged degraded]. cbv zeta.
  destruct (models.models_list merged) as [response|]; [|by apply writeError_answer].
  do 4 eexists. split; [reflexivity|]. cbn [rr_StatusCode rr_RequestID rr_Method rr_Path rr_Outcome rr_ErrorCode].
  repeat split; done.
Qed.

(** C25: Every request is answered exactly once.  On every path through the
    handler - refused, malformed, unselectable, failed upstream, streamed or
    buffered - one response is written, preceded by at most one upstream
    request, and exactly one record is kept, with the response's status; an
    error of the router's own is recorded under its code, and [success] only
    for a response below 400.  The exceptions are the two WebSocket
    operations, which leave this path, and a chat request with a null tool,
    which panics: no answer, no record. *)
Theorem serve_answers_once r st evs st' :
  ServeHTTP r st = (evs, st') ->
  let route := classifyGatewayRoute (rq_Method r) (rq_Path r) (isGatewayWebSocketUpgrade (rq_Headers r)) in
  answered r evs \/ panics env r route evs
  \/ (evs = [EWebSocket route] /\ st' = st /\ isGatewayWebSocketUpgrade (rq_Headers r) = true
      /\ rq_Method r = "GET" /\ Eligible (rt_APIKey route) = false).
Proof.
  intros Hr route. unfold Proxy.ServeHTTP in Hr. fold route in Hr.
  destruct (_ || _) eqn:Hk in Hr; [injection Hr as <- <-; left; by apply writeError_answered|].
  destruct (String.eqb (ResponseMode route) ResponseModeWebSocket) eqn:Hw.
  - right. right. injection Hr as <- <-. split; [done|]. split; [done|].
    revert Hk Hw. subst route. unfold classifyGatewayRoute, classifySupportedGatewayRoute.
    destruct (isBlockedGatewayPath _); [done|].
    destruct (isGatewayWebSocketUpgrade (rq_Headers r)).
    + repeat case_match; breflect; intros; simplify_eq; done.
    + destruct (staticGatewayRoute _ _) as [r'|] eqn:Hs.
      * intros _ Hm. apply static_json in Hs. by rewrite Hs in Hm.
      * by destruct (platformOnlyDynamicPattern _ _) as [[? ?]|].
  - destruct (isModelsUnionRoute route r).
    { left. left. pose proof (serveModelsUnion_answer r route st) as Ha. by rewrite Hr in Ha. }
    destruct (if is_systemone route then _ else None);
      [injection Hr as <- <-; left; by apply writeError_answered|].
    destruct (read_body env r route) as [evs1|[body stream]] eqn:Hb.
    + injection Hr as <- <-. left. left. by eapply read_body_answer.
    + pose proof (serve_body_answered r route body stream st (read_body_data _ _ _ _ _ Hb)) as Ha. rewrite Hr in Ha.
      tauto.
Qed.
End Serve.

(** ** What is sent upstream *)

Lemma no_send r evs u : answer r evs -> ESend u ∉ evs.
Proof.
  intros (s & h & w & rec & -> & _). rewrite !elem_of_cons, elem_of_nil. naive_solver.
Qed.

Lemma no_send_error env r u account status code message outcome c :
  ESend u ∉ writeError env r account status code message outcome c.
Proof. unfold writeError, WriteRouterError, WriteNativeError, recordProxyError.
  destruct (bodyLog env) as [[x y] z]. rewrite !elem_of_cons, elem_of_nil. naive_solver.
Qed.

Lemma built_upstream r b i u adapter :
  build_upstream r b i = chat.Returned (Ok (u, adapter)) -> bi_CredentialValue i <> "" ->
  u_OpID u = bridge_OpID b /\ u_AccountID u = bi_AccountID i /\ u_UseProxy u = bi_UseProxy i
  /\ Values (u_Headers u) "Authorization" = ["Bearer " +:+ bi_CredentialValue i].
Proof.
  intros Hb Hc. destruct b as [ob|]; cbn [build_upstream] in Hb.
  - unfold openai_BuildUpstreamRequest in Hb. cbv zeta in Hb.
    destruct (negb _); [discriminate Hb|]. destruct (_ && _); [discriminate Hb|].
    destruct (upstreamBodyAndAdapter ob (bi_ClientRequest i)) as [[[[[raw body] len] ad]|e]|];
      [|discriminate Hb|discriminate Hb]. injection Hb as <- _.
    cbn [u_OpID u_AccountID u_UseProxy u_Headers bridge_OpID]. rewrite upstreamHeaders_authorization.
    apply String.eqb_neq in Hc. by rewrite Hc.
  - unfold systemone_BuildUpstreamRequest in Hb. repeat case_match; simplify_eq. by repeat split.
Qed.

Section Sends.
Context {S : Type} `{AccountRepositoryLaws S}.
Variables (sel : AccountSelector S) (env : ProxyEnv).

(** A session router picks one of the accounts it is shown. *)
Definition router_member : Prop :=
  forall route k l b, sessionRouter sel = Some route -> route k l = Ok b -> b ∈ l.

Lemma pick_ok key eligible st a st' :
  router_member -> pick sel key eligible st = (Ok a, st') ->
  available eligible (fst st) a /\ fst st' = fst st.
Proof.
  intros Hroute Hp.
  destruct (repo_ListActive (fst st)) as [[active|e] s1] eqn:Hl.
  - pose proof (proj1 (repo_active_ok _ _ _ Hl)) as ->.
    destruct (repo_active_ok _ _ _ Hl) as (_ & Hin & _).
    assert (forall b, b ∈ candidates eligible active -> available eligible (fst st) b) as Hav.
    { intros b. rewrite elem_candidates, Hin. unfold available. tauto. }
    rewrite (pick_eq _ _ _ _ _ Hl) in Hp. destruct (candidates eligible active) as [|a0 l] eqn:E; [done|].
    destruct (if String.eqb key "" then None else sessionRouter sel) as [route|] eqn:Er.
    + injection Hp as Hr <-. split; [|done]. apply Hav.
      assert (sessionRouter sel = Some route) as Hs by (by destruct (String.eqb key "")). eauto.
    + injection Hp as <- <-. split; [|done]. apply Hav, nth_mod_elem.
  - unfold pick, mbind, M_bind, wrap_err, on_repo in Hp. by rewrite Hl in Hp.
Qed.

(** What is known of a request sent for an account. *)
Definition sent_for (r : Request) (route : gatewayRoute) (st : S) (u : UpstreamRequest) : Prop :=
  exists ids a a' token fallback s',
    available (Some (proxyAccountEligible route ids)) st a
    /\ prepareToken sel a st = (Ok (a', token, fallback), s') /\ 0 < bytes_len token
    /\ u_OpID u = r_OpID route /\ u_AccountID u = ID a' /\ u_UseProxy u = UseProxy a'
    /\ Values (u_Headers u) "Authorization" = ["Bearer " +:+ default "" token].

Lemma serve_account_sends r route b account token u :
  0 < bytes_len token ->
  ESend u ∈ serve_account env defaultGatewayBridgeRegistry r route b account token ->
  u_OpID u = r_OpID route /\ u_AccountID u = ID account /\ u_UseProxy u = UseProxy account
  /\ Values (u_Headers u) "Authorization" = ["Bearer " +:+ default "" token].
Proof.
  intros Ht Hin. unfold serve_account in Hin. cbv zeta in Hin.
  assert (default "" token <> "") as Hne.
  { intros E. unfold bytes_len in Ht. rewrite E in Ht. done. }
  destruct (selectGatewayBridgeFromRegistry _ route _) as [bridge|] eqn:Hs; [|by apply no_send_error in Hin].
  destruct (upstream_base env route account) as [base|]; [|by apply no_send_error in Hin].
  destruct (build_upstream _ _ _) as [[[up ad]|e]|] eqn:Hb;
    [|by apply no_send_error in Hin|by apply list_elem_of_singleton in Hin].
  apply elem_of_cons in Hin as [[= <-]|Hin].
  - apply built_upstream in Hb as (E1 & E2 & E3 & E4); [|exact Hne].
    rewrite E1, (proj1 (selected_bridge _ _ _ Hs)). split; [reflexivity|]. split; [exact E2|]. split; [exact E3|exact E4].
  - exfalso. revert Hin. destruct (forward _ _ _ _) as [[resp|e] capture];
      apply (no_send r); [apply respond_answer | apply forward_failure_answer].
Qed.

End Sends.
