(* ===== verification/ProxyRecords.v ===== *)
(** * ProxyRecords: what is kept of the bodies, and which accounts a model
      may use *)

From S2P Require Import Prelude GoLib GoHTTP GoStrings GoMime GoJSON GoAny GoBufio Errors Account Engine Store.
From S2P Require Import Selector Usage SSE SSEProofs CodexRequest ChatRequest GatewayRoutes Bridges Gateway Forwarder.
From S2P Require Import SystemOne GoRegexp Redaction AccountModels AccountModelsProofs Proxy ProxyProofs.

(** ** Logged bodies are short *)

Lemma cut_index_le limit idx cut l : cut <= limit -> cut_index limit idx cut l <= limit.
Proof.
  revert idx cut. induction l as [|p l IH]; intros idx cut Hc; cbn [cut_index]; [done|].
  destruct (Z.ltb_spec limit idx); [done|]. apply IH. lia.
Qed.

(** A body is logged in at most 1 MiB. *)
Theorem captured_bounded body : lenZ (capturedBodyString body) <= bodyCaptureMaxBytes.
Proof.
  unfold capturedBodyString. cbv zeta. destruct (Z.leb_spec (lenZ (redaction.RedactCapturedBody body)) bodyCaptureMaxBytes);
    [done|]. assert (lenZ capturedBodyTruncatedMarker = 12) as E by reflexivity.
  destruct (Z.leb_spec (bodyCaptureMaxBytes - lenZ capturedBodyTruncatedMarker) 0); [rewrite E; unfold bodyCaptureMaxBytes; lia|].
  rewrite lenZ_app, take_limit_len. set (limit := bodyCaptureMaxBytes - lenZ capturedBodyTruncatedMarker) in *.
  pose proof (cut_index_le limit 0 0 (runes (redaction.RedactCapturedBody body)) ltac:(lia)).
  destruct (_ =? 0); lia.
Qed.

(** ** Logged bodies are redacted *)

(** The three bodies of a record. *)
Definition record_ok (env : ProxyEnv) (r : Request) (rec : RequestRecord) : Prop :=
  let '(clientLog, upstreamReqLog, upstreamRespLog) := bodyLog env in
  (forall s, rr_ClientRequestBody rec = Some s ->
     clientLog = true /\ exists rd, rq_Body r = Some rd /\ s = capturedBodyString (rd_data rd))
  /\ (forall s, rr_UpstreamRequestBody rec = Some s -> upstreamReqLog = true /\ exists body, s = capturedBodyString body)
  /\ (forall s, rr_UpstreamResponseBody rec = Some s ->
       upstreamRespLog = true /\ exists body, s = capturedBodyString body \/ s = redaction.RedactCapturedBody body).

Definition records_ok (env : ProxyEnv) (r : Request) (evs : list event) : Prop :=
  Forall (fun e => match e with ERecord rec => record_ok env r rec | _ => True end) evs.

(** What is taken for the client's body is its body. *)
Definition client_body (r : Request) (body : string) : Prop :=
  body = "" \/ exists rd, rq_Body r = Some rd /\ body = rd_data rd.

Lemma logged_some on body s : logged on body = Some s -> on = true /\ body <> "" /\ s = capturedBodyString body.
Proof.
  unfold logged. destruct on; [|discriminate]. destruct (String.eqb_spec body ""); [discriminate|]. by intros [= <-].
Qed.

Lemma logged_client r on body s :
  client_body r body -> logged on body = Some s ->
  on = true /\ exists rd, rq_Body r = Some rd /\ s = capturedBodyString (rd_data rd).
Proof. intros [->|(rd & Hrd & ->)] Hl; apply logged_some in Hl as (-> & Hne & ->); [done|eauto]. Qed.

Lemma logged_any on body s : logged on body = Some s -> on = true /\ exists body, s = capturedBodyString body.
Proof. intros Hl. apply logged_some in Hl as (-> & _ & ->). eauto. Qed.

Lemma logged_redacted on body s :
  logged on body = Some s ->
  on = true /\ exists body, s = capturedBodyString body \/ s = redaction.RedactCapturedBody body.
Proof. intros Hl. apply logged_some in Hl as (-> & _ & ->). eauto. Qed.

(** The three parts of [record_ok]. *)
Ltac kept_bodies :=
  split_and!; intros s; [by apply logged_client | apply logged_any | first [apply logged_redacted | auto]].

Lemma native_records env r account status ty code message outcome c :
  client_body r (clientRequestBody c) ->
  records_ok env r [WriteNativeError r status ty code message; recordProxyError env r account status code outcome c].
Proof.
  intros Hc. constructor; [exact I|]. constructor; [|constructor]. unfold recordProxyError, record_ok.
  destruct (bodyLog env) as [[x y] z]. cbv beta iota zeta.
  cbn [rr_ClientRequestBody rr_UpstreamRequestBody rr_UpstreamResponseBody]. kept_bodies.
Qed.

Lemma writeError_records env r account status code message outcome c :
  client_body r (clientRequestBody c) -> records_ok env r (writeError env r account status code message outcome c).
Proof. apply native_records. Qed.

Lemma selection_failure_records env r route m account err c :
  client_body r (clientRequestBody c) -> records_ok env r (selection_failure env r route m account err c).
Proof.
  intros Hc. unfold selection_failure.
  destruct (errors_Is err ErrNoCapacity); [destruct (_ && _)|destruct (errors_Is err ErrPreForward)];
    first [by apply writeError_records | by apply native_records].
Qed.

Lemma forward_failure_records env r account err c :
  client_body r (clientRequestBody c) -> records_ok env r (forward_failure env r account err c).
Proof. intros Hc. unfold forward_failure. repeat case_match; by apply writeError_records. Qed.

Lemma deliver_records env r account reqBody capture metadata mode a :
  client_body r reqBody ->
  (forall s, ao_UpstreamBody a = Some s ->
     snd (bodyLog env) = true /\ exists body, s = capturedBodyString body \/ s = redaction.RedactCapturedBody body) ->
  records_ok env r (deliver env r account reqBody capture metadata mode a).
Proof.
  intros Hc Ha. unfold deliver, records_ok. destruct (bodyLog env) as [[x y] z] eqn:E.
  constructor; [exact I|]. constructor; [|constructor]. unfold record_ok. rewrite E.
  cbn [rr_ClientRequestBody rr_UpstreamRequestBody rr_UpstreamResponseBody snd] in *. kept_bodies.
Qed.

Lemma buffered_records env r resp capture headers outcome body u s :
  ao_UpstreamBody (buffered_answer env r resp capture headers outcome body u) = Some s ->
  snd (bodyLog env) = true /\ exists body, s = capturedBodyString body \/ s = redaction.RedactCapturedBody body.
Proof.
  unfold buffered_answer, recorded_body. cbn [ao_UpstreamBody]. cbv zeta.
  destruct (negb _); [|apply logged_redacted]. destruct (snd (bodyLog env)); [|discriminate]. intros [= <-]. eauto.
Qed.

Lemma stream_records env resp capture headers outcome s :
  ao_UpstreamBody (stream_answer env resp capture headers outcome) = Some s ->
  snd (bodyLog env) = true /\ exists body, s = capturedBodyString body \/ s = redaction.RedactCapturedBody body.
Proof.
  unfold stream_answer. cbv zeta. destruct (sse.ForwardSSE _ _ _ _ _) as [result cmds].
  destruct (match sse.ResultErr result with Some e => _ | None => _ end) as [outcome' code]. cbn [ao_UpstreamBody].
  destruct (negb _); [apply logged_redacted|]. destruct (forwarder.UpstreamResponseBodySnapshot capture); apply logged_redacted.
Qed.

Lemma respond_records env r route account reqBody metadata resp capture :
  client_body r reqBody -> records_ok env r (respond env r route account reqBody metadata resp capture).
Proof.
  intros Hc. unfold respond. cbv zeta. destruct (response_mode _ _ _ _) as [mode headers]. destruct (is_systemone route).
  - destruct (systemone_response resp) as [[body u]|[body e]]; [|by apply writeError_records].
    apply deliver_records; [done|]. apply buffered_records.
  - destruct (String.eqb mode ResponseModeSSE); [apply deliver_records; [done|]; apply stream_records|].
    destruct (readBounded _ _ _) as [body [e|]]; (apply deliver_records; [done|]); [done|]. apply buffered_records.
Qed.

Lemma serve_account_records env registry r route b account token :
  client_body r (original b) -> records_ok env r (serve_account env registry r route b account token).
Proof.
  intros Hc. unfold serve_account. cbv zeta.
  destruct (selectGatewayBridgeFromRegistry _ _ _) as [bridge|]; [|by apply writeError_records].
  destruct (upstream_base _ _ _) as [base|]; [|by apply writeError_records].
  destruct (build_upstream _ _ _) as [[[up ad]|e]|]; [|by apply writeError_records|by repeat constructor].
  constructor; [exact I|]. destruct (forward _ _ _ _) as [[resp|e] capture];
    [by apply respond_records|by apply forward_failure_records].
Qed.

Lemma read_body_records env r route evs : read_body env r route = inl evs -> records_ok env r evs.
Proof.
  assert (client_body r (clientRequestBody no_error_capture)) as Hc by (by left).
  unfold read_body. cbv zeta. destruct (rq_Body r) as [b|]; [|discriminate]. destruct (BodyPolicy route).
  - destruct (read_limited _ _) as [data [e|]]; [intros [= <-]; by apply writeError_records|].
    destruct (_ <? _); [intros [= <-]; by apply writeError_records|discriminate].
  - destruct (_ <? _); [intros [= <-]; by apply writeError_records|discriminate].
  - discriminate.
Qed.

Lemma union_records {S} `{AccountRepository S} env r route st :
  records_ok env r (fst (serveModelsUnion env r route st)).
Proof.
  assert (forall m, client_body r (clientRequestBody (mkErrorCapture "" "" "" m))) as Hc by (intros; by left).
  unfold serveModelsUnion. destruct (accountModelRepo env) as [repo|]; [|by apply writeError_records].
  destruct (ListEligibleAccounts _ _) as [[accounts|e] s']; [|destruct (errors_Is _ _); by apply writeError_records].
  destruct (ListByAccounts repo _) as [rows|]; [|by apply writeError_records].
  destruct (models.mergeAccountModelRows rows) as [merged degraded]. cbv zeta.
  destruct (models.models_list merged) as [response|]; [|by apply writeError_records].
  constructor; [exact I|]. constructor; [|constructor]. unfold record_ok. destruct (bodyLog env) as [[x y] z].
  cbn [rr_ClientRequestBody rr_UpstreamRequestBody rr_UpstreamResponseBody]. done.
Qed.


(** ** Routing by model *)

(** The repository over a table; [stored] are the accounts not deleted. *)
Definition model_repo (fault : nat -> option error) (stored : list Z) (t : models.table) : AccountModelRepository :=
  mkAccountModelRepository
    (fun model => models.AccountsWithModel fault model t)
    (models.AccountsWithoutModels fault stored t)
    (fun ids => models.ListByAccounts fault ids t).

Lemma distinct_accounts_in p t a :
  table_ok t ->
  a ∈ models.distinct_accounts (models.rows p t) <-> exists r, t !! (a, m_ModelID r) = Some r /\ p r = true.
Proof.
  intros Hok. unfold models.distinct_accounts. rewrite elem_of_remove_dups, list_elem_of_fmap. split.
  - intros (r & -> & Hin). apply elem_rows in Hin as [Hl Hp]; [|done]. eauto.
  - intros (r & Hl & Hp). pose proof (proj1 (Hok _ _ Hl)) as E. injection E as E. exists r. split; [done|].
    apply elem_rows; [done|]. by rewrite <- E.
Qed.

(** The accounts a request for a model may use are those that list the
    model, and the stored ones that list no model at all; without a model or
    without a table the selection is not restricted; if the table cannot be
    read the request is not served. *)
Theorem eligible_for_model env fault stored t model :
  accountModelRepo env = Some (model_repo fault stored t) -> table_ok t ->
  match buildModelEligibleSet env (Some model) with
  | Ok (Some ids) =>
      forall a, a ∈ ids <-> is_Some (t !! (a, model)) \/ (a ∈ stored /\ forall m, t !! (a, m) = None)
  | Ok None => False
  | Err _ => exists i, is_Some (fault i)
  end.
Proof.
  intros Hrepo Hok. unfold buildModelEligibleSet. rewrite Hrepo. cbn [AccountsWithModel AccountsWithoutModels model_repo].
  unfold models.AccountsWithModel, models.AccountsWithoutModels, models.statement.
  destruct (fault 0%nat) as [e|] eqn:E0; [exists 0%nat; by rewrite E0|]. cbn [mbind result_bind].
  destruct (fault 1%nat) as [e|] eqn:E1; [exists 1%nat; by rewrite E1|]. cbn [mbind result_bind].
  intros a. rewrite elem_of_union, !elem_of_list_to_set, distinct_accounts_in by done.
  rewrite list_elem_of_In, List.filter_In, <- list_elem_of_In, negb_true_iff. apply ZifyClasses.or_morph; [|apply and_iff_compat_l].
  - split; [intros (r & Hl & E); apply String.eqb_eq in E as <-; by eexists|].
    intros [r Hl]. pose proof (proj1 (Hok _ _ Hl)) as E. injection E as -> ->. exists r. split; [done|]. apply String.eqb_refl.
  - rewrite <- not_true_iff_false, existsb_exists. split.
    + intros Hno m. destruct (t !! (a, m)) as [r|] eqn:Hl; [|done]. exfalso. apply Hno. exists a.
      split; [|apply Z.eqb_refl]. apply list_elem_of_In, distinct_accounts_in; [done|].
      pose proof (proj1 (Hok _ _ Hl)) as E. injection E as -> ->. by exists r.
    + intros Hno (a' & Hin & E). apply Z.eqb_eq in E as <-. apply list_elem_of_In, distinct_accounts_in in Hin as (r & Hl & _);
        [|done]. by rewrite Hno in Hl.
Qed.
