(* ===== verification/WebSocket.v ===== *)
(** * WebSocket: serving a WebSocket request
      (internal/api/websocket_proxy.go, internal/provider/openai/codex_ws.go)

    The relay is two goroutines that copy messages and the handler that waits
    for them, over connections whose calls may answer anything: a state with
    one atomic action at a time.  Around it, [serveWebSocket] is a function to
    the list of its effects, as [Proxy.ServeHTTP]; the dial, the acceptance of
    the client's connection, the random bytes and what the first goroutine
    reports are arguments.  The HTTP responses of the two handshakes, which
    the WebSocket library reads and writes, are left out. *)

From S2P Require Import Prelude GoLib GoHTTP GoStrings GoURL GoJSON GoEncoding GoBufio Errors Account Engine.
From S2P Require Import Store Selector Usage GatewayRoutes Bridges Forwarder ChatRequest Proxy.

Module websocket.

(** ** Messages, connections, close codes *)

(** The type of a message (text or binary) and its bytes. *)
Definition message : Type := Z * string.

Inductive conn := Downstream | Upstream.
Inductive direction := downstream_to_upstream | upstream_to_downstream.
#[export] Instance direction_eq_dec : EqDecision direction.
Proof. solve_decision. Defined.

(** The close codes of RFC 6455 under their names in the library. *)
Definition StatusNormalClosure : Z := 1000.
Definition StatusGoingAway : Z := 1001.
Definition StatusPolicyViolation : Z := 1008.
Definition StatusMessageTooBig : Z := 1009.
Definition StatusBadGateway : Z := 1014.

(** ** One direction: [copyWebSocketMessages] *)

Section copy.

(** How a [Read] ends: there is more, the message ends, or it fails. *)
Inductive read_end := RMore | REOF | RFailed (e : error).

(** The call the loop is in. *)
Inductive copy_pc :=
  | CReader                                             (* src.Reader *)
  | CWriter (t : Z)                                     (* dst.Writer *)
  | CDiscard (e : error)                                (* io.Copy(io.Discard, reader) *)
  | CRead (t : Z) (copied : string)                     (* io.Copy: reader.Read *)
  | CWrite (t : Z) (copied chunk : string) (r : read_end) (* io.Copy: writer.Write *)
  | CClose (t : Z) (copied : string)                    (* writer.Close *)
  | CAbandon (t : Z) (copied : string) (e : error)      (* writer.Close, its error dropped *)
  | CReturned (e : error).

(** With the messages read to their end, the one in hand as far as it is read,
    and the messages closed on the other connection. *)
Record copier := mkCopier {
  k_pc : copy_pc; k_read : list message; k_part : option message; k_delivered : list message }.
Definition new_copier : copier := mkCopier CReader [] None [].

(** What a call answers. *)
Inductive call_answer :=
  | AReader (r : result error Z)
  | AWriter (e : option error)
  | ADiscard
  | ARead (chunk : string) (r : read_end)
  | AWrite (n : Z) (e : option error)
  | AClose (e : option error).

Definition errShortWrite : error := New "short write".
Definition errInvalidWrite : error := New "invalid write result".

(** After what was read is written, [io.Copy] looks at how the read ended. *)
Definition after_read (k : copier) (t : Z) (copied : string) (r : read_end) : copier :=
  match r with
  | RMore => mkCopier (CRead t copied) (k_read k) (Some (t, copied)) (k_delivered k)
  | REOF => mkCopier (CClose t copied) (k_read k ++ [(t, copied)]) None (k_delivered k)
  | RFailed e => mkCopier (CAbandon t copied e) (k_read k) (Some (t, copied)) (k_delivered k)
  end.

Definition set_pc (k : copier) (pc : copy_pc) : copier := mkCopier pc (k_read k) (k_part k) (k_delivered k).
Definition deliver (k : copier) (m : message) (pc : copy_pc) : copier :=
  mkCopier pc (k_read k) (k_part k) (k_delivered k ++ [m]).

Definition copy_step (k : copier) (a : call_answer) : option copier :=
  match k_pc k, a with
  | CReader, AReader (Err e) => Some (set_pc k (CReturned e))
  | CReader, AReader (Ok t) => Some (mkCopier (CWriter t) (k_read k) (Some (t, "")) (k_delivered k))
  | CWriter t, AWriter (Some e) => Some (set_pc k (CDiscard e))
  | CWriter t, AWriter None => Some (set_pc k (CRead t ""))
  | CDiscard e, ADiscard => Some (set_pc k (CReturned e))
  | CRead t copied, ARead chunk r =>
      if String.eqb chunk "" then Some (after_read k t copied r)
      else Some (mkCopier (CWrite t copied chunk r) (k_read k) (Some (t, copied +:+ chunk)) (k_delivered k))
  | CWrite t copied chunk r, AWrite n err =>
      let valid := (0 <=? n) && (n <=? lenZ chunk) in
      let n := if valid then n else 0 in
      let err := if valid then err else Some (default errInvalidWrite err) in
      let written := copied +:+ forwarder.take_limit n chunk in
      match err with
      | Some e => Some (set_pc k (CAbandon t written e))
      | None => if n =? lenZ chunk then Some (after_read k t written r)
                else Some (set_pc k (CAbandon t written errShortWrite))
      end
  | CClose t copied, AClose (Some e) => Some (set_pc k (CReturned e))
  | CClose t copied, AClose None => Some (deliver k (t, copied) CReader)
  | CAbandon t copied e, AClose (Some _) => Some (set_pc k (CReturned e))
  | CAbandon t copied e, AClose None => Some (deliver k (t, copied) (CReturned e))
  | _, _ => None
  end.

End copy.

(** ** Both directions: [relayWebSockets] *)

Section relay.
(** The close code an error of the library carries, or -1. *)
Context (CloseStatus : error -> Z).

Inductive close_call := CallClose (c : conn) (status : Z) | CallCloseNow (c : conn).

(** The code the peers are closed with. *)
Definition close_status (cause : error) : Z :=
  let status := CloseStatus cause in
  if (status =? StatusNormalClosure) || (status =? StatusGoingAway) || (status =? StatusPolicyViolation)
     || (status =? StatusMessageTooBig) || (status =? StatusBadGateway)
  then status else StatusBadGateway.

Definition closeWebSocketPeer (c : conn) (cause : error) : list close_call :=
  [CallClose c (close_status cause); CallCloseNow c].

Definition relayErrorIsNormal (err : error) : bool :=
  (CloseStatus err =? StatusNormalClosure) || (CloseStatus err =? StatusGoingAway).

(** The outcome and the error code. *)
Definition relay_outcome (first : direction * error) : string * string :=
  if relayErrorIsNormal (snd first) then (OutcomeSuccess, "")
  else if bool_decide (fst first = downstream_to_upstream) then (OutcomeCancelled, "")
  else (OutcomeRouterError, ErrCodeUpstreamConnFailed).

(** A goroutine: its loop, and whether it has sent its result. *)
Record goroutine := mkGoroutine { g_copier : copier; g_sent : bool }.

Inductive main_pc :=
  | MWaitFirst
  | MCancel (first : direction * error)
  | MClose (first : direction * error) (todo : list close_call)
  | MWaitSecond (first : direction * error)
  | MReturned (first : direction * error) (result : string * string).

Record relay := mkRelay {
  down_up : goroutine; up_down : goroutine;
  results : list (direction * error);
  main : main_pc; cancelled : bool; calls : list close_call }.
#[export] Instance relay_eta : Eta relay := fun s =>
  mkRelay (down_up s) (up_down s) (results s) (main s) (cancelled s) (calls s).

Definition start : relay :=
  mkRelay (mkGoroutine new_copier false) (mkGoroutine new_copier false) [] MWaitFirst false [].

Definition goroutine_of (d : direction) (s : relay) : goroutine :=
  match d with downstream_to_upstream => down_up s | upstream_to_downstream => up_down s end.
Definition set_goroutine (d : direction) (g : goroutine) (s : relay) : relay :=
  match d with
  | downstream_to_upstream => s <| down_up := g |>
  | upstream_to_downstream => s <| up_down := g |>
  end.

(** The capacity of [results]. *)
Definition results_cap : nat := 2.

Definition send_step (d : direction) (s : relay) : option relay :=
  let g := goroutine_of d s in
  match k_pc (g_copier g) with
  | CReturned e =>
      if g_sent g || negb (bool_decide (List.length (results s) < results_cap)%nat) then None
      else Some (set_goroutine d (mkGoroutine (g_copier g) true) s <| results := results s ++ [(d, e)] |>)
  | _ => None
  end.

(** [timeout]: the second after the connections were closed is over. *)
Definition main_step (timeout : bool) (s : relay) : option relay :=
  match main s with
  | MWaitFirst =>
      match results s with
      | [] => None
      | first :: rest => Some (s <| results := rest |> <| main := MCancel first |>)
      end
  | MCancel first =>
      Some (s <| cancelled := true |>
              <| main := MClose first (closeWebSocketPeer Downstream (snd first) ++ closeWebSocketPeer Upstream (snd first)) |>)
  | MClose first (c :: todo) => Some (s <| calls := calls s ++ [c] |> <| main := MClose first todo |>)
  | MClose first [] => Some (s <| main := MWaitSecond first |>)
  | MWaitSecond first =>
      if timeout then Some (s <| main := MReturned first (relay_outcome first) |>)
      else match results s with
           | [] => None
           | _ :: rest => Some (s <| results := rest |> <| main := MReturned first (relay_outcome first) |>)
           end
  | MReturned _ _ => None
  end.

Definition copier_step (d : direction) (a : call_answer) (s : relay) : option relay :=
  let g := goroutine_of d s in
  k ← copy_step (g_copier g) a;
  Some (set_goroutine d (mkGoroutine k (g_sent g)) s).

Inductive label := LCopy (d : direction) (a : call_answer) | LSend (d : direction) | LMain (timeout : bool).

Definition step_fun (l : label) (s : relay) : option relay :=
  match l with LCopy d a => copier_step d a s | LSend d => send_step d s | LMain timeout => main_step timeout s end.

Inductive step : relay -> relay -> Prop :=
  | step_label l s s' : step_fun l s = Some s' -> step s s'.

Definition reachable : relay -> Prop := rtc step start.

(** A schedule, run. *)
Fixpoint run (ls : list label) (s : relay) : option relay :=
  match ls with [] => Some s | l :: ls => s' ← step_fun l s; run ls s' end.

End relay.

(** ** The handshake *)

(** The alphabet of [base64.StdEncoding]. *)
Definition std_sextet (a : ascii) : option Z :=
  let c := byteZ a in
  if c =? 43 then Some 62 else if c =? 47 then Some 63
  else if (c =? 45) || (c =? 95) then None else sextet a.

Definition pad : ascii := "="%char.

(** Four characters at a time; padding only ends the text. *)
Fixpoint std_quanta (l : list ascii) : option string :=
  match l with
  | [] => Some ""
  | a :: b :: c :: d :: l' =>
      x ← std_sextet a;
      y ← std_sextet b;
      if Ascii.eqb c pad then
        if Ascii.eqb d pad && match l' with [] => true | _ => false end then join6 [x; y] else None
      else
        z ← std_sextet c;
        if Ascii.eqb d pad then match l' with [] => join6 [x; y; z] | _ => None end
        else
          w ← std_sextet d;
          rest ← std_quanta l';
          s ← join6 [x; y; z; w];
          Some (s +:+ rest)
  | _ => None
  end.

Definition StdEncoding_DecodeString (s : string) : option string :=
  std_quanta (List.filter (fun a => negb ((byteZ a =? 10) || (byteZ a =? 13))) (list_ascii_of_string s)).

Definition webSocketHandshakeIsValid (r : Request) : bool :=
  if negb (String.eqb (rq_Method r) "GET") || negb (isGatewayWebSocketUpgrade (rq_Headers r)) then false
  else if negb (String.eqb (Get (rq_Headers r) "Sec-WebSocket-Version") "13") then false
  else
    let key := TrimSpace (Get (rq_Headers r) "Sec-WebSocket-Key") in
    if String.eqb key "" then false
    else match StdEncoding_DecodeString key with Some decoded => lenZ decoded =? 16 | None => false end.

(** ** The upstream connection (codex_ws.go) *)

Definition responsesWebSocketBetaToken := "responses_websockets=2026-02-06".

(** [hex.EncodeToString]. *)
Fixpoint hex_EncodeToString (s : string) : string :=
  match s with
  | EmptyString => ""
  | String a t => String (hex_digit (byteZ a / 16)) (String (hex_digit (byteZ a mod 16)) (hex_EncodeToString t))
  end.

(** [raw]: the random bytes; without them the code panics, which is [None]. *)
Definition ResolveCodexTurnState (raw : option string) (inbound : string) : option string :=
  let trimmed := TrimSpace inbound in
  if negb (String.eqb trimmed "") then Some trimmed
  else raw ← raw; Some ("turn_" +:+ hex_EncodeToString raw).

Definition websocketURL (target : string) : string :=
  let target := TrimSpace target in
  if HasPrefix target "https://" then "wss://" +:+ TrimPrefix target "https://"
  else if HasPrefix target "http://" then "ws://" +:+ TrimPrefix target "http://"
  else target.

Definition has_beta (headers : Header) (token : string) : bool :=
  existsb (fun value => existsb (fun part => String.eqb (TrimSpace part) token) (Split value ","%char))
    (GoHTTP.Values headers "OpenAI-Beta").

Definition appendOpenAIBeta (headers : Header) (token : string) : Header :=
  if has_beta headers token then headers else HeaderAdd headers "OpenAI-Beta" token.

(** ** The handler *)

Inductive ws_event :=
  | WHttp (e : event)
  | WDial (url : string) (headers : Header) (proxied : bool)
  | WAccept (headers : Header)
  | WRelay (readLimit : Z)
  | WCloseNow (c : conn).

Record WSEnv := mkWSEnv {
  (* the bytes of crypto/rand *)
  rand16 : option string;
  (* the handshakes with the upstream and with the client *)
  Dial : string -> Header -> bool -> option error;
  Accept : Header -> option error;
  (* what the relay receives first *)
  relayed : direction * error;
  CloseStatusOf : error -> Z }.

Section dial.
Variables (env : ProxyEnv) (ws : WSEnv).

Definition dial_headers (headers : Header) (turnState : string) : Header :=
  appendOpenAIBeta (HeaderSet headers "x-codex-turn-state" turnState) responsesWebSocketBetaToken.

(** The events, and the error if there is no connection. *)
Definition dialWebSocket (targetURL : string) (headers : Header) (turnState : string) (useProxy : bool)
    : list ws_event * option error :=
  let headers := dial_headers headers turnState in
  match forwarder.httpClientForUseProxy (proxy_configured env) useProxy with
  | Err e => ([], Some (Wrapf2 "%w: %w" (Sentinel ErrUpstreamConnectFailed) e))
  | Ok proxied =>
      ([WDial targetURL headers proxied],
       match Dial ws targetURL headers proxied with
       | None => None
       | Some e => Some (if forwarder.isTimeout (net_timeout env) e then Sentinel ErrUpstreamTimeout
                         else Wrapf2 "%w: %w" (Sentinel ErrUpstreamConnectFailed) e)
       end)
  end.

Definition DialBridgeWebSocket (upstream : UpstreamRequest) (turnState : string) : list ws_event * option error :=
  if String.eqb (TrimSpace (u_URL upstream)) "" then
    ([], Some (Wrapf "%w: missing bridge websocket upstream URL" [] (Sentinel ErrInvalidUpstreamRequest)))
  else dialWebSocket (websocketURL (u_URL upstream)) (u_Headers upstream) turnState (u_UseProxy upstream).

(** The older entry, which only tests still use; it builds the request itself. *)
Definition codexBackendPath (path : string) : string :=
  if String.eqb path "/v1/responses" then "/codex/responses"
  else if String.eqb path "/v1/responses/compact" then "/codex/responses/compact"
  else if String.eqb path "/backend-api/codex/responses" then "/codex/responses"
  else if String.eqb path "/backend-api/codex/responses/compact" then "/codex/responses/compact"
  else if String.eqb path "/v1/models" || String.eqb path "/backend-api/codex/models" then "/codex/models"
  else if String.eqb path "/backend-api/transcribe" then "/transcribe"
  else path.

Definition codexWebSocketURL (baseURL path : string) : string :=
  websocketURL (TrimRightByte "/"%char baseURL) +:+ (if HasPrefix path "/" then path else "/" +:+ path).

Definition codex_headers (original : option Request) (accessToken turnState : string) (account : UpstreamAccount) : Header :=
  let headers := match original with Some r => copyForwardHeaders [] (rq_Headers r) | None => [] end in
  let headers := HeaderSet headers "Authorization" ("Bearer " +:+ accessToken) in
  let headers := HeaderSet headers "User-Agent" CodexCLIUserAgent in
  let headers := dial_headers headers turnState in
  match ChatGPTAccountID account with
  | Some id => if String.eqb id "" then headers else HeaderSet headers "chatgpt-account-id" id
  | None => headers
  end.

Definition DialCodexWebSocket (account : UpstreamAccount) (accessToken : string) (original : option Request)
    (oauthUpstreamPath turnState : string) : list ws_event * option error :=
  let upstreamPath := if String.eqb oauthUpstreamPath "" then
                        match original with Some r => codexBackendPath (rq_Path r) | None => "" end
                      else oauthUpstreamPath in
  if String.eqb upstreamPath "" then
    ([], Some (Wrapf "%w: missing codex websocket upstream path" [] (Sentinel ErrInvalidUpstreamRequest)))
  else
    let query := match original with Some r => rq_RawQuery r | None => "" end in
    let targetURL := codexWebSocketURL (codexBaseURL env) upstreamPath in
    dialWebSocket (if String.eqb query "" then targetURL else targetURL +:+ "?" +:+ query)
      (codex_headers original accessToken turnState account) turnState (UseProxy account).

End dial.

Section handler.
Context {S : Type} `{AccountRepository S}.
Variables (sel : AccountSelector S) (env : ProxyEnv) (ws : WSEnv) (registry : BridgeRegistry).

Definition ws_error (r : Request) (account : option Z) (status : Z) (code message outcome : string)
    (metadata : usage.JSONMap) : list ws_event :=
  WHttp <$> writeError env r account status code message outcome (mkErrorCapture "" "" "" metadata).

Definition recordWebSocket (r : Request) (account : Z) (statusCode : Z) (outcome errCode : string)
    (metadata : usage.JSONMap) : ws_event :=
  WHttp (ERecord {|
    rr_RequestID := rq_ID r; rr_AccountID := Some account; rr_SessionKey := session_ptr r;
    rr_Method := "WS"; rr_Path := rq_Path r; rr_StatusCode := statusCode; rr_TTFTMs := None;
    rr_Outcome := outcome; rr_ErrorCode := if String.eqb errCode "" then None else Some errCode;
    rr_Model := None; rr_ModelParams := None; rr_RouterMetadata := metadata;
    rr_ResponseMode := ResponseModeWebSocket; rr_TokenUsage := None;
    rr_ClientRequestBody := None; rr_UpstreamRequestBody := None; rr_UpstreamResponseBody := None |}).

(** What the bridge decodes: no body was read, the stream is passed on. *)
Definition ws_decoded (ob : operationBridge) (r : Request) : ClientRequest :=
  mkClientRequest (b_clientContract ob) (rq_Method r) (rq_Path r) (rq_RawQuery r) "" (rq_Body r)
    (rq_ContentLength r) (HeaderSet (rq_Headers r) "X-Request-Id" (rq_ID r)) true.

Definition ws_request (bridge : OperationBridge) (r : Request) : ClientRequest :=
  match bridge with
  | OpenAIBridge ob => ws_decoded ob r
  | SystemOneBridge => decoded bridge r "" None 0
  end.

(** Connected to the upstream: the client is accepted and the messages are
    relayed; both connections are closed on the way out. *)
Definition ws_connected (r : Request) (account : Z) (turnState : string) (metadata : usage.JSONMap) : list ws_event :=
  let headers := HeaderSet [] "x-codex-turn-state" turnState in
  WAccept headers ::
  match Accept ws headers with
  | Some _ =>
      [recordWebSocket r account 400 OutcomeRouterError ErrCodeInvalidRequest metadata; WCloseNow Upstream]
  | None =>
      let '(outcome, errCode) := relay_outcome (CloseStatusOf ws) (relayed ws) in
      [WRelay (maxRequestBody env); recordWebSocket r account 101 outcome errCode metadata;
       WCloseNow Downstream; WCloseNow Upstream]
  end.

(** With an account and its token in hand. *)
Definition ws_account (r : Request) (route : gatewayRoute) (account : UpstreamAccount) (token : option string)
    : list ws_event :=
  let credential := credentialClassForAccount account in
  let id := ID account in
  match selectGatewayBridgeFromRegistry registry route credential with
  | None =>
      ws_error r (Some id) 503 ErrCodeNoAvailableAccount "no eligible upstream bridge" OutcomeNoAvailableAccount None
  | Some bridge =>
      let metadata := MergeBridgeRouterMetadata None bridge credential in
      match ResolveCodexTurnState (rand16 ws) (Get (rq_Headers r) "x-codex-turn-state") with
      | None => [WHttp EPanic]
      | Some turnState =>
          let input := mkBuildInput (ws_request bridge r) credential (default "" token) (accountChatGPTID account)
                         (codexBaseURL env) (UseProxy account) id in
          match build_upstream r bridge input with
          | chat.Panicked => [WHttp EPanic]
          | chat.Returned (Err _) =>
              ws_error r (Some id) 400 ErrCodeInvalidRequest "invalid request body" OutcomeRouterError (metadata "")
          | chat.Returned (Ok (upstream, _)) =>
              let metadata := metadata (u_Path upstream) in
              let '(dialled, err) := DialBridgeWebSocket env ws upstream turnState in
              dialled ++
              match err with
              | Some e =>
                  if errors_Is e ErrUpstreamTimeout
                  then ws_error r (Some id) 504 ErrCodeUpstreamTimeout "upstream response timeout" OutcomeRouterError metadata
                  else ws_error r (Some id) 502 ErrCodeUpstreamConnFailed "cannot connect to upstream" OutcomeRouterError
                         metadata
              | None => ws_connected r id turnState metadata
              end
          end
      end
  end.

(** The answer to a failed selection; [account] is what [SelectEligible]
    returned beside the error. *)
Definition ws_selection_failure (r : Request) (account : Z) (err : error) : list ws_event :=
  if errors_Is err ErrNoCapacity then
    ws_error r None 503 ErrCodeNoAvailableAccount "no available upstream account" OutcomeNoAvailableAccount None
  else if errors_Is err ErrPreForward then
    ws_error r (Some account) 502 ErrCodeInternalError "upstream credentials unavailable" OutcomeRouterError None
  else ws_error r None 500 ErrCodeInternalError "account selection failed" OutcomeRouterError None.

Definition serveWebSocket (r : Request) (route : gatewayRoute) (st : sel_state (S := S))
    : list ws_event * sel_state :=
  if negb (webSocketHandshakeIsValid r) then
    (ws_error r None 400 ErrCodeInvalidRequest "invalid websocket handshake" OutcomeRouterError None, st)
  else
    match pick sel (ExtractSessionKey r) (Some (proxyAccountEligible route None)) st with
    | (Err e, st) => (ws_selection_failure r 0 e, st)
    | (Ok account, st) =>
        match on_repo (prepareToken sel account) st with
        | (Err e, st) => (ws_selection_failure r (ID account) e, st)
        | (Ok (account, token, _), st) => (ws_account r route account token, st)
        end
    end.

(** [Proxy.ServeHTTP] with the branch it leaves to this file. *)
Definition ServeHTTP (r : Request) (st : sel_state (S := S)) : list ws_event * sel_state :=
  match Proxy.ServeHTTP sel env registry r st with
  | ([EWebSocket route], st) => serveWebSocket r route st
  | (evs, st) => (WHttp <$> evs, st)
  end.

End handler.
End websocket.
