(* ===== verification/WebSocketProofs.v ===== *)
(** * WebSocketProofs: what serving a WebSocket request guarantees

    [relay]: the invariant of the relay by rule induction over its steps.
    Messages are delivered as they were read, in order; no goroutine is ever
    stuck with its result; the first result alone decides the outcome and the
    close codes.  [websocket_proofs]: the effects of the handler on every
    branch - what is dialled and for whom, what the client is told, the one
    record, and the connections closed. *)

From S2P Require Import Prelude GoLib GoHTTP GoStrings GoURL GoJSON GoBufio Errors Account Engine Store Selector.
From S2P Require Import Usage GatewayRoutes Bridges Gateway Forwarder ChatRequest Proxy ProxyProofs WebSocket.

Module relay.
Import websocket.

(** ** One direction *)

(** [c] is the beginning of [d]. *)
Definition begins (c d : string) : Prop := exists rest, d = c +:+ rest.

(** The messages closed on one side are those read on the other, but for the
    last one: it may be in hand or lost, or closed although it was cut short,
    after which the loop ends. *)
Definition in_order (k : copier) : Prop :=
  k_delivered k = k_read k
  \/ (exists m, k_read k = k_delivered k ++ [m])
  \/ (exists e t c d, k_pc k = CReturned e /\ k_delivered k = k_read k ++ [(t, c)]
        /\ k_part k = Some (t, d) /\ begins c d).

Definition copier_ok (k : copier) : Prop :=
  match k_pc k with
  | CReader | CDiscard _ => k_delivered k = k_read k
  | CWriter t => k_delivered k = k_read k /\ k_part k = Some (t, "")
  | CRead t c => k_delivered k = k_read k /\ k_part k = Some (t, c)
  | CWrite t c chunk _ => k_delivered k = k_read k /\ k_part k = Some (t, c +:+ chunk)
  | CClose t c => k_read k = k_delivered k ++ [(t, c)]
  | CAbandon t c _ => k_delivered k = k_read k /\ exists d, k_part k = Some (t, d) /\ begins c d
  | CReturned _ => in_order k
  end.

Lemma copier_in_order k : copier_ok k -> in_order k.
Proof.
  unfold copier_ok. destruct (k_pc k); try (intros; by left); try (intros [? _]; by left); [|done].
  intros E. right. left. eauto.
Qed.

Lemma begins_refl c : begins c c.
Proof. exists "". by rewrite str_app_nil_r. Qed.

Lemma take_str_begins n s : begins (take_str n s) s.
Proof.
  revert n. induction s as [|a s IH]; intros [|n]; [by exists ""|by exists ""|by eexists|].
  destruct (IH n) as [rest E]. exists rest. cbn. by rewrite E at 1.
Qed.

Lemma begins_take c n chunk : begins (c +:+ forwarder.take_limit n chunk) (c +:+ chunk).
Proof.
  assert (begins (forwarder.take_limit n chunk) chunk) as [rest E].
  { unfold forwarder.take_limit. destruct (_ <=? _); [apply begins_refl|apply take_str_begins]. }
  exists rest. rewrite E at 1. apply str_app_assoc.
Qed.

Lemma after_read_ok k t c r : k_delivered k = k_read k -> copier_ok (after_read k t c r).
Proof.
  intros E. destruct r; cbn; [done|by rewrite E|]. split; [done|]. exists c. split; [done|]. apply begins_refl.
Qed.

Lemma copy_step_ok k a k' : copier_ok k -> copy_step k a = Some k' -> copier_ok k'.
Proof.
  intros Hk. destruct k as [pc rd part dl]. unfold copier_ok in Hk. cbn [k_pc k_read k_part k_delivered] in Hk.
  unfold copy_step. cbn [k_pc].
  destruct pc as [|t|e|t c|t c chunk r|t c|t c e|e], a as [[t'|e']|[e'|]| |chunk' r'|n err|[e'|]]; try discriminate.
  - intros [= <-]. by cbn.
  - intros [= <-]. cbn. by left.
  - intros [= <-]. by destruct Hk.
  - intros [= <-]. by destruct Hk.
  - intros [= <-]. cbn. by left.
  - destruct Hk as [Hd Hp]. destruct (String.eqb _ _); intros [= <-]; [by apply after_read_ok|by cbn].
  - destruct Hk as [Hd Hp]. cbv zeta.
    set (n' := if _ && _ then n else 0). set (err' := if _ && _ then err else _).
    destruct err' as [e|]; [|destruct (n' =? lenZ chunk); [intros [= <-]; by apply after_read_ok|]];
      intros [= <-]; cbn; (split; [done|]); eexists; (split; [exact Hp|]); apply begins_take.
  - intros [= <-]. cbn. right. left. eauto.
  - intros [= <-]. by cbn.
  - destruct Hk as (Hd & d & Hp & Hb). intros [= <-]. cbn. by left.
  - destruct Hk as (Hd & d & Hp & Hb). intros [= <-]. cbn. right. right. exists e, t, c, d. cbn. by rewrite Hd.
Qed.

(** ** Both directions *)

Section relay.
Context (CloseStatus : error -> Z).

Definition close_calls (cause : error) : list close_call :=
  closeWebSocketPeer CloseStatus Downstream cause ++ closeWebSocketPeer CloseStatus Upstream cause.

(** The result the handler has taken. *)
Definition taken (s : relay) : option (direction * error) :=
  match main s with
  | MWaitFirst => None
  | MCancel first | MClose first _ | MWaitSecond first | MReturned first _ => Some first
  end.

Definition returned (s : relay) (d : direction) (e : error) : Prop := k_pc (g_copier (goroutine_of d s)) = CReturned e.
Definition sent (s : relay) (d : direction) : bool := g_sent (goroutine_of d s).
Definition sends (s : relay) : nat := (Nat.b2n (g_sent (down_up s)) + Nat.b2n (g_sent (up_down s)))%nat.

Definition main_ok (s : relay) : Prop :=
  match main s with
  | MWaitFirst | MCancel _ => cancelled s = false /\ calls s = []
  | MClose first todo => cancelled s = true /\ calls s ++ todo = close_calls (snd first)
  | MWaitSecond first => cancelled s = true /\ calls s = close_calls (snd first)
  | MReturned first r =>
      cancelled s = true /\ calls s = close_calls (snd first) /\ r = relay_outcome CloseStatus first
  end.

Record inv (s : relay) : Prop := mkInv {
  inv_copy : forall d, copier_ok (g_copier (goroutine_of d s));
  inv_sent : forall d e, (d, e) ∈ option_list (taken s) ++ results s -> returned s d e;
  inv_idle : forall d, sent s d = true -> exists e, returned s d e;
  inv_count : match main s with
              | MWaitFirst => List.length (results s) = sends s
              | _ => (List.length (results s) + 1 <= sends s)%nat
              end;
  inv_main : main_ok s }.

Lemma goroutine_set d d' g s :
  goroutine_of d' (set_goroutine d g s) = if bool_decide (d = d') then g else goroutine_of d' s.
Proof. by destruct d, d'. Qed.

Lemma start_inv : inv start.
Proof.
  constructor; cbn; try done; [by intros []|by intros ? ? ?%elem_of_nil|].
  by intros [].
Qed.

Lemma copier_step_inv d a s s' : inv s -> copier_step d a s = Some s' -> inv s'.
Proof.
  intros [I1 I2 I3 I4 I5]. unfold copier_step. destruct (copy_step _ a) as [k|] eqn:E; [|done]. cbn. intros [= <-].
  assert (forall e, ~ returned s d e) as Hno.
  { intros e He. unfold returned in He. unfold copy_step in E. rewrite He in E. by destruct a. }
  assert (forall d' e, returned s d' e ->
            returned (set_goroutine d (mkGoroutine k (g_sent (goroutine_of d s))) s) d' e) as Hret.
  { intros d' e He. unfold returned. rewrite goroutine_set. case_bool_decide; [|done]. subst. by destruct (Hno e). }
  assert (taken (set_goroutine d (mkGoroutine k (g_sent (goroutine_of d s))) s) = taken s
          /\ results (set_goroutine d (mkGoroutine k (g_sent (goroutine_of d s))) s) = results s) as [Et Er]
    by by destruct d.
  constructor.
  - intros d'. rewrite goroutine_set. case_bool_decide; [|done]. by eapply copy_step_ok.
  - intros d' e. rewrite Et, Er. intros Hin. by apply Hret, I2.
  - intros d' Hs. assert (sent s d' = true) as Hs'.
    { revert Hs. unfold sent. rewrite goroutine_set. case_bool_decide; [by subst|done]. }
    destruct (I3 _ Hs') as [e He]. exists e. by apply Hret.
  - by destruct d.
  - by destruct d.
Qed.

Lemma send_step_inv d s s' : inv s -> send_step d s = Some s' -> inv s'.
Proof.
  intros [I1 I2 I3 I4 I5]. unfold send_step. destruct (k_pc _) as [| | | | | | |e] eqn:Epc; try done.
  destruct (g_sent _) eqn:Es; [done|]. case_bool_decide as Hl; [|done]. cbn [orb negb]. intros [= <-].
  set (s' := set_goroutine _ _ _).
  assert (forall d' e', returned s d' e' -> returned (s' <| results := results s ++ [(d, e)] |>) d' e') as Hret.
  { intros d' e'. unfold returned, s'. by destruct d, d'. }
  constructor.
  - intros d'. specialize (I1 d'). unfold s'. by destruct d, d'.
  - intros d' e' Hin. apply Hret.
    replace (taken _) with (taken s) in Hin by by destruct d. cbn [results set] in Hin.
    rewrite app_assoc in Hin. apply elem_of_app in Hin as [Hin|Hin]; [by apply I2|].
    apply list_elem_of_singleton in Hin. by injection Hin as -> ->.
  - intros d' Hs. destruct (decide (d = d')) as [<-|Hne]; [exists e; by apply Hret|].
    destruct (I3 d') as [e' He']; [|exists e'; by apply Hret]. revert Hs. unfold sent, s'. by destruct d, d'.
  - unfold sends, s' in *. destruct d; cbn in *; rewrite Es in I4; cbn in I4; rewrite length_app; cbn;
      destruct (main s); lia.
  - unfold main_ok, s' in *. by destruct d.
Qed.

Lemma main_step_inv timeout s s' : inv s -> main_step CloseStatus timeout s = Some s' -> inv s'.
Proof.
  intros [I1 I2 I3 I4 I5]. unfold main_step, main_ok, taken in *. destruct (main s) as [|f|f todo|f|f r] eqn:Em; [| | | |done].
  - destruct (results s) as [|f rest] eqn:Er; [done|]. intros [= <-]. constructor; cbn; try done.
    cbn in I4. change (sends _) with (sends s). lia.
  - intros [= <-]. constructor; cbn; try done. split; [done|]. destruct I5 as [_ ->]. done.
  - destruct I5 as [Hc Hcalls]. destruct todo as [|c todo]; intros [= <-]; constructor; cbn; try done.
    + split; [done|]. by rewrite app_nil_r in Hcalls.
    + split; [done|]. by rewrite <- app_assoc.
  - destruct I5 as [Hc Hcalls]. destruct timeout; [|destruct (results s) as [|x rest] eqn:Er; [done|]];
      intros [= <-]; constructor; cbn; try done.
    + intros d e Hin. apply I2. cbn in Hin |- *. rewrite !elem_of_cons in *. naive_solver.
    + cbn in I4. change (sends _) with (sends s). lia.
Qed.

Lemma relay_reachable_inv s : reachable CloseStatus s -> inv s.
Proof.
  unfold reachable. intros Hr. pattern s. refine (rtc_ind_r _ start start_inv _ s Hr).
  intros s1 s2 _ Hs I. destruct Hs as [[d a|d|timeout] s1 s2 Hl];
    [by eapply copier_step_inv|by eapply send_step_inv|by eapply main_step_inv].
Qed.

(** A goroutine that has returned and not sent can send. *)
Lemma can_send s d e : inv s -> returned s d e -> sent s d = false -> exists s', send_step d s = Some s'.
Proof.
  intros I He Hs. unfold send_step. unfold returned in He. rewrite He. unfold sent in Hs. rewrite Hs. cbn [orb].
  rewrite bool_decide_true; [eauto|]. pose proof (inv_count _ I) as Hc. unfold sends, results_cap in *.
  assert (sends s <= 1)%nat as Hle.
  { unfold sends. destruct d; cbn in Hs; rewrite Hs; [destruct (g_sent (up_down s))|destruct (g_sent (down_up s))]; cbn; lia. }
  unfold sends in Hle. destruct (main s); lia.
Qed.

(** ** The handler comes to its end *)

Definition own_step (l : label) : bool := match l with LCopy _ _ => false | _ => true end.

(** [n] steps, none of them a call on a connection by a goroutine. *)
Definition ends_within (n : nat) (s : relay) : Prop :=
  exists ls s' first, (List.length ls <= n)%nat /\ forallb own_step ls = true /\ run CloseStatus ls s = Some s'
    /\ main s' = MReturned first (relay_outcome CloseStatus first).

Lemma ends_step n l s s' :
  own_step l = true -> step_fun CloseStatus l s = Some s' -> ends_within n s' -> ends_within (S n) s.
Proof.
  intros Ho Hs (ls & s2 & f & Hl & Hf & Hr & Hm). exists (l :: ls), s2, f. cbn. rewrite Ho, Hs. cbn. split; [lia|]. done.
Qed.

Lemma ends_second s f : main s = MWaitSecond f -> ends_within 1 s.
Proof.
  intros Em. eapply (ends_step 0 (LMain true)); [done|cbn; unfold main_step; by rewrite Em|].
  exists [], (s <| main := MReturned f (relay_outcome CloseStatus f) |>), f. by cbn.
Qed.

Lemma ends_close todo s f : main s = MClose f todo -> ends_within (List.length todo + 2) s.
Proof.
  revert s. induction todo as [|c todo IH]; intros s Em.
  - eapply (ends_step 1 (LMain true)); [done|cbn; unfold main_step; by rewrite Em|]. by eapply ends_second.
  - eapply (ends_step _ (LMain true)); [done|cbn; unfold main_step; by rewrite Em|]. by apply IH.
Qed.

Lemma ends_mono n m s : (n <= m)%nat -> ends_within n s -> ends_within m s.
Proof. intros Hle (ls & s' & f & Hl & ?). exists ls, s', f. split; [lia|done]. Qed.

Lemma ends_cancel s f : main s = MCancel f -> ends_within 7 s.
Proof.
  intros Em. eapply (ends_step 6 (LMain true)); [done|cbn; unfold main_step; by rewrite Em|].
  by apply (ends_close (close_calls (snd f)) _ f).
Qed.

Lemma ends_taken s : inv s -> (main s = MWaitFirst -> results s <> []) -> ends_within 8 s.
Proof.
  intros I Hne. destruct (main s) as [|f|f todo|f|f r] eqn:Em.
  - destruct (results s) as [|f rest] eqn:Er; [by specialize (Hne eq_refl)|].
    eapply (ends_step 7 (LMain true)); [done|cbn; unfold main_step; by rewrite Em, Er|]. by apply (ends_cancel _ f).
  - eapply ends_mono, ends_cancel; [lia|done].
  - pose proof (inv_main _ I) as Hm. unfold main_ok in Hm. rewrite Em in Hm. destruct Hm as [_ Hm].
    eapply ends_mono, ends_close; [|done]. apply (f_equal (@List.length _)) in Hm. rewrite length_app in Hm.
    cbn in Hm. lia.
  - eapply ends_mono, ends_second; [lia|done].
  - exists [], s, f. pose proof (inv_main _ I) as Hm. unfold main_ok in Hm. rewrite Em in Hm.
    destruct Hm as (_ & _ & ->). cbn. split; [lia|]. done.
Qed.

Lemma sent_results s d : inv s -> sent s d = true -> main s = MWaitFirst -> results s <> [].
Proof.
  intros I Hs Em E. pose proof (inv_count _ I) as Hc. rewrite Em, E in Hc. unfold sends in Hc. unfold sent in Hs.
  destruct d; cbn in Hs; rewrite Hs in Hc; cbn in Hc; lia.
Qed.

Lemma ends_returned s d e : inv s -> returned s d e -> ends_within 9 s.
Proof.
  intros I He. destruct (sent s d) eqn:Es.
  - eapply ends_mono, (ends_taken s I); [lia|]. by eapply sent_results.
  - destruct (can_send _ _ _ I He Es) as [s' Hs']. pose proof (send_step_inv _ _ _ I Hs') as I'.
    apply (ends_step 8 (LSend d) s s'); [done|done|]. apply ends_taken; [done|]. apply (sent_results s' d I').
    unfold send_step in Hs'. unfold returned in He. rewrite He in Hs'. unfold sent in Es. rewrite Es in Hs'.
    destruct (bool_decide _); [|done]. cbn in Hs'. injection Hs' as <-. by destruct d.
Qed.

(** The codes a peer may be closed with. *)
Definition close_codes : list Z :=
  [StatusNormalClosure; StatusGoingAway; StatusPolicyViolation; StatusMessageTooBig; StatusBadGateway].

Lemma close_status_code e : close_status CloseStatus e ∈ close_codes.
Proof.
  unfold close_status, close_codes. cbv zeta. rewrite !elem_of_cons, elem_of_nil.
  destruct (_ || _) eqn:E; [|tauto]. rewrite !orb_true_iff, !Z.eqb_eq in E. tauto.
Qed.

(** C18: The relay, under every interleaving of its two goroutines and the
    handler and for every answer of the connections.  In each direction the
    messages closed on one side are the messages read on the other, unchanged,
    in order and once each, except the last one before that direction ends: it
    may be lost, or passed on cut short.  A goroutine that has ended can always
    hand in its result, and once one has ended the handler needs no further
    call on a connection by a goroutine and at most nine steps to return.  When
    it returns, the outcome is that of the first result alone, that goroutine
    had ended with this error, the other one is cancelled, and both peers were
    closed once, with the same allowed code. *)
Theorem relay_contract s :
  reachable CloseStatus s ->
  (forall d, in_order (g_copier (goroutine_of d s)))
  /\ (forall d e, returned s d e -> (sent s d = false -> exists s', send_step d s = Some s') /\ ends_within 9 s)
  /\ (forall first result, main s = MReturned first result ->
        result = relay_outcome CloseStatus first /\ returned s (fst first) (snd first) /\ cancelled s = true
        /\ exists code, code ∈ close_codes
             /\ calls s = [CallClose Downstream code; CallCloseNow Downstream; CallClose Upstream code; CallCloseNow Upstream]).
Proof.
  intros I%relay_reachable_inv. split; [intros d; apply copier_in_order, I|]. split.
  - intros d e He. split; [by apply can_send with e|by eapply ends_returned].
  - intros [d e] r Em. pose proof (inv_main _ I) as Hm. unfold main_ok in Hm. rewrite Em in Hm.
    destruct Hm as (Hc & Hcalls & ->). split; [done|]. split.
    + apply (inv_sent _ I). unfold taken. rewrite Em. apply elem_of_app. left. by left.
    + split; [done|]. exists (close_status CloseStatus e). split; [apply close_status_code|exact Hcalls].
Qed.

End relay.
End relay.

Module websocket_proofs.
Import websocket.

(** ** The routes *)

Lemma websocket_route method path ws :
  let route := classifyGatewayRoute method path ws in
  ResponseMode route = ResponseModeWebSocket ->
  Kind route = gatewayRouteKindSupported /\ ws = true /\ method = "GET" /\ Eligible (rt_APIKey route) = false
  /\ r_OpID route ∈ [OpOpenAIResponsesWebSocket; OpCodexNativeResponsesWebSocket].
Proof.
  unfold classifyGatewayRoute, classifySupportedGatewayRoute. destruct (isBlockedGatewayPath _); [done|]. destruct ws.
  - destruct (String.eqb_spec method "GET") as [->|]; cbn [andb]; [|done].
    destruct (String.eqb _ "/v1/responses"); [by repeat (split; [done|]); left|].
    destruct (String.eqb _ "/backend-api/codex/responses"); [by repeat (split; [done|]); right; left|done].
  - destruct (staticGatewayRoute _ _) as [r|] eqn:Hs; [apply static_json in Hs; by rewrite Hs|].
    by destruct (platformOnlyDynamicPattern _ _) as [[? ?]|].
Qed.

(** The bridge of such a route is OAuth's, to the backend's responses. *)
Lemma websocket_bridge route cred bridge :
  Eligible (rt_APIKey route) = false ->
  r_OpID route ∈ [OpOpenAIResponsesWebSocket; OpCodexNativeResponsesWebSocket] ->
  selectGatewayBridgeFromRegistry defaultGatewayBridgeRegistry route cred = Some bridge ->
  cred = CredentialClassOAuth
  /\ exists ob, bridge = OpenAIBridge ob /\ b_credential ob = CredentialClassOAuth
       /\ b_opID ob = r_OpID route /\ b_upstreamPath ob = "/codex/responses"
       /\ forall req, upstreamBodyAndAdapter ob req = translated (mkAdapter (b_adapterKind ob) "" false) (Ok (c_RawBody req)).
Proof.
  intros Ha Hop. unfold selectGatewayBridgeFromRegistry. destruct (_ || _); [done|]. rewrite Ha. clear Ha.
  destruct (String.eqb cred CredentialClassAPIKey); [done|].
  destruct (String.eqb_spec cred CredentialClassOAuth) as [->|]; [|done].
  destruct (Eligible _); [|done]. intros Hr. split; [done|]. revert Hr.
  apply elem_of_cons in Hop as [->|Hop]; [|apply list_elem_of_singleton in Hop as ->];
    (intros E; vm_compute in E; injection E as <-; eexists; split_and!; [reflexivity..|]; intros req; reflexivity).
Qed.

(** ** The handshake with the upstream *)

Lemma turn_state_nonempty raw inbound turn : ResolveCodexTurnState raw inbound = Some turn -> turn <> "".
Proof.
  unfold ResolveCodexTurnState. destruct (String.eqb_spec (TrimSpace inbound) "") as [|Hne]; cbn [negb];
    [|by intros [= <-]]. destruct raw; [|done]. cbn. by intros [= <-].
Qed.

Lemma turn_state_client raw inbound turn :
  ResolveCodexTurnState raw inbound = Some turn -> TrimSpace inbound <> "" -> turn = TrimSpace inbound.
Proof.
  unfold ResolveCodexTurnState. intros Hr Hne. apply String.eqb_neq in Hne. rewrite Hne in Hr. by injection Hr.
Qed.

Lemma appended_beta h : has_beta (appendOpenAIBeta h responsesWebSocketBetaToken) responsesWebSocketBetaToken = true.
Proof.
  unfold appendOpenAIBeta. destruct (has_beta h _) eqn:E; [exact E|]. unfold has_beta.
  rewrite Values_Add, String.eqb_refl, existsb_app. apply orb_true_iff. right. vm_compute. reflexivity.
Qed.

Lemma Values_append_beta h token k :
  String.eqb (CanonicalHeaderKey "OpenAI-Beta") (CanonicalHeaderKey k) = false ->
  Values (appendOpenAIBeta h token) k = Values h k.
Proof. intros E. unfold appendOpenAIBeta. destruct (has_beta h token); [done|]. by rewrite Values_Add, E. Qed.

(** What the headers of the upstream handshake say. *)
Record handshake (headers : Header) (token chatgptID turn : string) : Prop := mkHandshake {
  hs_authorization : Values headers "Authorization" = ["Bearer " +:+ token];
  hs_account : Values headers "chatgpt-account-id" = if String.eqb chatgptID "" then [] else [chatgptID];
  hs_turn : Values headers "x-codex-turn-state" = [turn];
  hs_beta : has_beta headers responsesWebSocketBetaToken = true }.

Lemma dial_handshake ob req token cid turn :
  b_credential ob = CredentialClassOAuth -> token <> "" ->
  handshake (dial_headers (upstreamHeaders ob req token cid) turn) token cid turn.
Proof.
  intros Hc Ht. unfold dial_headers. split.
  - rewrite Values_append_beta, Values_Set_ne, upstreamHeaders_authorization by reflexivity.
    by rewrite (proj2 (String.eqb_neq _ _) Ht).
  - rewrite Values_append_beta, Values_Set_ne, upstreamHeaders_chatgpt, Hc, String.eqb_refl by reflexivity.
    by destruct (String.eqb cid "").
  - rewrite Values_append_beta by reflexivity. apply (Values_Set_eq "x-codex-turn-state").
  - apply appended_beta.
Qed.

(** The older entry sends the same handshake. *)
Lemma codex_handshake original token turn account :
  handshake (dial_headers (codex_headers original token turn account) turn) token (default "" (ChatGPTAccountID account)) turn.
Proof.
  set (h0 := match original with Some r => copyForwardHeaders [] (rq_Headers r) | None => [] end).
  assert (Values h0 "chatgpt-account-id" = []) as H0.
  { unfold h0. destruct original as [r|]; [|done]. apply (copy_refused forwarded_key); [apply forwarded_key_canonical|].
    by apply refused_always. }
  unfold codex_headers. cbv zeta. fold h0. unfold dial_headers.
  split; [| | |apply appended_beta]; destruct (ChatGPTAccountID account) as [id|]; try destruct (String.eqb_spec id "") as [->|Hid];
    cbn [default]; repeat first [rewrite Values_append_beta by reflexivity | rewrite Values_Set_eq | rewrite Values_Set_ne by reflexivity];
    try done.
  unfold Datatypes.id. by rewrite (proj2 (String.eqb_neq _ _) Hid).
Qed.

(** ** The handler *)

Section handler.
Context {S : Type} `{AccountRepositoryLaws S}.
Variables (sel : AccountSelector S) (env : ProxyEnv) (ws : WSEnv).
#[local] Abbreviation ServeHTTP := (websocket.ServeHTTP sel env ws defaultGatewayBridgeRegistry).
#[local] Abbreviation serveWebSocket := (websocket.serveWebSocket sel env ws defaultGatewayBridgeRegistry).

(** An error of the router's own: one response and one record that agree. *)
Definition refused (r : Request) (evs : list ws_event) : Prop :=
  exists answer_evs, evs = WHttp <$> answer_evs /\ answer r answer_evs.

(** The record of an accepted connection, or of one that was not. *)
Definition ws_record (r : Request) (account status : Z) (outcome code : string) (e : ws_event) : Prop :=
  exists rec, e = WHttp (ERecord rec)
    /\ rr_RequestID rec = rq_ID r /\ rr_Method rec = "WS" /\ rr_Path rec = rq_Path r
    /\ rr_AccountID rec = Some account /\ rr_StatusCode rec = status /\ rr_Outcome rec = outcome
    /\ rr_ErrorCode rec = (if String.eqb code "" then None else Some code)
    /\ rr_ResponseMode rec = ResponseModeWebSocket
    /\ rr_ClientRequestBody rec = None /\ rr_UpstreamRequestBody rec = None /\ rr_UpstreamResponseBody rec = None.

(** A connection dialled for an account. *)
Definition dialled_for (r : Request) (route : gatewayRoute) (st : S) (account : Z) (turn : string)
    (url : string) (headers : Header) (proxied : bool) : Prop :=
  webSocketHandshakeIsValid r = true
  /\ exists a a' token fallback s' ob,
       available (Some (proxyAccountEligible route None)) st a
       /\ prepareToken sel a st = (Ok (a', token, fallback), s') /\ ID a' = account /\ IsOAuth a' = true
       /\ handshake headers (default "" token) (accountChatGPTID a') turn /\ 0 < bytes_len token
       /\ b_upstreamPath ob = "/codex/responses"
       /\ url = websocketURL (upstreamURL ob (ws_decoded ob r) (codexBaseURL env))
       /\ proxied = UseProxy a' /\ (proxied = true -> proxy_configured env = true).

(** What follows the dial. *)
Definition after_dial (r : Request) (account : Z) (turn url : string) (headers : Header) (proxied : bool)
    (rest : list ws_event) : Prop :=
  let accepted := HeaderSet [] "x-codex-turn-state" turn in
  match Dial ws url headers proxied, Accept ws accepted with
  | Some _, _ => refused r rest
  | None, Some _ =>
      exists rec, ws_record r account 400 OutcomeRouterError ErrCodeInvalidRequest rec
        /\ rest = [WAccept accepted; rec; WCloseNow Upstream]
  | None, None =>
      exists rec, ws_record r account 101 (fst (relay_outcome (CloseStatusOf ws) (relayed ws)))
                    (snd (relay_outcome (CloseStatusOf ws) (relayed ws))) rec
        /\ rest = [WAccept accepted; WRelay (maxRequestBody env); rec; WCloseNow Downstream; WCloseNow Upstream]
  end.

Lemma ws_error_refused r account status code message outcome metadata :
  outcome <> OutcomeSuccess -> refused r (ws_error env r account status code message outcome metadata).
Proof. intros Ho. eexists. split; [reflexivity|]. by apply writeError_answer. Qed.

Lemma ws_connected_shape r account turn metadata url headers proxied :
  Dial ws url headers proxied = None ->
  after_dial r account turn url headers proxied (ws_connected env ws r account turn metadata).
Proof.
  intros Hd. unfold after_dial, ws_connected. rewrite Hd. destruct (Accept ws _).
  - eexists. split; [|reflexivity]. eexists. by repeat split.
  - destruct (relay_outcome _ _) as [outcome code]. eexists. split; [|reflexivity]. eexists. by repeat split.
Qed.

(** Building the upstream request cannot fail. *)
Lemma ws_build ob r cred cid base up id :
  b_credential ob = CredentialClassOAuth ->
  (forall req, upstreamBodyAndAdapter ob req = translated (mkAdapter (b_adapterKind ob) "" false) (Ok (c_RawBody req))) ->
  exists u adapter,
    build_upstream r (OpenAIBridge ob) (mkBuildInput (ws_decoded ob r) CredentialClassOAuth cred cid base up id)
      = chat.Returned (Ok (u, adapter))
    /\ u_URL u = upstreamURL ob (ws_decoded ob r) base /\ u_Headers u = upstreamHeaders ob (ws_decoded ob r) cred cid
    /\ u_UseProxy u = up.
Proof.
  intros Hc Hbody. unfold build_upstream, openai_BuildUpstreamRequest. cbv zeta. cbn [bi_ClientRequest bi_Credential].
  rewrite Hbody, Hc. unfold ws_decoded at 1. cbn [c_Contract]. rewrite !String.eqb_refl, andb_false_r. cbn [negb].
  unfold translated. cbn [mbind result_bind bodyFromBytes]. do 2 eexists. split; [reflexivity|]. by repeat split.
Qed.

Lemma ws_account_shape r route account token :
  Eligible (rt_APIKey route) = false ->
  r_OpID route ∈ [OpOpenAIResponsesWebSocket; OpCodexNativeResponsesWebSocket] ->
  0 < bytes_len token ->
  let evs := ws_account env ws defaultGatewayBridgeRegistry r route account token in
  refused r evs \/ (evs = [WHttp EPanic] /\ rand16 ws = None)
  \/ exists ob turn headers rest,
       let url := websocketURL (upstreamURL ob (ws_decoded ob r) (codexBaseURL env)) in
       let proxied := UseProxy account in
       evs = WDial url headers proxied :: rest
       /\ after_dial r (ID account) turn url headers proxied rest
       /\ ResolveCodexTurnState (rand16 ws) (Get (rq_Headers r) "x-codex-turn-state") = Some turn
       /\ handshake headers (default "" token) (accountChatGPTID account) turn
       /\ IsOAuth account = true /\ b_upstreamPath ob = "/codex/responses"
       /\ (proxied = true -> proxy_configured env = true).
Proof.
  intros Ha Hop Ht evs. unfold evs, ws_account. cbv zeta.
  assert (default "" token <> "") as Hne by (intros E; unfold bytes_len in Ht; rewrite E in Ht; done).
  destruct (selectGatewayBridgeFromRegistry _ route _) as [bridge|] eqn:Hs; [|left; by apply ws_error_refused].
  destruct (websocket_bridge _ _ _ Ha Hop Hs) as (Hcred & ob & -> & Hc & Hob & Hp & Hbody).
  assert (IsOAuth account = true) as Ho.
  { unfold credentialClassForAccount in Hcred. by destruct (IsOAuth account). }
  rewrite Hcred. destruct (ResolveCodexTurnState _ _) as [turn|] eqn:Et.
  2:{ right. left. split; [done|]. unfold ResolveCodexTurnState in Et. destruct (negb _); [done|]. by destruct (rand16 ws). }
  cbn [ws_request].
  destruct (ws_build ob r (default "" token) (accountChatGPTID account) (codexBaseURL env) (UseProxy account) (ID account) Hc Hbody)
    as (u & adapter & -> & Hurl & Hh & Hu).
  unfold DialBridgeWebSocket. destruct (String.eqb _ ""); [left; by apply ws_error_refused|].
  unfold dialWebSocket, forwarder.httpClientForUseProxy. cbv zeta. rewrite Hu, Hh, Hurl.
  assert ((if negb (UseProxy account) then Ok false
           else if proxy_configured env then Ok true else Err (Sentinel ErrProxyRequired))
          = if negb (UseProxy account) || proxy_configured env then Ok (UseProxy account)
            else Err (Sentinel ErrProxyRequired)) as -> by by destruct (UseProxy account), (proxy_configured env).
  destruct (negb (UseProxy account) || proxy_configured env) eqn:Ep;
    [|left; cbn [app]; destruct (errors_Is _ _); by apply ws_error_refused].
  right. right. exists ob, turn, (dial_headers (upstreamHeaders ob (ws_decoded ob r) (default "" token) (accountChatGPTID account)) turn).
  eexists. cbv zeta. cbn [app]. split; [reflexivity|].
  split; [|split_and!; try done; [by apply dial_handshake|by intros Hpr; rewrite Hpr in Ep]].
  destruct (Dial ws _ _ _) as [e|] eqn:Ed; [|by apply ws_connected_shape].
  unfold after_dial. rewrite Ed. destruct (errors_Is _ _); by apply ws_error_refused.
Qed.

Lemma ws_selection_refused r account err : refused r (ws_selection_failure env r account err).
Proof. unfold ws_selection_failure. repeat case_match; by apply ws_error_refused. Qed.

(** C2: Serving a WebSocket request, on every branch.  An invalid handshake, a
    failed selection and a failed dial end in one response and one record that
    agree.  A connection is dialled at most once and only for a valid
    handshake: to the backend's responses endpoint, for a stored, active and
    eligible OAuth account, through its choice of proxy, with that account's
    credential and id, the protocol's beta token and a turn state - the
    client's own if it sent one - that the client is told too.  Nothing is
    accepted before the upstream is; whatever was opened is closed; exactly one
    record is kept, without any message, with the outcome of the relay.  The
    one panic is a machine without random bytes. *)
Theorem websocket_contract r st evs st' :
  router_member sel -> ServeHTTP r st = (evs, st') ->
  let route := classifyGatewayRoute (rq_Method r) (rq_Path r) (isGatewayWebSocketUpgrade (rq_Headers r)) in
  ResponseMode route = ResponseModeWebSocket ->
  refused r evs
  \/ (evs = [WHttp EPanic] /\ rand16 ws = None)
  \/ exists account turn url headers proxied rest,
       evs = WDial url headers proxied :: rest
       /\ dialled_for r route (fst st) account turn url headers proxied
       /\ turn <> "" /\ (let sent := TrimSpace (Get (rq_Headers r) "x-codex-turn-state") in sent <> "" -> turn = sent)
       /\ after_dial r account turn url headers proxied rest.
Proof.
  intros Hrm Hr route Hw. destruct (websocket_route _ _ _ Hw) as (Hk & Hu & Hm & Ha & Hop).
  fold route in Hk, Ha, Hop.
  unfold websocket.ServeHTTP, Proxy.ServeHTTP in Hr. fold route in Hr. rewrite Hk, Hw in Hr. cbn [orb] in Hr.
  rewrite !bool_decide_false in Hr by done. rewrite String.eqb_refl in Hr. cbn [orb] in Hr.
  unfold websocket.serveWebSocket in Hr. destruct (webSocketHandshakeIsValid r) eqn:Hv; cbn [negb] in Hr;
    [|injection Hr as <- <-; left; by apply ws_error_refused].
  destruct (pick sel _ _ st) as [[a|e] st1] eqn:Hp; [|injection Hr as <- <-; left; apply ws_selection_refused].
  destruct (pick_ok _ _ _ _ _ _ Hrm Hp) as [Hav Hst]. unfold on_repo in Hr. rewrite Hst in Hr.
  destruct (prepareToken sel a (fst st)) as [[[[a' token] fb]|e] s'] eqn:Ht;
    [|injection Hr as <- <-; left; apply ws_selection_refused].
  injection Hr as <- <-. pose proof (prepareToken_token _ _ _ _ _ _ _ Ht) as Htok.
  destruct (ws_account_shape r route a' token Ha Hop Htok)
    as [Hrf|[Hpanic|(ob & turn & headers & rest & He & Had & Hturn & Hh & Ho & Hp' & Hprox)]]; [by left|by right; left|].
  right. right. rewrite He. do 6 eexists. split; [reflexivity|]. split.
  - split; [done|]. exists a, a', token, fb, s', ob. by split_and!.
  - split; [by eapply turn_state_nonempty|]. split; [by apply turn_state_client with (rand16 ws)|exact Had].
Qed.
End handler.
End websocket_proofs.
