(* ===== verification/Records.v ===== *)
(** * Records: the table of request records and its readers
      (internal/store/records.go, internal/core/request_service.go and the
       query validation of internal/api/adminapi/request_logs.go)

    The table is a map from the primary key.  Each statement may fail
    ([fault], by its number).  The database evaluates conditions given as SQL
    text with arguments: [RecordSQL] is what the store calls, [RecordSQLLaws]
    what it relies on, for the forms of condition the store writes. *)

From S2P Require Import Prelude GoLib GoStrings GoHTTP GoJSON GoAny Errors Account Engine Usage Proxy.

Module records.

(** A row: the record as the proxy fills it, with the columns the proxy model
    leaves out. *)
Record Row := mkRow {
  row_ID : Z; row_CreatedAt : time; row_ClientIP : string; row_LatencyMs : Z;
  row_Rec : RequestRecord }.
Abbreviation table := (gmap Z Row).

Record QueryParams := mkQueryParams {
  Start : option time; End_ : option time;
  AccountID : option Z; AccountIDs : list Z;
  Outcome : option string; Outcomes : list string;
  Models : list string; ResponseModes : list string;
  Search : option string; Limit : Z; BeforeID : option Z }.
#[export] Instance QueryParams_eta : Eta QueryParams := fun p =>
  mkQueryParams (Start p) (End_ p) (AccountID p) (AccountIDs p) (Outcome p) (Outcomes p) (Models p)
    (ResponseModes p) (Search p) (Limit p) (BeforeID p).

(** ** Building conditions *)

(** Keep the first occurrence of every value that [keep] accepts. *)
Fixpoint first_seen {A} `{Countable A} (keep : A -> bool) (seen : gset A) (l : list A) : list A :=
  match l with
  | [] => []
  | x :: l' =>
      if negb (keep x) || bool_decide (x ∈ seen) then first_seen keep seen l'
      else x :: first_seen keep ({[x]} ∪ seen) l'
  end.

Definition effectiveAccountIDs (p : QueryParams) : list Z :=
  first_seen (fun id => 0 <? id) ∅ (AccountIDs p).
Definition effectiveStrings (values : list string) : list string :=
  first_seen (fun v => negb (String.eqb v "")) ∅ (TrimSpace <$> values).

Fixpoint repeat_str (s : string) (n : nat) : string :=
  match n with O => "" | S n' => s +:+ repeat_str s n' end.
Definition placeholders (n : nat) : string :=
  match n with O => "" | _ => TrimRightByte ","%char (repeat_str "?," n) end.

(** [strings.NewReplacer] with the three single-byte patterns. *)
Fixpoint like_escape (s : string) : string :=
  match s with
  | "" => ""
  | String c s' =>
      if Ascii.eqb c "!" || Ascii.eqb c "%" || Ascii.eqb c "_" then String "!" (String c (like_escape s'))
      else String c (like_escape s')
  end.

(** [strings.ToLower], whose Unicode tables are not repeated here, is an
    argument. *)
Definition likePattern (toLower : string -> string) (value : string) : string :=
  "%" +:+ like_escape (toLower (TrimSpace value)) +:+ "%".

Definition requestRecordSearchClause : string :=
  "(LOWER(request_id) LIKE ? ESCAPE '!' OR LOWER(path) LIKE ? ESCAPE '!' OR LOWER(model) LIKE ? ESCAPE '!' OR LOWER(session_key) LIKE ? ESCAPE '!' OR LOWER(method) LIKE ? ESCAPE '!' OR LOWER(error_code) LIKE ? ESCAPE '!' OR LOWER(client_ip) LIKE ? ESCAPE '!')".

Inductive arg := TimeArg (t : time) | IntArg (z : Z) | TextArg (s : string).

(** A session of xorm collects conditions: [Where(text, args...)] and
    [In(column, values)]. *)
Inductive cond := Where (text : string) (args : list arg) | In (col : string) (vals : list arg).

Definition when_ {A B} (o : option A) (f : A -> B) : list B :=
  match o with Some x => [f x] | None => [] end.
(** [if len(values) > 0 { ... } else if one != nil { ... }]. *)
Definition many_or_one {A B} (l : list A) (o : option A) (many : list A -> B) (one : A -> B) : list B :=
  match l with [] => when_ o one | _ => [many l] end.
Definition many {A B} (l : list A) (f : list A -> B) : list B := many_or_one l None f (fun x => f [x]).

Section build.
Context (toLower : string -> string).

Definition seven (pattern : string) : list arg := replicate 7 (TextArg pattern).

Definition applyRequestRecordSessionFilters (p : QueryParams) : list cond :=
  when_ (Start p) (fun t => Where "created_at >= ?" [TimeArg t])
  ++ when_ (End_ p) (fun t => Where "created_at <= ?" [TimeArg t])
  ++ many_or_one (effectiveAccountIDs p) (AccountID p)
       (fun ids => In "upstream_account_id" (IntArg <$> ids))
       (fun id => Where "upstream_account_id = ?" [IntArg id])
  ++ many_or_one (effectiveStrings (Outcomes p)) (Outcome p)
       (fun l => In "outcome" (TextArg <$> l)) (fun o => Where "outcome = ?" [TextArg o])
  ++ many (effectiveStrings (Models p)) (fun l => In "model" (TextArg <$> l))
  ++ many (effectiveStrings (ResponseModes p)) (fun l => In "response_mode" (TextArg <$> l))
  ++ when_ (Search p) (fun s => Where requestRecordSearchClause (seven (likePattern toLower s))).

(** The same filters as one piece of SQL with its arguments. *)
Definition where_parts (p : QueryParams) : list (string * list arg) :=
  when_ (Start p) (fun t => ("created_at >= ?", [TimeArg t]))
  ++ when_ (End_ p) (fun t => ("created_at <= ?", [TimeArg t]))
  ++ many_or_one (effectiveAccountIDs p) (AccountID p)
       (fun ids => ("upstream_account_id IN (" +:+ placeholders (List.length ids) +:+ ")", IntArg <$> ids))
       (fun id => ("upstream_account_id = ?", [IntArg id]))
  ++ many_or_one (effectiveStrings (Outcomes p)) (Outcome p)
       (fun l => ("outcome IN (" +:+ placeholders (List.length l) +:+ ")", TextArg <$> l))
       (fun o => ("outcome = ?", [TextArg o]))
  ++ many (effectiveStrings (Models p))
       (fun l => ("model IN (" +:+ placeholders (List.length l) +:+ ")", TextArg <$> l))
  ++ many (effectiveStrings (ResponseModes p))
       (fun l => ("response_mode IN (" +:+ placeholders (List.length l) +:+ ")", TextArg <$> l))
  ++ when_ (Search p) (fun s => (requestRecordSearchClause, seven (likePattern toLower s))).

Definition requestRecordWhereSQL (p : QueryParams) : string * list arg :=
  (" WHERE " +:+ Join ("1=1" :: (where_parts p).*1) " AND ", List.concat (where_parts p).*2).

End build.

(** ** The database *)

Class RecordSQL := {
  (** Does a row satisfy a condition of a session? *)
  sql_holds : cond -> Row -> bool;
  (** How a time argument is compared with the stored [created_at]; [LOWER]
      and [LIKE ... ESCAPE '!']. *)
  sql_time : time -> time;
  sql_lower : string -> string;
  sql_like : string -> string -> bool;
}.
(** [QueryString(sql, args...)] with one column: the texts of its rows. *)
Class RecordQuery := sql_query : string -> list arg -> table -> list string.

(** *** The forms of condition the store writes, and what they mean *)

Inductive clause :=
  | Since (t : time) | Until (t : time)
  | AccountIn (ids : list Z) | AccountIs (id : Z)
  | TextIn (col : string) (vals : list string) | OutcomeIs (o : string)
  | Matches (pattern : string).

Definition text_col (col : string) (r : Row) : option string :=
  if String.eqb col "outcome" then Some (rr_Outcome (row_Rec r))
  else if String.eqb col "model" then rr_Model (row_Rec r)
  else if String.eqb col "response_mode" then Some (rr_ResponseMode (row_Rec r))
  else None.

(** The columns the search looks at. *)
Definition searched (r : Row) : list string :=
  let c := row_Rec r in
  [rr_RequestID c; rr_Path c] ++ option_list (rr_Model c) ++ option_list (rr_SessionKey c)
  ++ [rr_Method c] ++ option_list (rr_ErrorCode c) ++ [row_ClientIP r].

Section meaning.
Context `{RecordSQL}.

Definition clause_holds (c : clause) (r : Row) : bool :=
  match c with
  | Since t => sql_time t <=? row_CreatedAt r
  | Until t => row_CreatedAt r <=? sql_time t
  | AccountIn ids => match rr_AccountID (row_Rec r) with Some id => existsb (Z.eqb id) ids | None => false end
  | AccountIs id => bool_decide (rr_AccountID (row_Rec r) = Some id)
  | TextIn col vals => match text_col col r with Some v => existsb (String.eqb v) vals | None => false end
  | OutcomeIs o => String.eqb (rr_Outcome (row_Rec r)) o
  | Matches p => existsb (fun v => sql_like p (sql_lower v)) (searched r)
  end.

Definition clause_text (c : clause) : string * list arg :=
  match c with
  | Since t => ("created_at >= ?", [TimeArg t])
  | Until t => ("created_at <= ?", [TimeArg t])
  | AccountIn ids => ("upstream_account_id IN (" +:+ placeholders (List.length ids) +:+ ")", IntArg <$> ids)
  | AccountIs id => ("upstream_account_id = ?", [IntArg id])
  | TextIn col vals => (col +:+ " IN (" +:+ placeholders (List.length vals) +:+ ")", TextArg <$> vals)
  | OutcomeIs o => ("outcome = ?", [TextArg o])
  | Matches p => (requestRecordSearchClause, seven p)
  end.

Definition clause_cond (c : clause) : cond :=
  match c with
  | AccountIn ids => In "upstream_account_id" (IntArg <$> ids)
  | TextIn col vals => In col (TextArg <$> vals)
  | _ => Where (fst (clause_text c)) (snd (clause_text c))
  end.

Definition where_text (cs : list clause) : string :=
  " WHERE " +:+ Join ("1=1" :: (fst <$> (clause_text <$> cs))) " AND ".
Definition where_args (cs : list clause) : list arg := List.concat (snd <$> (clause_text <$> cs)).

End meaning.

Definition desc (r s : Row) : Prop := row_ID s <= row_ID r.
#[export] Instance desc_dec : RelDecision desc.
Proof. intros r s. unfold desc. apply _. Defined.
Definition rows (p : Row -> bool) (t : table) : list Row := List.filter p (snd <$> map_to_list t).

(** Lists of values are never empty, and the text columns are these three. *)
Definition clause_wf (c : clause) : bool :=
  match c with
  | AccountIn ids => negb (bool_decide (ids = []))
  | TextIn col vals =>
      existsb (String.eqb col) ["outcome"; "model"; "response_mode"] && negb (bool_decide (vals = []))
  | _ => true
  end.

(** *** The statements of [distinctInt64] and [distinctStrings] *)

Definition distinct_ints_sql (column where_ : string) : string :=
  "SELECT DISTINCT " +:+ column +:+ " FROM request_records" +:+ where_ +:+ " AND " +:+ column
  +:+ " IS NOT NULL ORDER BY " +:+ column +:+ " ASC".
Definition distinct_strings_sql (column where_ : string) : string :=
  "SELECT DISTINCT " +:+ column +:+ " FROM request_records" +:+ where_ +:+ " AND " +:+ column
  +:+ " IS NOT NULL AND " +:+ column +:+ " != '' ORDER BY " +:+ column +:+ " ASC".

(** [LIKE] may ignore the case of ASCII letters, as it does in sqlite. *)
Definition same_char (ci : bool) (c d : ascii) : bool :=
  if ci then Ascii.eqb (lower_byte c) (lower_byte d) else Ascii.eqb c d.
Definition head_like (ci : bool) (like : string -> bool) (c : ascii) (v : string) : bool :=
  match v with String d v' => same_char ci c d && like v' | "" => false end.

(** [%] stands for any text, [!] makes the next character a literal. *)
Definition LikeLaws `{RecordSQL} : Prop := exists ci,
  (forall v, sql_like "" v = String.eqb v "")
  /\ (forall p v, sql_like (String "%" p) v = true <-> exists a b, v = a +:+ b /\ sql_like p b = true)
  /\ (forall c p v, sql_like (String "!" (String c p)) v = head_like ci (sql_like p) c v)
  /\ (forall c p v, c <> "%"%char -> c <> "_"%char -> c <> "!"%char ->
        sql_like (String c p) v = head_like ci (sql_like p) c v).

(** No ASCII capital is left. *)
Fixpoint lowered (s : string) : bool :=
  match s with "" => true | String c s' => Ascii.eqb (lower_byte c) c && lowered s' end.

(** The sqlite and postgres dialects compare text exactly.  (The tables of the
    mysql dialect are declared with a case-insensitive collation.) *)
Class RecordSQLLaws `{RecordSQL} : Prop := {
  sql_holds_clause : forall c r, clause_wf c = true -> sql_holds (clause_cond c) r = clause_holds c r;
  sql_like_laws : LikeLaws;
  sql_lower_lowered : forall s, lowered (sql_lower s) = true;
}.
Class RecordQueryLaws `{RecordSQL} `{!RecordQuery} : Prop := {
  sql_distinct_ids : forall cs t, forallb clause_wf cs = true ->
    let answer := sql_query (distinct_ints_sql "upstream_account_id" (where_text cs)) (where_args cs) t in
    exists ids, answer = Itoa <$> ids /\ StronglySorted Z.lt ids /\
      forall id, id ∈ ids <-> exists r, r ∈ rows (fun r => forallb (fun c => clause_holds c r) cs) t
                                       /\ rr_AccountID (row_Rec r) = Some id;
  sql_distinct_texts : forall col cs t, forallb clause_wf cs = true ->
    col ∈ ["outcome"; "model"; "response_mode"] ->
    let answer := sql_query (distinct_strings_sql col (where_text cs)) (where_args cs) t in
    NoDup answer /\
      forall v, v ∈ answer <-> v <> "" /\
        exists r, r ∈ rows (fun r => forallb (fun c => clause_holds c r) cs) t /\ text_col col r = Some v;
}.

(** ** The repository *)

Record RequestFilterOptions := mkRequestFilterOptions {
  opt_AccountIDs : list Z; opt_Outcomes : list string; opt_Models : list string; opt_ResponseModes : list string }.

Section repo.
Context `{RecordSQL} `{!RecordQuery} (toLower : string -> string).
(** [fault i]: how the [i]-th statement of the call fails. *)
Context (fault : nat -> option error).

Definition statement {A} (i : nat) (what : string) (x : A) : result error A :=
  match fault i with Some e => Err (Wrapf (what +:+ ": %w") [] e) | None => Ok x end.

(** [key] is the primary key the database assigns. *)
Definition Insert (key : Z) (record : Row) (t : table) : result error unit * table :=
  match fault 0 with
  | Some e => (Err (Wrapf "insert request record: %w" [] e), t)
  | None => (Ok tt, <[key := mkRow key (row_CreatedAt record) (row_ClientIP record) (row_LatencyMs record) (row_Rec record)]> t)
  end.

Definition GetByID (id : Z) (t : table) : result error Row :=
  match fault 0 with
  | Some e => Err (Wrapf "get request record %d: %w" [FInt id] e)
  | None => match t !! id with Some r => Ok r | None => Err (Sentinel ErrRequestRecordNotFound) end
  end.

Definition Query (p : QueryParams) (t : table) : result error (list Row) :=
  let sess := applyRequestRecordSessionFilters toLower p in
  let before r := match BeforeID p with Some b => row_ID r <? b | None => true end in
  let found := merge_sort desc (rows (fun r => forallb (fun c => sql_holds c r) sess && before r) t) in
  statement 0 "query request records" (if 0 <? Limit p then take (Z.to_nat (Limit p)) found else found).

Fixpoint parse_ids (column : string) (raws : list string) : result error (list Z) :=
  match raws with
  | [] => Ok []
  | raw :: l =>
      if String.eqb raw "" then parse_ids column l
      else match Atoi raw with
           | None => Err (Errorf "parse distinct %s %q: %w" [FStr column; FStr raw])
           | Some v => vs ← parse_ids column l; Ok (v :: vs)
           end
  end.

Definition distinctInt64 (i : nat) (what column : string) (w : string * list arg) (t : table) : result error (list Z) :=
  match fault i with
  | Some e => Err (Wrapf (what +:+ ": %w") [] e)
  | None =>
      match parse_ids column (sql_query (distinct_ints_sql column (fst w)) (snd w) t) with
      | Ok l => Ok l
      | Err e => Err (Wrapf (what +:+ ": %w") [] e)
      end
  end.

Definition distinctStrings (i : nat) (what column : string) (w : string * list arg) (t : table)
    : result error (list string) :=
  statement i what
    (List.filter (fun v => negb (String.eqb v "")) (sql_query (distinct_strings_sql column (fst w)) (snd w) t)).

Definition FilterOptions (p : QueryParams) (t : table) : result error RequestFilterOptions :=
  let w := requestRecordWhereSQL toLower p in
  accountIDs ← distinctInt64 0 "query request account options" "upstream_account_id" w t;
  outcomes ← distinctStrings 1 "query request outcome options" "outcome" w t;
  models ← distinctStrings 2 "query request model options" "model" w t;
  responseModes ← distinctStrings 3 "query request response mode options" "response_mode" w t;
  Ok (mkRequestFilterOptions accountIDs outcomes models responseModes).

(** [DeleteBefore] reads the keys of the oldest rows, then deletes those of
    them that are still there when the statement runs ([t']). *)
Definition asc (r s : Row) : Prop := row_ID r <= row_ID s.
#[export] Instance asc_dec : RelDecision asc.
Proof. intros r s. unfold asc. apply _. Defined.

Definition old_ids (before : time) (t : table) : list Z :=
  take 1000 (row_ID <$> merge_sort asc (rows (fun r => row_CreatedAt r <? sql_time before) t)).

Definition DeleteBefore (before : time) (t : table) (others : table -> table) : result error Z * table :=
  match fault 0 with
  | Some e => (Err (Wrapf "select old request records: %w" [] e), t)
  | None =>
      let ids := old_ids before t in
      let t' := others t in
      match ids with
      | [] => (Ok 0, t)
      | _ =>
          match fault 1 with
          | Some e => (Err (Wrapf "delete old request records: %w" [] e), t')
          | None => (Ok (Z.of_nat (size t' - size (foldr delete t' ids))), foldr delete t' ids)
          end
      end
  end.

(** ** The service *)

Definition normalizeRequestQueryParams (p : QueryParams) : QueryParams :=
  let p1 := if (Limit p <=? 0) || (200 <? Limit p) then p <| Limit := 50 |> else p in
  match Search p1 with
  | None => p1
  | Some s =>
      let search := TrimSpace s in
      if String.eqb search "" then p1 <| Search := None |> else p1 <| Search := Some search |>
  end.

Record RequestRecordPage := mkPage { Records : list Row; HasMore : bool; NextBeforeID : option Z }.

Definition QueryPage (p : QueryParams) (t : table) : result error RequestRecordPage :=
  let p1 := normalizeRequestQueryParams p in
  let limit := Limit p1 in
  records ← Query (p1 <| Limit := limit + 1 |>) t;
  if Z.of_nat (List.length records) <=? limit then Ok (mkPage records false None)
  else
    let shown := take (Z.to_nat limit) records in
    Ok (mkPage shown true (row_ID <$> last shown)).

Definition ServiceGetByID (id : Z) (t : table) : result error Row :=
  if id <=? 0 then Err (Sentinel ErrRequestRecordNotFound) else GetByID id t.

Definition ServiceFilterOptions (p : QueryParams) (t : table) : result error RequestFilterOptions :=
  FilterOptions (normalizeRequestQueryParams p <| Limit := 0 |>) t.

End repo.

(** ** The admin API over the records *)

(** [Valid] of the generated enumerations. *)
Definition RequestOutcome_Valid (o : string) : bool :=
  existsb (String.eqb o)
    ["account_unavailable"; "cancelled"; "no_available_account"; "no_extractable_text"; "router_error";
     "success"; "upstream_error"; "upstream_timeout"].
Definition RequestResponseMode_Valid (m : string) : bool :=
  existsb (String.eqb m) ["json"; "sse"; "websocket"].

Record RequestsListParams := mkListParams {
  p_Start : option time; p_End : option time; p_Before : option Z; p_Limit : option Z;
  p_AccountId : option (list Z); p_Outcome : option (list string); p_Model : option (list string);
  p_ResponseMode : option (list string); p_Search : option string }.

Definition requestLogFilterMaxItems : Z := 50.
Definition too_many {A} (l : list A) : bool := requestLogFilterMaxItems <? Z.of_nat (List.length l).
Definition at_most_50 : string := "must contain at most 50 values".
Definition no_filters : QueryParams := mkQueryParams None None None [] None [] [] [] None 0 None.

(** The first rejected filter, with the reason. *)
Definition validateRequestLogQuery (p : QueryParams) : option (string * string) :=
  let trimmed_len s := RuneCountInString (TrimSpace s) in
  if match Start p, End_ p with Some s, Some e => After s e | _, _ => false end
  then Some ("start", "start must be before or equal to end")
  else if match BeforeID p with Some b => b <=? 0 | None => false end then Some ("before", "must be positive")
  else if (Limit p <? 0) || (200 <? Limit p) then Some ("limit", "must be between 1 and 200")
  else if existsb (fun id => id <=? 0) (AccountIDs p) then Some ("account_id", "must be positive")
  else if too_many (AccountIDs p) then Some ("account_id", at_most_50)
  else if existsb (fun o => negb (RequestOutcome_Valid o)) (Outcomes p) then Some ("outcome", "unknown outcome")
  else if too_many (Outcomes p) then Some ("outcome", at_most_50)
  else if existsb (fun m => String.eqb (TrimSpace m) "" || (128 <? trimmed_len m)) (Models p)
  then Some ("model", "must be 1..128 characters")
  else if too_many (Models p) then Some ("model", at_most_50)
  else if existsb (fun m => negb (RequestResponseMode_Valid m)) (ResponseModes p)
  then Some ("response_mode", "unknown response mode")
  else if too_many (ResponseModes p) then Some ("response_mode", at_most_50)
  else match Search p with
       | Some s =>
           if String.eqb (TrimSpace s) "" then Some ("search", "must be 1..256 characters")
           else if 256 <? trimmed_len s then Some ("search", "must be 1..256 characters") else None
       | None => None
       end.

(** The parameters of the list and of its filter options: the latter have no
    cursor and no limit. *)
Definition queryParamsFromRequestsList (r : RequestsListParams) : QueryParams + (string * string) :=
  if match p_Limit r with Some l => (l <? 1) || (200 <? l) | None => false end
  then inr ("limit", "must be between 1 and 200")
  else
    let out := mkQueryParams (p_Start r) (p_End r) None (default [] (p_AccountId r)) None
                 (default [] (p_Outcome r)) (default [] (p_Model r)) (default [] (p_ResponseMode r))
                 (p_Search r) (default 0 (p_Limit r)) (p_Before r) in
    match validateRequestLogQuery out with Some bad => inr bad | None => inl out end.

Definition queryParamsFromRequestsOptions (r : RequestsListParams) : QueryParams + (string * string) :=
  let out := mkQueryParams (p_Start r) (p_End r) None (default [] (p_AccountId r)) None
               (default [] (p_Outcome r)) (default [] (p_Model r)) (default [] (p_ResponseMode r))
               (p_Search r) 0 None in
  match validateRequestLogQuery out with Some bad => inr bad | None => inl out end.

(** A row of the list carries every column but the bodies, and the account
    the record names, when there is one. *)
Section handler.
Context {Account : Type} (account_of : Z -> option Account).

Record RequestLogRow := mkLogRow { log_row : Row; log_account : option Account }.

Definition requestLogRowFromDomain (r : Row) : result error RequestLogRow :=
  if negb (RequestOutcome_Valid (rr_Outcome (row_Rec r)))
  then Err (Errorf "request record %d has invalid outcome %q" [FInt (row_ID r); FStr (rr_Outcome (row_Rec r))])
  else if negb (RequestResponseMode_Valid (rr_ResponseMode (row_Rec r)))
  then Err (Errorf "request record %d has invalid response_mode %q"
              [FInt (row_ID r); FStr (rr_ResponseMode (row_Rec r))])
  else Ok (mkLogRow r (rr_AccountID (row_Rec r) ≫= account_of)).

Fixpoint log_rows (l : list Row) : result error (list RequestLogRow) :=
  match l with
  | [] => Ok []
  | r :: l' => x ← requestLogRowFromDomain r; xs ← log_rows l'; Ok (x :: xs)
  end.

(** The answer: the envelope's code and data, or a system error. *)
Inductive list_answer :=
  | LPage (records : list RequestLogRow) (has_more : bool) (next_before_id : option Z)
  | LInvalidFilter (field reason : string)
  | LSystemError.

Context `{RecordSQL} (toLower : string -> string) (fault : nat -> option error) (accounts_err : option error).

Definition RequestsList (params : RequestsListParams) (t : table) : list_answer :=
  match queryParamsFromRequestsList params with
  | inr (field, reason) => LInvalidFilter field reason
  | inl p =>
      match QueryPage toLower fault p t with
      | Err _ => LSystemError
      | Ok page =>
          match accounts_err with
          | Some _ => LSystemError
          | None =>
              match log_rows (Records page) with
              | Err _ => LSystemError
              | Ok l => LPage l (HasMore page) (NextBeforeID page)
              end
          end
      end
  end.

End handler.
End records.
