(* ===== verification/RecordsProofs.v ===== *)
(** * RecordsProofs: what the readers of the request records find *)

From S2P Require Import Prelude GoLib GoStrings GoHTTP GoJSON GoJSONProofs GoAny Errors Account Engine Usage Proxy.
From S2P Require Import Records.
Import records.

(** ** Conditions as clauses *)

Section clauses.
Context (toLower : string -> string).

Definition clauses (p : QueryParams) : list clause :=
  when_ (Start p) Since ++ when_ (End_ p) Until
  ++ many_or_one (effectiveAccountIDs p) (AccountID p) AccountIn AccountIs
  ++ many_or_one (effectiveStrings (Outcomes p)) (Outcome p) (TextIn "outcome") OutcomeIs
  ++ many (effectiveStrings (Models p)) (TextIn "model")
  ++ many (effectiveStrings (ResponseModes p)) (TextIn "response_mode")
  ++ when_ (Search p) (fun s => Matches (likePattern toLower s)).

Lemma fmap_when {A B C} (g : B -> C) (o : option A) (f : A -> B) : g <$> when_ o f = when_ o (fun x => g (f x)).
Proof. by destruct o. Qed.
Lemma fmap_many_or_one {A B C} (g : B -> C) (l : list A) o (f : list A -> B) h :
  g <$> many_or_one l o f h = many_or_one l o (fun x => g (f x)) (fun x => g (h x)).
Proof. destruct l; [apply fmap_when|done]. Qed.

Lemma session_clauses p : applyRequestRecordSessionFilters toLower p = clause_cond <$> clauses p.
Proof.
  unfold applyRequestRecordSessionFilters, clauses, many.
  by rewrite !fmap_app, !fmap_many_or_one, !fmap_when.
Qed.

Lemma where_clauses p : requestRecordWhereSQL toLower p = (where_text (clauses p), where_args (clauses p)).
Proof.
  assert (where_parts toLower p = clause_text <$> clauses p) as E.
  { unfold where_parts, clauses, many. by rewrite !fmap_app, !fmap_many_or_one, !fmap_when. }
  unfold requestRecordWhereSQL, where_text, where_args. by rewrite E.
Qed.

Lemma wf_many {A} (l : list A) o (f : list A -> clause) g :
  (forall x l', clause_wf (f (x :: l')) = true) -> (forall x, clause_wf (g x) = true) ->
  forallb clause_wf (many_or_one l o f g) = true.
Proof. intros Hf Hg. destruct l as [|x l], o; cbn; rewrite ?Hf, ?Hg; done. Qed.

Lemma clauses_wf p : forallb clause_wf (clauses p) = true.
Proof.
  unfold clauses, many. rewrite !forallb_app.
  rewrite !wf_many by done. by destruct (Start p), (End_ p), (Search p).
Qed.

End clauses.

(** ** LIKE with an escaped pattern is substring search *)

Lemma lowered_app a b : lowered (a +:+ b) = lowered a && lowered b.
Proof. induction a as [|c a IH]; [done|]. change (String c a +:+ b) with (String c (a +:+ b)). cbn [lowered]. by rewrite IH, andb_assoc. Qed.

Lemma same_char_lowered ci c d :
  lower_byte c = c -> lower_byte d = d -> same_char ci c d = Ascii.eqb c d.
Proof. intros Hc Hd. unfold same_char. destruct ci; [|done]. by rewrite Hc, Hd. Qed.

Definition has_prefix (x v : string) : Prop := exists b, v = x +:+ b.

Section like.
Context `{RecordSQL}.

Lemma like_prefix x v : LikeLaws -> lowered x = true -> lowered v = true ->
  sql_like (like_escape x +:+ "%") v = true <-> has_prefix x v.
Proof.
  intros (ci & L0 & L1 & L2 & L3). revert v. induction x as [|c x IH]; intros v Hx Hv.
  - cbn [like_escape]. change ("" +:+ "%") with (String "%" ""). rewrite L1. split.
    + intros (a & b & -> & _). by exists (a +:+ b).
    + intros _. exists v, "". split; [by rewrite str_app_nil_r|]. by rewrite L0.
  - cbn in Hx. apply andb_true_iff in Hx as [Hc Hx]. apply Ascii.eqb_eq in Hc.
    assert (sql_like (like_escape (String c x) +:+ "%") v
            = head_like ci (sql_like (like_escape x +:+ "%")) c v) as ->.
    { cbn [like_escape]. destruct (_ || _) eqn:E; [apply L2|].
      rewrite !orb_false_iff, !Ascii.eqb_neq in E. destruct E as [[? ?] ?]. by apply L3. }
    destruct v as [|d v]; cbn [head_like].
    + split; [done|]. by intros [b Hb].
    + cbn in Hv. apply andb_true_iff in Hv as [Hd Hv]. apply Ascii.eqb_eq in Hd.
      rewrite same_char_lowered, andb_true_iff, Ascii.eqb_eq by done. rewrite IH by done.
      unfold has_prefix. split.
      * intros [-> [b ->]]. by exists b.
      * intros [b [= -> ->]]. split; [done|]. by exists b.
Qed.

(** The search text occurs in the value. *)
Definition occurs (x v : string) : Prop := exists a b, v = a +:+ x +:+ b.

Lemma like_pattern toLower s v : LikeLaws -> lowered (toLower (TrimSpace s)) = true -> lowered v = true ->
  sql_like (likePattern toLower s) v = true <-> occurs (toLower (TrimSpace s)) v.
Proof.
  intros L Hs Hv. unfold likePattern. pose proof L as (ci & _ & L1 & _).
  change ("%" +:+ ?t) with (String "%" t). rewrite L1. unfold occurs. split.
  - intros (a & b & -> & Hb). rewrite lowered_app in Hv. apply andb_true_iff in Hv as [_ Hv].
    apply like_prefix in Hb as [b' ->]; [|done..]. by exists a, b'.
  - intros (a & b & ->). exists a, (toLower (TrimSpace s) +:+ b). split; [done|].
    rewrite lowered_app in Hv. apply andb_true_iff in Hv as [_ Hv].
    apply like_prefix; [done..|]. by exists b.
Qed.

End like.

(** ** What a filter means *)

Definition asked_account (p : QueryParams) (r : Row) : Prop :=
  let ids := List.filter (fun id => 0 <? id) (AccountIDs p) in
  if bool_decide (ids = []) then (forall id, AccountID p = Some id -> rr_AccountID (row_Rec r) = Some id)
  else exists id, id ∈ ids /\ rr_AccountID (row_Rec r) = Some id.

(** A list of texts restricts a column unless all of them are blank. *)
Definition asked_texts (l : list string) (value : option string) (unrestricted : Prop) : Prop :=
  let vals := List.filter (fun v => negb (String.eqb v "")) (TrimSpace <$> l) in
  if bool_decide (vals = []) then unrestricted else exists v, v ∈ vals /\ value = Some v.

Definition wanted `{RecordSQL} (toLower : string -> string) (p : QueryParams) (r : Row) : Prop :=
  (forall t, Start p = Some t -> sql_time t <= row_CreatedAt r)
  /\ (forall t, End_ p = Some t -> row_CreatedAt r <= sql_time t)
  /\ asked_account p r
  /\ asked_texts (Outcomes p) (Some (rr_Outcome (row_Rec r)))
       (forall o, Outcome p = Some o -> rr_Outcome (row_Rec r) = o)
  /\ asked_texts (Models p) (rr_Model (row_Rec r)) True
  /\ asked_texts (ResponseModes p) (Some (rr_ResponseMode (row_Rec r))) True
  /\ (forall s, Search p = Some s -> exists v, v ∈ searched r /\ occurs (toLower (TrimSpace s)) (sql_lower v)).

Lemma first_seen_elem {A} `{Countable A} keep (l : list A) x :
  forall seen, x ∈ first_seen keep seen l <-> x ∈ List.filter keep l /\ x ∉ seen.
Proof.
  induction l as [|y l IH]; intros seen; cbn [first_seen List.filter]; [set_solver|].
  destruct (keep y); cbn [negb orb]; [|apply IH].
  destruct (bool_decide_reflect (y ∈ seen)); rewrite ?elem_of_cons, IH; [set_solver|].
  rewrite not_elem_of_union, not_elem_of_singleton. destruct (decide (x = y)); set_solver.
Qed.

Lemma first_seen_NoDup {A} `{Countable A} keep (l : list A) : forall seen, NoDup (first_seen keep seen l).
Proof.
  induction l as [|y l IH]; intros seen; cbn [first_seen]; [constructor|].
  destruct (_ || _); [apply IH|]. constructor; [|apply IH]. rewrite first_seen_elem. set_solver.
Qed.

Lemma first_seen_nil {A} `{Countable A} keep (l : list A) :
  first_seen keep ∅ l = [] <-> List.filter keep l = [].
Proof.
  assert (forall k : list A, k = [] <-> forall x, x ∉ k) as E.
  { intros [|y k]; [set_solver|]. split; [done|]. intros Hk. destruct (Hk y). set_solver. }
  rewrite !E. setoid_rewrite first_seen_elem. set_solver.
Qed.

Section query.
Context `{RecordSQLLaws} (toLower : string -> string).
Hypothesis toLower_lowered : forall s, lowered (toLower s) = true.

Definition row_selected (cs : list clause) (r : Row) : bool := forallb (fun c => clause_holds c r) cs.

Lemma holds_app cs ds r : row_selected (cs ++ ds) r = true <-> row_selected cs r = true /\ row_selected ds r = true.
Proof. unfold row_selected. by rewrite forallb_app, andb_true_iff. Qed.

Lemma holds_when {A} (o : option A) f r :
  row_selected (when_ o f) r = true <-> forall x, o = Some x -> clause_holds (f x) r = true.
Proof. destruct o; cbn; rewrite ?andb_true_r; naive_solver. Qed.

Lemma holds_many {A} (l : list A) o f g r :
  row_selected (many_or_one l o f g) r = true
  <-> if decide (l = []) then row_selected (when_ o g) r = true else clause_holds (f l) r = true.
Proof. destruct l; cbn; [done|]. by rewrite andb_true_r. Qed.

Lemma asked_texts_ok (l : list string) col r o g (dflt : Prop) :
  (row_selected (when_ o g) r = true <-> dflt) ->
  row_selected (many_or_one (effectiveStrings l) o (TextIn col) g) r = true
  <-> asked_texts l (text_col col r) dflt.
Proof.
  intros Hd. rewrite holds_many. unfold asked_texts, effectiveStrings.
  destruct (decide _) as [E|E].
  - rewrite first_seen_nil in E. rewrite E, bool_decide_true by done. apply Hd.
  - rewrite bool_decide_false by (by rewrite <- first_seen_nil).
    cbn [clause_holds]. destruct (text_col col r) as [v|]; [|naive_solver].
    rewrite existsb_eqb_In, first_seen_elem. set_solver.
Qed.

Lemma clauses_wanted p r : row_selected (clauses toLower p) r = true <-> wanted toLower p r.
Proof.
  unfold clauses, wanted, many. rewrite !holds_app, !holds_when.
  rewrite (asked_texts_ok (Outcomes p) "outcome" r (Outcome p) OutcomeIs
             (forall o, Outcome p = Some o -> rr_Outcome (row_Rec r) = o))
    by (rewrite holds_when; cbn; by setoid_rewrite String.eqb_eq).
  rewrite (asked_texts_ok (Models p) "model" r None _ True), (asked_texts_ok (ResponseModes p) "response_mode" r None _ True)
    by done.
  assert (row_selected (many_or_one (effectiveAccountIDs p) (AccountID p) AccountIn AccountIs) r = true
          <-> asked_account p r) as ->.
  { rewrite holds_many. unfold asked_account, effectiveAccountIDs. destruct (decide _) as [E|E].
    - rewrite first_seen_nil in E. rewrite E, bool_decide_true, holds_when by done. cbn.
      by setoid_rewrite bool_decide_eq_true.
    - rewrite bool_decide_false by (by rewrite <- first_seen_nil). cbn [clause_holds].
      destruct (rr_AccountID (row_Rec r)) as [id|]; [|naive_solver].
      rewrite existsb_exists. setoid_rewrite Z.eqb_eq. setoid_rewrite <- list_elem_of_In.
      setoid_rewrite first_seen_elem. set_solver. }
  cbn [clause_holds]. setoid_rewrite Z.leb_le.
  assert ((forall s, Search p = Some s ->
             existsb (fun v => sql_like (likePattern toLower s) (sql_lower v)) (searched r) = true)
          <-> forall s, Search p = Some s -> exists v, v ∈ searched r /\ occurs (toLower (TrimSpace s)) (sql_lower v)) as ->.
  { split; intros Hs s Es; specialize (Hs s Es); rewrite existsb_exists in *.
    - destruct Hs as (v & Hv%list_elem_of_In & Hl). exists v. split; [done|].
      apply like_pattern in Hl; [done|apply sql_like_laws|apply toLower_lowered|apply sql_lower_lowered].
    - destruct Hs as (v & Hv%list_elem_of_In & Hl). exists v. split; [done|].
      apply like_pattern; [apply sql_like_laws|apply toLower_lowered|apply sql_lower_lowered|done]. }
  done.
Qed.

End query.

(** ** Reading the table *)

Definition keyed (t : table) : Prop := forall k r, t !! k = Some r -> row_ID r = k.

Lemma elem_row_list p t r : keyed t -> r ∈ rows p t <-> t !! row_ID r = Some r /\ p r = true.
Proof.
  intros Ht. unfold rows. rewrite list_elem_of_In, filter_In, <- list_elem_of_In, list_elem_of_fmap.
  split.
  - intros [([k r'] & -> & Hk%elem_of_map_to_list) Hp]. cbn in *. by rewrite (Ht _ _ Hk).
  - intros [Hr Hp]. split; [|done]. exists (row_ID r, r). by rewrite elem_of_map_to_list.
Qed.

Lemma NoDup_rows_id p t : keyed t -> NoDup (row_ID <$> rows p t).
Proof.
  intros Ht.
  assert (NoDup (row_ID <$> (snd <$> map_to_list t))) as Hall.
  { replace (row_ID <$> _) with ((map_to_list t).*1); [apply NoDup_fst_map_to_list|].
    rewrite <- list_fmap_compose. apply list_fmap_ext. intros i [k r] Hi. cbn. symmetry. apply Ht.
    apply elem_of_map_to_list. by eapply list_elem_of_lookup_2. }
  unfold rows. revert Hall. generalize (snd <$> map_to_list t). induction l as [|r l IH]; cbn; [done|].
  intros [Hr Hl]%NoDup_cons. destruct (p r); cbn; [|by apply IH]. constructor; [|by apply IH].
  rewrite list_elem_of_fmap in *. intros (s & Es & Hs). apply Hr. exists s. split; [done|].
  rewrite list_elem_of_In, filter_In, <- list_elem_of_In in Hs. apply Hs.
Qed.

#[export] Instance desc_total : Total desc.
Proof. intros r s. unfold desc. lia. Qed.
#[export] Instance desc_trans : Transitive desc.
Proof. intros r s u. unfold desc. lia. Qed.
#[export] Instance asc_total : Total asc.
Proof. intros r s. unfold asc. lia. Qed.
#[export] Instance asc_trans : Transitive asc.
Proof. intros r s u. unfold asc. lia. Qed.

(** A list of rows by descending key is determined by its elements. *)
Lemma desc_unique (l k : list Row) :
  StronglySorted desc l -> StronglySorted desc k -> NoDup (row_ID <$> l) -> NoDup (row_ID <$> k) ->
  (forall r, r ∈ l <-> r ∈ k) -> l = k.
Proof.
  intros Sl Sk Nl Nk Hlk. apply (StronglySorted_unique_strong desc); [|done..|].
  - intros r s Hr Hs. unfold desc. intros. apply (NoDup_fmap_inj row_ID l); [done|done|by apply Hlk|lia].
  - apply NoDup_Permutation; [by apply NoDup_fmap_1 in Nl|by apply NoDup_fmap_1 in Nk|done].
Qed.

Section reading.
Context `{RecordSQLLaws} (toLower : string -> string) (fault : nat -> option error).
Hypothesis toLower_lowered : forall s, lowered (toLower s) = true.
Hypothesis no_fault : forall i, fault i = None.

(** All the rows a query may return, newest key first. *)
Definition found (p : QueryParams) (t : table) : list Row :=
  merge_sort desc (rows (fun r => forallb (fun c => sql_holds c r) (applyRequestRecordSessionFilters toLower p)
                                  && match BeforeID p with Some b => row_ID r <? b | None => true end) t).

Lemma found_sorted p t : StronglySorted desc (found p t).
Proof. apply StronglySorted_merge_sort; apply _. Qed.
Lemma found_NoDup p t : keyed t -> NoDup (row_ID <$> found p t).
Proof. intros Ht. unfold found. rewrite merge_sort_Permutation. by apply NoDup_rows_id. Qed.

Lemma session_holds p r :
  forallb (fun c => sql_holds c r) (applyRequestRecordSessionFilters toLower p) = true <-> wanted toLower p r.
Proof.
  rewrite <- clauses_wanted by done. rewrite session_clauses.
  pose proof (clauses_wf toLower p) as Hwf. unfold row_selected. revert Hwf.
  induction (clauses toLower p) as [|c cs IH]; [done|]. cbn. rewrite !andb_true_iff. intros [Hc Hcs].
  rewrite IH by done. by rewrite sql_holds_clause.
Qed.

Lemma elem_found p t r : keyed t ->
  r ∈ found p t <-> t !! row_ID r = Some r /\ wanted toLower p r /\ (forall b, BeforeID p = Some b -> row_ID r < b).
Proof.
  intros Ht. unfold found. rewrite merge_sort_Permutation, elem_row_list by done.
  rewrite andb_true_iff, session_holds. destruct (BeforeID p) as [b|].
  - rewrite Z.ltb_lt. naive_solver.
  - naive_solver.
Qed.

Lemma Query_found p t :
  Query toLower fault p t = Ok (if 0 <? Limit p then take (Z.to_nat (Limit p)) (found p t) else found p t).
Proof. unfold Query, statement. by rewrite no_fault. Qed.

(** The rows of a page and where the next one starts. *)
Lemma QueryPage_ok p t :
  let p1 := normalizeRequestQueryParams p in
  let n := Z.to_nat (Limit p1) in
  1 <= Limit p1 <= 200 /\
  QueryPage toLower fault p t =
    Ok (if bool_decide (List.length (found p1 t) <= n)%nat then mkPage (found p1 t) false None
        else mkPage (take n (found p1 t)) true (row_ID <$> last (take n (found p1 t)))).
Proof.
  intros p1 n.
  assert (1 <= Limit p1 <= 200) as Hl.
  { unfold p1, normalizeRequestQueryParams.
    destruct ((Limit p <=? 0) || (200 <? Limit p)) eqn:E; cbn; repeat case_match; cbn; lia. }
  split; [done|]. unfold QueryPage. fold p1. rewrite Query_found.
  pose (q1 := p1 <| Limit := Limit p1 + 1 |>). change (p1 <| Limit := Limit p1 + 1 |>) with q1.
  change (found q1 t) with (found p1 t). change (Limit q1) with (Limit p1 + 1).
  cbn [mbind result_bind]. rewrite (proj2 (Z.ltb_lt 0 (Limit p1 + 1))) by lia.
  rewrite length_take. replace (Z.to_nat (Limit p1 + 1)) with (S n) by lia.
  destruct (bool_decide_reflect (List.length (found p1 t) <= n)%nat) as [Hn|Hn].
  - rewrite (proj2 (Z.leb_le _ _)) by lia. by rewrite take_ge by lia.
  - rewrite (proj2 (Z.leb_gt _ _)) by lia. fold n. by rewrite take_take, Nat.min_l by lia.
Qed.

End reading.

(** In a descending list, what follows a row are the rows below it. *)
Lemma split_at_last (A B : list Row) x r :
  StronglySorted desc (A ++ B) -> NoDup (row_ID <$> A ++ B) -> last A = Some x ->
  r ∈ B <-> r ∈ A ++ B /\ row_ID r < row_ID x.
Proof.
  intros Hs Hn [l ->]%last_Some. rewrite fmap_app, NoDup_app in Hn. destruct Hn as (_ & Hdis & _).
  rewrite elem_of_app. split.
  - intros Hr. split; [by right|].
    pose proof (StronglySorted_app_1_elem_of _ _ _ x r Hs ltac:(set_solver) Hr) as Hle. unfold desc in Hle.
    destruct (decide (row_ID r = row_ID x)) as [E|]; [|lia].
    destruct (Hdis (row_ID x)); [apply list_elem_of_fmap; exists x; set_solver|].
    rewrite <- E. by apply list_elem_of_fmap_2.
  - intros [[Hr|Hr] Hlt]; [exfalso|done].
    apply StronglySorted_app_1_l, StronglySorted_app in Hs as (Hl & _ & _).
    apply elem_of_app in Hr as [Hr|Hr%list_elem_of_singleton]; [|subst; lia].
    specialize (Hl r x Hr ltac:(set_solver)). unfold desc in Hl. lia.
Qed.

(** ** Reading page by page *)

Section walk.
Context `{RecordSQLLaws} (toLower : string -> string) (fault : nat -> option error).

(** A client that follows [next_before_id]; the table it sees at the [i]-th
    page is [ts i]. *)
Fixpoint walk (fuel i : nat) (p : QueryParams) (ts : nat -> table) : result error (list Row) :=
  match fuel with
  | O => Err (New "more pages")
  | S fuel' =>
      page ← QueryPage toLower fault p (ts i);
      match NextBeforeID page with
      | None => Ok (Records page)
      | Some b => rest ← walk fuel' (S i) (p <| BeforeID := Some b |>) ts; Ok (Records page ++ rest)
      end
  end.

Hypothesis toLower_lowered : forall s, lowered (toLower s) = true.
Hypothesis no_fault : forall i, fault i = None.

(** Tables that agree on all rows below a key. *)
Definition agree_below (b : Z) (t t' : table) : Prop := forall k, k < b -> t !! k = t' !! k.

Definition unlimited (p : QueryParams) : QueryParams := normalizeRequestQueryParams p.

Lemma normalize_before p b :
  normalizeRequestQueryParams (p <| BeforeID := Some b |>) = normalizeRequestQueryParams p <| BeforeID := Some b |>.
Proof.
  unfold normalizeRequestQueryParams. destruct p as [? ? ? ? ? ? ? ? s l ?]. cbn.
  destruct (_ || _), s; cbn; try destruct (String.eqb _ _); done.
Qed.

(** What follows the first [n] rows is what is found before the last of them. *)
Lemma found_next p t t' n x :
  keyed t -> keyed t' -> last (take n (found toLower p t)) = Some x -> agree_below (row_ID x) t t' ->
  found toLower (p <| BeforeID := Some (row_ID x) |>) t' = drop n (found toLower p t).
Proof.
  intros Ht Ht' Hx Hag.
  pose proof (found_sorted toLower p t) as Hs. pose proof (found_NoDup toLower p t Ht) as Hn.
  pose proof (take_drop n (found toLower p t)) as Htd.
  assert (x ∈ found toLower p t) as Hxf.
  { rewrite <- Htd. apply elem_of_app. left. apply last_Some in Hx as [l ->]. set_solver. }
  pose proof (proj1 (elem_found toLower toLower_lowered p t x Ht) Hxf) as (_ & _ & Hbx).
  assert (forall r, r ∈ drop n (found toLower p t) <-> r ∈ found toLower p t /\ row_ID r < row_ID x) as Hd.
  { intros r. rewrite <- Htd in Hs, Hn. pose proof (split_at_last _ _ x r Hs Hn Hx) as E.
    by rewrite Htd in E. }
  apply desc_unique.
  - apply found_sorted.
  - rewrite <- Htd in Hs. by apply StronglySorted_app_1_r in Hs.
  - by apply found_NoDup.
  - rewrite <- Htd, fmap_app, NoDup_app in Hn. apply Hn.
  - intros r. rewrite Hd, !elem_found by done.
    change (wanted toLower (p <| BeforeID := Some (row_ID x) |>) r) with (wanted toLower p r).
    cbn [BeforeID set]. split.
    + intros (Hr & Hw & Hb). specialize (Hb _ eq_refl).
      rewrite (Hag _ Hb). split; [|done]. split; [done|]. split; [done|]. intros b Eb. specialize (Hbx _ Eb). lia.
    + intros [(Hr & Hw & Hb) Hlt]. rewrite <- (Hag _ Hlt). split; [done|]. split; [done|]. by intros b [= <-].
Qed.

Lemma walk_found ts bound fuel : forall i p,
  (forall j, keyed (ts j)) -> (forall j, agree_below bound (ts i) (ts j)) ->
  (forall r, r ∈ found toLower (normalizeRequestQueryParams p) (ts i) -> row_ID r < bound) ->
  (List.length (found toLower (normalizeRequestQueryParams p) (ts i)) < fuel)%nat ->
  walk fuel i p ts = Ok (found toLower (normalizeRequestQueryParams p) (ts i)).
Proof.
  induction fuel as [|fuel IH]; intros i p Hk Hag Hb Hlen; [lia|]. cbn [walk].
  destruct (QueryPage_ok toLower fault no_fault p (ts i)) as [Hl ->].
  set (P := normalizeRequestQueryParams p) in *. set (F := found toLower P (ts i)) in *.
  set (n := Z.to_nat (Limit P)). cbn [mbind result_bind].
  destruct (bool_decide_reflect (List.length F <= n)%nat) as [Hn|Hn]; [done|]. cbn [NextBeforeID Records].
  assert (exists x, last (take n F) = Some x) as [x Hx].
  { destruct (last (take n F)) eqn:E; [eauto|]. apply last_None in E.
    apply (f_equal (@List.length Row)) in E. rewrite length_take in E. cbn in E. lia. }
  assert (row_ID x < bound) as Hxb.
  { apply Hb. apply last_Some in Hx as [l El]. rewrite <- (take_drop n F), El. set_solver. }
  rewrite Hx. cbn [fmap option_fmap option_map].
  assert (found toLower (normalizeRequestQueryParams (p <| BeforeID := Some (row_ID x) |>)) (ts (S i)) = drop n F) as Hd.
  { rewrite normalize_before. apply found_next; [done..|]. intros k Hkx. apply Hag. lia. }
  rewrite IH.
  - rewrite Hd. cbn [mbind result_bind]. by rewrite take_drop.
  - done.
  - intros j k Hkb. rewrite <- (Hag (S i) k Hkb). by apply Hag.
  - rewrite Hd. intros r Hr. apply Hb. rewrite <- (take_drop n F). set_solver.
  - rewrite Hd, length_drop. lia.
Qed.

(** C8: Following [next_before_id] returns, in pages, exactly the records that
    satisfy the filter, each once, newest key first - also when records are
    added between two pages. *)
Theorem pages_complete ts p bound fuel :
  (forall j, keyed (ts j)) -> (forall j, agree_below bound (ts 0%nat) (ts j)) ->
  (forall k, bound <= k -> ts 0%nat !! k = None) -> (size (ts 0%nat) < fuel)%nat ->
  exists l, walk fuel 0 p ts = Ok l /\ StronglySorted desc l /\ NoDup (row_ID <$> l)
    /\ forall r, r ∈ l <-> ts 0%nat !! row_ID r = Some r
         /\ wanted toLower (normalizeRequestQueryParams p) r /\ (forall b, BeforeID p = Some b -> row_ID r < b).
Proof.
  intros Hk Hag Hfresh Hf. set (P := normalizeRequestQueryParams p).
  assert (BeforeID P = BeforeID p) as EB by (unfold P, normalizeRequestQueryParams; repeat case_match; done).
  exists (found toLower P (ts 0%nat)). split; [|split; [|split]].
  - apply walk_found with bound; [done..| |].
    + intros r Hr. apply elem_found in Hr as (Hr & _); [|done..].
      destruct (Z.lt_ge_cases (row_ID r) bound) as [|Hge]; [done|]. by rewrite (Hfresh _ Hge) in Hr.
    + unfold found. rewrite merge_sort_Permutation. unfold rows.
      eapply Nat.le_lt_trans; [apply List.filter_length_le|]. rewrite length_fmap. by rewrite length_map_to_list.
  - apply found_sorted.
  - by apply found_NoDup.
  - intros r. rewrite elem_found by done. by rewrite EB.
Qed.

End walk.

(** ** The choices of a filter *)

Section options.
Context `{RecordSQLLaws} `{!RecordQuery} `{!RecordQueryLaws} (toLower : string -> string) (fault : nat -> option error).
Hypothesis toLower_lowered : forall s, lowered (toLower s) = true.
Hypothesis no_fault : forall i, fault i = None.

Lemma elem_selected p t r : keyed t ->
  r ∈ rows (fun r => forallb (fun c => clause_holds c r) (clauses toLower p)) t
  <-> t !! row_ID r = Some r /\ wanted toLower p r.
Proof.
  intros Ht. rewrite elem_row_list by done. by rewrite <- (clauses_wanted toLower toLower_lowered p r).
Qed.

Lemma parse_ids_Itoa column ids : Forall int64_ok ids -> parse_ids column (Itoa <$> ids) = Ok ids.
Proof.
  induction 1 as [|id ids Hid Hids IH]; [done|]. cbn [parse_ids fmap list_fmap]. fold (Itoa <$> ids).
  destruct (String.eqb_spec (Itoa id) "") as [E|E].
  - pose proof (Atoi_Itoa id Hid) as Hp. rewrite E in Hp. discriminate Hp.
  - rewrite Atoi_Itoa by done. change (list_fmap _ _ Itoa ids) with (Itoa <$> ids). by rewrite IH.
Qed.

Definition int64_accounts (t : table) : Prop :=
  forall k r id, t !! k = Some r -> rr_AccountID (row_Rec r) = Some id -> int64_ok id.

(** The rows the clauses of the filter select are those the list shows. *)
Lemma listed_rows p t l :
  keyed t -> Query toLower fault (p <| Limit := 0 |> <| BeforeID := None |>) t = Ok l ->
  forall r, r ∈ rows (fun r => forallb (fun c => clause_holds c r) (clauses toLower p)) t <-> r ∈ l.
Proof.
  intros Ht. rewrite Query_found by done. intros [= <-] r.
  change (r ∈ _) with (r ∈ found toLower (p <| Limit := 0 |> <| BeforeID := None |>) t) at 2.
  rewrite elem_selected, elem_found by done. cbn [BeforeID set]. split; intros Hr.
  - destruct Hr as [? ?]. by split.
  - destruct Hr as (? & ? & _). by split.
Qed.

Lemma distinct_texts_ok i what col p t l : keyed t ->
  Query toLower fault (p <| Limit := 0 |> <| BeforeID := None |>) t = Ok l ->
  col ∈ ["outcome"; "model"; "response_mode"] ->
  exists vs, distinctStrings fault i what col (requestRecordWhereSQL toLower p) t = Ok vs
    /\ NoDup vs /\ forall v, v ∈ vs <-> v <> "" /\ exists r, r ∈ l /\ text_col col r = Some v.
Proof.
  intros Ht Hq Hcol. unfold distinctStrings, statement. rewrite no_fault, where_clauses. cbn [fst snd].
  pose proof (sql_distinct_texts col (clauses toLower p) t (clauses_wf toLower p) Hcol) as Hd.
  cbv zeta in Hd. revert Hd. generalize (sql_query (distinct_strings_sql col (where_text (clauses toLower p)))
                          (where_args (clauses toLower p)) t). intros answer [Hnd Hel].
  eexists. split; [reflexivity|].
  assert (forall (q : list string), q = answer -> List.filter (fun v => negb (String.eqb v "")) q = answer) as ->.
  { intros q Eq. rewrite Eq. assert (Forall (fun v => v <> "") answer) as Hne.
    { apply Forall_forall. intros v Hv. by apply Hel in Hv as [? _]. }
    clear -Hne. induction Hne as [|v a Hv Ha IH]; [done|]. cbn. destruct (String.eqb_spec v ""); [done|].
    cbn. by rewrite IH. }
  - split; [done|]. intros v. rewrite Hel. setoid_rewrite (listed_rows p t l Ht Hq). done.
  - done.
Qed.

(** The filter options are exactly the accounts, outcomes, models and
    response modes of the records the same filter lists: the two places that
    write the filter, one for the session and one as SQL text, agree. *)
Theorem options_match_list p t l :
  keyed t -> int64_accounts t ->
  Query toLower fault (p <| Limit := 0 |> <| BeforeID := None |>) t = Ok l ->
  exists o, FilterOptions toLower fault p t = Ok o
    /\ StronglySorted Z.lt (opt_AccountIDs o)
    /\ (forall id, id ∈ opt_AccountIDs o <-> exists r, r ∈ l /\ rr_AccountID (row_Rec r) = Some id)
    /\ NoDup (opt_Outcomes o)
    /\ (forall v, v ∈ opt_Outcomes o <-> v <> "" /\ exists r, r ∈ l /\ rr_Outcome (row_Rec r) = v)
    /\ NoDup (opt_Models o)
    /\ (forall v, v ∈ opt_Models o <-> v <> "" /\ exists r, r ∈ l /\ rr_Model (row_Rec r) = Some v)
    /\ NoDup (opt_ResponseModes o)
    /\ (forall v, v ∈ opt_ResponseModes o <-> v <> "" /\ exists r, r ∈ l /\ rr_ResponseMode (row_Rec r) = v).
Proof.
  intros Ht Hids Hq. pose proof (listed_rows p t l Ht Hq) as Hl.
  destruct (distinct_texts_ok 1 "query request outcome options" "outcome" p t l Ht Hq ltac:(set_solver))
    as (os & Eo & No & Ho).
  destruct (distinct_texts_ok 2 "query request model options" "model" p t l Ht Hq ltac:(set_solver))
    as (ms & Em & Nm & Hm).
  destruct (distinct_texts_ok 3 "query request response mode options" "response_mode" p t l Ht Hq ltac:(set_solver))
    as (rs & Er & Nr & Hr).
  destruct (sql_distinct_ids (clauses toLower p) t (clauses_wf toLower p)) as (ids & Ei & Hs & Hi).
  assert (Forall int64_ok ids) as H64.
  { apply Forall_forall. intros id (r & Hr' & Eid)%Hi. apply elem_selected in Hr' as [Hk _]; [|done].
    by eapply Hids. }
  exists (mkRequestFilterOptions ids os ms rs). split.
  - unfold FilterOptions. rewrite Eo, Em, Er. unfold distinctInt64. rewrite no_fault, where_clauses. cbn [fst snd].
    rewrite Ei, parse_ids_Itoa by done. done.
  - cbn [opt_AccountIDs opt_Outcomes opt_Models opt_ResponseModes]. repeat (split; [done|]).
    setoid_rewrite Hl in Hi. setoid_rewrite Hm. split; [apply Hi|]. split; [done|]. split.
    + intros v. rewrite Ho. cbn. naive_solver.
    + split; [done|]. split; [done|]. split; [done|]. intros v. rewrite Hr. cbn. naive_solver.
Qed.

End options.
