(* ===== verification/Recorder.v ===== *)
(** * Recorder: writing request records in the background
      (internal/core/request_recorder.go)

    The recorder is a pool of threads - calls of [Record] and of [Close], and
    the worker that [Start] launches - over a shared state, one atomic action
    at a time: taking and releasing the lock, the channel operations, an
    insert.  Sending on a closed channel and closing it twice panic, so they
    are steps to a panicked state, which the theorems exclude.  An insert
    attempt ends (the code bounds it by a timeout); whether it succeeded only
    decides whether an error is logged. *)

From S2P Require Import Prelude GoLib Errors Records.

Module recorder.

Definition recorderBufferSize : nat := 1024.

Section recorder.
(** The type of a request record. *)
Context {Rec : Type}.

(** ** The threads *)

(** A call of [Record], by what it is about to do. *)
Inductive record_pc :=
  | RLock
  | RCheck
  | RSend
  | RUnlockClosed
  | RUnlockSent
  | RUnlockFull
  | RInsert
  | RDropped
  | RQueued
  | RInserted.

Record caller := mkCaller { c_rec : Rec; c_pc : record_pc }.

(** A call of [Close]. *)
Inductive close_pc := KOnce | KLock | KSetClosed | KCloseChan | KUnlock | KWait | KReturned | KTimedOut.

Inductive worker_pc := WNotStarted | WReceive | WInsert (r : Rec) | WExited.

(** [closeOnce]: not called, running, done. *)
Inductive once := ONew | ORunning | ODone.

Record state := mkState {
  chan : list Rec; chan_closed : bool;
  closed : bool; closeOnce : once;
  readers : nat; writer : bool;
  callers : list caller; closers : list close_pc; worker : worker_pc;
  (* the insert attempts, in order *)
  by_worker : list Rec; by_callers : list Rec;
  panicked : bool }.
#[export] Instance state_eta : Eta state := fun s =>
  mkState (chan s) (chan_closed s) (closed s) (closeOnce s) (readers s) (writer s) (callers s) (closers s)
    (worker s) (by_worker s) (by_callers s) (panicked s).

(** [NewRequestRecorder] and [Start]. *)
Definition NewRequestRecorder : state :=
  mkState [] false false ONew 0 false [] [] WNotStarted [] [] false.
Definition Start (s : state) : state := s <| worker := WReceive |>.

(** ** One action of each kind of thread *)

Definition go (i : nat) (c : caller) (pc : record_pc) (s : state) : state :=
  s <| callers := <[i := mkCaller (c_rec c) pc]> (callers s) |>.

(** The lock is free for a reader when no writer holds it. *)
Definition record_step (i : nat) (c : caller) (s : state) : option state :=
  match c_pc c with
  | RLock => if writer s then None else Some (go i c RCheck (s <| readers := S (readers s) |>))
  | RCheck => Some (go i c (if closed s then RUnlockClosed else RSend) s)
  | RSend =>
      if chan_closed s then Some (s <| panicked := true |>)
      else if bool_decide (List.length (chan s) < recorderBufferSize)%nat
      then Some (go i c RUnlockSent (s <| chan := chan s ++ [c_rec c] |>))
      else Some (go i c RUnlockFull s)
  | RUnlockClosed => Some (go i c RDropped (s <| readers := pred (readers s) |>))
  | RUnlockSent => Some (go i c RQueued (s <| readers := pred (readers s) |>))
  | RUnlockFull => Some (go i c RInsert (s <| readers := pred (readers s) |>))
  | RInsert => Some (go i c RInserted (s <| by_callers := by_callers s ++ [c_rec c] |>))
  | RDropped | RQueued | RInserted => None
  end.

Definition go_close (i : nat) (pc : close_pc) (s : state) : state := s <| closers := <[i := pc]> (closers s) |>.

(** [wg.Wait()] returns when no started worker is running. *)
Definition wg_done (s : state) : bool :=
  match worker s with WNotStarted | WExited => true | _ => false end.

(** [timeout]: the context of the call has ended.  A select with both cases
    ready takes either. *)
Definition close_step (i : nat) (pc : close_pc) (timeout : bool) (s : state) : option state :=
  match pc with
  | KOnce =>
      match closeOnce s with
      | ONew => Some (go_close i KLock (s <| closeOnce := ORunning |>))
      | ORunning => None
      | ODone => Some (go_close i KWait s)
      end
  | KLock =>
      if writer s || negb (Nat.eqb (readers s) 0) then None
      else Some (go_close i KSetClosed (s <| writer := true |>))
  | KSetClosed => Some (go_close i KCloseChan (s <| closed := true |>))
  | KCloseChan =>
      if chan_closed s then Some (s <| panicked := true |>)
      else Some (go_close i KUnlock (s <| chan_closed := true |>))
  | KUnlock => Some (go_close i KWait (s <| writer := false |> <| closeOnce := ODone |>))
  | KWait =>
      if timeout then Some (go_close i KTimedOut s)
      else if wg_done s then Some (go_close i KReturned s) else None
  | KReturned | KTimedOut => None
  end.

Definition worker_step (s : state) : option state :=
  match worker s with
  | WReceive =>
      match chan s with
      | r :: rest => Some (s <| chan := rest |> <| worker := WInsert r |>)
      | [] => if chan_closed s then Some (s <| worker := WExited |>) else None
      end
  | WInsert r => Some (s <| by_worker := by_worker s ++ [r] |> <| worker := WReceive |>)
  | WNotStarted | WExited => None
  end.

(** ** Runs *)

Inductive step : state -> state -> Prop :=
  | step_call s r : panicked s = false ->
      step s (s <| callers := callers s ++ [mkCaller r RLock] |>)
  | step_close_call s : panicked s = false ->
      step s (s <| closers := closers s ++ [KOnce] |>)
  | step_record s i c s' : panicked s = false ->
      callers s !! i = Some c -> record_step i c s = Some s' -> step s s'
  | step_close s i pc timeout s' : panicked s = false ->
      closers s !! i = Some pc -> close_step i pc timeout s = Some s' -> step s s'
  | step_worker s s' : panicked s = false -> worker_step s = Some s' -> step s s'.

(** The application starts the recorder before anything else uses it. *)
Definition reachable : state -> Prop := rtc step (Start NewRequestRecorder).

(** ** Accounting *)

(** The calls whose record went into the channel, and those that inserted it
    themselves. *)
Definition queued (c : caller) : option Rec :=
  match c_pc c with RUnlockSent | RQueued => Some (c_rec c) | _ => None end.
Definition self_inserted (c : caller) : option Rec :=
  match c_pc c with RInserted => Some (c_rec c) | _ => None end.
Definition in_hand (s : state) : list Rec := match worker s with WInsert r => [r] | _ => [] end.

Definition holds_rlock (c : caller) : bool :=
  match c_pc c with RCheck | RSend | RUnlockClosed | RUnlockSent | RUnlockFull => true | _ => false end.
Definition holds_lock (pc : close_pc) : bool :=
  match pc with KSetClosed | KCloseChan | KUnlock => true | _ => false end.
Definition in_once (pc : close_pc) : bool :=
  match pc with KLock | KSetClosed | KCloseChan | KUnlock => true | _ => false end.
Definition tally {A} (f : A -> bool) (l : list A) : nat := List.length (List.filter f l).

Definition caller_ok (s : state) (c : caller) : Prop :=
  match c_pc c with
  | RSend => closed s = false /\ chan_closed s = false
  | RUnlockClosed | RDropped => closed s = true
  | _ => True
  end.
Definition closer_ok (s : state) (pc : close_pc) : Prop :=
  match pc with
  | KOnce => True
  | KLock | KSetClosed => closed s = false /\ chan_closed s = false
  | KCloseChan => closed s = true /\ chan_closed s = false
  | KUnlock => closed s = true /\ chan_closed s = true
  | KWait | KTimedOut => closeOnce s = ODone
  | KReturned => closeOnce s = ODone /\ worker s = WExited
  end.

Record inv (s : state) : Prop := mkInv {
  inv_panic : panicked s = false;
  inv_readers : readers s = tally holds_rlock (callers s);
  inv_writer : tally holds_lock (closers s) = (if writer s then 1 else 0)%nat;
  inv_excl : writer s = true -> readers s = 0%nat;
  inv_once : tally in_once (closers s) = (match closeOnce s with ORunning => 1 | _ => 0 end)%nat;
  inv_new : closeOnce s = ONew -> closed s = false /\ chan_closed s = false;
  inv_done : closeOnce s = ODone -> closed s = true /\ chan_closed s = true;
  inv_closers : Forall (closer_ok s) (closers s);
  inv_callers : Forall (caller_ok s) (callers s);
  inv_flags : chan_closed s = true -> closed s = true;
  inv_bound : (List.length (chan s) <= recorderBufferSize)%nat;
  inv_queue : omap queued (callers s) ≡ₚ by_worker s ++ in_hand s ++ chan s;
  inv_self : omap self_inserted (callers s) ≡ₚ by_callers s;
  inv_started : worker s <> WNotStarted;
  inv_exit : worker s = WExited -> chan s = [] /\ chan_closed s = true;
}.

(** ** Counting threads *)

Lemma tally_cons {A} (f : A -> bool) x l : tally f (x :: l) = ((if f x then 1 else 0) + tally f l)%nat.
Proof. unfold tally. cbn. by destruct (f x). Qed.

Lemma tally_insert {A} (f : A -> bool) l i x y : l !! i = Some x ->
  (tally f (<[i := y]> l) + (if f x then 1 else 0) = tally f l + (if f y then 1 else 0))%nat.
Proof.
  revert i. induction l as [|z l IH]; intros [|i] Hi; try done; cbn [insert list_insert]; rewrite !tally_cons.
  - injection Hi as ->. lia.
  - specialize (IH i Hi). set (q := <[i:=y]> l) in *. change (list_insert i y l) with q. lia.
Qed.

Lemma tally_app {A} (f : A -> bool) l k : tally f (l ++ k) = (tally f l + tally f k)%nat.
Proof. unfold tally. by rewrite List.filter_app, length_app. Qed.

Lemma tally_zero {A} (f : A -> bool) l : tally f l = 0%nat -> Forall (fun x => f x = false) l.
Proof.
  unfold tally. induction l as [|x l IH]; [done|]. cbn. destruct (f x) eqn:E; [done|]. constructor; auto.
Qed.

Lemma tally_others {A} (f : A -> bool) l i x y : l !! i = Some x -> tally f l = 1%nat -> f x = true ->
  f y = false -> Forall (fun z => f z = false) (<[i := y]> l).
Proof. intros Hi H1 Hx Hy. apply tally_zero. pose proof (tally_insert f l i x y Hi). rewrite Hx, Hy in *. lia. Qed.

Lemma omap_insert {A B} (f : A -> option B) l i x y : l !! i = Some x ->
  option_list (f x) ++ omap f (<[i := y]> l) ≡ₚ option_list (f y) ++ omap f l.
Proof.
  revert i. induction l as [|z l IH]; intros [|i] Hi; try done; cbn in *.
  - injection Hi as ->. destruct (f x), (f y); cbn; try done. apply Permutation_swap.
  - specialize (IH i Hi). destruct (f z); cbn; [|done].
    rewrite <- !Permutation_middle. by rewrite IH.
Qed.

Lemma Forall_set {A} (P Q : A -> Prop) l i y : Forall P l -> (forall z, P z -> Q z) -> Q y -> Forall Q (<[i := y]> l).
Proof. intros Hl HP Hy. apply Forall_insert; [by eapply Forall_impl|done]. Qed.

(** ** The invariant is preserved *)

#[local] Opaque recorderBufferSize.

Ltac fields := cbn [go go_close set chan chan_closed closed closeOnce readers writer callers closers worker
                    by_worker by_callers panicked].

Lemma caller_move s i c pc rd ch bc :
  let c' := mkCaller (c_rec c) pc in
  inv s -> callers s !! i = Some c ->
  (rd + (if holds_rlock c then 1 else 0) = readers s + (if holds_rlock c' then 1 else 0))%nat ->
  (writer s = true -> rd = 0%nat) -> caller_ok s c' -> (List.length ch <= recorderBufferSize)%nat ->
  option_list (queued c') ++ chan s ≡ₚ option_list (queued c) ++ ch ->
  option_list (self_inserted c') ++ by_callers s ≡ₚ option_list (self_inserted c) ++ bc ->
  (worker s = WExited -> ch = []) ->
  inv (go i c pc (s <| readers := rd |> <| chan := ch |> <| by_callers := bc |>)).
Proof.
  intros c' I Hi Hrd Hw Hok Hlen Hq Hs Hx. subst c'. destruct I. constructor; fields; try done.
  - pose proof (tally_insert holds_rlock (callers s) i c (mkCaller (c_rec c) pc) Hi). lia.
  - apply Forall_insert; [|done]. eapply Forall_impl; [exact inv_callers0|]. done.
  - apply (Permutation_app_inv_l (option_list (queued c))).
    pose proof (omap_insert queued (callers s) i c (mkCaller (c_rec c) pc) Hi) as E. rewrite E, inv_queue0.
    change (in_hand _) with (in_hand s).
    rewrite !(Permutation_app_swap_app (option_list _)). by rewrite Hq.
  - apply (Permutation_app_inv_l (option_list (self_inserted c))).
    pose proof (omap_insert self_inserted (callers s) i c (mkCaller (c_rec c) pc) Hi) as E. by rewrite E, inv_self0.
  - intros E. split; [by apply Hx|by apply inv_exit0].
Qed.

Ltac mv := unfold holds_rlock, queued, self_inserted in *; cbn [c_pc c_rec option_list app]; try first
  [ done | lia | congruence
  | match goal with H : worker ?s = WExited -> _ |- worker ?s = WExited -> _ => let E := fresh in intros E; destruct (H E); congruence
    | H : writer ?s = true -> _ |- writer ?s = true -> _ => let E := fresh in intros E; by rewrite (H E) end ].

Lemma record_step_inv s i c s' :
  inv s -> callers s !! i = Some c -> record_step i c s = Some s' -> inv s'.
Proof.
  intros I Hi. pose proof I as I0. destruct I0.
  assert (Hc : caller_ok s c) by (eapply Forall_lookup_1; done).
  assert (Hpos : holds_rlock c = true -> (readers s > 0)%nat).
  { intros E. rewrite inv_readers0. pose proof (tally_insert holds_rlock (callers s) i c (mkCaller (c_rec c) RDropped) Hi) as K.
    rewrite E in K. change (holds_rlock (mkCaller _ RDropped)) with false in K. cbv iota in K. lia. }
  destruct c as [r pc]. unfold record_step. cbn [c_pc c_rec].
  destruct pc; cbn [caller_ok c_pc] in Hc; try discriminate.
  - destruct (writer s) eqn:Ew; [discriminate|]. intros [= <-].
    apply (caller_move s i (mkCaller r RLock) RCheck (S (readers s)) (chan s) (by_callers s) I Hi); mv.
  - intros [= <-]. destruct (closed s) eqn:Ec.
    + apply (caller_move s i (mkCaller r RCheck) RUnlockClosed (readers s) (chan s) (by_callers s) I Hi); mv.
    + apply (caller_move s i (mkCaller r RCheck) RSend (readers s) (chan s) (by_callers s) I Hi); mv.
      split; [done|]. destruct (chan_closed s) eqn:Ecc; [|done]. discriminate (inv_flags0 eq_refl).
  - destruct Hc as [Hc1 Hc2]. rewrite Hc2. destruct (bool_decide_reflect (List.length (chan s) < recorderBufferSize)%nat) as [Hl|Hl]; intros [= <-].
    + apply (caller_move s i (mkCaller r RSend) RUnlockSent (readers s) (chan s ++ [r]) (by_callers s) I Hi); mv.
      * rewrite length_app. cbn. lia.
      * apply Permutation_cons_append.
    + apply (caller_move s i (mkCaller r RSend) RUnlockFull (readers s) (chan s) (by_callers s) I Hi); mv.
  - intros [= <-]. specialize (Hpos eq_refl).
    apply (caller_move s i (mkCaller r RUnlockClosed) RDropped (pred (readers s)) (chan s) (by_callers s) I Hi); mv.
  - intros [= <-]. specialize (Hpos eq_refl).
    apply (caller_move s i (mkCaller r RUnlockSent) RQueued (pred (readers s)) (chan s) (by_callers s) I Hi); mv.
  - intros [= <-]. specialize (Hpos eq_refl).
    apply (caller_move s i (mkCaller r RUnlockFull) RInsert (pred (readers s)) (chan s) (by_callers s) I Hi); mv.
  - intros [= <-].
    apply (caller_move s i (mkCaller r RInsert) RInserted (readers s) (chan s) (by_callers s ++ [r]) I Hi); mv.
    apply Permutation_cons_append.
Qed.

Lemma in_once_others s i pc y : inv s -> closers s !! i = Some pc -> in_once pc = true -> in_once y = false ->
  closeOnce s = ORunning /\ Forall (fun z => in_once z = false) (<[i := y]> (closers s)).
Proof.
  intros I Hi Hpc Hy. pose proof (inv_once s I) as H1.
  pose proof (tally_insert in_once (closers s) i pc y Hi) as K. rewrite Hpc, Hy in K. cbv iota in K.
  destruct (closeOnce s); try lia. split; [done|]. apply tally_zero. lia.
Qed.

(** While one call of [Close] is inside [closeOnce], the others have not
    entered it. *)
Lemma closers_wait s s' i pc pc' :
  inv s -> closers s !! i = Some pc -> in_once pc = true -> closer_ok s' pc' ->
  Forall (closer_ok s') (<[i := pc']> (closers s)).
Proof.
  intros I Hi Hpc Hok. destruct (in_once_others s i pc KOnce I Hi Hpc eq_refl) as [Eo Hf].
  rewrite Forall_lookup in *. intros j z Hj. destruct (decide (i = j)) as [<-|Hne].
  - rewrite list_lookup_insert_eq in Hj by (by eapply lookup_lt_Some). by injection Hj as <-.
  - rewrite list_lookup_insert_ne in Hj by done.
    assert (in_once z = false) as Hz by (apply (Hf j); by rewrite list_lookup_insert_ne).
    pose proof (Forall_lookup_1 _ _ _ _ (inv_closers s I) Hj) as Hzok.
    destruct z; cbn in *; try done; [|destruct Hzok|]; congruence.
Qed.

Lemma callers_at_rest s : inv s -> readers s = 0%nat -> Forall (fun c => c_pc c <> RSend) (callers s).
Proof.
  intros I H0. rewrite (inv_readers s I) in H0. apply tally_zero in H0.
  eapply Forall_impl; [exact H0|]. intros c Hc E. unfold holds_rlock in Hc. by rewrite E in Hc.
Qed.

Lemma rest_ok s s' : inv s -> (closed s = true -> closed s' = true) ->
  Forall (fun c => c_pc c <> RSend) (callers s) -> Forall (caller_ok s') (callers s).
Proof.
  intros I Hcl Hf. pose proof (inv_callers s I) as Hc. rewrite Forall_lookup in *. intros i c Hi.
  specialize (Hf i c Hi). specialize (Hc i c Hi). unfold caller_ok in *. destruct (c_pc c); auto; done.
Qed.

(** The counters after one call of [Close] moves. *)
Lemma closer_counts s i pc pc' : inv s -> closers s !! i = Some pc ->
  (tally holds_lock (<[i := pc']> (closers s)) + (if holds_lock pc then 1 else 0)
   = (if writer s then 1 else 0) + (if holds_lock pc' then 1 else 0))%nat
  /\ (tally in_once (<[i := pc']> (closers s)) + (if in_once pc then 1 else 0)
      = (match closeOnce s with ORunning => 1 | _ => 0 end) + (if in_once pc' then 1 else 0))%nat.
Proof.
  intros I Hi. rewrite <- (inv_writer s I), <- (inv_once s I). split; by apply tally_insert.
Qed.

Lemma lock_held s i pc : inv s -> closers s !! i = Some pc -> holds_lock pc = true -> writer s = true.
Proof.
  intros I Hi Hpc. destruct (closer_counts s i pc KOnce I Hi) as [C _]. rewrite Hpc in C. cbn in C.
  destruct (writer s); [done|lia].
Qed.

Lemma close_step_inv s i pc timeout s' :
  inv s -> closers s !! i = Some pc -> close_step i pc timeout s = Some s' -> inv s'.
Proof.
  intros I Hi. pose proof (Forall_lookup_1 _ _ _ _ (inv_closers s I) Hi) as Hok.
  unfold close_step. destruct pc.
  - pose proof (closer_counts s i KOnce KLock I Hi) as [C1 C2]. pose proof (closer_counts s i KOnce KWait I Hi) as [D1 D2].
    destruct (closeOnce s) eqn:Eo; [|discriminate|]; intros [= <-]; cbv iota beta in *; cbn [holds_lock in_once] in *.
    + destruct I. constructor; fields; try done; try lia.
      apply Forall_insert; [|by apply inv_new0].
      eapply Forall_impl; [exact inv_closers0|]. intros z Hz. destruct z; try done; cbn in Hz; naive_solver congruence.
    + destruct I. constructor; fields; try done; try (rewrite Eo; lia); try lia; try congruence. by apply Forall_insert.
  - destruct (writer s) eqn:Ew; [discriminate|]. destruct (Nat.eqb_spec (readers s) 0) as [Hr|]; [|discriminate].
    intros [= <-]. pose proof (closer_counts s i KLock KSetClosed I Hi) as [C1 C2].
    cbn [holds_lock in_once] in *. rewrite Ew in C1. destruct I. constructor; fields; try done; try lia.
    apply Forall_insert; done.
  - intros [= <-]. pose proof (closer_counts s i KSetClosed KCloseChan I Hi) as [C1 C2].
    pose proof (lock_held s i _ I Hi eq_refl) as Ew.
    pose proof (closers_wait s (s <| closed := true |>) i _ KCloseChan I Hi eq_refl) as Hw.
    destruct (in_once_others s i _ KOnce I Hi eq_refl eq_refl) as [Eo _].
    pose proof (callers_at_rest s I (inv_excl s I Ew)) as Hrest.
    pose proof I as I0. cbn [holds_lock in_once] in *. destruct I. constructor; fields; try done; try lia; try congruence.
    + apply Hw. cbn. naive_solver.
    + by apply (rest_ok s); [exact I0| |].
  - destruct Hok as [Hc1 Hc2]. rewrite Hc2. intros [= <-].
    pose proof (closer_counts s i KCloseChan KUnlock I Hi) as [C1 C2].
    pose proof (lock_held s i _ I Hi eq_refl) as Ew.
    pose proof (closers_wait s (s <| chan_closed := true |>) i _ KUnlock I Hi eq_refl) as Hw.
    destruct (in_once_others s i _ KOnce I Hi eq_refl eq_refl) as [Eo _].
    pose proof (callers_at_rest s I (inv_excl s I Ew)) as Hrest.
    pose proof I as I0. cbn [holds_lock in_once] in *. destruct I. constructor; fields; try done; try lia; try congruence.
    + apply Hw. done.
    + by apply (rest_ok s); [exact I0| |].
    + intros E. split; [|done]. by apply inv_exit0.
  - intros [= <-]. pose proof (closer_counts s i KUnlock KWait I Hi) as [C1 C2].
    destruct (in_once_others s i _ KOnce I Hi eq_refl eq_refl) as [Eo _].
    pose proof (closers_wait s (s <| writer := false |> <| closeOnce := ODone |>) i _ KWait I Hi eq_refl) as Hw.
    cbn [holds_lock in_once] in *. rewrite Eo in C2. destruct I.
    constructor; fields; try done; try lia; try congruence.
    + destruct (writer s); lia.
    + by apply Hw.
  - pose proof (closer_counts s i KWait KTimedOut I Hi) as [C1 C2].
    pose proof (closer_counts s i KWait KReturned I Hi) as [D1 D2]. cbn [holds_lock in_once] in *.
    destruct timeout; [|unfold wg_done; destruct (worker s) eqn:Ewk; try discriminate]; intros [= <-].
    + destruct I. constructor; fields; try done; try lia. by apply Forall_insert.
    + by destruct (inv_started s I).
    + destruct I. constructor; fields; try done; try lia; try congruence. apply Forall_insert; done.
  - discriminate.
  - discriminate.
Qed.

Lemma worker_step_inv s s' : inv s -> worker_step s = Some s' -> inv s'.
Proof.
  intros I. unfold worker_step. destruct (worker s) eqn:Ew; try discriminate.
  - destruct (chan s) as [|r rest] eqn:Ec.
    + destruct (chan_closed s) eqn:Ecc; [|discriminate]. intros [= <-]. destruct I.
      constructor; fields; try done; unfold in_hand in *; fields; rewrite ?Ew, ?Ec in *; try done.
      eapply Forall_impl; [exact inv_closers0|]. intros [] Hz; try done. by destruct Hz.
    + intros [= <-]. destruct I. constructor; fields; try done; unfold in_hand in *; fields; rewrite ?Ew, ?Ec in *; try done.
      * eapply Forall_impl; [exact inv_closers0|]. intros [] Hz; try done. destruct Hz; congruence.
      * cbn in inv_bound0. lia.
  - intros [= <-]. destruct I. constructor; fields; try done; unfold in_hand in *; fields; rewrite ?Ew in *; try done.
    + eapply Forall_impl; [exact inv_closers0|]. intros [] Hz; try done. destruct Hz; congruence.
    + by rewrite <- app_assoc.
Qed.

Lemma recorder_step_inv s s' : step s s' -> inv s -> inv s'.
Proof.
  intros [s0 r Hp|s0 Hp|s0 i c s1 Hp Hi Hs|s0 i pc tm s1 Hp Hi Hs|s0 s1 Hp Hs] I.
  - destruct I. constructor; fields; try done.
    + rewrite tally_app. unfold tally at 2. cbn. lia.
    + apply Forall_app. split; [done|]. by constructor.
    + rewrite omap_app. cbn. by rewrite app_nil_r.
    + rewrite omap_app. cbn. by rewrite app_nil_r.
  - destruct I. constructor; fields; try done.
    + rewrite tally_app. unfold tally at 2. cbn. lia.
    + rewrite tally_app. unfold tally at 2. cbn. lia.
    + apply Forall_app. split; [done|]. by constructor.
  - by eapply record_step_inv.
  - by eapply close_step_inv.
  - by eapply worker_step_inv.
Qed.

Lemma recorder_inv s : reachable s -> inv s.
Proof.
  intros Hr. eapply (rtc_invariant step inv); [apply recorder_step_inv|exact Hr|].
  constructor; cbn; try done. lia.
Qed.

(** ** What the recorder promises *)

(** C4: However calls of [Record] and [Close] and the worker interleave, there
    is no send on a closed channel, no second close and no more than 1024
    queued records; the records accepted for the queue are exactly those the
    worker has attempted, holds or has still to read, each once, and a call
    that found the queue full attempts its own once; a record is dropped only
    after [Close] began; and when [Close] returns nil every queued record has
    been attempted. *)
Theorem recorder_accounts s : reachable s ->
  panicked s = false
  /\ (List.length (chan s) <= recorderBufferSize)%nat
  /\ omap queued (callers s) ≡ₚ by_worker s ++ in_hand s ++ chan s
  /\ omap self_inserted (callers s) ≡ₚ by_callers s
  /\ (forall c, c ∈ callers s -> c_pc c = RDropped -> closed s = true)
  /\ (KReturned ∈ closers s -> omap queued (callers s) ≡ₚ by_worker s /\ worker s = WExited).
Proof.
  intros Hr. pose proof (recorder_inv s Hr) as I. destruct I.
  repeat (split; [done|]). split.
  - intros c Hc Hpc. pose proof (proj1 (Forall_forall _ _) inv_callers0 c Hc) as Hok.
    unfold caller_ok in Hok. by rewrite Hpc in Hok.
  - intros Hk. destruct (proj1 (Forall_forall _ _) inv_closers0 _ Hk) as [_ Hw]. split; [|done].
    destruct (inv_exit0 Hw) as [Hc _]. rewrite inv_queue0. unfold in_hand. rewrite Hw, Hc. cbn. by rewrite app_nil_r.
Qed.

(** The records leave the queue in the order in which they entered it. *)
Definition pipeline (s : state) : list Rec := by_worker s ++ in_hand s ++ chan s.

Lemma step_fifo s s' : step s s' -> pipeline s' = pipeline s \/ exists r, pipeline s' = pipeline s ++ [r].
Proof.
  intros [s0 r Hp|s0 Hp|s0 i c s1 Hp Hi Hs|s0 i pc tm s1 Hp Hi Hs|s0 s1 Hp Hs]; [by left|by left|..].
  - revert Hs. unfold record_step. destruct (c_pc c); repeat case_match; intros [= <-]; try by left.
    right. exists (c_rec c). unfold pipeline. fields. change (in_hand _) with (in_hand s0). by rewrite !app_assoc.
  - left. revert Hs. unfold close_step. destruct pc; repeat case_match; by intros [= <-].
  - left. revert Hs. unfold worker_step, pipeline, in_hand. destruct (worker s0); try done.
    + destruct (chan s0) eqn:Ec; [case_match|]; intros [= <-]; fields; by rewrite ?Ec.
    + intros [= <-]. fields. by rewrite <- app_assoc.
Qed.

(** ** Draining *)

(** The steps the worker still has to make once the channel is closed. *)
Definition remaining (s : state) : nat :=
  2 * List.length (chan s) + match worker s with WInsert _ => 2 | WReceive => 1 | _ => 0 end.

Lemma worker_remaining s s' : worker_step s = Some s' -> remaining s = S (remaining s').
Proof.
  unfold worker_step, remaining. destruct (worker s) eqn:Ew; try done.
  - destruct (chan s) eqn:Ec; [case_match|]; intros [= <-]; fields; rewrite ?Ec; cbn; lia.
  - intros [= <-]. fields. lia.
Qed.

Lemma worker_runs s : inv s -> chan_closed s = true -> worker s <> WExited -> exists s', worker_step s = Some s'.
Proof.
  intros I Hc Hw. pose proof (inv_started s I). unfold worker_step. rewrite Hc.
  destruct (worker s); eauto; try done. destruct (chan s); eauto.
Qed.

(** What the steps of the other threads leave alone. *)
Definition same_closing (s s' : state) : Prop :=
  closers s' = closers s /\ closeOnce s' = closeOnce s /\ closed s' = closed s
  /\ chan_closed s' = chan_closed s /\ writer s' = writer s.

Lemma worker_drains n : forall s, inv s -> chan_closed s = true -> (remaining s <= n)%nat ->
  exists s', rtc step s s' /\ inv s' /\ worker s' = WExited /\ by_worker s' = pipeline s /\ same_closing s s'.
Proof.
  induction n as [|n IH]; intros s I Hc Hn.
  - exists s. unfold remaining in Hn. pose proof (inv_started s I).
    destruct (worker s) eqn:Ew; try (exfalso; lia); try done.
    split; [apply rtc_refl|]. split; [done|]. split; [done|]. split; [|done].
    unfold pipeline, in_hand. rewrite Ew. destruct (chan s); [|cbn in Hn; lia]. cbn. by rewrite app_nil_r.
  - assert (worker s = WExited \/ worker s <> WExited) as [Ew|Hw] by (destruct (worker s); auto).
    + exists s. split; [apply rtc_refl|]. split; [done|]. split; [done|]. split; [|done].
      destruct (inv_exit s I Ew) as [Ec _]. unfold pipeline, in_hand. rewrite Ew, Ec. cbn. by rewrite app_nil_r.
    + destruct (worker_runs s I Hc Hw) as [s1 H1].
      assert (pipeline s1 = pipeline s /\ same_closing s s1) as [Hp Hsame].
      { clear -H1. revert H1. unfold worker_step, pipeline, in_hand, same_closing. destruct (worker s); try done.
        - destruct (chan s) eqn:Ec; [case_match; [|done]|]; intros [= <-]; fields; by rewrite ?Ec.
        - intros [= <-]. fields. by rewrite <- app_assoc. }
      assert (step s s1) as Hst by (apply step_worker; [apply I|done]).
      destruct (IH s1) as (s' & Hr & I' & Hw' & Hb & Hs).
      { by eapply recorder_step_inv. } { destruct Hsame as (_ & _ & _ & E & _). by rewrite E. }
      { apply worker_remaining in H1. lia. }
      exists s'. split; [by eapply rtc_l|]. split; [done|]. split; [done|]. split; [congruence|].
      unfold same_closing in *. intuition congruence.
Qed.

(** The critical section of [Record] is three actions long. *)
Definition weight (c : caller) : nat :=
  match c_pc c with RCheck => 3 | RSend => 2 | RUnlockClosed | RUnlockSent | RUnlockFull => 1 | _ => 0 end.
Definition pending (s : state) : nat := sum_list_with weight (callers s).

Lemma sum_insert {A} (w : A -> nat) l i x y : l !! i = Some x ->
  (sum_list_with w (<[i := y]> l) + w x = sum_list_with w l + w y)%nat.
Proof.
  revert i. induction l as [|z l IH]; intros [|i] Hi; try done; cbn.
  - injection Hi as ->. lia.
  - specialize (IH i Hi). set (q := <[i:=y]> l) in *. change (list_insert i y l) with q. lia.
Qed.

Lemma caller_advances s i c : inv s -> callers s !! i = Some c -> holds_rlock c = true ->
  exists s', record_step i c s = Some s' /\ (pending s' < pending s)%nat /\ same_closing s s'.
Proof.
  intros I Hi Hh.
  assert (Hlt : forall pc s0, callers s0 = callers s -> (weight (mkCaller (c_rec c) pc) < weight c)%nat ->
            (pending (go i c pc s0) < pending s)%nat).
  { intros pc s0 E Hw. unfold pending. cbn [go set callers]. rewrite E.
    pose proof (sum_insert weight (callers s) i c (mkCaller (c_rec c) pc) Hi). lia. }
  pose proof (Forall_lookup_1 _ _ _ _ (inv_callers s I) Hi) as Hok. unfold caller_ok in Hok.
  unfold record_step, holds_rlock in *.
  destruct (c_pc c) eqn:Ep; try discriminate.
  - eexists. split; [reflexivity|]. split; [|done]. apply Hlt; [done|]. unfold weight. rewrite Ep. by destruct (closed s); cbn; lia.
  - destruct Hok as [_ ->]. destruct (bool_decide _); (eexists; split; [reflexivity|]; split; [|done]);
      (apply Hlt; [done|]; unfold weight; rewrite Ep; cbn; lia).
  - eexists. split; [reflexivity|]. split; [|done]. apply Hlt; [done|]. unfold weight. rewrite Ep. cbn; lia.
  - eexists. split; [reflexivity|]. split; [|done]. apply Hlt; [done|]. unfold weight. rewrite Ep. cbn; lia.
  - eexists. split; [reflexivity|]. split; [|done]. apply Hlt; [done|]. unfold weight. rewrite Ep. cbn; lia.
Qed.

Lemma readers_drain n : forall s, inv s -> (pending s <= n)%nat ->
  exists s', rtc step s s' /\ inv s' /\ readers s' = 0%nat /\ same_closing s s'.
Proof.
  induction n as [|n IH]; intros s I Hn.
  all: destruct (decide (readers s = 0%nat)) as [E|E]; [exists s; split; [apply rtc_refl|]; done|].
  all: assert (exists i c, callers s !! i = Some c /\ holds_rlock c = true) as (i & c & Hi & Hc).
  1, 3: rewrite (inv_readers s I) in E; unfold tally in E;
        destruct (List.filter holds_rlock (callers s)) as [|c l] eqn:Ef; [done|];
        assert (In c (List.filter holds_rlock (callers s))) as Hin by (rewrite Ef; left; done);
        apply filter_In in Hin as [Hin%list_elem_of_In Hh]; apply list_elem_of_lookup in Hin as [i Hi]; eauto.
  all: destruct (caller_advances s i c I Hi Hc) as (s1 & H1 & Hlt & Hs1).
  { lia. }
  assert (step s s1) as Hst by (eapply step_record; [apply I|done..]).
  destruct (IH s1) as (s' & Hr & I' & H0 & Hs); [by eapply recorder_step_inv|lia|].
  exists s'. split; [by eapply rtc_l|]. split; [done|]. split; [done|]. unfold same_closing in *. intuition congruence.
Qed.

(** ** [Close] can always finish *)

Lemma closer_goes s i pc pc' s' : inv s -> closers s !! i = Some pc -> close_step i pc false s = Some s' ->
  closers s' = <[i := pc']> (closers s) -> rtc step s s' /\ inv s' /\ closers s' !! i = Some pc'.
Proof.
  intros I Hi Hs E. split; [|split].
  - apply rtc_once. eapply step_close; [apply I|done..].
  - by eapply close_step_inv.
  - rewrite E. apply list_lookup_insert_eq. by eapply lookup_lt_Some.
Qed.

(** The call that runs [closeOnce] gets through it. *)
Lemma once_finishes s i pc : inv s -> closers s !! i = Some pc -> in_once pc = true ->
  exists s', rtc step s s' /\ inv s' /\ closeOnce s' = ODone /\ closers s' = <[i := KWait]> (closers s).
Proof.
  assert (Hunlock : forall s, inv s -> closers s !! i = Some KUnlock ->
            exists s', rtc step s s' /\ inv s' /\ closeOnce s' = ODone /\ closers s' = <[i := KWait]> (closers s)).
  { intros s0 I Hi. edestruct (closer_goes s0 i KUnlock KWait) as (Hr & I' & _); [done..| |]; [reflexivity..|].
    eexists. split; [exact Hr|]. done. }
  assert (Hchan : forall s, inv s -> closers s !! i = Some KCloseChan ->
            exists s', rtc step s s' /\ inv s' /\ closeOnce s' = ODone /\ closers s' = <[i := KWait]> (closers s)).
  { intros s0 I Hi. pose proof (Forall_lookup_1 _ _ _ _ (inv_closers s0 I) Hi) as [_ Hc].
    edestruct (closer_goes s0 i KCloseChan KUnlock) as (Hr & I' & Hi'); [done..| | |].
    { cbn [close_step]. rewrite Hc. reflexivity. } { reflexivity. }
    destruct (Hunlock _ I' Hi') as (s' & Hr' & I'' & Ho & Hk). exists s'. split; [by etrans|]. split; [done|].
    split; [done|]. rewrite Hk. cbn [go_close set closers]. by rewrite list_insert_insert_eq. }
  assert (Hset : forall s, inv s -> closers s !! i = Some KSetClosed ->
            exists s', rtc step s s' /\ inv s' /\ closeOnce s' = ODone /\ closers s' = <[i := KWait]> (closers s)).
  { intros s0 I Hi.
    edestruct (closer_goes s0 i KSetClosed KCloseChan) as (Hr & I' & Hi'); [done..| | |]; [reflexivity..|].
    destruct (Hchan _ I' Hi') as (s' & Hr' & I'' & Ho & Hk). exists s'. split; [by etrans|]. split; [done|].
    split; [done|]. rewrite Hk. cbn [go_close set closers]. by rewrite list_insert_insert_eq. }
  intros I Hi Hpc. destruct pc; try discriminate; auto.
  destruct (readers_drain _ s I (le_n _)) as (s1 & Hr1 & I1 & H0 & Ecl & Eo & Ec & Ecc & Ew).
  assert (closers s1 !! i = Some KLock) as Hi1 by (by rewrite Ecl).
  assert (writer s1 = false) as Hw1.
  { destruct (closer_counts s1 i KLock KOnce I1 Hi1) as [C D]. pose proof (inv_writer s1 I1) as W.
    destruct (writer s1) eqn:Ewr; [|done]. exfalso.
    pose proof (in_once_others s1 i KLock KOnce I1 Hi1 eq_refl eq_refl) as [_ Hf].
    assert (Forall (fun z => holds_lock z = false) (<[i := KOnce]> (closers s1))) as Hf'.
    { eapply Forall_impl; [exact Hf|]. by intros []. }
    assert (tally holds_lock (<[i := KOnce]> (closers s1)) = 0%nat) as Z.
    { unfold tally. clear -Hf'. induction Hf' as [|x l Hx Hl IH]; [done|]. cbn. by rewrite Hx. }
    cbn in C. lia. }
  edestruct (closer_goes s1 i KLock KSetClosed) as (Hr2 & I2 & Hi2); [done..| | |].
  { cbn [close_step]. rewrite Hw1, H0. reflexivity. } { reflexivity. }
  destruct (Hset _ I2 Hi2) as (s' & Hr' & I'' & Ho & Hk). exists s'. split; [by etrans; [|etrans]|]. split; [done|].
  split; [done|]. rewrite Hk. cbn [go_close set closers]. by rewrite list_insert_insert_eq, Ecl.
Qed.

Lemma pipeline_grows s s' : rtc step s s' -> exists later, pipeline s' = pipeline s ++ later.
Proof.
  induction 1 as [s|s s1 s' H1 _ [later IH]]; [exists []; by rewrite app_nil_r|].
  destruct (step_fifo s s1 H1) as [E|[r E]]; rewrite IH, E; [by exists later|].
  exists (r :: later). by rewrite <- app_assoc.
Qed.

Lemma reaches_wait s i pc : inv s -> closers s !! i = Some pc -> pc <> KTimedOut -> pc <> KReturned ->
  exists s', rtc step s s' /\ inv s' /\ closers s' !! i = Some KWait.
Proof.
  intros I Hi Ht Hret. pose proof (lookup_lt_Some _ _ _ Hi) as Hlen.
  assert (Hthrough : forall s pc, inv s -> closers s !! i = Some pc -> in_once pc = true ->
            exists s', rtc step s s' /\ inv s' /\ closers s' !! i = Some KWait).
  { intros s0 pc0 I0 Hi0 Hpc0. destruct (once_finishes s0 i pc0 I0 Hi0 Hpc0) as (s' & Hr & I' & _ & Hk).
    exists s'. split; [done|]. split; [done|]. rewrite Hk. apply list_lookup_insert_eq. by eapply lookup_lt_Some. }
  destruct (in_once pc) eqn:Ein; [by eapply Hthrough|]. destruct pc; try done; [|by exists s].
  destruct (closeOnce s) eqn:Eo.
  - edestruct (closer_goes s i KOnce KLock) as (Hr & I1 & Hi1); [done..| | |].
    { cbn [close_step]. rewrite Eo. reflexivity. } { reflexivity. }
    destruct (Hthrough _ _ I1 Hi1 eq_refl) as (s' & Hr' & I' & Hi'). exists s'. split; [by etrans|done].
  - assert (exists j pcj, closers s !! j = Some pcj /\ in_once pcj = true) as (j & pcj & Hj & Hpcj).
    { pose proof (inv_once s I) as H1. rewrite Eo in H1. unfold tally in H1.
      destruct (List.filter in_once (closers s)) as [|p l] eqn:Ef; [done|].
      assert (In p (List.filter in_once (closers s))) as Hin by (rewrite Ef; by left).
      apply filter_In in Hin as [Hin%list_elem_of_In Hp]. apply list_elem_of_lookup in Hin as [j Hj]. eauto. }
    destruct (once_finishes s j pcj I Hj Hpcj) as (s1 & Hr1 & I1 & Ho1 & Hk1).
    assert (closers s1 !! i = Some KOnce) as Hi1.
    { rewrite Hk1, list_lookup_insert_ne; [done|]. intros ->. congruence. }
    edestruct (closer_goes s1 i KOnce KWait) as (Hr & I2 & Hi2); [done..| | |].
    { cbn [close_step]. rewrite Ho1. reflexivity. } { reflexivity. }
    eexists. split; [by etrans|]. by split.
  - edestruct (closer_goes s i KOnce KWait) as (Hr & I1 & Hi1); [done..| | |].
    { cbn [close_step]. rewrite Eo. reflexivity. } { reflexivity. }
    eexists. split; [exact Hr|]. by split.
Qed.

(** C20: [Close] cannot be blocked for good: from every reachable state a call
    of [Close] that has not ended can be run to its normal return, and then
    every record queued so far has been attempted, in the order of the queue. *)
Theorem close_can_return s i pc : reachable s -> closers s !! i = Some pc -> pc <> KTimedOut -> pc <> KReturned ->
  exists s', rtc step s s' /\ closers s' !! i = Some KReturned /\ chan s' = []
    /\ exists later, by_worker s' = pipeline s ++ later.
Proof.
  intros Hreach Hi Ht Hret. pose proof (recorder_inv s Hreach) as I.
  destruct (reaches_wait s i pc I Hi Ht Hret) as (s1 & Hr1 & I1 & Hi1).
  assert (chan_closed s1 = true) as Hc1.
  { apply (inv_done s1 I1). exact (Forall_lookup_1 _ _ _ _ (inv_closers s1 I1) Hi1). }
  destruct (worker_drains _ s1 I1 Hc1 (le_n _)) as (s2 & Hr2 & I2 & Hw2 & Hb2 & Ecl & _).
  edestruct (closer_goes s2 i KWait KReturned) as (Hr3 & I3 & Hi3); [done|by rewrite Ecl| | |].
  { cbn [close_step]. unfold wg_done. rewrite Hw2. reflexivity. } { reflexivity. }
  eexists. split; [by etrans; [|etrans]|]. split; [exact Hi3|]. split; [apply (inv_exit s2 I2 Hw2)|].
  destruct (pipeline_grows s s1 Hr1) as [later E]. exists later. cbn [go_close set by_worker]. congruence.
Qed.

End recorder.
End recorder.
