(* ===== verification/Cleanup.v ===== *)
(** * Cleanup: deleting the records past their retention
      (internal/core/cleanup.go, over [DeleteBefore] of [Records])

    One pass deletes batches of at most 1000 records until a batch is not
    full.  The loop runs on fuel; [cleanup_ends] shows how much is enough. *)

From S2P Require Import Prelude GoLib Errors Records RecordsProofs.
Import records.

Module cleanup.

Definition cleanupBatchSize : Z := 1000.

Section worker.
Context `{RecordSQL}.
(** Statement [j] of batch [i] fails with [fault i j]; between the two
    statements of batch [i] other sessions change the table. *)
Context (fault : nat -> nat -> option error) (others : nat -> table -> table).

(** [None] when the fuel does not suffice; otherwise [totalDeleted] and the
    table. *)
Fixpoint cleanup_loop (fuel i : nat) (cutoff : time) (totalDeleted : Z) (t : table) : option (Z * table) :=
  match fuel with
  | O => None
  | S fuel' =>
      match DeleteBefore (fault i) cutoff t (others i) with
      | (Err _, t') => Some (totalDeleted, t')
      | (Ok deleted, t') =>
          let total := wrap64 (totalDeleted + deleted) in
          if deleted <? cleanupBatchSize then Some (total, t')
          else cleanup_loop fuel' (S i) cutoff total t'
      end
  end.

(** [now.AddDate(0, 0, -retentionDays)] depends on the local time zone and is
    an argument. *)
Definition cleanup (addDate : time -> Z -> time) (retentionDays : Z) (now : time) (t : table) : option (Z * table) :=
  cleanup_loop (S (size t)) 0 (addDate now (- retentionDays)) 0 t.

End worker.

(** ** One batch *)

Lemma foldr_delete_lookup (ids : list Z) (t : table) k :
  foldr delete t ids !! k = if bool_decide (k ∈ ids) then None else t !! k.
Proof.
  induction ids as [|i ids IH]; cbn; [done|]. destruct (decide (i = k)) as [->|Hne].
  - rewrite lookup_delete_eq. by rewrite bool_decide_true by set_solver.
  - rewrite lookup_delete_ne, IH by done.
    destruct (bool_decide_reflect (k ∈ ids)); [rewrite bool_decide_true by set_solver|rewrite bool_decide_false by set_solver]; done.
Qed.

Lemma foldr_delete_size (ids : list Z) (t : table) : NoDup ids -> (forall k, k ∈ ids -> is_Some (t !! k)) ->
  (size (foldr delete t ids) + List.length ids = size t)%nat.
Proof.
  induction 1 as [|i ids Hi Hn IH]; intros Hs; cbn; [lia|].
  assert (is_Some (foldr delete t ids !! i)) as [r Hr].
  { rewrite foldr_delete_lookup, bool_decide_false by done. apply Hs. set_solver. }
  rewrite map_size_delete_Some by eauto. rewrite <- IH by set_solver.
  assert (size (foldr delete t ids) <> 0%nat); [|lia]. rewrite map_size_ne_0_lookup. eauto.
Qed.

Section proofs.
Context `{RecordSQL}.

Definition old (cutoff : time) (r : Row) : bool := row_CreatedAt r <? sql_time cutoff.

Lemma old_ids_spec cutoff t : keyed t ->
  NoDup (old_ids cutoff t)
  /\ (forall k, k ∈ old_ids cutoff t -> exists r, t !! k = Some r /\ old cutoff r = true)
  /\ (List.length (old_ids cutoff t) <= 1000)%nat
  /\ ((List.length (old_ids cutoff t) < 1000)%nat ->
      forall k r, t !! k = Some r -> old cutoff r = true -> k ∈ old_ids cutoff t).
Proof.
  intros Ht. unfold old_ids. set (l := merge_sort asc _).
  assert (Hl : forall r, r ∈ l <-> t !! row_ID r = Some r /\ old cutoff r = true).
  { intros r. unfold l. rewrite merge_sort_Permutation. by apply elem_row_list. }
  assert (Hn : NoDup (row_ID <$> l)).
  { unfold l. rewrite merge_sort_Permutation. by apply NoDup_rows_id. }
  pose proof (take_drop 1000 (row_ID <$> l)) as Htd. split; [|split; [|split]].
  - rewrite <- Htd in Hn. by apply NoDup_app in Hn as [? _].
  - intros k Hk. assert (k ∈ row_ID <$> l) as (r & -> & Hr%Hl)%list_elem_of_fmap by (rewrite <- Htd; set_solver). eauto.
  - rewrite length_take. apply Nat.le_min_l.
  - rewrite length_take. intros Hlt k r Hk Ho. rewrite take_ge.
    + apply list_elem_of_fmap. exists r. rewrite Hl. by rewrite (Ht _ _ Hk).
    + destruct (Nat.min_spec 1000 (List.length (row_ID <$> l))) as [[Ha Hb]|[Ha Hb]]; [|done].
      rewrite Hb in Hlt. by apply Nat.lt_irrefl in Hlt.
Qed.

(** A batch removes old rows only, all of them unless it is full, and its
    count is right; a failed batch removes nothing. *)
Lemma DeleteBefore_spec f cutoff t r t' : keyed t -> DeleteBefore f cutoff t (fun t => t) = (r, t') ->
  keyed t' /\ t' ⊆ t
  /\ (forall k x, t !! k = Some x -> old cutoff x = false -> t' !! k = Some x)
  /\ match r with
     | Err _ => t' = t /\ exists j, f j <> None
     | Ok n => n = Z.of_nat (size t - size t') /\ (size t' <= size t)%nat
               /\ (n < 1000 -> forall k x, t' !! k = Some x -> old cutoff x = false)
     end.
Proof.
  intros Ht. destruct (old_ids_spec cutoff t Ht) as (Hn & Hids & Hle & Hall).
  unfold DeleteBefore. destruct (f 0%nat) as [e|] eqn:E0.
  { intros [= <- <-]. split; [done|]. split; [done|]. split; [done|]. split; [done|]. exists 0%nat. by rewrite E0. }
  destruct (old_ids cutoff t) as [|k0 ids0] eqn:Ei.
  { intros [= <- <-]. split; [done|]. split; [done|]. split; [done|]. split; [lia|]. split; [done|].
    intros _ k x Hk. destruct (old cutoff x) eqn:Eo; [|done].
    assert (k ∈ ([] : list Z)); [eapply Hall; [cbn; lia|done..]|set_solver]. }
  destruct (f 1%nat) as [e|] eqn:E1.
  { intros [= <- <-]. split; [done|]. split; [done|]. split; [done|]. split; [done|]. exists 1%nat. by rewrite E1. }
  rewrite <- Ei in *. clear Ei. set (ids := old_ids cutoff t) in *. intros [= <- <-].
  assert (Hsub : foldr delete t ids ⊆ t).
  { apply map_subseteq_spec. intros k x. rewrite foldr_delete_lookup. by case_bool_decide. }
  assert (Hsize : (size (foldr delete t ids) + List.length ids = size t)%nat).
  { apply foldr_delete_size; [done|]. intros k (x & Hx & _)%Hids. eauto. }
  split; [|split; [done|split; [|split; [|split]]]].
  - intros k x Hk. eapply Ht. eapply map_subseteq_spec; eauto.
  - intros k x Hk Ho. rewrite foldr_delete_lookup. case_bool_decide as Hk'; [|done].
    destruct (Hids k Hk') as (x' & Hx' & Ho'). congruence.
  - lia.
  - lia.
  - intros Hlt k x. rewrite foldr_delete_lookup. case_bool_decide as Hk'; [done|]. intros Hk.
    destruct (old cutoff x) eqn:Eo; [|done]. destruct Hk'. eapply Hall; [lia|done..].
Qed.

Lemma cleanup_loop_spec fault cutoff fuel : forall i total t,
  keyed t -> (size t < fuel)%nat -> 0 <= total -> total + Z.of_nat (size t) <= MaxInt64 ->
  exists n t', cleanup_loop fault (fun _ t => t) fuel i cutoff total t = Some (n, t')
    /\ t' ⊆ t /\ n = total + Z.of_nat (size t - size t')
    /\ (forall k x, t !! k = Some x -> old cutoff x = false -> t' !! k = Some x)
    /\ ((forall i j, fault i j = None) -> forall k x, t' !! k = Some x -> old cutoff x = false).
Proof.
  induction fuel as [|fuel IH]; intros i total t Ht Hf Htot Hmax; [lia|]. cbn [cleanup_loop].
  destruct (DeleteBefore (fault i) cutoff t (fun t => t)) as [r t1] eqn:E.
  destruct (DeleteBefore_spec (fault i) cutoff t r t1 Ht E) as (Ht1 & Hsub & Hkeep & Hr).
  destruct r as [n|e].
  - destruct Hr as (-> & Hsz & Hold).
    rewrite wrap64_id by (unfold int64_ok, MaxInt64, MinInt64 in *; lia).
    destruct (Z.ltb_spec (Z.of_nat (size t - size t1)) cleanupBatchSize) as [Hlt|Hge].
    + eexists _, t1. split; [reflexivity|]. split; [done|]. split; [lia|]. split; [done|]. intros _. by apply Hold.
    + unfold cleanupBatchSize in Hge.
      destruct (IH (S i) (total + Z.of_nat (size t - size t1)) t1) as (n & t' & En & Hs' & -> & Hk' & Ho'); [done|lia..|].
      pose proof (map_subseteq_size _ _ Hs').
      eexists _, t'. split; [exact En|]. split; [by etrans|]. split; [lia|]. split; [|done].
      intros k x Hk Hx. apply Hk'; [|done]. by apply Hkeep.
  - destruct Hr as (-> & j & Hj). eexists _, t. split; [reflexivity|]. split; [done|]. split; [lia|].
    split; [done|]. intros Hno. by destruct Hj.
Qed.

(** A cleanup pass ends, whatever fails; it deletes only records older
    than the cutoff, counts exactly those it deleted, and without a failing
    statement leaves none of them. *)
Theorem cleanup_ends fault addDate retentionDays now t :
  keyed t -> Z.of_nat (size t) <= MaxInt64 ->
  let cutoff := addDate now (- retentionDays) in
  exists n t', cleanup fault (fun _ t => t) addDate retentionDays now t = Some (n, t')
    /\ t' ⊆ t /\ n = Z.of_nat (size t - size t')
    /\ (forall k r, t !! k = Some r -> sql_time cutoff <= row_CreatedAt r -> t' !! k = Some r)
    /\ ((forall i j, fault i j = None) -> forall k r, t' !! k = Some r -> sql_time cutoff <= row_CreatedAt r).
Proof.
  intros Ht Hm cutoff.
  destruct (cleanup_loop_spec fault cutoff (S (size t)) 0 0 t Ht) as (n & t' & E & Hs & -> & Hk & Ho); [lia..|].
  exists (Z.of_nat (size t - size t')), t'. split; [exact E|]. split; [done|]. split; [done|].
  unfold old in *. setoid_rewrite Z.ltb_ge in Hk. setoid_rewrite Z.ltb_ge in Ho. done.
Qed.

End proofs.
End cleanup.
