(* ===== verification/Dashboard.v ===== *)
(** * Dashboard: aggregating the request records
      (internal/core/dashboard_service.go, the dashboard of
       internal/store/records.go, internal/core/gateway_usage_service.go)

    The window, its buckets and the loop over the rows of the window.  Counts
    are bounded by the number of rows; sums of tokens and durations wrap like
    Go's [int]. *)

From Stdlib Require Import SpecFloat.
From S2P Require Import Prelude GoLib GoStrings GoHTTP GoJSON GoAny Errors Account Engine Usage Proxy.
From S2P Require Import Records.
Import records.

Module dashboard.

(** ** Queries and windows *)

Inductive dash_error := InvalidFilter (Field Reason : string) | Failed (e : error).
Abbreviation res := (result dash_error).

Record DashboardQuery := mkQuery { Range : string; q_AccountID : option Z; Now : time }.

Definition DashboardRangeValid (value : string) : bool :=
  existsb (String.eqb value) ["1h"; "1d"; "7d"; "30d"].

Definition NormalizeDashboardQuery (query : DashboardQuery) (fallbackNow clock : time) : res DashboardQuery :=
  let range := if String.eqb (Range query) "" then "7d" else Range query in
  if negb (DashboardRangeValid range) then Err (InvalidFilter "range" "must be one of 1h, 1d, 7d, 30d")
  else if match q_AccountID query with Some id => id <=? 0 | None => false end
  then Err (InvalidFilter "account_id" "must be positive")
  else
    let now := if IsZero (Now query) then fallbackNow else Now query in
    let now := if IsZero now then clock else now in
    Ok (mkQuery range (q_AccountID query) (UTC now)).

Definition DashboardWindow (query : DashboardQuery) (clock : time) : res (time * time * duration) :=
  q ← NormalizeDashboardQuery query clock clock;
  let now := Now q in
  if String.eqb (Range q) "1h" then Ok (Add now (- Hour), now, Minute)
  else if String.eqb (Range q) "1d" then Ok (Add now (- (24 * Hour)), now, Hour)
  else if String.eqb (Range q) "7d" then Ok (Add now (- (7 * 24 * Hour)), now, 6 * Hour)
  else if String.eqb (Range q) "30d" then Ok (Add now (- (30 * 24 * Hour)), now, 24 * Hour)
  else Err (InvalidFilter "range" "must be one of 1h, 1d, 7d, 30d").

Definition dashboardBucketCount (start end_ : time) (bucketDuration : duration) : Z :=
  if (bucketDuration <=? 0) || negb (After end_ start) then 1
  else
    let count := Z.quot (Sub end_ start) bucketDuration in
    let count := if Before (Add start (count * bucketDuration)) end_ then count + 1 else count in
    if count <? 1 then 1 else count.

Definition dashboardBucketIndex (createdAt start end_ : time) (bucketDuration : duration) (bucketCount : Z) : Z :=
  if Before createdAt start || After createdAt end_ || (bucketDuration <=? 0) || (bucketCount <=? 0) then -1
  else if createdAt =? end_ then bucketCount - 1
  else
    let idx := Z.quot (Sub createdAt start) bucketDuration in
    if idx <? 0 then -1 else if bucketCount <=? idx then bucketCount - 1 else idx.

(** ** Reading a row *)

Section rows.
(** [int(v)] of a float64 outside the range of int64 depends on the platform. *)
Context (int_of_huge : float64 -> Z).

Definition int_of_float (v : float64) : Z :=
  match v with
  | S754_finite neg m e =>
      let z := if 0 <=? e then Zpos m * 2 ^ e else Z.quot (Zpos m) (2 ^ (- e)) in
      let z := if neg then - z else z in
      if (MinInt64 <=? z) && (z <=? MaxInt64) then z else int_of_huge v
  | S754_zero _ => 0
  | _ => int_of_huge v
  end.

Definition dashboardAnyToInt (value : option any) : option Z :=
  match value with
  | Some (AInt v) => if 0 <=? v then Some v else None
  | Some (ANum v) => if f64_lt v f64_zero then None else Some (int_of_float v)
  | Some (ALit lit) => match Atoi lit with Some i => if i <? 0 then None else Some i | None => None end
  | _ => None
  end.

(** [usage[key]] of a nil map is nil. *)
Definition get (usage : usage.JSONMap) (key : string) : option any := usage ≫= (fun m : obj => m !! key).

Fixpoint dashboardUsageInt (usage : usage.JSONMap) (keys : list string) : Z :=
  match keys with
  | [] => 0
  | key :: keys' =>
      match dashboardAnyToInt (get usage key) with Some v => v | None => dashboardUsageInt usage keys' end
  end.

Definition dashboardNestedUsageInt (usage : usage.JSONMap) (objectKey valueKey : string) : Z :=
  match get usage objectKey with
  | Some (AMap m) => default 0 (dashboardAnyToInt (m !! valueKey))
  | _ => 0
  end.

Record TokenBreakdown := mkTokens { InputCached : Z; InputNonCached : Z; Output : Z }.

Definition dashboardTokens (usage : usage.JSONMap) : TokenBreakdown :=
  let input := dashboardUsageInt usage ["input"; "input_tokens"] in
  let cached := dashboardUsageInt usage ["cached_input"; "cached_tokens"] in
  let cached := if cached =? 0 then dashboardNestedUsageInt usage "input_tokens_details" "cached_tokens" else cached in
  let output := dashboardUsageInt usage ["output"; "output_tokens"] in
  let nonCached := wrap64 (input - cached) in
  mkTokens cached (if nonCached <? 0 then 0 else nonCached) output.

Definition dashboardOutcomeIsError (outcome : string) : bool :=
  negb (String.eqb outcome "success" || String.eqb outcome "no_extractable_text").

Definition dashboardGenerationDurationMS (r : Row) : Z * bool :=
  if String.eqb (rr_ResponseMode (row_Rec r)) "sse" then
    match rr_TTFTMs (row_Rec r) with
    | None => (0, false)
    | Some ttft => let d := wrap64 (row_LatencyMs r - ttft) in (d, 0 <? d)
    end
  else (row_LatencyMs r, 0 <? row_LatencyMs r).

Definition f64_div (x y : float64) : float64 := SFdiv 53 1024 x y.
Definition f64_mul (x y : float64) : float64 := SFmul 53 1024 x y.

Definition dashboardRate (errorsCount total : Z) : float64 :=
  if total <=? 0 then f64_zero else f64_div (f64_of_Z errorsCount) (f64_of_Z total).

Definition dashboardP95 (values : list Z) : option Z :=
  match values with
  | [] => None
  | _ =>
      let sorted := merge_sort Z.le values in
      let n := Z.of_nat (List.length sorted) in
      let idx := Z.quot (95 * n + 99) 100 in
      let idx := if idx <? 1 then 1 else idx in
      let idx := if n <? idx then n else idx in
      sorted !! Z.to_nat (idx - 1)
  end.

(** ** The aggregation *)

Record RatePoint := mkRatePoint { rp_Total : Z; rp_Errors : Z; rp_Rate : float64 }.
Record TTFTPoint := mkTTFTPoint { tp_P95MS : option Z; tp_SampleCount : Z }.
Record ModelSpeed := mkSpeed { Model : string; OutputTokens : Z; SampleCount : Z; OutputTokensPerSecond : float64 }.

(** Each series is a list of points, the timestamps are kept once. *)
Record DashboardAggregation := mkAggregation {
  g_Range : string; WindowStart : time; WindowEnd : time; BucketSeconds : Z;
  Timestamps : list time;
  RequestsTotal : Z; RequestsSeries : list Z;
  TokensTotals : TokenBreakdown; TokensSeries : list TokenBreakdown;
  ErrorRate : RatePoint; ErrorSeries : list RatePoint;
  TTFT : TTFTPoint; TTFTSeries : list TTFTPoint;
  ModelSpeeds : list ModelSpeed }.

(** The variables of the loop over the rows. *)
Record loop := mkLoop {
  l_total : Z; l_counts : list Z;
  l_tokens : TokenBreakdown; l_token_series : list TokenBreakdown;
  l_errors : Z; l_error_series : list (Z * Z);
  l_allTTFT : list Z; l_bucketTTFT : list (list Z);
  l_modelSpeeds : gmap string (Z * Z * Z) }.

Definition add_tokens (t u : TokenBreakdown) : TokenBreakdown :=
  mkTokens (wrap64 (InputCached t + InputCached u)) (wrap64 (InputNonCached t + InputNonCached u))
    (wrap64 (Output t + Output u)).

(** A row's sample of its model's speed: model, tokens and duration. *)
Definition speed_sample (r : Row) : option (string * Z * Z) :=
  match rr_Model (row_Rec r) with
  | None => None
  | Some m =>
      let out := Output (dashboardTokens (rr_TokenUsage (row_Rec r))) in
      if String.eqb (TrimSpace m) "" || (out <=? 0) then None
      else let '(durationMS, ok) := dashboardGenerationDurationMS r in
           if ok then Some (TrimSpace m, out, durationMS) else None
  end.

Definition add_speed (m : gmap string (Z * Z * Z)) (sample : option (string * Z * Z)) : gmap string (Z * Z * Z) :=
  match sample with
  | None => m
  | Some (model, out, dur) =>
      let '(o, d, n) := default (0, 0, 0) (m !! model) in
      <[model := (wrap64 (o + out), wrap64 (d + dur), n + 1)]> m
  end.

(** [*record.TTFTMs], when it is a sample. *)
Definition ttft_sample (r : Row) : option Z :=
  match rr_TTFTMs (row_Rec r) with Some t => if 0 <=? t then Some t else None | None => None end.

Section loop.
Context (start end_ : time) (bucketDuration : duration) (bucketCount : Z).

Definition index (r : Row) : Z := dashboardBucketIndex (row_CreatedAt r) start end_ bucketDuration bucketCount.

Definition loop_row (v : loop) (r : Row) : loop :=
  let idx := index r in
  if idx <? 0 then v
  else
    let i := Z.to_nat idx in
    let tokens := dashboardTokens (rr_TokenUsage (row_Rec r)) in
    let err := if dashboardOutcomeIsError (rr_Outcome (row_Rec r)) then 1 else 0 in
    let ttft := option_list (ttft_sample r) in
    mkLoop (l_total v + 1) (alter (Z.add 1) i (l_counts v))
      (add_tokens (l_tokens v) tokens) (alter (fun t => add_tokens t tokens) i (l_token_series v))
      (l_errors v + err) (alter (fun p => (fst p + 1, snd p + err)) i (l_error_series v))
      (l_allTTFT v ++ ttft) (alter (fun l => l ++ ttft) i (l_bucketTTFT v))
      (add_speed (l_modelSpeeds v) (speed_sample r)).

Definition no_tokens : TokenBreakdown := mkTokens 0 0 0.
Definition loop_start : loop :=
  let n := Z.to_nat bucketCount in
  mkLoop 0 (replicate n 0) no_tokens (replicate n no_tokens) 0 (replicate n (0, 0)) [] (replicate n []) ∅.

End loop.

Definition speed_of (e : string * (Z * Z * Z)) : ModelSpeed :=
  let '(m, (o, d, n)) := e in
  mkSpeed m o n (f64_div (f64_mul (f64_of_Z o) (f64_of_Z 1000)) (f64_of_Z d)).

Definition rate_point (p : Z * Z) : RatePoint := mkRatePoint (fst p) (snd p) (dashboardRate (snd p) (fst p)).
Definition ttft_point (l : list Z) : TTFTPoint := mkTTFTPoint (dashboardP95 l) (Z.of_nat (List.length l)).

Definition dashboard_timestamps (start : time) (bucketDuration : duration) (n : nat) : list time :=
  (fun i => Add start (Z.of_nat i * bucketDuration)) <$> seq 0 n.

(** The rows of the window, in the order the database returns them. *)
Definition aggregate (range : string) (start end_ : time) (bucketDuration : duration) (l : list Row)
    : DashboardAggregation :=
  let n := dashboardBucketCount start end_ bucketDuration in
  let v := foldl (loop_row start end_ bucketDuration n) (loop_start n) l in
  mkAggregation range start end_ (Z.quot bucketDuration Second)
    (dashboard_timestamps start bucketDuration (Z.to_nat n))
    (l_total v) (l_counts v) (l_tokens v) (l_token_series v)
    (rate_point (l_total v, l_errors v)) (rate_point <$> l_error_series v)
    (ttft_point (l_allTTFT v)) (ttft_point <$> l_bucketTTFT v)
    (SliceStable Model (speed_of <$> map_to_list (l_modelSpeeds v))).

(** ** The repository and the services *)

Section repo.
Context `{RecordSQL}.
(** The rows of the cursor as the driver delivers them before [rows.Next()]
    answers false; the loop does not ask whether an error ended it. *)
Context (delivered : list Row -> list Row) (query_err : option error).

Definition in_window (q : DashboardQuery) (start end_ : time) (r : Row) : bool :=
  (sql_time start <=? row_CreatedAt r) && (row_CreatedAt r <=? sql_time end_)
  && match q_AccountID q with Some id => bool_decide (rr_AccountID (row_Rec r) = Some id) | None => true end.

Definition RepoDashboard (query : DashboardQuery) (clock : time) (t : table) : res DashboardAggregation :=
  normalized ← NormalizeDashboardQuery query clock clock;
  '(start, end_, bucketDuration) ← DashboardWindow normalized clock;
  match query_err with
  | Some e => Err (Failed (Wrapf "query dashboard records: %w" [] e))
  | None =>
      Ok (aggregate (Range normalized) start end_ bucketDuration
            (delivered (rows (in_window normalized start end_) t)))
  end.

Record RequestUsageSummary := mkUsageSummary { RequestCount : Z; TotalTokens : Z; CachedInputTokens : Z }.

(** [rows]: those whose [token_usage] is not NULL. *)
Definition UsageSummary (count_err : option error) (t : table) : result error RequestUsageSummary :=
  match count_err, query_err with
  | Some e, _ => Err (Wrapf "count usage records: %w" [] e)
  | _, Some e => Err (Wrapf "query usage records: %w" [] e)
  | None, None =>
      Ok (foldl (fun s r =>
            let tokens := dashboardTokens (rr_TokenUsage (row_Rec r)) in
            mkUsageSummary (RequestCount s)
              (wrap64 (TotalTokens s + wrap64 (wrap64 (InputCached tokens + InputNonCached tokens) + Output tokens)))
              (wrap64 (CachedInputTokens s + InputCached tokens)))
          (mkUsageSummary (Z.of_nat (size t)) 0 0)
          (delivered (rows (fun r => match rr_TokenUsage (row_Rec r) with Some _ => true | None => false end) t)))
  end.

Record DashboardAccountOption := mkAccountOption {
  o_ID : Z; o_Label : string; o_Name : string; o_Provider : string; o_BaseURL : option string;
  o_AuthMethod : string; o_Status : string; o_Email : option string; o_PlanType : option string;
  o_ChatGPTAccountID : option string; o_LastRefresh : option time; o_AccessExpiresAt : option time;
  o_UseProxy : bool; o_CreatedAt : time; o_UpdatedAt : time }.

Definition dashboardAccountOption (a : UpstreamAccount) : DashboardAccountOption :=
  let label := if String.eqb (Name a) "" then "#" +:+ Itoa (ID a) else Name a in
  let oauth {A} (x : option A) : option A := if String.eqb (AuthMethod a) "api_key" then None else x in
  mkAccountOption (ID a) label (Name a) (Provider a) (BaseURL a) (AuthMethod a) (Status a)
    (oauth (Email a)) (oauth (PlanType a)) (oauth (ChatGPTAccountID a)) (oauth (LastRefresh a))
    (oauth (AccessExpiresAt a)) (UseProxy a) (CreatedAt a) (UpdatedAt a).

Record DashboardSnapshot := mkSnapshot {
  s_Aggregation : DashboardAggregation; SelectedAccountID : option Z; ActiveAccounts : Z;
  AccountOptions : list DashboardAccountOption }.

(** [accounts]: the answer of [accounts.List(ctx, nil)]. *)
Definition ServiceDashboard (query : DashboardQuery) (clock : time) (accounts : result error (list UpstreamAccount))
    (t : table) : res DashboardSnapshot :=
  normalized ← NormalizeDashboardQuery query clock clock;
  match accounts with
  | Err e => Err (Failed (Wrapf "list dashboard accounts: %w" [] e))
  | Ok all =>
      let live := List.filter (fun a => negb (String.eqb (Status a) AccountStatusDeleted)) all in
      let accountExists := match q_AccountID normalized with
                           | None => true | Some id => existsb (fun a => ID a =? id) live end in
      if negb accountExists then Err (InvalidFilter "account_id" "account not found")
      else
        match RepoDashboard normalized clock t with
        | Err (InvalidFilter f r) => Err (InvalidFilter f r)
        | Err (Failed e) => Err (Failed (Wrapf "aggregate dashboard records: %w" [] e))
        | Ok g =>
            Ok (mkSnapshot g (q_AccountID normalized)
                  (Z.of_nat (List.length (List.filter (fun a => String.eqb (Status a) AccountStatusActive) live)))
                  (dashboardAccountOption <$> live))
        end
  end.

(** [codexPlanType] collects the plans in a set. *)
Definition codexPlanType (accounts : list UpstreamAccount) : string :=
  let oauth := List.filter (fun a => String.eqb (Status a) AccountStatusActive && IsOAuth a) accounts in
  let plan a := TrimSpace (default "" (PlanType a)) in
  let hasUnknown := existsb (fun a => String.eqb (plan a) "") oauth in
  let plans := remove_dups (List.filter (fun p => negb (String.eqb p "")) (plan <$> oauth)) in
  match oauth, plans with
  | [], _ => "guest"
  | _, [] => "unknown"
  | _, [p] => if hasUnknown then "mixed" else p
  | _, _ => "mixed"
  end.

End repo.

End rows.

End dashboard.
