(* ===== verification/DashboardProofs.v ===== *)
(** * DashboardProofs: the aggregation against its definition

    [report] says what the dashboard shows, by counting and summing over the
    rows of each bucket; the loop of the code computes it, in whatever order
    the database delivers the rows. *)

From S2P Require Import Prelude GoLib GoStrings GoHTTP GoJSON GoAny Errors Account Engine Usage Proxy.
From S2P Require Import Records RecordsProofs Dashboard.
Import records dashboard.

(** ** Sums and series *)

Definition sum_Z (l : list Z) : Z := foldr Z.add 0 l.

Lemma sum_Z_app l k : sum_Z (l ++ k) = sum_Z l + sum_Z k.
Proof. induction l as [|x l IH]; cbn; [done|]. unfold sum_Z in *. rewrite IH. lia. Qed.
#[export] Instance sum_Z_perm : Proper ((≡ₚ) ==> (=)) sum_Z.
Proof. intros l k E. unfold sum_Z. induction E; cbn in *; lia. Qed.

Lemma wrap64_add a b : wrap64 (wrap64 a + b) = wrap64 (a + b).
Proof.
  unfold wrap64.
  replace ((a + 2 ^ 63) mod 2 ^ 64 - 2 ^ 63 + b + 2 ^ 63) with ((a + 2 ^ 63) mod 2 ^ 64 + b) by lia.
  rewrite Zplus_mod_idemp_l. by replace (a + 2 ^ 63 + b) with (a + b + 2 ^ 63) by lia.
Qed.

Lemma alter_seq {A} (f : A -> A) (g g' : nat -> A) i n :
  g' i = f (g i) -> (forall j, j <> i -> g' j = g j) -> alter f i (g <$> seq 0 n) = g' <$> seq 0 n.
Proof.
  intros Hi Hj. apply list_eq. intros j. destruct (decide (i = j)) as [<-|Hne].
  - rewrite list_lookup_alter_eq, !list_lookup_fmap. destruct (seq 0 n !! i) as [k|] eqn:E; [|done].
    cbn. apply lookup_seq in E as [-> _]. cbn. by rewrite Hi.
  - rewrite list_lookup_alter_ne, !list_lookup_fmap by done. destruct (seq 0 n !! j) as [k|] eqn:E; [|done].
    cbn. apply lookup_seq in E as [-> _]. cbn. by rewrite Hj.
Qed.

Lemma replicate_seq {A} (x : A) n : replicate n x = (fun _ => x) <$> seq 0 n.
Proof.
  apply list_eq. intros j. rewrite list_lookup_fmap. destruct (decide (j < n)%nat).
  - rewrite lookup_replicate_2, lookup_seq_lt by done. done.
  - rewrite !(proj2 (lookup_ge_None _ _)); [done| |]; rewrite ?length_replicate, ?length_seq; lia.
Qed.

(** ** What the dashboard shows *)

Section report.
Context (huge : float64 -> Z) (start end_ : time) (b : duration).

Definition buckets : Z := dashboardBucketCount start end_ b.
Definition row_index (r : Row) : Z := index start end_ b buckets r.
Definition shown (l : list Row) : list Row := List.filter (fun r => negb (row_index r <? 0)) l.
Definition bucket (l : list Row) (i : nat) : list Row := List.filter (fun r => row_index r =? Z.of_nat i) l.

(** A figure of every bucket. *)
Definition series {A} (f : list Row -> A) (l : list Row) : list A :=
  (fun i => f (bucket l i)) <$> seq 0 (Z.to_nat buckets).

Definition row_tokens (r : Row) : TokenBreakdown := dashboardTokens huge (rr_TokenUsage (row_Rec r)).
Definition tokens_sum (l : list Row) : TokenBreakdown :=
  mkTokens (wrap64 (sum_Z ((fun r => InputCached (row_tokens r)) <$> l)))
    (wrap64 (sum_Z ((fun r => InputNonCached (row_tokens r)) <$> l)))
    (wrap64 (sum_Z ((fun r => Output (row_tokens r)) <$> l))).
Definition lenR {A} (l : list A) : Z := Z.of_nat (List.length l).
Definition failures (l : list Row) : Z :=
  lenR (List.filter (fun r => dashboardOutcomeIsError (rr_Outcome (row_Rec r))) l).
Definition rates (l : list Row) : RatePoint := rate_point (lenR l, failures l).
Definition ttfts (l : list Row) : TTFTPoint := ttft_point (omap ttft_sample l).

(** The samples of one model. *)
Definition samples (l : list Row) (m : string) : list (Z * Z) :=
  omap (fun r => match speed_sample huge r with
                 | Some (m', o, d) => if String.eqb m' m then Some (o, d) else None
                 | None => None end) l.
Definition models (l : list Row) : list string :=
  remove_dups (omap (fun r => (fun p => fst (fst p)) <$> speed_sample huge r) l).
Definition speed (l : list Row) (m : string) : ModelSpeed :=
  speed_of (m, (wrap64 (sum_Z (samples l m).*1), wrap64 (sum_Z (samples l m).*2), lenR (samples l m))).

Definition report (range : string) (rows : list Row) : DashboardAggregation :=
  let l := shown rows in
  mkAggregation range start end_ (Z.quot b Second)
    (dashboard_timestamps start b (Z.to_nat buckets))
    (lenR l) (series lenR rows) (tokens_sum l) (series tokens_sum rows) (rates l) (series rates rows)
    (ttfts l) (series ttfts rows)
    (SliceStable Model (speed l <$> models l)).

(** ** The loop *)

Definition after (l : list Row) (speeds : gmap string (Z * Z * Z)) : loop :=
  mkLoop (lenR (shown l)) (series lenR l) (tokens_sum (shown l)) (series tokens_sum l)
    (failures (shown l)) (series (fun k => (lenR k, failures k)) l)
    (omap ttft_sample (shown l)) (series (omap ttft_sample) l) speeds.

Lemma lenR_snoc {A} (l : list A) x : lenR (l ++ [x]) = lenR l + 1.
Proof. unfold lenR. rewrite length_app. cbn. lia. Qed.

Lemma tokens_snoc l r : tokens_sum (l ++ [r]) = add_tokens (tokens_sum l) (row_tokens r).
Proof.
  unfold tokens_sum, add_tokens. cbn [InputCached InputNonCached Output].
  rewrite !fmap_app, !sum_Z_app, !wrap64_add. cbn. by rewrite !Z.add_0_r.
Qed.

Lemma failures_snoc l r :
  failures (l ++ [r]) = failures l + (if dashboardOutcomeIsError (rr_Outcome (row_Rec r)) then 1 else 0).
Proof.
  unfold failures. rewrite List.filter_app. cbn. destruct (dashboardOutcomeIsError _); [apply lenR_snoc|].
  rewrite app_nil_r. lia.
Qed.

Lemma bucket_snoc l r i :
  bucket (l ++ [r]) i = if row_index r =? Z.of_nat i then bucket l i ++ [r] else bucket l i.
Proof. unfold bucket. rewrite List.filter_app. cbn. destruct (_ =? _); [done|]. by rewrite app_nil_r. Qed.

Lemma shown_snoc l r : shown (l ++ [r]) = if row_index r <? 0 then shown l else shown l ++ [r].
Proof. unfold shown. rewrite List.filter_app. cbn. destruct (_ <? _); cbn; [by rewrite app_nil_r|done]. Qed.

(** One point of a series changes. *)
Lemma series_snoc {A} (f : list Row -> A) (g : A -> A) l r : 0 <= row_index r ->
  (forall k, f (k ++ [r]) = g (f k)) ->
  series f (l ++ [r]) = alter g (Z.to_nat (row_index r)) (series f l).
Proof.
  intros Hr Hf. symmetry. apply (alter_seq g (fun i => f (bucket l i)) (fun i => f (bucket (l ++ [r]) i))).
  - rewrite bucket_snoc, Z2Nat.id, Z.eqb_refl by lia. apply Hf.
  - intros j Hj. rewrite bucket_snoc. destruct (Z.eqb_spec (row_index r) (Z.of_nat j)); [lia|done].
Qed.

Lemma series_same {A} (f : list Row -> A) l r : row_index r < 0 ->
  series f (l ++ [r]) = series f l.
Proof.
  intros Hr. apply list_fmap_ext. intros i j _. rewrite bucket_snoc.
  destruct (Z.eqb_spec (row_index r) (Z.of_nat j)); [lia|done].
Qed.

Lemma loop_row_after l m r :
  loop_row huge start end_ b buckets (after l m) r
  = after (l ++ [r]) (if row_index r <? 0 then m else add_speed m (speed_sample huge r)).
Proof.
  unfold loop_row. fold (row_index r). unfold after. rewrite shown_snoc.
  destruct (Z.ltb_spec (row_index r) 0) as [Hr|Hr].
  - by rewrite !series_same.
  - cbn [l_total l_counts l_tokens l_token_series l_errors l_error_series l_allTTFT l_bucketTTFT l_modelSpeeds].
    f_equal.
    + by rewrite lenR_snoc.
    + symmetry. apply series_snoc; [done|]. intros k. rewrite lenR_snoc. lia.
    + by rewrite tokens_snoc.
    + symmetry. apply (series_snoc tokens_sum (fun t => add_tokens t (row_tokens r))); [done|].
      intros k. apply tokens_snoc.
    + by rewrite failures_snoc.
    + symmetry. apply (series_snoc (fun k => (lenR k, failures k))
                        (fun p => (fst p + 1, snd p + if dashboardOutcomeIsError (rr_Outcome (row_Rec r)) then 1 else 0)));
        [done|]. intros k. cbn. by rewrite lenR_snoc, failures_snoc.
    + rewrite omap_app. cbn. by destruct (ttft_sample r).
    + symmetry. apply (series_snoc (omap ttft_sample) (fun k => k ++ option_list (ttft_sample r))); [done|].
      intros k. rewrite omap_app. cbn. by destruct (ttft_sample r).
Qed.

(** The accumulators of the models. *)
Definition speed_entry (q : list (Z * Z)) : option (Z * Z * Z) :=
  match q with [] => None | _ => Some (wrap64 (sum_Z q.*1), wrap64 (sum_Z q.*2), lenR q) end.

Lemma samples_snoc l r m :
  samples (l ++ [r]) m = samples l m ++ match speed_sample huge r with
                                        | Some (m', o, d) => if String.eqb m' m then [(o, d)] else []
                                        | None => [] end.
Proof.
  unfold samples. rewrite omap_app. cbn. destruct (speed_sample huge r) as [[[m' o] d]|]; [|done].
  by destruct (String.eqb m' m).
Qed.

Lemma speed_entry_snoc q o d :
  speed_entry (q ++ [(o, d)])
  = let '(o0, d0, n) := default (0, 0, 0) (speed_entry q) in Some (wrap64 (o0 + o), wrap64 (d0 + d), n + 1).
Proof.
  assert (speed_entry (q ++ [(o, d)])
          = Some (wrap64 (sum_Z q.*1 + o), wrap64 (sum_Z q.*2 + d), lenR q + 1)) as ->.
  { rewrite <- lenR_snoc with (x := (o, d)).
    assert (forall p : Z * Z, sum_Z (q ++ [p]).*1 = sum_Z q.*1 + fst p /\ sum_Z (q ++ [p]).*2 = sum_Z q.*2 + snd p) as E.
    { intros p. rewrite !fmap_app, !sum_Z_app. cbn. lia. }
    destruct (E (o, d)) as [E1 E2]. cbn in E1, E2. rewrite <- E1, <- E2. by destruct q. }
  destruct q as [|p q]; [done|]. unfold speed_entry at 1. cbv beta iota delta [default from_option id]. by rewrite !wrap64_add.
Qed.

Lemma add_speed_lookup M r m q :
  M !! m = speed_entry q ->
  add_speed M (speed_sample huge r) !! m
  = speed_entry (q ++ match speed_sample huge r with
                      | Some (m', o, d) => if String.eqb m' m then [(o, d)] else []
                      | None => [] end).
Proof.
  intros HM. unfold add_speed. destruct (speed_sample huge r) as [[[m' o] d]|]; [|by rewrite app_nil_r].
  destruct (String.eqb_spec m' m) as [->|Hne].
  - rewrite speed_entry_snoc, HM. destruct (default (0, 0, 0) (speed_entry q)) as [[o0 d0] n]. by rewrite lookup_insert_eq.
  - rewrite app_nil_r. destruct (default (0, 0, 0) (M !! m')) as [[o0 d0] n]. by rewrite lookup_insert_ne.
Qed.

Lemma loop_after l : exists M,
  foldl (loop_row huge start end_ b buckets) (loop_start buckets) l = after l M
  /\ forall m, M !! m = speed_entry (samples (shown l) m).
Proof.
  induction l as [|r l (M & IH & HM)] using rev_ind.
  - exists ∅. split; [|done]. unfold loop_start, after, series. by rewrite !replicate_seq.
  - rewrite foldl_snoc, IH, loop_row_after. eexists. split; [reflexivity|]. intros m. rewrite shown_snoc.
    destruct (row_index r <? 0); [done|]. rewrite samples_snoc. by apply add_speed_lookup.
Qed.

Lemma elem_models l m : m ∈ models l <-> samples l m <> [].
Proof.
  unfold models, samples. rewrite elem_of_remove_dups, list_elem_of_omap. split.
  - intros (r & Hr & Em) E. destruct (speed_sample huge r) as [[[m' o] d]|] eqn:Es; [|done].
    injection Em as <-. assert ((o, d) ∈ ([] : list (Z * Z))); [|set_solver]. rewrite <- E.
    apply list_elem_of_omap. exists r. split; [done|]. by rewrite Es, String.eqb_refl.
  - intros Hne. destruct (omap _ l) as [|p q] eqn:E; [done|].
    assert (p ∈ p :: q) as Hp by set_solver. rewrite <- E in Hp. apply list_elem_of_omap in Hp as (r & Hr & Es).
    destruct (speed_sample huge r) as [[[m' o] d]|] eqn:Er; [|done]. destruct (String.eqb_spec m' m) as [->|]; [|done].
    exists r. by rewrite Er.
Qed.

Lemma speeds_listed l M : (forall m, M !! m = speed_entry (samples l m)) ->
  speed_of <$> map_to_list M ≡ₚ speed l <$> models l.
Proof.
  intros HM. apply NoDup_Permutation.
  - apply (NoDup_fmap_1 Model).
    replace (Model <$> (speed_of <$> map_to_list M)) with ((map_to_list M).*1); [apply NoDup_fst_map_to_list|].
    rewrite <- list_fmap_compose. apply list_fmap_ext. by intros _ [m [[o d] n]] _.
  - apply (NoDup_fmap_1 Model).
    replace (Model <$> (speed l <$> models l)) with (models l); [apply NoDup_remove_dups|].
    rewrite <- list_fmap_compose. symmetry. erewrite list_fmap_ext; [apply list_fmap_id|]. done.
  - intros x. rewrite !list_elem_of_fmap. split.
    + intros ([m e] & -> & He%elem_of_map_to_list). rewrite HM in He. exists m.
      assert (samples l m <> []) as Hne by (intros E; by rewrite E in He). split; [|by apply elem_models].
      unfold speed. f_equal. f_equal. destruct (samples l m); [done|]. by injection He as <-.
    + intros (m & -> & Hm%elem_models). eexists (m, _). split; [reflexivity|].
      apply elem_of_map_to_list. rewrite HM. by destruct (samples l m).
Qed.

End report.

(** ** The order of the rows does not matter *)

Lemma SliceStable_unique {A} (key : A -> string) l k : NoDup (key <$> l) -> l ≡ₚ k -> SliceStable key l = SliceStable key k.
Proof.
  intros Hn E. apply (StronglySorted_unique_strong (fun x y => String.le (key x) (key y))).
  - intros x y Hx Hy Hxy Hyx. apply (NoDup_fmap_inj key l); [done|..].
    + by rewrite <- (SliceStable_perm key l).
    + rewrite E. by rewrite <- (SliceStable_perm key k).
    + by apply (anti_symm String.le).
  - apply SliceStable_sorted.
  - apply SliceStable_sorted.
  - by rewrite !SliceStable_perm.
Qed.

Lemma filter_perm {A} (f : A -> bool) l k : l ≡ₚ k -> List.filter f l ≡ₚ List.filter f k.
Proof.
  induction 1 as [|x l k _ IH|x y l|l k q _ IH1 _ IH2]; cbn; [done|by destruct (f x); rewrite IH| |by etrans].
  destruct (f x), (f y); try done. apply perm_swap.
Qed.

Lemma lenR_perm {A} (l k : list A) : l ≡ₚ k -> lenR l = lenR k.
Proof. intros E. unfold lenR. by rewrite E. Qed.

Lemma sorted_perm l k : l ≡ₚ k -> merge_sort Z.le l = merge_sort Z.le k.
Proof.
  intros E. apply (StronglySorted_unique Z.le); [apply StronglySorted_merge_sort; apply _..|].
  by rewrite !merge_sort_Permutation.
Qed.

Lemma p95_perm l k : l ≡ₚ k -> dashboardP95 l = dashboardP95 k.
Proof.
  intros E. unfold dashboardP95. rewrite (sorted_perm l k E).
  destruct l as [|x l], k as [|y k]; [done|by apply Permutation_nil_cons in E|by symmetry in E; apply Permutation_nil_cons in E|done].
Qed.

Section perm.
Context (huge : float64 -> Z) (start end_ : time) (b : duration).

Lemma tokens_perm l k : l ≡ₚ k -> tokens_sum huge l = tokens_sum huge k.
Proof. intros E. unfold tokens_sum. by rewrite E. Qed.
Lemma rates_perm l k : l ≡ₚ k -> rates l = rates k.
Proof.
  intros E. unfold rates, failures. by rewrite (lenR_perm l k E), (lenR_perm _ _ (filter_perm _ l k E)).
Qed.
Lemma ttfts_perm l k : l ≡ₚ k -> ttfts l = ttfts k.
Proof.
  intros E. unfold ttfts, ttft_point.
  by rewrite (p95_perm _ _ (omap_Permutation ttft_sample l k E)), (omap_Permutation ttft_sample l k E).
Qed.

Lemma series_perm {A} (f : list Row -> A) l k :
  (forall p q, p ≡ₚ q -> f p = f q) -> l ≡ₚ k -> series start end_ b f l = series start end_ b f k.
Proof. intros Hf E. apply list_fmap_ext. intros i j _. apply Hf. by apply filter_perm. Qed.

Lemma samples_perm l k m : l ≡ₚ k -> samples huge l m ≡ₚ samples huge k m.
Proof. apply omap_Permutation. Qed.

Lemma speeds_perm l k : l ≡ₚ k ->
  SliceStable Model (speed huge l <$> models huge l) = SliceStable Model (speed huge k <$> models huge k).
Proof.
  intros E.
  assert (forall m, speed huge l m = speed huge k m) as Hs.
  { intros m. unfold speed. by rewrite (lenR_perm _ _ (samples_perm l k m E)), (samples_perm l k m E). }
  apply SliceStable_unique.
  - replace (Model <$> _) with (models huge l); [apply NoDup_remove_dups|].
    rewrite <- list_fmap_compose. symmetry. erewrite list_fmap_ext; [apply list_fmap_id|]. done.
  - rewrite (list_fmap_ext _ (speed huge k)) by done. apply fmap_Permutation.
    apply NoDup_Permutation; [apply NoDup_remove_dups..|]. intros m. rewrite !elem_models.
    pose proof (samples_perm l k m E) as Ep. split; intros Hne Hnil; apply Hne.
    + rewrite Hnil in Ep. by apply Permutation_nil_r in Ep.
    + rewrite Hnil in Ep. symmetry in Ep. by apply Permutation_nil_r in Ep.
Qed.

Lemma report_perm range l k : l ≡ₚ k -> report huge start end_ b range l = report huge start end_ b range k.
Proof.
  intros E. assert (shown start end_ b l ≡ₚ shown start end_ b k) as Es by (by apply filter_perm).
  unfold report. rewrite (lenR_perm _ _ Es), (tokens_perm _ _ Es), (rates_perm _ _ Es), (ttfts_perm _ _ Es), (speeds_perm _ _ Es).
  rewrite (series_perm lenR l k), (series_perm (tokens_sum huge) l k), (series_perm rates l k), (series_perm ttfts l k)
    by (first [done | apply @lenR_perm | apply tokens_perm | apply rates_perm | apply ttfts_perm]).
  done.
Qed.

(** The dashboard is the report: whatever the order in which the database
    delivers the rows, the loop computes for the whole window and for every
    bucket the number of requests, the token sums, the errors and their rate,
    the 95th percentile of the times to the first token, and the speed of
    every model, sorted by name. *)
Theorem aggregate_report range rows delivered : delivered ≡ₚ rows ->
  aggregate huge range start end_ b delivered = report huge start end_ b range rows.
Proof.
  intros E. rewrite (report_perm range rows delivered) by done.
  unfold aggregate. fold (buckets start end_ b). destruct (loop_after huge start end_ b delivered) as (M & -> & HM).
  unfold after, report. cbn [l_total l_counts l_tokens l_token_series l_errors l_error_series l_allTTFT l_bucketTTFT l_modelSpeeds].
  f_equal.
  - unfold series. by rewrite <- list_fmap_compose.
  - unfold series. by rewrite <- list_fmap_compose.
  - apply SliceStable_unique; [|by apply speeds_listed].
    replace (Model <$> (speed_of <$> map_to_list M)) with ((map_to_list M).*1); [apply NoDup_fst_map_to_list|].
    rewrite <- list_fmap_compose. apply list_fmap_ext. by intros _ [m [[o d] n]] _.
Qed.

End perm.

(** ** The 95th percentile *)

Lemma count_le_sorted (l : list Z) (i : nat) (v : Z) : StronglySorted Z.le l -> l !! i = Some v ->
  (S i <= List.length (List.filter (fun x => (x <=? v)%Z) l))%nat.
Proof.
  intros Hs. revert i. induction Hs as [|x l Hs IH Hx]; intros i Hi; [done|]. cbn. destruct i as [|i].
  - injection Hi as ->. rewrite Z.leb_refl. cbn. lia.
  - cbn in Hi. rewrite (proj2 (Z.leb_le x v)).
    + cbn. specialize (IH i Hi). lia.
    + rewrite Forall_lookup in Hx. by apply (Hx i).
Qed.

Lemma count_lt_sorted (l : list Z) (i : nat) (v w : Z) : StronglySorted Z.le l -> l !! i = Some v -> w < v ->
  (List.length (List.filter (fun x => (x <=? w)%Z) l) <= i)%nat.
Proof.
  intros Hs. revert i. induction Hs as [|x l Hs IH Hx]; intros i Hi Hw; [done|]. cbn. destruct i as [|i].
  - injection Hi as ->. rewrite (proj2 (Z.leb_gt v w)) by lia.
    assert (List.filter (fun x => x <=? w) l = []) as ->; [|cbn; lia].
    clear -Hx Hw. induction Hx as [|y l Hy Hl IH]; [done|]. cbn. by rewrite (proj2 (Z.leb_gt y w)) by lia.
  - cbn in Hi. specialize (IH i Hi Hw). destruct (x <=? w); cbn; lia.
Qed.

(** The nearest-rank percentile: the smallest value that at least 95 percent of
    the values do not exceed. *)
Lemma p95_nearest_rank values :
  (values = [] /\ dashboardP95 values = None)
  \/ exists v, dashboardP95 values = Some v /\ v ∈ values
       /\ 95 * lenR values <= 100 * lenR (List.filter (fun x => x <=? v) values)
       /\ forall w, w < v -> 100 * lenR (List.filter (fun x => x <=? w) values) < 95 * lenR values.
Proof.
  destruct (decide (values = [])) as [->|Hne]; [by left|right].
  set (sorted := merge_sort Z.le values).
  assert (Hp : sorted ≡ₚ values) by apply merge_sort_Permutation.
  assert (Hs : StronglySorted Z.le sorted) by (apply StronglySorted_merge_sort; apply _).
  assert (Hn : lenR sorted = lenR values) by (by apply lenR_perm).
  assert (Hpos : 0 < lenR values) by (unfold lenR; destruct values; [done|cbn; lia]).
  set (idx := Z.quot (95 * lenR sorted + 99) 100).
  assert (Hidx : 95 * lenR sorted <= 100 * idx < 95 * lenR sorted + 100).
  { unfold idx. rewrite Z.quot_div_nonneg by lia. pose proof (Z.div_mod (95 * lenR sorted + 99) 100 ltac:(lia)).
    pose proof (Z.mod_pos_bound (95 * lenR sorted + 99) 100 ltac:(lia)). lia. }
  assert (1 <= idx <= lenR sorted) as Hr by lia.
  assert (exists v, sorted !! Z.to_nat (idx - 1) = Some v) as [v Hv].
  { destruct (lookup_lt_is_Some_2 sorted (Z.to_nat (idx - 1))) as [v Hv]; [unfold lenR in Hr; lia|eauto]. }
  exists v. split; [|split; [|split]].
  - unfold dashboardP95. fold sorted. change (Z.of_nat (List.length sorted)) with (lenR sorted). fold idx.
    rewrite (proj2 (Z.ltb_ge idx 1)), (proj2 (Z.ltb_ge (lenR sorted) idx)) by lia. by destruct values.
  - rewrite <- Hp. by eapply list_elem_of_lookup_2.
  - pose proof (count_le_sorted sorted _ v Hs Hv) as Hc.
    rewrite <- (lenR_perm _ _ (filter_perm (fun x => x <=? v) _ _ Hp)). unfold lenR in *. lia.
  - intros w Hw. pose proof (count_lt_sorted sorted _ v w Hs Hv Hw) as Hc.
    rewrite <- (lenR_perm _ _ (filter_perm (fun x => x <=? w) _ _ Hp)). unfold lenR in *. lia.
Qed.

(** ** Windows and buckets *)

(** A normalised query is normalised. *)
Lemma normalize_twice q clock q' :
  NormalizeDashboardQuery q clock clock = Ok q' -> NormalizeDashboardQuery q' clock clock = Ok q'.
Proof.
  unfold NormalizeDashboardQuery.
  set (range := if String.eqb (Range q) "" then "7d" else Range q).
  destruct (DashboardRangeValid range) eqn:Er; cbn [negb]; [|done].
  destruct (match q_AccountID q with Some id => id <=? 0 | None => false end) eqn:Ea; [done|].
  intros [= <-]. cbn [Range q_AccountID Now]. unfold UTC, IsZero.
  destruct (String.eqb_spec range "") as [E|E]; [by rewrite E in Er|]. rewrite Er, Ea. cbn [negb].
  f_equal. f_equal.
  destruct (Now q =? zero_time) eqn:E1; [destruct (clock =? zero_time) eqn:E2|]; by rewrite ?E1, ?E2, ?E1, ?E2.
Qed.

Lemma window_shape q clock s e b : DashboardWindow q clock = Ok (s, e, b) ->
  exists n, 0 < n /\ 0 < b /\ n * b <= 30 * 24 * Hour /\ e = s + n * b /\ dashboardBucketCount s e b = n.
Proof.
  assert (Hc : forall s n b, 0 < n -> 0 < b -> n * b <= 30 * 24 * Hour -> dashboardBucketCount s (s + n * b) b = n).
  { clear. intros s n b Hn Hb Hm. unfold dashboardBucketCount, After, Before, Add, Sub, Hour in *.
    rewrite (proj2 (Z.leb_gt b 0)), (proj2 (Z.ltb_lt s (s + n * b))) by nia. cbn [negb orb].
    replace (s + n * b - s) with (n * b) by lia.
    rewrite Z.min_r, Z.max_r by (unfold MaxInt64, MinInt64; nia).
    rewrite Z.quot_mul by lia. rewrite Z.ltb_irrefl. by rewrite (proj2 (Z.ltb_ge n 1)) by lia. }
  assert (Hc' : forall s e b n, e = s + n * b -> 0 < n -> 0 < b -> n * b <= 30 * 24 * Hour -> dashboardBucketCount s e b = n)
    by (intros s' e' b' n' ->; apply Hc).
  clear Hc. unfold DashboardWindow. destruct (NormalizeDashboardQuery q clock clock) as [q'|]; [|done].
  cbn [mbind result_bind]. unfold Add, Minute, Hour in *.
  repeat case_match; intros [= <- <- <-].
  - exists 60. split; [lia|]. split; [lia|]. split; [lia|]. split; [lia|]. apply (Hc' _ _ _ 60); lia.
  - exists 24. split; [lia|]. split; [lia|]. split; [lia|]. split; [lia|]. apply (Hc' _ _ _ 24); lia.
  - exists 28. split; [lia|]. split; [lia|]. split; [lia|]. split; [lia|]. apply (Hc' _ _ _ 28); lia.
  - exists 30. split; [lia|]. split; [lia|]. split; [lia|]. split; [lia|]. apply (Hc' _ _ _ 30); lia.
Qed.

(** The buckets are half-open intervals of equal length; the end of the window
    belongs to the last one. *)
Lemma bucket_index_spec s n b t : 0 < n -> 0 < b -> n * b <= 30 * 24 * Hour ->
  let i := dashboardBucketIndex t s (s + n * b) b n in
  if (s <=? t) && (t <=? s + n * b)
  then 0 <= i < n /\ (s + i * b <= t < s + (i + 1) * b \/ t = s + n * b /\ i = n - 1)
  else i = -1.
Proof.
  intros Hn Hb Hm. unfold dashboardBucketIndex, Before, After, Sub, Hour in *.
  destruct (Z.leb_spec s t) as [H1|H1]; cbn [andb]; [|by rewrite (proj2 (Z.ltb_lt t s)) by lia].
  rewrite (proj2 (Z.ltb_ge t s)) by lia.
  destruct (Z.leb_spec t (s + n * b)) as [H2|H2]; [|by rewrite (proj2 (Z.ltb_lt (s + n * b) t)) by lia].
  rewrite (proj2 (Z.ltb_ge (s + n * b) t)), (proj2 (Z.leb_gt b 0)), (proj2 (Z.leb_gt n 0)) by lia. cbn [orb].
  destruct (Z.eqb_spec t (s + n * b)) as [->|Hne]; [split; [lia|by right]|].
  rewrite Z.min_r, Z.max_r by (unfold MaxInt64, MinInt64; nia). rewrite Z.quot_div_nonneg by lia.
  pose proof (Z.div_mod (t - s) b ltac:(lia)). pose proof (Z.mod_pos_bound (t - s) b ltac:(lia)).
  assert (0 <= (t - s) / b < n) as Hi by nia.
  rewrite (proj2 (Z.ltb_ge _ 0)), (proj2 (Z.leb_gt n _)) by lia. split; [lia|]. left. nia.
Qed.

Lemma sum_alter i x l : (i < List.length l)%nat -> sum_Z (alter (fun y => y + x) i l) = sum_Z l + x.
Proof.
  revert i. induction l as [|y l IH]; intros [|i] Hi; cbn in *; try lia.
  unfold sum_Z, alter in *. rewrite IH by lia. lia.
Qed.

(** Summing over the buckets is summing over the window. *)
Lemma sum_buckets start end_ b (g : Row -> Z) l :
  (forall r, row_index start end_ b r < buckets start end_ b) ->
  sum_Z (series start end_ b (fun k => sum_Z (g <$> k)) l) = sum_Z (g <$> shown start end_ b l).
Proof.
  intros Hlt. induction l as [|r l IH] using rev_ind.
  - unfold series, bucket. cbn. generalize (seq 0 (Z.to_nat (buckets start end_ b))). intros q.
    unfold sum_Z in *. induction q; cbn in *; lia.
  - rewrite shown_snoc. destruct (Z.ltb_spec (row_index start end_ b r) 0) as [Hr|Hr].
    + by rewrite series_same.
    + rewrite (series_snoc start end_ b _ (fun y => y + g r)); [|done|].
      * rewrite sum_alter, IH, fmap_app, sum_Z_app; [cbn; lia|].
        unfold series. rewrite length_fmap, length_seq. specialize (Hlt r). lia.
      * intros k. rewrite fmap_app, sum_Z_app. cbn. lia.
Qed.

(** ** The dashboard of the repository *)

Definition nearest_rank (values : list Z) (v : Z) : Prop :=
  v ∈ values /\ 95 * lenR values <= 100 * lenR (List.filter (fun x => x <=? v) values)
  /\ forall w, w < v -> 100 * lenR (List.filter (fun x => x <=? w) values) < 95 * lenR values.

Lemma ones_lenR {A} (l : list A) : sum_Z ((fun _ => 1) <$> l) = lenR l.
Proof. unfold lenR. induction l as [|x l IH]; [done|]. cbn in *. unfold sum_Z in *. lia. Qed.

Section contract.
Context `{RecordSQL} (huge : float64 -> Z) (delivered : list Row -> list Row).


End contract.
