(* ===== verification/UsageRefresher.v ===== *)
(** * UsageRefresher: reading the quota windows of the OAuth accounts
      (internal/oauth/usage_refresher.go, and [FetchUsage] and
       [ProbeResetAnchor] of internal/provider/openai/client.go)

    A pass asks, for every active OAuth account, for a fresh token
    ([OAuthRefresh]), fetches the usage of the account, sends at most one
    probe that anchors its rolling windows, and stores the snapshot
    ([Store]).  The network is an argument, for each account of the pass. *)

From S2P Require Import Prelude GoLib GoURL GoHTTP GoStrings GoJSON GoAny GoBufio Errors Account Engine.
From S2P Require Import Store OAuthFlow OAuthRefresh Usage CodexRequest Bridges Forwarder.

Module refresher.
Import usage.

(** ** The answer of the usage endpoint *)

Record UsageWindow := mkWindow { UsedPercent : float64; LimitWindowSeconds : option Z; ResetAt : option Z }.
Record UsageRateLimit := mkRateLimit { PrimaryWindow : option UsageWindow; SecondaryWindow : option UsageWindow }.
(** [UsageResponse] has the one field [rate_limit]. *)
Definition UsageResponse := option UsageRateLimit.

Definition dec_float (v : json) (old : float64) : option float64 :=
  match v with JNull => Some old | JNum lit => ParseFloat lit | _ => None end.

Definition no_window : UsageWindow := mkWindow f64_zero None None.
Definition window_field (k : string) (v : json) (w : UsageWindow) : option UsageWindow :=
  if key_is "used_percent" k then
    x ← dec_float v (UsedPercent w); Some (mkWindow x (LimitWindowSeconds w) (ResetAt w))
  else if key_is "limit_window_seconds" k then
    x ← dec_intp v (LimitWindowSeconds w); Some (mkWindow (UsedPercent w) x (ResetAt w))
  else if key_is "reset_at" k then
    x ← dec_intp v (ResetAt w); Some (mkWindow (UsedPercent w) (LimitWindowSeconds w) x)
  else Some w.
Definition dec_window : json -> option UsageWindow -> option (option UsageWindow) :=
  dec_ptr (dec_struct window_field) no_window.

Definition rate_limit_field (k : string) (v : json) (r : UsageRateLimit) : option UsageRateLimit :=
  if key_is "primary_window" k then
    x ← dec_window v (PrimaryWindow r); Some (mkRateLimit x (SecondaryWindow r))
  else if key_is "secondary_window" k then
    x ← dec_window v (SecondaryWindow r); Some (mkRateLimit (PrimaryWindow r) x)
  else Some r.
Definition usage_response_field (k : string) (v : json) (u : UsageResponse) : option UsageResponse :=
  if key_is "rate_limit" k then dec_ptr (dec_struct rate_limit_field) (mkRateLimit None None) v u else Some u.

(** [json.NewDecoder(body).Decode(&usage)]: the first value of the stream. *)
Definition decode_usage (body : string) : option UsageResponse :=
  p ← parse_value maxNestingDepth (skip_ws body); dec_struct usage_response_field (fst p) None.

(** ** Is the next reset fixed? *)

Definition resetAnchorTolerance : duration := Minute.

Definition usageWindowFixed (w : option UsageWindow) (now : time) : bool :=
  match w with
  | None => false
  | Some w =>
      if f64_lt f64_zero (UsedPercent w) then true
      else match ResetAt w, LimitWindowSeconds w with
           | Some reset, Some limit =>
               let period := wrap64 (limit * Second) in
               let nominalReset := Add (Add now period) (- resetAnchorTolerance) in
               After nominalReset (Unix reset)
           | _, _ => false
           end
  end.

Definition usageResetFixed (usage : option UsageResponse) (now : time) : bool :=
  match usage with
  | Some (Some rl) =>
      if isSome (PrimaryWindow rl) && negb (usageWindowFixed (PrimaryWindow rl) now) then false
      else negb (isSome (SecondaryWindow rl) && negb (usageWindowFixed (SecondaryWindow rl) now))
  | _ => false
  end.

Definition unixToTime (epochSeconds : option Z) : option time := Unix <$> epochSeconds.

(** What a pass stores: an absent window leaves its columns NULL. *)
Definition usage_snapshot (usage : UsageResponse) : UsageSnapshot :=
  let p := usage ≫= PrimaryWindow in
  let s := usage ≫= SecondaryWindow in
  mkUsageSnapshot (UsedPercent <$> p) (UsedPercent <$> s)
    (p ≫= (fun w => unixToTime (ResetAt w))) (s ≫= (fun w => unixToTime (ResetAt w)))
    (p ≫= LimitWindowSeconds) (s ≫= LimitWindowSeconds).

(** ** The two requests *)

Record request := mkReq { q_Method : string; q_URL : string; q_Headers : Header; q_Body : string }.

(** What the client sends, through the proxy or not. *)
Inductive sent := Fetch (proxied : bool) (r : request) | Probe (proxied : bool) (r : request).

Section client.
(** The exchange of each request, and the client's configuration. *)
Context (Do : sent -> result error forwarder.Response) (gunzip : reader -> result error reader)
  (proxy_configured : bool) (codexBackendBaseURL : string).

Definition bearer (token : string) : Header :=
  HeaderSet (HeaderSet [] "Authorization" ("Bearer " +:+ token)) "User-Agent" CodexCLIUserAgent.

Definition usage_request (accessToken chatGPTAccountID : string) : request :=
  let h := bearer accessToken in
  mkReq "GET" (codexBackendBaseURL +:+ "/wham/usage")
    (if String.eqb chatGPTAccountID "" then h else HeaderSet h "chatgpt-account-id" chatGPTAccountID) "".

Definition FetchUsage (accessToken chatGPTAccountID : string) (useProxy : bool)
    : list sent * result error UsageResponse :=
  match forwarder.httpClientForUseProxy proxy_configured useProxy with
  | Err e => ([], Err (Wrapf "resolve egress: %w" [] e))
  | Ok proxied =>
      let req := usage_request accessToken chatGPTAccountID in
      if negb (isSome (Parse (q_URL req))) then ([], Err (Wrapf "create usage request: %w" [] (New "parse error")))
      else
        ([Fetch proxied req],
         match Do (Fetch proxied req) with
         | Err e => Err (Wrapf "do usage request: %w" [] e)
         | Ok resp =>
             match forwarder.decompressResponse gunzip resp with
             | Err e => Err (Wrapf "decompress usage response: %w" [] e)
             | Ok resp =>
                 if negb (forwarder.rs_Status resp =? 200) then
                   Err (Errorf "usage request failed with status %d" [FInt (forwarder.rs_Status resp)])
                 else match decode_usage (rd_data (forwarder.rs_Body resp)) with
                      | None => Err (Wrapf "decode usage response: %w" [] (New "invalid usage"))
                      | Some u => Ok u
                      end
             end
         end)
  end.

Definition codexBaseURL : string :=
  let base := TrimRightByte "/"%char (TrimSpace codexBackendBaseURL) in
  if String.eqb base "" then ChatGPTBackendBaseURL else base.

Definition resetAnchorProbeInput : string := dq "{'model':'gpt-5.6-luna','input':'hi'}".

Definition probe_request (accessToken : string) (account : UpstreamAccount) (body : string) : request :=
  let h := HeaderSet [] "Authorization" ("Bearer " +:+ accessToken) in
  let h := HeaderSet h "Content-Type" "application/json" in
  let h := HeaderSet h "User-Agent" CodexCLIUserAgent in
  let h := HeaderSet h "Accept" "text/event-stream" in
  let h := HeaderSet h "Accept-Encoding" "identity" in
  mkReq "POST" (TrimRightByte "/"%char codexBaseURL +:+ "/codex/responses")
    (match ChatGPTAccountID account with
     | Some id => if String.eqb id "" then h else HeaderSet h "chatgpt-account-id" id
     | None => h end) body.

(** Only whether the probe failed is used, for the log. *)
Definition ProbeResetAnchor (account : UpstreamAccount) (accessToken : string) : list sent :=
  match codex.normalizeCodexResponsesBody resetAnchorProbeInput with
  | Err _ => []
  | Ok (body, _) =>
      let req := probe_request accessToken account body in
      if negb (isSome (Parse (q_URL req))) then []
      else match forwarder.httpClientForUseProxy proxy_configured (UseProxy account) with
           | Err _ => []
           | Ok proxied => [Probe proxied req]
           end
  end.

End client.

(** ** A pass *)

(** What the world does while one account is handled. *)
Record account_env := mkEnv {
  e_refresh : nat -> refresh_env;
  e_do : sent -> result error forwarder.Response;
  e_now : time;           (* when the windows are judged *)
  e_stored : time }.      (* when the snapshot is written *)

Section pass.
Context {DB : Type} `{XormEngine DB} `{!Others DB}.
Context (gunzip : reader -> result error reader) (proxy_configured : bool) (codexBackendBaseURL : string).

(** What was sent, and the table afterwards. *)
Definition refreshOne (env : account_env) (acc : UpstreamAccount) (db : DB) : list sent * DB :=
  match RefreshIfStale (e_refresh env) (Some acc) db with
  | (Err _, db1) => ([], db1)
  | (Ok (token, _), db1) =>
      let token := default "" token in
      match FetchUsage (e_do env) gunzip proxy_configured codexBackendBaseURL token
              (default "" (ChatGPTAccountID acc)) (UseProxy acc) with
      | (out, Err _) => (out, db1)
      | (out, Ok usage) =>
          let probe := if usageResetFixed (Some usage) (e_now env) then []
                       else ProbeResetAnchor proxy_configured codexBackendBaseURL acc token in
          (out ++ probe, snd (AccountRepo.UpdateUsage (e_stored env) (ID acc) (usage_snapshot usage) db1))
      end
  end.

Fixpoint refresh_accounts (envs : nat -> account_env) (i : nat) (l : list UpstreamAccount) (db : DB)
    : list (Z * sent) * DB :=
  match l with
  | [] => ([], db)
  | acc :: l' =>
      if negb (IsOAuth acc) then refresh_accounts envs (S i) l' db
      else
        let '(out, db1) := refreshOne (envs i) acc db in
        let '(rest, db2) := refresh_accounts envs (S i) l' db1 in
        (((fun x => (ID acc, x)) <$> out) ++ rest, db2)
  end.

(** Each request with the account it was sent for. *)
Definition refreshAll (envs : nat -> account_env) (db : DB) : list (Z * sent) * DB :=
  match AccountRepo.ListActive db with
  | (Err _, db1) => ([], db1)
  | (Ok l, db1) => refresh_accounts envs 0 l db1
  end.

End pass.

(** ** When a probe is sent *)

(** The period of every present window fits a duration. *)
Definition window_in_range (w : option UsageWindow) : Prop :=
  forall x l, w = Some x -> LimitWindowSeconds x = Some l -> int64_ok (l * Second).
Definition in_range (u : UsageResponse) : Prop :=
  forall r, u = Some r -> window_in_range (PrimaryWindow r) /\ window_in_range (SecondaryWindow r).

(** A present window whose reset still slides. *)
Definition rolling (now : time) (w : UsageWindow) : Prop :=
  f64_lt f64_zero (UsedPercent w) = false
  /\ forall reset l, ResetAt w = Some reset -> LimitWindowSeconds w = Some l ->
       Add now (l * Second) - Minute <= Unix reset.
Definition present (u : UsageResponse) (w : UsageWindow) : Prop :=
  exists r, u = Some r /\ (PrimaryWindow r = Some w \/ SecondaryWindow r = Some w).

Lemma window_fixed_spec now w : window_in_range (Some w) ->
  usageWindowFixed (Some w) now = false <-> rolling now w.
Proof.
  intros Hr. unfold usageWindowFixed, rolling. destruct (f64_lt f64_zero (UsedPercent w)); [naive_solver|].
  destruct (ResetAt w) as [reset|]; [|naive_solver]. destruct (LimitWindowSeconds w) as [l|] eqn:El; [|naive_solver].
  rewrite wrap64_id by (by apply (Hr w l)). unfold After, Add, resetAnchorTolerance. rewrite Z.ltb_ge. split.
  - intros Hl. split; [done|]. intros ? ? [= <-] [= <-]. lia.
  - intros [_ Hl]. specialize (Hl _ _ eq_refl eq_refl). lia.
Qed.

(** A pass probes an account exactly when the answer has no rate limit or
    has a window whose reset still slides; so the nominal reset of an idle
    window is probed, up to a minute of clock skew, and a window that a probe
    anchored is not probed again once a minute has passed. *)
Theorem probe_policy now u : in_range u ->
  (usageResetFixed (Some u) now = false <-> u = None \/ exists w, present u w /\ rolling now w)
  /\ (forall anchored, Add anchored Minute < now -> u <> None ->
       (forall w, present u w -> f64_lt f64_zero (UsedPercent w) = true
          \/ exists reset l, ResetAt w = Some reset /\ LimitWindowSeconds w = Some l
               /\ Unix reset <= Add anchored (l * Second)) ->
       usageResetFixed (Some u) now = true).
Proof.
  intros Hr.
  assert (H1 : usageResetFixed (Some u) now = false <-> u = None \/ exists w, present u w /\ rolling now w).
  { unfold usageResetFixed, present. destruct u as [r|]; [|naive_solver]. destruct (Hr r eq_refl) as [Hp Hs].
    destruct (PrimaryWindow r) as [p|] eqn:Ep; cbn [isSome andb].
    - pose proof (window_fixed_spec now p Hp) as Wp.
      destruct (usageWindowFixed (Some p) now) eqn:Fp; cbn [negb]; [|naive_solver].
      destruct (SecondaryWindow r) as [q|] eqn:Eq; cbn [isSome andb negb].
      + pose proof (window_fixed_spec now q Hs) as Wq. destruct (usageWindowFixed (Some q) now) eqn:Fq; cbn; naive_solver.
      + naive_solver.
    - destruct (SecondaryWindow r) as [q|] eqn:Eq; cbn [isSome andb negb].
      + pose proof (window_fixed_spec now q Hs) as Wq. destruct (usageWindowFixed (Some q) now) eqn:Fq; cbn; naive_solver.
      + naive_solver. }
  split; [exact H1|]. intros T HT Hu Hw.
  destruct (usageResetFixed (Some u) now) eqn:E; [done|].
  destruct (proj1 H1 eq_refl) as [?|(w & Hpw & Hnu & Hroll)]; [done|].
  destruct (Hw w Hpw) as [Hused|(reset & l & Er & El & Hle)]; [congruence|].
  specialize (Hroll reset l Er El). unfold Add in *. lia.
Qed.

(** ** What a pass changes *)

Section footprint.
Context {DB : Type} `{XormLaws DB} `{!Others DB}.
Hypothesis Hquiet : quiet.
Import AccountRepo.

(** An operation that leaves every other row alone. *)
Definition only {A} (id : Z) (m : M DB A) : Prop :=
  forall db r db', m db = (r, db') -> forall k, k <> id -> eng_rows db' !! k = eng_rows db !! k.

Lemma only_ret {A} id (a : A) : only id (mret a).
Proof. intros db r db' [= _ <-]. done. Qed.
Lemma only_fail {A} id e : only (A := A) id (fail e).
Proof. intros db r db' [= _ <-]. done. Qed.
Lemma only_lift {A} id (f : DB -> result error A) : only id (lift f).
Proof. intros db r db' [= _ <-]. done. Qed.
Lemma only_interleave id i : only id (interleave i).
Proof. intros db r db' [= _ <-] k _. apply (f_equal (lookup k)), Hquiet. Qed.
Lemma only_bind {A B} id (m : M DB A) (f : A -> M DB B) : only id m -> (forall a, only id (f a)) -> only id (m ≫= f).
Proof.
  intros Hm Hf db r db'. unfold mbind, M_bind. destruct (m db) as [[a|e] db1] eqn:E.
  - intros E' k Hk. rewrite (Hf a _ _ _ E' k Hk). by eapply Hm.
  - intros [= _ <-] k Hk. by eapply Hm.
Qed.
Lemma only_wrap {A} id w (m : M DB A) : only id m -> only id (wrap_err w m).
Proof.
  intros Hm db r db'. unfold wrap_err. destruct (m db) as [[a|e] db1] eqn:E; intros [= _ <-] k Hk; by eapply Hm.
Qed.
Lemma only_update id p f : (forall a, ID (f a) = ID a) -> (forall a, p a = true -> ID a = id) -> only id (eng_update p f).
Proof.
  intros Hf Hp db r db' Hu k Hk. destruct r as [n|e]; [|by rewrite (update_err _ _ _ _ _ Hu)].
  destruct (update_ok _ _ _ _ _ Hf Hu) as [Ht _]. destruct (Ht k) as [t Htk]. rewrite Htk.
  destruct (eng_rows db !! k) as [a|] eqn:Ea; [|done]. cbn.
  destruct (p a) eqn:Epa; [|done]. apply Hp in Epa. pose proof (rows_id _ _ _ Ea). congruence.
Qed.

Hint Resolve only_ret only_fail only_lift only_interleave : core.

Ltac footprint :=
  repeat first
    [ done | apply only_ret | apply only_fail | apply only_lift | apply only_interleave
    | apply only_bind; [|intros ?] | apply only_wrap
    | apply only_update; [done | intros ?; try (destruct (cp_ExpectedLastRefresh _)); rewrite ?andb_true_iff, ?Z.eqb_eq; tauto]
    | match goal with
      | |- only _ (match ?x with _ => _ end) => destruct x
      | |- only _ (if ?x then _ else _) => destruct x
      | |- only _ (let _ := _ in _) => cbv zeta
      end ].

Lemma only_UpdateUsage now id s : only id (UpdateUsage now id s).
Proof. unfold UpdateUsage, by_id. footprint. Qed.
Lemma only_GetByID k id : only k (GetByID id).
Proof. unfold GetByID. footprint. Qed.
Lemma only_miss {A} k id c : only k (credentialUpdateMissReason (A := A) id c).
Proof. unfold credentialUpdateMissReason. footprint. Qed.
Lemma only_UpdateCredentials id p : only id (UpdateCredentials id p).
Proof. unfold UpdateCredentials, live. footprint; try apply only_miss. Qed.
Lemma only_UpdateStatusIfCurrent id st t : only id (UpdateStatusIfCurrent id st t).
Proof. unfold UpdateStatusIfCurrent. footprint. Qed.

Lemma only_refreshIfStaleOnce e acct id : ID acct = id -> only id (refreshIfStaleOnce e (Some acct)).
Proof.
  intros <-. unfold refreshIfStaleOnce, refresh_flight, handleRefreshFailure.
  footprint; first [apply only_UpdateStatusIfCurrent | apply only_UpdateCredentials].
Qed.

Lemma only_reload id : only id (reloadRefreshConflictAccount id).
Proof. unfold reloadRefreshConflictAccount. footprint. Qed.

Lemma reload_id id db a db' : reloadRefreshConflictAccount id db = (Ok a, db') -> ID a = id.
Proof.
  unfold reloadRefreshConflictAccount, GetByID, mbind, M_bind, wrap_err, lift.
  destruct (eng_get (by_id id) db) as [[x|]|e] eqn:E; [|done..].
  apply get_some in E as [_ Hx]. apply Z.eqb_eq in Hx. cbn. destruct (negb _); [done|]. by intros [= <- <-].
Qed.

Lemma only_refresh_loop fuel : forall attempt e acct id, ID acct = id -> only id (refresh_loop fuel attempt e (Some acct)).
Proof.
  induction fuel as [|fuel IH]; intros attempt e acct id Hid db r db'; cbn [refresh_loop]; [by intros [= _ <-]|].
  destruct (refreshIfStaleOnce (e attempt) (Some acct) db) as [[x|err] db1] eqn:E.
  - intros [= _ <-]. by eapply only_refreshIfStaleOnce.
  - pose proof (only_refreshIfStaleOnce (e attempt) acct id Hid _ _ _ E) as H1.
    destruct (negb _); [by intros [= _ <-]|]. destruct (0 <? attempt)%nat; [by intros [= _ <-]|].
    change (default 0 (ID <$> Some acct)) with (ID acct). rewrite Hid.
    destruct (reloadRefreshConflictAccount id db1) as [[latest|e2] db2] eqn:E2.
    + intros Hl k Hk. rewrite (IH _ _ _ id (reload_id _ _ _ _ E2) _ _ _ Hl k Hk), (only_reload _ _ _ _ E2 k Hk). by apply H1.
    + intros [= _ <-] k Hk. rewrite (only_reload _ _ _ _ E2 k Hk). by apply H1.
Qed.

Context (gunzip : reader -> result error reader) (proxy_configured : bool) (codexBackendBaseURL : string).

(** A request of an account carries its id and the token it obtained, and takes
    the way its proxy switch asks for. *)
Definition own_request (acc : UpstreamAccount) (token : string) (x : sent) : Prop :=
  x = Fetch (UseProxy acc) (usage_request codexBackendBaseURL token (default "" (ChatGPTAccountID acc)))
  \/ exists body, x = Probe (UseProxy acc) (probe_request codexBackendBaseURL token acc body).
Definition is_probe (x : sent) : bool := match x with Probe _ _ => true | _ => false end.

Lemma client_way use_proxy p : forwarder.httpClientForUseProxy proxy_configured use_proxy = Ok p -> p = use_proxy.
Proof. unfold forwarder.httpClientForUseProxy. destruct use_proxy; cbn; [destruct proxy_configured|]; congruence. Qed.

Lemma fetch_own net token acc out r :
  FetchUsage net gunzip proxy_configured codexBackendBaseURL token (default "" (ChatGPTAccountID acc)) (UseProxy acc) = (out, r) ->
  out = [] \/ out = [Fetch (UseProxy acc) (usage_request codexBackendBaseURL token (default "" (ChatGPTAccountID acc)))].
Proof.
  unfold FetchUsage. destruct (forwarder.httpClientForUseProxy _ _) as [p|e] eqn:E; [|intros [= <- _]; by left].
  apply client_way in E as ->. destruct (negb _); intros [= <- _]; [by left|by right].
Qed.

Lemma probe_own token acc : let out := ProbeResetAnchor proxy_configured codexBackendBaseURL acc token in
  out = [] \/ exists body, out = [Probe (UseProxy acc) (probe_request codexBackendBaseURL token acc body)].
Proof.
  unfold ProbeResetAnchor. destruct (codex.normalizeCodexResponsesBody _) as [[body b]|e]; [|by left].
  destruct (negb _); [by left|]. destruct (forwarder.httpClientForUseProxy _ _) as [p|e] eqn:E; [|by left].
  apply client_way in E as ->. right. eauto.
Qed.

Lemma refreshOne_spec env acc db out db' :
  refreshOne gunzip proxy_configured codexBackendBaseURL env acc db = (out, db') ->
  (forall k, k <> ID acc -> eng_rows db' !! k = eng_rows db !! k)
  /\ (List.length out <= 2 /\ List.length (List.filter is_probe out) <= 1)%nat
  /\ (out = [] \/ exists token fallback db1, RefreshIfStale (e_refresh env) (Some acc) db = (Ok (token, fallback), db1)
       /\ Forall (own_request acc (default "" token)) out).
Proof.
  unfold refreshOne. destruct (RefreshIfStale (e_refresh env) (Some acc) db) as [[[token fb]|e] db1] eqn:E.
  - pose proof (only_refresh_loop 2 0 (e_refresh env) acc _ eq_refl _ _ _ E) as H1.
    destruct (FetchUsage _ _ _ _ _ _ _) as [fetched r] eqn:Ef. apply fetch_own in Ef as Hf.
    assert (Ho : Forall (own_request acc (default "" token)) fetched).
    { destruct Hf as [->| ->]; repeat constructor. }
    assert (Hlen : (List.length fetched <= 1 /\ List.length (List.filter is_probe fetched) = 0)%nat).
    { destruct Hf as [->| ->]; cbn; lia. }
    destruct r as [u|e].
    + set (probe := if usageResetFixed (Some u) (e_now env) then []
                    else ProbeResetAnchor proxy_configured codexBackendBaseURL acc (default "" token)).
      assert (probe = [] \/ exists body, probe = [Probe (UseProxy acc) (probe_request codexBackendBaseURL (default "" token) acc body)]) as Hp.
      { unfold probe. destruct (usageResetFixed _ _); [by left|]. apply probe_own. }
      clearbody probe. intros [= <- <-].
      split; [|split].
      * intros k Hk. rewrite (only_UpdateUsage (e_stored env) (ID acc) (usage_snapshot u) _ _ _ (surjective_pairing _) k Hk).
        by apply H1.
      * rewrite List.filter_app, !length_app. destruct Hp as [Hp|[body Hp]]; rewrite Hp; cbn [List.length List.filter is_probe]; lia.
      * right. exists token, fb, db1. split; [done|]. apply Forall_app. split; [done|].
        destruct Hp as [->|[body ->]]; [constructor|]. apply Forall_cons. split; [right; by exists body|constructor].
    + intros [= <- <-]. split; [done|]. split; [lia|]. right. exists token, fb, db1. done.
  - pose proof (only_refresh_loop 2 0 (e_refresh env) acc _ eq_refl _ _ _ E) as H1.
    intros [= <- <-]. split; [done|]. split; [cbn; lia|by left].
Qed.

Lemma refresh_accounts_spec envs l : forall i db out db',
  refresh_accounts gunzip proxy_configured codexBackendBaseURL envs i l db = (out, db') ->
  (forall k, (forall a, a ∈ l -> IsOAuth a = true -> ID a <> k) -> eng_rows db' !! k = eng_rows db !! k)
  /\ (forall id x, (id, x) ∈ out -> exists a j token fallback db1 db2, a ∈ l /\ ID a = id /\ IsOAuth a = true
        /\ RefreshIfStale (e_refresh (envs j)) (Some a) db1 = (Ok (token, fallback), db2)
        /\ own_request a (default "" token) x).
Proof.
  induction l as [|acc l IH]; intros i db out db'; cbn [refresh_accounts].
  - intros [= <- <-]. split; [done|]. intros id x Hx. by apply elem_of_nil in Hx.
  - destruct (IsOAuth acc) eqn:Eo; cbn [negb].
    + destruct (refreshOne _ _ _ (envs i) acc db) as [o db1] eqn:E1.
      destruct (refresh_accounts _ _ _ envs (S i) l db1) as [rest db2] eqn:E2. intros [= <- <-].
      destruct (refreshOne_spec _ _ _ _ _ E1) as (H1 & _ & Hown). destruct (IH _ _ _ _ E2) as [H2 Hrest]. split.
      * intros k Hk. rewrite H2, H1; [done| |]; [|intros a Ha; apply Hk; set_solver].
        intros ->. apply (Hk acc); [set_solver|done|done].
      * intros id x [Hx|Hx]%elem_of_app.
        -- apply list_elem_of_fmap in Hx as (y & [= -> ->] & Hy).
           destruct Hown as [->|(token & fb & d & Er & Hf)]; [set_solver|].
           exists acc, i, token, fb, db, d. split; [set_solver|]. split; [done|]. split; [done|]. split; [done|].
           by eapply Forall_forall in Hf.
        -- destruct (Hrest id x Hx) as (a & j & token & fb & d1 & d2 & Ha & Hid & Hoa & Er & Hr).
           exists a, j, token, fb, d1, d2. split; [set_solver|done].
    + intros E2. destruct (IH _ _ _ _ E2) as [H2 Hrest]. split.
      * intros k Hk. apply H2. intros a Ha. apply Hk. set_solver.
      * intros id x Hx. destruct (Hrest id x Hx) as (a & j & token & fb & d1 & d2 & Ha & R).
        exists a, j, token, fb, d1, d2. split; [set_solver|done].
Qed.


End footprint.

End refresher.
