(* ===== verification/Playground.v ===== *)
(** * Playground: one request of the admin on an account
      (internal/core/playground_service.go, internal/provider/openai/playground.go
       and the answer of internal/api/playgroundapi/handler.go)

    [Run] validates, selects an account, sends at most one request upstream
    and records the run.  The network, the clock, the request id and the ids
    of converted completions are arguments. *)

From S2P Require Import Prelude GoLib GoURL GoHTTP GoStrings GoJSON GoAny GoBufio Errors Account Engine Store Selector.
From S2P Require Import GatewayRoutes Usage CodexRequest Collector ChatRequest ChatResponse Redaction Bridges Forwarder Proxy Records Dashboard UsageRefresher.

Module playground.
Import usage.

(** ** Requests *)

Definition PlaygroundPromptLimitChars : Z := 16000.
Definition PlaygroundDefaultMaxOutputTokens : Z := 1024.
Definition PlaygroundMaxOutputTokens : Z := 4096.
Definition PlaygroundWaitLimitMS : Z := 30000.
Definition PlaygroundResponseReadLimitBytes : Z := 2 ^ 20.
Definition PlaygroundProviderMessageMaxChars : Z := 512.
Definition PlaygroundRunPath : string := "/api/admin/playground/run".
Definition playgroundClientClosedStatus : Z := 499.

Definition PlaygroundSelectionAuto : string := "auto".
Definition PlaygroundSelectionAccount : string := "account".
Definition PlaygroundEndpointResponses : string := "responses".
Definition PlaygroundEndpointChatCompletions : string := "chat_completions".

Record RunRequest := mkRun {
  SelectionMode : string; Endpoint : string; AccountID : option Z; SessionKey : option string;
  Model : string; Text : string; MaxOutputTokens : option Z; IncludeRawResponse : bool }.

#[export] Instance RunRequest_eta : Eta RunRequest := fun r =>
  mkRun (SelectionMode r) (Endpoint r) (AccountID r) (SessionKey r) (Model r) (Text r) (MaxOutputTokens r)
    (IncludeRawResponse r).

Definition EffectiveMaxOutputTokens (r : RunRequest) : Z :=
  default PlaygroundDefaultMaxOutputTokens (MaxOutputTokens r).
Definition EffectiveEndpoint (r : RunRequest) : string :=
  if String.eqb (Endpoint r) "" then PlaygroundEndpointResponses else Endpoint r.

(** ** Errors *)

Record AccountSummary := mkSummary {
  s_ID : Z; s_Name : string; s_Provider : string; s_AuthMethod : string; s_Status : string;
  s_Email : option string; s_PlanType : option string }.

Definition accountSummary (a : UpstreamAccount) : AccountSummary :=
  mkSummary (ID a) (Name a) (Provider a) (AuthMethod a) (Status a) (Email a) (PlanType a).

(** What the typed errors of an attempt have in common. *)
Record attempt := mkAttempt {
  at_AccountID : Z; at_Account : option AccountSummary; at_Endpoint : string; at_RequestBody : string }.

Inductive run_error :=
  | ValidationErr (Field Reason : string)
  | NoActiveAccount
  | AccountUnavailable (id : Z) (Reason : string)
  | UpstreamErr (a : attempt) (status : Z) (body : string) (ProviderError ProviderMessage : option string)
  | ConnectErr (a : attempt) (Cause : error)
  | TimeoutErr (a : attempt) (WaitLimitMS : Z)
  | MalformedErr (a : attempt) (Reason body : string)
  | TooLargeErr (a : attempt) (LimitBytes : Z)
  | OtherErr (e : error).
Abbreviation res := (result run_error).

(** [errors.Is(err, context.Canceled)]: of the typed errors only a failed
    connection unwraps to its cause. *)
Definition is_canceled (e : run_error) : bool :=
  match e with ConnectErr _ c | OtherErr c => errors_Is c Canceled | _ => false end.

(** ** Validation *)

Definition rune_bounds (lo hi : Z) (s : string) : bool :=
  (lo <=? RuneCountInString s) && (RuneCountInString s <=? hi).

Definition Validate (r : RunRequest) : res RunRequest :=
  let req := mkRun (SelectionMode r) (EffectiveEndpoint r) (AccountID r) (TrimSpace <$> SessionKey r)
               (TrimSpace (Model r)) (TrimSpace (Text r)) (MaxOutputTokens r) (IncludeRawResponse r) in
  let mode :=
    if String.eqb (SelectionMode req) PlaygroundSelectionAuto then
      match AccountID req with
      | Some _ => Some (ValidationErr "account_id" "must be omitted for automatic selection") | None => None end
    else if String.eqb (SelectionMode req) PlaygroundSelectionAccount then
      match AccountID req with
      | Some id => if id <=? 0 then Some (ValidationErr "account_id" "positive account_id is required") else None
      | None => Some (ValidationErr "account_id" "positive account_id is required") end
    else Some (ValidationErr "selection_mode" "must be auto or account") in
  match mode with
  | Some e => Err e
  | None =>
      if negb (existsb (String.eqb (Endpoint req)) [PlaygroundEndpointResponses; PlaygroundEndpointChatCompletions])
      then Err (ValidationErr "endpoint" "must be responses or chat_completions")
      else if match SessionKey req with Some k => negb (rune_bounds 1 128 k) | None => false end
      then Err (ValidationErr "session_key" "must be 1..128 characters")
      else if negb (rune_bounds 1 128 (Model req)) then Err (ValidationErr "model" "must be 1..128 characters")
      else if negb (rune_bounds 1 PlaygroundPromptLimitChars (Text req))
      then Err (ValidationErr "text" "must be 1..16000 characters")
      else if match MaxOutputTokens req with
              | Some n => (n <? 1) || (PlaygroundMaxOutputTokens <? n) | None => false end
      then Err (ValidationErr "max_output_tokens" "must be 1..4096")
      else Ok req
  end.

(** ** The upstream call *)

(** [None] is a panic. *)
Definition may_panic (A : Type) : Type := option (res A).

Definition BuildPlaygroundResponsesBody (model text : string) (maxOutputTokens : Z) : string :=
  Marshal (JObj ([("model", JStr model); ("input", JStr text); ("stream", JBool false)]
                 ++ if maxOutputTokens =? 0 then [] else [("max_output_tokens", JNum (Itoa maxOutputTokens))])).
Definition chat_fields (model text : string) (maxOutputTokens : Z) : list (string * json) :=
  [("model", JStr model); ("messages", JArr [JObj [("role", JStr "user"); ("content", JStr text)]]);
   ("stream", JBool false)]
  ++ (if maxOutputTokens =? 0 then [] else [("max_completion_tokens", JNum (Itoa maxOutputTokens))]).
Definition BuildPlaygroundChatCompletionsBody (model text : string) (maxOutputTokens : Z) : string :=
  Marshal (JObj (chat_fields model text maxOutputTokens)).

(** What goes over the wire, through the proxy or not. *)
Record sent := mkSent {
  x_Proxied : bool; x_Method : string; x_URL : string; x_Headers : Header; x_Body : string }.

(** [PlaygroundUpstreamResult]. *)
Record UpstreamResult := mkUpstream {
  StatusCode : Z; ResponseMode : string; UpstreamEndpoint : string; UpstreamRequestBody : string;
  up_Text : string; up_TextAvailable : bool; up_RawResponse : option obj; up_RawResponseAvailable : bool;
  up_OmittedReason : option string; Usage : gmap string Z }.

(** *** Reading the answer *)

Definition readPlaygroundResponseBody (body : reader) : res string :=
  let '(data, err) := read_limited body (PlaygroundResponseReadLimitBytes + 1) in
  match err with
  | Some e => Err (OtherErr (Wrapf "read playground response body: %w" [] e))
  | None =>
      if PlaygroundResponseReadLimitBytes <? lenZ data
      then Err (TooLargeErr (mkAttempt 0 None "" "") PlaygroundResponseReadLimitBytes) else Ok data
  end.

Definition decodePlaygroundJSON (body : string) : obj + string :=
  match Unmarshal_any body with
  | None => inr "invalid_json"
  | Some (AMap object) => inl object
  | Some _ => inr "unsafe_json"
  end.

Definition responseDiagnostic (body : string) : option string :=
  if String.eqb body "" then None
  else
    let value := TrimSpace (forwarder.take_limit 4096 (redaction.RedactCapturedBody body)) in
    if String.eqb value "" then None else Some value.

(** [playgroundTextValue.UnmarshalJSON] never fails. *)
Definition dec_text_value (v : json) (old : string) : option string :=
  Some match v with
       | JStr s => s
       | JNull => ""
       | JObj _ =>
           default old (dec_struct (fun k v old => if key_is "value" k then dec_string v old else Some old) v "")
       | _ => old
       end.

Definition dec_content : json -> string * string -> option (string * string) :=
  dec_struct (fun k v '(ty, text) =>
    if key_is "type" k then t ← dec_string v ty; Some (t, text)
    else if key_is "text" k then t ← dec_text_value v text; Some (ty, t)
    else Some (ty, text)).
Definition dec_output_item : json -> option (list (string * string)) -> option (option (list (string * string))) :=
  dec_struct (fun k v old => if key_is "content" k then dec_slice dec_content ("", "") v old else Some old).
Definition output_field (k : string) (v : json) (r : string * option (list (option (list (string * string)))))
    : option (string * option (list (option (list (string * string))))) :=
  if key_is "output_text" k then t ← dec_string v (fst r); Some (t, snd r)
  else if key_is "output" k then o ← dec_slice dec_output_item None v (snd r); Some (fst r, o)
  else Some r.

Definition nonempty_text (text : string) : string * bool :=
  if String.eqb text "" then ("", false) else (text, true).

Definition ExtractPlaygroundOutputText (body : string) : string * bool :=
  match Unmarshal_struct output_field ("", None) body with
  | None => ("", false)
  | Some (outputText, output) =>
      if negb (String.eqb outputText "") then (outputText, true)
      else
        let contents := List.concat (default [] <$> default [] output) in
        nonempty_text (concat_str
          (snd <$> List.filter (fun c => String.eqb (fst c) "" || String.eqb (fst c) "output_text") contents))
  end.

Definition dec_part : json -> string * string -> option (string * string) :=
  dec_struct (fun k v '(ty, text) =>
    if key_is "type" k then t ← dec_string v ty; Some (t, text)
    else if key_is "text" k then t ← dec_string v text; Some (ty, t)
    else Some (ty, text)).

(** The content is kept raw, so [null] is kept as well. *)
Definition playgroundChatContentText (raw : option json) : string :=
  match raw with
  | None | Some JNull => ""
  | Some (JStr text) => text
  | Some v =>
      match dec_slice dec_part ("", "") v None with
      | None => ""
      | Some parts =>
          concat_str (snd <$> List.filter (fun p => String.eqb (fst p) "" || String.eqb (fst p) "text")
                                (default [] parts))
      end
  end.

Definition dec_message : json -> option json -> option (option json) :=
  dec_struct (fun k v old => if key_is "content" k then Some (Some v) else Some old).
Definition dec_choice : json -> option json -> option (option json) :=
  dec_struct (fun k v old => if key_is "message" k then dec_message v old else Some old).

Definition ExtractPlaygroundChatOutputText (body : string) : string * bool :=
  match Unmarshal_struct
          (fun k v old => if key_is "choices" k then dec_slice dec_choice None v old else Some old) None body with
  | None => ("", false)
  | Some choices => nonempty_text (concat_str (playgroundChatContentText <$> default [] choices))
  end.

Definition extractPlaygroundText (endpoint body : string) : string * bool :=
  if String.eqb endpoint PlaygroundEndpointChatCompletions then ExtractPlaygroundChatOutputText body
  else ExtractPlaygroundOutputText body.

(** *** The call *)

Section client.
Context (Do : sent -> result error forwarder.Response) (ctx_err : option error) (wait_done : bool)
  (net_timeout : error -> bool) (gunzip : reader -> result error reader) (proxy_configured : bool)
  (codexBackendBaseURL : string) (completionID : string) (now : Z) (int_of_huge : float64 -> Z).

Definition wrap {A} (msg : string) (x : result error A) : res A :=
  match x with Ok a => Ok a | Err e => Err (OtherErr (Wrapf msg [] e)) end.

Definition trimmed (base path : string) : string := TrimRightByte "/"%char base +:+ path.
Definition codex_url : string := trimmed (refresher.codexBaseURL codexBackendBaseURL) "/codex/responses".

Definition buildPlaygroundUpstreamRequest (account : UpstreamAccount) (request : RunRequest) : may_panic (string * string) :=
  let endpoint := EffectiveEndpoint request in
  let max := EffectiveMaxOutputTokens request in
  if String.eqb endpoint PlaygroundEndpointResponses then
    let body := BuildPlaygroundResponsesBody (Model request) (Text request) max in
    Some (if IsOAuth account then
            '(body, _) ← wrap "build codex playground responses body: %w" (codex.normalizeCodexResponsesBody body);
            Ok (body, codex_url)
          else Ok (body, trimmed (EffectiveBaseURL account) "/responses"))
  else if String.eqb endpoint PlaygroundEndpointChatCompletions then
    let body := BuildPlaygroundChatCompletionsBody (Model request) (Text request) max in
    if IsOAuth account then
      match chat.buildChatAdapterRequest (Some (Ok body)) with
      | chat.Panicked => None
      | chat.Returned x =>
          Some (adapted ← wrap "adapt playground chat completions body: %w" x;
                Ok (chat.upstreamBody adapted, codex_url))
      end
    else Some (Ok (body, trimmed (EffectiveBaseURL account) "/chat/completions"))
  else Some (Err (OtherErr (Errorf "unsupported playground endpoint %q" [FStr endpoint]))).

Definition playground_headers (account : UpstreamAccount) (token : string) : Header :=
  let h := HeaderSet [] "Authorization" ("Bearer " +:+ token) in
  let h := HeaderSet h "Content-Type" "application/json" in
  let h := HeaderSet h "Accept" "application/json" in
  if IsOAuth account then
    let h := HeaderSet h "Accept" "text/event-stream" in
    let h := HeaderSet h "Accept-Encoding" "identity" in
    let h := HeaderSet h "User-Agent" CodexCLIUserAgent in
    match ChatGPTAccountID account with
    | Some id => if String.eqb id "" then h else HeaderSet h "chatgpt-account-id" id
    | None => h
    end
  else h.

Definition usageInts (u : JSONMap) : gmap string Z :=
  omap (fun v => match v with
                 | AInt z => Some z
                 | ANum x => Some (dashboard.int_of_float int_of_huge x)
                 | ALit lit => Atoi lit
                 | _ => None end) (default ∅ u).

Definition is_2xx (status : Z) : bool := negb ((status <? 200) || (300 <=? status)).

(** A body the account's endpoint answered with, as a result. *)
Definition playground_result (request : RunRequest) (at_ : attempt) (status : Z) (mode body : string) : res UpstreamResult :=
  match decodePlaygroundJSON body with
  | inr reason => Err (MalformedErr at_ reason body)
  | inl raw =>
      let '(text, available) := extractPlaygroundText (EffectiveEndpoint request) body in
      Ok (mkUpstream status mode (at_Endpoint at_) (at_RequestBody at_) text available (Some raw)
            (IncludeRawResponse request) (if IncludeRawResponse request then None else Some "not_requested")
            (usageInts (ExtractUsageFromJSON body)))
  end.

Definition upstream_failure (at_ : attempt) (status : Z) (body : string) : run_error :=
  UpstreamErr at_ status body (ExtractErrorCode (Some body)) (responseDiagnostic body).

Definition handle_response (account : UpstreamAccount) (request : RunRequest) (at_ : attempt)
    (resp : forwarder.Response) : res UpstreamResult :=
  let contentType := Get (forwarder.rs_Header resp) "Content-Type" in
  let status := forwarder.rs_Status resp in
  match readPlaygroundResponseBody (forwarder.rs_Body resp) with
  | Err (TooLargeErr a limit) => Err (TooLargeErr (mkAttempt (at_AccountID a) (at_Account a) (at_Endpoint at_) (at_RequestBody at_)) limit)
  | Err e => Err e
  | Ok body =>
      if negb (is_2xx status) then Err (upstream_failure at_ status body)
      else if IsOAuth account && String.eqb (EffectiveEndpoint request) PlaygroundEndpointResponses
              && negb (Contains (ToLower contentType) "application/json") then
        match collector.collectCodexSSEBytes body with
        | Err _ => Err (MalformedErr at_ "invalid_json" body)
        | Ok collected => playground_result request at_ status ResponseModeJSON collected
        end
      else if IsOAuth account && String.eqb (EffectiveEndpoint request) PlaygroundEndpointChatCompletions then
        match chatresp.chatCompletionFromResponsesBody completionID now (mkReader body None) contentType (Model request) with
        | Err _ => Err (MalformedErr at_ "invalid_json" body)
        | Ok (converted, statusCode) =>
            if negb (is_2xx statusCode) then Err (upstream_failure at_ statusCode converted)
            else playground_result request at_ status ResponseModeJSON converted
        end
      else playground_result request at_ status (DetectResponseMode contentType) body
  end.

(** What was sent, and the result. *)
Definition RunPlayground (account : UpstreamAccount) (token : string) (request : RunRequest)
    : list sent * may_panic UpstreamResult :=
  match buildPlaygroundUpstreamRequest account request with
  | None => ([], None)
  | Some (Err e) => ([], Some (Err e))
  | Some (Ok (body, targetURL)) =>
      match Parse targetURL with
      | None => ([], Some (Err (OtherErr (Wrapf "create playground upstream request: %w" [] (New "parse error")))))
      | Some url =>
          match forwarder.httpClientForUseProxy proxy_configured (UseProxy account) with
          | Err e => ([], Some (Err (OtherErr (Wrapf "resolve playground egress: %w" [] e))))
          | Ok proxied =>
              let at_ := mkAttempt 0 None (default "" (unescape encodePath (RawPath url))) body in
              let req := mkSent proxied "POST" targetURL (playground_headers account token) body in
              ([req], Some
                 match Do req with
                 | Err e =>
                     match ctx_err with
                     | Some c => Err (OtherErr c)
                     | None =>
                         if forwarder.isTimeout net_timeout e || wait_done then Err (TimeoutErr at_ PlaygroundWaitLimitMS)
                         else Err (ConnectErr at_ (Wrapf2 "%w: %w" (Sentinel ErrUpstreamConnectFailed) e))
                     end
                 | Ok resp =>
                     match forwarder.decompressResponse gunzip resp with
                     | Err e => Err (ConnectErr at_ (Wrapf2 "%w: %w" (Sentinel ErrUpstreamResponseInvalid) e))
                     | Ok resp => handle_response account request at_ resp
                     end
                 end)
          end
      end
  end.

End client.

(** ** The record of a run *)

Definition sanitizeString (value : string) : string :=
  if redaction.IsTokenLikeString value then "[redacted]" else value.
Definition clipRunes (value : string) (limit : Z) : string :=
  if limit <=? 0 then ""
  else if Z.of_nat (List.length (runes value)) <=? limit then value
  else concat_str (EncodeRune <$> (take (Z.to_nat limit) (runes value)).*1).
Definition sanitizeOptionalString (value : option string) (maxChars : Z) : option string :=
  (fun v => clipRunes (sanitizeString (TrimSpace v)) maxChars) <$> value.

Record recordInput := mkInput {
  i_request : RunRequest; i_accountID : option Z; i_account : option UpstreamAccount;
  i_status : Z; i_outcome : string; i_errorCode : string; i_responseMode : string;
  i_upstreamRequestBody : string; i_upstreamResponseBody : string; i_upstreamEndpoint : string;
  i_usage : gmap string Z; i_rawResponse : option obj; i_omitted : option string }.
#[export] Instance recordInput_eta : Eta recordInput := fun i =>
  mkInput (i_request i) (i_accountID i) (i_account i) (i_status i) (i_outcome i) (i_errorCode i) (i_responseMode i)
    (i_upstreamRequestBody i) (i_upstreamResponseBody i) (i_upstreamEndpoint i) (i_usage i) (i_rawResponse i) (i_omitted i).

Definition no_upstream (req : RunRequest) (accountID : option Z) (status : Z) (outcome errorCode : string) : recordInput :=
  mkInput req accountID None status outcome errorCode "" "" "" "" ∅ None None.

Definition own_id (id : Z) (accountID : Z) : option Z := Some (if id =? 0 then accountID else id).

Definition recordInputForPlaygroundError (req : RunRequest) (accountID : Z) (e : run_error) : recordInput :=
  let input := no_upstream req (Some accountID) 500 "router_error" "playground_internal_error" <| i_responseMode := ResponseModeJSON |> in
  let of_attempt a input :=
    input <| i_upstreamRequestBody := at_RequestBody a |> <| i_upstreamEndpoint := at_Endpoint a |>
          <| i_accountID := own_id (at_AccountID a) accountID |> in
  if is_canceled e
  then input <| i_status := playgroundClientClosedStatus |> <| i_outcome := "cancelled" |> <| i_errorCode := "" |>
  else match e with
       | UpstreamErr a status body _ _ =>
           of_attempt a (input <| i_status := status |> <| i_outcome := "upstream_error" |>
             <| i_errorCode := "playground_upstream_error" |> <| i_upstreamResponseBody := body |>)
       | ConnectErr a _ => of_attempt a input
       | TimeoutErr a _ =>
           of_attempt a (input <| i_status := 200 |> <| i_outcome := "upstream_timeout" |>
             <| i_errorCode := "playground_upstream_timeout" |>)
       | MalformedErr a _ body =>
           of_attempt a (input <| i_status := 200 |> <| i_errorCode := "playground_response_malformed" |>
             <| i_upstreamResponseBody := body |>)
       | TooLargeErr a _ =>
           of_attempt a (input <| i_status := 200 |> <| i_errorCode := "playground_response_too_large" |>)
       | _ => input
       end.

Definition put_opt (key : string) (v : option any) (m : obj) : obj :=
  match v with Some x => <[key := x]> m | None => m end.

Definition playgroundModelParams (req : RunRequest) (account : option UpstreamAccount) (omitted : option string) : obj :=
  let params : obj := list_to_map
    [("selection_mode", AStr (SelectionMode req)); ("endpoint", AStr (EffectiveEndpoint req));
     ("max_output_tokens", AInt (EffectiveMaxOutputTokens req)); ("include_raw_response", ABool (IncludeRawResponse req))] in
  let params := put_opt "requested_account_id" (AInt <$> AccountID req) params in
  let params := match account with
                | Some a => <["provider" := AStr (Provider a)]> (<["auth_method" := AStr (AuthMethod a)]> params)
                | None => params end in
  put_opt "raw_response_omitted_reason" (AStr <$> omitted) params.

Definition playgroundUsageMap (u : gmap string Z) : JSONMap :=
  if bool_decide (u = ∅) then None else Some (AInt <$> u).

Definition playgroundRequestBody (req : RunRequest) : option string :=
  let body : obj := list_to_map
    [("selection_mode", AStr (SelectionMode req)); ("endpoint", AStr (EffectiveEndpoint req));
     ("model", AStr (sanitizeString (Model req))); ("text", AStr (sanitizeString (Text req)));
     ("max_output_tokens", AInt (EffectiveMaxOutputTokens req)); ("include_raw_response", ABool (IncludeRawResponse req))] in
  let body := put_opt "account_id" (AInt <$> AccountID req) body in
  let body := put_opt "session_key" ((fun k => AStr (sanitizeString k)) <$> SessionKey req) body in
  Marshal_any (AMap body).

Definition playgroundCapturedBody (body : string) : option string := Some (redaction.RedactCapturedBody body).
Definition playgroundResponseBody (raw : option obj) : option string :=
  encoded ← Marshal_any (match redaction.RedactJSONMap raw with Some m => AMap m | None => ANil end);
  playgroundCapturedBody encoded.

Definition Milliseconds (d : duration) : Z := Z.quot d (10 ^ 6).
Definition latency_ms (d : duration) : Z := Z.max 0 (Milliseconds d).

(** ** The service *)

(** What the service is given: its switches, and what the world does during
    one run. *)
Record PlaygroundEnv := mkEnv {
  e_recorder : bool;
  e_bodyLog : bool * bool * bool;
  e_requestID : string; e_clientIP : string;
  e_latency : duration; e_recorded : duration;
  e_call : UpstreamAccount -> string -> RunRequest -> list sent * may_panic UpstreamResult }.

Definition recordRun (env : PlaygroundEnv) (input : recordInput) : list records.Row :=
  if negb (e_recorder env) then []
  else
    let '(clientReqLog, upstreamReqLog, upstreamRespLog) := e_bodyLog env in
    let req := i_request input in
    let responseMode := if String.eqb (i_responseMode input) "" then ResponseModeJSON else i_responseMode input in
    [records.mkRow 0 zero_time (e_clientIP env) (latency_ms (e_recorded env))
       (mkRequestRecord (e_requestID env) (i_accountID input) (SessionKey req) "POST" PlaygroundRunPath
          (i_status input) None (i_outcome input)
          (if String.eqb (i_errorCode input) "" then None else Some (i_errorCode input))
          (Some (Model req)) (Some (playgroundModelParams req (i_account input) (i_omitted input)))
          (Some {["upstream_endpoint" := AStr (i_upstreamEndpoint input)]}) responseMode
          (playgroundUsageMap (i_usage input))
          (if clientReqLog then playgroundRequestBody req else None)
          (if upstreamReqLog && negb (String.eqb (i_upstreamRequestBody input) "")
           then playgroundCapturedBody (i_upstreamRequestBody input) else None)
          (if upstreamRespLog && negb (String.eqb (i_upstreamResponseBody input) "")
           then playgroundCapturedBody (i_upstreamResponseBody input)
           else if upstreamRespLog && match i_rawResponse input with Some _ => true | None => false end
           then playgroundResponseBody (i_rawResponse input) else None))].

(** [errors.As] for an [AccountSelectionError]. *)
Fixpoint as_AccountSelectionError (e : error) : option (Z * AccountUnavailableReason) :=
  match e with
  | AccountSelectionError id r => Some (id, r)
  | Wrapf _ _ c | PathError _ _ c | LinkError _ _ _ c | StoreError _ c | PreForwardError _ (Some c)
  | TokenExchangeError _ _ _ (Some c) | malformedIDTokenError _ (Some c) => as_AccountSelectionError c
  | Wrapf2 _ c1 c2 =>
      match as_AccountSelectionError c1 with Some r => Some r | None => as_AccountSelectionError c2 end
  | _ => None
  end.

Definition playgroundReasonFromAccountSelection (r : AccountUnavailableReason) : string :=
  match r with
  | AccountUnavailableMissing => "missing"
  | AccountUnavailableDeleted => "deleted"
  | AccountUnavailableDisabled => "disabled"
  | AccountUnavailableCredentialUnavailable => "credential_unavailable"
  | AccountUnavailableIneligible => "ineligible"
  end.

Definition mapAccountSelectionError (e : error) : run_error :=
  match as_AccountSelectionError e with
  | Some (id, r) => AccountUnavailable id (playgroundReasonFromAccountSelection r)
  | None => OtherErr e
  end.

Definition of_account (account : AccountSummary) (a : attempt) : attempt :=
  mkAttempt (if at_AccountID a =? 0 then s_ID account else at_AccountID a)
    (Some (default account (at_Account a))) (at_Endpoint a) (at_RequestBody a).

Definition decoratePlaygroundError (account : AccountSummary) (e : run_error) : run_error :=
  match e with
  | UpstreamErr a status body perr pmsg =>
      UpstreamErr (of_account account a) status body (sanitizeOptionalString perr 128)
        (sanitizeOptionalString pmsg PlaygroundProviderMessageMaxChars)
  | ConnectErr a c => ConnectErr (of_account account a) c
  | TimeoutErr a w => TimeoutErr (of_account account a) (if w =? 0 then PlaygroundWaitLimitMS else w)
  | MalformedErr a r body => MalformedErr (of_account account a) (if String.eqb r "" then "invalid_json" else r) body
  | TooLargeErr a l => TooLargeErr (of_account account a) (if l =? 0 then PlaygroundResponseReadLimitBytes else l)
  | _ => e
  end.

Record RunResult := mkResult {
  run_SelectionMode : string; run_Endpoint : string; run_SessionKey : option string; run_Outcome : string;
  run_LatencyMS : Z; run_Account : AccountSummary; run_StatusCode : Z; run_ResponseMode : string;
  out_Text : string; out_TextAvailable : bool; out_RawResponse : option obj; out_RawResponseAvailable : bool;
  out_OmittedReason : option string; run_Usage : gmap string Z }.

(** The accounts a run may use: those without capabilities are kept for old
    rows. *)
Definition playground_eligible (req : RunRequest) (a : UpstreamAccount) : bool :=
  if SystemOneOnly a then false
  else if IsOAuth a || Nat.eqb (List.length (default [] (Capabilities a))) 0 then true
  else HasCapabilityFor a (if String.eqb (EffectiveEndpoint req) PlaygroundEndpointChatCompletions
                           then "op.openai.chat_completions.create" else "op.openai.responses.create").

Section run.
Context {S : Type} `{AccountRepository S} (sel : AccountSelector S) (env : PlaygroundEnv).

(** What was sent, what was recorded, and the answer ([None]: a panic). *)
Definition ran : Type := list sent * list records.Row * may_panic RunResult.

Definition select_for (req : RunRequest) : M (sel_state (S := S)) (UpstreamAccount * option string * bool) :=
  let eligible := Some (playground_eligible req) in
  if String.eqb (SelectionMode req) PlaygroundSelectionAuto
  then SelectEligible sel (default "" (SessionKey req)) eligible
  else on_repo (SelectByIDEligible sel (default 0 (AccountID req)) eligible).

(** Why there is no account: the record and the error. *)
Definition selection_failure (req : RunRequest) (e : error) : recordInput * run_error :=
  if String.eqb (SelectionMode req) PlaygroundSelectionAuto then
    if errors_Is e ErrNoCapacity
    then (no_upstream req None 200 "no_available_account" "playground_no_active_account", NoActiveAccount)
    else (no_upstream req None 500 "router_error" "playground_internal_error", OtherErr e)
  else
    match mapAccountSelectionError e with
    | AccountUnavailable id reason =>
        (no_upstream req (if String.eqb reason "missing" then None else Some id) 200 "account_unavailable"
           "playground_account_unavailable", AccountUnavailable id reason)
    | mapped => (no_upstream req None 500 "router_error" "playground_internal_error", mapped)
    end.

Definition success_input (req : RunRequest) (account : UpstreamAccount) (up : UpstreamResult) : recordInput :=
  mkInput req (Some (ID account)) (Some account) (StatusCode up)
    (if up_TextAvailable up then "success" else "no_extractable_text") "" (ResponseMode up)
    (UpstreamRequestBody up) "" (UpstreamEndpoint up) (Usage up) (redaction.RedactJSONMap (up_RawResponse up))
    (up_OmittedReason up).

Definition success_result (req : RunRequest) (account : UpstreamAccount) (up : UpstreamResult) : RunResult :=
  mkResult (SelectionMode req) (Endpoint req) (SessionKey req)
    (if up_TextAvailable up then "success" else "no_extractable_text") (latency_ms (e_latency env))
    (accountSummary account) (StatusCode up) (ResponseMode up) (up_Text up) (up_TextAvailable up)
    (redaction.RedactJSONMap (up_RawResponse up)) (up_RawResponseAvailable up) (up_OmittedReason up) (Usage up).

Definition Run (r : RunRequest) (st : sel_state (S := S)) : ran * sel_state (S := S) :=
  match Validate r with
  | Err e => (([], [], Some (Err e)), st)
  | Ok req =>
      match select_for req st with
      | (Err e, st') =>
          let '(input, err) := selection_failure req e in
          (([], recordRun env input, Some (Err err)), st')
      | (Ok (account, token, _), st') =>
          let '(out, upstream) := e_call env account (default "" token) req in
          match upstream with
          | None => ((out, [], None), st')
          | Some (Err e) =>
              let err := decoratePlaygroundError (accountSummary account) e in
              ((out, recordRun env (recordInputForPlaygroundError req (ID account) err), Some (Err err)), st')
          | Some (Ok up) =>
              ((out, recordRun env (success_input req account up), Some (Ok (success_result req account up))), st')
          end
      end
  end.

End run.

(** ** The answer of the admin API *)

Definition answer_code (r : res RunResult) : Z * string :=
  match r with
  | Ok _ => (0, "ok")
  | Err (ValidationErr _ _) => (4001, "invalid_playground_request")
  | Err NoActiveAccount => (4002, "playground_no_active_account")
  | Err (AccountUnavailable _ _) => (4003, "playground_account_unavailable")
  | Err (UpstreamErr _ _ _ _ _) => (4004, "playground_upstream_error")
  | Err (TimeoutErr _ _) => (4005, "playground_upstream_timeout")
  | Err (MalformedErr _ _ _) => (4006, "playground_response_malformed")
  | Err (TooLargeErr _ _) => (4007, "playground_response_too_large")
  | Err (ConnectErr _ _) | Err (OtherErr _) => (4900, "playground_internal_error")
  end.

(** [generatedOutput]: the raw response is answered only when asked for. *)
Definition generatedOutput (r : RunResult) : option obj * option string :=
  (if out_RawResponseAvailable r then out_RawResponse r else None,
   if out_RawResponseAvailable r then None else out_OmittedReason r).

End playground.
