(* ===== verification/PlaygroundProofs.v ===== *)
(** * PlaygroundProofs: what a run sends, records and answers *)

From S2P Require Import Prelude GoLib GoURL GoHTTP GoStrings GoJSON GoJSONProofs GoAny GoBufio Errors Account Engine Store Selector.
From S2P Require Import GatewayRoutes Usage CodexRequest Collector ChatRequest ChatResponse Redaction Bridges Gateway Forwarder Proxy Records UsageRefresher Playground.
Import playground.

(** ** Validation *)

(** A request in the form [Validate] gives it, within every bound. *)
Definition accepted (r : RunRequest) : Prop :=
  (SelectionMode r = PlaygroundSelectionAuto /\ AccountID r = None
   \/ SelectionMode r = PlaygroundSelectionAccount /\ exists id, AccountID r = Some id /\ 0 < id)
  /\ Endpoint r ∈ [PlaygroundEndpointResponses; PlaygroundEndpointChatCompletions]
  /\ (forall k, SessionKey r = Some k -> 1 <= RuneCountInString k <= 128)
  /\ 1 <= RuneCountInString (Model r) <= 128
  /\ 1 <= RuneCountInString (Text r) <= PlaygroundPromptLimitChars
  /\ (forall n, MaxOutputTokens r = Some n -> 1 <= n <= PlaygroundMaxOutputTokens).

Definition normal_form (r : RunRequest) : RunRequest :=
  mkRun (SelectionMode r) (EffectiveEndpoint r) (AccountID r) (TrimSpace <$> SessionKey r)
    (TrimSpace (Model r)) (TrimSpace (Text r)) (MaxOutputTokens r) (IncludeRawResponse r).

Lemma normal_form_idem r : normal_form (normal_form r) = normal_form r.
Proof.
  unfold normal_form. cbn [SelectionMode Endpoint AccountID SessionKey Model Text MaxOutputTokens IncludeRawResponse].
  rewrite !TrimSpace_idem. f_equal.
  - unfold EffectiveEndpoint. cbn [Endpoint]. by destruct (String.eqb (Endpoint r) "") eqn:E; rewrite ?E.
  - destruct (SessionKey r) as [k|]; [|done]. cbn [fmap option_fmap option_map]. by rewrite TrimSpace_idem.
Qed.

Lemma bounds_true lo hi s : rune_bounds lo hi s = true <-> lo <= RuneCountInString s <= hi.
Proof. unfold rune_bounds. rewrite andb_true_iff, !Z.leb_le. done. Qed.

Lemma Validate_spec r q : Validate r = Ok q <-> q = normal_form r /\ accepted q.
Proof.
  unfold Validate. fold (normal_form r). set (n := normal_form r). unfold accepted.
  split.
  - destruct (if String.eqb (SelectionMode n) _ then _ else _) as [e|] eqn:Em; [done|].
    destruct (existsb _ _) eqn:Ee; [|done]. cbn [negb].
    destruct (match SessionKey n with Some k => negb (rune_bounds 1 128 k) | None => false end) eqn:Es; [done|].
    destruct (rune_bounds 1 128 (Model n)) eqn:Eo; [|done].
    destruct (rune_bounds 1 PlaygroundPromptLimitChars (Text n)) eqn:Et; [|done]. cbn [negb].
    destruct (match MaxOutputTokens n with Some _ => _ | None => _ end) eqn:Ex; [done|]. intros [= <-].
    split; [done|]. apply bounds_true in Eo, Et. apply existsb_eqb_In in Ee. repeat split; try done; try lia.
    + destruct (String.eqb_spec (SelectionMode n) PlaygroundSelectionAuto) as [Ea|_].
      * left. destruct (AccountID n); done.
      * destruct (String.eqb_spec (SelectionMode n) PlaygroundSelectionAccount) as [Ea|_]; [|done].
        right. destruct (AccountID n) as [id|]; [|done]. destruct (Z.leb_spec id 0); [done|]. split; [done|]. eauto.
    + rewrite H in Es. apply negb_false_iff, bounds_true in Es. lia.
    + rewrite H in Es. apply negb_false_iff, bounds_true in Es. lia.
    + rewrite H in Ex. lia.
    + rewrite H in Ex. lia.
  - intros (-> & Hm & He & Hs & Ho & Ht & Hx). apply bounds_true in Ho, Ht. rewrite Ho, Ht.
    apply existsb_eqb_In in He. rewrite He. cbn [negb].
    replace (match SessionKey n with Some k => negb (rune_bounds 1 128 k) | None => false end) with false.
    2: { destruct (SessionKey n) as [k|]; [|done]. by rewrite (proj2 (bounds_true 1 128 k)) by auto. }
    replace (match MaxOutputTokens n with Some _ => _ | None => _ end) with false.
    2: { destruct (MaxOutputTokens n) as [x|]; [|done]. specialize (Hx x eq_refl). lia. }
    destruct Hm as [[-> ->]|(-> & id & -> & Hid)]; [done|]. by rewrite (proj2 (Z.leb_gt _ _)) by lia.
Qed.

Lemma Validate_idem r q : Validate r = Ok q -> Validate q = Ok q.
Proof.
  intros [-> Hq]%Validate_spec. apply Validate_spec. by rewrite normal_form_idem.
Qed.

Lemma Validate_err r e : Validate r = Err e -> exists f m, e = ValidationErr f m.
Proof.
  unfold Validate. set (m := if String.eqb _ PlaygroundSelectionAuto then _ else _).
  assert (forall x, m = Some x -> exists f y, x = ValidationErr f y) as Hm.
  { intros x. unfold m. repeat case_match; intros [= <-]; eauto. }
  clearbody m. destruct m as [x|]; [intros [= <-]; eauto|]. clear Hm. repeat case_match; intros [= <-]; eauto.
Qed.

(** ** The upstream request *)

Lemma valid_utf8_trim s : valid_utf8 s = true -> valid_utf8 (TrimSpace s) = true.
Proof.
  unfold valid_utf8. change (TrimSpace s) with (concat_bytes (trim_runes (runes s))).
  destruct (trim_runes_spec (runes s)) as (l1 & l2 & E & _).
  rewrite (runes_prefix _ _ _ (runes_suffix l1 s _ E)). set (t := trim_runes (runes s)) in *.
  rewrite E, !forallb_app, !andb_true_iff. tauto.
Qed.

Section client.
Context (Do : sent -> result error forwarder.Response) (ctx_err : option error) (wait_done : bool)
  (net_timeout : error -> bool) (gunzip : reader -> result error reader) (proxy_configured : bool)
  (codexBackendBaseURL : string) (completionID : string) (now : Z) (int_of_huge : float64 -> Z).

Abbreviation call := (RunPlayground Do ctx_err wait_done net_timeout gunzip proxy_configured codexBackendBaseURL
                        completionID now int_of_huge).
Abbreviation build := (buildPlaygroundUpstreamRequest codexBackendBaseURL).

(** The body of a chat request has no tools, so the adapter cannot panic. *)
Lemma build_no_panic account r :
  valid_utf8 (Model r) = true -> valid_utf8 (Text r) = true -> build account r <> None.
Proof.
  intros Hm Ht. unfold buildPlaygroundUpstreamRequest.
  destruct (String.eqb _ PlaygroundEndpointResponses); [done|].
  destruct (String.eqb _ PlaygroundEndpointChatCompletions); [|done].
  destruct (IsOAuth account); [|done].
  unfold chat.buildChatAdapterRequest, BuildPlaygroundChatCompletionsBody.
  set (l := chat_fields (Model r) (Text r) (EffectiveMaxOutputTokens r)).
  assert (json_parse (Marshal (JObj l)) = Some (JObj l)) as ->.
  { apply parse_Marshal.
    - unfold l, chat_fields. destruct (_ =? 0); cbn [printable forallb app andb]; rewrite Hm, Ht, ?valid_number_Itoa; done.
    - unfold l, chat_fields. apply Nat.leb_le. destruct (_ =? 0); vm_compute; reflexivity. }
  cbn [mbind option_bind raw_map]. destruct (chat.chat_payload l) as [[[model stream] payload]|e]; [|done].
  assert (chat.field l "tools" = None) as ->.
  { unfold l, chat_fields. by destruct (_ =? 0). }
  done.
Qed.

(** A request on behalf of an account: its token, its way out, its endpoint. *)
Definition sent_for (account : UpstreamAccount) (token : string) (r : RunRequest) (x : sent) : Prop :=
  x_Method x = "POST" /\ x_Proxied x = UseProxy account
  /\ Values (x_Headers x) "Authorization" = ["Bearer " +:+ token]
  /\ (if IsOAuth account then x_URL x = codex_url codexBackendBaseURL
      else exists p, p ∈ ["/responses"; "/chat/completions"] /\ x_URL x = trimmed (EffectiveBaseURL account) p)
  /\ exists url, build account r = Some (Ok (x_Body x, url)) /\ url = x_URL x.

Lemma auth_header account token :
  Values (playground_headers account token) "Authorization" = ["Bearer " +:+ token].
Proof.
  unfold playground_headers. repeat case_match;
    rewrite ?Values_Set_ne by (vm_compute; reflexivity); apply Values_Set_eq.
Qed.

Lemma build_url account r body url : build account r = Some (Ok (body, url)) ->
  if IsOAuth account then url = codex_url codexBackendBaseURL
  else exists p, p ∈ ["/responses"; "/chat/completions"] /\ url = trimmed (EffectiveBaseURL account) p.
Proof.
  unfold buildPlaygroundUpstreamRequest. destruct (String.eqb _ PlaygroundEndpointResponses).
  - destruct (IsOAuth account).
    + destruct (codex.normalizeCodexResponsesBody _) as [[b x]|]; [|done]. by intros [= _ <-].
    + intros [= _ <-]. eexists. split; [|done]. set_solver.
  - destruct (String.eqb _ PlaygroundEndpointChatCompletions); [|done]. destruct (IsOAuth account).
    + destruct (chat.buildChatAdapterRequest _) as [[x|]|]; [|done..]. by intros [= _ <-].
    + intros [= _ <-]. eexists. split; [|done]. set_solver.
Qed.

(** An error or a result of the client, before the service completes it. *)
Definition attempted (r : RunRequest) (out : list sent) (x : playground.res UpstreamResult) : Prop :=
  match x with
  | Ok up => is_2xx (StatusCode up) = true /\ up_RawResponseAvailable up = IncludeRawResponse r
             /\ (ResponseMode up = ResponseModeJSON \/ ResponseMode up = ResponseModeSSE)
             /\ (exists s, out = [s] /\ UpstreamRequestBody up = x_Body s)
  | Err (UpstreamErr a status _ _ _) => at_AccountID a = 0 /\ is_2xx status = false /\ exists s, out = [s] /\ at_RequestBody a = x_Body s
  | Err (ConnectErr a _ | TimeoutErr a _ | MalformedErr a _ _ | TooLargeErr a _) =>
      at_AccountID a = 0 /\ exists s, out = [s] /\ at_RequestBody a = x_Body s
  | Err (OtherErr _) => True
  | Err _ => False
  end.

Lemma result_attempted r a status mode body s : is_2xx status = true -> at_AccountID a = 0 -> at_RequestBody a = x_Body s ->
  mode = ResponseModeJSON \/ mode = ResponseModeSSE ->
  attempted r [s] (playground_result int_of_huge r a status mode body).
Proof.
  intros Hs Ha Hb Hm. unfold playground_result. destruct (decodePlaygroundJSON body) as [raw|reason]; cbn [attempted]; [|eauto].
  destruct (extractPlaygroundText _ _) as [text av]. cbn. eauto 6.
Qed.

Lemma mode_detected ct : DetectResponseMode ct = ResponseModeJSON \/ DetectResponseMode ct = ResponseModeSSE.
Proof. unfold DetectResponseMode. destruct (Contains _ _); auto. Qed.

Lemma read_body_error b e : readPlaygroundResponseBody b = Err e ->
  (exists c, e = OtherErr c) \/ exists a l, e = TooLargeErr a l /\ at_AccountID a = 0.
Proof.
  unfold readPlaygroundResponseBody. destruct (read_limited b _) as [data [x|]]; [intros [= <-]; eauto|].
  destruct (_ <? _); intros [= <-]. right. do 2 eexists. split; [done|]. done.
Qed.

Lemma handle_attempted account r a resp s : at_AccountID a = 0 -> at_RequestBody a = x_Body s ->
  attempted r [s] (handle_response completionID now int_of_huge account r a resp).
Proof.
  intros Ha Hb. unfold handle_response. destruct (readPlaygroundResponseBody _) as [body|e] eqn:Er.
  - destruct (is_2xx (forwarder.rs_Status resp)) eqn:Es; cbn [negb].
    + destruct (IsOAuth account && String.eqb (EffectiveEndpoint r) PlaygroundEndpointResponses && _).
      * destruct (collector.collectCodexSSEBytes body); [apply result_attempted; auto|cbn; eauto].
      * destruct (IsOAuth account && _); [|apply result_attempted; auto using mode_detected].
        destruct (chatresp.chatCompletionFromResponsesBody _ _ _ _ _) as [[converted sc]|]; [|cbn; eauto].
        destruct (is_2xx sc) eqn:Esc; cbn [negb]; [apply result_attempted; auto|cbn; eauto].
    + cbn. eauto.
  - destruct (read_body_error _ _ Er) as [[c ->]|(a' & l & -> & Ha')]; [done|]. cbn. eauto.
Qed.

(** At most one request is sent, for the account it was called with, and what
    comes back names it. *)
Lemma call_attempted account token r out x :
  call account token r = (out, Some x) -> attempted r out x /\ (out = [] \/ exists s, out = [s] /\ sent_for account token r s).
Proof.
  unfold RunPlayground. destruct (build account r) as [[[body url]|e]|] eqn:Eb; [| |done].
  2: { intros [= <- <-]. split; [|by left]. revert Eb. unfold buildPlaygroundUpstreamRequest.
       unfold wrap.
       destruct (String.eqb _ _).
       { destruct (IsOAuth account); [|done]. destruct (codex.normalizeCodexResponsesBody _) as [[b y]|]; by intros [= <-]. }
       destruct (String.eqb _ _); [|by intros [= <-]]. destruct (IsOAuth account); [|done].
       destruct (chat.buildChatAdapterRequest _) as [[b|]|]; by intros [= <-]. }
  destruct (Parse url) as [u|]; [|intros [= <- <-]; split; [done|by left]].
  destruct (forwarder.httpClientForUseProxy _ _) as [p|e] eqn:Ep; [|intros [= <- <-]; split; [done|by left]].
  set (s := mkSent p "POST" url (playground_headers account token) body). intros [= <- <-].
  set (a := mkAttempt 0 None _ body). assert (sent_for account token r s) as Hs.
  { split; [done|]. split.
    - revert Ep. unfold forwarder.httpClientForUseProxy. destruct (UseProxy account), proxy_configured; by intros [= <-].
    - split; [apply auth_header|]. split; [by apply (build_url account r body url)|]. by exists url. }
  split; [|right; eauto].
  destruct (Do s) as [resp|e].
  - destruct (forwarder.decompressResponse gunzip resp) as [resp'|e]; [by apply handle_attempted|cbn; eauto].
  - destruct ctx_err; [done|]. destruct (_ || _); cbn; eauto.
Qed.

Lemma call_no_panic account token r out : valid_utf8 (Model r) = true -> valid_utf8 (Text r) = true ->
  call account token r <> (out, None).
Proof.
  intros Hm Ht. pose proof (build_no_panic account r Hm Ht) as Hb. unfold RunPlayground.
  destruct (build account r) as [[[body url]|e]|]; [| |done].
  - destruct (Parse url); [|done]. destruct (forwarder.httpClientForUseProxy _ _); [|done]. done.
  - done.
Qed.

End client.

(** ** The whole run *)

(** The answer and the record name the same thing. *)
Definition agrees (x : playground.res RunResult) (rec : RequestRecord) : Prop :=
  match x with
  | Ok res =>
      rr_ErrorCode rec = None /\ rr_Outcome rec = run_Outcome res /\ rr_StatusCode rec = run_StatusCode res
      /\ rr_ResponseMode rec = run_ResponseMode res /\ rr_AccountID rec = Some (s_ID (run_Account res))
      /\ is_2xx (run_StatusCode res) = true
  | Err e =>
      rr_ErrorCode rec = Some (snd (answer_code x))
      \/ is_canceled e = true /\ rr_ErrorCode rec = None /\ rr_Outcome rec = "cancelled" /\ rr_StatusCode rec = 499
  end.

(** A body is kept only if its switch is on; those of the upstream are those
    of the exchange, redacted. *)
Definition bodies_kept (env : PlaygroundEnv) (out : list sent) (rec : RequestRecord) : Prop :=
  let '(clientLog, requestLog, responseLog) := e_bodyLog env in
  (rr_ClientRequestBody rec <> None -> clientLog = true)
  /\ (forall b, rr_UpstreamRequestBody rec = Some b -> requestLog = true
        /\ exists s, out = [s] /\ b = redaction.RedactCapturedBody (x_Body s))
  /\ (forall b, rr_UpstreamResponseBody rec = Some b -> responseLog = true
        /\ exists raw, b = redaction.RedactCapturedBody raw).

Definition run_record (env : PlaygroundEnv) (q : RunRequest) (out : list sent) (x : playground.res RunResult)
    (row : records.Row) : Prop :=
  let rec := records.row_Rec row in
  rr_RequestID rec = e_requestID env /\ rr_Path rec = PlaygroundRunPath /\ rr_Model rec = Some (Model q)
  /\ rr_SessionKey rec = SessionKey q
  /\ records.RequestOutcome_Valid (rr_Outcome rec) = true
  /\ records.RequestResponseMode_Valid (rr_ResponseMode rec) = true
  /\ agrees x rec /\ bodies_kept env out rec.

(** What the record of an input promises. *)
Lemma record_of env q out x input : e_recorder env = true -> i_request input = q ->
  records.RequestOutcome_Valid (i_outcome input) = true ->
  i_responseMode input ∈ [""; "json"; "sse"] ->
  (i_upstreamRequestBody input = "" \/ exists s, out = [s] /\ i_upstreamRequestBody input = x_Body s) ->
  (forall rec, rr_ErrorCode rec = (if String.eqb (i_errorCode input) "" then None else Some (i_errorCode input)) ->
     rr_Outcome rec = i_outcome input -> rr_StatusCode rec = i_status input -> rr_AccountID rec = i_accountID input ->
     rr_ResponseMode rec = (if String.eqb (i_responseMode input) "" then ResponseModeJSON else i_responseMode input) ->
     agrees x rec) ->
  exists row, recordRun env input = [row] /\ run_record env q out x row /\ rr_AccountID (records.row_Rec row) = i_accountID input.
Proof.
  intros Hr Hq Ho Hm Hb Ha. unfold recordRun. rewrite Hr. cbn [negb].
  destruct (e_bodyLog env) as [[cl ul] rl] eqn:El. eexists. split; [reflexivity|].
  split; [|done]. unfold run_record. cbn [records.row_Rec]. subst q.
  split; [done|]. split; [done|]. split; [done|]. split; [done|]. split; [exact Ho|]. split; [|split].
  - cbn [rr_ResponseMode]. repeat (apply elem_of_cons in Hm as [->|Hm]; [reflexivity|]). by apply elem_of_nil in Hm.
  - by apply Ha.
  - unfold bodies_kept. rewrite El. cbn [rr_ClientRequestBody rr_UpstreamRequestBody rr_UpstreamResponseBody]. split; [|split].
    + by destruct cl.
    + intros b. destruct ul; cbn [andb]; [|done]. destruct (String.eqb_spec (i_upstreamRequestBody input) "") as [E|E]; cbn [negb]; [done|].
      intros [= <-]. split; [done|]. destruct Hb as [?|(s & -> & ->)]; [done|]. by exists s.
    + intros b. destruct rl; cbn [andb]; [|done]. destruct (negb _); [intros [= <-]; eauto|].
      destruct (i_rawResponse input); [|done]. unfold playgroundResponseBody.
      destruct (Marshal_any _); [|done]. intros [= <-]. eauto.
Qed.

Lemma own_id_completed id x : own_id (if x =? 0 then id else x) id = Some (if x =? 0 then id else x).
Proof. unfold own_id. by destruct (x =? 0) eqn:E; [destruct (id =? 0)|rewrite E]. Qed.

(** A failed attempt. *)
Lemma error_recorded env q account out e : e_recorder env = true -> attempted q out (Err e) ->
  let err := decoratePlaygroundError (accountSummary account) e in
  exists row, recordRun env (recordInputForPlaygroundError q (ID account) err) = [row]
    /\ run_record env q out (Err err) row /\ rr_AccountID (records.row_Rec row) = Some (ID account).
Proof.
  intros Hr Hat err. set (input := recordInputForPlaygroundError q (ID account) err).
  assert (i_accountID input = Some (ID account)) as Hid.
  { unfold input, recordInputForPlaygroundError. destruct (is_canceled err); [done|].
    unfold err, decoratePlaygroundError, own_id.
    destruct e; try done; cbn [attempted] in Hat; destruct Hat as [Ha _]; unfold of_account;
      cbn [at_AccountID i_accountID set recordInput_eta accountSummary s_ID]; rewrite Ha; apply own_id_completed. }
  destruct (record_of env q out (Err err) input Hr) as (row & E & Hrow & Eid).
  - unfold input, recordInputForPlaygroundError. destruct (is_canceled err); [done|]. by destruct err.
  - unfold input, recordInputForPlaygroundError. destruct (is_canceled err); [done|]. by destruct err.
  - unfold input, recordInputForPlaygroundError. destruct (is_canceled err); [set_solver|]. destruct err; set_solver.
  - unfold input, recordInputForPlaygroundError. destruct (is_canceled err); [by left|].
    unfold err, decoratePlaygroundError.
    destruct e; cbn [attempted] in Hat; try (by left); right; cbn; naive_solver.
  - intros rec He Ho Hs Hi Hm. cbn [agrees]. revert He Ho Hs.
    unfold input, recordInputForPlaygroundError. destruct (is_canceled err) eqn:Ec.
    + intros. by right.
    + intros He _ _. left. rewrite He. destruct e; done.
  - exists row. rewrite E, Eid, Hid. done.
Qed.

Lemma success_recorded env q account out up : e_recorder env = true -> attempted q out (Ok up) ->
  let res := success_result env q account up in
  exists row, recordRun env (success_input q account up) = [row]
    /\ run_record env q out (Ok res) row /\ rr_AccountID (records.row_Rec row) = Some (ID account).
Proof.
  intros Hr (H2 & _ & Hm & Hb) res. apply record_of; [done|done| | | |].
  - cbn. by destruct (up_TextAvailable up).
  - cbn [success_input i_responseMode]. destruct Hm as [-> | ->]; set_solver.
  - right. exact Hb.
  - intros rec He Ho Hs Hi Hmo. cbn [agrees]. rewrite He, Ho, Hs, Hi, Hmo. cbn [success_input i_errorCode i_outcome i_status i_accountID i_responseMode].
    split_and!; try done. unfold res, success_result. cbn [run_ResponseMode]. destruct Hm as [-> | ->]; done.
Qed.

Lemma selection_recorded env q e : e_recorder env = true ->
  let '(input, err) := selection_failure q e in
  exists row, recordRun env input = [row] /\ run_record env q [] (Err err) row.
Proof.
  intros Hr. destruct (selection_failure q e) as [input err] eqn:E.
  assert (exists id status o c, input = no_upstream q id status o c /\ records.RequestOutcome_Valid o = true
            /\ c = snd (answer_code (Err err)) /\ c <> "") as (id & status & o & c & -> & Ho & Hc & Hne).
  { revert E. unfold selection_failure. destruct (String.eqb _ _).
    - destruct (errors_Is e ErrNoCapacity); intros [= <- <-]; do 4 eexists; split_and!; done.
    - unfold mapAccountSelectionError. destruct (as_AccountSelectionError e) as [[i r]|]; intros [= <- <-];
        do 4 eexists; split_and!; done. }
  destruct (record_of env q [] (Err err) (no_upstream q id status o c) Hr) as (row & Er & Hrow & _);
    [done|done|set_solver|by left| |by exists row].
  intros rec He _ _ _ _. left. rewrite He. cbn [no_upstream i_errorCode]. rewrite <- Hc.
  by destruct (String.eqb_spec c "").
Qed.

Section contract.
Context {S : Type} `{AccountRepository S} (sel : AccountSelector S) (env : PlaygroundEnv).
Context (Do : sent -> result error forwarder.Response) (ctx_err : option error) (wait_done : bool)
  (net_timeout : error -> bool) (gunzip : reader -> result error reader) (proxy_configured : bool)
  (codexBackendBaseURL : string) (completionID : string) (now : Z) (int_of_huge : float64 -> Z).


End contract.
