(* ===== verification/Setup.v ===== *)
(** * Setup: the first-run wizard (internal/setup)

    The completion marker (state.go), the request gate (gate.go), the
    validation rules (validator.go), the commit sequence (commit.go) and the
    synthesis of a configuration for an upgraded installation
    (brownfield.go), over the file system of [GoOS] and the configuration of
    [Config] and [ConfigWriter].  The database is an argument. *)

From S2P Require Import Prelude GoLib GoHTTP GoTime Errors GoOS Account Config ConfigWriter.

Module setup.

(** ** errcode constants (internal/api/errcode/codes.go) *)
Definition InternalError : Z := 1901.
Definition SetupAlreadyDone : Z := 2001.
Definition InvalidDriver : Z := 2002.
Definition InvalidDSN : Z := 2003.
Definition InvalidAccountName : Z := 2004.
Definition InvalidAPIKey : Z := 2005.
Definition InvalidRetention : Z := 2007.
Definition MalformedBody : Z := 2008.
Definition SetupRequired : Z := 2011.
Definition InvalidLogLevel : Z := 2014.
Definition InvalidAccountProvider : Z := 2015.
Definition InvalidBaseURL : Z := 2016.
Definition MigrateFailed : Z := 2901.
Definition CommitTxFailed : Z := 2902.
Definition ConfigWriteFailed : Z := 2903.

(** ** validator.go *)

Record ValidationError := mkVErr { VCode : Z; VMsg : string; VField : string }.

Definition SupportedDrivers : list string := ["sqlite3"; "postgres"; "mysql"].
Definition SupportedLogLevels : list string := ["debug"; "info"; "warn"; "error"].
Definition RetentionMin : Z := 1.
Definition RetentionMax : Z := 365.
Definition DSNMaxLen : Z := 4096.
Definition APIKeyMinLen : Z := 1.
Definition APIKeyMaxLen : Z := 256.

Record DBRequestBlock := mkDBReq { ReqDriver : string; ReqURL : string }.
Record AccountRequestBlock := mkAccReq {
  AccName : string; AccProvider : string; AccAPIKey : string; AccBaseURL : option string }.
Record RuntimeRequestBlock := mkRtReq {
  RtLogClientRequestBody : option bool;
  RtLogUpstreamRequestBody : option bool;
  RtLogUpstreamResponseBody : option bool;
  RtLogRetentionDays : option Z;
  RtLogLevel : option string;
}.
Record CommitRequest := mkCommitReq {
  ReqDB : DBRequestBlock;
  FirstAccount : AccountRequestBlock;
  ReqAdminAuth : bool;
  ReqClientKeys : bool;
  ReqRuntime : option RuntimeRequestBlock;
  RawRuntime : list string;  (* the keys of the runtime object as sent *)
}.

Definition IsEmpty (a : AccountRequestBlock) : bool :=
  if negb (String.eqb (AccName a) "") || negb (String.eqb (AccProvider a) "")
     || negb (String.eqb (AccAPIKey a) "") then false
  else match AccBaseURL a with Some u => String.eqb u "" | None => true end.

Definition one_of (x : string) (l : list string) : bool := existsb (String.eqb x) l.

Definition DriverEnum (driver : string) : option ValidationError :=
  let fail := Some (mkVErr InvalidDriver ("driver must be one of: " +:+ Join SupportedDrivers ", ") "db.driver") in
  if String.eqb driver "" then fail else if one_of driver SupportedDrivers then None else fail.

Definition DSN (url : string) : option ValidationError :=
  let fail := Some (mkVErr InvalidDSN "DSN is empty or exceeds 4096 characters" "db.url") in
  if String.eqb url "" then fail else if DSNMaxLen <? lenZ url then fail else None.

Definition AccountName (name : string) : option ValidationError :=
  if ValidAccountName name then None
  else Some (mkVErr InvalidAccountName
    "account name must be 1-64 characters (after trimming) and free of control characters" "first_account.name").

Definition AccountProvider (provider : string) : option ValidationError :=
  if String.eqb provider "openai" then None
  else Some (mkVErr InvalidAccountProvider "provider must be 'openai' in 002" "first_account.provider").

Definition APIKeyRule (key : string) : option ValidationError :=
  if (lenZ key <? APIKeyMinLen) || (APIKeyMaxLen <? lenZ key)
  then Some (mkVErr InvalidAPIKey "api_key must be 1..256 characters" "first_account.api_key")
  else None.

Definition BaseURLRule (url : option string) : option ValidationError :=
  match url with
  | None => None
  | Some u =>
      if String.eqb u "" then None
      else match ValidateBaseURL u with
           | None => None
           | Some e =>
               Some (mkVErr InvalidBaseURL
                 (match as_ValidationError e with Some (_, m) => m | None => "" end) "first_account.base_url")
           end
  end.

(** [PluginsBlock] has no rule yet. *)
Definition PluginsBlock : option ValidationError := None.

Definition is_present {A} (o : option A) : bool := match o with Some _ => true | None => false end.

Definition RuntimeRequired (rt : RuntimeRequestBlock) (raw : list string) : option ValidationError :=
  let required :=
    [("log_client_request_body", is_present (RtLogClientRequestBody rt));
     ("log_upstream_request_body", is_present (RtLogUpstreamRequestBody rt));
     ("log_upstream_response_body", is_present (RtLogUpstreamResponseBody rt));
     ("log_retention_days", is_present (RtLogRetentionDays rt));
     ("log_level", is_present (RtLogLevel rt))] in
  match List.find (fun f => negb (one_of (fst f) raw) || negb (snd f)) required with
  | None => None
  | Some f => Some (mkVErr MalformedBody
      "runtime block is partial; all 5 keys are required when runtime is present" ("runtime." +:+ fst f))
  end.

Definition isValidLogLevel (level : string) : bool := one_of level SupportedLogLevels.

Definition ValidateRetention (days : Z) : option ValidationError :=
  if (days <? RetentionMin) || (RetentionMax <? days)
  then Some (mkVErr InvalidRetention "log_retention_days must be an integer in [1, 365]" "runtime.log_retention_days")
  else None.

Definition ValidateLogLevel (level : string) : option ValidationError :=
  if isValidLogLevel level then None
  else Some (mkVErr InvalidLogLevel "log_level must be one of debug, info, warn, error" "runtime.log_level").

(** The first failing rule. *)
Definition first_error (l : list (option ValidationError)) : option ValidationError :=
  foldr (fun e acc => match e with Some x => Some x | None => acc end) None l.

Definition RuntimeFields (rt : RuntimeRequestBlock) : option ValidationError :=
  first_error [RtLogRetentionDays rt ≫= ValidateRetention; RtLogLevel rt ≫= ValidateLogLevel].

(** [Validator.Commit]. *)
Definition ValidateCommit (req : CommitRequest) : option ValidationError :=
  let a := FirstAccount req in
  first_error
    ([DriverEnum (ReqDriver (ReqDB req)); DSN (ReqURL (ReqDB req))]
     ++ (if IsEmpty a then [] else
           [AccountName (AccName a); AccountProvider (AccProvider a); APIKeyRule (AccAPIKey a);
            BaseURLRule (AccBaseURL a)])
     ++ [PluginsBlock]
     ++ match ReqRuntime req with
        | None => []
        | Some rt => [RuntimeRequired rt (RawRuntime req); RuntimeFields rt]
        end).

Definition ApplyRuntimeDefaults (rt : option RuntimeRequestBlock) : config.RuntimeConfig :=
  let out := config.DefaultRuntimeConfig in
  match rt with
  | None => out
  | Some rt =>
      config.mkRuntime
        (default (config.LogClientRequestBody out) (RtLogClientRequestBody rt))
        (default (config.LogUpstreamRequestBody out) (RtLogUpstreamRequestBody rt))
        (default (config.LogUpstreamResponseBody out) (RtLogUpstreamResponseBody rt))
        (default (config.LogRetentionDays out) (RtLogRetentionDays rt))
        (default (config.LogLevel out) (RtLogLevel rt))
        (config.UsageRefreshIntervalSeconds out) (config.ModelRenames out)
  end.

(** ** state.go *)

(** [IsDone]: an existing regular file means that setup is done. *)
Definition IsDone (fs : FS) (path : string) (stat_fault : option error) : result error bool :=
  if String.eqb path "" then Err (Errorf "setup.IsDone: path is empty" [])
  else match os_Stat fs path stat_fault with
       | Err e => if errors_Is e ErrNotExist then Ok false
                  else Err (Wrapf "setup.IsDone: stat: %w" [] (config.ScrubPath e))
       | Ok info => if is_dir info
                    then Err (Errorf "setup.IsDone: config path is a directory, not a regular file" [])
                    else Ok true
       end.

(** ** gate.go *)

Record Gate := mkGate { done : bool; observerDisabled : bool }.
Definition NewGate : Gate := mkGate false false.

Definition DisableFilesystemObserver (g : Gate) : Gate := mkGate (done g) true.
Definition MarkOpen (g : Gate) : Gate := mkGate true (observerDisabled g).

(** [probe]: the answer, the error and the gate afterwards; [disk] is what
    [IsDone] would answer. *)
Definition probe (g : Gate) (disk : result error bool) : Gate * bool * option error :=
  if done g then (g, true, None)
  else if observerDisabled g then (g, false, None)
  else match disk with
       | Err e => (g, false, Some e)
       | Ok d => (if d then mkGate true (observerDisabled g) else g, d, None)
       end.

Definition isRootHTMLPath (method path : string) : bool :=
  (String.eqb method "GET" || String.eqb method "HEAD") && String.eqb path "/".

Definition isSetupHTMLPath (method path : string) : bool :=
  (String.eqb method "GET" || String.eqb method "HEAD")
  && (String.eqb path "/setup"
      || (HasPrefix path "/setup/" && negb (HasPrefix path "/api/setup/"))).

Definition isSetupPendingDataPlanePath (path : string) : bool :=
  HasPrefix path "/v1/" || String.eqb path "/backend-api" || HasPrefix path "/backend-api/".

(** What the gate does with a request. *)
Inductive gate_answer :=
  | Forward                       (* next.ServeHTTP *)
  | Redirect (target : string)    (* 302 with Cache-Control: no-store *)
  | BizErr (code : Z)             (* the admin envelope *)
  | NativeErr (status : Z) (code : string).

Definition serveSetupPending (path : string) : gate_answer :=
  if String.eqb path "/setup" || HasPrefix path "/setup/" then Forward
  else if HasPrefix path "/api/setup/" then Forward
  else if String.eqb path "/api/admin/health" then Forward
  else if String.eqb path "/" || String.eqb path "/admin" || HasPrefix path "/admin/" then Redirect "/setup/"
  else if HasPrefix path "/api/admin/" then BizErr SetupRequired
  else if isSetupPendingDataPlanePath path then NativeErr 503 "setup_required"
  else Forward.

(** [Wrap]. *)
Definition Wrap (g : Gate) (disk : result error bool) (method path : string) : Gate * gate_answer :=
  let '(g', is_open, _) := probe g disk in
  (g', if is_open then
         if isRootHTMLPath method path || isSetupHTMLPath method path then Redirect "/admin/" else Forward
       else serveSetupPending path).

(** ** commit.go *)

Record CommitFailure := mkFailure { FCode : Z; FMsg : string; FErr : error; FSysErr : bool; FHint : string }.
Record CommitResult := mkResult { ConfigVersion : Z; AccountID : Z }.

Definition driverHint (driver : string) : string :=
  if String.eqb driver "sqlite3" then "verify the sqlite file path exists and is writable"
  else if String.eqb driver "postgres" then "verify host/port/credentials and that the server accepts connections"
  else if String.eqb driver "mysql" then "verify host/port/credentials and that mysql is listening on the expected port"
  else "verify " +:+ driver +:+ " is reachable and credentials are correct".

Section commit.
(** The database as the commit sees it: the probe, the migrator factory, the
    migration and the insertion of an account (which assigns its id).  [W]
    is the state of the database. *)
Context {W : Type}.
Context (ProbeDSN : W -> string -> string -> option error).
Context (factory_Open : W -> string -> string -> option error).
Context (migrate_Up : W -> W * option error).
Context (CreateAccount : W -> UpstreamAccount -> W * result error Z).

(** What the file system and the reloader answer. *)
Record commit_env := mkEnv {
  ce_ctx : option error;
  ce_stat : option error;
  ce_self : Z;
  ce_kill : Z -> kill_result;
  ce_readdir : option error;
  ce_remove : string -> option error;
  ce_now : stamp;       (* time.Now before the insertion *)
  ce_write_now : stamp; (* time.Now inside WriteAtomic *)
  ce_io : io_faults;
  ce_reload : option error;
}.

Record commit_world := mkWorld { w_db : W; w_dir : FS }.

Definition sys_failure (code : Z) (msg : string) (e : error) : CommitFailure := mkFailure code msg e true "".

Definition first_account (req : CommitRequest) (now : time) : UpstreamAccount :=
  let a := FirstAccount req in
  zero_account <| Name := TrimSpace (AccName a) |> <| Provider := AccProvider a |>
    <| APIKey := AccAPIKey a |>
    <| BaseURL := match AccBaseURL a with Some u => if String.eqb u "" then None else Some u | None => None end |>
    <| Status := AccountStatusActive |> <| CreatedAt := now |> <| UpdatedAt := now |>
    <| Capabilities := Some ["op.openai.chat_completions"; "op.openai.responses"] |>.

Definition commit_config (req : CommitRequest) (now : stamp) : config.Config :=
  config.mkConfig config.SupportedVersion
    (config.mkDB (ReqDriver (ReqDB req)) (ReqURL (ReqDB req)))
    (ApplyRuntimeDefaults (ReqRuntime req))
    (config.mkPlugins (config.mkAdminAuth (ReqAdminAuth req) 0 "") (config.mkClientKeys (ReqClientKeys req)))
    (config.mkNetwork "") now now.

(** Step 4: the optional first account. *)
Definition insert_first (db : W) (req : CommitRequest) (now : time) : W * result error Z :=
  if IsEmpty (FirstAccount req) then (db, Ok 0) else CreateAccount db (first_account req now).

(** Steps 5 to 7: sweep, write, reload.  A failing sweep is only logged. *)
Definition publish (env : commit_env) (path : string) (req : CommitRequest) (fs : FS)
    : write_result * option CommitFailure :=
  let '(fs1, _) := SweepStale fs path (ce_self env) (ce_kill env) (ce_readdir env) (ce_remove env) in
  let r := WriteAtomic fs1 path (ce_self env) (ce_write_now env) (ce_io env)
             (Some (commit_config req (ce_now env))) in
  (r, match w_err r with
      | Some e => Some (sys_failure ConfigWriteFailed "config_write_failed" e)
      | None =>
          match ce_reload env with
          | Some e => Some (mkFailure ConfigWriteFailed "config_reload_failed" e true
              "config.json was written but the live reload failed; retry or restart the router")
          | None => None
          end
      end).

(** [Commit], under the [Serialiser] lock. *)
Definition Commit (env : commit_env) (path : string) (w : commit_world) (req : CommitRequest)
    : commit_world * (CommitResult + CommitFailure) :=
  let fail f := (w, inr f) in
  if String.eqb path "" then fail (sys_failure InternalError "cfgPath is empty" (Errorf "setup.Commit: cfgPath empty" []))
  else match ce_ctx env with
  | Some e => fail (sys_failure InternalError "context cancelled" e)
  | None =>
  match IsDone (w_dir w) path (ce_stat env) with
  | Err e => fail (sys_failure InternalError "config_path_unreadable" e)
  | Ok true => fail (mkFailure SetupAlreadyDone "setup_already_done"
                       (Errorf "setup.Commit: config.json already present under lock" []) false "")
  | Ok false =>
  match ValidateCommit req with
  | Some v => fail (mkFailure (VCode v) (VMsg v) (Errorf (VMsg v) []) false (VField v))
  | None =>
  let driver := ReqDriver (ReqDB req) in
  let url := ReqURL (ReqDB req) in
  match ProbeDSN (w_db w) driver url with
  | Some e => fail (mkFailure InvalidDSN "invalid_dsn" e false (driverHint driver))
  | None =>
  match factory_Open (w_db w) driver url with
  | Some e => fail (sys_failure MigrateFailed "migrate_failed" e)
  | None =>
  match migrate_Up (w_db w) with
  | (db1, Some e) => (mkWorld db1 (w_dir w), inr (sys_failure MigrateFailed "migrate_failed" e))
  | (db1, None) =>
  match insert_first db1 req (at_ns (ce_now env)) with
  | (db2, Err e) => (mkWorld db2 (w_dir w), inr (sys_failure CommitTxFailed "commit_tx_failed" e))
  | (db2, Ok id) =>
      let '(r, failure) := publish env path req (w_dir w) in
      (mkWorld db2 (w_fs r),
       match failure with
       | Some f => inr f
       | None => inl (mkResult config.SupportedVersion id)
       end)
  end end end end end end end.

(** ** brownfield.go *)

(** [BootstrapIfBrownfield]: whether it materialised the file, or the
    error that aborts the boot. *)
Definition BootstrapIfBrownfield (ctx_err : option error) (count : result error Z) (path : string)
    (env : config.Env) (fs : FS) (stat_fault : option error) (self : Z) (now write_now : stamp)
    (io : io_faults) : FS * result error bool :=
  if String.eqb path "" then (fs, Err (Errorf "brownfield: cfgPath is empty" []))
  else match ctx_err with
  | Some e => (fs, Err e)
  | None =>
  match os_Stat fs path stat_fault with
  | Ok _ => (fs, Ok false)
  | Err e =>
    if negb (errors_Is e ErrNotExist) then
      (fs, Err (Wrapf "brownfield: stat config.json: %w" [] (config.ScrubPath e)))
    else
      match env "ROUTER_DB_DRIVER", env "ROUTER_DB_URL" with
      | Some driver, Some url =>
          if String.eqb driver "" || String.eqb url "" then (fs, Ok false)
          else match count with
          | Err e => (fs, Err (Wrapf "brownfield: count upstream_accounts: %w" [] e))
          | Ok n =>
              if n <=? 0 then (fs, Ok false)
              else
                let cfg := config.mkConfig config.SupportedVersion (config.mkDB driver url)
                  config.DefaultRuntimeConfig config.DefaultPluginsConfig (config.mkNetwork "") now now in
                let r := WriteAtomic fs path self write_now io (Some cfg) in
                (w_fs r, match w_err r with
                         | Some e => Err (Wrapf "brownfield: write config.json: %w" [] e)
                         | None => Ok true
                         end)
          end
      | _, _ => (fs, Ok false)
      end
  end end.
End commit.

End setup.
