(* ===== verification/SetupProofs.v ===== *)
(** * SetupProofs: the gate's latch and the wizard's commit *)

From S2P Require Import Prelude GoLib GoHTTP GoJSON GoJSONProofs GoTime Errors GoOS Account Config ConfigWriter ConfigProofs Setup GatewayRoutes.
Import setup.

(** ** The gate *)

(** What can happen to a gate, in any order. *)
Inductive gate_event :=
  | EvRequest (disk : result error bool) (method path : string)
  | EvProbe (disk : result error bool)
  | EvMark
  | EvDisable.

Definition gate_step (g : Gate) (e : gate_event) : Gate :=
  match e with
  | EvRequest disk m p => fst (Wrap g disk m p)
  | EvProbe disk => fst (fst (probe g disk))
  | EvMark => MarkOpen g
  | EvDisable => DisableFilesystemObserver g
  end.
Definition gate_run (g : Gate) (l : list gate_event) : Gate := foldl gate_step g l.

Definition observes (e : gate_event) : bool :=
  match e with
  | EvRequest (Ok true) _ _ | EvProbe (Ok true) => true
  | _ => false
  end.

(** The events that open a fresh gate: an explicit mark, or an observation of
    the finished setup while the observer is enabled. *)
Fixpoint opens (disabled : bool) (l : list gate_event) : bool :=
  match l with
  | [] => false
  | EvMark :: _ => true
  | EvDisable :: l' => opens true l'
  | e :: l' => (observes e && negb disabled) || opens disabled l'
  end.

Lemma probe_step g disk :
  fst (fst (probe g disk)) =
  mkGate (done g || (negb (observerDisabled g) && match disk with Ok b => b | Err _ => false end))
         (observerDisabled g).
Proof.
  destruct g as [d o]. unfold probe. cbn [done observerDisabled].
  destruct d; [done|]. destruct o; [done|]. by destruct disk as [[]|].
Qed.

Lemma Wrap_probe g disk m p : fst (Wrap g disk m p) = fst (fst (probe g disk)).
Proof. unfold Wrap. by destruct (probe g disk) as [[g' o] e]. Qed.

Lemma gate_run_spec g l :
  done (gate_run g l) = done g || opens (observerDisabled g) l.
Proof.
  revert g; induction l as [|e l IH]; intros g; [by rewrite orb_false_r|].
  change (gate_run g (e :: l)) with (gate_run (gate_step g e) l). rewrite IH.
  destruct e as [disk m p|disk| |]; cbn [gate_step opens observes].
  - rewrite Wrap_probe, probe_step. cbn [done observerDisabled].
    destruct disk as [[]|]; cbn; rewrite ?andb_false_r, ?andb_true_r, ?orb_false_r, ?orb_assoc; done.
  - rewrite probe_step. cbn [done observerDisabled].
    destruct disk as [[]|]; cbn; rewrite ?andb_false_r, ?andb_true_r, ?orb_false_r, ?orb_assoc; done.
  - cbn. by rewrite orb_true_r.
  - done.
Qed.

Definition data_plane (path : string) : bool := HasPrefix path "/v1/" || HasPrefix path "/backend-api/".

Lemma switch_data_plane {A} path (cases : list (string * A)) r :
  forallb (fun c => data_plane (fst c)) cases = true -> switch path cases = Some r -> data_plane path = true.
Proof.
  induction cases as [|[k v] cases IH]; [done|]. cbn [forallb switch fst]. rewrite andb_true_iff.
  intros [Hk Hc]. destruct (String.eqb_spec path k) as [-> |]; [done|auto].
Qed.

Lemma static_data_plane method path r :
  staticGatewayRoute method path = Some r -> data_plane path = true.
Proof.
  unfold staticGatewayRoute. destruct (switch path _) as [o|] eqn:E; [|done]. intros _.
  eapply switch_data_plane; [|exact E]; reflexivity.
Qed.

Lemma pending_data_plane path :
  data_plane path = true -> serveSetupPending path = NativeErr 503 "setup_required".
Proof.
  unfold data_plane. rewrite orb_true_iff, !HasPrefix_spec. intros [[r ->]|[r ->]]; destruct r; reflexivity.
Qed.

Lemma pending_admin path :
  HasPrefix path "/api/admin/" = true -> path <> "/api/admin/health" ->
  serveSetupPending path = BizErr SetupRequired.
Proof.
  intros [r ->]%HasPrefix_spec Hne. unfold serveSetupPending.
  rewrite (proj2 (String.eqb_neq _ _) Hne). destruct r; reflexivity.
Qed.

Lemma open_data_plane method path :
  data_plane path = true \/ HasPrefix path "/api/admin/" = true ->
  isRootHTMLPath method path || isSetupHTMLPath method path = false.
Proof.
  unfold data_plane, isRootHTMLPath, isSetupHTMLPath. rewrite orb_true_iff, !HasPrefix_spec.
  intros [[[r ->]|[r ->]]|[r ->]]; destruct (_ || String.eqb method "HEAD"), r; reflexivity.
Qed.

(** C33: the setup gate.  After any sequence of requests, probes, marks and
    observer switches, a gate is open exactly when the sequence contains an
    explicit mark, or an observation of the finished setup while the observer
    was enabled, so that it never closes again.  While it is closed every data-plane
    request (in particular every fixed route of the gateway) gets the 503
    refusal and every admin call but health the [setup_required] envelope;
    once it is open they are all forwarded. *)
Theorem gate_contract l disk method path :
  let g := gate_run NewGate l in
  let e := EvRequest disk method path in
  done (gate_step g e) = opens false (l ++ [e])
  /\ (done g = true -> forall l', done (gate_run g l') = true)
  /\ (forall m r, staticGatewayRoute m path = Some r -> data_plane path = true)
  /\ (data_plane path = true ->
      snd (Wrap g disk method path)
      = if opens false (l ++ [e]) then Forward else NativeErr 503 "setup_required")
  /\ (HasPrefix path "/api/admin/" = true -> path <> "/api/admin/health" ->
      snd (Wrap g disk method path) = if opens false (l ++ [e]) then Forward else BizErr SetupRequired).
Proof.
  intros g e.
  assert (gate_run NewGate (l ++ [e]) = gate_step g e) as Hrun by (unfold gate_run; by rewrite foldl_app).
  assert (done (gate_step g e) = opens false (l ++ [e])) as Hd by (by rewrite <- Hrun, gate_run_spec).
  assert (forall m p, snd (Wrap g disk m p) =
    if done (gate_step g (EvRequest disk m p)) then
      if isRootHTMLPath m p || isSetupHTMLPath m p then Redirect "/admin/" else Forward
    else serveSetupPending p) as Hw.
  { intros m p. cbn [gate_step]. rewrite Wrap_probe, probe_step. unfold Wrap, probe.
    destruct g as [[] []]; cbn; [done..|]. by destruct disk as [[]|]. }
  split; [done|]. split; [intros Hg l'; by rewrite gate_run_spec, Hg|].
  split; [intros m r; by apply static_data_plane|].
  rewrite <- Hd. split.
  - intros Hp. rewrite Hw. fold e. destruct (done (gate_step g e)); [by rewrite open_data_plane by auto|].
    by apply pending_data_plane.
  - intros Hp Hne. rewrite Hw. fold e. destruct (done (gate_step g e)); [by rewrite open_data_plane by auto|].
    by apply pending_admin.
Qed.

(** ** The commit *)

Section commit_proofs.
Context {W : Type}.
Context (ProbeDSN : W -> string -> string -> option error).
Context (factory_Open : W -> string -> string -> option error).
Context (migrate_Up : W -> W * option error).
Context (CreateAccount : W -> UpstreamAccount -> W * result error Z).

Abbreviation Commit := (Commit ProbeDSN factory_Open migrate_Up CreateAccount).
Abbreviation insert_first := (insert_first CreateAccount).

(** Everything that precedes the write went through, and left the database
    in the state [db]. *)
Definition prepared (env : commit_env) (w : commit_world (W := W)) (req : CommitRequest)
    (db : W) (id : Z) : Prop :=
  ValidateCommit req = None
  /\ ProbeDSN (w_db w) (ReqDriver (ReqDB req)) (ReqURL (ReqDB req)) = None
  /\ factory_Open (w_db w) (ReqDriver (ReqDB req)) (ReqURL (ReqDB req)) = None
  /\ exists db1, migrate_Up (w_db w) = (db1, None)
       /\ insert_first db1 req (at_ns (ce_now env)) = (db, Ok id).

(** How a commit ends: refused before the write (the directory is as it
    was), or published. *)
Lemma Commit_cases env path w req :
  (exists f, snd (Commit env path w req) = inr f /\ w_dir (fst (Commit env path w req)) = w_dir w)
  \/ (exists db id,
        prepared env w req db id
        /\ IsDone (w_dir w) path (ce_stat env) = Ok false
        /\ Commit env path w req =
           (mkWorld db (w_fs (fst (publish env path req (w_dir w)))),
            match snd (publish env path req (w_dir w)) with
            | Some f => inr f
            | None => inl (mkResult config.SupportedVersion id)
            end)).
Proof.
  unfold setup.Commit.
  destruct (String.eqb path ""); [left; by eexists|].
  destruct (ce_ctx env); [left; by eexists|].
  destruct (IsDone (w_dir w) path (ce_stat env)) as [[]|e] eqn:Ed; [left; by eexists| |left; by eexists].
  destruct (ValidateCommit req) as [v|] eqn:Ev; [left; by eexists|].
  destruct (ProbeDSN _ _ _) eqn:Ep; [left; by eexists|].
  destruct (factory_Open _ _ _) eqn:Ef; [left; by eexists|].
  destruct (migrate_Up (w_db w)) as [db1 [e|]] eqn:Em; [left; by eexists|].
  destruct (setup.insert_first CreateAccount db1 req _) as [db2 [id|e]] eqn:Ei; [|left; by eexists].
  right. exists db2, id. split; [|split; [done|]].
  - repeat split; [done..|]. by exists db1.
  - by destruct (publish env path req (w_dir w)) as [r f].
Qed.

(** The write of a commit. *)
Definition commit_payload (env : commit_env) (req : CommitRequest) : option string :=
  payload_of (ce_write_now env) (commit_config req (ce_now env)).

Lemma publish_spec env path req fs :
  settled fs path ->
  let '(r, failure) := publish env path req fs in
  match failure with
  | None => w_err r = None
  | Some _ => True
  end
  /\ match commit_payload env req with
     | Some payload =>
         (forall f, f ∈ w_trail r -> old_or_new fs path payload f)
         /\ content (w_fs r) path = match w_err r with None => Some payload | Some _ => content fs path end
     | None => is_Some (w_err r) /\ content (w_fs r) path = content fs path
     end.
Proof.
  intros Hst. unfold publish.
  pose proof (settled_sweep fs path (ce_self env) (ce_kill env) (ce_readdir env) (ce_remove env) Hst) as [H1 H2].
  destruct (SweepStale fs path _ _ _ _) as [fs1 e1]. cbn [fst] in *.
  set (r := WriteAtomic _ _ _ _ _ _). unfold commit_payload.
  split; [destruct (w_err r), (ce_reload env); done|].
  pose proof (WriteAtomic_cases fs1 path (ce_self env) (ce_write_now env) (ce_io env)
    (commit_config req (ce_now env)) H1) as Hc. cbv zeta in Hc. fold r in Hc.
  destruct (payload_of _ _) as [payload|].
  - destruct Hc as [Htr Hend]. split.
    + intros f Hf. rewrite Forall_forall in Htr. destruct (Htr f Hf) as [new Hb].
      unfold old_or_new. rewrite <- H2. by eapply between_read.
    + destruct (w_err r).
      * rewrite <- H2. by eapply between_old, Hend.
      * destruct Hend as (i & Hb & Hi & _). by eapply between_content.
  - destruct Hc as (He & -> & _). done.
Qed.
End commit_proofs.

(** ** What a validated request contains *)

Lemma first_error_None l : first_error l = None <-> Forall (fun e => e = None) l.
Proof.
  induction l as [|[v|] l IH]; cbn; [by split| |].
  - split; [done|]. by intros [? _]%Forall_cons.
  - rewrite IH, Forall_cons. tauto.
Qed.

Lemma one_of_ascii x l : forallb ascii_str l = true -> one_of x l = true -> valid_utf8 x = true.
Proof.
  unfold one_of. rewrite existsb_exists, forallb_forall. intros Hl (y & Hy & ->%String.eqb_eq).
  by apply ascii_runes_ok, Hl.
Qed.

Lemma validated_runtime rt raw :
  RuntimeRequired rt raw = None -> RuntimeFields rt = None ->
  let r := ApplyRuntimeDefaults (Some rt) in
  int_ok (config.LogRetentionDays r) = true /\ valid_utf8 (config.LogLevel r) = true.
Proof.
  intros _ Hf r. unfold RuntimeFields in Hf. apply first_error_None in Hf.
  apply Forall_cons in Hf as [Hd Hf]. apply Forall_cons in Hf as [Hl _]. subst r. cbn.
  destruct (RtLogRetentionDays rt) as [d|], (RtLogLevel rt) as [s|]; cbn in *; split; try done.
  all: unfold ValidateRetention, ValidateLogLevel, isValidLogLevel in *.
  1,3: destruct (_ || _) eqn:E in Hd; [done|]; apply orb_false_iff in E as [E1%Z.ltb_ge E2%Z.ltb_ge];
       unfold int_ok; apply andb_true_iff; split; apply Z.leb_le;
       unfold RetentionMin, RetentionMax, MinInt64, MaxInt64 in *; lia.
  all: destruct (one_of s SupportedLogLevels) eqn:E; [|done]; by eapply one_of_ascii; [|exact E].
Qed.

Lemma commit_config_ok req now :
  ValidateCommit req = None -> valid_utf8 (ReqURL (ReqDB req)) = true ->
  config_ok (commit_config req now) = true.
Proof.
  intros Hv Hu. unfold ValidateCommit in Hv. apply first_error_None in Hv.
  rewrite !Forall_app in Hv. destruct Hv as (Hdb & _ & _ & Hrt).
  apply Forall_cons in Hdb as [Hdrv _]. unfold DriverEnum in Hdrv.
  destruct (String.eqb _ ""); [done|]. destruct (one_of (ReqDriver (ReqDB req)) SupportedDrivers) eqn:Ed; [|done].
  assert (valid_utf8 (ReqDriver (ReqDB req)) = true) as Hd by (by eapply one_of_ascii; [|exact Ed]).
  unfold config_ok, commit_config.
  cbn [config.Version config.DB config.Driver config.URL config.Runtime config.Plugins config.Network
       config.AdminAuth config.SessionTTLMinutes config.JWTSecretRef config.ProxyURL].
  rewrite Hd, Hu. destruct (ReqRuntime req) as [rt|]; [|reflexivity].
  apply Forall_cons in Hrt as [H1 Hrt]. apply Forall_cons in Hrt as [H2 _].
  destruct (validated_runtime rt _ H1 H2) as [-> ->]. reflexivity.
Qed.

Lemma IsDone_false fs path fault :
  fault = None -> IsDone fs path fault = Ok false -> content fs path = None.
Proof.
  intros -> H. unfold IsDone, os_Stat, content in *. destruct (String.eqb path ""); [discriminate|].
  destruct (lookup_file fs path) as [n|]; [|done]. destruct (is_dir n); discriminate.
Qed.

Lemma Commit_done {W} probe_dsn mopen up (create : W -> UpstreamAccount -> W * result error Z) env path w req :
  let r := Commit probe_dsn mopen up create env path w req in
  path <> "" -> ce_ctx env = None -> ce_stat env = None ->
  forall n, lookup_file (w_dir w) path = Some n -> is_dir n = false ->
  fst r = w /\ exists f, snd r = inr f /\ FCode f = SetupAlreadyDone.
Proof.
  intros r Hne Hctx Hs n Hl Hd. subst r. apply String.eqb_neq in Hne.
  unfold setup.Commit, IsDone, os_Stat. rewrite Hne, Hctx, Hs, Hl, Hd. cbn [fst snd].
  split; [reflexivity|]. eexists. split; reflexivity.
Qed.

(** C34: file last, database first.  Whatever fails in a commit, the content
    of config.json changes only if the request was valid, the DSN answered,
    the migrations ran and the first account (if any) was inserted, and then
    it becomes exactly the committed configuration, at once: at no point of the
    write is it anything but the old content or that payload.  A success means
    that it was written and names the inserted account; when the file already
    exists the answer is [setup_already_done] and nothing is touched. *)
Theorem Commit_file_last {W} probe_dsn mopen up (create : W -> UpstreamAccount -> W * result error Z)
    env path w req :
  settled (w_dir w) path ->
  let r := Commit probe_dsn mopen up create env path w req in
  (content (w_dir (fst r)) path <> content (w_dir w) path ->
     exists id, prepared probe_dsn mopen up create env w req (w_db (fst r)) id
       /\ (ce_stat env = None -> content (w_dir w) path = None)
       /\ content (w_dir (fst r)) path = commit_payload env req)
  /\ (forall payload f, commit_payload env req = Some payload ->
        f ∈ w_trail (fst (publish env path req (w_dir w))) -> old_or_new (w_dir w) path payload f)
  /\ match snd r with
     | inl res =>
         prepared probe_dsn mopen up create env w req (w_db (fst r)) (AccountID res)
         /\ is_Some (commit_payload env req)
         /\ content (w_dir (fst r)) path = commit_payload env req
     | inr _ => True
     end
  /\ (path <> "" -> ce_ctx env = None -> ce_stat env = None ->
      forall n, lookup_file (w_dir w) path = Some n -> is_dir n = false ->
      fst r = w /\ exists f, snd r = inr f /\ FCode f = SetupAlreadyDone).
Proof.
  intros Hst r. pose proof (publish_spec env path req (w_dir w) Hst) as Hp.
  pose proof (Commit_cases probe_dsn mopen up create env path w req) as Hc.
  pose proof (Commit_done probe_dsn mopen up create env path w req) as Hdone.
  change (Commit probe_dsn mopen up create env path w req) with r in Hc, Hdone. clearbody r.
  destruct (publish env path req (w_dir w)) as [wr failure]. destruct Hp as [Hf Hp]. cbn [fst snd] in *.
  split; [|split; [|split; [|exact Hdone]]].
  - destruct Hc as [(f & _ & Hd)|(db & id & Hpre & Hd & ->)]; [rewrite Hd; intros H; by destruct (H eq_refl)|].
    cbn [fst w_dir w_db]. intros Hne. exists id. split; [exact Hpre|]. split.
    + intros Hs. by eapply IsDone_false; [exact Hs|].
    + destruct (commit_payload env req) as [payload|]; [|by destruct Hp].
      destruct Hp as [_ Hp]. by destruct (w_err wr).
  - intros payload f Hpay. rewrite Hpay in Hp. apply Hp.
  - destruct Hc as [(f & Hf' & _)|(db & id & Hpre & _ & ->)]; [by rewrite Hf'|].
    cbn [snd fst w_dir w_db]. destruct failure; [done|]. cbn [AccountID].
    rewrite Hf in Hp. destruct (commit_payload env req) as [payload|]; [|by destruct Hp as [[? ?] _]].
    by destruct Hp.
Qed.

(** A directory from which the router boots with [cfg]: the setup is done, the
    brownfield path leaves it alone, and loading gives [cfg] with the database
    settings the environment overrides. *)
Definition boots (fs : FS) (path : string) (cfg : config.Config) : Prop :=
  IsDone fs path None = Ok true
  /\ (forall count env' self now write_now io,
        BootstrapIfBrownfield None count path env' fs None self now write_now io = (fs, Ok false))
  /\ forall env',
       config.missing_fields (effective_db env' (config.DB cfg)) = [] ->
       exists src, config.Load None fs path None None env'
         = Ok (cfg <| config.DB := effective_db env' (config.DB cfg) |>, src).

(** The boot after a successful write of the configuration [c]. *)
Lemma written_boot fs path pid now io c :
  settled fs path -> path <> "" -> config_ok c = true -> config.Version c = config.SupportedVersion ->
  w_err (WriteAtomic fs path pid now io (Some c)) = None ->
  boots (w_fs (WriteAtomic fs path pid now io (Some c))) path (stamp_config now c).
Proof.
  intros Hst Hne Hok Hver He.
  pose proof (WriteAtomic_Load fs path pid now io c Hst Hok) as Hload.
  pose proof (WriteAtomic_file fs path pid now io c Hst He) as (n & Hn & Hd).
  assert (config.DB (stamp_config now c) = config.DB c) as Edb
    by (unfold stamp_config; by destruct (IsZero _)).
  specialize (Hload Hver He) as [_ Hload].
  set (wr := WriteAtomic _ _ _ _ _ _) in *. clearbody wr.
  assert (String.eqb path "" = false) as Hpe by (by apply String.eqb_neq).
  split; [|split].
  - unfold IsDone, os_Stat. rewrite Hpe, Hn, Hd. reflexivity.
  - intros. unfold BootstrapIfBrownfield, os_Stat. rewrite Hpe, Hn. reflexivity.
  - rewrite Edb. intros env' Hm. destruct (Hload env' Hm) as (src & E & _). by exists src.
Qed.

Lemma publish_boots env path req fs :
  settled fs path -> path <> "" -> config_ok (commit_config req (ce_now env)) = true ->
  snd (publish env path req fs) = None ->
  boots (w_fs (fst (publish env path req fs))) path
    (stamp_config (ce_write_now env) (commit_config req (ce_now env))).
Proof.
  intros Hst Hne Hok. unfold publish.
  pose proof (settled_sweep fs path (ce_self env) (ce_kill env) (ce_readdir env) (ce_remove env) Hst) as [H1 _].
  destruct (SweepStale fs path _ _ _ _) as [fs1 e1]. cbn [fst] in *.
  pose proof (written_boot fs1 path (ce_self env) (ce_write_now env) (ce_io env) _ H1 Hne Hok eq_refl) as Hb.
  set (wr := WriteAtomic _ _ _ _ _ _) in *. clearbody wr. cbn [fst snd].
  destruct (w_err wr); [discriminate|]. intros _. by apply Hb.
Qed.

(** A successful commit survives the restart.  The next boot finds the
    setup done, the brownfield path does nothing, and loading the file gives
    exactly the committed configuration (the validation rules make it
    round-trip), up to the environment's database overrides. *)
Theorem Commit_Load {W} probe_dsn mopen up (create : W -> UpstreamAccount -> W * result error Z)
    env path w req res :
  settled (w_dir w) path -> path <> "" -> valid_utf8 (ReqURL (ReqDB req)) = true ->
  let r := Commit probe_dsn mopen up create env path w req in
  snd r = inl res ->
  boots (w_dir (fst r)) path
    (stamp_config (ce_write_now env) (commit_config req (ce_now env))).
Proof.
  intros Hst Hne Hu r Hr.
  pose proof (Commit_cases probe_dsn mopen up create env path w req) as Hc.
  change (Commit probe_dsn mopen up create env path w req) with r in Hc. clearbody r.
  destruct Hc as [(f & Hf & _)|(db & id & (Hv & _) & _ & Heq)]; [congruence|].
  pose proof (commit_config_ok req (ce_now env) Hv Hu) as Hok.
  pose proof (publish_boots env path req (w_dir w) Hst Hne Hok) as Hb.
  destruct (publish env path req (w_dir w)) as [wr f]. subst r. cbn [fst snd w_dir] in *.
  destruct f; [discriminate|]. exact (Hb eq_refl).
Qed.
