(* ===== verification/Settings.v ===== *)
(** * Settings: changing the configuration while the router runs
      (internal/api/adminapi/settings.go and updater.go, the proxy slot of
       internal/proxydial/proxydial.go)

    A patch is decoded from the request, checked, refused when an environment
    variable owns one of its keys, applied to the published configuration,
    written by [ConfigWriter], read back by [Config] and published.  Messages
    are kept as format and arguments. *)

From S2P Require Import Prelude GoLib GoHTTP GoURL GoMime GoJSON GoTime GoBufio Errors GoOS Config ConfigWriter Setup.
Import config.

Module settings.

Definition SettingsMaxBodyBytes : Z := 16 * 2 ^ 10.
Definition maxModelRenameRules : Z := 32.
Definition maxModelRenameModelLen : Z := 128.

Definition InvalidPluginFlag : Z := 2006.
Definition RequestBodyTooLarge : Z := 2009.
Definition UnknownConfigKey : Z := 2012.
Definition EnvOverrideReadonly : Z := 2013.
Definition InvalidModelRename : Z := 2017.
Definition InvalidProxyURL : Z := 9001.

(** [setup.ValidationError] with a formatted message. *)
Record patch_error := mkPErr { e_Code : Z; e_Fmt : string; e_Args : list farg; e_Field : string }.
Abbreviation res := (result patch_error).
Definition bad {A} (code : Z) (msg field : string) : res A := Err (mkPErr code msg [] field).
Definition unpatchable {A} (fmt key : string) : res A := Err (mkPErr UnknownConfigKey fmt [FStr key] key).
Definition of_setup {A} (v : option setup.ValidationError) (k : res A) : res A :=
  match v with Some e => bad (setup.VCode e) (setup.VMsg e) (setup.VField e) | None => k end.

(** ** The outbound proxy (proxydial.go) *)

(** [URL.Hostname]. *)
Definition Hostname (u : GoURL.URL) : string :=
  let stripped := match LastIndexByte (Host u) ":" with
                  | Some i => if validOptionalPort (drop_str i (Host u)) then take_str i (Host u) else Host u
                  | None => Host u end in
  if HasPrefix stripped "[" && HasSuffix stripped "]" then take_str (String.length stripped - 2) (drop_str 1 stripped)
  else stripped.

Definition supportedSchemes : list string := ["http"; "https"; "socks5"; "socks5h"].

(** [Ok None] is the empty setting. *)
Definition ParseAndValidate (raw : string) : result error (option GoURL.URL) :=
  let trimmed := TrimSpace raw in
  if String.eqb trimmed "" then Ok None
  else match Parse trimmed with
       | None => Err (Wrapf "%w: malformed URL" [] (Sentinel ErrInvalidProxyURL))
       | Some u =>
           if negb (existsb (String.eqb (ToLowerASCII (Scheme u))) supportedSchemes)
           then Err (Wrapf "%w: scheme %q not supported (use http, https, socks5 or socks5h)" [FStr (Scheme u)]
                       (Sentinel ErrInvalidProxyURL))
           else if String.eqb (Hostname u) "" then Err (Wrapf "%w: missing host" [] (Sentinel ErrInvalidProxyURL))
           else Ok (Some u)
       end.

(** The slot after [Configure]; a rejected value leaves it as it was. *)
Definition Configure (raw : string) (slot : option GoURL.URL) : option GoURL.URL :=
  match ParseAndValidate raw with Ok u => u | Err _ => slot end.

(** ** The patch *)

Record SettingsPatch := mkPatch {
  pLogClientRequestBody : option bool; pLogUpstreamRequestBody : option bool; pLogUpstreamResponseBody : option bool;
  pLogRetentionDays : option Z; pLogLevel : option string; pModelRenames : option (list ModelRenameRule);
  pAdminAuthEnabled : option bool; pClientKeysEnabled : option bool; pNetworkProxyURL : option string }.
#[export] Instance SettingsPatch_eta : Eta SettingsPatch := fun p =>
  mkPatch (pLogClientRequestBody p) (pLogUpstreamRequestBody p) (pLogUpstreamResponseBody p) (pLogRetentionDays p)
    (pLogLevel p) (pModelRenames p) (pAdminAuthEnabled p) (pClientKeysEnabled p) (pNetworkProxyURL p).
Definition no_patch : SettingsPatch := mkPatch None None None None None None None None None.

(** [map[string]json.RawMessage]: the last of equal keys, [null] is the nil
    map. *)
Abbreviation raw_object := (gmap string json).
Definition object_of (v : json) : option raw_object :=
  match v with JNull => Some ∅ | JObj l => Some (list_to_map (reverse l)) | _ => None end.

(** [unmarshalBool]: [null] leaves the zero value and is no error. *)
Definition unmarshalBool (v : json) : option bool := dec_bool v false.

Fixpoint each {A} (f : string -> json -> A -> res A) (l : list (string * json)) (a : A) : res A :=
  match l with [] => Ok a | (k, v) :: l' => a' ← f k v a; each f l' a' end.

Section decode.
(** The order in which [range] visits a map. *)
Context (range : raw_object -> list (string * json)).

Definition bool_key (key : string) (v : json) (store : bool -> SettingsPatch) : res SettingsPatch :=
  match unmarshalBool v with
  | Some b => Ok (store b)
  | None => bad setup.MalformedBody (key +:+ " must be a boolean") ("runtime." +:+ key)
  end.

Definition decodeModelRenameString (raw : option json) : option string := raw ≫= (fun v => dec_string v "").

Definition model_renames_shape : string := "model_renames must be an array of {from,to} objects".
Definition rename_path (idx : nat) : string := "runtime.model_renames[" +:+ Itoa (Z.of_nat idx) +:+ "]".

(** One entry. *)
Definition rename_entry (idx : nat) (entry : raw_object) (seen : list string) : res ModelRenameRule :=
  let path := rename_path idx in
  let rename_bad {A} msg suffix : res A := bad InvalidModelRename ("model_renames" +:+ msg) (path +:+ suffix) in
  match List.find (fun kv => negb (String.eqb (fst kv) "from" || String.eqb (fst kv) "to")) (range entry) with
  | Some (key, _) => unpatchable "config key %q is not patchable in 002" (path +:+ "." +:+ key)
  | None =>
      match decodeModelRenameString (entry !! "from"), decodeModelRenameString (entry !! "to") with
      | None, _ => rename_bad ".from must be a string" ".from"
      | _, None => rename_bad ".to must be a string" ".to"
      | Some from, Some to =>
          let from := TrimSpace from in
          let to := TrimSpace to in
          if String.eqb from "" then rename_bad ".from must be non-empty" ".from"
          else if String.eqb to "" then rename_bad ".to must be non-empty" ".to"
          else if maxModelRenameModelLen <? lenZ from then rename_bad ".from must be 128 characters or fewer" ".from"
          else if maxModelRenameModelLen <? lenZ to then rename_bad ".to must be 128 characters or fewer" ".to"
          else if String.eqb from to then rename_bad ".from and model_renames.to must differ" ".to"
          else if existsb (String.eqb from) seen then rename_bad ".from values must be unique" ".from"
          else Ok (mkRename from to)
      end
  end.

Fixpoint rename_entries (idx : nat) (l : list raw_object) (seen : list string) : res (list ModelRenameRule) :=
  match l with
  | [] => Ok []
  | entry :: l' =>
      r ← rename_entry idx entry seen; rs ← rename_entries (S idx) l' (From r :: seen); Ok (r :: rs)
  end.

Fixpoint objects (l : list json) : option (list raw_object) :=
  match l with [] => Some [] | v :: l' => o ← object_of v; os ← objects l'; Some (o :: os) end.

Definition decodeModelRenameRules (v : json) : res (list ModelRenameRule) :=
  match v with
  | JArr l =>
      match objects l with
      | None => bad InvalidModelRename model_renames_shape "runtime.model_renames"
      | Some entries =>
          if maxModelRenameRules <? Z.of_nat (List.length entries)
          then bad InvalidModelRename "model_renames must contain at most 32 entries" "runtime.model_renames"
          else rename_entries 0 entries []
      end
  | _ => bad InvalidModelRename model_renames_shape "runtime.model_renames"
  end.

Definition runtime_key (k : string) (v : json) (p : SettingsPatch) : res SettingsPatch :=
  if String.eqb k "log_client_request_body" then bool_key k v (fun b => p <| pLogClientRequestBody := Some b |>)
  else if String.eqb k "log_upstream_request_body" then bool_key k v (fun b => p <| pLogUpstreamRequestBody := Some b |>)
  else if String.eqb k "log_upstream_response_body" then bool_key k v (fun b => p <| pLogUpstreamResponseBody := Some b |>)
  else if String.eqb k "log_retention_days" then
    match dec_int v 0 with
    | None => bad setup.InvalidRetention "log_retention_days must be an integer in [1, 365]" "runtime.log_retention_days"
    | Some n => of_setup (setup.ValidateRetention n) (Ok (p <| pLogRetentionDays := Some n |>))
    end
  else if String.eqb k "log_level" then
    match dec_string v "" with
    | None => bad setup.InvalidLogLevel "log_level must be one of debug, info, warn, error" "runtime.log_level"
    | Some s => of_setup (setup.ValidateLogLevel s) (Ok (p <| pLogLevel := Some s |>))
    end
  else if String.eqb k "model_renames" then
    rules ← decodeModelRenameRules v; Ok (p <| pModelRenames := Some rules |>)
  else unpatchable "config key %q is not patchable in 002" ("runtime." +:+ k).

Definition plugin_key (id : string) (block : json) (p : SettingsPatch) : res SettingsPatch :=
  match object_of block with
  | None => Err (mkPErr InvalidPluginFlag "plugins.%s must be an object {enabled: bool}" [FStr id] ("plugins." +:+ id))
  | Some sub =>
      match List.find (fun kv => negb (String.eqb (fst kv) "enabled")) (range sub) with
      | Some (k, _) => unpatchable "config key %q is not patchable in 002" ("plugins." +:+ id +:+ "." +:+ k)
      | None =>
          match sub !! "enabled" with
          | None => Ok p
          | Some enabledRaw =>
              match unmarshalBool enabledRaw with
              | None => Err (mkPErr InvalidPluginFlag "plugins.%s.enabled must be a boolean" [FStr id] ("plugins." +:+ id +:+ ".enabled"))
              | Some b =>
                  if String.eqb id "admin_auth" then Ok (p <| pAdminAuthEnabled := Some b |>)
                  else if String.eqb id "client_keys" then Ok (p <| pClientKeysEnabled := Some b |>)
                  else unpatchable "config key %q is not patchable in 002" ("plugins." +:+ id)
              end
          end
      end
  end.

Definition network_key (k : string) (v : json) (p : SettingsPatch) : res SettingsPatch :=
  if String.eqb k "proxy_url" then
    match v with
    | JNull => bad setup.MalformedBody (dq "network.proxy_url must be a string or '' to clear") "network.proxy_url"
    | JStr s =>
        match ParseAndValidate s with
        | Err _ => bad InvalidProxyURL "invalid proxy url" "network.proxy_url"
        | Ok _ => Ok (p <| pNetworkProxyURL := Some s |>)
        end
    | _ => bad InvalidProxyURL (dq "network.proxy_url must be a string (http/https/socks5/socks5h) or '' to clear")
             "network.proxy_url"
    end
  else unpatchable "config key %q is not patchable" ("network." +:+ k).

(** One of the three blocks, when it is there. *)
Definition block (name : string) (nullable : bool) (f : string -> json -> SettingsPatch -> res SettingsPatch)
    (raw : raw_object) (p : SettingsPatch) : res SettingsPatch :=
  match raw !! name with
  | None => Ok p
  | Some v =>
      let malformed := bad setup.MalformedBody (name +:+ " must be a JSON object") "" in
      match v, object_of v with
      | JNull, _ => if nullable then Ok p else malformed
      | _, Some m => each f (range m) p
      | _, None => malformed
      end
  end.

Definition patchable : list string := ["runtime"; "plugins"; "network"].

Definition parseAndValidatePatch (raw : raw_object) : res SettingsPatch :=
  match List.find (fun kv => negb (existsb (String.eqb (fst kv)) patchable)) (range raw) with
  | Some (k, _) => unpatchable "config key %q is not patchable" k
  | None =>
      p ← block "runtime" true runtime_key raw no_patch;
      p ← block "plugins" true plugin_key raw p;
      block "network" false network_key raw p
  end.

End decode.

(** The keys of a patch, for the audit line. *)
Definition isSome {A} (o : option A) : bool := match o with Some _ => true | None => false end.
Definition present_keys (l : list (bool * string)) : list string := snd <$> filter (fun x => fst x = true) l.

Definition NetworkKeys (p : SettingsPatch) : list string := present_keys [(isSome (pNetworkProxyURL p), "proxy_url")].
Definition RuntimeKeys (p : SettingsPatch) : list string :=
  present_keys [(isSome (pLogClientRequestBody p), "log_client_request_body");
    (isSome (pLogUpstreamRequestBody p), "log_upstream_request_body");
    (isSome (pLogUpstreamResponseBody p), "log_upstream_response_body");
    (isSome (pLogRetentionDays p), "log_retention_days"); (isSome (pLogLevel p), "log_level");
    (isSome (pModelRenames p), "model_renames")].
Definition PluginKeys (p : SettingsPatch) : list string :=
  present_keys [(isSome (pAdminAuthEnabled p), "admin_auth"); (isSome (pClientKeysEnabled p), "client_keys")].
Definition IsEmpty (p : SettingsPatch) : bool :=
  match RuntimeKeys p, PluginKeys p, NetworkKeys p with [], [], [] => true | _, _, _ => false end.

(** ** Keys that the environment owns *)

Definition probes (p : SettingsPatch) : list (bool * string) :=
  [(isSome (pLogClientRequestBody p), "runtime.log_client_request_body");
   (isSome (pLogUpstreamRequestBody p), "runtime.log_upstream_request_body");
   (isSome (pLogUpstreamResponseBody p), "runtime.log_upstream_response_body");
   (isSome (pLogRetentionDays p), "runtime.log_retention_days");
   (isSome (pLogLevel p), "runtime.log_level");
   (isSome (pModelRenames p), "runtime.model_renames");
   (isSome (pAdminAuthEnabled p), "plugins.admin_auth.enabled");
   (isSome (pClientKeysEnabled p), "plugins.client_keys.enabled")].

Definition env_prefix : string := "env:".
Definition envOverriddenPatchField (p : SettingsPatch) (src : SourceMap) : option (string * string) :=
  x ← List.find (fun pr => fst pr && HasPrefix (default "" (src !! snd pr)) env_prefix) (probes p);
  Some (snd x, TrimPrefix (default "" (src !! snd x)) env_prefix).

(** ** The updater *)

Definition override {A} (o : option A) (old : A) : A := default old o.

(** [cloneConfig] and [applyPatch]; a nil list of renames becomes empty. *)
Definition applyPatch (c : Config) (p : SettingsPatch) : Config :=
  let rt := Runtime c in
  let pl := Plugins c in
  c <| Runtime := mkRuntime (override (pLogClientRequestBody p) (LogClientRequestBody rt))
         (override (pLogUpstreamRequestBody p) (LogUpstreamRequestBody rt))
         (override (pLogUpstreamResponseBody p) (LogUpstreamResponseBody rt))
         (override (pLogRetentionDays p) (LogRetentionDays rt)) (override (pLogLevel p) (LogLevel rt))
         (UsageRefreshIntervalSeconds rt) (Some (override (pModelRenames p) (default [] (ModelRenames rt)))) |>
    <| Plugins := mkPlugins
         (mkAdminAuth (override (pAdminAuthEnabled p) (AdminAuthEnabled (AdminAuth pl))) (SessionTTLMinutes (AdminAuth pl))
            (JWTSecretRef (AdminAuth pl)))
         (mkClientKeys (override (pClientKeysEnabled p) (ClientKeysEnabled (ClientKeys pl)))) |>
    <| Network := mkNetwork (override (pNetworkProxyURL p) (ProxyURL (Network c))) |>.

(** The file system, the two published slots and the proxy. *)
Record state := mkState { s_fs : FS; s_live : live; s_proxy : option GoURL.URL }.

(** What one update meets: the process, the clock, the faults, the
    environment. *)
Record world := mkWorld {
  o_pid : Z; o_now : stamp; o_io : io_faults; o_stat : option error; o_read : option error; o_env : option Env }.

(** The reload hook: [applyOutboundProxy]. *)
Definition reload (c : option Config) (slot : option GoURL.URL) : option GoURL.URL :=
  Configure (match c with Some c => ProxyURL (Network c) | None => "" end) slot.

(** [ConfigUpdater.Update]. *)
Definition Updater_Update (w : world) (path : string) (p : SettingsPatch) (s : state) : result error Config * state :=
  if String.eqb path "" then (Err (New "adminapi.ConfigUpdater: path is empty"), s)
  else match livePtr (s_live s) with
  | None => (Err (New "adminapi.ConfigUpdater: no live config"), s)
  | Some cur =>
      let r := WriteAtomic (s_fs s) path (o_pid w) (o_now w) (o_io w) (Some (applyPatch cur p)) in
      let s1 := mkState (w_fs r) (s_live s) (s_proxy s) in
      match w_err r with
      | Some e => (Err (Wrapf "write config.json: %w" [] e), s1)
      | None =>
          match o_env w with
          | None =>
              let next := stamp_config (o_now w) (applyPatch cur p) in
              (Ok next, mkState (w_fs r) (Publisher_Store (s_live s) (Some next)) (reload (Some next) (s_proxy s)))
          | Some env =>
              match Load None (w_fs r) path (o_stat w) (o_read w) env with
              | Err e => (Err (Wrapf "reload config.json: %w" [] e), s1)
              | Ok (loaded, src) =>
                  (Ok loaded,
                   mkState (w_fs r) (Publisher_Store (SourcePublisher_Store (s_live s) (Some src)) (Some loaded))
                     (reload (Some loaded) (s_proxy s)))
              end
          end
      end
  end.

(** ** The handler *)

(** The envelope: a configuration to show, a business error, a system error. *)
Inductive answer :=
  | Shown (c : Config)
  | Refused (code : Z) (field : string)
  | SystemError (code : Z).

(** [httpio.DecodeJSON]: one JSON document of one content type.  A body over
    the limit is refused; [overlong] tells whether it is its first document
    that passes the limit. *)
Definition DecodeJSON (overlong : bool) (contentTypes : list string) (body : reader) : Z + json :=
  match contentTypes with
  | [ct] =>
      match ParseMediaType ct with
      | Some (mediaType, _) =>
          if negb (String.eqb mediaType "application/json") then inl setup.MalformedBody
          else if SettingsMaxBodyBytes <? lenZ (rd_data body) then inl (if overlong then RequestBodyTooLarge else setup.MalformedBody)
          else match rd_err body, json_parse (rd_data body) with
               | None, Some v => inr v
               | _, _ => inl setup.MalformedBody
               end
      | None => inl setup.MalformedBody
      end
  | _ => inl setup.MalformedBody
  end.

Definition Get_ (s : state) : answer :=
  match livePtr (s_live s) with Some c => Shown c | None => Refused setup.SetupRequired "" end.

Definition Update (range : raw_object -> list (string * json)) (w : world) (path : string) (overlong : bool)
    (contentTypes : list string) (body : reader) (s : state) : answer * state :=
  match DecodeJSON overlong contentTypes body with
  | inl code => (Refused code "", s)
  | inr v =>
      match v, object_of v with
      | JNull, _ | _, None => (Refused setup.MalformedBody "", s)
      | _, Some raw =>
          match parseAndValidatePatch range raw with
          | Err e => (Refused (e_Code e) (e_Field e), s)
          | Ok patch =>
              match liveSourcePtr (s_live s) ≫= envOverriddenPatchField patch with
              | Some (field, _) => (Refused EnvOverrideReadonly field, s)
              | None =>
                  match Updater_Update w path patch s with
                  | (Ok c, s') => (Shown c, s')
                  | (Err _, s') => (SystemError setup.ConfigWriteFailed, s')
                  end
              end
          end
      end
  end.

(** ** The database block of the settings page *)

(** [filepath.Base]. *)
Definition Base (path : string) : string :=
  if String.eqb path "" then "."
  else
    let p := TrimRightByte "/"%char path in
    let p := match LastIndexByte p "/" with Some i => drop_str (S i) p | None => p end in
    if String.eqb p "" then "/" else p.

(** [strings.Fields]. *)
Definition Fields (s : string) : list string :=
  let flush (acc : list (Z * string)) (out : list string) := match acc with [] => out | _ => concat_bytes (rev acc) :: out end in
  let '(acc, out) := foldl (fun '(acc, out) p => if IsSpace (fst p) then ([], flush acc out) else (p :: acc, out))
                       ([], []) (runes s) in
  rev (flush acc out).

Definition with_port (host port : string) : string :=
  if negb (String.eqb host "") && negb (Contains host ":") then host +:+ ":" +:+ port else host.

(** The last [key=value] of each key. *)
Definition keyword (key : string) (toks : list string) : string :=
  foldl (fun old tok => match Cut tok "=" with
                        | (k, v, true) => if String.eqb k key then v else old
                        | _ => old end) "" toks.

Definition parsePostgresDSN (dsn : string) : string * string :=
  if HasPrefix dsn "postgres://" || HasPrefix dsn "postgresql://" then
    match Parse dsn with
    | None => ("", "")
    | Some u => (with_port (Host u) "5432", TrimPrefix (default "" (unescape encodePath (RawPath u))) "/")
    end
  else
    let toks := Fields dsn in
    let host := keyword "host" toks in
    let port := keyword "port" toks in
    if String.eqb host "" then ("", keyword "dbname" toks)
    else (host +:+ ":" +:+ (if String.eqb port "" then "5432" else port), keyword "dbname" toks).

Definition parseMySQLDSN (dsn : string) : string * string :=
  match Cut dsn "@" with
  | (_, rest, true) =>
      match IndexByte rest "(", IndexByte rest ")" with
      | Some open, Some close =>
          if (close <? open)%nat then ("", "")
          else
            let host := take_str (close - S open) (drop_str (S open) rest) in
            let after := TrimPrefix (drop_str (S close) rest) "/" in
            (with_port host "3306", fst (fst (Cut after "?")))
      | _, _ => ("", "")
      end
  | _ => ("", "")
  end.

(** Driver, host and database name. *)
Definition projectDB (db : DBConfig) : string * string * string :=
  if String.eqb (Driver db) "sqlite3" then (Driver db, "local", Base (config.URL db))
  else if String.eqb (Driver db) "postgres" then (Driver db, fst (parsePostgresDSN (config.URL db)), snd (parsePostgresDSN (config.URL db)))
  else if String.eqb (Driver db) "mysql" then (Driver db, fst (parseMySQLDSN (config.URL db)), snd (parseMySQLDSN (config.URL db)))
  else (Driver db, "", "").

End settings.

Example projectDB_ex :
  settings.projectDB (mkDB "mysql" "u:p@tcp(db)/router?x=1") = ("mysql", "db:3306", "router")
  /\ settings.projectDB (mkDB "postgres" "host=h dbname=d user=u password=p") = ("postgres", "h:5432", "d")
  /\ settings.projectDB (mkDB "postgres" "postgres://u:p@h/d?sslmode=off") = ("postgres", "h:5432", "d")
  /\ settings.projectDB (mkDB "sqlite3" "/var/lib/router.db") = ("sqlite3", "local", "router.db").
Proof. vm_compute. done. Qed.

(** The credentials of a MySQL DSN are cut off at the first [@], so a password
    that holds one is shown in part. *)
Example mysql_password_shown :
  settings.projectDB (mkDB "mysql" "u:s(e@cr(et@tcp(db:3306)/router") = ("mysql", "et@tcp(db:3306", "router").
Proof. vm_compute. done. Qed.
