(* ===== verification/SettingsProofs.v ===== *)
(** * SettingsProofs: what a patch may be, and what an update does *)

From S2P Require Import Prelude GoLib GoHTTP GoURL GoJSON GoTime GoBufio Errors GoOS Config ConfigWriter ConfigProofs Setup Settings.
Import config settings.

(** ** Patches as sequences of changes *)

Inductive change :=
  | CNothing
  | CClientBody (b : bool) | CUpstreamBody (b : bool) | CResponseBody (b : bool)
  | CRetention (n : Z) | CLevel (s : string) | CRenames (l : list ModelRenameRule)
  | CAdminAuth (b : bool) | CClientKeys (b : bool) | CProxy (s : string).

Definition apply_change (ch : change) (p : SettingsPatch) : SettingsPatch :=
  match ch with
  | CNothing => p
  | CClientBody b => p <| pLogClientRequestBody := Some b |>
  | CUpstreamBody b => p <| pLogUpstreamRequestBody := Some b |>
  | CResponseBody b => p <| pLogUpstreamResponseBody := Some b |>
  | CRetention n => p <| pLogRetentionDays := Some n |>
  | CLevel s => p <| pLogLevel := Some s |>
  | CRenames l => p <| pModelRenames := Some l |>
  | CAdminAuth b => p <| pAdminAuthEnabled := Some b |>
  | CClientKeys b => p <| pClientKeysEnabled := Some b |>
  | CProxy s => p <| pNetworkProxyURL := Some s |>
  end.

Definition change_key (ch : change) : option string :=
  match ch with
  | CNothing => None
  | CClientBody _ => Some "log_client_request_body" | CUpstreamBody _ => Some "log_upstream_request_body"
  | CResponseBody _ => Some "log_upstream_response_body" | CRetention _ => Some "log_retention_days"
  | CLevel _ => Some "log_level" | CRenames _ => Some "model_renames"
  | CAdminAuth _ => Some "admin_auth" | CClientKeys _ => Some "client_keys" | CProxy _ => Some "proxy_url"
  end.

(** What a key may be set to. *)
Definition rule_ok (r : ModelRenameRule) : Prop :=
  From r <> "" /\ To r <> "" /\ lenZ (From r) <= maxModelRenameModelLen /\ lenZ (To r) <= maxModelRenameModelLen
  /\ From r <> To r.
Definition renames_ok (l : list ModelRenameRule) : Prop :=
  Z.of_nat (List.length l) <= maxModelRenameRules /\ Forall rule_ok l /\ NoDup (From <$> l).
Definition change_ok (ch : change) : Prop :=
  match ch with
  | CRetention n => setup.RetentionMin <= n <= setup.RetentionMax
  | CLevel s => s ∈ setup.SupportedLogLevels
  | CRenames l => renames_ok l
  | CProxy s => is_ok (ParseAndValidate s) = true
  | _ => True
  end.

Definition patch_ok (p : SettingsPatch) : Prop :=
  (forall n, pLogRetentionDays p = Some n -> setup.RetentionMin <= n <= setup.RetentionMax)
  /\ (forall s, pLogLevel p = Some s -> s ∈ setup.SupportedLogLevels)
  /\ (forall l, pModelRenames p = Some l -> renames_ok l)
  /\ (forall s, pNetworkProxyURL p = Some s -> is_ok (ParseAndValidate s) = true).

Lemma apply_change_ok ch p : change_ok ch -> patch_ok p -> patch_ok (apply_change ch p).
Proof.
  destruct p, ch; intros Hc (H1&H2&H3&H4); (split; [|split; [|split]]); intros x E; cbn in *;
    first [by eauto | by injection E as <-].
Qed.

Lemma apply_change_comm a b p :
  change_key a <> change_key b \/ change_key a = None ->
  apply_change a (apply_change b p) = apply_change b (apply_change a p).
Proof. destruct p, a, b; intros [?|?]; done. Qed.

(** A handler of one key either refuses or makes one change under that key. *)
Definition changes (f : string -> json -> SettingsPatch -> res SettingsPatch) : Prop :=
  forall k v, (forall p, is_ok (f k v p) = false)
    \/ exists ch, (forall p, f k v p = Ok (apply_change ch p)) /\ change_ok ch
         /\ (change_key ch = None \/ change_key ch = Some k).

Section each.
Context (f : string -> json -> SettingsPatch -> res SettingsPatch).
Hypothesis Hf : changes f.

Lemma each_step k v p q :
  f k v p = Ok q ->
  exists ch, (forall p, f k v p = Ok (apply_change ch p)) /\ q = apply_change ch p /\ change_ok ch
    /\ (change_key ch = None \/ change_key ch = Some k).
Proof.
  intros Hq. destruct (Hf k v) as [He|(ch & Hch & ? & ?)]; [specialize (He p); by rewrite Hq in He|].
  exists ch. rewrite Hch in Hq. by simplify_eq.
Qed.

Lemma each_ok l p q : each f l p = Ok q -> patch_ok p -> patch_ok q.
Proof.
  revert p. induction l as [|[k v] l IH]; intros p; cbn [each]; [by intros [= <-]|].
  destruct (f k v p) as [p'|] eqn:E; [|done]. cbn [mbind result_bind]. intros Hq Hp.
  destruct (each_step _ _ _ _ E) as (ch & _ & -> & Hok & _). eapply IH; [done|]. by apply apply_change_ok.
Qed.

Lemma each_perm l1 l2 p q :
  l1 ≡ₚ l2 -> NoDup l1.*1 -> each f l1 p = Ok q -> each f l2 p = Ok q.
Proof.
  intros H. revert p q. induction H as [|[k v] l1 l2 Hp IH|[k1 v1] [k2 v2] l|l1 l2 l3 H1 IH1 H2 IH2]; intros p q Hnd.
  - done.
  - cbn [each]. apply NoDup_cons in Hnd as [_ Hnd]. destruct (f k v p); [|done]. cbn [mbind result_bind]. by apply IH.
  - cbn [each]. intros H. destruct (f k2 v2 p) as [p1|] eqn:E1; [|done]. cbn [mbind result_bind] in H.
    destruct (f k1 v1 p1) as [p2|] eqn:E2; [|done]. cbn [mbind result_bind] in H.
    apply each_step in E1 as (c2 & H2 & -> & _ & Hk2). apply each_step in E2 as (c1 & H1 & -> & _ & Hk1).
    rewrite H1. cbn [mbind result_bind]. rewrite H2. cbn [mbind result_bind]. rewrite <- H. f_equal.
    apply apply_change_comm. apply NoDup_cons in Hnd as [Hn _]. cbn [fmap list_fmap fst] in Hn.
    assert (k2 <> k1) by (intros ->; apply Hn, list_elem_of_here).
    destruct Hk1 as [Hk1|Hk1], Hk2 as [Hk2|Hk2]; rewrite Hk1, Hk2; auto; left; congruence.
  - intros H. apply IH2; [by rewrite <- H1|]. by apply IH1.
Qed.

End each.

Lemma each_ext (f g : string -> json -> SettingsPatch -> res SettingsPatch) l p q :
  (forall k v p q, f k v p = Ok q -> g k v p = Ok q) -> each f l p = Ok q -> each g l p = Ok q.
Proof.
  intros H. revert p. induction l as [|[k v] l IH]; intros p; cbn [each]; [done|].
  destruct (f k v p) as [p'|] eqn:E; [|done]. rewrite (H _ _ _ _ E). cbn [mbind result_bind]. apply IH.
Qed.

Lemma find_none_perm {A} (P : A -> bool) l1 l2 : l1 ≡ₚ l2 -> List.find P l1 = None -> List.find P l2 = None.
Proof.
  intros Hp H. destruct (List.find P l2) as [x|] eqn:E; [|done]. apply List.find_some in E as [Hin Hx].
  apply list_elem_of_In in Hin. rewrite <- Hp in Hin. apply list_elem_of_In in Hin.
  by rewrite (List.find_none _ _ H _ Hin) in Hx.
Qed.

(** ** Renames *)

Section renames.
Context (range : raw_object -> list (string * json)).

Lemma rename_entry_ok idx entry seen r :
  rename_entry range idx entry seen = Ok r -> rule_ok r /\ From r ∉ seen.
Proof.
  unfold rename_entry. destruct (List.find _ _) as [[key ?]|]; [done|].
  destruct (decodeModelRenameString (entry !! "from")) as [from|]; [|done].
  destruct (decodeModelRenameString (entry !! "to")) as [to|]; [|done].
  generalize (TrimSpace from) (TrimSpace to). clear from to. intros from to.
  destruct (String.eqb_spec from ""); [done|]. destruct (String.eqb_spec to ""); [done|].
  destruct (Z.ltb_spec maxModelRenameModelLen (lenZ from)); [done|].
  destruct (Z.ltb_spec maxModelRenameModelLen (lenZ to)); [done|].
  destruct (String.eqb_spec from to); [done|].
  destruct (existsb (String.eqb from) seen) eqn:E; [done|]. intros [= <-]. split; [done|]. cbn [From].
  intros Hin. apply not_true_iff_false in E. apply E, existsb_exists. exists from.
  by rewrite list_elem_of_In in Hin; rewrite String.eqb_refl.
Qed.

Lemma rename_entries_ok idx l seen rs :
  rename_entries range idx l seen = Ok rs ->
  List.length rs = List.length l /\ Forall rule_ok rs /\ NoDup (From <$> rs) /\ (forall x, x ∈ From <$> rs -> x ∉ seen).
Proof.
  revert idx seen rs. induction l as [|e l IH]; intros idx seen rs; cbn [rename_entries].
  { intros [= <-]. repeat split; [constructor|constructor|]. intros x Hx. by apply elem_of_nil in Hx. }
  destruct (rename_entry range idx e seen) as [r|] eqn:E; [|done]. cbn [mbind result_bind].
  destruct (rename_entries range (S idx) l (From r :: seen)) as [rs'|] eqn:Es; [|done]. cbn [mbind result_bind].
  intros [= <-]. apply rename_entry_ok in E as [Hr Hn]. apply IH in Es as (Hl & Hok & Hnd & Hs).
  cbn [List.length fmap list_fmap]. split; [by rewrite Hl|]. split; [by constructor|]. split.
  - constructor; [|done]. intros Hin. by apply (Hs _ Hin), list_elem_of_here.
  - intros x [-> |Hx]%elem_of_cons; [done|]. intros Hin. by apply (Hs _ Hx), list_elem_of_further.
Qed.

Lemma decodeModelRenameRules_ok v rs : decodeModelRenameRules range v = Ok rs -> renames_ok rs.
Proof.
  unfold decodeModelRenameRules. destruct v as [| | | |l|]; try done. destruct (objects l) as [entries|]; [|done].
  destruct (Z.ltb_spec maxModelRenameRules (Z.of_nat (List.length entries))); [done|].
  intros (Hl & ? & ? & _)%rename_entries_ok. split; [by rewrite Hl|done].
Qed.

(** ** The three blocks *)

Lemma runtime_key_changes : changes (runtime_key range).
Proof.
  intros k v. unfold runtime_key, bool_key.
  repeat match goal with |- context [String.eqb k ?s] => destruct (String.eqb_spec k s) as [-> |] end.
  1-3: destruct (unmarshalBool v) as [b|]; [right|by left].
  - exists (CClientBody b). split; [done|]. by split; [|right].
  - exists (CUpstreamBody b). split; [done|]. by split; [|right].
  - exists (CResponseBody b). split; [done|]. by split; [|right].
  - destruct (dec_int v 0) as [z|]; [|by left]. unfold setup.ValidateRetention.
    destruct (Z.ltb_spec z setup.RetentionMin); [by left|].
    destruct (Z.ltb_spec setup.RetentionMax z); [by left|]. right. exists (CRetention z). split; [done|]. by split; [|right].
  - destruct (dec_string v "") as [s|]; [|by left]. unfold setup.ValidateLogLevel, setup.isValidLogLevel, setup.one_of.
    destruct (existsb _ _) eqn:E; [|by left]. right. exists (CLevel s). split; [done|]. split; [|by right].
    apply existsb_exists in E as (x & Hx & ->%String.eqb_eq). by apply list_elem_of_In.
  - destruct (decodeModelRenameRules range v) as [rs|] eqn:E; [|by left]. right. exists (CRenames rs).
    split; [done|]. split; [by eapply decodeModelRenameRules_ok|by right].
  - by left.
Qed.

Lemma plugin_key_changes : changes (plugin_key range).
Proof.
  intros id v. unfold plugin_key. destruct (object_of v) as [sub|]; [|by left].
  destruct (List.find _ _) as [[k ?]|]; [by left|].
  destruct (sub !! "enabled") as [raw|]; [|right; exists CNothing; cbn; auto].
  destruct (unmarshalBool raw) as [b|]; [|by left].
  destruct (String.eqb_spec id "admin_auth") as [-> |]; [right; exists (CAdminAuth b); cbn; auto|].
  destruct (String.eqb_spec id "client_keys") as [-> |]; [right; exists (CClientKeys b); cbn; auto|by left].
Qed.

End renames.

Lemma network_key_changes : changes network_key.
Proof.
  intros k v. unfold network_key. destruct (String.eqb_spec k "proxy_url") as [-> |]; [|by left].
  destruct v as [| | |s| |]; try by left.
  destruct (ParseAndValidate s) eqn:E; [|by left]. right. exists (CProxy s). cbn. rewrite E. auto.
Qed.

(** ** The whole patch *)

(** An order in which [range] visits maps. *)
Definition order (range : raw_object -> list (string * json)) : Prop := forall m, range m ≡ₚ map_to_list m.

Lemma order_NoDup range m : order range -> NoDup (range m).*1.
Proof. intros H. rewrite (H m). apply NoDup_fst_map_to_list. Qed.

Lemma block_ok name nullable range f raw p q :
  changes f -> block range name nullable f raw p = Ok q -> patch_ok p -> patch_ok q.
Proof.
  intros Hf. unfold block. destruct (raw !! name) as [v|]; [|by intros [= <-]].
  destruct v; cbn [object_of]; try done; [destruct nullable; [|done]; by intros [= <-]|].
  by apply each_ok.
Qed.

Lemma no_patch_ok : patch_ok no_patch.
Proof. by repeat split. Qed.

Lemma parse_patch_ok range raw p : parseAndValidatePatch range raw = Ok p -> patch_ok p.
Proof.
  unfold parseAndValidatePatch. destruct (List.find _ _) as [[k ?]|]; [done|].
  destruct (block range "runtime" _ _ _ _) as [p1|] eqn:E1; [|done]. cbn [mbind result_bind].
  destruct (block range "plugins" _ _ _ _) as [p2|] eqn:E2; [|done]. cbn [mbind result_bind]. intros E3.
  eapply block_ok; [apply network_key_changes|exact E3|].
  eapply block_ok; [apply plugin_key_changes|exact E2|].
  eapply block_ok; [apply runtime_key_changes|exact E1|apply no_patch_ok].
Qed.

Section orders.
Context (r1 r2 : raw_object -> list (string * json)) (H1 : order r1) (H2 : order r2).

Lemma order_perm m : r1 m ≡ₚ r2 m.
Proof. by rewrite (H1 m), (H2 m). Qed.

Lemma block_order name nullable f g raw p q :
  changes g -> (forall k v p q, f k v p = Ok q -> g k v p = Ok q) ->
  block r1 name nullable f raw p = Ok q -> block r2 name nullable g raw p = Ok q.
Proof.
  intros Hg Hfg. unfold block. destruct (raw !! name) as [v|]; [|done].
  destruct v; cbn [object_of]; try done.
  intros H%(each_ext _ _ _ _ _ Hfg). eapply each_perm; [done|apply order_perm|by apply order_NoDup|done].
Qed.

Lemma rename_entry_order idx e seen r : rename_entry r1 idx e seen = Ok r -> rename_entry r2 idx e seen = Ok r.
Proof.
  unfold rename_entry. destruct (List.find _ (r1 e)) as [[k ?]|] eqn:E; [done|].
  by rewrite (find_none_perm _ _ _ (order_perm e) E).
Qed.

Lemma rename_entries_order idx l seen rs : rename_entries r1 idx l seen = Ok rs -> rename_entries r2 idx l seen = Ok rs.
Proof.
  revert idx seen rs. induction l as [|e l IH]; intros idx seen rs; cbn [rename_entries]; [done|].
  destruct (rename_entry r1 idx e seen) as [r|] eqn:E; [|done]. rewrite (rename_entry_order _ _ _ _ E).
  cbn [mbind result_bind]. destruct (rename_entries r1 (S idx) l (From r :: seen)) as [rs'|] eqn:Es; [|done].
  by rewrite (IH _ _ _ Es).
Qed.

Lemma decodeModelRenameRules_order v rs : decodeModelRenameRules r1 v = Ok rs -> decodeModelRenameRules r2 v = Ok rs.
Proof.
  unfold decodeModelRenameRules. destruct v as [| | | |l|]; try done. destruct (objects l) as [es|]; [|done].
  destruct (_ <? _); [done|]. apply rename_entries_order.
Qed.

Lemma runtime_key_order k v p q : runtime_key r1 k v p = Ok q -> runtime_key r2 k v p = Ok q.
Proof.
  unfold runtime_key. repeat (case_match; [done|]).
  destruct (String.eqb k "model_renames"); [|done].
  destruct (decodeModelRenameRules r1 v) as [rs|] eqn:E; [|done]. by rewrite (decodeModelRenameRules_order _ _ E).
Qed.

Lemma plugin_key_order id v p q : plugin_key r1 id v p = Ok q -> plugin_key r2 id v p = Ok q.
Proof.
  unfold plugin_key. destruct (object_of v) as [sub|]; [|done].
  destruct (List.find _ (r1 sub)) as [[k ?]|] eqn:E; [done|]. by rewrite (find_none_perm _ _ _ (order_perm sub) E).
Qed.

Lemma parse_patch_order raw p : parseAndValidatePatch r1 raw = Ok p -> parseAndValidatePatch r2 raw = Ok p.
Proof.
  unfold parseAndValidatePatch. destruct (List.find _ (r1 raw)) as [[k ?]|] eqn:E; [done|].
  rewrite (find_none_perm _ _ _ (order_perm raw) E).
  destruct (block r1 "runtime" _ _ _ _) as [p1|] eqn:E1; [|done]. cbn [mbind result_bind].
  rewrite (block_order _ _ _ _ _ _ _ (runtime_key_changes r2) runtime_key_order E1). cbn [mbind result_bind].
  destruct (block r1 "plugins" _ _ _ _) as [p2|] eqn:E2; [|done]. cbn [mbind result_bind].
  rewrite (block_order _ _ _ _ _ _ _ (plugin_key_changes r2) plugin_key_order E2). cbn [mbind result_bind].
  apply block_order; [apply network_key_changes|done].
Qed.

End orders.

(** ** One update *)

Lemma effective_db_present env db : missing_fields db = [] -> missing_fields (effective_db env db) = [].
Proof.
  unfold missing_fields, effective_db, env_set. cbn [Driver URL].
  destruct (String.eqb_spec (Driver db) ""), (String.eqb_spec (URL db) ""); try done. intros _.
  assert (forall o d, d <> "" -> String.eqb (default d (match o with Some v => if String.eqb v "" then None else Some v | None => None end)) "" = false) as H.
  { intros [v|] d Hd; [destruct (String.eqb v "") eqn:E|]; cbn; [by apply String.eqb_neq|done|by apply String.eqb_neq]. }
  by rewrite !H.
Qed.

Lemma applyPatch_keeps c p : Version (applyPatch c p) = Version c /\ DB (applyPatch c p) = DB c.
Proof. by destruct c. Qed.

(** The configuration a patch makes of the live one. *)
Definition patched (env : Env) (now : stamp) (c : Config) (p : SettingsPatch) : Config :=
  stamp_config now (applyPatch c p) <| DB := effective_db env (DB c) |>.

(** The live configuration is one the loader accepts, and can be written. *)
Record live_ok (c : Config) (p : SettingsPatch) : Prop := {
  lo_version : Version c = SupportedVersion;
  lo_db : missing_fields (DB c) = [];
  lo_strings : config_ok (applyPatch c p) = true;
}.

(** How an update ends: published, written but not published, not written. *)
Definition ends_as (w : world) (env : Env) (path : string) (c : Config) (p : SettingsPatch) (s : state)
    (r : result error Config) (s' : state) : Prop :=
  match r with
  | Ok c' =>
      c' = patched env (o_now w) c p
      /\ s_proxy s' = Configure (ProxyURL (Network c')) (s_proxy s)
      /\ exists src, Load None (s_fs s') path None None env = Ok (c', src)
         /\ (forall k, src !! k = source_of (list_to_set tracked_keys) env k)
         /\ s_live s' = mkLive (Some c') (Some src)
  | Err _ =>
      s_live s' = s_live s /\ s_proxy s' = s_proxy s
      /\ (content (s_fs s') path = content (s_fs s) path
          \/ (o_stat w <> None \/ o_read w <> None)
             /\ exists src, Load None (s_fs s') path None None env = Ok (patched env (o_now w) c p, src))
  end.

Lemma Load_no_faults fs path sf rf env x :
  Load None fs path sf rf env = Ok x -> Load None fs path None None env = Ok x.
Proof.
  unfold Load, os_Stat, os_ReadFile. destruct sf; [by case_match|]. destruct (lookup_file fs path) as [n|]; [|done].
  destruct (is_dir n); [done|]. by destruct rf.
Qed.

Lemma Updater_Update_ends w env path c p s :
  settled (s_fs s) path -> path <> "" -> o_env w = Some env -> livePtr (s_live s) = Some c -> live_ok c p ->
  ends_as w env path c p s (fst (Updater_Update w path p s)) (snd (Updater_Update w path p s)).
Proof.
  intros Hst Hpath Henv Hlive [Hv Hm Hok]. unfold Updater_Update.
  rewrite (proj2 (String.eqb_neq path "")) by done. rewrite Hlive, Henv.
  pose proof (WriteAtomic_cases (s_fs s) path (o_pid w) (o_now w) (o_io w) (applyPatch c p) Hst) as Hc. cbv zeta in Hc.
  pose proof (WriteAtomic_writes (s_fs s) path (o_pid w) (o_now w) (o_io w) (applyPatch c p) Hst) as Hw.
  set (r := WriteAtomic _ _ _ _ _ _) in *.
  destruct (w_err r) as [e|]; cbn [fst snd ends_as s_live s_proxy s_fs].
  - split; [done|]. split; [done|]. left. destruct (payload_of _ _) as [payload|].
    + destruct Hc as (_ & _ & Hb). by eapply between_old.
    + by destruct Hc as (_ & -> & _).
  - clear Hc. destruct (Hw eq_refl) as (doc & Hdoc & Hl). clear Hw.
    destruct (stamp_config_keeps (o_now w) (applyPatch c p)) as (Eok & Edb & Ev).
    destruct (applyPatch_keeps c p) as [Ev' Edb'].
    destruct (written_loads (w_fs r) path (stamp_config (o_now w) (applyPatch c p)) doc env) as (src & HL & Hsrc);
      [by rewrite Eok|by rewrite Ev, Ev'|done|done|rewrite Edb, Edb'; by apply effective_db_present|].
    rewrite Edb, Edb' in HL. fold (patched env (o_now w) c p) in HL.
    destruct (Load None (w_fs r) path (o_stat w) (o_read w) env) as [[c' src']|e] eqn:EL;
      cbn [fst snd ends_as s_live s_proxy s_fs].
    + assert (Ok (c', src') = Ok (E := error) (patched env (o_now w) c p, src)) as [= -> ->].
      { rewrite <- HL. symmetry. by eapply Load_no_faults. }
      split; [done|]. split; [done|]. by exists src.
    + split; [done|]. split; [done|]. right. split; [|by exists src].
      destruct (o_stat w) eqn:Es; [by left|]. destruct (o_read w) eqn:Er; [by right|].
      by rewrite EL in HL.
Qed.

(** ** A patch holds what was sent *)

Definition in_block (raw : raw_object) (name key : string) : option json :=
  v ← raw !! name; m ← object_of v; m !! key.
Definition flag_of (v : json) : option bool := m ← object_of v; e ← m !! "enabled"; unmarshalBool e.
Definition rules_of (v : json) : option (list ModelRenameRule) :=
  match decodeModelRenameRules map_to_list v with Ok l => Some l | Err _ => None end.
Definition string_of (v : json) : option string := match v with JStr s => Some s | _ => None end.

(** The patch by direct lookups, with no order. *)
Definition sent (raw : raw_object) : SettingsPatch :=
  let rt := in_block raw "runtime" in
  let pl := in_block raw "plugins" in
  mkPatch (rt "log_client_request_body" ≫= unmarshalBool) (rt "log_upstream_request_body" ≫= unmarshalBool)
    (rt "log_upstream_response_body" ≫= unmarshalBool) (rt "log_retention_days" ≫= (fun v => dec_int v 0))
    (rt "log_level" ≫= (fun v => dec_string v "")) (rt "model_renames" ≫= rules_of)
    (pl "admin_auth" ≫= flag_of) (pl "client_keys" ≫= flag_of)
    (in_block raw "network" "proxy_url" ≫= string_of).

(** A field that [f] sets from the key [key] with the decoder [d]. *)
Definition sets {B} (f : string -> json -> SettingsPatch -> res SettingsPatch) (fld : SettingsPatch -> option B)
    (key : string) (d : json -> option B) : Prop :=
  forall k v p q, f k v p = Ok q ->
    if String.eqb k key then (fld q = d v \/ (d v = None /\ fld q = fld p)) else fld q = fld p.

Section fields.
Context {B : Type} (f : string -> json -> SettingsPatch -> res SettingsPatch).
Context (fld : SettingsPatch -> option B) (key : string) (d : json -> option B).
Hypothesis Hsets : sets f fld key d.

Lemma each_other l p q : each f l p = Ok q -> key ∉ l.*1 -> fld q = fld p.
Proof.
  revert p. induction l as [|[k v] l IH]; intros p; cbn [each]; [by intros [= <-]|].
  destruct (f k v p) as [p1|] eqn:E; [|done]. cbn [mbind result_bind fmap list_fmap fst].
  intros Hq [Hk Hl]%not_elem_of_cons. rewrite (IH _ Hq Hl). specialize (Hsets _ _ _ _ E).
  by rewrite (proj2 (String.eqb_neq k key)) in Hsets by done.
Qed.

Lemma each_field l p q :
  each f l p = Ok q -> NoDup l.*1 -> fld p = None ->
  fld q = (list_to_map l : raw_object) !! key ≫= d.
Proof.
  revert p. induction l as [|[k v] l IH]; intros p; cbn [each]; [by intros [= <-]|].
  destruct (f k v p) as [p1|] eqn:E; [|done]. cbn [mbind result_bind fmap list_fmap fst list_to_map foldr uncurry].
  intros Hq [Hk Hl]%NoDup_cons Hp. pose proof (Hsets _ _ _ _ E) as Hs.
  destruct (String.eqb_spec k key) as [-> |Hne].
  - rewrite (each_other _ _ _ Hq Hk). change (foldr _ ∅ l) with (list_to_map l : raw_object).
    rewrite lookup_insert_eq. change (fld p1 = d v). destruct Hs as [Hs|[Hv Hs]]; rewrite Hs; congruence.
  - rewrite lookup_insert_ne by done. apply (IH _ Hq Hl). by rewrite Hs.
Qed.

Lemma block_field range name nullable raw p q :
  order range -> block range name nullable f raw p = Ok q -> fld p = None ->
  fld q = in_block raw name key ≫= d.
Proof.
  intros Ho. unfold block, in_block. destruct (raw !! name) as [v|]; [|by intros [= <-]]. cbn [mbind option_bind].
  destruct v as [| | | | |l]; cbn [object_of mbind option_bind]; try done.
  - destruct nullable; [|done]. intros [= <-] ->. by rewrite lookup_empty.
  - intros Hq Hp. rewrite (each_field _ _ _ Hq (order_NoDup _ _ Ho) Hp). do 2 f_equal.
    rewrite <- (list_to_map_to_list (list_to_map (reverse l) : raw_object)) at 2.
    apply list_to_map_proper; [by apply order_NoDup|apply Ho].
Qed.

Lemma block_keeps range name nullable raw p q :
  (forall k v p q, f k v p = Ok q -> fld q = fld p) -> block range name nullable f raw p = Ok q -> fld q = fld p.
Proof.
  intros Hk. unfold block. destruct (raw !! name) as [v|]; [|by intros [= <-]].
  destruct v as [| | | | |l]; cbn [object_of]; try done; [destruct nullable; [|done]; by intros [= <-]|].
  generalize (range (list_to_map (reverse l))). clear l. intros l. revert p.
  induction l as [|[k v] l IH]; intros p; cbn [each]; [by intros [= <-]|].
  destruct (f k v p) as [p1|] eqn:E; [|done]. cbn [mbind result_bind]. intros Hq. by rewrite (IH _ Hq), (Hk _ _ _ _ E).
Qed.

End fields.

Lemma order_map_to_list : order map_to_list.
Proof. intros m. reflexivity. Qed.

(** One handler and one field, by cases on the key. *)
Ltac by_key :=
  intros k v p q; unfold runtime_key, bool_key, plugin_key, network_key, of_setup, bad, unpatchable, mbind, result_bind;
  repeat match goal with
  | |- context [String.eqb k ?s] =>
      destruct (String.eqb_spec k s) as [-> |]; [cbn [String.eqb Ascii.eqb Bool.eqb]|]
  end;
  repeat (case_match; try done); intros; simplify_eq; cbn; auto.

Section block_sets.
Context (range : raw_object -> list (string * json)) (Hr : order range).

Lemma runtime_sets_bools :
  sets (runtime_key range) pLogClientRequestBody "log_client_request_body" unmarshalBool
  /\ sets (runtime_key range) pLogUpstreamRequestBody "log_upstream_request_body" unmarshalBool
  /\ sets (runtime_key range) pLogUpstreamResponseBody "log_upstream_response_body" unmarshalBool.
Proof. split; [|split]; by_key. Qed.

Lemma runtime_sets_values :
  sets (runtime_key range) pLogRetentionDays "log_retention_days" (fun v => dec_int v 0)
  /\ sets (runtime_key range) pLogLevel "log_level" (fun v => dec_string v "").
Proof. split; by_key. Qed.

Lemma runtime_sets_renames : sets (runtime_key range) pModelRenames "model_renames" rules_of.
Proof.
  by_key. left. unfold rules_of.
  match goal with H : decodeModelRenameRules _ _ = Ok _ |- _ =>
    by rewrite (decodeModelRenameRules_order _ _ Hr order_map_to_list _ _ H) end.
Qed.

Lemma plugin_sets :
  sets (plugin_key range) pAdminAuthEnabled "admin_auth" flag_of
  /\ sets (plugin_key range) pClientKeysEnabled "client_keys" flag_of.
Proof.
  split; intros k v p q; unfold plugin_key, flag_of;
    (destruct (object_of v) as [sub|]; [|done]); (destruct (List.find _ _) as [[? ?]|]; [done|]);
    cbn [mbind option_bind]; (destruct (sub !! "enabled") as [e|]; cbn [mbind option_bind];
      [|intros [= <-]; destruct (String.eqb k _); auto]);
    (destruct (unmarshalBool e) as [b|]; [|done]);
    (destruct (String.eqb_spec k "admin_auth") as [-> |];
      [|destruct (String.eqb_spec k "client_keys") as [-> |]; [|done]]);
    intros [= <-]; cbn; auto.
Qed.

Lemma runtime_keeps k v p q :
  runtime_key range k v p = Ok q ->
  pAdminAuthEnabled q = pAdminAuthEnabled p /\ pClientKeysEnabled q = pClientKeysEnabled p
  /\ pNetworkProxyURL q = pNetworkProxyURL p.
Proof. revert k v p q. by_key. Qed.

Lemma plugin_keeps k v p q :
  plugin_key range k v p = Ok q ->
  exists a c, q = p <| pAdminAuthEnabled := a |> <| pClientKeysEnabled := c |>.
Proof.
  destruct p as [? ? ? ? ? ? a c ?].
  revert k v q. intros k v q. unfold plugin_key. repeat (case_match; try done);
    intros [= <-]; [by exists (Some b), c|by exists a, (Some b)|by exists a, c].
Qed.
End block_sets.

Lemma network_keeps k v p q :
  network_key k v p = Ok q -> exists u, q = p <| pNetworkProxyURL := u |>.
Proof.
  unfold network_key. repeat (case_match; try done). intros [= <-]. by eexists.
Qed.

Lemma network_sets : sets network_key pNetworkProxyURL "proxy_url" string_of.
Proof. by_key. Qed.

Lemma parse_patch_sent range raw p :
  order range -> parseAndValidatePatch range raw = Ok p -> p = sent raw.
Proof.
  intros Hr. unfold parseAndValidatePatch. destruct (List.find _ _) as [[k ?]|]; [done|].
  destruct (block range "runtime" _ _ _ _) as [p1|] eqn:E1; [|done]. cbn [mbind result_bind].
  destruct (block range "plugins" _ _ _ _) as [p2|] eqn:E2; [|done]. cbn [mbind result_bind]. intros E3.
  destruct (runtime_sets_bools range) as (S1 & S2 & S3). destruct (runtime_sets_values range) as (S4 & S5).
  pose proof (runtime_sets_renames range Hr) as S6. destruct (plugin_sets range) as (S7 & S8).
  pose proof (block_field _ _ _ _ S1 _ _ _ _ _ _ Hr E1 eq_refl) as F1.
  pose proof (block_field _ _ _ _ S2 _ _ _ _ _ _ Hr E1 eq_refl) as F2.
  pose proof (block_field _ _ _ _ S3 _ _ _ _ _ _ Hr E1 eq_refl) as F3.
  pose proof (block_field _ _ _ _ S4 _ _ _ _ _ _ Hr E1 eq_refl) as F4.
  pose proof (block_field _ _ _ _ S5 _ _ _ _ _ _ Hr E1 eq_refl) as F5.
  pose proof (block_field _ _ _ _ S6 _ _ _ _ _ _ Hr E1 eq_refl) as F6.
  assert (pAdminAuthEnabled p1 = None /\ pClientKeysEnabled p1 = None /\ pNetworkProxyURL p1 = None) as (N7 & N8 & N9).
  { assert (forall B (fld : SettingsPatch -> option B),
      (forall k v p q, runtime_key range k v p = Ok q -> fld q = fld p) -> fld p1 = fld no_patch) as K1
      by (intros B fld Hfld; by eapply (block_keeps _ fld)).
    split; [|split]; [apply (K1 _ pAdminAuthEnabled)|apply (K1 _ pClientKeysEnabled)|apply (K1 _ pNetworkProxyURL)];
      intros ? ? ? ? H; apply runtime_keeps in H; apply H. }
  pose proof (block_field _ _ _ _ S7 _ _ _ _ _ _ Hr E2 N7) as F7.
  pose proof (block_field _ _ _ _ S8 _ _ _ _ _ _ Hr E2 N8) as F8.
  assert (forall B (fld : SettingsPatch -> option B),
    (forall r a c, fld (r <| pAdminAuthEnabled := a |> <| pClientKeysEnabled := c |>) = fld r) -> fld p2 = fld p1) as K2.
  { intros B fld Hfld. eapply (block_keeps _ fld); [|exact E2]. intros ? ? ? ? (a & c & ->)%plugin_keeps. apply Hfld. }
  assert (forall B (fld : SettingsPatch -> option B),
    (forall r u, fld (r <| pNetworkProxyURL := u |>) = fld r) -> fld p = fld p2) as K3.
  { intros B fld Hfld. eapply (block_keeps _ fld); [|exact E3]. intros ? ? ? ? (u & ->)%network_keeps. apply Hfld. }
  assert (pNetworkProxyURL p2 = None) as N9' by (by rewrite (K2 _ pNetworkProxyURL)).
  pose proof (block_field _ _ _ _ network_sets _ _ _ _ _ _ Hr E3 N9') as F9.
  unfold sent. rewrite <- F1, <- F2, <- F3, <- F4, <- F5, <- F6, <- F7, <- F8, <- F9.
  rewrite <- (K2 _ pLogClientRequestBody), <- (K2 _ pLogUpstreamRequestBody), <- (K2 _ pLogUpstreamResponseBody),
    <- (K2 _ pLogRetentionDays), <- (K2 _ pLogLevel), <- (K2 _ pModelRenames) by done.
  rewrite <- (K3 _ pLogClientRequestBody), <- (K3 _ pLogUpstreamRequestBody), <- (K3 _ pLogUpstreamResponseBody),
    <- (K3 _ pLogRetentionDays), <- (K3 _ pLogLevel), <- (K3 _ pModelRenames), <- (K3 _ pAdminAuthEnabled),
    <- (K3 _ pClientKeysEnabled) by done. by destruct p.
Qed.

(** ** Properties *)


(** The environment can only own the keys of the database, none of which a
    patch has. *)
Lemma env_guard_idle present env src p :
  (forall k, src !! k = source_of present env k) -> envOverriddenPatchField p src = None.
Proof.
  intros H. unfold envOverriddenPatchField.
  destruct (List.find _ (probes p)) as [[b k]|] eqn:E; [|done]. exfalso.
  apply List.find_some in E as [Hin Hk]. cbn [fst snd] in Hk. apply andb_prop in Hk as [_ Hk].
  rewrite H in Hk. revert Hk. unfold probes in Hin.
  repeat (destruct Hin as [[= _ <-]|Hin]; [unfold source_of, keep; cbn; by case_bool_decide|]). done.
Qed.

(** The patch a request asks for. *)
Definition asks (range : raw_object -> list (string * json)) (overlong : bool) (cts : list string) (body : reader)
    (p : SettingsPatch) : Prop :=
  exists v raw, DecodeJSON overlong cts body = inr v /\ v <> JNull /\ object_of v = Some raw
    /\ parseAndValidatePatch range raw = Ok p.

