(* ===== verification/Witnesses.v ===== *)
(** * Witnesses: each property with hypotheses, applied to a concrete input

    The accounts table is the in-memory engine of [Engine] with sqlite's
    second precision; rows, patches and requests are small closed terms. *)

From S2P Require Import Prelude GoLib GoURL Errors Account Engine Store SessionRouter Selector AccountService OAuthFlow OAuthRefresh.

(** ** Closed data *)

Definition w_oauth : UpstreamAccount :=
  zero_account <| ID := 1 |> <| Name := "plus" |> <| Provider := "openai" |>
    <| Status := "active" |> <| AuthMethod := AuthMethodOAuthBrowser |>
    <| AccessToken := Some "at" |> <| RefreshToken := Some "rt" |> <| IDToken := Some "it" |>
    <| LastRefresh := Some (Unix 1000) |> <| AccessExpiresAt := Some (Unix 5000) |>.

Definition w_api : UpstreamAccount :=
  zero_account <| ID := 2 |> <| Name := "team" |> <| Provider := "openai" |>
    <| APIKey := "sk-x" |> <| Status := "active" |> <| AuthMethod := AuthMethodAPIKey |>
    <| Capabilities := Some ["op.openai.responses"] |>.

Definition w_db : memdb := <[1 := w_oauth]> (<[2 := w_api]> ∅).

#[local] Instance w_engine : XormEngine memdb := memEngine "sqlite".
#[local] Instance w_laws : XormLaws memdb := memLaws "sqlite".
#[local] Instance w_others : Others memdb := fun _ db => db.

(** A refresh at 2000.5 s of a row last refreshed at 1000.25 s. *)
Definition w_patch (new : Z) : CredentialPatch :=
  mkCredentialPatch AuthMethodOAuthBrowser "" (Some "at2") (Some "rt2") (Some "it2")
    (Some (new * 10 ^ 9 + 500000000)) (Some (1000 * 10 ^ 9 + 250000000)) (Some (Unix 9000))
    None None None.

Lemma w_rows_dec (P : UpstreamAccount -> Prop) `{forall a, Decision (P a)} (db : memdb) :
  bool_decide (map_Forall (fun _ a => P a) (eng_rows db)) = true ->
  forall k a, eng_rows db !! k = Some a -> P a.
Proof. intros Hb k a Ha. apply bool_decide_eq_true in Hb. by apply (Hb k). Qed.

Lemma w_table_ok (db : memdb) :
  bool_decide (map_Forall (fun _ a => Validate (Some a) = None) (eng_rows db)) = true -> table_ok db.
Proof. intros Hb k a. by apply (w_rows_dec (fun a => Validate (Some a) = None)). Qed.

Lemma w_others_allowed : others_allowed (DB := memdb).
Proof. intros i db. reflexivity. Qed.

Lemma w_quiet : quiet (DB := memdb).
Proof. done. Qed.

Lemma w_no_errors : no_db_errors (DB := memdb).
Proof. split; intros; eauto. Qed.

(** ** Store *)

Definition w_refreshed : memdb := snd (AccountRepo.run (AccountRepo.CUpdateCredentials 1 (w_patch 2000)) w_db).


Lemma credential_refresh_lock_witness :
  exists a u,
     eng_rows (others 0 w_db) !! 1 = Some a /\ Status a <> AccountStatusDeleted
     /\ LastRefresh a = Some (eng_trunc (1000 * 10 ^ 9 + 250000000))
     /\ eng_rows w_refreshed !! 1 = Some (stored (write_oauth (w_patch 2000) a) <| UpdatedAt := u |>)
     /\ forall k, k <> 1 -> eng_rows w_refreshed !! k = eng_rows (others 0 w_db) !! k.
Proof.
  refine (proj1 (credential_refresh_lock 1 (w_patch 2000) (1000 * 10 ^ 9 + 250000000)
    w_db (Ok tt) w_refreshed eq_refl eq_refl _) eq_refl).
  vm_compute. reflexivity.
Defined.

Lemma refresh_race_one_winner_witness :
  fst (AccountRepo.UpdateCredentials 1 (w_patch 2001) w_refreshed) <> Ok tt.
Proof.
  apply (refresh_race_one_winner 1 (w_patch 2000) (w_patch 2001) (1000 * 10 ^ 9 + 250000000)
           (2000 * 10 ^ 9 + 500000000) w_db w_refreshed w_quiet);
    try reflexivity; vm_compute; congruence.
Defined.

Lemma export_exactly_live_oauth_witness :
  exists p, fst (AccountRepo.GetForExport 1 w_db) = Ok p /\ ex_AccessToken p = Some "at".
Proof.
  destruct (export_exactly_live_oauth 1 w_db (fst (AccountRepo.GetForExport 1 w_db)) w_db
              (Some w_oauth)) as [_ H].
  - apply w_table_ok. vm_compute. reflexivity.
  - vm_compute. reflexivity.
  - vm_compute. reflexivity.
  - exists (payload_of w_oauth). split; [exact (proj1 H) | reflexivity].
Defined.

Definition w_db_rotated : memdb := <[1 := w_oauth <| AccessToken := Some "other" |>]> (<[2 := w_api]> ∅).

Lemma w_agree : agree_but_secrets (DB := memdb) w_db w_db_rotated.
Proof.
  intros k. unfold w_db, w_db_rotated. cbn [eng_rows w_engine memEngine].
  rewrite !mem_rows_lookup. destruct (decide (k = 1)) as [->|Hk].
  - rewrite !lookup_insert_eq. simpl. repeat eexists.
  - rewrite !lookup_insert_ne by done. destruct (decide (k = 2)) as [->|Hk2].
    + rewrite !lookup_insert_eq. simpl. by exists (APIKey w_api), None, None, None.
    + by rewrite !lookup_insert_ne, !lookup_empty by done.
Qed.

Lemma admin_reads_token_free_witness :
  fst (AccountRepo.ListForAdminAPI w_db) = fst (AccountRepo.ListForAdminAPI w_db_rotated).
Proof.
  destruct (admin_reads_token_free w_db w_db_rotated 1 w_agree) as [H _].
  assert (exists l, fst (AccountRepo.ListForAdminAPI w_db) = Ok l) as [l1 E1] by (eexists; vm_compute; reflexivity).
  assert (exists l, fst (AccountRepo.ListForAdminAPI w_db_rotated) = Ok l) as [l2 E2]
    by (eexists; vm_compute; reflexivity).
  rewrite E1, E2, (H l1 l2 E1 E2). reflexivity.
Defined.

Definition w_new : UpstreamAccount :=
  zero_account <| Name := "first" |> <| Provider := "openai" |> <| APIKey := "sk-1" |>
    <| Status := "active" |>.

Definition w_created := AccountRepo.CreateIdempotentByName w_new w_db.

Lemma create_idempotent_witness :
  exists r, fst w_created = Ok r
    /\ exists row, eng_rows (snd w_created) !! ID r = Some row /\ Name row = "first".
Proof.
  assert (exists r, fst w_created = Ok r) as [r E] by (eexists; vm_compute; reflexivity).
  exists r. split; [exact E|].
  apply (create_idempotent w_new w_db r (snd w_created) w_quiet).
  rewrite <- E. apply surjective_pairing.
Defined.

Definition w_details : AccountDetailsPatch := mkAccountDetailsPatch (Some "renamed") None None None.
Definition w_edit := AccountRepo.UpdateDetails 2 w_details w_db.

Lemma update_details_behaviour_witness :
  exists t,
    fst w_edit = Ok (stored (apply_details w_details w_api) <| UpdatedAt := t |>)
    /\ eng_rows (snd w_edit) !! 2 = Some (stored (apply_details w_details w_api) <| UpdatedAt := t |>)
    /\ forall k, k <> 2 -> eng_rows (snd w_edit) !! k = eng_rows w_db !! k.
Proof.
  refine (update_details_behaviour 2 w_details w_db (fst w_edit) (snd w_edit) w_quiet w_no_errors
    (surjective_pairing _) _).
  apply w_table_ok. vm_compute. reflexivity.
Defined.

(** ** Account *)

Lemma capability_exact_witness :
  HasCapabilityFor w_api "op.openai.responses.create" = true <->
  "op.openai.responses" ∈ slice_list (Capabilities w_api).
Proof.
  assert (Validate (Some w_api) = None) as Hv by (vm_compute; reflexivity).
  apply (proj1 (capability_exact w_api "op.openai.responses.create" Hv) "op.openai.responses" "create").
  - do 2 right. left.
  - reflexivity.
  - reflexivity.
Defined.

(** ** Routing *)

Definition hash_le (a b : hashEntry) : Prop := hash a <= hash b.
#[local] Instance hash_le_dec a b : Decision (hash_le a b) := Z_le_dec (hash a) (hash b).
#[local] Instance w_sort : SortSlice := merge_sort hash_le.
#[local] Instance w_sort_laws : SortSliceLaws.
Proof.
  split.
  - apply merge_sort_Permutation.
  - intros l. apply Sorted_StronglySorted; [intros a b c; unfold hash_le; lia|].
    apply Sorted_merge_sort. intros a b. unfold hash_le. lia.
Qed.

Definition w_accts : list UpstreamAccount := [w_oauth; w_api; zero_account <| ID := 3 |>].

Lemma Route_correct_witness :
  exists r, Route 4 "session-a" w_accts = Ok r /\ r ∈ w_accts.
Proof.
  pose proof (Route_correct 4 "session-a" w_accts ltac:(lia)) as H.
  assert (exists r, Route 4 "session-a" w_accts = Ok r) as [r E] by (apply Route_total; discriminate).
  rewrite E in H. exists r. split; [exact E | exact (proj1 H)].
Defined.

(** No ties, decided on the ring itself. *)
Definition no_ties_b (ring : list hashEntry) : bool :=
  forallb (fun e1 => forallb (fun e2 => negb (hash e1 =? hash e2) || (accountID e1 =? accountID e2)) ring) ring.

Lemma no_ties_b_ok ring : no_ties_b ring = true -> no_ties ring.
Proof.
  unfold no_ties_b. rewrite forallb_forall. intros H e1 e2 H1 H2 Hh.
  apply list_elem_of_In in H1, H2. specialize (H _ H1). rewrite forallb_forall in H.
  specialize (H _ H2). apply orb_true_iff in H as [H|H]; breflect; congruence.
Qed.

(** The session's owner, after the first other account is taken out. *)
Definition w_owner : UpstreamAccount :=
  match Route 4 "session-a" w_accts with Ok r => r | Err _ => zero_account end.
Definition w_rest : list UpstreamAccount := List.filter (fun a => ID a =? ID w_owner) w_accts.

Lemma Route_minimal_disruption_witness : Route 4 "session-a" w_rest = Ok w_owner.
Proof.
  assert (exists r, Route 4 "session-a" w_rest = Ok r) as [r E].
  { apply Route_total. vm_compute. discriminate. }
  rewrite E. f_equal.
  apply (Route_minimal_disruption 4 "session-a" w_accts w_rest w_owner r).
  - lia.
  - apply no_ties_b_ok. vm_compute. reflexivity.
  - intros x [Hx _]%elem_filter. exact Hx.
  - apply (bool_decide_unpack _). vm_compute. exact I.
  - vm_compute. reflexivity.
  - vm_compute. repeat constructor.
  - exact E.
Defined.

(** ** Selection *)

Definition w_selector : AccountSelector memdb := mkAccountSelector (Some (Route 4)) None.
Definition w_active : list UpstreamAccount := [w_oauth; w_api].

Lemma w_list_active : repo_ListActive (S := memdb) w_db = (Ok w_active, w_db).
Proof. vm_compute. reflexivity. Qed.

Definition w_pick := pick w_selector "session-a" None (w_db, 7).

Lemma pick_sound_witness :
  exists a, fst w_pick = Ok a /\ available (S := memdb) None w_db a.
Proof.
  assert (exists a, fst w_pick = Ok a) as [a E] by (eexists; vm_compute; reflexivity).
  exists a. split; [exact E|].
  assert (fst (snd w_pick) = w_db /\ match Ok (E := error) a with
          | Ok a => available (S := memdb) None w_db a
          | Err e => e = Sentinel ErrNoCapacity /\ forall a, ~ available (S := memdb) None w_db a
          end) as [_ H]; [|exact H].
  apply (pick_sound w_selector "session-a" None (w_db, 7) (Ok a) (snd w_pick) w_active).
  - intros route k l [= <-] Hne. destruct (Route_total 4 k l Hne) as [b Hb].
    exists b. split; [exact Hb|]. apply (Route_owner 4 k l b ltac:(lia) Hb).
  - exact w_list_active.
  - rewrite <- E. apply surjective_pairing.
Defined.

Lemma round_robin_fair_witness :
  exists served, fst (picks w_selector 2 None (w_db, 7)) = Ok served
    /\ served = rotate 7 w_active /\ served ≡ₚ w_active.
Proof.
  apply (round_robin_fair w_selector None (w_db, 7) w_active w_list_active).
  - discriminate.
  - cbn. lia.
  - cbn. lia.
Defined.

Lemma select_by_id_decides_witness :
  fst (SelectByIDEligible w_selector 5 None w_db)
  = Err (AccountSelectionError 5 AccountUnavailableMissing).
Proof.
  refine (proj1 (select_by_id_decides w_selector 5 None w_db
    (fst (SelectByIDEligible w_selector 5 None w_db)) (snd (SelectByIDEligible w_selector 5 None w_db))
    (surjective_pairing _) _)).
  intros _. left. vm_compute. reflexivity.
Defined.

(** ** The account service *)

Lemma w_undisturbed : undisturbed (S := memdb).
Proof.
  split; [done|]. split.
  - intros id s a Ha. cbn [repo_GetByID store_repository].
    pose proof (GetByID_ok id s w_no_errors) as E. cbn [repo_rows store_repository] in Ha.
    by rewrite E, Ha.
  - intros id s a st Ha. cbn [repo_UpdateStatus store_repository repo_rows] in *.
    unfold AccountRepo.UpdateStatus, mbind, M_bind, wrap_err, fail, mret, M_ret. cbn [eng_update w_engine memEngine].
    assert (a ∈ List.filter (AccountRepo.by_id id) (mem_list s)) as Hin.
    { apply elem_filter. unfold AccountRepo.by_id. rewrite mem_list_elem.
      cbn [eng_rows w_engine memEngine] in Ha. rewrite (mem_rows_id _ _ _ Ha), Z.eqb_refl. done. }
    destruct (List.filter _ _) as [|x l] eqn:E; [by apply not_elem_of_nil in Hin|].
    by destruct (_ =? 0) eqn:Ez; [breflect|].
Qed.

Definition w_disable := AccountService.Disable (S := memdb) 2 w_db.

Lemma lifecycle_refines_witness :
  fst w_disable = Ok tt /\ status_of (snd w_disable) 2 = Some AccountStatusDisabled.
Proof.
  assert (repo_rows w_db !! 2 = Some w_api) as Ha by (vm_compute; reflexivity).
  exact (proj1 (lifecycle_refines AccountService.OpDisable 2 w_db (fst w_disable) (snd w_disable) w_api
    w_undisturbed Ha (surjective_pairing _))).
Defined.

(** The race that [undisturbed] excludes: a deletion between the read and the
    write of [Enable] is undone by it. *)
Section Race.
Let deleted_meanwhile : Others memdb := fun _ db => snd (AccountRepo.UpdateStatus 2 AccountStatusDeleted db).
#[local] Existing Instance deleted_meanwhile.

Example enable_resurrects :
  let db0 := snd (AccountRepo.UpdateStatus 2 AccountStatusDisabled w_db) in
  status_of (snd (AccountService.Enable (S := memdb) 2 db0)) 2 = Some AccountStatusActive.
Proof. vm_compute. reflexivity. Qed.
End Race.

Definition w_create := AccountService.Create (S := memdb) " new " "" "sk-new" None None w_db.

Lemma create_account_witness :
  exists acct, fst w_create = Ok acct
    /\ exists row, repo_rows (snd w_create) !! ID acct = Some row /\ Name row = "new".
Proof.
  assert (exists acct, fst w_create = Ok acct) as [acct E] by (eexists; vm_compute; reflexivity).
  exists acct. split; [exact E|].
  destruct (create_account " new " "" "sk-new" None None w_db (fst w_create) (snd w_create)
              (surjective_pairing _)) as (_ & _ & _ & H).
  destruct (H acct E) as (_ & (row & Hr & _ & Hn & _) & _).
  exists row. split; [exact Hr | exact Hn].
Defined.

(** ** Token refresh *)

Definition w_renv (now : Z) (answer : provider_answer) : refresh_env :=
  mkRefreshEnv (Unix now) (Unix now) (fun _ _ => answer) (fun _ => Ok (mkClaims "a@example.com" "plus" "acc" None))
    None (fun _ => "failed").

Definition w_new_tokens : Tokens :=
  mkTokens (Some "at3") (Some "rt3") (Some "it3") (3600 * Second) (Unix 4000).

Definition w_refresh := refreshIfStaleOnce (DB := memdb) (w_renv 4000 (PTokens w_new_tokens)) (Some w_oauth) w_db.

Lemma w_refreshable : refreshable w_oauth (Unix 1000) (Unix 3000).
Proof. repeat split; vm_compute; reflexivity. Qed.


(** A refresher that still holds the row as of 500 s, and whose refresh token
    is refused for good. *)
Definition w_stale : UpstreamAccount := w_oauth <| LastRefresh := Some (Unix 500) |>.
Definition w_refused (attempt : nat) : refresh_env :=
  w_renv 2900 (PError (TokenExchangeError "invalid_grant" "refresh token rotated" 400 None)).
Definition w_loser := RefreshIfStale (DB := memdb) w_refused (Some w_stale) w_db.

