(* ===== verification/FlowWitnesses.v ===== *)
(** * FlowWitnesses: concrete schedules of the OAuth coordinator

    Each property of [OAuthCoordinator] applied to the end of a legal
    schedule, and two schedules that exhibit races of the code. *)

From S2P Require Import Prelude GoLib Errors Account OAuthFlow OAuthCoordinator.

(** A provider and a store that answer every request. *)
Definition w_tokens : Tokens :=
  mkTokens (Some "at") (Some "rt") (Some "it") (3600 * Second) (Unix 1700000000).

Definition w_claims : Claims := mkClaims "a@example.com" "plus" "acc-1" None.

Definition w_env (now : Z) : env :=
  mkEnv (Unix now) (fun _ _ => Ok w_tokens) (fun _ _ => Ok w_tokens) (fun _ => Ok w_claims)
    (fun _ => Ok 7) (fun _ => "failed") false.

Lemma w_env_ok now : env_ok (w_env now).
Proof. repeat split; done. Qed.

Definition w_flow : Flow := browser_flow "fl_1" "st" "ver" (Unix 1700000000) true.

Lemma w_flow_fresh : fresh_flow w_flow.
Proof. left. exists "fl_1", "st", "ver", (Unix 1700000000), true. repeat split; done. Qed.

(** Thread [i] does [n] actions. *)
Definition go (i n : nat) : list action := repeat (ARun i (w_env 1700000010)) n.

Ltac legal_tac :=
  repeat first
    [ exact I
    | apply conj
    | apply w_env_ok
    | apply w_flow_fresh
    | (let f := fresh in let H := fresh in
       intros f H; vm_compute in H; first [discriminate H | injection H as <-; reflexivity])
    | (let H := fresh in intros H; discriminate H) ].

(** Thread 0 starts the flow, thread 1 consumes the code on the loopback
    rail up to the end. *)
Definition w_success : list action :=
  ASpawn (PStart w_flow) :: go 0 3 ++
  ASpawn (PConsume "fl_1" (OpConsume "code" "st" RailLoopback)) :: go 1 13.

Definition w_started : system := fold_left exec1 (ASpawn (PStart w_flow) :: go 0 3) (mkSystem [] init_shared).
Definition w_done : system := fold_left exec1 w_success (mkSystem [] init_shared).

Lemma w_started_reachable : reachable w_started.
Proof. apply exec_steps. cbn [legal_all go repeat app legal entry]. legal_tac. Qed.

Lemma w_done_reachable : reachable w_done.
Proof. apply exec_steps. cbn [w_success legal_all go repeat app legal entry]. legal_tac. Qed.

Example w_done_outcome :
  (f_Status <$> flows (mem w_done) !! "fl_1") = Some FlowStatusSuccess
  /\ flowPtr (mem w_done) = None /\ persisted (mem w_done) = ["fl_1"].
Proof. vm_compute. done. Qed.

Definition w_end : Flow := default w_flow (flows (mem w_done) !! "fl_1").

Lemma flow_single_winner_witness :
  (count (holds "fl_1") (threads w_done) <= 1)%nat
  /\ count (String.eqb "fl_1") (persisted (mem w_done)) = 1%nat.
Proof.
  destruct (flow_single_winner w_done "fl_1" w_end w_done_reachable) as (H1 & _ & _ & H2 & _).
  - vm_compute. reflexivity.
  - split; [exact H1 | apply H2; vm_compute; reflexivity].
Defined.

(** A late rail and two status polls after the end of the flow. *)
Definition w_after : list action :=
  ASpawn (PConsume "fl_1" (OpConsume "code" "st" RailManualPaste)) :: go 2 8 ++
  ASpawn PGetFlow :: go 3 4 ++ ASpawn PGetFlow :: go 4 4.

Definition w_later : system := fold_left exec1 w_after w_done.

Lemma w_later_steps : rtc step w_done w_later.
Proof. apply exec_steps. cbn [w_after legal_all go repeat app legal entry]. legal_tac. Qed.

(** The late rail is told so; the first poll gets the snapshot, the second
    none. *)
Example w_later_answers :
  (threads w_later !! 2%nat) = Some (PDone (OErr (Sentinel ErrAlreadyConsumed)))
  /\ (threads w_later !! 4%nat) = Some (PDone (OSnap (Ok idleFlowSnapshot)))
  /\ reports (mem w_later) = ["fl_1"].
Proof. vm_compute. done. Qed.

Lemma flow_outcome_final_witness :
  count (String.eqb "fl_1") (persisted (mem w_later)) = count (String.eqb "fl_1") (persisted (mem w_done)).
Proof.
  apply (flow_outcome_final w_done w_later "fl_1" w_end w_done_reachable w_later_steps);
    vm_compute; reflexivity.
Defined.


Lemma single_flow_in_progress_witness : flowPtr (mem w_started) = Some "fl_1".
Proof.
  apply (single_flow_in_progress w_started "fl_1" w_flow w_started_reachable); vm_compute; reflexivity.
Defined.

(** ** Races

    A poll that read the status before the flow ended hands out the terminal
    snapshot without marking it, so the next poll hands it out again. *)
Definition w_race_poll : list action :=
  ASpawn (PStart w_flow) :: go 0 3 ++
  ASpawn (PConsume "fl_1" (OpConsume "code" "st" RailLoopback)) :: go 1 8 ++
  ASpawn PGetFlow :: go 2 2 ++ go 1 5 ++ go 2 1 ++ ASpawn PGetFlow :: go 3 4.

Definition snap_status (p : option pc) : option string :=
  match p with Some (PDone (OSnap (Ok s))) => Some (s_Status s) | _ => None end.

Example terminal_snapshot_delivered_twice :
  let y := fold_left exec1 w_race_poll (mkSystem [] init_shared) in
  reachable y
  /\ snap_status (threads y !! 2%nat) = Some FlowStatusSuccess
  /\ snap_status (threads y !! 3%nat) = Some FlowStatusSuccess.
Proof.
  split; [|vm_compute; done].
  apply exec_steps. cbn [w_race_poll legal_all go repeat app legal entry]. legal_tac.
Qed.

(** A code consumed between the compare-and-swap of a cancellation and its
    write of the status gets an internal error, not [ErrAlreadyConsumed]. *)
Definition w_race_cancel : list action :=
  ASpawn (PStart w_flow) :: go 0 3 ++
  ASpawn (PCancel "fl_1" false) :: go 1 2 ++
  ASpawn (PConsume "fl_1" (OpConsume "code" "st" RailLoopback)) :: go 2 10 ++ go 1 6.

Example cancelled_flow_internal_error :
  let y := fold_left exec1 w_race_cancel (mkSystem [] init_shared) in
  reachable y
  /\ threads y !! 1%nat = Some (PDone ODone)
  /\ threads y !! 2%nat = Some (PDone (OErr winner_not_published)).
Proof.
  split; [|vm_compute; done].
  apply exec_steps. cbn [w_race_cancel legal_all go repeat app legal entry]. legal_tac.
Qed.
