(* ===== verification/GatewayWitnesses.v ===== *)
(** * GatewayWitnesses: the data plane on concrete requests *)

From S2P Require Import Prelude GoLib GoHTTP GoJSON GoAny GoBufio Errors Account Engine Store Selector SSE.
From S2P Require Import CodexRequest ChatRequest ChatProofs GatewayRoutes Bridges Gateway Forwarder GoRegexp Redaction.
From S2P Require Import RedactionProofs AccountModels AccountModelsProofs Proxy ProxyProofs ProxyRecords.
From S2P Require Import Usage WebSocket WebSocketProofs.

Definition g_api : UpstreamAccount :=
  zero_account <| ID := 2 |> <| Name := "team" |> <| Provider := "openai" |>
    <| APIKey := "sk-x" |> <| Status := "active" |> <| AuthMethod := AuthMethodAPIKey |>
    <| Capabilities := Some ["op.openai.responses"] |>.

Definition g_db : memdb := <[2 := g_api]> ∅.

#[local] Instance g_engine : XormEngine memdb := memEngine "sqlite".
#[local] Instance g_laws : XormLaws memdb := memLaws "sqlite".
#[local] Instance g_others : Others memdb := fun _ db => db.

Definition g_sel : AccountSelector memdb := mkAccountSelector None None.

Lemma g_router_member : router_member g_sel.
Proof. done. Qed.

(** An upstream that answers 200 with a JSON body. *)
Definition g_answer : forwarder.Response :=
  forwarder.mkResponse 200 [("Content-Type", ["application/json"]); ("Set-Cookie", ["a=b"])]
    (mkReader (dq "{'id':'r','usage':{'input_tokens':1}}") None) 37.

Definition g_env : ProxyEnv := {|
  maxRequestBody := 1024; modelRename := Some [mkModelRenameRule "gpt" "gpt-5"]; accountModelRepo := None;
  codexBaseURL := ChatGPTBackendBaseURL; bodyLog := (true, false, true);
  maxSSEEventBytes := sse.DefaultMaxSSEEventBytes;
  Do := fun _ _ => Ok g_answer; net_timeout := fun _ => false; proxy_configured := false;
  gunzip := fun r => Ok r; read_bytes := rd_data; now := 0; elapsed := 0; can_flush := true; ctx_err := None |}.

Definition g_body := dq "{'model':'gpt','input':'sk-ABCDEFGHIJ'}".

Definition g_req : Request :=
  mkRequest "POST" "/v1/responses" "" [("Authorization", ["Bearer stolen"]); ("Cookie", ["s=1"]);
                                       ("Accept", ["*/*"])] (Some (mkReader g_body None)) 40 "req-1".

#[local] Abbreviation g_served := (ServeHTTP g_sel g_env defaultGatewayBridgeRegistry g_req (g_db, 0)).

(** The upstream request with the renamed model, the relayed response without
    the cookie, the record with the redacted body. *)
Example g_served_events :
  exists u rec, fst g_served =
    [ESend u; EWrite 200 [("Content-Type", ["application/json"])] (Bytes (rd_data (forwarder.rs_Body g_answer)));
     ERecord rec]
  /\ u_URL u = "https://api.openai.com/v1/responses"
  /\ u_Headers u = [("Accept", ["*/*"]); ("X-Request-Id", ["req-1"]); ("Authorization", ["Bearer sk-x"])]
  /\ u_RawBody u = dq "{'input':'sk-ABCDEFGHIJ','model':'gpt-5'}"
  /\ rr_AccountID rec = Some 2 /\ rr_Outcome rec = OutcomeSuccess /\ rr_Model rec = Some "gpt"
  /\ rr_TokenUsage rec = Some {["input" := AInt 1]}
  /\ rr_ClientRequestBody rec = Some (dq "{'input':'[redacted]','model':'gpt'}")
  /\ rr_UpstreamRequestBody rec = None
  /\ rr_UpstreamResponseBody rec = Some (dq "{'id':'r','usage':{'input_tokens':1}}").
Proof. do 2 eexists. split; [vm_compute; reflexivity|]. split_and!; vm_compute; reflexivity. Qed.

(** A chat request with a null tool on an OAuth account panics: no answer, no
    record. *)
Definition g_oauth : UpstreamAccount :=
  zero_account <| ID := 3 |> <| Name := "chatgpt" |> <| Provider := "openai" |> <| Status := "active" |>
    <| AuthMethod := AuthMethodOAuthBrowser |> <| AccessToken := Some "at" |> <| RefreshToken := Some "rt" |>.

Definition g_null_tool : Request :=
  mkRequest "POST" "/v1/chat/completions" "" []
    (Some (mkReader (dq "{'model':'gpt','messages':[{'role':'user','content':'q'}],'tools':[null]}") None)) 71 "req-2".

Definition g_hook : PreForwardHook memdb := fun acct st => (Ok (AccessToken acct, false), acct, st).

Example g_null_tool_panics :
  fst (ServeHTTP (mkAccountSelector None (Some g_hook)) g_env defaultGatewayBridgeRegistry g_null_tool (<[3 := g_oauth]> ∅, 0)) = [EPanic].
Proof. vm_compute. reflexivity. Qed.

Lemma routing_closed_witness :
  Kind (classifyGatewayRoute "POST" "/v1/responses" false) = gatewayRouteKindSupported.
Proof. apply (routing_closed "POST" "/v1/responses" false None g_api). vm_compute. reflexivity. Defined.

Definition g_oauth_bridge : operationBridge :=
  mkBridge BridgeOpenAIResponsesToCodex OpOpenAIResponsesCreate CredentialClassOAuth ContractOpenAIV1Responses
    ContractChatGPTBackendAPICodexResponses "/codex/responses" ClientResponseAdapterOpenAIResponsesJSON.

Definition g_client : ClientRequest :=
  mkClientRequest ContractOpenAIV1Responses "POST" "/v1/../admin" "" "{}" (Some (mkReader "{}" None)) 2
    [("cOOkie", ["s=1"]); ("Connection", ["X-Secret"]); ("X-Secret", ["1"])] false.


Lemma serve_answers_once_witness : answered g_req (fst g_served).
Proof.
  assert (match fst g_served with ESend _ :: _ => true | _ => false end = true) as Hs by (vm_compute; reflexivity).
  destruct (serve_answers_once g_sel g_env g_req (g_db, 0) (fst g_served) (snd g_served)
              (surjective_pairing g_served)) as [Ha|[(E & _)|(E & _)]]; [exact Ha| |].
  - exfalso. rewrite E in Hs. discriminate Hs.
  - exfalso. rewrite E in Hs. discriminate Hs.
Defined.

Definition g_sent : UpstreamRequest :=
  match fst g_served with
  | ESend u :: _ => u
  | _ => mkUpstreamRequest "" "" "" "" "" "" "" (mkReader "" None) 0 [] false 0
  end.



(** ** Models *)

Definition g_row (account : Z) (model source : string) : AccountModel :=
  mkAccountModel 1 account model source None 0 0.

Definition g_models : models.table :=
  <[(2, "gpt") := g_row 2 "gpt" AccountModelSourceManual]>
    (<[(2, "old") := g_row 2 "old" AccountModelSourceUpstream]> {[(3, "o3") := g_row 3 "o3" AccountModelSourceUpstream]}).

Lemma g_models_ok : table_ok g_models.
Proof.
  intros k r Hl. unfold g_models in Hl.
  apply lookup_insert_Some in Hl as [[<- <-]|[_ Hl]]; [split; [reflexivity|cbn; left]|].
  apply lookup_insert_Some in Hl as [[<- <-]|[_ Hl]]; [split; [reflexivity|cbn; right; left]|].
  apply lookup_singleton_Some in Hl as [<- <-]. split; [reflexivity|cbn; right; left].
Qed.

Definition no_fault : nat -> option error := fun _ => None.
Definition g_drafts : list AccountModelDraft :=
  [mkAccountModelDraft "gpt" (Some "{}"); mkAccountModelDraft "new" None; mkAccountModelDraft "new" (Some "x")].
Definition g_replaced := models.ReplaceUpstreamModels no_fault (External 1) 9 [7] None 2 g_drafts g_models.

Example g_replaced_ex :
  fst g_replaced = Ok (1, 1)
  /\ (map_to_list (m_Metadata <$> snd g_replaced))
     ≡ₚ [((2, "gpt"), Some "{}"); ((2, "new"), None); ((3, "o3"), None)].
Proof. split; [vm_compute; reflexivity|]. vm_compute. solve_Permutation. Qed.


(** Account 2 lists the model, account 4 lists none, account 3 another. *)
Definition g_models_env : ProxyEnv := {|
  maxRequestBody := 1024; modelRename := None; accountModelRepo := Some (model_repo no_fault [2; 3; 4] g_models);
  codexBaseURL := ChatGPTBackendBaseURL; bodyLog := (false, false, false);
  maxSSEEventBytes := sse.DefaultMaxSSEEventBytes;
  Do := fun _ _ => Ok g_answer; net_timeout := fun _ => false; proxy_configured := false;
  gunzip := fun r => Ok r; read_bytes := rd_data; now := 0; elapsed := 0; can_flush := true; ctx_err := None |}.

Lemma eligible_for_model_witness :
  exists ids, buildModelEligibleSet g_models_env (Some "gpt") = Ok (Some ids) /\ 2 ∈ ids /\ (3 ∉ ids) /\ 4 ∈ ids.
Proof.
  pose proof (eligible_for_model g_models_env no_fault [2; 3; 4] g_models "gpt" eq_refl g_models_ok) as Hm.
  destruct (buildModelEligibleSet g_models_env (Some "gpt")) as [[ids|]|e] eqn:E.
  - exists ids. split; [reflexivity|]. split; [|split].
    + apply Hm. left. vm_compute. eauto.
    + rewrite Hm. intros [[r Hr]|[_ Hr]]; [vm_compute in Hr; discriminate Hr|].
      specialize (Hr "o3"). vm_compute in Hr. discriminate Hr.
    + apply Hm. right. split; [apply (bool_decide_unpack _); vm_compute; exact I|]. intros m.
      unfold g_models. rewrite !lookup_insert_ne by congruence. apply lookup_singleton_ne. congruence.
  - destruct Hm.
  - destruct Hm as [i [x Hx]]. discriminate Hx.
Defined.

(** ** Findings *)

(** What a client puts into an object under [image_url] is logged. *)
Example image_url_leaks :
  redaction.RedactCapturedBody (dq "{'image_url':{'authorization':'swordfish'}}")
  = dq "{'image_url':{'authorization':'swordfish'}}".
Proof. vm_compute. reflexivity. Qed.

(** Only the first word of a header value is scrubbed from plain text. *)
Example basic_auth_leaks :
  redaction.RedactCapturedBody "Authorization: Basic c3dvcmRmaXNo" = "Authorization: [redacted] c3dvcmRmaXNo".
Proof. vm_compute. reflexivity. Qed.

(** The id shown to clients is not the one the account is listed under. *)
Example listed_id_differs :
  models.ParseModels (dq "{'models':[{'slug':'gpt-5','id':'internal-7'}]}")
  = Ok [mkAccountModelDraft "gpt-5" (Some (dq "{'id':'internal-7','object':'model','slug':'gpt-5'}"))]
  /\ fst (models.mergeAccountModelRows
       [g_row 2 "gpt-5" AccountModelSourceUpstream
          <| m_Metadata := Some (dq "{'id':'internal-7','object':'model','slug':'gpt-5'}") |>])
     = [list_to_map [("id", AStr "internal-7"); ("object", AStr "model"); ("slug", AStr "gpt-5")]].
Proof. split; vm_compute; reflexivity. Qed.

(** With a trailing slash the proxy finds the upstream and the refresh does
    not. *)
Example refresh_endpoint_slash :
  let acct := g_api <| BaseURL := Some "https://host/v1/" |> in
  models.modelListEndpoint "" CodexClientVersion acct = "https://host/v1//v1/models"
  /\ (forall b req, b_credential b = CredentialClassAPIKey -> b_upstreamPath b = "" -> c_Path req = "/v1/models" -> c_RawQuery req = "" ->
        upstreamURL b req (EffectiveBaseURL acct) = "https://host/v1/models")
  /\ ValidateBaseURL "https://host/v1/" = None.
Proof.
  split; [reflexivity|]. split; [|vm_compute; reflexivity]. intros b req Hc Hp Hpath Hq.
  unfold upstreamURL, resolvedUpstreamPath. rewrite Hc, Hp, Hpath, Hq. reflexivity.
Qed.

(** ** Redaction *)

Definition g_value : any :=
  AMap (list_to_map [("items", AArr [AMap {["api_key" := AStr "k"]}]); ("note", AStr "hello")]).


(** ** The WebSocket relay on concrete connections *)

Import websocket relay websocket_proofs.

(** The only error that carries a close code: a normal closure. *)
Definition v_closed : error := External 1000.
Definition v_broken : error := External 0.
Definition v_status (e : error) : Z := match e with External 1000 => 1000 | External 1005 => 1005 | _ => -1 end.

(** A client that opens a WebSocket with the nonce of RFC 6455. *)
Definition v_headers : Header :=
  [("Upgrade", ["WebSocket"]); ("Connection", ["keep-alive, Upgrade"]); ("Sec-Websocket-Version", ["13"]);
   ("Sec-Websocket-Key", ["dGhlIHNhbXBsZSBub25jZQ=="]); ("Authorization", ["Bearer stolen"]);
   ("X-Codex-Turn-State", [" turn-1 "])].
Definition v_req : Request := mkRequest "GET" "/v1/responses" "" v_headers None 0 "req-ws".

Definition v_ws : WSEnv :=
  mkWSEnv None (fun _ _ _ => None) (fun _ => None) (upstream_to_downstream, v_closed) v_status.
Definition v_sel : AccountSelector memdb := mkAccountSelector None (Some g_hook).

#[local] Abbreviation v_served ws r :=
  (websocket.ServeHTTP v_sel g_env ws defaultGatewayBridgeRegistry r (<[3 := g_oauth]> ∅, 0)).

(** Dialled with the account's token, relayed, recorded, closed. *)
Example v_served_events :
  exists headers rec,
    fst (v_served v_ws v_req) =
      [WDial "wss://chatgpt.com/backend-api/codex/responses?client_version=0.160.0" headers false;
       WAccept [("X-Codex-Turn-State", ["turn-1"])]; WRelay 1024; WHttp (ERecord rec);
       WCloseNow Downstream; WCloseNow Upstream]
    /\ Values headers "Authorization" = ["Bearer at"] /\ Values headers "X-Codex-Turn-State" = ["turn-1"]
    /\ Values headers "Sec-WebSocket-Key" = []
    /\ rr_StatusCode rec = 101 /\ rr_Outcome rec = OutcomeSuccess /\ rr_AccountID rec = Some 3.
Proof. do 2 eexists. split; [vm_compute; reflexivity|]. split_and!; vm_compute; reflexivity. Qed.

(** The key must decode to sixteen bytes. *)
Example v_handshake :
  webSocketHandshakeIsValid v_req = true
  /\ (fun key => StdEncoding_DecodeString key) <$> ["Zm8="; "Zm9v"; "Zg=="; "Zg="; "Zg"; "Zm9v="; "Z-=="]
     = [Some "fo"; Some "foo"; Some "f"; None; None; None; None].
Proof. split; vm_compute; reflexivity. Qed.

Lemma websocket_contract_witness :
  exists account turn url headers proxied rest,
    fst (v_served v_ws v_req) = WDial url headers proxied :: rest
    /\ dialled_for v_sel g_env v_req (classifyGatewayRoute "GET" "/v1/responses" true) (<[3 := g_oauth]> ∅) account turn
         url headers proxied
    /\ after_dial g_env v_ws v_req account turn url headers proxied rest.
Proof.
  assert (match fst (v_served v_ws v_req) with WDial _ _ _ :: _ => true | _ => false end = true) as Hs
    by (vm_compute; reflexivity).
  assert (router_member v_sel) as Hm by (intros route k l b E; discriminate E).
  assert (isGatewayWebSocketUpgrade v_headers = true) as Hu by (vm_compute; reflexivity).
  destruct (websocket_contract v_sel g_env v_ws v_req (<[3 := g_oauth]> ∅, 0) (fst (v_served v_ws v_req))
              (snd (v_served v_ws v_req)) Hm (surjective_pairing _))
    as [(l & E & s & h & w & rec & Ea & _)|[(E & _)|(account & turn & url & headers & proxied & rest & E & Hd & _ & _ & Ha)]].
  - vm_compute. reflexivity.
  - exfalso. rewrite E, Ea in Hs. discriminate Hs.
  - exfalso. rewrite E in Hs. discriminate Hs.
  - exists account, turn, url, headers, proxied, rest. split; [exact E|]. split; [|exact Ha].
    cbn [rq_Method rq_Path rq_Headers v_req] in Hd. rewrite Hu in Hd. exact Hd.
Defined.

(** ** The relay *)

Lemma run_reachable ls s s' : run v_status ls s = Some s' -> rtc (step v_status) s s'.
Proof.
  revert s. induction ls as [|l ls IH]; intros s; cbn; [intros [= ->]; apply rtc_refl|].
  destruct (step_fun v_status l s) as [s1|] eqn:E; [|done]. cbn. intros Hr. eapply rtc_l; [by econstructor|by apply IH].
Qed.

Definition v_run (ls : list label) : relay := default start (run v_status ls start).

(** One message of two pieces from client to upstream. *)
Definition v_message : list label :=
  LCopy downstream_to_upstream <$>
    [AReader (Ok 1); AWriter None; ARead "he" RMore; AWrite 2 None; ARead "y" REOF; AWrite 1 None; AClose None].
(** The handler from the first result to its return. *)
Definition v_finish : list label := repeat (LMain true) 8.

(** The upstream closes; the client's message was delivered. *)
Definition v_normal : list label :=
  v_message ++ [LCopy upstream_to_downstream (AReader (Err v_closed)); LSend upstream_to_downstream] ++ v_finish.

Example v_normal_ends :
  main (v_run v_normal) = MReturned (upstream_to_downstream, v_closed) (OutcomeSuccess, "")
  /\ k_delivered (g_copier (down_up (v_run v_normal))) = [(1, "hey")]
  /\ calls (v_run v_normal) = [CallClose Downstream 1000; CallCloseNow Downstream; CallClose Upstream 1000; CallCloseNow Upstream].
Proof. split_and!; vm_compute; reflexivity. Qed.

Lemma relay_contract_witness :
  reachable v_status (v_run v_normal)
  /\ exists code, calls (v_run v_normal) =
       [CallClose Downstream code; CallCloseNow Downstream; CallClose Upstream code; CallCloseNow Upstream].
Proof.
  assert (reachable v_status (v_run v_normal)) as Hr by (apply (run_reachable v_normal); vm_compute; reflexivity).
  split; [exact Hr|]. destruct (relay_contract v_status (v_run v_normal) Hr) as (_ & _ & Hc).
  destruct (Hc (upstream_to_downstream, v_closed) (OutcomeSuccess, "")) as (_ & _ & _ & code & _ & E);
    [vm_compute; reflexivity|]. exists code. exact E.
Defined.

(** ** Findings *)

(** A client message that breaks off after two bytes - over the read limit, or
    the client is gone - is closed on the upstream as a complete message. *)
Example truncated_delivered :
  let s := v_run (LCopy downstream_to_upstream <$>
                    [AReader (Ok 1); AWriter None; ARead "he" RMore; AWrite 2 None; ARead "" (RFailed v_broken); AClose None]) in
  k_read (g_copier (down_up s)) = [] /\ k_delivered (g_copier (down_up s)) = [(1, "he")].
Proof. split; vm_compute; reflexivity. Qed.

(** The client is gone, which the router notices when it writes to it: the
    record blames the upstream. *)
Example client_gone_blames_upstream :
  main (v_run ((LCopy upstream_to_downstream <$> [AReader (Ok 1); AWriter (Some v_broken); ADiscard])
               ++ [LSend upstream_to_downstream] ++ v_finish))
  = MReturned (upstream_to_downstream, v_broken) (OutcomeRouterError, ErrCodeUpstreamConnFailed).
Proof. vm_compute. reflexivity. Qed.

(** The upstream is gone, which the router notices when it writes to it: the
    record says that the client cancelled. *)
Example upstream_gone_cancels :
  main (v_run ((LCopy downstream_to_upstream <$> [AReader (Ok 1); AWriter (Some v_broken); ADiscard])
               ++ [LSend downstream_to_upstream] ++ v_finish))
  = MReturned (downstream_to_upstream, v_broken) (OutcomeCancelled, "").
Proof. vm_compute. reflexivity. Qed.

(** The upstream closes without a status code: an upstream failure. *)
Example no_status_close_fails :
  main (v_run ([LCopy upstream_to_downstream (AReader (Err (External 1005))); LSend upstream_to_downstream] ++ v_finish))
  = MReturned (upstream_to_downstream, External 1005) (OutcomeRouterError, ErrCodeUpstreamConnFailed).
Proof. vm_compute. reflexivity. Qed.
