(* ===== verification/ConfigWitnesses.v ===== *)
(** * ConfigWitnesses: the configuration theorems at concrete inputs

    A first write into an empty directory, a crash in the middle of one, and
    the loading of a short hand-written file. *)

From S2P Require Import Prelude GoLib GoJSON GoTime Errors GoOS Config ConfigWriter ConfigProofs.
From S2P Require Import Account Setup SetupProofs.
Import config.

Definition w_path : string := "config.json".
Definition w_empty : FS := mkFS ∅ ∅ [].
Definition w_now : stamp := utc_stamp (Unix 1700000000).

Definition w_config : Config :=
  mkConfig 1 (mkDB "sqlite3" "router.db")
    (DefaultRuntimeConfig <| ModelRenames := Some [mkRename "gpt" "gpt-<5>"] |>)
    DefaultPluginsConfig (mkNetwork "") zero_stamp zero_stamp.

Definition w_payload : string := default "" (payload_of w_now w_config).

Definition w_env : Env := fun k => if String.eqb k "ROUTER_DB_URL" then Some "other.db" else None.

Lemma w_empty_settled : settled w_empty w_path.
Proof. split; [intros ? ? H|constructor|intros ? H]; by vm_compute in H. Qed.

Lemma WriteAtomic_atomic_witness :
  let r := WriteAtomic w_empty w_path 7 w_now no_faults (Some w_config) in
  w_err r = None /\ content (w_fs r) w_path = Some w_payload
  /\ Forall (fun f => old_or_new w_empty w_path w_payload f) (w_trail r).
Proof.
  assert (payload_of w_now w_config = Some w_payload) as Hp by (vm_compute; reflexivity).
  pose proof (WriteAtomic_atomic w_empty w_path 7 w_now no_faults w_config w_payload w_empty_settled Hp)
    as (Hall & Hend & Hok).
  cbv zeta in *. rewrite (Hok eq_refl eq_refl eq_refl) in Hend |- *.
  split; [reflexivity|]. split; [exact (proj1 Hend)|].
  apply Forall_forall. intros f Hf. by apply Hall, list_elem_of_further.
Defined.

Lemma WriteAtomic_Load_witness :
  let r := WriteAtomic w_empty w_path 7 w_now no_faults (Some w_config) in
  w_err r = None /\
  exists src, Load None (w_fs r) w_path None None w_env
    = Ok (stamp_config w_now w_config <| DB := mkDB "sqlite3" "other.db" |>, src)
    /\ forall k, src !! k = source_of (list_to_set tracked_keys) w_env k.
Proof.
  assert (w_err (WriteAtomic w_empty w_path 7 w_now no_faults (Some w_config)) = None) as He
    by (vm_compute; reflexivity).
  pose proof (WriteAtomic_Load w_empty w_path 7 w_now no_faults w_config w_empty_settled) as H.
  cbv zeta in *. split; [exact He|].
  apply (proj2 (H ltac:(vm_compute; reflexivity) eq_refl He) w_env). vm_compute. reflexivity.
Defined.

(** A file that only names the database: every knob gets its default, but the
    refresh interval stays 0. *)
Definition w_short : string := dq "{'version': 1, 'db': {'driver': 'postgres', 'url': 'u'}}".
Definition w_short_fs : FS := mkFS {[1%positive := Inode w_short true false]} {[w_path := 1%positive]} [].
Definition w_no_env : Env := fun _ => None.

Lemma Load_effective_witness :
  exists c src present file,
    Load None w_short_fs w_path None None w_no_env = Ok (c, src)
    /\ json_parse w_short ≫= decode_config = Some file
    /\ c = effective present w_no_env file
    /\ (forall k, src !! k = source_of present w_no_env k)
    /\ UsageRefreshIntervalSeconds (Runtime c) = 0
    /\ UsageRefreshIntervalSeconds DefaultRuntimeConfig = 300.
Proof.
  pose proof (Load_effective w_short_fs w_path w_no_env (Inode w_short true false) eq_refl eq_refl) as H.
  assert (is_ok (Load None w_short_fs w_path None None w_no_env) = true) as Hok by (vm_compute; reflexivity).
  destruct (Load None w_short_fs w_path None None w_no_env) as [[c src]|e]; [|discriminate Hok].
  destruct H as (present & file & _ & Hf & _ & _ & Hc & Hs). cbn [data] in Hf.
  exists c, src, present, file. split; [reflexivity|]. split; [exact Hf|]. split; [exact Hc|]. split; [exact Hs|].
  split; [|reflexivity].
  rewrite Hc. cbn. vm_compute in Hf. injection Hf as <-. reflexivity.
Defined.

(** A router with pid 1 crashed right after opening its temporary file. *)
Definition w_crashed : FS :=
  hd w_empty (w_trail (WriteAtomic w_empty w_path 1 w_now no_faults (Some w_config))).

Lemma pid_reuse_blocks_writes_witness :
  let fs' := fst (SweepStale w_crashed w_path 1 (fun _ => KillESRCH) None (fun _ => None)) in
  int64_ok 1 /\ entries w_crashed !! "config.json.tmp.1" = Some 1%positive
  /\ forall now io c, exists e, w_err (WriteAtomic fs' w_path 1 now io (Some c)) = Some e
       /\ w_fs (WriteAtomic fs' w_path 1 now io (Some c)) = fs'.
Proof.
  assert (int64_ok 1) as H1 by (split; unfold MinInt64, MaxInt64; lia).
  assert (entries w_crashed !! tmpPathFor w_path 1 = Some 1%positive) as H2 by (vm_compute; reflexivity).
  split; [exact H1|]. split; [exact H2|].
  exact (proj2 (pid_reuse_blocks_writes w_crashed w_path 1 (fun _ => KillESRCH) (fun _ => None) 1%positive H1 H2)).
Defined.

Lemma config_errors_witness :
  let e := PathError "stat" "<config>" (Errorf "permission denied" []) in
  Load None w_empty w_path (Some (Errorf "permission denied" [])) None w_no_env
    = Err (Wrapf "stat config.json: %w" [] e)
  /\ mentions w_path (Wrapf "stat config.json: %w" [] e) = false.
Proof.
  assert (raw_fault w_path (Some (Errorf "permission denied" []))) as Hf by (intros ? [= <-]; split; reflexivity).
  assert (raw_fault w_path None) as Hn by (intros ? [=]).
  split; [vm_compute; reflexivity|].
  eapply (proj1 (config_errors w_path eq_refl ltac:(discriminate)) None w_empty _ None w_no_env);
    [exact Hn|exact Hf|exact Hn|]. vm_compute. reflexivity.
Defined.

(** ** A wizard run

    The database of the examples is the list of account names. *)

Import setup.

Definition w_probe (db : list string) (driver url : string) : option error := None.
Definition w_up (db : list string) : list string * option error := (db, None).
Definition w_create (db : list string) (a : UpstreamAccount) : list string * result error Z :=
  (Name a :: db, Ok (Z.of_nat (S (List.length db)))).

Definition w_commit_env : commit_env :=
  mkEnv None None 1 (fun _ => KillESRCH) None (fun _ => None) w_now w_now no_faults None.
Definition w_commit_req : CommitRequest :=
  mkCommitReq (mkDBReq "sqlite3" "router.db") (mkAccReq " main " "openai" "sk-1" None) false false None [].

Definition w_commit := Commit w_probe w_probe w_up w_create w_commit_env w_path (mkWorld [] w_empty) w_commit_req.

Example commit_runs : snd w_commit = inl (mkResult 1 1) /\ w_db (fst w_commit) = ["main"].
Proof. vm_compute. split; reflexivity. Qed.

Lemma Commit_file_last_witness :
  settled w_empty w_path
  /\ prepared w_probe w_probe w_up w_create w_commit_env (mkWorld [] w_empty) w_commit_req ["main"] 1
  /\ content (w_dir (fst w_commit)) w_path = commit_payload w_commit_env w_commit_req.
Proof.
  split; [exact w_empty_settled|].
  pose proof (Commit_file_last w_probe w_probe w_up w_create w_commit_env w_path (mkWorld [] w_empty)
    w_commit_req w_empty_settled) as (_ & _ & H & _).
  change (Commit w_probe w_probe w_up w_create w_commit_env w_path (mkWorld [] w_empty) w_commit_req)
    with w_commit in H.
  rewrite (proj1 commit_runs), (proj2 commit_runs) in H. split; [exact (proj1 H)|exact (proj2 (proj2 H))].
Defined.

Lemma Commit_Load_witness :
  snd w_commit = inl (mkResult 1 1)
  /\ IsDone (w_dir (fst w_commit)) w_path None = Ok true
  /\ exists src, config.Load None (w_dir (fst w_commit)) w_path None None w_no_env
       = Ok (stamp_config w_now (commit_config w_commit_req w_now)
             <| config.DB := config.mkDB "sqlite3" "router.db" |>, src).
Proof.
  pose proof (Commit_Load w_probe w_probe w_up w_create w_commit_env w_path (mkWorld [] w_empty)
    w_commit_req (mkResult 1 1) w_empty_settled ltac:(discriminate) ltac:(vm_compute; reflexivity)
    (proj1 commit_runs)) as (H1 & _ & H3).
  split; [exact (proj1 commit_runs)|]. split; [exact H1|]. exact (H3 w_no_env eq_refl).
Defined.
