(* ===== verification/ChatWitnesses.v ===== *)
(** * ChatWitnesses: concrete streams and requests

    The properties of event streams and of converted answers applied to
    concrete bytes, inputs on which the conversions of one answer differ, and
    the translation of request bodies. *)

From S2P Require Import Prelude GoLib GoHTTP GoJSON GoAny GoAnyProofs GoBufio Errors Usage CodexRequest.
From S2P Require Import Collector SSE SSEProofs ChatResponse ChatStream ChatStreamProofs ChatStreamTypes.
From S2P Require Import GoStrings CodexProofs ChatRequest ChatProofs.
Import codex chatresp chatstream.

Definition two_lines (l : string) : string := l +:+ newline +:+ newline.

(** A Responses stream with text, a tool call in two pieces, and usage. *)
Definition w_stream : string :=
  concat_str (List.map (fun e => two_lines ("data: " +:+ dq e))
    ["{'type':'response.created','response':{'id':'r1'}}";
     "{'type':'response.output_text.delta','delta':'hi'}";
     "{'type':'response.output_item.added','item':{'type':'function_call','call_id':'c','name':'f','arguments':''}}";
     "{'type':'response.function_call_arguments.delta','call_id':'c','delta':'{}'}";
     "{'type':'response.completed','response':{'id':'r1','usage':{'input_tokens':1},'output':[{'type':'function_call','call_id':'c','name':'f','arguments':'{}'}]}}"]).

Definition w_events : list string :=
  match parseSSEDataEvents w_stream with Ok l => l | Err _ => [] end.
Definition w_payloads : list obj := default [] (payloads_of w_events).

Lemma w_parsed : parseSSEDataEvents w_stream = Ok w_events.
Proof. vm_compute. reflexivity. Qed.
Lemma w_decoded : payloads_of w_events = Some w_payloads.
Proof. vm_compute. reflexivity. Qed.
Lemma w_streamed : well_streamed acc_start w_payloads = true.
Proof. vm_compute. reflexivity. Qed.


(** What this client has rebuilt. *)
Example w_rebuilt :
  let a := foldl (fun a p => acc_event p a) acc_start w_payloads in
  a_content a = "hi" /\ List.map Name (snd (a_tools a)) = ["f"] /\ List.map Arguments (snd (a_tools a)) = ["{}"].
Proof. vm_compute. split_and!; reflexivity. Qed.

Definition w_sse : reader :=
  mkReader (two_lines (dq "data: {'type':'response.output_text.delta','delta':'hi'}")
            +:+ two_lines (dq "data: {'type':'response.completed','response':{'usage':{'input_tokens':3}}}")) None.

Lemma forward_reads_events_witness :
  0 < 100 /\ sse.TTFTMs (fst (sse.ForwardSSE 100 5000000 true true w_sse)) = Some 5.
Proof.
  assert (0 < 100) as H by reflexivity. split; [exact H|].
  pose proof (forward_reads_events 100 5000000 true true w_sse H) as G. revert G.
  destruct (Scan (sse_limit 100) w_sse) as [ls serr] eqn:E. intros (_ & G & _). rewrite G.
  revert E. vm_compute. intros [= <- _]. reflexivity.
Defined.

Lemma forward_relays_witness :
  0 < 100 /\ written (snd (sse.ForwardSSE 100 0 false false w_sse)) = rd_data w_sse.
Proof.
  assert (0 < 100) as H by reflexivity. split; [exact H|].
  pose proof (forward_relays 100 0 false false w_sse H) as G. revert G.
  destruct (Scan (sse_limit 100) w_sse) as [ls serr] eqn:E. intros (G & _). rewrite G.
  revert E. vm_compute. intros [= <- _]. reflexivity.
Defined.

(** ** Where the conversions differ *)

Definition event (e : string) : string := two_lines ("data: " +:+ dq e).
Definition collected (b : result error (string * Z)) : option string :=
  match b with Ok (body, _) => Some body | Err _ => None end.

(** Two parallel tool calls whose argument deltas name their item, as the
    Responses API does, not their call: both deltas go to the first call. *)
Definition parallel_calls : string :=
  concat_str (List.map event
    ["{'type':'response.output_item.added','output_index':0,'item':{'type':'function_call','id':'i1','call_id':'c1','name':'f','arguments':''}}";
     "{'type':'response.output_item.added','output_index':1,'item':{'type':'function_call','id':'i2','call_id':'c2','name':'g','arguments':''}}";
     "{'type':'response.function_call_arguments.delta','output_index':0,'item_id':'i1','delta':'[1]'}";
     "{'type':'response.function_call_arguments.delta','output_index':1,'item_id':'i2','delta':'[2]'}";
     "{'type':'response.completed','response':{'output':[{'type':'function_call','call_id':'c1','name':'f','arguments':'[1]'},{'type':'function_call','call_id':'c2','name':'g','arguments':'[2]'}]}}"]).

(** What a client that appends the pieces of each index ends up with. *)
Definition client_arguments (index : Z) (o : list sse_out) : string :=
  concat_str (List.map (fun o =>
    match o with
    | Payload p =>
        match as_arr (p !! "choices") with
        | Some (AMap ch :: _) =>
            match as_map (ch !! "delta") ≫= (fun d => as_arr (d !! "tool_calls")) with
            | Some (AMap c :: _) =>
                if match c !! "index" with Some (AInt i) => i =? index | _ => false end
                then match as_map (c !! "function") with Some f => str f "arguments" | None => "" end else ""
            | _ => ""
            end
        | _ => ""
        end
    | DoneMark => ""
    end) o).

Example parallel_calls_corrupted :
  let '(s, e) := writeChatCompletionStream 7 "gpt" false (mkReader parallel_calls None) (new_stream "q" None) in
  e = None /\ client_arguments 0 (out s) = "[1][2][1]" /\ client_arguments 1 (out s) = "[2]".
Proof. vm_compute. split_and!; reflexivity. Qed.

(** The end mark of a stream: accepted when streaming, an error when collecting. *)
Definition with_done : string :=
  event "{'type':'response.completed','response':{'output':[]}}" +:+ two_lines "data: [DONE]".

Example done_mark_collected :
  snd (writeChatCompletionStream 7 "gpt" false (mkReader with_done None) (new_stream "q" None)) = None
  /\ collected (chatCompletionFromResponsesSSE "q" 7 with_done "gpt") = None.
Proof. vm_compute. split; reflexivity. Qed.

(** A response cut off at the token limit: [stop] when it arrives as JSON. *)
Example incomplete_stop :
  let body := "{'status':'incomplete','incomplete_details':{'reason':'max_output_tokens'},'output_text':'x'}" in
  collected (chatCompletionFromResponsesJSON "q" 7 (dq body) "gpt")
  = Some (dq "{'choices':[{'finish_reason':'stop','index':0,'message':{'content':'x','role':'assistant'}}],'created':7,'id':'chatcmpl_q','model':'gpt','object':'chat.completion'}")
  /\ collected (chatCompletionFromResponsesSSE "q" 7
                  (event ("{'type':'response.incomplete','response':" +:+ body +:+ "}")) "gpt")
  = Some (dq "{'choices':[{'finish_reason':'length','index':0,'message':{'content':'x','role':'assistant'}}],'created':7,'id':'chatcmpl_q','model':'gpt','object':'chat.completion'}").
Proof. vm_compute. split; reflexivity. Qed.

(** An answer that mentions [data:] is not read as the JSON it is. *)
Example data_in_json :
  collected (chatCompletionFromResponsesBody "q" 7 (mkReader (dq "{'output_text':'data: x'}") None) "application/json" "gpt")
  = None
  /\ is_Some (collected (chatCompletionFromResponsesJSON "q" 7 (dq "{'output_text':'data: x'}") "gpt")).
Proof. vm_compute. split; [reflexivity|eexists; reflexivity]. Qed.

(** ** The body translation on concrete requests *)

Import codex.

Definition w_body : string :=
  dq "{'model':'gpt','temperature':1,'verbosity':'low','input':[{'role':'assistant','content':'hi','tool_calls':[]}],'tools':[{'type':'function','name':'b'},{'name':'a','type':'web_search_preview'}],'x':[1.50]}".

Definition w_payload : obj := default ∅ (default None (Unmarshal_map w_body)).

Definition w_request : codexResponsesRequest :=
  match normalizeCodexResponsesPayloadMap (Some w_payload) codexResponsesOpenAICompat with
  | Ok r => r
  | Err _ => mkRequest "" None None "" None None None None false false None "" "" "" "" "" None ∅
  end.

Lemma w_accepted :
  normalizeCodexResponsesPayloadMap (Some w_payload) codexResponsesOpenAICompat = Ok w_request.
Proof. vm_compute. reflexivity. Qed.

Lemma w_tools : exists ts, w_payload !! "tools" = Some (AArr ts).
Proof. eexists. vm_compute. reflexivity. Qed.


Lemma codex_body_idempotent_witness :
  exists r', normalizeCodexResponsesPayloadMap (Some (Payload w_request)) codexResponsesOpenAICompat = Ok r'
    /\ Payload r' = Payload w_request.
Proof.
  destruct (codex_body_idempotent w_payload codexResponsesOpenAICompat w_request w_accepted) as (r' & H1 & H2 & _);
    [vm_compute; discriminate|]. exists r'. split; [exact H1|exact H2].
Defined.

(** A null among the tools panics instead of being refused. *)
Example null_tool_panics :
  chat.buildChatAdapterRequest
    (Some (Ok (dq "{'model':'gpt','messages':[{'role':'user','content':'q'}],'tools':[null]}"))) = chat.Panicked.
Proof. vm_compute. reflexivity. Qed.

(** Integers beyond 2^53 do not survive the translation. *)
Example large_integer_rounded :
  normalizeNativeCodexResponsesBody (dq "{'model':'gpt','input':'q','metadata':{'id':12345678901234567890}}")
  = Ok (dq "{'input':[{'content':[{'text':'q','type':'input_text'}],'role':'user'}],'instructions':'','metadata':{'id':12345678901234567000},'model':'gpt','store':false,'stream':true}").
Proof. vm_compute. reflexivity. Qed.

(** Converting messages drops an assistant's tool calls, but keeps the outputs
    that answer them. *)
Example tool_calls_dropped :
  snd (coerceMessages "" [obj_of [("role", AStr "assistant"); ("content", ANil);
         ("tool_calls", AArr [obj_of [("id", AStr "c1")]])]; obj_of [("role", AStr "tool"); ("tool_call_id", AStr "c1"); ("content", AStr "r")]])
  = [obj_of [("role", AStr "assistant"); ("content", AArr [output_text ""])]; AMap (function_call_output "c1" "r")].
Proof. vm_compute. reflexivity. Qed.
