(* ===== verification/RecordsWitnesses.v ===== *)
(** * RecordsWitnesses: the record readers, the recorder, the dashboard and the
      usage refresher on concrete data *)

From S2P Require Import Prelude GoLib GoURL GoHTTP GoStrings GoJSON GoAny GoBufio Errors Account Engine Store OAuthFlow OAuthRefresh.
From S2P Require Import Usage Bridges Forwarder Proxy Records RecordsProofs Recorder Cleanup Dashboard DashboardProofs UsageRefresher Witnesses.
Import records.

(** ** A database that compares text exactly *)

Fixpoint w_some_suffix (f : string -> bool) (v : string) : bool :=
  f v || match v with "" => false | String _ v' => w_some_suffix f v' end.

Fixpoint w_like (p v : string) : bool :=
  match p with
  | "" => String.eqb v ""
  | String c p' =>
      if Ascii.eqb c "%" then w_some_suffix (w_like p') v
      else if Ascii.eqb c "!" then
        match p' with "" => false | String c' p'' => head_like false (w_like p'') c' v end
      else if Ascii.eqb c "_" then match v with "" => false | String _ v' => w_like p' v' end
      else head_like false (w_like p') c v
  end.

Fixpoint w_lower (s : string) : string :=
  match s with "" => "" | String c s' => String (lower_byte c) (w_lower s') end.

Definition w_text (a : arg) : string := match a with TextArg s => s | _ => "" end.
Definition w_int (a : arg) : Z := match a with IntArg z => z | TimeArg t => t | _ => 0 end.

Definition w_holds (c : cond) (r : Row) : bool :=
  match c with
  | In col vals =>
      if String.eqb col "upstream_account_id"
      then match rr_AccountID (row_Rec r) with Some id => existsb (Z.eqb id) (w_int <$> vals) | None => false end
      else match text_col col r with Some v => existsb (String.eqb v) (w_text <$> vals) | None => false end
  | Where text (a :: _) =>
      if String.eqb text "created_at >= ?" then w_int a <=? row_CreatedAt r
      else if String.eqb text "created_at <= ?" then row_CreatedAt r <=? w_int a
      else if String.eqb text "upstream_account_id = ?" then bool_decide (rr_AccountID (row_Rec r) = Some (w_int a))
      else if String.eqb text "outcome = ?" then String.eqb (rr_Outcome (row_Rec r)) (w_text a)
      else existsb (fun v => w_like (w_text a) (w_lower v)) (searched r)
  | Where _ [] => false
  end.

#[local] Instance w_sql : RecordSQL := {|
  sql_holds := w_holds; sql_time := fun t => t; sql_lower := w_lower; sql_like := w_like |}.

Lemma w_some_suffix_spec f v : w_some_suffix f v = true <-> exists a b, v = a +:+ b /\ f b = true.
Proof.
  induction v as [|c v IH]; cbn [w_some_suffix]; rewrite orb_true_iff.
  - split; [intros [Hf|[=]]; by exists "", ""|]. intros (a & b & E & Hf). left. destruct a; [|done]. change ("" = b) in E. by rewrite E.
  - rewrite IH. split.
    + intros [Hf|(a & b & -> & Hf)]; [by exists "", (String c v)|by exists (String c a), b].
    + intros ([|d a] & b & E & Hf).
      * left. change (String c v = b) in E. by rewrite E.
      * change (String c v = String d (a +:+ b)) in E. injection E as -> ->. right. by exists a, b.
Qed.

Lemma w_lower_lowered s : lowered (w_lower s) = true.
Proof.
  induction s as [|c s IH]; [done|]. cbn [w_lower lowered]. rewrite IH, andb_true_r. apply Ascii.eqb_eq.
  destruct c as [[] [] [] [] [] [] [] []]; reflexivity.
Qed.

Lemma map_text (vals : list string) : w_text <$> (TextArg <$> vals) = vals.
Proof. induction vals as [|v l IH]; [done|]. cbn. by f_equal. Qed.
Lemma map_int (ids : list Z) : w_int <$> (IntArg <$> ids) = ids.
Proof. induction ids as [|v l IH]; [done|]. cbn. by f_equal. Qed.

#[local] Instance w_sql_laws : RecordSQLLaws.
Proof.
  split.
  - intros [t|t|ids|id|col vals|o|p] r Hwf; try reflexivity.
    + cbn. by rewrite map_int.
    + cbn in Hwf. apply andb_true_iff in Hwf as [Hcol _]. cbn [clause_cond sql_holds w_sql w_holds clause_holds].
      rewrite map_text. destruct (String.eqb_spec col "upstream_account_id") as [->|_]; [discriminate Hcol|done].
  - exists false. split_and!; [done| | |].
    + intros p v. apply w_some_suffix_spec.
    + done.
    + intros c p v H1%Ascii.eqb_neq H2%Ascii.eqb_neq H3%Ascii.eqb_neq. cbn. by rewrite H1, H2, H3.
  - apply w_lower_lowered.
Qed.

Definition w_rec (account : Z) (outcome : string) (ttft out : Z) : RequestRecord :=
  mkRequestRecord "r" (Some account) None "POST" "/v1/responses" 200 (Some ttft) outcome None
    (Some "gpt-5") None None "sse" (Some {["output" := AInt out]}) None None None.

(** One record an hour, the third one failed. *)
Definition w_row (k : Z) : Row :=
  mkRow k (Unix (3600 * k)) "10.0.0.1" 1500
    (w_rec (k mod 2) (if k =? 3 then "upstream_error" else "success") (100 * k) 50).
Definition w_table : table := list_to_map ((fun k => (k, w_row k)) <$> [1; 2; 3; 4; 5; 6]).

Lemma w_table_keyed : keyed w_table.
Proof.
  intros k r Hl. unfold w_table in Hl. apply elem_of_list_to_map_2 in Hl.
  apply list_elem_of_fmap in Hl as (j & [= -> ->] & _). reflexivity.
Qed.

(** ** Reading page by page *)

Definition w_params : QueryParams :=
  no_filters <| Outcomes := [" success "; ""] |> <| Search := Some " GPT-" |> <| Limit := 2 |>.

#[local] Abbreviation w_pages := (walk w_lower (fun _ => None) 7 0 w_params (fun _ => w_table)).

Lemma pages_complete_witness :
  exists l, w_pages = Ok l /\ row_ID <$> l = [6; 5; 4; 2; 1].
Proof.
  destruct (pages_complete w_lower (fun _ => None) w_lower_lowered (fun _ => eq_refl) (fun _ => w_table) w_params 7 7)
    as (l & E & _).
  - intros _. exact w_table_keyed.
  - intros _ k _. reflexivity.
  - intros k Hk. destruct (w_table !! k) as [r|] eqn:El; [exfalso|reflexivity].
    unfold w_table in El. apply elem_of_list_to_map_2, list_elem_of_fmap in El as (j & [= -> ->] & Hj).
    assert (Forall (fun i => i < 7) [1; 2; 3; 4; 5; 6]) as Hf by (repeat constructor; lia).
    assert (j < 7) as Hj7 by exact (proj1 (Forall_forall _ _) Hf j Hj). lia.
  - apply Nat.ltb_lt. vm_compute. reflexivity.
  - exists l. split; [exact E|].
    assert (match w_pages with Ok l => row_ID <$> l | Err _ => [] end = [6; 5; 4; 2; 1]) as E2 by (vm_compute; reflexivity).
    rewrite E in E2. exact E2.
Defined.

(** ** Cleanup *)

Definition w_cleanup := cleanup.cleanup (fun _ _ => None) (fun _ t => t) (fun t d => t + d * (24 * Hour)) 1 (Unix 100800) w_table.

(** The cutoff is 14400 s: the first three records go. *)
Lemma cleanup_ends_witness : exists t', w_cleanup = Some (3, t') /\ (t' : table) ⊆ w_table.
Proof.
  destruct (cleanup.cleanup_ends (fun _ _ => None) (fun t d => t + d * (24 * Hour)) 1 (Unix 100800) w_table w_table_keyed)
    as (n & t' & E & Hs & _).
  - apply Z.leb_le. vm_compute. reflexivity.
  - exists t'. split; [|exact Hs].
    assert (fst <$> w_cleanup = Some 3) as E2 by (vm_compute; reflexivity).
    unfold w_cleanup in *. rewrite E in E2. injection E2 as ->. exact E.
Defined.

(** ** The dashboard *)

Section board.
Import dashboard.

Definition w_end : time := Unix 28800.
Definition w_board_query : DashboardQuery := mkQuery "1d" None w_end.


End board.

(** ** The recorder *)

Section recorder_runs.
Import recorder.

(** A call of [Record] queues a record, then a call of [Close] starts. *)
#[local] Abbreviation w_rec0 := (Start (Rec := nat) NewRequestRecorder).
Definition w_queued : state (Rec := nat) :=
  default w_rec0
    (let s := w_rec0 <| callers := [mkCaller 7%nat RLock] |> in
     s ← record_step 0 (mkCaller 7%nat RLock) s;
     s ← record_step 0 (mkCaller 7%nat RCheck) s;
     s ← record_step 0 (mkCaller 7%nat RSend) s;
     s ← record_step 0 (mkCaller 7%nat RUnlockSent) s;
     Some (s <| closers := [KOnce] |>)).

Lemma w_queued_reachable : reachable w_queued.
Proof.
  unfold reachable.
  eapply rtc_l; [apply (step_call _ 7%nat); reflexivity|].
  do 4 (eapply rtc_l; [eapply (step_record _ 0); [reflexivity|reflexivity|vm_compute; reflexivity]|]).
  eapply rtc_l; [apply step_close_call; reflexivity|].
  vm_compute. apply rtc_refl.
Qed.

Lemma recorder_accounts_witness : omap queued (callers w_queued) ≡ₚ by_worker w_queued ++ in_hand w_queued ++ chan w_queued.
Proof. destruct (recorder_accounts w_queued w_queued_reachable) as (_ & _ & H & _). exact H. Defined.

Lemma close_can_return_witness :
  exists s', rtc step w_queued s' /\ closers s' !! 0%nat = Some KReturned /\ 7%nat ∈ by_worker s'.
Proof.
  destruct (close_can_return w_queued 0 KOnce w_queued_reachable) as (s' & H1 & H2 & _ & later & H3).
  - vm_compute. reflexivity.
  - discriminate.
  - discriminate.
  - exists s'. split; [exact H1|]. split; [exact H2|]. rewrite H3.
    apply elem_of_app. left. apply (bool_decide_unpack _). vm_compute. exact I.
Defined.

End recorder_runs.

(** ** The usage refresher *)

Import refresher.
#[local] Existing Instances w_engine w_laws w_others.

Definition w_usage : UsageResponse :=
  Some (mkRateLimit (Some (mkWindow f64_zero (Some 18000) (Some 20000))) None).

Lemma probe_policy_witness :
  usageResetFixed (Some w_usage) (Unix 2000) = false /\ usageResetFixed (Some w_usage) (Unix 2100) = true.
Proof.
  assert (in_range w_usage) as Hr.
  { intros r [= <-]. split.
    - intros x l [= <-] [= <-]. split; apply Z.leb_le; vm_compute; reflexivity.
    - intros x l [=]. }
  split.
  - apply (probe_policy (Unix 2000) w_usage Hr). right. eexists. split.
    + eexists. split; [reflexivity|]. left. reflexivity.
    + split; [vm_compute; reflexivity|]. intros reset l [= <-] [= <-]. apply Z.leb_le. vm_compute. reflexivity.
  - apply (probe_policy (Unix 2100) w_usage Hr) with (anchored := Unix 2000).
    + apply Z.ltb_lt. vm_compute. reflexivity.
    + discriminate.
    + intros w (r & [= <-] & [[= <-]|[=]]). right. exists 20000, 18000. split_and!; [reflexivity..|].
      apply Z.leb_le. vm_compute. reflexivity.
Defined.

Definition w_answer (body : string) : forwarder.Response :=
  forwarder.mkResponse 200 [] (mkReader body None) 0.
Definition w_idle_answer : forwarder.Response :=
  w_answer (dq "{'rate_limit':{'primary_window':{'used_percent':0,'limit_window_seconds':18000,'reset_at':22000}}}").
Definition w_envs (i : nat) : account_env :=
  mkEnv (fun _ => w_renv 4000 (PTokens w_new_tokens)) (fun _ => Ok w_idle_answer) (Unix 4000) (Unix 4001).

#[local] Abbreviation w_pass :=
  (refreshAll (DB := memdb) (fun r => Ok r) false ChatGPTBackendBaseURL w_envs w_db).

(** The account is refreshed, its idle window read, probed and stored. *)
Example w_pass_sent : (fun x => (fst x, is_probe (snd x))) <$> fst w_pass = [(1, false); (1, true)].
Proof. vm_compute. reflexivity. Qed.

