(* ===== verification/PlaygroundWitnesses.v ===== *)
(** * PlaygroundWitnesses: playground runs on concrete accounts *)

From S2P Require Import Prelude GoLib GoHTTP GoJSON GoAny GoBufio Errors Account Engine Store Selector GatewayRoutes Forwarder Proxy Records Playground PlaygroundProofs.
Import playground.

#[local] Instance p_engine : XormEngine memdb := memEngine "sqlite".
#[local] Instance p_laws : XormLaws memdb := memLaws "sqlite".
#[local] Instance p_others : Others memdb := fun _ db => db.

Definition p_api : UpstreamAccount :=
  zero_account <| ID := 2 |> <| Name := "team" |> <| Provider := "openai" |>
    <| APIKey := "sk-x" |> <| Status := "active" |> <| AuthMethod := AuthMethodAPIKey |>.
Definition p_oauth : UpstreamAccount :=
  zero_account <| ID := 3 |> <| Name := "chatgpt" |> <| Provider := "openai" |> <| Status := "active" |>
    <| AuthMethod := AuthMethodOAuthBrowser |> <| AccessToken := Some "at" |> <| RefreshToken := Some "rt" |>.
Definition p_db : memdb := <[2 := p_api]> {[3 := p_oauth]}.

Definition p_hook : PreForwardHook memdb := fun acct st => (Ok (Some (default (APIKey acct) (AccessToken acct)), false), acct, st).
Definition p_sel : AccountSelector memdb := mkAccountSelector None (Some p_hook).

Definition p_answer (status : Z) (ct body : string) : forwarder.Response :=
  forwarder.mkResponse status [("Content-Type", [ct])] (mkReader body None) 0.

#[local] Abbreviation p_call resp :=
  (RunPlayground (fun _ => Ok resp) None false (fun _ => false) (fun r => Ok r) false "" "q" 7 (fun _ => 0)).

Definition p_env (resp : forwarder.Response) : PlaygroundEnv :=
  mkEnv true (true, true, true) "req-1" "10.0.0.1" (2 * Second) (2 * Second) (p_call resp).

Definition p_run : RunRequest := mkRun "account" "chat_completions" (Some 3) None " gpt-5 " "hello sk-ABCDEFGHIJ" None false.

Definition p_stream : string :=
  dq "data: {'type':'response.output_text.delta','delta':'hi'}

data: {'type':'response.completed','response':{'id':'r1','usage':{'input_tokens':1}}}

".

#[local] Abbreviation p_done := (Run p_sel (p_env (p_answer 200 "text/event-stream" p_stream)) p_run (p_db, 0)).

(** A chat run on an OAuth account: converted both ways, recorded once, with
    the key in the prompt redacted. *)
Example p_done_events :
  exists s row res, fst p_done = ([s], [row], Some (Ok res))
  /\ x_URL s = "https://chatgpt.com/backend-api/codex/responses" /\ out_Text res = "hi"
  /\ rr_AccountID (records.row_Rec row) = Some 3 /\ rr_Outcome (records.row_Rec row) = "success"
  /\ rr_TokenUsage (records.row_Rec row) = Some {["input" := AInt 1]}
  /\ rr_ClientRequestBody (records.row_Rec row)
     = Some (dq "{'account_id':3,'endpoint':'chat_completions','include_raw_response':false,'max_output_tokens':1024,'model':'gpt-5','selection_mode':'account','text':'[redacted]'}").
Proof. do 3 eexists. split; [vm_compute; reflexivity|]. split_and!; vm_compute; reflexivity. Qed.


(** A body that breaks off after the headers is an internal error, although
    the wait limit of the same request is answered as a timeout. *)
Definition p_cut : forwarder.Response :=
  forwarder.mkResponse 200 [("Content-Type", ["application/json"])] (mkReader "{" (Some (Sentinel DeadlineExceeded))) 0.
Example body_timeout_internal :
  match snd (fst (Run p_sel (p_env p_cut) (p_run <| Endpoint := "responses" |>) (p_db, 0))) with
  | Some x => answer_code x = (4900, "playground_internal_error")
  | None => False
  end.
Proof. vm_compute. reflexivity. Qed.

(** The key in the model field is redacted in the logged body and stored as it
    is in the model column. *)
Example model_column_raw :
  match snd (fst (fst (Run p_sel (p_env p_cut) (p_run <| Model := "sk-ABCDEFGHIJ" |>) (p_db, 0)))) with
  | [row] => rr_Model (records.row_Rec row) = Some "sk-ABCDEFGHIJ"
  | _ => False
  end.
Proof. vm_compute. reflexivity. Qed.
