(* ===== verification/SettingsWitnesses.v ===== *)
(** * SettingsWitnesses: one change of the settings, and what it writes *)

From S2P Require Import Prelude GoLib GoHTTP GoURL GoJSON GoTime GoBufio Errors GoOS Config ConfigWriter ConfigProofs Setup Settings SettingsProofs.
Import config settings.

Definition w_settings_path : string := "config.json".
Definition w_settings_now : stamp := utc_stamp (Unix 1700000000).

(** A file that names the database, in an environment that has another one
    with credentials. *)
Definition w_file : string := dq "{'version': 1, 'db': {'driver': 'postgres', 'url': 'postgres://db/router'}}".
Definition w_files : FS := mkFS {[1%positive := Inode w_file true false]} {[w_settings_path := 1%positive]} [].
Definition w_secret_env : Env :=
  fun k => if String.eqb k "ROUTER_DB_URL" then Some "postgres://admin:hunter2@db/router" else None.

(** The state after the boot: what the loader answers is published. *)
Definition w_booted : state :=
  match Load None w_files w_settings_path None None w_secret_env with
  | Ok (c, src) => mkState w_files (mkLive (Some c) (Some src)) None
  | Err _ => mkState w_files (mkLive None None) None
  end.
Definition w_live : Config := default zero_Config (livePtr (s_live w_booted)).
Definition w_world : world := mkWorld 7 w_settings_now no_faults None None (Some w_secret_env).

Definition w_request : reader :=
  mkReader (dq "{'runtime': {'log_level': 'debug', 'log_retention_days': 7}, 'plugins': {'admin_auth': {'enabled': true}}, 'network': {'proxy_url': 'socks5://proxy:1080'}}") None.
Definition w_raw : raw_object :=
  default ∅ (json_parse (rd_data w_request) ≫= object_of).
Definition w_patch : SettingsPatch :=
  no_patch <| pLogLevel := Some "debug" |> <| pLogRetentionDays := Some 7 |> <| pAdminAuthEnabled := Some true |>
    <| pNetworkProxyURL := Some "socks5://proxy:1080" |>.

Lemma w_order : order map_to_list.
Proof. intros m. reflexivity. Qed.


Lemma w_files_settled : settled w_files w_settings_path.
Proof.
  split; [|constructor|].
  - intros name i. unfold w_files. cbn [entries inodes]. rewrite lookup_singleton_Some. intros [_ <-].
    rewrite lookup_singleton_eq. eauto.
  - intros n H. by vm_compute in H; injection H as <-.
Qed.

(** The answer, the published configuration and the file. *)
Definition w_updated : answer * state :=
  Update map_to_list w_world w_settings_path false ["application/json"] w_request w_booted.


(** The environment's database, with its password, is now in the file: without
    the variable the next boot still uses it. *)
Example env_database_persisted :
  (fun r => URL (DB (fst r))) <$> (match Load None (s_fs (snd w_updated)) w_settings_path None None (fun _ => None) with
    | Ok r => Some r | Err _ => None end)
  = Some "postgres://admin:hunter2@db/router".
Proof. vm_compute. reflexivity. Qed.

(** [null] is taken for [false]. *)
Example null_flag_accepted :
  parseAndValidatePatch map_to_list
    (default ∅ (json_parse (dq "{'runtime': {'log_client_request_body': null}}") ≫= object_of))
  = Ok (no_patch <| pLogClientRequestBody := Some false |>).
Proof. vm_compute. reflexivity. Qed.

(** A plugin that does not exist is accepted when its block is empty. *)
Example unknown_plugin_accepted :
  parseAndValidatePatch map_to_list (default ∅ (json_parse (dq "{'plugins': {'no_such': {}}}") ≫= object_of)) = Ok no_patch.
Proof. vm_compute. reflexivity. Qed.

(** The file is written, but reading it back fails: a system error is answered
    and the next boot has the new settings. *)
Example written_and_refused :
  let r := Update map_to_list (mkWorld 7 w_settings_now no_faults None (Some EISDIR) (Some w_secret_env)) w_settings_path
             false ["application/json"] w_request w_booted in
  fst r = SystemError 2903 /\ livePtr (s_live (snd r)) = Some w_live
  /\ (fun x => LogLevel (Runtime (fst x))) <$> (match Load None (s_fs (snd r)) w_settings_path None None w_secret_env with
    | Ok x => Some x | Err _ => None end) = Some "debug".
Proof. vm_compute. repeat split; reflexivity. Qed.
