(* ===== verification/ProviderWitnesses.v ===== *)
(** * ProviderWitnesses: the identity provider and auth.json at concrete inputs *)

From S2P Require Import Prelude GoLib GoURL GoStrings GoEncoding GoJSON GoTime GoAny GoBufio Errors Account Engine Store OAuthFlow OAuthRefresh OAuthProvider OAuthProviderProofs AuthJSON AuthJSONProofs.
Import provider authjson.

#[local] Instance pw_engine : XormEngine memdb := memEngine "postgres".
#[local] Instance pw_laws : XormLaws memdb := memLaws "postgres".

(** ** The provider *)

Definition w_text (_ : error) : string := "error".
Definition w_when : time := Unix 1700000000.

(** A device code that has been approved: the poll answers a code, which is
    exchanged for tokens. *)
Definition w_net (n : nat) (p : post) : result error response :=
  Ok (mkResponse 200 (mkReader
    (if String.eqb (p_URL p) openAIDeviceTokenURL
     then dq "{'authorization_code': 'c0de', 'code_verifier': 'v'}"
     else dq "{'access_token': 'at', 'refresh_token': 'rt', 'id_token': 'it', 'expires_in': 3600}") None)).

Definition w_tokens : Tokens := mkTokens (Some "at") (Some "rt") (Some "it") (3600 * Second) w_when.


(** What is sent in the exchange: the form, with reserved characters escaped. *)
Example exchange_form :
  p_Body <$> snd (run w_net w_text w_when production false (CRefresh (Some "r/t +1") false) [])
  = ["client_id=app_EMoamEEZ73f0CkXaXp7hrann&grant_type=refresh_token&refresh_token=r%2Ft+%2B1"].
Proof. vm_compute. reflexivity. Qed.

(** ** auth.json *)

(** An id token that names the account, expired at second 1600000000. *)
Definition w_claims_doc : json :=
  JObj [("email", JStr "a@b.c"); ("exp", JNum "1600000000");
        ("https://api.openai.com/auth", JObj [("chatgpt_account_id", JStr "acc-1"); ("chatgpt_plan_type", JStr "plus")])].
Definition w_id_token : string := id_token "e30" w_claims_doc "sig".
Definition w_claims : Claims := mkClaims "a@b.c" "plus" "acc-1" (Some (Unix 1600000000)).

Example w_id_token_claims : ExtractClaims w_id_token = Ok w_claims.
Proof. vm_compute. reflexivity. Qed.

Definition w_auth_file : string :=
  Marshal (JObj [("tokens", JObj [("access_token", JStr "at"); ("refresh_token", JStr "rt"); ("id_token", JStr w_id_token)])]).


(** An expired id token in a file without [last_refresh]: the account is
    imported with an expiry before its last refresh, and no refresh of it can
    ever succeed. *)
Example imported_never_refreshes :
  match import_account w_auth_file w_when with
  | inl r => match refresh_due (Account r) with Err e => errors_Is e ErrInvalidAccountShape | Ok _ => false end
  | inr _ => false
  end = true.
Proof. vm_compute. reflexivity. Qed.

Definition w_row : UpstreamAccount :=
  zero_account <| ID := 1 |> <| Name := "plus" |> <| Provider := "openai" |> <| Status := "active" |>
    <| AuthMethod := AuthMethodOAuthBrowser |> <| AccessToken := Some "at" |> <| RefreshToken := Some "rt" |>
    <| IDToken := Some w_id_token |> <| LastRefresh := Some (Unix 1000) |> <| AccessExpiresAt := Some (Unix 5000) |>
    <| ChatGPTAccountID := Some "acc-1" |>.
Definition w_table : memdb := {[1 := w_row]}.
Definition w_exported : string :=
  match ServeHTTP " 1" w_table with Attachment b => b | _ => "" end.

Lemma export_import_roundtrip_witness :
  ServeHTTP " 1" w_table = Attachment w_exported
  /\ exists r, import_account w_exported w_when = inl r /\ reimported w_row w_claims (Account r).
Proof.
  assert (ServeHTTP " 1" w_table = Attachment w_exported) as H by (vm_compute; reflexivity).
  split; [exact H|].
  destruct (export_import_roundtrip " 1" w_table w_when w_exported H) as (id & a & Hid & Ha & _ & _ & Hr).
  assert (id = 1) as -> by (vm_compute in Hid; congruence).
  assert (eng_rows w_table !! 1 = Some w_row) as Hw by (vm_compute; reflexivity).
  rewrite Hw in Ha. injection Ha as <-. apply Hr. split.
  - exists "at". repeat split; [discriminate|vm_compute; reflexivity..].
  - exists "rt". repeat split; [discriminate|vm_compute; reflexivity..].
  - exists w_id_token. split; [|vm_compute; reflexivity]. repeat split; [discriminate|vm_compute; reflexivity..].
  - vm_compute. reflexivity.
  - discriminate.
  - exists (Unix 1000). split; [reflexivity|]. vm_compute. discriminate.
Defined.
